(* ===== verification/_CoqProject ===== *)
-Q . S2P
Prelude.v
Memory.v
CLib.v
WfsLayout.v
WfsBitmap.v
WfsPath.v
WfsOps.v
WfsInv.v
WfsIO.v
WfsFile.v
WfsWrite.v
WfsMkfs.v
WfsCreate.v
Ring.v
KvStore.v
Client.v
Proc.v
ProcInv.v
ProcSched.v
Kalloc.v
Vm.v
VmMap.v
VmSpace.v
VmUser.v
VmBytes.v
Exec.v
ExecSpec.v
ExecLoad.v
ExecCorrect.v
Wmap.v
WmapInv.v
WmapFault.v
ProcSys.v
Printf.v
Console.v
Kbd.v
Grep.v
Umalloc.v
UmallocInv.v
UmallocFree.v
UmallocAlloc.v
UmallocSpec.v
Sh.v
ShGrammar.v
ShLex.v
ShParse.v
ShSpec.v
ShStrings.v
ShCorrect.v
ShRun.v
Bio.v
BioInv.v
Log.v
LogInv.v
LogCrash.v
LogSpace.v
Fsys.v
FsysInv.v
FsysTx.v
FsysAlloc.v
FsysFile.v
FsysTree.v
FsysGrow.v
FsysWrite.v
FsysExtend.v
FsysWritei.v
FsysInode.v
FsysDir.v
FsysPath.v
FsysTrunc.v
FsysNamei.v
FsysDirlink.v
FsysExamples.v
Pipe.v
Syscall.v
File.v
Sysfile.v
SysfileInv.v
FileAtomic.v
ExecFs.v
