(* ===== verification/Prelude.v ===== *)
(** Verification of the programs of this repository: a FUSE file system (p7), a
    key-value store over a shared ring buffer (p6), and two kernels that extend
    xv6: one with memory mappings (p4) and one with threads, mutexes and
    priorities (p5).

    * How the code is modelled

    Stateful code is a function of type [ST S A] (this file): it returns a value
    and the new state, or it faults, where the C code panics, leaves its memory or
    has no defined behaviour.  C integers are values of [Z] that the conversions
    [u32], [i32], [wrapu w], [wraps w] bring into their range where the code can
    leave it.  A [for] loop is [for_range]; a [while] loop is [loop] with fuel.
    Running out of fuel is a fault, so every theorem that says how a function
    returns also says that its loops end; the fuel is computed from the data of
    the loop (the length of a string, the number of bytes or blocks left), and
    lemmas with a decreasing measure ([wp_loop]) show that it is enough.
    Concurrent code (the ring buffer) is a transition system with one transition
    per statement; kernel code that runs with a lock held is one transition.
    Code that is not modelled is an argument: the classes [Services] (Proc: what
    fork and exit need from other modules), [Files] (Wmap: open files), [Devices]
    (Fsys: device files), [Inodes] (Exec: the file system, with the laws
    [ExecSpec.Files]).

    * The parts

    Shared: Prelude (integers, the monad, weakest preconditions, loops, lists,
    counting, first-fit search), Memory (byte-addressed memory: bytes, little
    endian integers, loads and stores), CLib ([strtok], [atoi]).

    p7, a file system in a mapped image.  WfsLayout: superblock, inodes and
    directory entries (wfs.h) at their offsets; WfsBitmap: allocate_block,
    flip_bit_in_bitmap; WfsPath: find_dentry, find_inode_number_by_path; WfsOps:
    wfs_getattr, wfs_mknod, wfs_mkdir, wfs_unlink, wfs_rmdir, wfs_readdir; WfsIO:
    wfs_read, wfs_write; WfsMkfs: mkfs.c.  The state is the image and the global
    [dentry_loc].  WfsInv has the layout that mkfs establishes.  Theorems:
    path resolution is the walk along the components (WfsPath); reading
    where there is no hole, and what a hole reads as (WfsFile); writing of the
    direct blocks, and reading back what was written there (WfsWrite); creation
    against a specification, its three outcomes and what it leaves alone
    (WfsCreate); mkfs makes a well-formed empty file system (WfsMkfs).

    p6.  Ring: ring_buffer.c and ring_buffer.h; KvStore: kv_store.c; Client:
    client.c.  The ring is a bounded queue under every interleaving, has no races
    and does not deadlock by itself (Ring); the table implements a finite map and
    the server answers each request with the value at that time (KvStore); the
    window protocol, the split of the work and the workload parser of the client
    with the cases in which they go wrong (Client).

    p5.  Proc: the process table (proc.c) with the reference counts of address
    spaces (vm.c); ProcSys: the system calls on mutexes, priorities and time
    (sysproc.c, mutex.c, trap.c); Kalloc: the page allocator (kalloc.c).
    Theorems: the invariants of every reachable kernel (ProcInv); the choice of
    the scheduler, exit, wait, reference counts (ProcSched); mutexes (ProcSys);
    the allocator is a stack of distinct pages (Kalloc).

    p4.  Vm: page tables (vm.c) on words of memory; Wmap: the mappings
    (sysproc.c), the page fault handler (trap.c) and their part in fork and exit
    (proc.c).  Theorems: mappages (VmMap), the search for an address, wmap of
    shared mappings, page faults, and exit with a private mapping, which never
    returns (WmapInv, WmapFault).
    An address space is a directory with its tables, its pages and the free pages,
    all different (VmSpace: [space], [arena]); allocuvm, deallocuvm and freevm lose
    no page, also when memory runs out half way (VmUser), and setupkvm makes one
    (VmUser, Module VmKernel).  VmBytes: the bytes that a process sees ([image]) and what copyout,
    clearpteu and growing do to them.  Exec: exec.c with loaduvm; ExecSpec: the image
    that a file and its arguments stand for ([plan]); ExecLoad, ExecCorrect: exec
    makes that image or changes nothing; ExecFs: fs.c, log.c and bio.c satisfy the
    laws that exec needs.
    Printf: printf.c and the cprintf of console.c, whose numbers can be read back;
    Module Screen of Printf: the display and the serial port (console.c, uart.c) show the
    text; Console: line editing, consoleread and consolewrite refine a terminal
    ([tty]); Kbd: the keyboard decoder (kbd.c, kbd.h) keeps to its types and feeds it.
    Bio: the buffer cache (bio.c, sleeplock.c) on the disk in memory (memide.c);
    Log: the log (log.c); Fsys: blocks, inodes, contents, directories and paths
    (fs.c); File: the file table (file.c); Syscall: the arguments of system calls
    (syscall.c); Sysfile: the system calls on files (sysfile.c).  Each layer runs
    on the state of the one below ([on_io], [on_base], [on_fs], [on_kern]).
    BioInv proves that the cache acts on an abstract cache [acache]: what each
    block looks like, the disk, the writes made, the dirty blocks, the buffers in
    use.  All theorems above it are about [acache]: a commit is atomic with
    respect to crashes (LogInv, LogCrash); whether the log space that begin_op
    reserves is enough: on the log that mkfs makes, for all but the very last block,
    where log_write panics (LogSpace); what an operation between begin_op and end_op may do
    and that a crash keeps all or none of it (FsysTx); balloc and bfree (FsysInv,
    FsysAlloc); readi (FsysFile); iget (FsysInode); dirlookup (FsysDir); namex
    (FsysPath), and what a path names on a consistent disk, with every reference
    counted (FsysNamei).  FsysTree describes a file as a tree of blocks next to the bitmap
    and what it means that it grows; FsysGrow and FsysExtend prove it of bmap and
    of the loop of writei, by way of FsysWrote (in FsysTx), which counts the changes
    of blocks in a transaction; FsysWritei has the invariant [file_ok] of a file and the
    theorem on writei (FsysWrite: the special case of overwriting), FsysTrunc (with
    Module FsysIput): itrunc and iput free exactly the blocks of a file, FsysDirlink: a new
    name in a directory, and a name that is there.  Syscall proves that pointers from user space are
    checked, SysfileInv that descriptors and reference counts agree after every
    call, FileAtomic that a chunk of filewrite is on the disk as a whole or not at
    all, whenever the machine stops, and that it fits the log reservation.
    Pipe: pipes (pipe.c) with any number of readers and writers as a transition
    system: they are queues, and no wake-up is lost unless a writer is killed.
    Grep: the user program grep.c: the matcher against the language of the
    pattern, and the lines printed.
    Umalloc: the allocator of user programs (umalloc.c).  UmallocInv describes the
    heap as a row of blocks that covers it without gaps; free (UmallocFree) and
    malloc (UmallocAlloc) are operations on that row, and UmallocSpec says what
    they promise to a program in the course of a session.
    Sh: the shell (sh.c): the lexer, the recursive-descent parser, which builds
    nodes in memory, and nulterminate.  ShGrammar has the grammar and a parser of
    token lists that decides it; the functions of the C code do the same on the
    line in memory (ShLex, ShParse); the words become strings (ShStrings).
    ShCorrect: parsecmd accepts exactly the lines of the grammar, and reads back
    a printed command.  ShRun: the system calls of runcmd: the programs that it
    starts, and when the forking shells wait and exit, each with its descriptors.

    Witnesses, which apply the theorems to concrete states, are in Grep, Printf,
    Console, Kbd, UmallocSpec, ShCorrect, ShRun, Pipe, Syscall, and in the Modules
    WfsExamples (WfsCreate), KvExamples (Client), ProcExamples (ProcSys), WmapExamples
    (WmapFault), ExecExamples (ExecFs), LogExamples (LogSpace), FsysExamples and
    FsysGrowExamples (FsysExamples), FileExamples (FileAtomic).

    * Limits

    The file system of p4 runs as one process: a process that has to wait for a
    buffer, an inode or log space is a fault of the model ([begin_op_turn] is one
    turn of the waiting loop), and LogSpace alone lets operations interleave.
    Where p4 and p5 have the same file, the model names one of them.  Reference
    counts of inodes and buffers do not overflow in the model.
    The console runs one call at a time: a reader that has to wait answers that it
    sleeps, and its call goes on later ([Console.event]); the ports of keyboard,
    display and serial line are inputs and outputs of the model.  exec does not
    touch the list of memory mappings (as in the code), and its arguments are
    shorter than a page and its path is not that of a device in its theorem.  The
    theorems on malloc are about requests below 2^31 - 16 bytes.
    Not modelled: boot code, the drivers of disk, timer and interrupt controllers,
    panic, context switches and spin locks (assembly, port input and output); the
    prompt of the shell and the user programs other than grep (malloc does not fail in the parser of
    the shell, whose lines have at most 99 characters; whether sbrk finds memory
    is a parameter of Umalloc); the FUSE and process glue in the main functions of
    p6 and p7; test programs. *)
From stdpp Require Export base tactics list.
From Stdlib Require Export ZArith Lia.

(** * Machine integers

    Values of C integer types are kept as [Z]; [wrapu w] and [wraps w] are the
    conversions to the unsigned and to the two's-complement signed type of
    width [w]. *)
Section MachineIntegers.
Local Open Scope Z_scope.

Definition wrapu (w z : Z) : Z := z mod 2 ^ w.
Definition wraps (w z : Z) : Z := (z + 2 ^ (w - 1)) mod 2 ^ w - 2 ^ (w - 1).

Definition u32 : Z → Z := wrapu 32.
Definition u64 : Z → Z := wrapu 64.
Definition i32 : Z → Z := wraps 32.
Definition i64 : Z → Z := wraps 64.

Lemma pow2_pos w : 0 ≤ w → 0 < 2 ^ w.
Proof. intros. by apply Z.pow_pos_nonneg. Qed.

Lemma wrapu_range w z : 0 ≤ w → 0 ≤ wrapu w z < 2 ^ w.
Proof. intros. apply Z.mod_pos_bound, pow2_pos; lia. Qed.

Lemma wrapu_small w z : 0 ≤ z < 2 ^ w → wrapu w z = z.
Proof. intros. by apply Z.mod_small. Qed.

Lemma pow2_half w : 0 < w → 2 ^ w = 2 * 2 ^ (w - 1).
Proof. intros. replace w with (Z.succ (w - 1)) at 1 by lia. by rewrite Z.pow_succ_r by lia. Qed.

Lemma wraps_range w z : 0 < w → - 2 ^ (w - 1) ≤ wraps w z < 2 ^ (w - 1).
Proof.
  intros Hw. unfold wraps.
  pose proof (Z.mod_pos_bound (z + 2 ^ (w - 1)) (2 ^ w) (pow2_pos w ltac:(lia))).
  pose proof (pow2_half w Hw). lia.
Qed.

Lemma wraps_small w z : 0 < w → - 2 ^ (w - 1) ≤ z < 2 ^ (w - 1) → wraps w z = z.
Proof.
  intros Hw Hz. unfold wraps. pose proof (pow2_half w Hw).
  rewrite Z.mod_small; lia.
Qed.

Lemma wraps_wrapu w z : 0 < w → wraps w (wrapu w z) = wraps w z.
Proof.
  intros. unfold wraps, wrapu. rewrite Zplus_mod_idemp_l. done.
Qed.

Lemma wrapu_wraps w z : 0 < w → wrapu w (wraps w z) = wrapu w z.
Proof.
  intros. unfold wraps, wrapu. rewrite Zminus_mod_idemp_l.
  f_equal. lia.
Qed.

Lemma wraps_testbit w z i : 0 < w → 0 ≤ i < w → Z.testbit (wraps w z) i = Z.testbit z i.
Proof.
  intros Hw Hi.
  rewrite <- (Z.mod_pow2_bits_low (wraps w z) w i) by lia.
  rewrite <- (Z.mod_pow2_bits_low z w i) by lia.
  f_equal. exact (wrapu_wraps w z Hw).
Qed.

Lemma i32_small z : - 2 ^ 31 ≤ z < 2 ^ 31 → i32 z = z.
Proof. intros. by apply wraps_small. Qed.
Lemma i64_small z : - 2 ^ 63 ≤ z < 2 ^ 63 → i64 z = z.
Proof. intros. by apply wraps_small. Qed.
Lemma u32_small z : 0 ≤ z < 2 ^ 32 → u32 z = z.
Proof. apply wrapu_small. Qed.
Lemma u64_small z : 0 ≤ z < 2 ^ 64 → u64 z = z.
Proof. apply wrapu_small. Qed.

Lemma testbit_small a n i : 0 ≤ a < 2 ^ n → 0 ≤ n ≤ i → Z.testbit a i = false.
Proof.
  intros Ha Hi. rewrite <- (Z.mod_small a (2 ^ n)) by done.
  apply Z.mod_pow2_bits_high. lia.
Qed.

(** The bits of a signed value: the sign bit is repeated. *)
Lemma wraps_testbit_sext w z i :
  0 < w → 0 ≤ i → Z.testbit (wraps w z) i = Z.testbit z (Z.min i (w - 1)).
Proof.
  intros Hw Hi. destruct (decide (i < w)).
  { rewrite wraps_testbit by lia. f_equal. lia. }
  rewrite Z.min_r by lia. rewrite <- (wraps_testbit w z (w - 1)) by lia.
  pose proof (wraps_range w z Hw) as Hr. revert Hr. generalize (wraps w z) as r. intros r Hr.
  destruct (decide (0 ≤ r)).
  - rewrite !(testbit_small r (w - 1)) by lia. done.
  - assert (∀ j, w - 1 ≤ j → Z.testbit r j = true) as Hj; [|rewrite !Hj by lia; done].
    intros j ?. apply negb_false_iff. rewrite <- Z.lnot_spec by lia.
    apply (testbit_small _ (w - 1)); [|lia]. unfold Z.lnot. lia.
Qed.

Lemma shiftl_1_testbit c i : 0 ≤ c → 0 ≤ i → Z.testbit (Z.shiftl 1 c) i = bool_decide (i = c).
Proof.
  intros. rewrite Z.shiftl_1_l. destruct (decide (i = c)) as [->|].
  - rewrite bool_decide_true by done. apply Z.pow2_bits_true. lia.
  - rewrite bool_decide_false by done. apply Z.pow2_bits_false. done.
Qed.
End MachineIntegers.

(** * Stateful computations that may fault

    [ST S A] is a computation over the mutable state [S]: it returns a value
    and the new state, or it faults (an access outside the memory the program
    owns, a [panic], a division by zero). *)
Inductive res (S A : Type) : Type :=
| Ok (a : A) (s : S)
| Fault.
Arguments Ok {S A} a s.
Arguments Fault {S A}.

Definition ST (S A : Type) : Type := S → res S A.

Definition ret {S A} (a : A) : ST S A := λ s, Ok a s.
Definition fault {S A} : ST S A := λ _, Fault.
Definition bind {S A B} (m : ST S A) (k : A → ST S B) : ST S B :=
  λ s, match m s with Ok a s' => k a s' | Fault => Fault end.
Definition gets {S A} (f : S → A) : ST S A := λ s, Ok (f s) s.
Definition modify {S} (f : S → S) : ST S unit := λ s, Ok tt (f s).
Definition of_opt {S A} (o : option A) : ST S A :=
  match o with Some a => ret a | None => fault end.

Declare Scope c_scope.
Delimit Scope c_scope with C.
Notation "'let!' x ':=' m 'in' k" := (bind m (λ x, k))
  (at level 10, x pattern, m at level 100, k at level 200) : c_scope.
Notation "'do!' m 'in' k" := (bind m (λ _, k))
  (at level 10, m at level 100, k at level 200) : c_scope.
Open Scope c_scope.

(** A C [for] loop over [lo <= i < hi]: the body answers [Some r] to leave the
    loop ([break] or [return]) with [r], and [None] to go on. *)
Fixpoint for_from {S R} (n : nat) (i : Z) (body : Z → ST S (option R)) : ST S (option R) :=
  match n with
  | O => ret None
  | S n' =>
      let! r := body i in
      match r with
      | Some x => ret (Some x)
      | None => for_from n' (i + 1)%Z body
      end
  end.
Definition for_range {S R} (lo hi : Z) (body : Z → ST S (option R)) : ST S (option R) :=
  for_from (Z.to_nat (hi - lo)) lo body.

(** A C [while] loop with loop variables [l]: the body answers [inl l'] to run
    again and [inr r] to leave.  Running out of fuel is a fault, so a theorem
    that rules faults out also proves that the loop ends. *)
Fixpoint loop {S L R} (fuel : nat) (body : L → ST S (L + R)) (l : L) : ST S R :=
  match fuel with
  | O => fault
  | S n =>
      let! x := body l in
      match x with
      | inl l' => loop n body l'
      | inr r => ret r
      end
  end.

(** Run [f] on each element in order and concatenate what it produces. *)
Fixpoint collect {S X A} (f : X → ST S (list A)) (xs : list X) : ST S (list A) :=
  match xs with
  | [] => ret []
  | x :: t =>
      let! a := f x in
      let! r := collect f t in
      ret (a ++ r)
  end.

(** ** Weakest preconditions (total: a fault satisfies nothing) *)
Definition wp {S A} (m : ST S A) (Q : A → S → Prop) (s : S) : Prop :=
  match m s with Ok a s' => Q a s' | Fault => False end.

Section WP.
Context {S : Type}.

Lemma wp_ok {A} (m : ST S A) Q s : wp m Q s ↔ ∃ a s', m s = Ok a s' ∧ Q a s'.
Proof.
  unfold wp. destruct (m s); split; [eauto | | done | ].
  - intros (? & ? & [= -> ->] & ?); done.
  - by intros (? & ? & ? & ?).
Qed.

Lemma wp_mono {A} (m : ST S A) (P Q : A → S → Prop) s :
  wp m P s → (∀ a s', P a s' → Q a s') → wp m Q s.
Proof. unfold wp. destruct (m s); eauto. Qed.

Lemma wp_ret {A} (a : A) (Q : A → S → Prop) s : Q a s → wp (ret a) Q s.
Proof. done. Qed.

Lemma wp_bind {A B} (m : ST S A) (k : A → ST S B) Q s :
  wp m (λ a, wp (k a) Q) s → wp (bind m k) Q s.
Proof. unfold wp, bind. by destruct (m s). Qed.

Lemma wp_bind_inv {A B} (m : ST S A) (k : A → ST S B) Q s :
  wp (bind m k) Q s → wp m (λ a, wp (k a) Q) s.
Proof. unfold wp, bind. by destruct (m s). Qed.

Lemma wp_gets {A} (f : S → A) (Q : A → S → Prop) s : Q (f s) s → wp (gets f) Q s.
Proof. done. Qed.

Lemma wp_modify (f : S → S) (Q : unit → S → Prop) s : Q tt (f s) → wp (modify f) Q s.
Proof. done. Qed.

Lemma wp_of_opt {A} (o : option A) (Q : A → S → Prop) s a :
  o = Some a → Q a s → wp (of_opt o) Q s.
Proof. intros ->. done. Qed.

Lemma bind_ok {A B} (m : ST S A) (k : A → ST S B) s a s' :
  m s = Ok a s' → bind m k s = k a s'.
Proof. unfold bind. by intros ->. Qed.

Lemma bind_inv {A B} (m : ST S A) (k : A → ST S B) s b s'' :
  bind m k s = Ok b s'' → ∃ a s', m s = Ok a s' ∧ k a s' = Ok b s''.
Proof. unfold bind. destruct (m s); naive_solver. Qed.

Lemma bind_assoc {A B C} (m : ST S A) (k : A → ST S B) (h : B → ST S C) s :
  bind (bind m k) h s = bind m (λ a, bind (k a) h) s.
Proof. unfold bind. by destruct (m s). Qed.

Lemma bind_ret_l {A B} (a : A) (k : A → ST S B) s : bind (ret a) k s = k a s.
Proof. done. Qed.

Lemma loop_next {L R} n (body : L → ST S (L + R)) l s l' s' :
  body l s = Ok (inl l') s' → loop (Datatypes.S n) body l s = loop n body l' s'.
Proof. intros H. cbn [loop]. by rewrite (bind_ok _ _ _ _ _ H). Qed.

Lemma loop_exit {L R} n (body : L → ST S (L + R)) l s r s' :
  body l s = Ok (inr r) s' → loop (Datatypes.S n) body l s = Ok r s'.
Proof. intros H. cbn [loop]. by rewrite (bind_ok _ _ _ _ _ H). Qed.

(** When [f] never changes the state, [collect] is [concat] of [map]. *)
Lemma collect_ok {X A} (f : X → ST S (list A)) (g : X → list A) xs s :
  (∀ x, x ∈ xs → f x s = Ok (g x) s) → collect f xs s = Ok (concat (g <$> xs)) s.
Proof.
  induction xs as [|x xs IH]; intros H; [done|]. cbn [collect].
  rewrite (bind_ok _ _ _ _ _ (H x ltac:(left))).
  rewrite (bind_ok _ _ _ _ _ (IH ltac:(intros; apply H; by right))). done.
Qed.

(** The loop rule: [I i] holds whenever the loop tests its condition with the
    counter at [i]. *)
Lemma wp_for_from {R} (body : Z → ST S (option R)) (I : Z → S → Prop)
    (Q : option R → S → Prop) n i s :
  I i s →
  (∀ j s', (i ≤ j < i + Z.of_nat n)%Z → I j s' →
     wp (body j) (λ r s'', match r with
                           | Some x => Q (Some x) s''
                           | None => I (j + 1)%Z s''
                           end) s') →
  (∀ s', I (i + Z.of_nat n)%Z s' → Q None s') →
  wp (for_from n i body) Q s.
Proof.
  revert i s. induction n as [|n IH]; intros i s Hi Hb He; simpl.
  - apply wp_ret, He. by replace (i + Z.of_nat 0)%Z with i by lia.
  - apply wp_bind. eapply wp_mono; [apply (Hb i); [lia|done]|].
    intros [x|] s' H; [by apply wp_ret|].
    apply IH; [done| |].
    + intros j s'' Hj. apply Hb. lia.
    + intros s''. replace (i + 1 + Z.of_nat n)%Z with (i + Z.of_nat (Datatypes.S n))%Z by lia.
      apply He.
Qed.

Lemma wp_for_range {R} (body : Z → ST S (option R)) (I : Z → S → Prop)
    (Q : option R → S → Prop) lo hi s :
  (lo ≤ hi)%Z →
  I lo s →
  (∀ j s', (lo ≤ j < hi)%Z → I j s' →
     wp (body j) (λ r s'', match r with
                           | Some x => Q (Some x) s''
                           | None => I (j + 1)%Z s''
                           end) s') →
  (∀ s', I hi s' → Q None s') →
  wp (for_range lo hi body) Q s.
Proof.
  intros ? Hi Hb He. unfold for_range. eapply wp_for_from; [done| |].
  - intros j s' Hj. apply Hb. lia.
  - intros s'. replace (lo + Z.of_nat (Z.to_nat (hi - lo)))%Z with hi by lia. apply He.
Qed.

(** The [while] rule: the measure [μ] decreases at each turn and the fuel
    exceeds it. *)
Lemma wp_loop {L R} (body : L → ST S (L + R)) (I : L → S → Prop) (μ : L → nat)
    (Q : R → S → Prop) fuel l s :
  I l s → (μ l < fuel)%nat →
  (∀ l s, I l s →
     wp (body l) (λ x s', match x with
                          | inl l' => I l' s' ∧ (μ l' < μ l)%nat
                          | inr r => Q r s'
                          end) s) →
  wp (loop fuel body l) Q s.
Proof.
  revert l s. induction fuel as [|n IH]; intros l s Hi Hf Hb; [lia|]. simpl.
  apply wp_bind. eapply wp_mono; [by apply Hb|].
  intros [l'|r] s'; [|by intros; apply wp_ret].
  intros [? ?]. apply IH; [done|lia|done].
Qed.
End WP.

(** ** Partial correctness: what holds when a computation returns *)
Definition post {S A} (m : ST S A) (Q : A → S → Prop) (s : S) : Prop :=
  ∀ a s', m s = Ok a s' → Q a s'.

Section Post.
Context {S : Type}.

Lemma post_ret {A} (a : A) (Q : A → S → Prop) s : Q a s → post (ret a) Q s.
Proof. by intros H ?? [= <- <-]. Qed.

Lemma post_fault {A} (Q : A → S → Prop) s : post fault Q s.
Proof. by intros ??. Qed.

Lemma post_bind {A B} (m : ST S A) (k : A → ST S B) Q s :
  post m (λ a, post (k a) Q) s → post (bind m k) Q s.
Proof. intros H b s'' E. apply bind_inv in E as (a & s' & E1 & E2). by eapply H. Qed.

Lemma post_mono {A} (m : ST S A) (P Q : A → S → Prop) s :
  post m P s → (∀ a s', P a s' → Q a s') → post m Q s.
Proof. intros H HPQ a s' E. apply HPQ. by apply H. Qed.

Lemma post_gets {A} (f : S → A) (Q : A → S → Prop) s : Q (f s) s → post (gets f) Q s.
Proof. by intros H ?? [= <- <-]. Qed.

Lemma post_modify (f : S → S) (Q : unit → S → Prop) s : Q tt (f s) → post (modify f) Q s.
Proof. by intros H ?? [= <- <-]. Qed.

Lemma post_of_opt {A} (o : option A) (Q : A → S → Prop) s :
  (∀ a, o = Some a → Q a s) → post (of_opt o) Q s.
Proof. intros H a s'. destruct o; [|done]. intros [= <- <-]. by apply H. Qed.

Lemma post_if {A} (b : bool) (m1 m2 : ST S A) Q s :
  (b = true → post m1 Q s) → (b = false → post m2 Q s) → post (if b then m1 else m2) Q s.
Proof. destruct b; auto. Qed.
End Post.

(** ** Computations that leave a part of the state alone *)
Section Preserves.
Context {S V : Type} (v : S → V).

Definition preserves {A} (m : ST S A) : Prop := ∀ s a s', m s = Ok a s' → v s' = v s.

Lemma preserves_ret {A} (a : A) : preserves (ret a).
Proof. by intros s b s' [= <- <-]. Qed.
Lemma preserves_gets {A} (f : S → A) : preserves (gets f).
Proof. by intros s b s' [= <- <-]. Qed.
Lemma preserves_fault {A} : preserves (@fault S A).
Proof. by intros s b s'. Qed.
Lemma preserves_of_opt {A} (o : option A) : preserves (of_opt o).
Proof. destruct o; [apply preserves_ret|apply preserves_fault]. Qed.
Lemma preserves_modify (f : S → S) : (∀ s, v (f s) = v s) → preserves (modify f).
Proof. intros H s b s' [= <- <-]. apply H. Qed.
Lemma preserves_bind {A B} (m : ST S A) (k : A → ST S B) :
  preserves m → (∀ a, preserves (k a)) → preserves (bind m k).
Proof. intros Hm Hk s b s' (a & s1 & E1 & E2)%bind_inv. rewrite (Hk a s1 b s' E2). by eapply Hm. Qed.
Lemma preserves_for {R} lo hi (body : Z → ST S (option R)) : (∀ i, preserves (body i)) → preserves (for_range lo hi body).
Proof.
  intros Hb. unfold for_range. generalize (Z.to_nat (hi - lo)) as n. intros n. revert lo.
  induction n as [|n IH]; intros lo; cbn [for_from]; [apply preserves_ret|].
  apply preserves_bind; [apply Hb|]. intros [x|]; [apply preserves_ret|apply IH].
Qed.
Lemma preserves_loop {L R} n (body : L → ST S (L + R)) l : (∀ l, preserves (body l)) → preserves (loop n body l).
Proof.
  intros Hb. revert l. induction n as [|n IH]; intros l; cbn [loop]; [apply preserves_fault|].
  apply preserves_bind; [apply Hb|]. intros [l'|x]; [apply IH|apply preserves_ret].
Qed.
Lemma preserves_post {A} (m : ST S A) s : preserves m → post m (λ _ s', v s' = v s) s.
Proof. intros H a s' E. by eapply H. Qed.
End Preserves.

Create HintDb preserves.
#[export] Hint Resolve preserves_ret preserves_gets preserves_fault preserves_of_opt : preserves.
(** Walks through a computation; what it calls is looked up among the hints. *)
Ltac preserves := intros; repeat first
  [ solve [eauto with preserves] | apply preserves_bind; [|intros] | apply preserves_for; intros | apply preserves_loop; intros
  | progress cbn beta iota zeta | case_match ].

(** * Lists *)
Lemma lookup_nth {A} (l : list A) i d : (i < length l)%nat → l !! i = Some (nth i l d).
Proof. intros. destruct (nth_lookup_or_length l i d); [done|lia]. Qed.

(** The number of elements that satisfy a test. *)
Section Count.
Local Open Scope Z_scope.
Context {A : Type} (f : A → bool).

Definition count (l : list A) : Z := foldr (λ x n, Z.b2z (f x) + n) 0 l.

Lemma count_app l1 l2 : count (l1 ++ l2) = count l1 + count l2.
Proof. induction l1 as [|x l1 IH]; cbn [app count foldr]; [done|]. unfold count in *. lia. Qed.

Lemma count_nonneg l : 0 ≤ count l.
Proof. induction l; cbn [count foldr]; [done|]. unfold count in *. destruct (f _); simpl; lia. Qed.

Lemma count_insert l i x y :
  l !! i = Some x → count (<[i := y]> l) = count l - Z.b2z (f x) + Z.b2z (f y).
Proof.
  revert i. induction l as [|z l IH]; intros [|i]; simpl; [done|done| |].
  - intros [= ->]. lia.
  - intros H. rewrite (IH i H). lia.
Qed.

Lemma count_pos l i x : l !! i = Some x → f x = true → 0 < count l.
Proof.
  intros H Hf. rewrite <- (take_drop_middle l i x H), count_app. cbn [count foldr].
  rewrite Hf. pose proof (count_nonneg (take i l)). pose proof (count_nonneg (drop (S i) l)).
  unfold count in *. simpl. lia.
Qed.

Lemma count_zero l : (∀ x, x ∈ l → f x = false) → count l = 0.
Proof.
  induction l as [|x l IH]; intros H; [done|]. cbn [count foldr]. rewrite (H x) by left.
  fold (count l). rewrite IH; [done|]. intros. apply H. by right.
Qed.

Lemma count_all l : (∀ x, x ∈ l → f x = true) → count l = Z.of_nat (length l).
Proof.
  induction l as [|x l IH]; intros H; [done|]. cbn [count foldr length]. rewrite (H x) by left.
  fold (count l). rewrite IH; [simpl; lia|]. intros. apply H. by right.
Qed.

Lemma count_exists l : 0 < count l → ∃ i x, l !! i = Some x ∧ f x = true.
Proof.
  induction l as [|x l IH]; cbn [count foldr]; [lia|]. intros H. destruct (f x) eqn:E.
  - by exists O, x.
  - destruct IH as (i & y & ? & ?); [unfold count; simpl in H; lia|]. by exists (S i), y.
Qed.
End Count.

Lemma count_or {A} (f g : A → bool) l : (count (λ x, f x || g x) l ≤ count f l + count g l)%Z.
Proof. induction l as [|x l IH]; cbn [count foldr]; [done|]. unfold count in *. destruct (f x), (g x); simpl; lia. Qed.

(** * First-fit search: the first index in [lo <= i < hi] that satisfies [p] *)
Section First.
Local Open Scope Z_scope.
Context (p : Z → bool).

Fixpoint first_from (k : nat) (n : Z) : option Z :=
  match k with
  | O => None
  | S k' => if p n then Some n else first_from k' (n + 1)
  end.
Definition first_in (lo hi : Z) : option Z := first_from (Z.to_nat (hi - lo)) lo.

Definition is_first (lo hi : Z) (r : option Z) : Prop :=
  match r with
  | Some j => lo ≤ j < hi ∧ p j = true ∧ ∀ i, lo ≤ i < j → p i = false
  | None => ∀ i, lo ≤ i < hi → p i = false
  end.

Lemma first_from_spec k n : is_first n (n + Z.of_nat k) (first_from k n).
Proof.
  revert n. induction k as [|k IH]; intros n; cbn [first_from]; [intros ??; lia|].
  destruct (p n) eqn:E; [split_and!; [lia..|done|intros; lia]|].
  specialize (IH (n + 1)). unfold is_first in *.
  destruct (first_from k (n + 1)) as [j|].
  - destruct IH as (? & ? & IH). split_and!; [lia..|done|]. intros i ?.
    destruct (decide (i = n)) as [->|]; [done|]. apply IH. lia.
  - intros i ?. destruct (decide (i = n)) as [->|]; [done|]. apply IH. lia.
Qed.

Lemma first_in_spec lo hi : is_first lo hi (first_in lo hi).
Proof.
  unfold first_in. pose proof (first_from_spec (Z.to_nat (hi - lo)) lo) as H.
  unfold is_first in *. destruct (first_from _ _) as [j|].
  - destruct H as (? & ? & ?). split_and!; [lia..|done|done].
  - intros i ?. apply H. lia.
Qed.

Lemma is_first_unique lo hi r1 r2 : is_first lo hi r1 → is_first lo hi r2 → r1 = r2.
Proof.
  unfold is_first. destruct r1 as [i|], r2 as [j|]; [| | |done].
  2:{ intros (? & Hi & ?) H2. rewrite H2 in Hi by lia. done. }
  2:{ intros H1 (? & Hj & ?). rewrite H1 in Hj by lia. done. }
  intros (? & Hi & H1) (? & Hj & H2). f_equal.
  destruct (decide (i < j)); [rewrite H2 in Hi by lia; done|].
  destruct (decide (j < i)); [rewrite H1 in Hj by lia; done|]. lia.
Qed.

Lemma first_in_eq lo hi r : is_first lo hi r → r = first_in lo hi.
Proof. intros. eapply is_first_unique; [done|]. apply first_in_spec. Qed.
End First.

Lemma first_in_ext p q lo hi : (∀ n, (lo ≤ n < hi)%Z → p n = q n) → first_in p lo hi = first_in q lo hi.
Proof.
  intros Hpq. symmetry. apply first_in_eq. pose proof (first_in_spec q lo hi) as H. unfold is_first in *.
  destruct (first_in q lo hi) as [j|]; [|intros i Hi; by rewrite Hpq, H].
  destruct H as (? & ? & Hlt). split_and!; [lia..|by rewrite Hpq by lia|]. intros i Hi. by rewrite Hpq, Hlt by lia.
Qed.

(** A loop whose turns do nothing until [p] holds starts with the first index
    that satisfies [p]. *)
Lemma for_range_first {S R} (body : Z → ST S (option R)) (p : Z → bool) lo hi s :
  (∀ j, (lo ≤ j < hi)%Z → p j = false → body j s = Ok None s) →
  for_range lo hi body s =
  match first_in p lo hi with
  | Some j => bind (body j) (λ r, match r with
                                  | Some x => ret (Some x)
                                  | None => for_range (j + 1) hi body
                                  end) s
  | None => Ok None s
  end.
Proof.
  unfold for_range, first_in. remember (Z.to_nat (hi - lo)) as n eqn:Hn.
  revert lo Hn. induction n as [|n IH]; intros lo Hn Hb; [done|]. cbn [for_from first_from].
  destruct (p lo) eqn:E.
  - unfold bind. destruct (body lo s) as [[x|] s'|]; [done| |done].
    f_equal. lia.
  - rewrite (bind_ok _ _ _ _ _ (Hb lo ltac:(lia) E)). apply IH; [lia|]. intros. apply Hb; [lia|done].
Qed.

Create HintDb cdb.
#[export] Hint Resolve wp_ret wp_gets wp_modify : cdb.

(** Take the next statement of a sequence apart. *)
Ltac wp_seq := apply wp_bind.
