(* ===== verification/Memory.v ===== *)
(** Memory: byte-addressed memory of a fixed size (a mapped disk image, a
    shared-memory segment), with little-endian loads and stores of C scalars
    and the laws that the clients use: a load after a store of the same cell
    returns the stored value, a load of a disjoint range is not affected. *)
From S2P Require Import Prelude.
From Stdlib Require Import Strings.Byte.
From stdpp Require Import list.

Local Open Scope Z_scope.

Abbreviation byte := Byte.byte.
Abbreviation x00 := Byte.x00.

#[export] Instance byte_eq_dec : EqDecision byte := Byte.byte_eq_dec.
#[export] Instance byte_inhabited : Inhabited byte := populate x00.

Definition Z_of_byte (b : byte) : Z := Z.of_N (Byte.to_N b).
Definition byte_of_Z (z : Z) : byte := default x00 (Byte.of_N (Z.to_N (z mod 256))).

Lemma Z_of_byte_range b : 0 ≤ Z_of_byte b < 256.
Proof. unfold Z_of_byte. pose proof (Byte.to_N_bounded b). lia. Qed.

Lemma byte_of_Z_of_byte b : byte_of_Z (Z_of_byte b) = b.
Proof.
  unfold byte_of_Z. rewrite Z.mod_small by apply Z_of_byte_range.
  unfold Z_of_byte. by rewrite N2Z.id, Byte.of_to_N.
Qed.

Lemma Z_of_byte_of_Z z : Z_of_byte (byte_of_Z z) = z mod 256.
Proof.
  unfold byte_of_Z, Z_of_byte.
  pose proof (Z.mod_pos_bound z 256 ltac:(lia)).
  destruct (Byte.of_N (Z.to_N (z mod 256))) as [b|] eqn:E; simpl.
  - apply Byte.to_of_N in E. lia.
  - apply Byte.of_N_None_iff in E. lia.
Qed.

(** * Little-endian encodings of scalars *)
Fixpoint le_decode (bs : list byte) : Z :=
  match bs with
  | [] => 0
  | b :: t => Z_of_byte b + 256 * le_decode t
  end.

Fixpoint le_encode (n : nat) (z : Z) : list byte :=
  match n with
  | O => []
  | S n' => byte_of_Z z :: le_encode n' (z / 256)
  end.

Lemma length_le_encode n z : length (le_encode n z) = n.
Proof. revert z. induction n; simpl; auto. Qed.

Lemma le_decode_range bs : 0 ≤ le_decode bs < 2 ^ (8 * Z.of_nat (length bs)).
Proof.
  induction bs as [|b t IH]; [done|]. simpl length.
  replace (8 * Z.of_nat (S (length t))) with (8 + 8 * Z.of_nat (length t)) by lia.
  rewrite Z.pow_add_r by lia. simpl le_decode.
  pose proof (Z_of_byte_range b). change (2 ^ 8) with 256. nia.
Qed.

Lemma le_decode_encode n z : le_decode (le_encode n z) = wrapu (8 * Z.of_nat n) z.
Proof.
  unfold wrapu. revert z. induction n as [|n IH]; intros z; simpl le_encode.
  - simpl. by rewrite Z.mod_1_r.
  - simpl le_decode. rewrite IH, Z_of_byte_of_Z.
    replace (8 * Z.of_nat (S n)) with (8 + 8 * Z.of_nat n) by lia.
    rewrite Z.pow_add_r by lia. change (2 ^ 8) with 256.
    rewrite Z.rem_mul_r by lia. done.
Qed.

Lemma le_encode_decode bs : le_encode (length bs) (le_decode bs) = bs.
Proof.
  induction bs as [|b t IH]; [done|]. simpl.
  pose proof (Z_of_byte_range b).
  replace ((Z_of_byte b + 256 * le_decode t) / 256) with (le_decode t).
  2:{ rewrite Z.add_comm, Z.mul_comm, Z.div_add_l by lia.
      rewrite (Z.div_small (Z_of_byte b)); lia. }
  rewrite IH. f_equal. rewrite <- (byte_of_Z_of_byte b) at 2.
  unfold byte_of_Z. do 3 f_equal.
  rewrite Z.mul_comm, Z.mod_add by lia. done.
Qed.

Lemma le_decode_zeros n : le_decode (replicate n x00) = 0.
Proof. induction n as [|n IH]; simpl; [done|]. rewrite IH. done. Qed.

(** * Memory *)
Record mem := Mem { msize : Z; mget : Z → byte }.

(** Two memories are equivalent when they have the same size and the same
    bytes inside it. *)
#[export] Instance mem_equiv : Equiv mem := λ m1 m2,
  msize m1 = msize m2 ∧ ∀ a, 0 ≤ a < msize m1 → mget m1 a = mget m2 a.

#[export] Instance mem_equivalence : Equivalence (≡@{mem}).
Proof.
  split.
  - intros m. split; auto.
  - intros m1 m2 [? H]. split; [done|]. intros a ?. symmetry. apply H. lia.
  - intros m1 m2 m3 [? H1] [? H2]. split; [congruence|].
    intros a ?. rewrite H1, H2 by lia. done.
Qed.

Definition in_range (m : mem) (off n : Z) : bool :=
  (0 <=? off) && (0 <=? n) && (off + n <=? msize m).

Lemma in_range_iff m off n :
  in_range m off n = true ↔ 0 ≤ off ∧ 0 ≤ n ∧ off + n ≤ msize m.
Proof. unfold in_range. rewrite !andb_true_iff, !Z.leb_le. tauto. Qed.

Definition mread (m : mem) (off : Z) (n : nat) : list byte :=
  (λ i, mget m (off + Z.of_nat i)) <$> seq 0 n.

Definition mwrite (m : mem) (off : Z) (bs : list byte) : mem :=
  Mem (msize m) (λ a,
    if (off <=? a) && (a <? off + Z.of_nat (length bs))
    then nth (Z.to_nat (a - off)) bs x00
    else mget m a).

Lemma length_mread m off n : length (mread m off n) = n.
Proof. unfold mread. by rewrite length_fmap, length_seq. Qed.

Lemma mread_lookup m off n i :
  (i < n)%nat → mread m off n !! i = Some (mget m (off + Z.of_nat i)).
Proof.
  intros. unfold mread. rewrite list_lookup_fmap, lookup_seq_lt by done.
  done.
Qed.

Lemma mread_ext m1 m2 off1 off2 n :
  (∀ i, 0 ≤ i < Z.of_nat n → mget m1 (off1 + i) = mget m2 (off2 + i)) →
  mread m1 off1 n = mread m2 off2 n.
Proof.
  intros H. apply list_eq_same_length with n; rewrite ?length_mread; [done..|].
  intros i x y Hi. rewrite !mread_lookup by done. intros [= <-] [= <-].
  apply H. lia.
Qed.

Lemma mget_mwrite m off bs a :
  mget (mwrite m off bs) a =
  if (off <=? a) && (a <? off + Z.of_nat (length bs))
  then nth (Z.to_nat (a - off)) bs x00 else mget m a.
Proof. done. Qed.

Lemma mget_mwrite_out m off bs a :
  a < off ∨ off + Z.of_nat (length bs) ≤ a → mget (mwrite m off bs) a = mget m a.
Proof.
  intros H. rewrite mget_mwrite.
  destruct (Z.leb_spec off a); [|done].
  destruct (Z.ltb_spec a (off + Z.of_nat (length bs))); [lia|done].
Qed.

Lemma mget_mwrite_in m off bs i :
  (i < length bs)%nat → mget (mwrite m off bs) (off + Z.of_nat i) = nth i bs x00.
Proof.
  intros H. rewrite mget_mwrite.
  rewrite (proj2 (Z.leb_le _ _)), (proj2 (Z.ltb_lt _ _)) by lia. simpl.
  f_equal. lia.
Qed.

Lemma mread_mwrite_eq m off bs n : n = length bs → mread (mwrite m off bs) off n = bs.
Proof.
  intros ->. apply list_eq_same_length with (length bs); rewrite ?length_mread; [done..|].
  intros i x y Hi. rewrite mread_lookup, mget_mwrite_in by done. intros Hx Hy.
  apply nth_lookup_Some with (d := x00) in Hy. congruence.
Qed.

Lemma mread_mwrite_ne m off bs off' n :
  off' + Z.of_nat n ≤ off ∨ off + Z.of_nat (length bs) ≤ off' →
  mread (mwrite m off bs) off' n = mread m off' n.
Proof. intros H. apply mread_ext. intros i Hi. apply mget_mwrite_out. lia. Qed.

Lemma mread_app m off n1 n2 :
  mread m off (n1 + n2) = mread m off n1 ++ mread m (off + Z.of_nat n1) n2.
Proof.
  apply list_eq_same_length with (n1 + n2)%nat; rewrite ?length_app, ?length_mread; [done..|].
  intros i x y Hi. rewrite mread_lookup by done. intros [= <-].
  destruct (decide (i < n1)%nat).
  - rewrite lookup_app_l by (rewrite length_mread; lia). rewrite mread_lookup by done. congruence.
  - rewrite lookup_app_r by (rewrite length_mread; lia). rewrite length_mread.
    rewrite mread_lookup by lia. intros [= <-]. f_equal. lia.
Qed.

Lemma take_mread m off n k : (k ≤ n)%nat → take k (mread m off n) = mread m off k.
Proof.
  intros. replace n with (k + (n - k))%nat by lia. rewrite mread_app.
  rewrite take_app_length'; [done|]. by rewrite length_mread.
Qed.

Lemma drop_mread m off n k :
  (k ≤ n)%nat → drop k (mread m off n) = mread m (off + Z.of_nat k) (n - k).
Proof.
  intros. replace n with (k + (n - k))%nat at 1 by lia. rewrite mread_app.
  rewrite drop_app_length'; [done|]. by rewrite length_mread.
Qed.

Lemma msize_mwrite m off bs : msize (mwrite m off bs) = msize m.
Proof. done. Qed.

#[export] Instance mwrite_proper off bs : Proper ((≡) ==> (≡)) (λ m, mwrite m off bs).
Proof.
  intros m1 m2 [Hs Hg]. split; [done|]. intros a Ha. rewrite !mget_mwrite.
  destruct (_ && _); [done|]. by apply Hg.
Qed.

Lemma mread_proper m1 m2 off n :
  m1 ≡ m2 → in_range m1 off (Z.of_nat n) = true → mread m1 off n = mread m2 off n.
Proof.
  intros [_ Hg] Hr. unfold in_range in Hr. apply mread_ext. intros i Hi. apply Hg. lia.
Qed.

(** ** Scalars in memory *)
Definition uint_at (m : mem) (off : Z) (n : nat) : Z := le_decode (mread m off n).
Definition sint_at (m : mem) (off : Z) (n : nat) : Z := wraps (8 * Z.of_nat n) (uint_at m off n).
Definition mstore (m : mem) (off : Z) (n : nat) (z : Z) : mem := mwrite m off (le_encode n z).

Lemma uint_at_range m off n : 0 ≤ uint_at m off n < 2 ^ (8 * Z.of_nat n).
Proof.
  unfold uint_at. pose proof (le_decode_range (mread m off n)) as H.
  by rewrite length_mread in H.
Qed.

Lemma sint_at_range m off n :
  (0 < n)%nat → - 2 ^ (8 * Z.of_nat n - 1) ≤ sint_at m off n < 2 ^ (8 * Z.of_nat n - 1).
Proof. intros. apply wraps_range. lia. Qed.

Lemma uint_at_mstore m off n z : uint_at (mstore m off n z) off n = wrapu (8 * Z.of_nat n) z.
Proof.
  unfold uint_at, mstore. rewrite mread_mwrite_eq by (by rewrite length_le_encode).
  apply le_decode_encode.
Qed.

Lemma sint_at_mstore m off n z :
  (0 < n)%nat → sint_at (mstore m off n z) off n = wraps (8 * Z.of_nat n) z.
Proof. intros. unfold sint_at. rewrite uint_at_mstore. apply wraps_wrapu. lia. Qed.

Lemma uint_at_mwrite_ne m off bs off' n :
  off' + Z.of_nat n ≤ off ∨ off + Z.of_nat (length bs) ≤ off' →
  uint_at (mwrite m off bs) off' n = uint_at m off' n.
Proof. intros. unfold uint_at. by rewrite mread_mwrite_ne. Qed.

Lemma sint_at_mwrite_ne m off bs off' n :
  off' + Z.of_nat n ≤ off ∨ off + Z.of_nat (length bs) ≤ off' →
  sint_at (mwrite m off bs) off' n = sint_at m off' n.
Proof. intros. unfold sint_at. by rewrite uint_at_mwrite_ne. Qed.

Lemma uint_at_mstore_ne m off k z off' n :
  off' + Z.of_nat n ≤ off ∨ off + Z.of_nat k ≤ off' →
  uint_at (mstore m off k z) off' n = uint_at m off' n.
Proof. intros. apply uint_at_mwrite_ne. by rewrite length_le_encode. Qed.

Lemma sint_at_mstore_ne m off k z off' n :
  off' + Z.of_nat n ≤ off ∨ off + Z.of_nat k ≤ off' →
  sint_at (mstore m off k z) off' n = sint_at m off' n.
Proof. intros. apply sint_at_mwrite_ne. by rewrite length_le_encode. Qed.

(** Loads of memory that was written by a sequence of scalar stores. *)
Ltac mem_simpl :=
  repeat first
    [ rewrite sint_at_mstore_ne by (cbn; lia)
    | rewrite uint_at_mstore_ne by (cbn; lia)
    | rewrite sint_at_mstore by lia
    | rewrite uint_at_mstore ].

(** ** C strings *)

(** [cstr_eqb m off s]: [strcmp] of the string at [off] with the string [s]
    answers 0.  Comparison stops at the first difference. *)
Fixpoint cstr_eqb (m : mem) (off : Z) (s : list byte) : bool :=
  match s with
  | [] => bool_decide (mget m off = x00)
  | c :: s' => bool_decide (mget m off = c) && cstr_eqb m (off + 1) s'
  end.

(** The number of bytes that comparison looks at. *)
Fixpoint cstr_span (m : mem) (off : Z) (s : list byte) : Z :=
  match s with
  | [] => 1
  | c :: s' => if bool_decide (mget m off = c) then 1 + cstr_span m (off + 1) s' else 1
  end.

Lemma cstr_span_pos m off s : 1 ≤ cstr_span m off s ≤ 1 + Z.of_nat (length s).
Proof.
  revert off. induction s as [|c s IH]; intros off; simpl; [lia|].
  case_bool_decide; [|lia]. specialize (IH (off + 1)). lia.
Qed.

Lemma cstr_eqb_spec m off s :
  cstr_eqb m off s = true ↔ mread m off (length s) = s ∧ mget m (off + Z.of_nat (length s)) = x00.
Proof.
  revert off. induction s as [|c s IH]; intros off; cbn [cstr_eqb length].
  - rewrite bool_decide_eq_true. unfold mread; simpl. rewrite Z.add_0_r. tauto.
  - rewrite andb_true_iff, bool_decide_eq_true, IH.
    replace (mread m off (S (length s))) with (mget m off :: mread m (off + 1) (length s)).
    2:{ change (S (length s)) with (1 + length s)%nat. rewrite mread_app. unfold mread at 2.
        simpl. rewrite Z.add_0_r. done. }
    replace (off + 1 + Z.of_nat (length s)) with (off + Z.of_nat (S (length s))) by lia.
    split; [intros (-> & -> & ?)|intros ([= -> ->] & ?)]; done.
Qed.

Lemma cstr_eqb_ext m1 m2 off s :
  (∀ a, off ≤ a < off + Z.of_nat (length s) + 1 → mget m1 a = mget m2 a) →
  cstr_eqb m1 off s = cstr_eqb m2 off s ∧ cstr_span m1 off s = cstr_span m2 off s.
Proof.
  revert off. induction s as [|c s IH]; intros off Ha; cbn [cstr_eqb cstr_span length] in *.
  - by rewrite (Ha off) by lia.
  - rewrite (Ha off) by lia.
    destruct (IH (off + 1)) as [-> ->]; [|done].
    intros a ?. apply Ha. lia.
Qed.

(** * Programs over a memory

    A state that owns a memory, with the laws of its accessors: the interface
    between this file and the programs that read and write a mapped region. *)
Class HasMem (S : Type) := {
  the_mem : S → mem;
  with_mem : mem → S → S;
  the_mem_with : ∀ m s, the_mem (with_mem m s) = m;
  with_mem_with : ∀ m m' s, with_mem m' (with_mem m s) = with_mem m' s;
  with_mem_the : ∀ s, with_mem (the_mem s) s = s
}.

Section Programs.
Context {S : Type} `{HasMem S}.

Definition load_bytes (off : Z) (n : nat) : ST S (list byte) := λ s,
  if in_range (the_mem s) off (Z.of_nat n) then Ok (mread (the_mem s) off n) s else Fault.

Definition store_bytes (off : Z) (bs : list byte) : ST S unit := λ s,
  if in_range (the_mem s) off (Z.of_nat (length bs))
  then Ok tt (with_mem (mwrite (the_mem s) off bs) s) else Fault.

Definition load_uint (n : nat) (off : Z) : ST S Z :=
  let! bs := load_bytes off n in ret (le_decode bs).
Definition load_sint (n : nat) (off : Z) : ST S Z :=
  let! z := load_uint n off in ret (wraps (8 * Z.of_nat n) z).
Definition store_int (n : nat) (off z : Z) : ST S unit := store_bytes off (le_encode n z).

(** [strcmp(p, s) == 0] for a string [p] in memory and a string [s] outside it. *)
Definition strcmp_is_0 (off : Z) (s : list byte) : ST S bool := λ st,
  if in_range (the_mem st) off (cstr_span (the_mem st) off s)
  then Ok (cstr_eqb (the_mem st) off s) st else Fault.

(** Accesses inside the memory, as equations. *)
Lemma load_bytes_ok off n s :
  in_range (the_mem s) off (Z.of_nat n) = true →
  load_bytes off n s = Ok (mread (the_mem s) off n) s.
Proof. unfold load_bytes. by intros ->. Qed.

Lemma load_uint_ok n off s :
  in_range (the_mem s) off (Z.of_nat n) = true →
  load_uint n off s = Ok (uint_at (the_mem s) off n) s.
Proof. intros. unfold load_uint. by erewrite bind_ok by by apply load_bytes_ok. Qed.

Lemma load_sint_ok n off s :
  in_range (the_mem s) off (Z.of_nat n) = true →
  load_sint n off s = Ok (sint_at (the_mem s) off n) s.
Proof. intros. unfold load_sint. by erewrite bind_ok by by apply load_uint_ok. Qed.

Lemma store_bytes_ok off bs s :
  in_range (the_mem s) off (Z.of_nat (length bs)) = true →
  store_bytes off bs s = Ok tt (with_mem (mwrite (the_mem s) off bs) s).
Proof. unfold store_bytes. by intros ->. Qed.

Lemma store_int_ok n off z s :
  in_range (the_mem s) off (Z.of_nat n) = true →
  store_int n off z s = Ok tt (with_mem (mstore (the_mem s) off n z) s).
Proof. intros. apply store_bytes_ok. by rewrite length_le_encode. Qed.

Lemma wp_load_bytes off n (Q : list byte → S → Prop) s :
  in_range (the_mem s) off (Z.of_nat n) = true →
  Q (mread (the_mem s) off n) s → wp (load_bytes off n) Q s.
Proof. unfold wp, load_bytes. by intros ->. Qed.

Lemma wp_store_bytes off bs (Q : unit → S → Prop) s :
  in_range (the_mem s) off (Z.of_nat (length bs)) = true →
  Q tt (with_mem (mwrite (the_mem s) off bs) s) → wp (store_bytes off bs) Q s.
Proof. unfold wp, store_bytes. by intros ->. Qed.

Lemma wp_load_uint n off (Q : Z → S → Prop) s :
  in_range (the_mem s) off (Z.of_nat n) = true →
  Q (uint_at (the_mem s) off n) s → wp (load_uint n off) Q s.
Proof. intros. apply wp_bind, wp_load_bytes; done. Qed.

Lemma wp_load_sint n off (Q : Z → S → Prop) s :
  in_range (the_mem s) off (Z.of_nat n) = true →
  Q (sint_at (the_mem s) off n) s → wp (load_sint n off) Q s.
Proof. intros. apply wp_bind, wp_load_uint; done. Qed.

Lemma wp_store_int n off z (Q : unit → S → Prop) s :
  in_range (the_mem s) off (Z.of_nat n) = true →
  Q tt (with_mem (mstore (the_mem s) off n z) s) → wp (store_int n off z) Q s.
Proof. intros. apply wp_store_bytes; [by rewrite length_le_encode|done]. Qed.

Lemma wp_strcmp_is_0 off str (Q : bool → S → Prop) s :
  in_range (the_mem s) off (Z.of_nat (length str) + 1) = true →
  Q (cstr_eqb (the_mem s) off str) s → wp (strcmp_is_0 off str) Q s.
Proof.
  intros Hr HQ. unfold wp, strcmp_is_0.
  pose proof (cstr_span_pos (the_mem s) off str).
  assert (in_range (the_mem s) off (cstr_span (the_mem s) off str) = true) as ->; [|done].
  unfold in_range in *. lia.
Qed.
End Programs.

(** Run one store, or one load whose value is known, of a straight-line
    program in a [wp] goal. *)
Ltac wp_store := apply wp_bind, wp_store_int; [apply in_range_iff; cbn; lia|].
Ltac wp_load := apply wp_bind, wp_load_sint; [apply in_range_iff; cbn; lia|].

(** Side conditions of accesses: ranges are arithmetic. *)
Ltac in_range_tac :=
  cbn [the_mem] in *; rewrite ?in_range_iff, ?msize_mwrite in *;
  cbn [Z.of_nat Pos.of_succ_nat Pos.succ] in *; lia.
