(* ===== verification/CLib.v ===== *)
(** CLib: the parts of the C library that the programs call and whose behaviour
    their results depend on: [strtok] with one delimiter and [atoi]. *)
From S2P Require Import Prelude Memory.
From Stdlib Require Import Strings.Byte.
Local Open Scope Z_scope.

Module CLib.

Section Strtok.
Context (delim : byte).

(** [strtok(p, d)] on the text that is left: leading delimiters are skipped, the
    token runs to the next delimiter, which is consumed. *)
Fixpoint skip_delims (s : list byte) : list byte :=
  match s with
  | c :: s' => if bool_decide (c = delim) then skip_delims s' else s
  | [] => []
  end.
Fixpoint span_token (s : list byte) : list byte * list byte :=
  match s with
  | c :: s' => if bool_decide (c = delim) then ([], s')
               else let (t, r) := span_token s' in (c :: t, r)
  | [] => ([], [])
  end.
Definition strtok (s : list byte) : option (list byte) * list byte :=
  match skip_delims s with
  | [] => (None, [])
  | s' => let (t, r) := span_token s' in (Some t, r)
  end.

(** * Tokens *)

(** All the tokens of a string. *)
Fixpoint tokens_fuel (n : nat) (s : list byte) : list (list byte) :=
  match n with
  | O => []
  | S n' => match strtok s with
            | (Some t, r) => t :: tokens_fuel n' r
            | (None, _) => []
            end
  end.
Definition tokens (s : list byte) : list (list byte) := tokens_fuel (S (length s)) s.

Lemma skip_delims_length s : (length (skip_delims s) ≤ length s)%nat.
Proof. induction s as [|c s IH]; simpl; [done|]. case_bool_decide; simpl; lia. Qed.

Lemma skip_delims_head s c s' : skip_delims s = c :: s' → c ≠ delim.
Proof.
  induction s as [|x s IH]; simpl; [done|]. case_bool_decide; [done|]. by intros [= -> ->].
Qed.

Lemma span_token_length s t r : span_token s = (t, r) → (length t + length r ≤ length s)%nat.
Proof.
  revert t r. induction s as [|c s IH]; intros t r; simpl; [by intros [= <- <-]|].
  case_bool_decide; [intros [= <- <-]; simpl; lia|].
  destruct (span_token s) as [t' r'] eqn:E. intros [= <- <-]. specialize (IH _ _ eq_refl). simpl. lia.
Qed.

Lemma span_token_no_delim s t r : span_token s = (t, r) → delim ∉ t.
Proof.
  revert t r. induction s as [|c s IH]; intros t r; simpl; [intros [= <- <-]; apply not_elem_of_nil|].
  case_bool_decide; [intros [= <- <-]; apply not_elem_of_nil|].
  destruct (span_token s) as [t' r'] eqn:E. intros [= <- <-].
  apply not_elem_of_cons. split; [done|]. by eapply IH.
Qed.

Lemma strtok_some s t r :
  strtok s = (Some t, r) → t ≠ [] ∧ (delim ∉ t) ∧ (length t + length r ≤ length s)%nat.
Proof.
  unfold strtok. pose proof (skip_delims_length s).
  destruct (skip_delims s) as [|c s'] eqn:E; [done|].
  apply skip_delims_head in E. destruct (span_token (c :: s')) as [t' r'] eqn:E'.
  intros [= <- <-]. pose proof (span_token_length _ _ _ E'). pose proof (span_token_no_delim _ _ _ E').
  split_and!; [|done|simpl in *; lia].
  simpl in E'. rewrite bool_decide_false in E' by done. destruct (span_token s'). by simplify_eq.
Qed.

Lemma tokens_fuel_irrel n k s :
  (length s < n)%nat → (length s < k)%nat → tokens_fuel n s = tokens_fuel k s.
Proof.
  revert k s. induction n as [|n IH]; intros [|k] s Hn Hk; [lia..|].
  cbn [tokens_fuel]. destruct (strtok s) as [[t|] r] eqn:E; [|done].
  apply strtok_some in E as (Ht & _ & ?). assert (length t ≠ 0%nat) by (destruct t; simpl in *; congruence || lia).
  f_equal. apply IH; lia.
Qed.

Lemma tokens_unfold s :
  tokens s = match strtok s with (Some t, r) => t :: tokens r | (None, _) => [] end.
Proof.
  unfold tokens at 1. cbn [tokens_fuel]. destruct (strtok s) as [[t|] r] eqn:E; [|done].
  apply strtok_some in E as (Ht & _ & ?). assert (length t ≠ 0%nat) by (destruct t; simpl in *; congruence || lia).
  f_equal. unfold tokens. apply tokens_fuel_irrel; lia.
Qed.

(** Induction along the tokens of a path. *)
Lemma strtok_ind (P : list byte → Prop) :
  (∀ s r, strtok s = (None, r) → P s) →
  (∀ s t r, strtok s = (Some t, r) → P r → P s) →
  ∀ s, P s.
Proof.
  intros H0 H1 s. induction s as [s IH] using (induction_ltof1 _ length).
  destruct (strtok s) as [[t|] r] eqn:E; [|by eapply H0].
  eapply H1; [done|]. apply IH. unfold ltof.
  apply strtok_some in E as (Ht & _ & ?). destruct t; [done|]. simpl in *. lia.
Qed.

Lemma tokens_proper s : Forall (λ t, t ≠ [] ∧ delim ∉ t) (tokens s).
Proof.
  induction s as [s r E|s t r E IH] using strtok_ind; rewrite tokens_unfold, E; [done|].
  apply strtok_some in E as (? & ? & _). constructor; done.
Qed.

Lemma length_tokens s : (length (tokens s) ≤ length s)%nat.
Proof.
  induction s as [s r E|s t r E IH] using strtok_ind; rewrite tokens_unfold, E; simpl; [lia|].
  apply strtok_some in E as (Ht & _ & ?). destruct t; [done|]. simpl in *. lia.
Qed.

(** Every token preceded by the delimiter. *)
Definition join_tokens (ts : list (list byte)) : list byte := concat ((λ t, delim :: t) <$> ts).

Lemma span_token_app t r : delim ∉ t → span_token (t ++ delim :: r) = (t, r).
Proof.
  induction t as [|c t IH]; cbn [app span_token]; intros Ht; [by rewrite bool_decide_true|].
  apply not_elem_of_cons in Ht as [Hc Ht]. rewrite bool_decide_false by done. by rewrite IH.
Qed.

Lemma span_token_all t : delim ∉ t → span_token t = (t, []).
Proof.
  induction t as [|c t IH]; cbn [span_token]; intros Ht; [done|].
  apply not_elem_of_cons in Ht as [Hc Ht]. rewrite bool_decide_false by done. by rewrite IH.
Qed.

Lemma strtok_delim s : strtok (delim :: s) = strtok s.
Proof. unfold strtok. cbn [skip_delims]. by rewrite bool_decide_true. Qed.

Lemma strtok_token c s t r :
  c ≠ delim → span_token (c :: s) = (t, r) → strtok (c :: s) = (Some t, r).
Proof.
  intros Hc E. unfold strtok. cbn [skip_delims]. rewrite bool_decide_false by done. by rewrite E.
Qed.

Lemma strtok_join t ts :
  t ≠ [] → delim ∉ t → ∃ r, strtok (t ++ join_tokens ts) = (Some t, r) ∧ tokens r = tokens (join_tokens ts).
Proof.
  destruct t as [|c t]; [done|]. intros _ Hs. pose proof Hs as [Hc _]%not_elem_of_cons.
  destruct ts as [|t' ts].
  - exists []. split; [|done]. apply strtok_token; [done|].
    change (span_token ((c :: t) ++ []) = (c :: t, [])). rewrite app_nil_r. by apply span_token_all.
  - exists (t' ++ join_tokens ts). split.
    + apply strtok_token; [done|]. by apply (span_token_app (c :: t)).
    + change (join_tokens (t' :: ts)) with (delim :: (t' ++ join_tokens ts)).
      rewrite (tokens_unfold (delim :: _)), strtok_delim. by rewrite <- tokens_unfold.
Qed.

(** Joining tokens and splitting them again gives the tokens back. *)
Lemma tokens_join_tokens ts :
  Forall (λ t, t ≠ [] ∧ delim ∉ t) ts → tokens (join_tokens ts) = ts.
Proof.
  induction 1 as [|t ts [Ht Hs] _ IH]; [done|].
  change (join_tokens (t :: ts)) with (delim :: (t ++ join_tokens ts)).
  destruct (strtok_join t ts Ht Hs) as (r & E & Hr).
  rewrite tokens_unfold, strtok_delim, E, Hr. by rewrite IH.
Qed.

End Strtok.

(** * atoi *)

Definition is_space (c : byte) : bool :=
  bool_decide (c = " "%byte) || ((9 <=? Z_of_byte c) && (Z_of_byte c <=? 13)).
Definition digit_of (c : byte) : option Z :=
  if (48 <=? Z_of_byte c) && (Z_of_byte c <=? 57) then Some (Z_of_byte c - 48) else None.

Fixpoint atoi_digits (acc : Z) (s : list byte) : Z :=
  match s with
  | [] => acc
  | c :: s' => match digit_of c with
               | Some d => atoi_digits (10 * acc + d) s'
               | None => acc
               end
  end.
Fixpoint skip_spaces (s : list byte) : list byte :=
  match s with
  | c :: s' => if is_space c then skip_spaces s' else s
  | [] => []
  end.

(** [atoi]: blanks, an optional sign, digits; the value is that of
    [strtol] converted to [int]. *)
Definition atoi (s : list byte) : Z :=
  match skip_spaces s with
  | [] => 0
  | c :: s' =>
      if bool_decide (c = "-"%byte) then i32 (- atoi_digits 0 s')
      else if bool_decide (c = "+"%byte) then i32 (atoi_digits 0 s')
      else i32 (atoi_digits 0 (c :: s'))
  end.

End CLib.
