(* ===== verification/WfsLayout.v ===== *)
(** WfsLayout: the on-disk structures of the p7 file system (p7/wfs.h), the
    state of the FUSE server (p7/wfs.c: the mapped image [disk] and the global
    [dentry_loc]) and the accessors of the fields the code reads and writes
    through pointers into the image.  [sb] points at the start of the image, so
    every use of a superblock field is a load from the image. *)
From S2P Require Import Prelude Memory.
Local Open Scope Z_scope.

Module Wfs.

Definition BLOCK_SIZE : Z := 512.
Definition MAX_NAME : Z := 28.
Definition D_BLOCK : Z := 6.
Definition IND_BLOCK : Z := D_BLOCK + 1.
Definition N_BLOCKS : Z := IND_BLOCK + 1.

(** [sizeof] of the three structures, and of [int] and [off_t] (LP64). *)
Definition sizeof_sb : Z := 48.
Definition sizeof_inode : Z := 120.
Definition sizeof_dentry : Z := 32.
Definition sizeof_int : Z := 4.
Definition sizeof_off_t : Z := 8.

Definition ENOENT : Z := 2.
Definition EEXIST : Z := 17.
Definition ENOSPC : Z := 28.
Definition ENOTEMPTY : Z := 39.
Definition S_IFDIR : Z := 0x4000.
Definition S_IFREG : Z := 0x8000.

(** The server's mutable state. *)
Record state := State { disk : mem; dentry_loc : Z }.

#[refine, export] Instance state_mem : HasMem state := {|
  the_mem := disk;
  with_mem := λ m s, State m (dentry_loc s);
  the_mem_with := _; with_mem_with := _; with_mem_the := _
|}.
Proof. all: by intros; try destruct s. Defined.

(** What the C library tells an operation: [time(NULL)], [getuid()],
    [getgid()]. *)
Record env := Env { e_now : Z; e_uid : Z; e_gid : Z }.

(** Signed 32-bit products: overflow is undefined in C. *)
Definition chk_i32 (z : Z) : ST state Z :=
  if (- 2 ^ 31 <=? z) && (z <? 2 ^ 31) then ret z else fault.

(** * The superblock *)
Record wfs_sb := Sb {
  num_inodes : Z; num_data_blocks : Z;
  i_bitmap_ptr : Z; d_bitmap_ptr : Z; i_blocks_ptr : Z; d_blocks_ptr : Z
}.

(** The superblock of an image. *)
Definition sb_of (m : mem) : wfs_sb := {|
  num_inodes := uint_at m 0 8; num_data_blocks := uint_at m 8 8;
  i_bitmap_ptr := sint_at m 16 8; d_bitmap_ptr := sint_at m 24 8;
  i_blocks_ptr := sint_at m 32 8; d_blocks_ptr := sint_at m 40 8 |}.

Definition ld_num_inodes : ST state Z := load_uint 8 0.
Definition ld_num_data_blocks : ST state Z := load_uint 8 8.
Definition ld_i_bitmap_ptr : ST state Z := load_sint 8 16.
Definition ld_d_bitmap_ptr : ST state Z := load_sint 8 24.
Definition ld_i_blocks_ptr : ST state Z := load_sint 8 32.
Definition ld_d_blocks_ptr : ST state Z := load_sint 8 40.

(** * Inodes: the offsets of the fields of a [struct wfs_inode] at [p] *)
Definition ino_size (p : Z) : Z := p + 16.
Definition ino_nlinks (p : Z) : Z := p + 24.
Definition ino_atim (p : Z) : Z := p + 32.
Definition ino_mtim (p : Z) : Z := p + 40.
Definition ino_ctim (p : Z) : Z := p + 48.
Definition ino_block (p i : Z) : Z := p + 56 + 8 * i.

(** The structure as a local variable of the code. *)
Record wfs_inode := Inode {
  i_num : Z; i_mode : Z; i_uid : Z; i_gid : Z; i_size : Z; i_nlinks : Z;
  i_atim : Z; i_mtim : Z; i_ctim : Z; i_blocks : list Z
}.

(** The bytes of the structure ([memcpy] from the local to the image) ... *)
Definition inode_bytes (x : wfs_inode) : list byte :=
  le_encode 4 (i_num x) ++ le_encode 4 (i_mode x) ++ le_encode 4 (i_uid x) ++
  le_encode 4 (i_gid x) ++ le_encode 8 (i_size x) ++ le_encode 4 (i_nlinks x) ++
  replicate 4 x00 ++
  le_encode 8 (i_atim x) ++ le_encode 8 (i_mtim x) ++ le_encode 8 (i_ctim x) ++
  concat (le_encode 8 <$> i_blocks x).

Definition u_field (bs : list byte) (off n : nat) : Z := le_decode (take n (drop off bs)).
Definition s_field (bs : list byte) (off n : nat) : Z := wraps (8 * Z.of_nat n) (u_field bs off n).

(** ... and the structure read back ([memcpy] from the image to the local). *)
Definition inode_of_bytes (bs : list byte) : wfs_inode := {|
  i_num := s_field bs 0 4; i_mode := u_field bs 4 4; i_uid := u_field bs 8 4;
  i_gid := u_field bs 12 4; i_size := s_field bs 16 8; i_nlinks := s_field bs 24 4;
  i_atim := s_field bs 32 8; i_mtim := s_field bs 40 8; i_ctim := s_field bs 48 8;
  i_blocks := (λ i, s_field bs (56 + 8 * i) 8) <$> seq 0 8 |}.

Definition ld_inode (p : Z) : ST state wfs_inode :=
  let! bs := load_bytes p 120 in ret (inode_of_bytes bs).
Definition st_inode (p : Z) (x : wfs_inode) : ST state unit :=
  store_bytes p (inode_bytes x).

(** [disk + sb->i_blocks_ptr + num * BLOCK_SIZE] *)
Definition inode_ptr (num : Z) : ST state Z :=
  let! base := ld_i_blocks_ptr in
  let! off := chk_i32 (num * BLOCK_SIZE) in
  ret (base + off).

Definition ld_block (p i : Z) : ST state Z := load_sint 8 (ino_block p i).
Definition st_block (p i a : Z) : ST state unit := store_int 8 (ino_block p i) a.

(** * Directory entries *)
Definition dentry_at (base j : Z) : Z := base + j * sizeof_dentry.
Definition ld_dentry_num (p : Z) : ST state Z := load_sint 4 (p + MAX_NAME).
Definition st_dentry_num (p num : Z) : ST state unit := store_int 4 (p + MAX_NAME) num.

Definition DENTRIES_PER_BLOCK : Z := BLOCK_SIZE / sizeof_dentry.

(** [time_t update_inode_times(struct wfs_inode *inode, int modified)] *)
Definition update_inode_times (e : env) (p : Z) (modified : bool) : ST state Z :=
  do! store_int 8 (ino_atim p) (e_now e) in
  do! store_int 8 (ino_ctim p) (e_now e) in
  do! (if modified then store_int 8 (ino_mtim p) (e_now e) else ret tt) in
  ret (e_now e).

(** [strcpy] into a local [char] array of [cap] bytes: a longer string overruns
    the array. *)
Definition strcpy_buf (cap : Z) (s : list byte) : ST state (list byte) :=
  if Z.of_nat (length s) + 1 <=? cap then ret s else fault.

End Wfs.
