(* ===== verification/WfsBitmap.v ===== *)
(** WfsBitmap: the allocation bitmaps of p7/wfs.c ([allocate_block],
    [flip_bit_in_bitmap]): first-fit search and bit toggling, with their
    specification in terms of the bits of the bitmap. *)
From S2P Require Import Prelude Memory WfsLayout.
Local Open Scope Z_scope.

Module WfsBitmap.
Import Wfs.

(** [int allocate_block(size_t addr, int size)].  The loop variable is [row];
    [size / 32] turns suffice. *)
Definition allocate_block (addr size : Z) : ST state Z :=
  loop (S (Z.to_nat (size ÷ 32)))
    (λ row,
      if row <? size ÷ 32 then
        let! old_bit := load_sint 4 (addr + row * sizeof_int) in
        if Z.lnot old_bit =? 0 then ret (inl (row + 1))
        else
          let! r := for_range 0 32 (λ col,
            if negb (Z.land (i32 (Z.shiftl 1 col)) (Z.lnot old_bit) =? 0)
            then ret (Some (row * 32 + col)) else ret None) in
          match r with
          | Some b => ret (inr b)
          | None => ret (inl (row + 1))
          end
      else ret (inr (-1))) 0.

(** [int flip_bit_in_bitmap(off_t offset, int block_num)].  A shift by a
    negative count is undefined. *)
Definition flip_bit_in_bitmap (offset block_num : Z) : ST state Z :=
  let row := block_num ÷ 32 in
  let col := Z.rem block_num 32 in
  let! old := load_sint 4 (offset + row * sizeof_int) in
  if col <? 0 then fault else
  let new := Z.lxor old (i32 (Z.shiftl 1 col)) in
  do! store_int 4 (offset + row * sizeof_int) new in
  ret 0.

(** * Specification: a bitmap is the sequence of its bits *)

(** Bit [n] of the bitmap at [addr]. *)
Definition bit_at (m : mem) (addr n : Z) : bool :=
  Z.testbit (uint_at m (addr + (n / 32) * 4) 4) (n mod 32).

(** The first clear bit of a bitmap of [size] bits; [-1] when all are set. *)
Definition first_free (m : mem) (addr size : Z) : Z :=
  default (-1) (first_in (λ n, negb (bit_at m addr n)) 0 size).

(** * Bits of a word *)

Lemma bit_at_word m addr row col :
  0 ≤ col < 32 →
  bit_at m addr (row * 32 + col) = Z.testbit (sint_at m (addr + row * 4) 4) col.
Proof.
  intros Hc. unfold bit_at, sint_at.
  replace ((row * 32 + col) / 32) with row by (rewrite Z.div_add_l, Z.div_small; lia).
  replace ((row * 32 + col) mod 32) with col
    by (rewrite Z.add_comm, Z.mod_add, Z.mod_small; lia).
  by rewrite wraps_testbit by lia.
Qed.

(** The test [((1 << col) & ~old_bit) != 0] of the code. *)
Lemma bit_clear_test old col :
  0 ≤ col < 32 →
  negb (Z.land (i32 (Z.shiftl 1 col)) (Z.lnot (wraps 32 old)) =? 0)
  = negb (Z.testbit (wraps 32 old) col).
Proof.
  intros Hc. f_equal. destruct (Z.testbit (wraps 32 old) col) eqn:E.
  - apply Z.eqb_eq, Z.bits_inj'. intros i Hi.
    rewrite Z.land_spec, Z.lnot_spec, Z.bits_0 by done.
    unfold i32. rewrite !wraps_testbit_sext in * by lia.
    rewrite shiftl_1_testbit by lia. case_bool_decide as Hm; [|done].
    rewrite Hm. replace (Z.min col (32 - 1)) with col in E by lia. by rewrite E.
  - apply Z.eqb_neq. intros H. apply (f_equal (λ x, Z.testbit x col)) in H.
    rewrite Z.land_spec, Z.lnot_spec, E, Z.bits_0 in H by lia.
    unfold i32 in H. rewrite wraps_testbit, shiftl_1_testbit in H by lia.
    by rewrite bool_decide_true in H.
Qed.

Lemma word_full old : Z.lnot old = 0 → ∀ col, 0 ≤ col → Z.testbit old col = true.
Proof.
  intros H col Hc. rewrite <- (Z.lnot_involutive old), H, Z.lnot_spec by lia.
  by rewrite Z.bits_0.
Qed.

Lemma word_not_full old :
  Z.lnot (wraps 32 old) ≠ 0 → ¬ ∀ col, 0 ≤ col < 32 → Z.testbit (wraps 32 old) col = true.
Proof.
  intros H Hall. apply H. apply Z.bits_inj'. intros i Hi.
  rewrite Z.lnot_spec, Z.bits_0 by done. apply negb_false_iff.
  rewrite wraps_testbit_sext by lia. rewrite <- (wraps_testbit 32) by lia. apply Hall. lia.
Qed.

(** The search of one word. *)
Lemma wp_search_word m dl addr row old :
  old = sint_at m (addr + row * 4) 4 →
  wp (for_range 0 32 (λ col,
        if negb (Z.land (i32 (Z.shiftl 1 col)) (Z.lnot old) =? 0)
        then ret (Some (row * 32 + col)) else ret None))
     (λ r s', s' = State m dl ∧
        match r with
        | Some b => ∃ col, b = row * 32 + col ∧ 0 ≤ col < 32 ∧ bit_at m addr b = false ∧
                      ∀ c, 0 ≤ c < col → bit_at m addr (row * 32 + c) = true
        | None => ∀ c, 0 ≤ c < 32 → bit_at m addr (row * 32 + c) = true
        end) (State m dl).
Proof.
  intros ->. apply wp_for_range with
    (I := λ col s', s' = State m dl ∧ ∀ c, 0 ≤ c < col → bit_at m addr (row * 32 + c) = true).
  - lia.
  - split; [done|lia].
  - intros col s' Hc [-> Hb]. change (sint_at m (addr + row * 4) 4) with (wraps 32 (uint_at m (addr + row * 4) 4)).
    rewrite bit_clear_test by lia.
    change (wraps 32 (uint_at m (addr + row * 4) 4)) with (sint_at m (addr + row * 4) 4).
    rewrite <- bit_at_word by lia.
    destruct (bit_at m addr (row * 32 + col)) eqn:E; simpl.
    + apply wp_ret. split; [done|]. intros c ?.
      destruct (decide (c = col)) as [->|]; [done|]. apply Hb. lia.
    + apply wp_ret. split; [done|]. exists col. auto.
  - intros s' [-> Hb]. auto.
Qed.

Lemma wp_allocate_block m dl addr size :
  0 ≤ size → in_range m addr (size ÷ 32 * 4) = true →
  wp (allocate_block addr size)
     (λ r s', s' = State m dl ∧ r = first_free m addr (32 * (size ÷ 32))) (State m dl).
Proof.
  intros Hs Hr. assert (0 ≤ size ÷ 32) by (apply Z.quot_pos; lia).
  apply wp_loop with
    (I := λ row s', s' = State m dl ∧ 0 ≤ row ≤ size ÷ 32 ∧
                    ∀ n, 0 ≤ n < row * 32 → bit_at m addr n = true)
    (μ := λ row, Z.to_nat (size ÷ 32 - row)).
  { split_and!; [done|lia..]. }
  { lia. }
  intros row s' (-> & Hrow & Hb). destruct (Z.ltb_spec row (size ÷ 32)).
  2:{ apply wp_ret. split; [done|]. unfold first_free.
      rewrite <- (first_in_eq _ _ _ None); [done|]. intros n ?. rewrite Hb by lia. done. }
  assert (∀ P : Prop, (∀ c, 0 ≤ c < 32 → bit_at m addr (row * 32 + c) = true) →
            ((∀ n, 0 ≤ n < (row + 1) * 32 → bit_at m addr n = true) → P) → P) as Hext.
  { intros P Hc HP. apply HP. intros n ?. destruct (decide (n < row * 32)); [apply Hb; lia|].
    replace n with (row * 32 + (n - row * 32)) by lia. apply Hc. lia. }
  apply wp_bind. change sizeof_int with 4.
  apply wp_load_sint; [cbn [the_mem state_mem disk]; clear Hext; in_range_tac|]. simpl the_mem.
  destruct (Z.eqb_spec (Z.lnot (sint_at m (addr + row * 4) 4)) 0) as [Hz|Hz].
  - apply wp_ret. apply Hext; [|intros; split_and!; [done|lia..|done|lia]].
    intros c Hc. rewrite bit_at_word by lia. apply word_full; [done|lia].
  - apply wp_bind. eapply wp_mono; [by apply wp_search_word with (addr := addr)|].
    intros [b|] s' [-> H'].
    + destruct H' as (col & -> & ? & E & Hc). apply wp_ret. split; [done|]. unfold first_free.
      rewrite <- (first_in_eq _ _ _ (Some (row * 32 + col))); [done|].
      split_and!; [lia..|by rewrite E|]. intros n ?. apply negb_false_iff.
      destruct (decide (n < row * 32)); [apply Hb; lia|].
      replace n with (row * 32 + (n - row * 32)) by lia. apply Hc. lia.
    + apply wp_ret. apply Hext; [done|intros; split_and!; [done|lia..|done|lia]].
Qed.

(** [allocate_block] is the first-fit search for a clear bit. *)
Theorem allocate_block_first_fit m dl addr size :
  0 ≤ size → in_range m addr (size ÷ 32 * 4) = true →
  allocate_block addr size (State m dl) =
  Ok (first_free m addr (32 * (size ÷ 32))) (State m dl).
Proof.
  intros Hs Hr. pose proof (wp_allocate_block m dl addr size Hs Hr) as H.
  by apply wp_ok in H as (r & s' & -> & -> & ->).
Qed.

(** * Toggling a bit *)

Definition word_of (addr n : Z) : Z := addr + n / 32 * 4.

(** The memory after [flip_bit_in_bitmap]. *)
Definition flip_mem (m : mem) (addr n : Z) : mem :=
  mstore m (word_of addr n) 4
    (Z.lxor (sint_at m (word_of addr n) 4) (i32 (Z.shiftl 1 (n mod 32)))).

Lemma flip_bit_ok m dl addr n :
  0 ≤ n → in_range m (word_of addr n) 4 = true →
  flip_bit_in_bitmap addr n (State m dl) = Ok 0 (State (flip_mem m addr n) dl).
Proof.
  intros Hn Hr.
  enough (wp (flip_bit_in_bitmap addr n)
            (λ r s', r = 0 ∧ s' = State (flip_mem m addr n) dl) (State m dl)) as H.
  { apply wp_ok in H as (? & ? & -> & -> & ->). done. }
  unfold flip_bit_in_bitmap. rewrite Z.quot_div_nonneg, Z.rem_mod_nonneg by lia.
  change sizeof_int with 4. apply wp_bind, wp_load_sint; [exact Hr|].
  pose proof (Z.mod_pos_bound n 32 ltac:(lia)).
  destruct (Z.ltb_spec (n mod 32) 0); [lia|].
  apply wp_bind, wp_store_int; [exact Hr|]. by apply wp_ret.
Qed.

Lemma flip_mem_other m addr n a :
  a < word_of addr n ∨ word_of addr n + 4 ≤ a → mget (flip_mem m addr n) a = mget m a.
Proof. intros. unfold flip_mem, mstore. apply mget_mwrite_out. by rewrite length_le_encode. Qed.

Lemma bit_at_flip m addr n k :
  0 ≤ n → 0 ≤ k →
  bit_at (flip_mem m addr n) addr k = xorb (bit_at m addr k) (bool_decide (k = n)).
Proof.
  intros Hn Hk. unfold bit_at, flip_mem. unfold word_of.
  pose proof (Z.mod_pos_bound n 32 ltac:(lia)). pose proof (Z.mod_pos_bound k 32 ltac:(lia)).
  pose proof (Z.div_mod n 32 ltac:(lia)). pose proof (Z.div_mod k 32 ltac:(lia)).
  destruct (decide (k / 32 = n / 32)) as [E|E].
  - rewrite E, uint_at_mstore. unfold wrapu.
    rewrite Z.mod_pow2_bits_low, Z.lxor_spec by lia.
    unfold sint_at, i32. rewrite !wraps_testbit, shiftl_1_testbit by lia.
    f_equal. apply bool_decide_ext. split; intros ?; [lia|congruence].
  - rewrite uint_at_mstore_ne by lia.
    rewrite bool_decide_false by congruence. by rewrite xorb_false_r.
Qed.

(** [flip_bit_in_bitmap] toggles one bit and touches nothing else. *)
Theorem flip_bit_toggles m dl addr n :
  0 ≤ n → in_range m (word_of addr n) 4 = true →
  ∃ m', flip_bit_in_bitmap addr n (State m dl) = Ok 0 (State m' dl) ∧
    (∀ k, 0 ≤ k → bit_at m' addr k = if decide (k = n) then negb (bit_at m addr n) else bit_at m addr k) ∧
    (∀ a, a < word_of addr n ∨ word_of addr n + 4 ≤ a → mget m' a = mget m a) ∧
    msize m' = msize m.
Proof.
  intros Hn Hr. exists (flip_mem m addr n). split_and!.
  - by apply flip_bit_ok.
  - intros k Hk. rewrite bit_at_flip by done. case_decide as E.
    + rewrite bool_decide_true by done. subst. apply xorb_true_r.
    + rewrite bool_decide_false by done. apply xorb_false_r.
  - intros. by apply flip_mem_other.
  - done.
Qed.

(** Words are determined by their bits, so toggling twice restores the image. *)
Lemma bytes_eq_decode bs1 bs2 :
  length bs1 = length bs2 → le_decode bs1 = le_decode bs2 → bs1 = bs2.
Proof. intros Hl Hd. rewrite <- (le_encode_decode bs1), <- (le_encode_decode bs2). congruence. Qed.

(** Flipping a bit twice restores the disk. *)
Theorem flip_bit_involutive m dl addr n :
  0 ≤ n → in_range m (word_of addr n) 4 = true →
  ∃ m', bind (flip_bit_in_bitmap addr n) (λ _, flip_bit_in_bitmap addr n) (State m dl)
        = Ok 0 (State m' dl) ∧ m' ≡ m.
Proof.
  intros Hn Hr. exists (flip_mem (flip_mem m addr n) addr n). split.
  { erewrite bind_ok by (by apply flip_bit_ok). by apply flip_bit_ok. }
  split; [done|]. intros a _.
  destruct (decide (word_of addr n ≤ a < word_of addr n + 4)) as [Ha|];
    [|by rewrite !flip_mem_other by lia].
  enough (mread (flip_mem (flip_mem m addr n) addr n) (word_of addr n) 4 = mread m (word_of addr n) 4) as H.
  { replace a with (word_of addr n + Z.of_nat (Z.to_nat (a - word_of addr n))) by lia.
    apply (f_equal (λ l, l !! Z.to_nat (a - word_of addr n))) in H.
    rewrite !mread_lookup in H by lia. congruence. }
  apply bytes_eq_decode; [by rewrite !length_mread|].
  change (uint_at (flip_mem (flip_mem m addr n) addr n) (word_of addr n) 4 = uint_at m (word_of addr n) 4).
  unfold flip_mem. rewrite uint_at_mstore, sint_at_mstore by lia. unfold wrapu.
  apply Z.bits_inj'. intros i Hi. destruct (decide (i < 32)).
  - rewrite Z.mod_pow2_bits_low, Z.lxor_spec, wraps_testbit, Z.lxor_spec by lia.
    unfold sint_at. rewrite wraps_testbit by lia. by rewrite xorb_assoc, xorb_nilpotent, xorb_false_r.
  - rewrite Z.mod_pow2_bits_high by lia. symmetry.
    apply (testbit_small _ 32); [apply uint_at_range|lia].
Qed.

End WfsBitmap.
