(* ===== verification/WfsPath.v ===== *)
(** WfsPath: path resolution of p7/wfs.c: splitting a path with [strtok],
    searching a directory block ([find_dentry]) and walking from the root inode
    ([find_inode_number_by_path]). *)
From S2P Require Import Prelude Memory CLib WfsLayout.
From Stdlib Require Import Strings.Byte.
Local Open Scope Z_scope.

Module WfsPath.
Import Wfs CLib.

Definition slash : byte := "/"%byte.

Abbreviation strtok := (CLib.strtok slash).
Abbreviation tokens := (CLib.tokens slash).
Abbreviation join_path := (CLib.join_tokens slash).

(** [int find_dentry(off_t offset, char *name)]: [sizeof(struct wfs_dentry)]
    entries from [offset] on are looked at; the loop carries [found]. *)
Definition find_dentry_loop (offset : Z) (name : list byte) : Z * Z → ST state ((Z * Z) + Z) :=
  λ '(i, found),
    if i <? sizeof_dentry then
      let dentry := dentry_at offset i in
      let! eq := strcmp_is_0 dentry name in
      if eq : bool then
        do! modify (λ s, State (disk s) i) in
        let! num := ld_dentry_num dentry in
        ret (inr num)
      else
        let! num := ld_dentry_num dentry in
        ret (inl (i + 1, if 0 <? num then 1 else found))
    else ret (inr (if negb (found =? 1) then -2 else -1)).

Definition find_dentry (offset : Z) (name : list byte) : ST state Z :=
  loop 33 (find_dentry_loop offset name) (0, 0).

(** The [for] loop of [find_inode_number_by_path]: the first of the blocks
    [0 .. D_BLOCK] in which [find_dentry] answers a positive number. *)
Definition search_blocks (inode : Z) (name : list byte) : ST state (option Z) :=
  for_range 0 (D_BLOCK + 1) (λ i,
    let! b := ld_block inode i in
    let! i_num := find_dentry b name in
    if 0 <? i_num then ret (Some i_num) else ret None).

(** One turn of its [while] loop: [name] is the current token, [rest] what
    [strtok] has left. *)
Definition path_step :
    (option (list byte) * list byte) * (Z * Z) → ST state (((option (list byte) * list byte) * (Z * Z)) + Z * Z) :=
  λ '((name, rest), (prev, curr)),
    match name with
    | None => ret (inr (prev, curr))
    | Some nm =>
        let! inode := inode_ptr curr in
        let! r := search_blocks inode nm in
        let found := default (-1) r in
        let prev := curr in
        let curr := found in
        if curr =? -1 then ret (inr (prev, -1))
        else ret (inl (strtok rest, (prev, curr)))
    end.

(** [void find_inode_number_by_path(char *path, int *parent_num, int *inode_num)]:
    answers [(parent_num, inode_num)].  A path of [n] bytes has at most [n]
    tokens. *)
Definition find_inode_number_by_path (path : list byte) : ST state (Z * Z) :=
  loop (length path + 2) path_step (strtok path, (0, 0)).

(** The loop that leaves the last component of the path in [name]; no token
    leaves it as it is. *)
Definition name_step :
    (option (list byte) * list byte) * option (list byte) →
    ST state (((option (list byte) * list byte) * option (list byte)) + option (list byte)) :=
  λ '((tok, rest), name),
    match tok with
    | None => ret (inr name)
    | Some t => ret (inl (strtok rest, Some t))
    end.
Definition last_component (path : list byte) : ST state (option (list byte)) :=
  loop (length path + 2) name_step (strtok path, None).

(** * Tokens *)

(** [last_component] is the last token. *)
Lemma last_component_ok path m dl :
  last_component path (State m dl) = Ok (last (tokens path)) (State m dl).
Proof.
  enough (∀ n s o, (length s < n)%nat →
    loop (S n) name_step (strtok s, o) (State m dl) =
    Ok (match last (tokens s) with Some t => Some t | None => o end) (State m dl)) as H.
  { unfold last_component. replace (length path + 2)%nat with (S (S (length path))) by lia.
    rewrite H by lia. by destruct (last (tokens path)). }
  induction n as [|n IH]; intros s o Hn; [lia|]. rewrite tokens_unfold.
  destruct (strtok s) as [[t|] r] eqn:E; [|done].
  erewrite loop_next by reflexivity. rewrite IH by (apply strtok_some in E as (Ht & _ & ?); destruct t; [done|simpl in *; lia]).
  rewrite last_cons. by destruct (last (tokens r)).
Qed.

(** * Searching a directory block *)

Definition dentry_num (m : mem) (b j : Z) : Z := sint_at m (dentry_at b j + MAX_NAME) 4.
Definition dentry_is (m : mem) (b : Z) (name : list byte) (j : Z) : bool :=
  cstr_eqb m (dentry_at b j) name.

(** The slot of the first entry named [name] among the 32 that are looked at,
    and what [find_dentry] answers. *)
Definition dentry_slot (m : mem) (b : Z) (name : list byte) : option Z :=
  first_in (dentry_is m b name) 0 sizeof_dentry.
Definition dentry_lookup (m : mem) (b : Z) (name : list byte) : Z :=
  match dentry_slot m b name with
  | Some j => dentry_num m b j
  | None => match first_in (λ j, 0 <? dentry_num m b j) 0 sizeof_dentry with
            | Some _ => -1
            | None => -2
            end
  end.

(** The bytes that the search of the block at [b] may look at. *)
Definition block_readable (m : mem) (b : Z) (name : list byte) : bool :=
  in_range m b (31 * 32 + Z.max 32 (Z.of_nat (length name) + 1)).

Lemma find_dentry_ok m dl b name :
  block_readable m b name = true →
  find_dentry b name (State m dl) =
  Ok (dentry_lookup m b name) (State m (default dl (dentry_slot m b name))).
Proof.
  unfold block_readable. intros Hr%in_range_iff.
  enough (wp (find_dentry b name)
            (λ r s', r = dentry_lookup m b name ∧
                     s' = State m (default dl (dentry_slot m b name))) (State m dl)) as H.
  { by apply wp_ok in H as (? & ? & -> & -> & ->). }
  apply wp_loop with
    (I := λ '(i, found) s', s' = State m dl ∧ 0 ≤ i ≤ 32 ∧
            (∀ j, 0 ≤ j < i → dentry_is m b name j = false) ∧
            (found = 0 ∧ (∀ j, 0 ≤ j < i → (0 <? dentry_num m b j) = false) ∨
             found = 1 ∧ ∃ j, 0 ≤ j < i ∧ (0 <? dentry_num m b j) = true))
    (μ := λ '(i, _), Z.to_nat (32 - i)).
  { split_and!; [done|lia..|]. left. split; [done|lia]. }
  { simpl. lia. }
  intros [i found] s' (-> & Hi & Hno & Hf). cbn [find_dentry_loop]. unfold sizeof_dentry.
  destruct (Z.ltb_spec i 32).
  - unfold dentry_at, sizeof_dentry in *. apply wp_bind, wp_strcmp_is_0.
    { apply in_range_iff. cbn [the_mem state_mem disk]. lia. }
    simpl the_mem. destruct (cstr_eqb m (b + i * 32) name) eqn:Heq.
    + apply wp_bind, wp_modify, wp_bind, wp_load_sint.
      { apply in_range_iff. unfold MAX_NAME. simpl. lia. }
      apply wp_ret. simpl.
      assert (dentry_slot m b name = Some i) as Hs.
      { unfold dentry_slot. rewrite <- (first_in_eq _ _ _ (Some i)); [done|].
        unfold sizeof_dentry. split_and!; [lia..|exact Heq|exact Hno]. }
      unfold dentry_lookup. by rewrite Hs.
    + apply wp_bind, wp_load_sint.
      { apply in_range_iff. unfold MAX_NAME. simpl. lia. }
      apply wp_ret. simpl the_mem. fold (dentry_num m b i).
      split; [|lia]. split_and!; [done|lia..| |].
      * intros j ?. destruct (decide (j = i)) as [->|]; [exact Heq|]. apply Hno. lia.
      * change (sint_at m (b + i * 32 + MAX_NAME) 4) with (dentry_num m b i).
        destruct (0 <? dentry_num m b i) eqn:En.
        -- right. split; [done|]. exists i. split; [lia|done].
        -- destruct Hf as [[-> Hf]|[-> (j & ? & ?)]].
           ++ left. split; [done|]. intros j ?. destruct (decide (j = i)) as [->|]; [done|].
              apply Hf. lia.
           ++ right. split; [done|]. exists j. split; [lia|done].
  - assert (i = 32) as -> by lia. apply wp_ret.
    assert (dentry_slot m b name = None) as Hs.
    { unfold dentry_slot. rewrite <- (first_in_eq _ _ _ None); done. }
    unfold dentry_lookup. rewrite Hs. split; [|done].
    pose proof (first_in_spec (λ j, 0 <? dentry_num m b j) 0 sizeof_dentry) as Hp.
    destruct (first_in _ 0 sizeof_dentry) as [k|]; destruct Hf as [[-> Hf]|[-> (j & ? & E)]]; [|done|done|].
    + destruct Hp as (? & E & _). rewrite Hf in E by (unfold sizeof_dentry in *; lia). done.
    + rewrite Hp in E by (unfold sizeof_dentry; lia). done.
Qed.

(** * Looking a name up in a directory, and walking a path *)

Definition block_at (m : mem) (p i : Z) : Z := sint_at m (ino_block p i) 8.
Definition inode_addr (m : mem) (num : Z) : Z := i_blocks_ptr (sb_of m) + num * BLOCK_SIZE.

(** The inode number that a directory gives to a name. *)
Definition dir_lookup (m : mem) (p : Z) (name : list byte) : option Z :=
  (λ i, dentry_lookup m (block_at m p i) name) <$>
    first_in (λ i, 0 <? dentry_lookup m (block_at m p i) name) 0 (D_BLOCK + 1).

Definition dir_readable (m : mem) (p : Z) (name : list byte) : bool :=
  in_range m p sizeof_inode &&
  forallb (λ i, block_readable m (block_at m p i) name) (seqZ 0 (D_BLOCK + 1)).

(** The superblock is there and the address of inode [num] does not overflow. *)
Definition inode_addressable (m : mem) (num : Z) : bool :=
  in_range m 0 sizeof_sb && (- 2 ^ 31 <=? num * BLOCK_SIZE) && (num * BLOCK_SIZE <? 2 ^ 31).

(** The reference semantics of path resolution: from inode [curr] (whose parent
    is [prev]) along the names [ts]; a missing name stops the walk with [-1]. *)
Fixpoint walk (m : mem) (ts : list (list byte)) (prev curr : Z) : Z * Z :=
  match ts with
  | [] => (prev, curr)
  | t :: ts' =>
      match dir_lookup m (inode_addr m curr) t with
      | Some n => walk m ts' curr n
      | None => (curr, -1)
      end
  end.

(** Every access of the walk stays inside the image. *)
Fixpoint walk_safe (m : mem) (ts : list (list byte)) (curr : Z) : bool :=
  match ts with
  | [] => true
  | t :: ts' =>
      inode_addressable m curr && dir_readable m (inode_addr m curr) t &&
      match dir_lookup m (inode_addr m curr) t with
      | Some n => walk_safe m ts' n
      | None => true
      end
  end.

Lemma inode_ptr_ok m dl num :
  inode_addressable m num = true →
  inode_ptr num (State m dl) = Ok (inode_addr m num) (State m dl).
Proof.
  unfold inode_addressable. intros [[Hr H1]%andb_true_iff H2]%andb_true_iff.
  unfold inode_ptr, ld_i_blocks_ptr, load_sint, load_uint, load_bytes, bind, chk_i32, ret.
  cbn [the_mem state_mem disk].
  assert (in_range m 32 (Z.of_nat 8) = true) as ->.
  { apply in_range_iff. apply in_range_iff in Hr. unfold sizeof_sb in *. lia. }
  by rewrite H1, H2.
Qed.

Lemma search_blocks_ok m dl p name :
  dir_readable m p name = true →
  ∃ dl', search_blocks p name (State m dl) = Ok (dir_lookup m p name) (State m dl').
Proof.
  unfold dir_readable. intros [Hr%in_range_iff Hb]%andb_true_iff.
  rewrite forallb_forall in Hb.
  enough (wp (search_blocks p name)
            (λ r s', r = dir_lookup m p name ∧ ∃ dl', s' = State m dl') (State m dl)) as H.
  { apply wp_ok in H as (? & ? & -> & -> & dl' & ->). by exists dl'. }
  unfold sizeof_inode, D_BLOCK in *. apply wp_for_range with
    (I := λ i s', (∃ dl', s' = State m dl') ∧
       ∀ j, 0 ≤ j < i → (0 <? dentry_lookup m (block_at m p j) name) = false).
  - unfold D_BLOCK. lia.
  - split; [by eexists|lia].
  - unfold D_BLOCK. intros i s' Hi [[dl' ->] Hno].
    apply wp_bind, wp_load_sint.
    { apply in_range_iff. unfold ino_block. simpl. lia. }
    simpl the_mem. fold (block_at m p i). apply wp_bind. unfold wp at 1.
    rewrite find_dentry_ok by (apply Hb, list_elem_of_In, elem_of_seqZ; lia).
    destruct (0 <? dentry_lookup m (block_at m p i) name) eqn:E; apply wp_ret.
    + split; [|by eexists]. unfold dir_lookup.
      by rewrite <- (first_in_eq _ _ _ (Some i)).
    + split; [by eexists|]. intros j ?. destruct (decide (j = i)) as [->|]; [done|]. apply Hno. lia.
  - intros s' [[dl' ->] Hno]. split; [|by eexists]. unfold dir_lookup.
    by rewrite <- (first_in_eq _ _ _ None).
Qed.

Lemma path_loop_ok m n s dl prev curr :
  (length s < n)%nat → curr ≠ -1 → walk_safe m (tokens s) curr = true →
  ∃ dl', loop (S n) path_step (strtok s, (prev, curr)) (State m dl) =
         Ok (walk m (tokens s) prev curr) (State m dl').
Proof.
  revert s dl prev curr. induction n as [|n IH]; intros s dl prev curr Hn Hc; [lia|].
  rewrite tokens_unfold. destruct (strtok s) as [[t|] r] eqn:E; [|by eexists].
  cbn [walk walk_safe]. intros [[Hi Hd]%andb_true_iff Hw]%andb_true_iff.
  destruct (search_blocks_ok m dl _ t Hd) as [dl' Hs].
  assert (length r < n)%nat.
  { apply strtok_some in E as (? & _ & ?). destruct t; [done|]. simpl in *. lia. }
  assert (path_step (Some t, r, (prev, curr)) (State m dl) =
    if default (-1) (dir_lookup m (inode_addr m curr) t) =? -1
    then Ok (inr (curr, -1)) (State m dl')
    else Ok (inl (strtok r, (curr, default (-1) (dir_lookup m (inode_addr m curr) t)))) (State m dl')) as Hstep.
  { cbn [path_step]. rewrite (bind_ok _ _ _ _ _ (inode_ptr_ok _ _ _ Hi)), (bind_ok _ _ _ _ _ Hs).
    by destruct (_ =? -1). }
  destruct (dir_lookup m (inode_addr m curr) t) as [k|] eqn:Hk; cbn [default from_option id] in Hstep.
  - assert (k ≠ -1).
    { unfold dir_lookup in Hk. pose proof (first_in_spec (λ i, 0 <? dentry_lookup m (block_at m (inode_addr m curr) i) t) 0 (D_BLOCK + 1)) as Hf.
      destruct (first_in _ 0 (D_BLOCK + 1)); [|done]. destruct Hf as (_ & Hp & _). simpl in Hk. simplify_eq. lia. }
    destruct (Z.eqb_spec k (-1)); [done|].
    rewrite (loop_next _ _ _ _ _ _ Hstep). by apply IH.
  - exists dl'. by apply loop_exit.
Qed.

Lemma find_path_ok m dl path :
  walk_safe m (tokens path) 0 = true →
  ∃ dl', find_inode_number_by_path path (State m dl) =
         Ok (walk m (tokens path) 0 0) (State m dl').
Proof.
  intros. unfold find_inode_number_by_path.
  replace (length path + 2)%nat with (S (S (length path))) by lia.
  apply path_loop_ok; [lia|done|done].
Qed.

(** C8: [find_inode_number_by_path] is the walk along the components of the path. *)
Theorem find_inode_number_by_path_walk m dl path :
  walk_safe m (tokens path) 0 = true →
  ∃ dl', find_inode_number_by_path path (State m dl) =
         Ok (walk m (tokens path) 0 0) (State m dl').
Proof. apply find_path_ok. Qed.

End WfsPath.
