(* ===== verification/WfsOps.v ===== *)
(** WfsOps: the FUSE operations of p7/wfs.c on names and inodes: [wfs_getattr],
    [wfs_mknod], [wfs_mkdir], [wfs_unlink], [wfs_rmdir], [wfs_readdir]. *)
From S2P Require Import Prelude Memory WfsLayout WfsBitmap WfsPath.
From Stdlib Require Import Strings.Byte.
Local Open Scope Z_scope.

Module WfsOps.
Import Wfs WfsBitmap WfsPath.

(** * getattr *)

Record stat := Stat {
  st_ino : Z; st_mode : Z; st_nlink : Z; st_uid : Z; st_gid : Z; st_size : Z;
  st_atime : Z; st_mtime : Z; st_ctime : Z; st_blocks : Z; st_blksize : Z
}.

(** [st_nlink] is unsigned. *)
Definition stat_of (num : Z) (x : wfs_inode) : stat := {|
  st_ino := num; st_mode := i_mode x; st_nlink := u64 (i_nlinks x);
  st_uid := i_uid x; st_gid := i_gid x; st_size := i_size x;
  st_atime := i_atim x; st_mtime := i_mtim x; st_ctime := i_ctim x;
  st_blocks := if Z.rem (i_size x) BLOCK_SIZE =? 0 then i_size x ÷ BLOCK_SIZE
               else i_size x ÷ BLOCK_SIZE + 1;
  st_blksize := BLOCK_SIZE |}.

(** [int wfs_getattr(const char *path, struct stat *stbuf)]: the error code, or
    0 and the contents of [stbuf]. *)
Definition wfs_getattr (path : list byte) : ST state (Z * option stat) :=
  let! tmp_path := strcpy_buf 50 path in
  let! (_, inode_num) := find_inode_number_by_path tmp_path in
  if inode_num <? 0 then ret (- ENOENT, None) else
  let! p := inode_ptr inode_num in
  let! inode := ld_inode p in
  ret (0, Some (stat_of inode_num inode)).

(** * Creating files and directories *)

(** Take a data block from the bitmap and store its address in the pointer at
    [slot]; [false] when the disk is full. *)
Definition assign_block (slot : Z) : ST state bool :=
  let! dbm := ld_d_bitmap_ptr in
  let! ndb := ld_num_data_blocks in
  let! new_block := allocate_block dbm (i32 ndb) in
  if new_block =? -1 then ret false else
  let! dbp := ld_d_blocks_ptr in
  let! off := chk_i32 (new_block * BLOCK_SIZE) in
  do! store_int 8 slot (dbp + off) in
  let! dbm := ld_d_bitmap_ptr in
  do! flip_bit_in_bitmap dbm new_block in
  ret true.

(** The local [struct wfs_inode inode] that a new object starts with. *)
Definition new_inode (e : env) (num mode : Z) : wfs_inode := {|
  i_num := num; i_mode := mode; i_uid := e_uid e; i_gid := e_gid e; i_size := 0;
  i_nlinks := 1; i_atim := e_now e; i_mtim := e_now e; i_ctim := e_now e;
  i_blocks := replicate 8 0 |}.

(** The body of the inner [if (dentry->num == 0)]: the entry is free. *)
Definition fill_dentry (e : env) (parent dentry mode : Z) (name : list byte) : ST state Z :=
  let! ibm := ld_i_bitmap_ptr in
  let! ni := ld_num_inodes in
  let! inode_number := allocate_block ibm (i32 ni) in
  if inode_number =? -1 then ret (- ENOSPC) else
  let inode := new_inode e inode_number mode in
  do! store_bytes dentry (name ++ [x00]) in
  do! st_dentry_num dentry inode_number in
  let! p := inode_ptr inode_number in
  do! st_inode p inode in
  let! ibm := ld_i_bitmap_ptr in
  do! flip_bit_in_bitmap ibm inode_number in
  let! nl := load_sint 4 (ino_nlinks parent) in
  do! store_int 4 (ino_nlinks parent) (nl + 1) in
  ret 0.

(** The body of the loop over the blocks of the parent directory. *)
Definition create_in_block (e : env) (parent mode : Z) (name : list byte) (i : Z) : ST state (option Z) :=
  let! b := ld_block parent i in
  let! ok := (if b =? 0 then assign_block (ino_block parent i) else ret true) in
  if negb ok then ret (Some (- ENOSPC)) else
  for_range 0 DENTRIES_PER_BLOCK (λ j,
    let! b := ld_block parent i in
    let dentry := dentry_at b j in
    let! num := ld_dentry_num dentry in
    if num =? 0 then
      let! r := fill_dentry e parent dentry mode name in ret (Some r)
    else ret None).

(** [wfs_mknod] and [wfs_mkdir] differ only in the file-type bit they set. *)
Definition create (e : env) (path : list byte) (mode : Z) : ST state Z :=
  let! tmp_path := strcpy_buf 50 path in
  let! (parent_num, inode_num) := find_inode_number_by_path tmp_path in
  if negb (inode_num =? -1) then ret (- EEXIST) else
  let! name := last_component path in
  let! parent := inode_ptr parent_num in
  let! name := of_opt name in
  let! r := for_range 0 (D_BLOCK + 1) (create_in_block e parent mode name) in
  ret (default (- ENOSPC) r).

Definition wfs_mknod (e : env) (path : list byte) (mode : Z) : ST state Z :=
  create e path (Z.lor mode S_IFREG).
Definition wfs_mkdir (e : env) (path : list byte) (mode : Z) : ST state Z :=
  create e path (Z.lor mode S_IFDIR).

(** * Removing files and directories *)

(** The loop over the parent's blocks that clears the entry of [name]. *)
Definition remove_dentry (parent : Z) (name : list byte) : ST state unit :=
  do! for_range 0 (D_BLOCK + 1) (λ i,
    let! b := ld_block parent i in
    if b =? 0 then ret None else
    let! j := find_dentry b name in
    if -1 <? j then
      let! b := ld_block parent i in
      let! loc := gets dentry_loc in
      do! store_bytes (dentry_at b loc) (replicate 32 x00) in
      ret (Some tt)
    else ret None) in
  ret tt.

Definition dec_nlinks (p : Z) : ST state Z :=
  let! nl := load_sint 4 (ino_nlinks p) in
  do! store_int 4 (ino_nlinks p) (nl - 1) in
  load_sint 4 (ino_nlinks p).

(** Clear the bitmap bit of the data block at [a] and zero the block. *)
Definition free_data_block (a : Z) : ST state unit :=
  let! dbp := ld_d_blocks_ptr in
  let! dbm := ld_d_bitmap_ptr in
  do! flip_bit_in_bitmap dbm (i32 ((a - dbp) ÷ BLOCK_SIZE)) in
  store_bytes a (replicate 512 x00).

(** One turn of the loop of [wfs_unlink] that frees the blocks of the file. *)
Definition unlink_block (inode i : Z) : ST state unit :=
  let! a := ld_block inode i in
  let! data_block_addr :=
    (if D_BLOCK <? i then
       let! ind := ld_block inode IND_BLOCK in
       if ind =? 0 then ret None
       else let! x := load_sint 4 (ind + (i - IND_BLOCK) * sizeof_int) in ret (Some x)
     else ret (Some (i32 a))) in
  match data_block_addr with
  | None => ret tt
  | Some x => if x =? 0 then ret tt else free_data_block x
  end.

Definition unlink_blocks (inode : Z) : ST state unit :=
  let! size0 := load_sint 8 (ino_size inode) in
  loop (Z.to_nat (size0 ÷ BLOCK_SIZE) + 2)
    (λ i,
      let! size := load_sint 8 (ino_size inode) in
      if i <=? size ÷ BLOCK_SIZE then do! unlink_block inode i in ret (inl (i + 1))
      else ret (inr tt)) 0.

(** Clear the inode's bit and zero its block. *)
Definition free_inode (inode inode_num : Z) : ST state unit :=
  let! ibm := ld_i_bitmap_ptr in
  do! flip_bit_in_bitmap ibm inode_num in
  store_bytes inode (replicate 512 x00).

Definition wfs_unlink (e : env) (path : list byte) : ST state Z :=
  let! tmp_path := strcpy_buf 50 path in
  let! (parent_num, inode_num) := find_inode_number_by_path tmp_path in
  if inode_num =? -1 then ret (- EEXIST) else
  let! parent := inode_ptr parent_num in
  let! name := last_component path in
  let! name := of_opt name in
  do! remove_dentry parent name in
  do! dec_nlinks parent in
  do! update_inode_times e parent true in
  let! inode := inode_ptr inode_num in
  let! nlinks := dec_nlinks inode in
  if 0 <? nlinks then ret 0 else
  do! unlink_blocks inode in
  do! free_inode inode inode_num in
  ret 0.

(** The emptiness check of [wfs_rmdir], which frees the blocks as it goes. *)
Definition rmdir_block (inode i : Z) : ST state (option Z) :=
  let! b := ld_block inode i in
  if b =? 0 then ret None else
  let! r := for_range 0 DENTRIES_PER_BLOCK (λ j,
    let! b := ld_block inode i in
    let! num := ld_dentry_num (dentry_at b j) in
    if 0 <? num then ret (Some (- ENOTEMPTY)) else ret None) in
  match r with
  | Some x => ret (Some x)
  | None =>
      let! b := ld_block inode i in
      do! free_data_block b in
      ret None
  end.

Definition wfs_rmdir (e : env) (path : list byte) : ST state Z :=
  let! tmp_path := strcpy_buf 50 path in
  let! (parent_num, inode_num) := find_inode_number_by_path tmp_path in
  if inode_num =? -1 then ret (- EEXIST) else
  let! name := last_component path in
  let! inode := inode_ptr inode_num in
  let! r := for_range 0 (D_BLOCK + 1) (rmdir_block inode) in
  match r with
  | Some x => ret x
  | None =>
      let! parent := inode_ptr parent_num in
      let! name := of_opt name in
      do! remove_dentry parent name in
      do! dec_nlinks parent in
      do! update_inode_times e parent true in
      do! free_inode inode inode_num in
      ret 0
  end.

(** * readdir *)

(** A [char] array read as a C string; [None] when no NUL ends it. *)
Fixpoint until_nul (s : list byte) : option (list byte) :=
  match s with
  | [] => None
  | c :: s' => if bool_decide (c = x00) then Some [] else cons c <$> until_nul s'
  end.

(** One entry of a directory block: the name that [filler] gets, if the entry is
    in use.  The name runs to the first NUL of the local copy of the entry. *)
Definition readdir_dentry (b j : Z) : ST state (list (list byte)) :=
  let! bs := load_bytes (dentry_at b j) 32 in
  if 0 <? s_field bs 28 4 then let! n := of_opt (until_nul bs) in ret [n] else ret [].

Definition readdir_block (b : Z) : ST state (list (list byte)) :=
  if b =? 0 then ret []
  else collect (readdir_dentry b) (seqZ 0 DENTRIES_PER_BLOCK).

(** [int wfs_readdir(...)]: the result and the names passed to [filler], whose
    own result is ignored. *)
Definition wfs_readdir (path : list byte) : ST state (Z * list (list byte)) :=
  let! tmp_path := strcpy_buf 30 path in
  let! (_, inode_num) := find_inode_number_by_path tmp_path in
  let! p := inode_ptr inode_num in
  let! inode := ld_inode p in
  let! names := collect readdir_block (take 7 (i_blocks inode)) in
  ret (0, ["."%byte] :: ["."%byte; "."%byte] :: names).

End WfsOps.
