(* ===== verification/WfsInv.v ===== *)
(** WfsInv: the disk layout that mkfs establishes and that every theorem about
    the operations assumes, and what taking a data block does to it. *)
From S2P Require Import Prelude Memory CLib WfsLayout WfsBitmap WfsPath WfsOps.
Local Open Scope Z_scope.

Module WfsInv.
Import Wfs WfsBitmap WfsPath WfsOps.

(** * Inodes in memory *)

Lemma u_field_mread m p len off n :
  (off + n ≤ len)%nat → u_field (mread m p len) off n = uint_at m (p + Z.of_nat off) n.
Proof. intros. unfold u_field, uint_at. rewrite drop_mread, take_mread by lia. done. Qed.

Lemma s_field_mread m p len off n :
  (off + n ≤ len)%nat → s_field (mread m p len) off n = sint_at m (p + Z.of_nat off) n.
Proof. intros. unfold s_field, sint_at. by rewrite u_field_mread. Qed.

(** The inode at [p], field by field. *)
Definition inode_at (m : mem) (p : Z) : wfs_inode := {|
  i_num := sint_at m p 4; i_mode := uint_at m (p + 4) 4; i_uid := uint_at m (p + 8) 4;
  i_gid := uint_at m (p + 12) 4; i_size := sint_at m (ino_size p) 8;
  i_nlinks := sint_at m (ino_nlinks p) 4; i_atim := sint_at m (ino_atim p) 8;
  i_mtim := sint_at m (ino_mtim p) 8; i_ctim := sint_at m (ino_ctim p) 8;
  i_blocks := block_at m p <$> seqZ 0 N_BLOCKS |}.

Lemma inode_of_mread m p : inode_of_bytes (mread m p 120) = inode_at m p.
Proof.
  unfold inode_of_bytes, inode_at, ino_size, ino_nlinks, ino_atim, ino_mtim, ino_ctim.
  rewrite !s_field_mread, !u_field_mread by lia. cbn [Z.of_nat Pos.of_succ_nat Pos.succ].
  rewrite Z.add_0_r. f_equal.
  change (seqZ 0 N_BLOCKS) with (Z.of_nat <$> seq 0 8). rewrite <- list_fmap_compose.
  apply list_fmap_ext. intros i x Hx. apply lookup_seq in Hx as [-> Hi]. cbn [compose].
  rewrite s_field_mread by lia. unfold block_at, ino_block. f_equal. lia.
Qed.

Lemma ld_inode_ok m dl p :
  in_range m p sizeof_inode = true → ld_inode p (State m dl) = Ok (inode_at m p) (State m dl).
Proof.
  intros Hr. unfold ld_inode. erewrite bind_ok by by apply load_bytes_ok.
  unfold ret. by rewrite inode_of_mread.
Qed.

(** An image for [32 * ki] inodes and [32 * kb] data blocks. *)
Section Layout.
Context (ki kb : Z).

Definition ibm_of : Z := 48.
Definition dbm_of : Z := 48 + 4 * ki.
Definition ibp_of : Z := dbm_of + 4 * kb.
Definition dbp_of : Z := ibp_of + 16384 * ki.
Definition size_of : Z := dbp_of + 16384 * kb.

(** Neither table reaches 2 GiB: block numbers times [BLOCK_SIZE] fit in [int]. *)
Definition fits : Prop := 0 < ki ∧ 0 < kb ∧ 16384 * ki < 2 ^ 31 ∧ 16384 * kb < 2 ^ 31.

Record layout (m : mem) : Prop := {
  ly_fits : fits;
  ly_sb : sb_of m = Sb (32 * ki) (32 * kb) ibm_of dbm_of ibp_of dbp_of;
  ly_size : msize m = size_of
}.

Lemma sb_of_mwrite m off bs : sizeof_sb ≤ off → sb_of (mwrite m off bs) = sb_of m.
Proof.
  unfold sizeof_sb. intros. unfold sb_of.
  by rewrite !uint_at_mwrite_ne, !sint_at_mwrite_ne by (cbn; lia).
Qed.

Lemma layout_mwrite m off bs : sizeof_sb ≤ off → layout m → layout (mwrite m off bs).
Proof. intros ? []. split; [done|by rewrite sb_of_mwrite|done]. Qed.

Lemma layout_mstore m off n z : sizeof_sb ≤ off → layout m → layout (mstore m off n z).
Proof. apply layout_mwrite. Qed.

Lemma layout_flip m addr n : sizeof_sb ≤ word_of addr n → layout m → layout (flip_mem m addr n).
Proof. apply layout_mstore. Qed.

(** What the loads of the superblock fields give. *)
Section Loads.
Context (m : mem) (dl : Z) (Hly : layout m).

Lemma layout_range off n : 0 ≤ off → 0 ≤ n → off + n ≤ 48 → in_range m off n = true.
Proof.
  intros. apply in_range_iff. destruct Hly as [(? & ? & _) _ ->].
  unfold size_of, dbp_of, ibp_of, dbm_of. lia.
Qed.

Lemma layout_field (f : wfs_sb → Z) (ld : ST state Z) :
  ld (State m dl) = Ok (f (sb_of m)) (State m dl) →
  ld (State m dl) = Ok (f (Sb (32 * ki) (32 * kb) ibm_of dbm_of ibp_of dbp_of)) (State m dl).
Proof. by rewrite (ly_sb m Hly). Qed.

Ltac ld_field f :=
  apply (layout_field f); unfold ld_num_inodes, ld_num_data_blocks, ld_i_bitmap_ptr,
    ld_d_bitmap_ptr, ld_i_blocks_ptr, ld_d_blocks_ptr, load_sint, load_uint, load_bytes, bind, ret;
  cbn [the_mem state_mem disk]; rewrite layout_range by (cbn; lia); reflexivity.

Lemma ld_num_inodes_ok : ld_num_inodes (State m dl) = Ok (32 * ki) (State m dl).
Proof. ld_field num_inodes. Qed.
Lemma ld_num_data_blocks_ok : ld_num_data_blocks (State m dl) = Ok (32 * kb) (State m dl).
Proof. ld_field num_data_blocks. Qed.
Lemma ld_i_bitmap_ptr_ok : ld_i_bitmap_ptr (State m dl) = Ok ibm_of (State m dl).
Proof. ld_field i_bitmap_ptr. Qed.
Lemma ld_d_bitmap_ptr_ok : ld_d_bitmap_ptr (State m dl) = Ok dbm_of (State m dl).
Proof. ld_field d_bitmap_ptr. Qed.
Lemma ld_i_blocks_ptr_ok : ld_i_blocks_ptr (State m dl) = Ok ibp_of (State m dl).
Proof. ld_field i_blocks_ptr. Qed.
Lemma ld_d_blocks_ptr_ok : ld_d_blocks_ptr (State m dl) = Ok dbp_of (State m dl).
Proof. ld_field d_blocks_ptr. Qed.

Lemma inode_addr_layout num : inode_addr m num = ibp_of + num * 512.
Proof. unfold inode_addr. by rewrite (ly_sb m Hly). Qed.
End Loads.

(** * Data blocks *)

Definition data_block (j : Z) : Z := dbp_of + j * 512.

(** The pointer [a] designates the allocated data block [j]. *)
Definition allocated (m : mem) (a j : Z) : Prop :=
  a = data_block j ∧ 0 ≤ j < 32 * kb ∧ bit_at m dbm_of j = true.

(** [slot] is a pointer cell in an inode or in a data block. *)
Definition is_slot (slot : Z) : Prop := ibp_of ≤ slot ∧ slot + 8 ≤ size_of.

Lemma word_of_range addr n k : 0 ≤ n < 32 * k → addr ≤ word_of addr n ∧ word_of addr n + 4 ≤ addr + 4 * k.
Proof.
  intros. unfold word_of. pose proof (Z.div_pos n 32). pose proof (Z.div_lt_upper_bound n 32 k). lia.
Qed.

Lemma bit_at_mwrite_ne m off bs addr n :
  (word_of addr n + 4 ≤ off ∨ off + Z.of_nat (length bs) ≤ word_of addr n) →
  bit_at (mwrite m off bs) addr n = bit_at m addr n.
Proof. unfold word_of. intros. unfold bit_at. by rewrite uint_at_mwrite_ne. Qed.

(** The image after block [j] has been taken and stored in [slot]. *)
Definition assigned (m : mem) (slot j : Z) : mem :=
  flip_mem (mstore m slot 8 (data_block j)) dbm_of j.

(** Blocks are taken first-fit. *)
Definition free_block_num (m : mem) : option Z :=
  first_in (λ n, negb (bit_at m dbm_of n)) 0 (32 * kb).

Lemma assign_block_eq m dl slot :
  layout m → is_slot slot →
  assign_block slot (State m dl) =
  match free_block_num m with
  | None => Ok false (State m dl)
  | Some j => Ok true (State (assigned m slot j) dl)
  end.
Proof.
  intros Hly [Hs1 Hs2]. pose proof Hly as [(Hki & Hkb & Hbi & Hbb) Hsb Hsz].
  assert (i32 (32 * kb) = 32 * kb) as Hi by (apply i32_small; lia).
  assert ((32 * kb) ÷ 32 = kb) as Hq by (rewrite Z.mul_comm; apply Z.quot_mul; lia).
  assert (allocate_block dbm_of (32 * kb) (State m dl) =
          Ok (first_free m dbm_of (32 * kb)) (State m dl)) as Ha.
  { pose proof (wp_allocate_block m dl dbm_of (32 * kb)) as H.
    rewrite Hq in H. apply wp_ok in H as (r & s' & -> & -> & ->); [done|lia|].
    apply in_range_iff. rewrite Hsz. unfold size_of, dbp_of, ibp_of, dbm_of. lia. }
  unfold assign_block. rewrite (bind_ok _ _ _ _ _ (ld_d_bitmap_ptr_ok m dl Hly)).
  rewrite (bind_ok _ _ _ _ _ (ld_num_data_blocks_ok m dl Hly)), Hi, (bind_ok _ _ _ _ _ Ha).
  clear Ha. unfold first_free, free_block_num.
  pose proof (first_in_spec (λ n, negb (bit_at m dbm_of n)) 0 (32 * kb)) as Hf.
  destruct (first_in _ 0 (32 * kb)) as [j|]; cbn [default from_option id].
  - destruct Hf as (Hj & Hb & _). apply negb_true_iff in Hb.
    destruct (Z.eqb_spec j (-1)); [lia|].
    rewrite (bind_ok _ _ _ _ _ (ld_d_blocks_ptr_ok m dl Hly)).
    assert (chk_i32 (j * BLOCK_SIZE) (State m dl) = Ok (j * 512) (State m dl)) as Hc.
    { unfold chk_i32, BLOCK_SIZE. rewrite (proj2 (Z.leb_le _ _)), (proj2 (Z.ltb_lt _ _)) by lia. done. }
    rewrite (bind_ok _ _ _ _ _ Hc).
    set (m1 := mstore m slot 8 (data_block j)).
    assert (store_int 8 slot (dbp_of + j * 512) (State m dl) = Ok tt (State m1 dl)) as Hst.
    { unfold store_int, store_bytes. rewrite length_le_encode. cbn [the_mem state_mem disk].
      assert (in_range m slot (Z.of_nat 8) = true) as ->; [|done].
      apply in_range_iff. rewrite Hsz. unfold ibp_of, dbm_of in *. cbn. lia. }
    rewrite (bind_ok _ _ _ _ _ Hst).
    assert (layout m1) as Hly1.
    { apply layout_mstore; [|done]. unfold ibp_of, dbm_of, sizeof_sb in *. lia. }
    rewrite (bind_ok _ _ _ _ _ (ld_d_bitmap_ptr_ok m1 dl Hly1)).
    pose proof (word_of_range dbm_of j kb Hj).
    rewrite (bind_ok _ _ _ (0) (State (assigned m slot j) dl)); [done|].
    apply flip_bit_ok; [lia|]. apply in_range_iff. rewrite (ly_size m1 Hly1).
    unfold size_of, dbp_of, ibp_of, dbm_of in *. lia.
  - done.
Qed.

Lemma free_block_num_spec m j :
  free_block_num m = Some j → 0 ≤ j < 32 * kb ∧ bit_at m dbm_of j = false.
Proof.
  unfold free_block_num. intros E.
  pose proof (first_in_spec (λ n, negb (bit_at m dbm_of n)) 0 (32 * kb)) as Hf.
  rewrite E in Hf. destruct Hf as (? & Hb%negb_true_iff & _). done.
Qed.

Lemma free_block_num_none m :
  free_block_num m = None → ∀ j, 0 ≤ j < 32 * kb → bit_at m dbm_of j = true.
Proof.
  unfold free_block_num. intros E j Hj.
  pose proof (first_in_spec (λ n, negb (bit_at m dbm_of n)) 0 (32 * kb)) as Hf.
  rewrite E in Hf. by apply negb_false_iff, Hf.
Qed.

Lemma assign_block_ok m dl slot :
  layout m → is_slot slot →
  (assign_block slot (State m dl) = Ok false (State m dl) ∧
   (∀ j, 0 ≤ j < 32 * kb → bit_at m dbm_of j = true)) ∨
  (∃ j, 0 ≤ j < 32 * kb ∧ bit_at m dbm_of j = false ∧
        assign_block slot (State m dl) = Ok true (State (assigned m slot j) dl)).
Proof.
  intros Hly Hs. rewrite assign_block_eq by done. destruct (free_block_num m) as [j|] eqn:E.
  - apply free_block_num_spec in E as [? ?]. right. by exists j.
  - left. split; [done|]. by apply free_block_num_none.
Qed.

End Layout.
End WfsInv.
