(* ===== verification/WfsIO.v ===== *)
(** WfsIO: [wfs_read] and [wfs_write] of p7/wfs.c: block-by-block transfers
    through the direct pointers and the indirect pointer block. *)
From S2P Require Import Prelude Memory WfsLayout WfsBitmap WfsPath WfsOps.
Local Open Scope Z_scope.

Module WfsIO.
Import Wfs WfsBitmap WfsPath WfsOps.

Definition MIN (a b : Z) : Z := if a <? b then a else b.

(** [memcpy] of [n] bytes out of the image ([n] is converted to [size_t]: a
    negative count is out of any range). *)
Definition memcpy_out (addr n : Z) : ST state (list byte) :=
  if n <? 0 then fault else load_bytes addr (Z.to_nat n).

(** * wfs_read *)

(** The address of data block [block_num] of the inode at [p], through the
    direct or the indirect pointers. *)
Definition data_block_of (p block_num : Z) : ST state Z :=
  if IND_BLOCK <=? block_num then
    let! ind := ld_block p IND_BLOCK in
    load_sint 8 (ind + (block_num - IND_BLOCK) * sizeof_off_t)
  else ld_block p block_num.

(** The loop variables of [wfs_read]; [r_buf] is what [buf] holds so far. *)
Record rstate := RState { r_block_num : Z; r_block_offset : Z; r_bytes_read : Z; r_bytes_left : Z; r_buf : list byte }.

Definition read_step (p : Z) (l : rstate) : ST state (rstate + (Z * list byte)) :=
  if 0 <? r_bytes_left l then
    let bytes_to_read := i32 (MIN (u64 (BLOCK_SIZE - r_block_offset l)) (r_bytes_left l)) in
    let! this_data_block := data_block_of p (r_block_num l) in
    let! data := memcpy_out (this_data_block + r_block_offset l) bytes_to_read in
    ret (inl {| r_block_num := i32 (r_block_num l + 1);
                r_block_offset := 0;
                r_bytes_read := i32 (r_bytes_read l + bytes_to_read);
                r_bytes_left := u64 (r_bytes_left l - bytes_to_read);
                r_buf := r_buf l ++ data |})
  else ret (inr (r_bytes_read l, r_buf l)).

(** [wfs_read] once the inode is found: the result and the bytes put in
    [buf]. *)
Definition read_inode (e : env) (this_inode size offset : Z) : ST state (Z * list byte) :=
  let! isize := load_sint 8 (ino_size this_inode) in
  let effective_file_size := if isize <=? offset then 0 else u64 (isize - offset) in
  let bytes_left := MIN size effective_file_size in
  let! r := loop (Z.to_nat (bytes_left / BLOCK_SIZE) + 3) (read_step this_inode)
    {| r_block_num := i32 (offset ÷ BLOCK_SIZE); r_block_offset := i32 (Z.rem offset BLOCK_SIZE);
       r_bytes_read := 0; r_bytes_left := bytes_left; r_buf := [] |} in
  do! update_inode_times e this_inode false in
  ret r.

(** [int wfs_read(path, buf, size, offset, fi)] *)
Definition wfs_read (e : env) (path : list byte) (size offset : Z) : ST state (Z * list byte) :=
  let! tmp_path := strcpy_buf 50 path in
  let! (_, inode_num) := find_inode_number_by_path tmp_path in
  if inode_num =? -1 then ret (- EEXIST, []) else
  let! this_inode := inode_ptr inode_num in
  read_inode e this_inode size offset.

(** * wfs_write *)

(** The loop variables of [wfs_write]. *)
Record wstate := WState { w_size : Z; w_block_index : Z; w_block_offset : Z; w_bytes_written : Z }.

(** [if (inode->size < file_end_offset) inode->size = file_end_offset]; the
    comparison converts both sides to [size_t]. *)
Definition grow_size (p offset bytes_written : Z) : ST state unit :=
  let file_end_offset := u64 (offset + bytes_written) in
  let! isize := load_sint 8 (ino_size p) in
  if u64 isize <? file_end_offset then store_int 8 (ino_size p) file_end_offset else ret tt.

(** The exit taken when no block is free; [touch] is whether the times are
    updated when something was written. *)
Definition no_space (e : env) (p offset bytes_written : Z) (touch : bool) : ST state Z :=
  if 0 <? bytes_written then
    do! grow_size p offset bytes_written in
    do! (if touch then let! _ := update_inode_times e p true in ret tt else ret tt) in
    ret bytes_written
  else
    do! update_inode_times e p false in
    ret (- ENOSPC).

(** Copy the next part of [buf] to the block at [addr]. *)
Definition write_chunk (addr : Z) (buf : list byte) (l : wstate) (step : Z) : ST state wstate :=
  let space_in_block := u64 (BLOCK_SIZE - w_block_offset l) in
  let bytes_to_write := MIN (w_size l) space_in_block in
  let chunk := take (Z.to_nat bytes_to_write) (drop (Z.to_nat (w_bytes_written l)) buf) in
  if negb (Z.of_nat (length chunk) =? bytes_to_write) then fault else
  do! store_bytes (addr + w_block_offset l) chunk in
  ret {| w_size := u64 (w_size l - bytes_to_write);
         w_block_index := u64 (w_block_index l + step);
         w_block_offset := 0;
         w_bytes_written := i32 (w_bytes_written l + bytes_to_write) |}.

(** One turn of the [while] loop over the direct blocks. *)
Definition direct_step (e : env) (p offset : Z) (buf : list byte) (l : wstate) :
    ST state (wstate + (Z + wstate)) :=
  if (0 <? w_size l) && (w_block_index l <? IND_BLOCK) then
    let slot := ino_block p (w_block_index l) in
    let! b := load_sint 8 slot in
    let! ok := (if b =? 0 then assign_block slot else ret true) in
    if negb ok then let! r := no_space e p offset (w_bytes_written l) true in ret (inr (inl r)) else
    let! block_physical_addr := load_sint 8 slot in
    let! l' := write_chunk block_physical_addr buf l 1 in
    ret (inl l')
  else ret (inr (inr l)).

(** One turn of the [for] loop over the indirect blocks: [block_index] is
    incremented in the body and again by the [for]. *)
Definition indirect_step (e : env) (p offset : Z) (buf : list byte) (l : wstate) :
    ST state (wstate + (Z + wstate)) :=
  if (0 <? w_size l) && (w_block_index l <? BLOCK_SIZE / sizeof_off_t) then
    let! ind := ld_block p IND_BLOCK in
    let slot := ind + w_block_index l * sizeof_off_t in
    let! b := load_sint 8 slot in
    let! ok := (if b =? 0 then assign_block slot else ret true) in
    if negb ok then let! r := no_space e p offset (w_bytes_written l) false in ret (inr (inl r)) else
    let! block_physical_addr := load_sint 8 slot in
    let! l' := write_chunk block_physical_addr buf l 2 in
    ret (inl l')
  else ret (inr (inr l)).

(** The part of [wfs_write] under [if (size > 0)]: the indirect blocks. *)
Definition write_indirect (e : env) (p offset : Z) (buf : list byte) (l : wstate) : ST state (Z + wstate) :=
  if negb (0 <? w_size l) then ret (inr l) else
  let! ind := ld_block p IND_BLOCK in
  let! ok := (if ind =? 0 then assign_block (ino_block p IND_BLOCK) else ret true) in
  if negb ok then let! r := no_space e p offset (w_bytes_written l) true in ret (inl r) else
  loop 66 (indirect_step e p offset buf)
    {| w_size := w_size l; w_block_index := u64 (w_block_index l - IND_BLOCK);
       w_block_offset := w_block_offset l; w_bytes_written := w_bytes_written l |}.

(** The end of [wfs_write], after the two loops. *)
Definition write_finish (e : env) (p offset : Z) (l : wstate) : ST state Z :=
  if 0 <? w_size l then
    if 0 <? w_bytes_written l then
      do! grow_size p offset (w_bytes_written l) in
      do! update_inode_times e p true in
      ret (w_bytes_written l)
    else ret (- ENOSPC)
  else
    do! grow_size p offset (w_bytes_written l) in
    do! update_inode_times e p true in
    ret (w_bytes_written l).

(** [wfs_write] once the inode is found. *)
Definition write_inode (e : env) (inode : Z) (buf : list byte) (size offset : Z) : ST state Z :=
  let! r := loop 9 (direct_step e inode offset buf)
    {| w_size := size; w_block_index := u64 (offset ÷ BLOCK_SIZE);
       w_block_offset := i32 (Z.rem offset BLOCK_SIZE); w_bytes_written := 0 |} in
  match r with
  | inl res => ret res
  | inr l =>
      let! r := write_indirect e inode offset buf l in
      match r with
      | inl res => ret res
      | inr l => write_finish e inode offset l
      end
  end.

(** [int wfs_write(path, buf, size, offset, fi)] *)
Definition wfs_write (e : env) (path : list byte) (buf : list byte) (size offset : Z) : ST state Z :=
  let! tmp_path := strcpy_buf 50 path in
  let! (_, inode_num) := find_inode_number_by_path tmp_path in
  if inode_num =? -1 then ret (- ENOENT) else
  let! inode := inode_ptr inode_num in
  write_inode e inode buf size offset.

End WfsIO.
