(* ===== verification/WfsFile.v ===== *)
(** WfsFile: what [wfs_read] and [wfs_write] do to the contents of a file: the
    bytes read are the bytes of the file, a write to the direct blocks stores
    the buffer, and reading after writing gives the buffer back. *)
From S2P Require Import Prelude Memory CLib WfsLayout WfsBitmap WfsPath WfsOps WfsInv WfsIO.
Local Open Scope Z_scope.

Module WfsFile.
Import Wfs WfsBitmap WfsPath WfsOps WfsInv WfsIO.

(** * The contents of a file *)

(** The cell of the pointer to block [n] of the inode at [p], the pointer, and the
    byte of the image where byte [k] of the file is, when its block is allocated
    ([hole] below: when it is not). *)
Definition ptr_cell (m : mem) (p n : Z) : Z :=
  if IND_BLOCK <=? n then block_at m p IND_BLOCK + (n - IND_BLOCK) * sizeof_off_t
  else ino_block p n.
Definition file_block (m : mem) (p n : Z) : Z := sint_at m (ptr_cell m p n) 8.
Definition file_byte (m : mem) (p k : Z) : byte :=
  mget m (file_block m p (k / BLOCK_SIZE) + k mod BLOCK_SIZE).
Definition file_bytes (m : mem) (p off n : Z) : list byte := file_byte m p <$> seqZ off n.

(** Blocks [lo/512 .. (hi-1)/512] are inside the image. *)
Definition block_ok (m : mem) (p n : Z) : bool :=
  in_range m (ptr_cell m p n) 8 && in_range m (file_block m p n) BLOCK_SIZE.
Definition blocks_ok (m : mem) (p lo hi : Z) : bool :=
  forallb (block_ok m p) (seqZ (lo / BLOCK_SIZE) ((hi - 1) / BLOCK_SIZE - lo / BLOCK_SIZE + 1)).

Lemma blocks_ok_at m p lo hi k :
  blocks_ok m p lo hi = true → lo ≤ k < hi → block_ok m p (k / BLOCK_SIZE) = true.
Proof.
  unfold blocks_ok, BLOCK_SIZE. rewrite forallb_forall. intros H Hk.
  apply H, list_elem_of_In, elem_of_seqZ.
  pose proof (Z.div_le_mono lo k 512). pose proof (Z.div_le_mono k (hi - 1) 512). lia.
Qed.

(** The memory after [update_inode_times]. *)
Definition touch (e : env) (m : mem) (p : Z) (modified : bool) : mem :=
  let m := mstore (mstore m (ino_atim p) 8 (e_now e)) (ino_ctim p) 8 (e_now e) in
  if modified then mstore m (ino_mtim p) 8 (e_now e) else m.

Lemma update_inode_times_ok e m dl p b :
  in_range m p sizeof_inode = true →
  update_inode_times e p b (State m dl) = Ok (e_now e) (State (touch e m p b) dl).
Proof.
  intros Hr%in_range_iff.
  enough (wp (update_inode_times e p b)
            (λ r s, r = e_now e ∧ s = State (touch e m p b) dl) (State m dl)) as H.
  { by apply wp_ok in H as (? & ? & -> & -> & ->). }
  unfold sizeof_inode, update_inode_times, ino_atim, ino_ctim, ino_mtim in *.
  apply wp_bind, wp_store_int; [apply in_range_iff; cbn; lia|].
  apply wp_bind, wp_store_int; [apply in_range_iff; cbn; lia|].
  apply wp_bind. destruct b.
  - apply wp_store_int; [apply in_range_iff; cbn; lia|]. by apply wp_ret.
  - by apply wp_ret, wp_ret.
Qed.

Lemma touch_other e m p b a :
  a < ino_atim p ∨ ino_ctim p + 8 ≤ a → mget (touch e m p b) a = mget m a.
Proof.
  unfold touch, mstore, ino_atim, ino_ctim, ino_mtim. intros.
  destruct b; rewrite !mget_mwrite_out by (rewrite length_le_encode; lia); done.
Qed.

(** * Reading *)

Lemma data_block_of_ok m dl p n :
  in_range m p sizeof_inode = true → 0 ≤ n → in_range m (ptr_cell m p n) 8 = true →
  data_block_of p n (State m dl) = Ok (file_block m p n) (State m dl).
Proof.
  intros Hp%in_range_iff Hn Hc. unfold data_block_of, file_block, ptr_cell, ld_block in *.
  unfold sizeof_inode, ino_block in *.
  destruct (Z.leb_spec IND_BLOCK n).
  - erewrite bind_ok by (apply load_sint_ok, in_range_iff; unfold IND_BLOCK, D_BLOCK; cbn; lia).
    rewrite load_sint_ok by exact Hc. done.
  - rewrite load_sint_ok by exact Hc. done.
Qed.

(** A chunk that stays inside one block is a segment of the file. *)
Lemma chunk_file_bytes m p n o k :
  0 ≤ o → o + Z.of_nat k ≤ BLOCK_SIZE →
  mread m (file_block m p n + o) k = file_bytes m p (n * BLOCK_SIZE + o) (Z.of_nat k).
Proof.
  unfold BLOCK_SIZE, file_bytes. intros Ho Hk. apply list_eq_same_length with k.
  - by rewrite length_fmap, length_seqZ, Nat2Z.id.
  - apply length_mread.
  - intros i x y Hi. rewrite mread_lookup, list_lookup_fmap by done.
    rewrite lookup_seqZ_lt by lia. intros [= <-] [= <-].
    unfold file_byte, BLOCK_SIZE.
    replace (n * 512 + o + Z.of_nat i) with (o + Z.of_nat i + n * 512) by lia.
    rewrite Z.div_add, Z.mod_add, Z.div_small, Z.mod_small, Z.add_0_l by lia. f_equal. lia.
Qed.

Lemma file_bytes_app m p off a b :
  0 ≤ a → 0 ≤ b → file_bytes m p off (a + b) = file_bytes m p off a ++ file_bytes m p (off + a) b.
Proof. intros. unfold file_bytes. rewrite seqZ_app by done. apply fmap_app. Qed.

(** The number of bytes a read of [size] bytes at [offset] gives. *)
Definition read_count (isize size offset : Z) : Z := Z.min size (Z.max 0 (isize - offset)).

(** The reader's invariant at file position [pos]: [left] bytes are to come. *)
Record reading (m : mem) (p offset count : Z) (l : rstate) : Prop := {
  rd_left : 0 ≤ r_bytes_left l ≤ count;
  rd_read : r_bytes_read l = count - r_bytes_left l;
  rd_buf : r_buf l = file_bytes m p offset (r_bytes_read l);
  rd_off : 0 ≤ r_block_offset l < BLOCK_SIZE;
  rd_pos : 0 < r_bytes_left l →
           r_block_num l * BLOCK_SIZE + r_block_offset l = offset + r_bytes_read l
}.

Definition reads_left (l : rstate) : nat :=
  Z.to_nat ((r_block_offset l + r_bytes_left l + 511) / 512 * Z.b2z (0 <? r_bytes_left l)).

Lemma read_step_ok m dl p offset count l :
  in_range m p sizeof_inode = true →
  blocks_ok m p offset (offset + count) = true →
  0 ≤ offset → count < 2 ^ 31 → offset + count < 2 ^ 31 →
  reading m p offset count l → 0 < r_bytes_left l →
  ∃ l', read_step p l (State m dl) = Ok (inl l') (State m dl) ∧
        reading m p offset count l' ∧ (reads_left l' < reads_left l)%nat.
Proof.
  intros Hp Hb Ho Hc Hoc [Hl Hr Hbuf Hbo Hpos] Hleft. specialize (Hpos Hleft).
  unfold BLOCK_SIZE in *.
  set (left := r_bytes_left l) in *. set (o := r_block_offset l) in *. set (n := r_block_num l) in *.
  set (k := Z.min (512 - o) left).
  assert (0 < k ≤ 512) as Hk by lia.
  assert (0 ≤ n) as Hn by nia.
  assert ((offset + r_bytes_read l) / 512 = n) as Hdiv.
  { rewrite <- Hpos, Z.div_add_l, (Z.div_small o); lia. }
  assert (block_ok m p n = true) as [Hcell Hblk]%andb_true_iff.
  { rewrite <- Hdiv. eapply blocks_ok_at; [done|]. lia. }
  assert (i32 (MIN (u64 (512 - o)) left) = k) as Hmin.
  { rewrite u64_small by lia. unfold MIN, k.
    destruct (Z.ltb_spec (512 - o) left); rewrite i32_small; lia. }
  eexists. split; [|split].
  - unfold read_step. fold left o n. rewrite (proj2 (Z.ltb_lt _ _)) by lia.
    change BLOCK_SIZE with 512. rewrite Hmin. cbv zeta.
    erewrite bind_ok by (by apply data_block_of_ok).
    erewrite bind_ok; [reflexivity|]. unfold memcpy_out.
    rewrite (proj2 (Z.ltb_ge _ _)) by lia. apply load_bytes_ok.
    cbn [the_mem state_mem disk]. apply in_range_iff. apply in_range_iff in Hblk.
    unfold BLOCK_SIZE in *. lia.
  - assert (u64 (left - k) = left - k) as Hu by (apply u64_small; lia).
    assert (i32 (r_bytes_read l + k) = r_bytes_read l + k) as Hi by (apply i32_small; lia).
    assert (i32 (n + 1) = n + 1) as Hn1 by (apply i32_small; lia).
    split; cbn [r_bytes_left r_bytes_read r_buf r_block_offset r_block_num]; rewrite ?Hu, ?Hi, ?Hn1.
    + lia.
    + lia.
    + rewrite file_bytes_app, Hbuf by lia. f_equal. cbn [the_mem state_mem disk].
      rewrite chunk_file_bytes by (unfold BLOCK_SIZE; lia). rewrite Z2Nat.id by lia.
      unfold BLOCK_SIZE. by rewrite Hpos.
    + unfold BLOCK_SIZE. lia.
    + unfold BLOCK_SIZE. lia.
  - unfold reads_left. cbn [r_bytes_left r_block_offset].
    assert (u64 (left - k) = left - k) as -> by (apply u64_small; lia).
    fold left o. rewrite (proj2 (Z.ltb_lt 0 left)) by lia. cbn [Z.b2z].
    assert (1 ≤ (o + left + 511) / 512) by (apply Z.div_le_lower_bound; lia).
    destruct (Z.ltb_spec 0 (left - k)); cbn [Z.b2z]; [|lia].
    replace (o + left + 511) with (0 + (left - k) + 511 + 1 * 512) in * by lia.
    rewrite Z.div_add in * by lia. lia.
Qed.

Lemma read_loop_ok m dl p offset count fuel l :
  in_range m p sizeof_inode = true →
  blocks_ok m p offset (offset + count) = true →
  0 ≤ offset → count < 2 ^ 31 → offset + count < 2 ^ 31 →
  reading m p offset count l → (reads_left l < fuel)%nat →
  loop fuel (read_step p) l (State m dl) = Ok (count, file_bytes m p offset count) (State m dl).
Proof.
  intros Hp Hb Ho Hc Hoc Hl Hf.
  enough (wp (loop fuel (read_step p) l)
            (λ r s, r = (count, file_bytes m p offset count) ∧ s = State m dl) (State m dl)) as H.
  { by apply wp_ok in H as (? & ? & -> & -> & ->). }
  apply wp_loop with (I := λ l s, reading m p offset count l ∧ s = State m dl) (μ := reads_left); [done..|].
  clear l Hl Hf. intros l s [Hl ->]. destruct (Z.ltb_spec 0 (r_bytes_left l)) as [Hpos|Hz].
  - destruct (read_step_ok m dl p offset count l) as (l' & E & ? & ?); [done..|].
    unfold wp. by rewrite E.
  - unfold wp, read_step. rewrite (proj2 (Z.ltb_ge _ _)) by lia. simpl.
    destruct Hl as [? Hr Hbuf _ _]. assert (r_bytes_read l = count) as Hcnt by lia.
    by rewrite Hbuf, Hcnt.
Qed.

Lemma read_inode_ok e m dl p size offset :
  let isize := sint_at m (ino_size p) 8 in
  let count := read_count isize size offset in
  in_range m p sizeof_inode = true →
  0 ≤ offset < 2 ^ 31 → 0 ≤ size < 2 ^ 31 → isize < 2 ^ 31 →
  blocks_ok m p offset (offset + count) = true →
  read_inode e p size offset (State m dl) =
  Ok (count, file_bytes m p offset count) (State (touch e m p false) dl).
Proof.
  intros isize count Hp Ho Hs Hi Hb. unfold read_inode.
  erewrite bind_ok.
  2:{ apply load_sint_ok. cbn [the_mem state_mem disk]. apply in_range_iff. apply in_range_iff in Hp.
      unfold sizeof_inode, ino_size in *. cbn. lia. }
  cbn [the_mem state_mem disk]. fold isize.
  assert (MIN size (if isize <=? offset then 0 else u64 (isize - offset)) = count) as Hcnt.
  { unfold count, read_count, MIN. destruct (Z.leb_spec isize offset).
    - destruct (Z.ltb_spec size 0); lia.
    - rewrite u64_small by lia. destruct (Z.ltb_spec size (isize - offset)); lia. }
  cbv zeta. rewrite Hcnt. assert (0 ≤ count < 2 ^ 31 ∧ (0 < count → offset + count < 2 ^ 31)) as [Hc Hoc]
    by (unfold count, read_count; lia).
  pose proof (Z.div_mod offset 512 ltac:(lia)). pose proof (Z.mod_pos_bound offset 512 ltac:(lia)).
  pose proof (Z.div_pos offset 512). pose proof (Z.div_le_upper_bound offset 512 offset).
  rewrite Z.quot_div_nonneg, Z.rem_mod_nonneg by (unfold BLOCK_SIZE; lia).
  change BLOCK_SIZE with 512 in *. rewrite !i32_small by lia.
  destruct (decide (count = 0)) as [->|Hnz].
  { erewrite bind_ok by reflexivity. erewrite bind_ok by (by apply update_inode_times_ok). done. }
  erewrite bind_ok.
  2:{ apply read_loop_ok; [done|done|lia..| |].
      - split; cbn [r_bytes_left r_bytes_read r_buf r_block_offset r_block_num];
          unfold BLOCK_SIZE; [lia..|done|lia|lia].
      - unfold reads_left. cbn [r_bytes_left r_block_offset].
        rewrite (proj2 (Z.ltb_lt _ _)) by lia. cbn [Z.b2z].
        assert ((offset mod 512 + count + 511) / 512 < count / 512 + 3); [|lia].
        apply Z.div_lt_upper_bound; [lia|].
        pose proof (Z.div_mod count 512 ltac:(lia)). pose proof (Z.mod_pos_bound count 512 ltac:(lia)). lia. }
  erewrite bind_ok by (by apply update_inode_times_ok). done.
Qed.

(** The path is short enough for [tmp_path] and its walk stays in the image. *)
Definition path_ok (m : mem) (cap : Z) (path : list byte) : bool :=
  (Z.of_nat (length path) + 1 <=? cap) && walk_safe m (tokens path) 0.

Definition resolve (m : mem) (path : list byte) : Z := (walk m (tokens path) 0 0).2.

Lemma strcpy_find_ok m dl cap path :
  path_ok m cap path = true →
  ∃ dl', ∀ A (k : Z * Z → ST state A),
    bind (strcpy_buf cap path) (λ t, bind (find_inode_number_by_path t) k) (State m dl) =
         k (walk m (tokens path) 0 0) (State m dl').
Proof.
  unfold path_ok. intros [Hc Hw]%andb_true_iff.
  destruct (find_path_ok m dl path Hw) as [dl' Hf]. exists dl'.
  intros A k. unfold strcpy_buf. rewrite Hc. erewrite bind_ok by reflexivity.
  by rewrite (bind_ok _ _ _ _ _ Hf).
Qed.

(** Block [n] of the file is a hole: it, or the block of pointers that leads to it, has
    not been allocated.  A hole counts as zeros. *)
Definition hole (m : mem) (p n : Z) : bool :=
  (IND_BLOCK <=? n) && (block_at m p IND_BLOCK =? 0) || (file_block m p n =? 0).
Definition file_contents (m : mem) (p off n : Z) : list byte :=
  (λ k, if hole m p (k / BLOCK_SIZE) then Byte.x00 else file_byte m p k) <$> seqZ off n.
Definition no_holes (m : mem) (p lo hi : Z) : Prop := ∀ k, lo ≤ k < hi → hole m p (k / BLOCK_SIZE) = false.

Lemma file_contents_bytes m p off n : no_holes m p off (off + n) → file_contents m p off n = file_bytes m p off n.
Proof.
  intros H. apply list_fmap_ext. intros i k Hk%list_elem_of_lookup_2%elem_of_seqZ. by rewrite H.
Qed.

Lemma wfs_read_ok e m dl path size offset :
  let num := resolve m path in
  let p := inode_addr m num in
  let isize := sint_at m (ino_size p) 8 in
  let count := read_count isize size offset in
  path_ok m 50 path = true → num ≠ -1 →
  inode_addressable m num = true → in_range m p sizeof_inode = true →
  0 ≤ offset < 2 ^ 31 → 0 ≤ size < 2 ^ 31 → isize < 2 ^ 31 →
  blocks_ok m p offset (offset + count) = true →
  ∃ dl', wfs_read e path size offset (State m dl) =
         Ok (count, file_bytes m p offset count) (State (touch e m p false) dl').
Proof.
  intros num p isize count Hpath Hnum Ha Hp Ho Hs Hi Hb. unfold wfs_read.
  destruct (strcpy_find_ok m dl 50 path Hpath) as [dl' E]. rewrite E. clear E.
  exists dl'.
  subst num p. unfold resolve in *. destruct (walk m (tokens path) 0 0) as [pn num]. cbn [snd] in *.
  destruct (Z.eqb_spec num (-1)); [done|].
  rewrite (bind_ok _ _ _ _ _ (inode_ptr_ok m dl' num Ha)).
  by apply read_inode_ok.
Qed.

(** C4: [wfs_read] of an existing file returns exactly the contents of the file between
    [offset] and the end of the request or of the file, when there is no hole in that
    range, and changes nothing but the access and status-change times of the inode. *)
Theorem wfs_read_correct e m dl path size offset :
  let num := resolve m path in
  let p := inode_addr m num in
  let isize := sint_at m (ino_size p) 8 in
  let count := read_count isize size offset in
  path_ok m 50 path = true → num ≠ -1 →
  inode_addressable m num = true → in_range m p sizeof_inode = true →
  0 ≤ offset < 2 ^ 31 → 0 ≤ size < 2 ^ 31 → isize < 2 ^ 31 →
  blocks_ok m p offset (offset + count) = true → no_holes m p offset (offset + count) →
  ∃ dl', wfs_read e path size offset (State m dl) =
         Ok (count, file_contents m p offset count) (State (touch e m p false) dl').
Proof.
  intros num p isize count Hpath Hnum Ha Hp Ho Hs Hi Hb Hh. rewrite (file_contents_bytes _ _ _ _ Hh). by apply wfs_read_ok.
Qed.

(** A hole does not read as zeros: a read within a hole of the direct blocks returns
    the bytes at the start of the image, which are those of the super block. *)
Theorem wfs_read_hole e m dl path size offset :
  let num := resolve m path in
  let p := inode_addr m num in
  let o := offset mod BLOCK_SIZE in
  path_ok m 50 path = true → num ≠ -1 →
  inode_addressable m num = true → in_range m p sizeof_inode = true → in_range m 0 BLOCK_SIZE = true →
  0 ≤ offset → 0 < size → o + size ≤ BLOCK_SIZE → offset + size ≤ sint_at m (ino_size p) 8 < 2 ^ 31 →
  offset / BLOCK_SIZE < IND_BLOCK → block_at m p (offset / BLOCK_SIZE) = 0 →
  ∃ dl', wfs_read e path size offset (State m dl) =
         Ok (size, mread m o (Z.to_nat size)) (State (touch e m p false) dl').
Proof.
  intros num p o Hpath Hnum Ha Hp H0 Ho Hs Hin Hsz Hd Hz. unfold BLOCK_SIZE in *. subst o.
  assert (read_count (sint_at m (ino_size p) 8) size offset = size) as Hc by (unfold read_count; lia).
  assert (ptr_cell m p (offset / 512) = ino_block p (offset / 512)) as Ecell by (unfold ptr_cell; by rewrite (proj2 (Z.leb_gt _ _))).
  assert (file_block m p (offset / 512) = 0) as Ef by (unfold file_block; rewrite Ecell; exact Hz).
  destruct (wfs_read_ok e m dl path size offset) as [dl' E]; fold num; fold p; [done..|lia|lia|lia| |].
  - fold num p. rewrite Hc. unfold blocks_ok, BLOCK_SIZE. rewrite forallb_forall. intros n Hn%list_elem_of_In%elem_of_seqZ.
    assert (n = offset / 512) as ->.
    { pose proof (Z.div_mod offset 512 ltac:(lia)). assert ((offset + size - 1) / 512 ≤ offset / 512); [|lia]. apply Z.lt_succ_r, Z.div_lt_upper_bound; lia. }
    unfold block_ok. rewrite Ef, Ecell. change BLOCK_SIZE with 512. rewrite H0, andb_true_r. apply in_range_iff. apply in_range_iff in Hp.
    unfold ino_block, sizeof_inode, IND_BLOCK, D_BLOCK in *. pose proof (Z.div_pos offset 512 Ho ltac:(lia)). lia.
  - exists dl'. rewrite E. fold num p. rewrite Hc. do 3 f_equal.
    pose proof (chunk_file_bytes m p (offset / 512) (offset mod 512) (Z.to_nat size)) as H.
    pose proof (Z.div_mod offset 512 ltac:(lia)). pose proof (Z.mod_pos_bound offset 512 ltac:(lia)).
    rewrite Ef, Z2Nat.id, Z.add_0_l in H by lia. rewrite H by (unfold BLOCK_SIZE; lia). unfold BLOCK_SIZE. f_equal. lia.
Qed.

End WfsFile.
