(* ===== verification/WfsWrite.v ===== *)
(** WfsWrite: [wfs_write] into the direct blocks of a file, with block
    allocation: what is stored, what is left alone, and what happens when the
    disk is full. *)
From S2P Require Import Prelude Memory CLib WfsLayout WfsBitmap WfsPath WfsOps WfsInv WfsIO WfsFile.
Local Open Scope Z_scope.

Module WfsWrite.
Import Wfs WfsBitmap WfsPath WfsOps WfsInv WfsIO WfsFile.

Section Write.
Context (ki kb : Z).

Abbreviation layout := (layout ki kb).
Abbreviation dbm := (dbm_of ki).
Abbreviation ibp := (ibp_of ki kb).
Abbreviation dbp := (dbp_of ki kb).
Abbreviation data_block := (data_block ki kb).
Abbreviation allocated := (allocated ki kb).
Abbreviation assigned := (assigned ki kb).

(** Inode [p] of a well-formed image: its direct pointers are null or designate
    distinct allocated data blocks. *)
Record direct_inv (m : mem) (p : Z) : Prop := {
  di_layout : layout m;
  di_inode : ibp ≤ p ∧ p + 512 ≤ dbp;
  di_ptr : ∀ i, 0 ≤ i < IND_BLOCK → block_at m p i = 0 ∨ ∃ j, allocated m (block_at m p i) j;
  di_distinct : ∀ i i', 0 ≤ i < IND_BLOCK → 0 ≤ i' < IND_BLOCK → i ≠ i' →
                block_at m p i ≠ 0 → block_at m p i ≠ block_at m p i'
}.

Section File.
Context (m0 : mem) (p offset : Z) (buf : list byte).

(** The image [m] after the first [n] bytes of [buf] went to position [offset]
    of the file of inode [p], starting from the image [m0]. *)
Record written (m : mem) (n : Z) : Prop := {
  wr_inv : direct_inv m p;
  wr_ptr : ∀ i, 0 ≤ i < IND_BLOCK → block_at m0 p i ≠ 0 → block_at m p i = block_at m0 p i;
  wr_new : ∀ i, 0 ≤ i < IND_BLOCK → block_at m0 p i = 0 →
           block_at m p i = 0 ∨ ∃ j, block_at m p i = data_block j ∧ bit_at m0 dbm j = false;
  wr_bits : ∀ j, 0 ≤ j < 32 * kb → bit_at m0 dbm j = true → bit_at m dbm j = true;
  wr_data : ∀ k, 0 ≤ k < n →
            block_at m p ((offset + k) / 512) ≠ 0 ∧ file_byte m p (offset + k) = nth (Z.to_nat k) buf x00;
  wr_rest : ∀ k, 0 ≤ k < 3584 → ¬ (offset ≤ k < offset + n) → block_at m0 p (k / 512) ≠ 0 →
            file_byte m p k = file_byte m0 p k;
  wr_other : ∀ j a, 0 ≤ j < 32 * kb → bit_at m0 dbm j = true →
             (∀ i, 0 ≤ i < IND_BLOCK → block_at m0 p i ≠ data_block j) →
             data_block j ≤ a < data_block j + 512 → mget m a = mget m0 a
}.

(** ** Regions of the image *)

Lemma layout_regions m : layout m →
  0 < ki ∧ 0 < kb ∧ 16384 * ki < 2 ^ 31 ∧ 16384 * kb < 2 ^ 31 ∧
  dbm = 48 + 4 * ki ∧ ibp = dbm + 4 * kb ∧ dbp = ibp + 16384 * ki ∧ msize m = dbp + 16384 * kb.
Proof. intros [(? & ? & ? & ?) _ ->]. unfold size_of, WfsInv.dbp_of, WfsInv.ibp_of, WfsInv.dbm_of. lia. Qed.

Lemma block_at_mwrite_ne m off bs i :
  off + Z.of_nat (length bs) ≤ ino_block p i ∨ ino_block p i + 8 ≤ off →
  block_at (mwrite m off bs) p i = block_at m p i.
Proof. intros. unfold block_at. apply sint_at_mwrite_ne. cbn. lia. Qed.

(** For direct blocks the pointer is the cell of the inode. *)
Lemma file_block_direct m i : 0 ≤ i < IND_BLOCK → file_block m p i = block_at m p i.
Proof.
  intros. unfold file_block, ptr_cell. by rewrite (proj2 (Z.leb_gt _ _)) by lia.
Qed.

Lemma direct_index k : 0 ≤ k < 3584 → 0 ≤ k / 512 < IND_BLOCK.
Proof.
  intros. unfold IND_BLOCK, D_BLOCK. split; [by apply Z.div_pos; lia|]. apply Z.div_lt_upper_bound; lia.
Qed.

Lemma file_byte_direct m k :
  0 ≤ k < 3584 → file_byte m p k = mget m (block_at m p (k / 512) + k mod 512).
Proof. intros. unfold file_byte. by rewrite file_block_direct by by apply direct_index. Qed.

Lemma data_block_range j : 0 ≤ j < 32 * kb → dbp ≤ data_block j ∧ data_block j + 512 ≤ dbp + 16384 * kb.
Proof. unfold WfsInv.data_block. lia. Qed.

Lemma data_block_inj j j' a :
  data_block j ≤ a < data_block j + 512 → data_block j' ≤ a < data_block j' + 512 → j = j'.
Proof. unfold WfsInv.data_block. lia. Qed.

Lemma data_block_eq j j' : data_block j = data_block j' → j = j'.
Proof. unfold WfsInv.data_block. lia. Qed.

Lemma written_0 : direct_inv m0 p → written m0 0.
Proof. intros. split; [done|done|by left|done|intros; lia|done|done]. Qed.

(** The block that holds file position [k], when there is one. *)
Lemma mapped_block m k :
  direct_inv m p → 0 ≤ k < 3584 → block_at m p (k / 512) ≠ 0 →
  ∃ j, allocated m (block_at m p (k / 512)) j.
Proof. intros Hi Hk Hnz. destruct (di_ptr _ _ Hi (k / 512)); [by apply direct_index|done|done]. Qed.

(** Changes outside the pointers, the block bitmap and the data area. *)
Lemma written_meta m m' n :
  written m n → 0 ≤ offset → offset + n ≤ 3584 → layout m' →
  (∀ i, 0 ≤ i < IND_BLOCK → block_at m' p i = block_at m p i) →
  (∀ j, 0 ≤ j < 32 * kb → bit_at m' dbm j = bit_at m dbm j) →
  (∀ a, dbp ≤ a < dbp + 16384 * kb → mget m' a = mget m a) →
  written m' n.
Proof.
  intros [Hi Hp Hn Hb Hd Hr Ho] H0 Hlen Hl' Hp' Hb' Hg'.
  assert (∀ k, 0 ≤ k < 3584 → block_at m p (k / 512) ≠ 0 → file_byte m' p k = file_byte m p k) as Hfb.
  { intros k Hk Hnz. rewrite !file_byte_direct, Hp' by (done || by apply direct_index).
    destruct (mapped_block m k Hi Hk Hnz) as (j & -> & Hj & _). apply Hg'.
    pose proof (data_block_range j Hj). pose proof (Z.mod_pos_bound k 512 ltac:(lia)). lia. }
  split.
  - destruct Hi as [_ ? Hptr Hdis]. split; [done|done| |].
    + intros i Hi'. rewrite Hp' by done. destruct (Hptr i Hi') as [?|(j & ? & ? & ?)]; [by left|right].
      exists j. split_and!; [done|lia|lia|]. by rewrite Hb'.
    + intros i i' ? ? ?. rewrite !Hp' by done. by apply Hdis.
  - intros i ? ?. rewrite Hp' by done. by apply Hp.
  - intros i ? ?. rewrite Hp' by done. by apply Hn.
  - intros j ? ?. rewrite Hb' by done. by apply Hb.
  - intros k Hk. destruct (Hd k Hk) as [Hnz <-]. assert (0 ≤ offset + k < 3584) by lia.
    rewrite Hp' by (by apply direct_index). split; [done|]. by apply Hfb.
  - intros k Hk Hout Hnz. rewrite <- (Hr k) by done. apply Hfb; [done|].
    rewrite Hp by (done || by apply direct_index). done.
  - intros j a Hj Hbj Hne Ha. rewrite <- (Ho j a) by done. apply Hg'.
    pose proof (data_block_range j Hj). lia.
Qed.

(** A store into the inode block that spares the direct pointers. *)
Lemma written_mwrite m off bs n :
  written m n → 0 ≤ offset → offset + n ≤ 3584 →
  p ≤ off → off + Z.of_nat (length bs) ≤ p + 56 →
  written (mwrite m off bs) n.
Proof.
  intros Hw ? ? ? ?. pose proof (di_layout _ _ (wr_inv _ _ Hw)) as Hly.
  pose proof (di_inode _ _ (wr_inv _ _ Hw)) as [? ?].
  pose proof (layout_regions m Hly) as (? & ? & ? & ? & ? & ? & ? & ?).
  apply (written_meta m); [done..| | | |].
  - apply layout_mwrite; [unfold sizeof_sb; lia|done].
  - intros i [? ?]. unfold IND_BLOCK, D_BLOCK in *. apply block_at_mwrite_ne. unfold ino_block. lia.
  - intros j Hj. apply bit_at_mwrite_ne. pose proof (word_of_range dbm j kb Hj). lia.
  - intros a ?. apply mget_mwrite_out. lia.
Qed.

(** Taking a block for the null pointer [i]. *)
Section Assign.
Context (m : mem) (n i j : Z).
Context (Hw : written m n) (H0 : 0 ≤ offset) (Hlen : offset + n ≤ 3584).
Context (Hi : 0 ≤ i < IND_BLOCK) (Hnull : block_at m p i = 0).
Context (Hj : 0 ≤ j < 32 * kb) (Hfree : bit_at m dbm j = false).

Lemma assigned_regions :
  48 + 4 * ki = dbm ∧ dbm ≤ word_of dbm j ∧ word_of dbm j + 4 ≤ ibp ∧ ibp ≤ p ∧ p + 512 ≤ dbp ∧
  0 < ki ∧ 0 < dbp ∧ dbp + 16384 * kb < 2 ^ 33.
Proof.
  pose proof (di_layout _ _ (wr_inv _ _ Hw)) as Hly. pose proof (di_inode _ _ (wr_inv _ _ Hw)) as [? ?].
  pose proof (layout_regions m Hly) as (? & ? & ? & ? & ? & ? & ? & ?).
  pose proof (word_of_range dbm j kb Hj). lia.
Qed.

Lemma assigned_layout : layout (assigned m (ino_block p i) j).
Proof.
  pose proof assigned_regions. pose proof (di_layout _ _ (wr_inv _ _ Hw)).
  unfold IND_BLOCK, D_BLOCK in *.
  apply layout_flip; [unfold sizeof_sb; lia|]. apply layout_mstore; [unfold sizeof_sb, ino_block; lia|done].
Qed.

Lemma assigned_block i' :
  0 ≤ i' < IND_BLOCK →
  block_at (assigned m (ino_block p i) j) p i' = if decide (i' = i) then data_block j else block_at m p i'.
Proof.
  intros Hi'. pose proof assigned_regions. pose proof (data_block_range j Hj).
  unfold IND_BLOCK, D_BLOCK in *. unfold block_at, WfsInv.assigned, flip_mem.
  rewrite sint_at_mstore_ne by (unfold ino_block; cbn; lia).
  case_decide as E.
  - subst i'. rewrite sint_at_mstore by lia. change (8 * Z.of_nat 8) with 64.
    apply wraps_small; lia.
  - rewrite sint_at_mstore_ne by (unfold ino_block; cbn; lia). done.
Qed.

Lemma assigned_bit j' :
  0 ≤ j' < 32 * kb →
  bit_at (assigned m (ino_block p i) j) dbm j' = (bit_at m dbm j' || bool_decide (j' = j)).
Proof.
  intros Hj'. pose proof assigned_regions. unfold IND_BLOCK, D_BLOCK in *.
  unfold WfsInv.assigned. rewrite bit_at_flip by lia.
  unfold mstore. rewrite bit_at_mwrite_ne.
  2:{ pose proof (word_of_range dbm j' kb Hj').
      pose proof (layout_regions m (di_layout _ _ (wr_inv _ _ Hw))). unfold ino_block. lia. }
  case_bool_decide as E; [subst; by rewrite Hfree|]. by rewrite xorb_false_r, orb_false_r.
Qed.

Lemma assigned_data a : dbp ≤ a → mget (assigned m (ino_block p i) j) a = mget m a.
Proof.
  intros. pose proof assigned_regions. unfold IND_BLOCK, D_BLOCK in *.
  unfold WfsInv.assigned. rewrite flip_mem_other by lia. unfold mstore.
  apply mget_mwrite_out. rewrite length_le_encode. unfold ino_block. lia.
Qed.

Lemma assigned_written : written (assigned m (ino_block p i) j) n.
Proof.
  pose proof assigned_regions as Hreg. pose proof assigned_layout as Hl'.
  pose proof assigned_block as Hb'. pose proof assigned_bit as Hbit'. pose proof assigned_data as Hg'.
  revert Hl' Hb' Hbit' Hg'. generalize (assigned m (ino_block p i) j) as m'. intros m' Hl' Hb' Hbit' Hg'.
  pose proof (data_block_range j Hj).
  assert (∀ i', 0 ≤ i' < IND_BLOCK → block_at m p i' ≠ 0 → block_at m' p i' = block_at m p i') as Hkeep.
  { intros i' ? ?. rewrite Hb' by done. case_decide; [congruence|done]. }
  pose proof Hw as [Hinv Hp Hn Hb Hd Hr Ho].
  assert (∀ k, 0 ≤ k < 3584 → block_at m p (k / 512) ≠ 0 → file_byte m' p k = file_byte m p k) as Hfb.
  { intros k Hk Hnz. rewrite !file_byte_direct, Hkeep by (done || by apply direct_index).
    destruct (mapped_block m k Hinv Hk Hnz) as (j' & -> & Hj' & _). apply Hg'.
    pose proof (data_block_range j' Hj'). pose proof (Z.mod_pos_bound k 512 ltac:(lia)). lia. }
  split.
  - destruct Hinv as [_ ? Hptr Hdis]. split; [done|done| |].
    + intros i' Hi'. rewrite Hb' by done. case_decide as E.
      * right. exists j. split_and!; [done|lia|lia|]. rewrite Hbit' by done.
        by rewrite bool_decide_true, orb_true_r.
      * destruct (Hptr i' Hi') as [?|(j' & ? & ? & Hset)]; [by left|right].
        exists j'. split_and!; [done|lia|lia|]. rewrite Hbit' by done. by rewrite Hset.
    + assert (∀ i', 0 ≤ i' < IND_BLOCK → block_at m p i' ≠ data_block j) as Hfresh.
      { intros i' Hi' E. destruct (Hptr i' Hi') as [?|(j' & E' & ? & Hset)]; [lia|].
        rewrite E' in E. apply data_block_eq in E. subst. congruence. }
      intros i1 i2 ? ? ? Hnz. rewrite (Hb' i1), (Hb' i2) in * by done.
      repeat case_decide; subst; [done|apply not_eq_sym, Hfresh; done|by apply Hfresh|].
      by apply Hdis.
  - intros i' ? ?. rewrite Hkeep; [by apply Hp|done|]. by rewrite Hp.
  - intros i' ? Hz. rewrite Hb' by done. case_decide as E.
    + right. exists j. split; [done|]. destruct (bit_at m0 dbm j) eqn:E0; [|done].
      apply Hb in E0; [congruence|done].
    + by apply Hn.
  - intros j' ? ?. rewrite Hbit', Hb by done. done.
  - intros k Hk. destruct (Hd k Hk) as [Hnz <-]. assert (0 ≤ offset + k < 3584) by lia.
    rewrite Hkeep by (done || by apply direct_index). split; [done|]. by apply Hfb.
  - intros k Hk Hout Hnz. rewrite <- (Hr k) by done. apply Hfb; [done|].
    rewrite Hp by (done || by apply direct_index). done.
  - intros j' a Hj' Hbj Hne Ha. rewrite <- (Ho j' a) by done. apply Hg'.
    pose proof (data_block_range j' Hj'). lia.
Qed.
End Assign.

(** Copying a chunk of the buffer into the block of the current position. *)
Section Chunk.
Context (m : mem) (n i o : Z) (len : nat).
Context (Hw : written m n) (H0 : 0 ≤ offset) (Hn : 0 ≤ n) (Hlen : offset + n + Z.of_nat len ≤ 3584).
Context (Hi : 0 ≤ i < IND_BLOCK) (Hmap : block_at m p i ≠ 0).
Context (Ho : 0 ≤ o) (Hfit : o + Z.of_nat len ≤ 512) (Hpos : i * 512 + o = offset + n).
Context (Hbuf : (Z.to_nat n + len ≤ length buf)%nat).

Let chunk : list byte := take len (drop (Z.to_nat n) buf).
Let m' : mem := mwrite m (block_at m p i + o) chunk.

Lemma chunk_length : length chunk = len.
Proof. unfold chunk. rewrite length_take, length_drop. lia. Qed.

Lemma chunk_written : written m' (n + Z.of_nat len).
Proof.
  pose proof Hw as [Hinv Hp Hnew Hb Hd Hr Hoth].
  pose proof (di_layout _ _ Hinv) as Hly. pose proof (di_inode _ _ Hinv) as [Hp1 Hp2].
  pose proof (layout_regions m Hly) as (? & ? & ? & ? & ? & ? & ? & Hsz).
  destruct (di_ptr _ _ Hinv i Hi) as [?|(j & Ej & Hj & Hset)]; [done|].
  pose proof (data_block_range j Hj) as Hjr. pose proof chunk_length as Hcl.
  assert (∀ a, a < dbp → mget m' a = mget m a) as Hlow by (intros; apply mget_mwrite_out; lia).
  assert (layout m') as Hl' by (apply layout_mwrite; [unfold sizeof_sb; lia|done]).
  assert (∀ i', 0 ≤ i' < IND_BLOCK → block_at m' p i' = block_at m p i') as Hp'.
  { intros i' [? ?]. unfold IND_BLOCK, D_BLOCK in *. apply block_at_mwrite_ne. unfold ino_block. lia. }
  assert (∀ j', 0 ≤ j' < 32 * kb → bit_at m' dbm j' = bit_at m dbm j') as Hb'.
  { intros j' Hj'. apply bit_at_mwrite_ne. pose proof (word_of_range dbm j' kb Hj'). lia. }
  (* the bytes of the file *)
  assert (∀ k, 0 ≤ k < 3584 → block_at m p (k / 512) ≠ 0 →
            file_byte m' p k = if decide (offset + n ≤ k < offset + n + Z.of_nat len)
                               then nth (Z.to_nat (k - offset)) buf x00 else file_byte m p k) as Hfb.
  { intros k Hk Hnz. rewrite !file_byte_direct, Hp' by (done || by apply direct_index).
    pose proof (Z.div_mod k 512 ltac:(lia)). pose proof (Z.mod_pos_bound k 512 ltac:(lia)).
    destruct (mapped_block m k Hinv Hk Hnz) as (j' & Ej' & Hj' & _).
    destruct (decide (k / 512 = i)) as [E|E].
    - rewrite E. unfold m'. case_decide as Hin.
      + replace (block_at m p i + k mod 512)
          with (block_at m p i + o + Z.of_nat (Z.to_nat (k - (offset + n)))) by lia.
        rewrite mget_mwrite_in by lia. apply nth_lookup_Some. unfold chunk.
        rewrite lookup_take_lt, lookup_drop by lia.
        replace (Z.to_nat n + Z.to_nat (k - (offset + n)))%nat with (Z.to_nat (k - offset)) by lia.
        apply lookup_nth. lia.
      + apply mget_mwrite_out. rewrite Hcl. lia.
    - rewrite decide_False by lia. unfold m'. rewrite Ej, Ej'. apply mget_mwrite_out.
      assert (j ≠ j').
      { intros ->. apply (di_distinct _ _ Hinv (k / 512) i); [by apply direct_index|done|done|done|congruence]. }
      unfold WfsInv.data_block. rewrite Hcl. lia. }
  assert (0 ≤ i * 512 + o < 3584 ∨ len = 0%nat) as Hpos' by (unfold IND_BLOCK, D_BLOCK in *; lia).
  split.
  - destruct Hinv as [_ ? Hptr Hdis]. split; [done|done| |].
    + intros i' Hi'. rewrite Hp' by done. destruct (Hptr i' Hi') as [?|(j' & ? & ? & ?)]; [by left|right].
      exists j'. split_and!; [done|lia|lia|]. by rewrite Hb'.
    + intros i' i'' ? ? ?. rewrite !Hp' by done. by apply Hdis.
  - intros i' ? ?. rewrite Hp' by done. by apply Hp.
  - intros i' ? ?. rewrite Hp' by done. by apply Hnew.
  - intros j' ? ?. rewrite Hb' by done. by apply Hb.
  - intros k Hk. assert (0 ≤ offset + k < 3584) by lia. rewrite Hp' by (by apply direct_index).
    destruct (decide (k < n)).
    + destruct (Hd k) as [Hnz <-]; [lia|]. split; [done|]. rewrite Hfb by done.
      by rewrite decide_False by lia.
    + assert ((offset + k) / 512 = i) as E.
      { replace (offset + k) with (o + (k - n) + i * 512) by lia. rewrite Z.div_add, Z.div_small; lia. }
      rewrite E. split; [done|]. rewrite Hfb by (lia || by rewrite E).
      rewrite decide_True by lia. f_equal. lia.
  - intros k Hk Hout Hnz. assert (block_at m p (k / 512) ≠ 0).
    { rewrite Hp by (done || by apply direct_index). done. }
    rewrite Hfb by done. rewrite decide_False by lia. apply Hr; [done|lia|done].
  - intros j' a Hj' Hbj Hne Ha. rewrite <- (Hoth j' a) by done. unfold m'. rewrite Ej.
    apply mget_mwrite_out. rewrite Hcl. assert (j ≠ j').
    { intros ->. destruct (decide (block_at m0 p i = 0)) as [Hz|Hnz].
      - destruct (Hnew i Hi Hz) as [?|(j'' & E & Hfree)]; [done|].
        rewrite Ej in E. apply data_block_eq in E. congruence.
      - apply (Hne i Hi). rewrite <- Ej. symmetry. by apply Hp. }
    unfold WfsInv.data_block in *. lia.
Qed.
End Chunk.

End File.

(** ** The loop over the direct blocks *)

(** The image after [grow_size]. *)
Definition grown (m : mem) (p e : Z) : mem :=
  if sint_at m (ino_size p) 8 <? e then mstore m (ino_size p) 8 e else m.

Lemma grow_size_ok m dl p offset n :
  in_range m p sizeof_inode = true → 0 ≤ sint_at m (ino_size p) 8 →
  0 ≤ offset + n < 2 ^ 63 →
  grow_size p offset n (State m dl) = Ok tt (State (grown m p (offset + n)) dl).
Proof.
  intros Hp%in_range_iff Hs Hn. unfold grow_size, sizeof_inode, ino_size in *. cbv zeta.
  assert (in_range m (p + 16) 8 = true) as Hr by (apply in_range_iff; lia).
  pose proof (sint_at_range m (p + 16) 8 ltac:(lia)) as Hb. change (2 ^ (8 * Z.of_nat 8 - 1)) with (2 ^ 63) in Hb.
  erewrite bind_ok by by apply load_sint_ok. cbn [the_mem state_mem disk].
  rewrite !u64_small by lia. unfold grown, ino_size.
  destruct (_ <? _); [|done]. by rewrite store_int_ok.
Qed.

Lemma sint_at_grown m p e :
  0 ≤ e < 2 ^ 63 → sint_at (grown m p e) (ino_size p) 8 = Z.max (sint_at m (ino_size p) 8) e.
Proof.
  intros. unfold grown. destruct (Z.ltb_spec (sint_at m (ino_size p) 8) e); [|lia].
  rewrite sint_at_mstore by lia. change (8 * Z.of_nat 8) with 64. rewrite wraps_small; lia.
Qed.

Lemma sint_at_touch e m p b : sint_at (touch e m p b) (ino_size p) 8 = sint_at m (ino_size p) 8.
Proof.
  unfold touch, ino_size, ino_atim, ino_ctim, ino_mtim.
  destruct b; rewrite !sint_at_mstore_ne by (cbn; lia); done.
Qed.

Section WriteLoop.
Context (e : env) (m0 : mem) (dl p offset : Z) (buf : list byte).
Let size : Z := Z.of_nat (length buf).
Let isize : Z := sint_at m0 (ino_size p) 8.
Context (Hoff : 0 ≤ offset) (Hend : offset + size ≤ 3584) (Hisize : 0 ≤ isize).

Abbreviation written := (written m0 p offset buf).

Lemma written_touch m n b : 0 ≤ n ≤ size → written m n → written (touch e m p b) n.
Proof.
  intros Hn Hw. unfold touch, mstore, ino_atim, ino_ctim, ino_mtim.
  destruct b; repeat (apply written_mwrite; [|lia|lia|rewrite ?length_le_encode; lia..]); done.
Qed.

Lemma written_grown m n x : 0 ≤ n ≤ size → written m n → written (grown m p x) n.
Proof.
  intros Hn Hw. unfold grown, mstore, ino_size. destruct (_ <? x); [|done].
  apply written_mwrite; rewrite ?length_le_encode; try lia. done.
Qed.

Lemma written_inode m n : written m n → in_range m p sizeof_inode = true.
Proof.
  intros Hw. pose proof (layout_regions m (di_layout _ _ (wr_inv _ _ _ _ _ _ Hw))).
  pose proof (di_inode _ _ (wr_inv _ _ _ _ _ _ Hw)).
  apply in_range_iff. unfold sizeof_inode. lia.
Qed.

Definition full (m : mem) : Prop := ∀ j, 0 ≤ j < 32 * kb → bit_at m dbm j = true.

(** What [wfs_write] promises: [n] bytes were stored, and the result, the size
    of the file and the state of the disk go with it. *)
Definition write_outcome (r : Z) (m : mem) : Prop :=
  ∃ n, written m n ∧ 0 ≤ n ≤ size ∧
    r = (if bool_decide (n = 0 ∧ 0 < size) then - ENOSPC else n) ∧
    sint_at m (ino_size p) 8 = (if bool_decide (n = 0 ∧ 0 < size) then isize else Z.max isize (offset + n)) ∧
    (n < size → full m).

(** The state between two turns of the loop. *)
Definition writing (m : mem) (l : wstate) : Prop :=
  written m (w_bytes_written l) ∧ sint_at m (ino_size p) 8 = isize ∧
  0 ≤ w_bytes_written l ≤ size ∧ w_size l = size - w_bytes_written l ∧
  0 ≤ w_block_index l ∧ 0 ≤ w_block_offset l < 512 ∧
  (0 < w_size l → w_block_index l * 512 + w_block_offset l = offset + w_bytes_written l).

Lemma full_meta m m' :
  layout m → layout m' → (∀ a, dbm ≤ a < ibp → mget m' a = mget m a) → full m → full m'.
Proof.
  intros Hl Hl' Hg Hf j Hj. rewrite <- (Hf j Hj). unfold bit_at, uint_at. f_equal. f_equal.
  apply mread_ext. intros i Hi. apply Hg. pose proof (word_of_range dbm j kb Hj) as [Hw1 Hw2].
  unfold word_of in *. pose proof (layout_regions m Hl). lia.
Qed.

Lemma no_space_ok m n :
  written m n → sint_at m (ino_size p) 8 = isize → 0 ≤ n < size → full m →
  ∃ r m', no_space e p offset n true (State m dl) = Ok r (State m' dl) ∧ write_outcome r m'.
Proof.
  intros Hw Hs Hn Hf. pose proof (written_inode m n Hw) as Hp.
  pose proof (di_layout _ _ (wr_inv _ _ _ _ _ _ Hw)) as Hly.
  pose proof (layout_regions m Hly). pose proof (di_inode _ _ (wr_inv _ _ _ _ _ _ Hw)).
  unfold no_space. destruct (Z.ltb_spec 0 n).
  - erewrite bind_ok by (apply grow_size_ok; [done|lia|lia]).
    assert (written (grown m p (offset + n)) n) as Hg by (apply written_grown; done || lia).
    pose proof (update_inode_times_ok e _ dl p true (written_inode _ _ Hg)) as Ht.
    erewrite bind_ok by (rewrite (bind_ok _ _ _ _ _ Ht); reflexivity).
    do 2 eexists. split; [reflexivity|]. exists n.
    assert (written (touch e (grown m p (offset + n)) p true) n) as Hw'
      by (apply written_touch, written_grown; done || lia).
    split; [done|]. rewrite !bool_decide_false by lia. split_and!; [lia|lia|done| |].
    + rewrite sint_at_touch, sint_at_grown by lia. by rewrite Hs.
    + intros _. eapply full_meta; [exact Hly|apply (di_layout _ _ (wr_inv _ _ _ _ _ _ Hw'))| |done].
      intros a Ha. rewrite touch_other by (unfold ino_atim; lia). unfold grown, mstore.
      destruct (_ <? _); [|done]. apply mget_mwrite_out. unfold ino_size. lia.
  - assert (n = 0) as -> by lia. erewrite bind_ok by by apply update_inode_times_ok.
    do 2 eexists. split; [reflexivity|]. exists 0.
    assert (written (touch e m p false) 0) as Hw' by (apply written_touch; done || lia).
    split; [done|]. rewrite !bool_decide_true by lia. split_and!; [lia|lia|done| |].
    + by rewrite sint_at_touch.
    + intros _. eapply full_meta; [exact Hly|apply (di_layout _ _ (wr_inv _ _ _ _ _ _ Hw'))| |done].
      intros a Ha. by rewrite touch_other by (unfold ino_atim; lia).
Qed.

(** One [write_chunk] into the mapped block of the current position. *)
Lemma write_chunk_ok m l :
  writing m l → 0 < w_size l → 0 ≤ w_block_index l < IND_BLOCK →
  block_at m p (w_block_index l) ≠ 0 →
  ∃ l' m', write_chunk (block_at m p (w_block_index l)) buf l 1 (State m dl) = Ok l' (State m' dl) ∧
    writing m' l' ∧ w_block_index l' = w_block_index l + 1.
Proof.
  intros (Hw & Hs & Hn & Hsz & Hbi & Hbo & Hpos) Hleft Hidx Hmap. specialize (Hpos Hleft).
  set (n := w_bytes_written l) in *. set (o := w_block_offset l) in *. set (i := w_block_index l) in *.
  set (k := Z.min (w_size l) (512 - o)). unfold IND_BLOCK, D_BLOCK in Hidx.
  assert (MIN (w_size l) (u64 (512 - o)) = k) as Hk.
  { rewrite u64_small by lia. unfold MIN, k. destruct (Z.ltb_spec (w_size l) (512 - o)); lia. }
  assert (Z.of_nat (Z.to_nat k) = k) as Hkn by lia.
  pose proof (chunk_length buf n (Z.to_nat k)) as Hcl.
  pose proof (chunk_written m0 p offset buf m n i o (Z.to_nat k) Hw) as Hcw.
  cbv zeta in Hcl, Hcw. rewrite Hkn in Hcw.
  unfold write_chunk. fold n o i. change BLOCK_SIZE with 512. rewrite Hk. cbv zeta.
  rewrite Hcl, Hkn, Z.eqb_refl by lia. cbn [negb].
  pose proof (wr_inv _ _ _ _ _ _ Hw) as Hinv.
  destruct (di_ptr _ _ Hinv i) as [?|(j & Ej & Hj & _)]; [unfold IND_BLOCK, D_BLOCK; lia|done|].
  pose proof (data_block_range j Hj). pose proof (layout_regions m (di_layout _ _ Hinv)).
  erewrite bind_ok.
  2:{ apply store_bytes_ok. cbn [the_mem state_mem disk]. rewrite Hcl by lia. apply in_range_iff. lia. }
  do 2 eexists. split; [reflexivity|]. subst n o i.
  assert (u64 (w_size l - k) = w_size l - k) as Hu by (apply u64_small; lia).
  assert (u64 (w_block_index l + 1) = w_block_index l + 1) as Hi1 by (apply u64_small; lia).
  assert (i32 (w_bytes_written l + k) = w_bytes_written l + k) as Hnk by (apply i32_small; lia).
  cbn [w_block_index with_mem state_mem the_mem disk dentry_loc]. rewrite Hi1. split; [|done].
  unfold writing. cbn [w_size w_block_index w_block_offset w_bytes_written]. rewrite Hu, ?Hi1, Hnk.
  split_and!; try lia.
  - apply Hcw; unfold IND_BLOCK, D_BLOCK; try lia; done.
  - rewrite <- Hs. apply sint_at_mwrite_ne. unfold ino_size. pose proof (di_inode _ _ Hinv). cbn. lia.
Qed.

Definition turns_left (l : wstate) : nat := Z.to_nat (IND_BLOCK - w_block_index l).

(** One turn: the loop goes on, ends with everything written, or returns for
    want of a free block. *)
Lemma direct_step_ok m l :
  writing m l →
  wp (direct_step e p offset buf l)
     (λ x s', ∃ m', s' = State m' dl ∧
        match x with
        | inl l' => writing m' l' ∧ (turns_left l' < turns_left l)%nat
        | inr (inl r) => write_outcome r m'
        | inr (inr l') => writing m' l' ∧ w_size l' = 0
        end) (State m dl).
Proof.
  intros Hwr. pose proof Hwr as (Hw & Hs & Hn & Hsz & Hbi & Hbo & Hpos).
  unfold direct_step.
  destruct (Z.ltb_spec 0 (w_size l)) as [Hleft|]; cbn [andb];
    [|apply wp_ret; eexists; split; [done|]; split; [done|lia]].
  specialize (Hpos Hleft).
  assert (w_block_index l < IND_BLOCK) as Hidx by (unfold IND_BLOCK, D_BLOCK; lia).
  rewrite (proj2 (Z.ltb_lt _ _)) by done.
  pose proof (wr_inv _ _ _ _ _ _ Hw) as Hinv. pose proof (di_layout _ _ Hinv) as Hly.
  pose proof (layout_regions m Hly). pose proof (di_inode _ _ Hinv).
  assert (∀ m1, msize m1 = msize m → in_range m1 (ino_block p (w_block_index l)) 8 = true) as Hcell.
  { intros m1 Hm1. apply in_range_iff. unfold ino_block, IND_BLOCK, D_BLOCK in *. lia. }
  apply wp_bind, wp_load_sint; [by apply Hcell|]. cbn [the_mem state_mem disk].
  fold (block_at m p (w_block_index l)).
  destruct (Z.eqb_spec (block_at m p (w_block_index l)) 0) as [Hz|Hnz].
  - destruct (assign_block_ok ki kb m dl (ino_block p (w_block_index l)) Hly) as [[E Hfull]|(j & Hj & Hfree & E)].
    { split; unfold size_of, ino_block, IND_BLOCK, D_BLOCK in *; lia. }
    + apply wp_bind. unfold wp at 1. rewrite E. cbn [negb].
      destruct (no_space_ok m (w_bytes_written l) Hw Hs) as (r & m' & E' & Ho); [lia|done|].
      apply wp_bind. unfold wp at 1. rewrite E'. apply wp_ret. eexists. split; [done|done].
    + apply wp_bind. unfold wp at 1. rewrite E. cbn [negb].
      set (m1 := assigned m (ino_block p (w_block_index l)) j).
      assert (writing m1 l) as Hwr1.
      { unfold writing. split_and!; try done; try lia.
        - apply assigned_written; try done; lia.
        - rewrite <- Hs. unfold m1, WfsInv.assigned, flip_mem.
          pose proof (word_of_range dbm j kb Hj).
          rewrite !sint_at_mstore_ne; [done|..];
            unfold ino_size, ino_block; cbn; lia. }
      assert (block_at m1 p (w_block_index l) ≠ 0) as Hmap.
      { unfold m1. erewrite assigned_block by (done || lia).
        rewrite decide_True by done. pose proof (data_block_range j Hj). lia. }
      apply wp_bind, wp_load_sint; [by apply Hcell|]. cbn [the_mem state_mem disk].
      fold (block_at m1 p (w_block_index l)).
      destruct (write_chunk_ok m1 l Hwr1) as (l' & m' & E' & Hwr' & Hi'); [done|lia|done|].
      apply wp_bind. unfold wp at 1. rewrite E'. apply wp_ret. eexists. split; [done|]. split; [done|].
      unfold turns_left. lia.
  - apply wp_bind, wp_ret. cbn [negb].
    apply wp_bind, wp_load_sint; [by apply Hcell|]. cbn [the_mem state_mem disk].
    fold (block_at m p (w_block_index l)).
    destruct (write_chunk_ok m l Hwr) as (l' & m' & E' & Hwr' & Hi'); [done|lia|done|].
    apply wp_bind. unfold wp at 1. rewrite E'. apply wp_ret. eexists. split; [done|]. split; [done|].
    unfold turns_left. lia.
Qed.

Lemma write_finish_ok m l :
  writing m l → w_size l = 0 →
  ∃ m', write_finish e p offset l (State m dl) = Ok size (State m' dl) ∧ write_outcome size m'.
Proof.
  intros (Hw & Hs & Hn & Hsz & _) Hz. assert (w_bytes_written l = size) as Hws by lia.
  rewrite Hws in *. pose proof (written_inode m size Hw) as Hp.
  unfold write_finish. rewrite Hz, Hws. cbn [Z.ltb Z.compare].
  erewrite bind_ok by (apply grow_size_ok; [done|lia|lia]).
  assert (written (grown m p (offset + size)) size) as Hg by (apply written_grown; done || lia).
  pose proof (update_inode_times_ok e _ dl p true (written_inode _ _ Hg)) as Ht.
  erewrite bind_ok by exact Ht. eexists. split; [reflexivity|]. exists size.
  split; [apply written_touch; done || lia|]. rewrite !bool_decide_false by lia.
  split_and!; [lia|lia|done| |lia].
  rewrite sint_at_touch, sint_at_grown by lia. by rewrite Hs.
Qed.

Lemma write_inode_ok :
  direct_inv m0 p →
  ∃ r m', write_inode e p buf size offset (State m0 dl) = Ok r (State m' dl) ∧ write_outcome r m'.
Proof.
  intros Hinv.
  enough (wp (write_inode e p buf size offset) (λ r s, ∃ m', s = State m' dl ∧ write_outcome r m') (State m0 dl)) as H.
  { apply wp_ok in H as (r & s & E & m' & -> & ?). eauto. }
  unfold write_inode. rewrite Z.quot_div_nonneg, Z.rem_mod_nonneg by (unfold BLOCK_SIZE; lia).
  change BLOCK_SIZE with 512.
  pose proof (Z.div_mod offset 512 ltac:(lia)). pose proof (Z.mod_pos_bound offset 512 ltac:(lia)).
  pose proof (Z.div_pos offset 512 Hoff ltac:(lia)).
  rewrite u64_small, i32_small by lia.
  apply wp_bind. eapply wp_mono.
  { apply wp_loop with
      (I := λ l s, ∃ m, s = State m dl ∧ writing m l)
      (Q := λ x s, ∃ m', s = State m' dl ∧
             match x with inl r => write_outcome r m' | inr l' => writing m' l' ∧ w_size l' = 0 end)
      (μ := turns_left).
    - eexists. split; [done|]. unfold writing. cbn [w_size w_block_index w_block_offset w_bytes_written].
      split_and!; try lia. by apply written_0.
    - unfold turns_left, IND_BLOCK, D_BLOCK. cbn [w_block_index]. lia.
    - intros l s (m & -> & Hwr). eapply wp_mono; [by apply direct_step_ok|].
      intros [l'|[r|l']] s' (m' & -> & Hx); [destruct Hx|..]; eauto. }
  intros [r|l] s (m & -> & Hx).
  - apply wp_ret. eauto.
  - destruct Hx as [Hwr Hz]. apply wp_bind. unfold wp at 1, write_indirect.
    rewrite Hz. cbn [Z.ltb Z.compare negb ret].
    destruct (write_finish_ok m l Hwr Hz) as (m' & E & Ho). unfold wp. rewrite E. eauto.
Qed.

End WriteLoop.
(** * Reading back what was written *)

Lemma written_blocks_ok m0 p offset buf m n :
  written m0 p offset buf m n → 0 ≤ offset → 0 < n → offset + n ≤ 3584 →
  blocks_ok m p offset (offset + n) = true.
Proof.
  intros Hw Ho Hn Hend. unfold blocks_ok, BLOCK_SIZE. rewrite forallb_forall.
  intros b Hb%list_elem_of_In%elem_of_seqZ.
  assert (∃ k, 0 ≤ k < n ∧ (offset + k) / 512 = b) as (k & Hk & <-).
  { exists (Z.max 0 (b * 512 - offset)).
    pose proof (Z.div_mod offset 512 ltac:(lia)). pose proof (Z.mod_pos_bound offset 512 ltac:(lia)).
    pose proof (Z.div_mod (offset + n - 1) 512 ltac:(lia)).
    pose proof (Z.mod_pos_bound (offset + n - 1) 512 ltac:(lia)).
    split; [lia|]. destruct (decide (b * 512 ≤ offset)).
    - rewrite Z.max_l, Z.add_0_r by lia. lia.
    - rewrite Z.max_r by lia. replace (offset + (b * 512 - offset)) with (b * 512) by lia.
      apply Z.div_mul. lia. }
  destruct (wr_data _ _ _ _ _ _ Hw k Hk) as [Hnz _].
  pose proof (wr_inv _ _ _ _ _ _ Hw) as Hinv.
  destruct (mapped_block p m (offset + k) Hinv) as (j & Hal); [lia|done|].
  pose proof (direct_index (offset + k) ltac:(lia)) as Hi.
  pose proof (layout_regions m (di_layout _ _ Hinv)). pose proof (di_inode _ _ Hinv).
  unfold block_ok. rewrite file_block_direct by done. apply andb_true_iff. split.
  - unfold ptr_cell. rewrite (proj2 (Z.leb_gt _ _)) by lia. apply in_range_iff.
    unfold ino_block, IND_BLOCK, D_BLOCK in *. lia.
  - destruct Hal as (-> & Hj & _). pose proof (data_block_range j Hj).
    apply in_range_iff. unfold BLOCK_SIZE. lia.
Qed.

Lemma written_file_bytes m0 p offset buf m :
  written m0 p offset buf m (Z.of_nat (length buf)) →
  file_bytes m p offset (Z.of_nat (length buf)) = buf.
Proof.
  intros Hw. apply list_eq_same_length with (length buf); [done| |].
  - unfold file_bytes. by rewrite length_fmap, length_seqZ, Nat2Z.id.
  - intros i x y Hi. unfold file_bytes. rewrite list_lookup_fmap, lookup_seqZ_lt by lia.
    intros [= <-] Hy. destruct (wr_data _ _ _ _ _ _ Hw (Z.of_nat i)) as [_ ->]; [lia|].
    rewrite Nat2Z.id. by apply nth_lookup_Some.
Qed.

(** C3: A write to the direct blocks of a file: the result, the new size, the bytes
    stored, the bytes, blocks and pointers left alone, and the full-disk case. *)
Theorem wfs_write_direct_correct e m dl path buf offset :
  let num := resolve m path in
  let p := inode_addr m num in
  path_ok m 50 path = true → num ≠ -1 → inode_addressable m num = true →
  direct_inv m p → 0 ≤ offset → offset + Z.of_nat (length buf) ≤ 3584 →
  0 ≤ sint_at m (ino_size p) 8 →
  ∃ r m' dl', wfs_write e path buf (Z.of_nat (length buf)) offset (State m dl) = Ok r (State m' dl') ∧
              write_outcome m p offset buf r m'.
Proof.
  intros num p Hpath Hnum Ha Hinv Ho Hend Hs. unfold wfs_write.
  destruct (strcpy_find_ok m dl 50 path Hpath) as [dl' E]. rewrite E. clear E.
  subst num p. unfold resolve in *. destruct (walk m (tokens path) 0 0) as [pn num]. cbn [snd] in *.
  destruct (Z.eqb_spec num (-1)); [done|].
  rewrite (bind_ok _ _ _ _ _ (inode_ptr_ok m dl' num Ha)).
  destruct (write_inode_ok e m dl' _ offset buf Ho Hend Hs Hinv) as (r & m' & E & Hout). eauto.
Qed.

(** C5: Within the direct blocks of a file (its first 3584 bytes), what [write_inode]
    has stored completely, [read_inode] gives back: the parts of [wfs_write] and
    [wfs_read] after the path lookup. *)
Theorem write_read_roundtrip e e' m dl p buf offset :
  direct_inv m p → 0 ≤ offset → 0 < Z.of_nat (length buf) →
  offset + Z.of_nat (length buf) ≤ 3584 → 0 ≤ sint_at m (ino_size p) 8 < 2 ^ 31 →
  ∃ r m', write_inode e p buf (Z.of_nat (length buf)) offset (State m dl) = Ok r (State m' dl) ∧
    (r = Z.of_nat (length buf) →
     ∃ m'', read_inode e' p (Z.of_nat (length buf)) offset (State m' dl) =
            Ok (Z.of_nat (length buf), buf) (State m'' dl)).
Proof.
  intros Hinv Ho Hlen Hend [Hs Hs'].
  destruct (write_inode_ok e m dl p offset buf Ho Hend Hs Hinv) as (r & m' & E & n & Hw & Hn & Hr & Hsz & _).
  exists r, m'. split; [done|]. intros Hfull.
  assert (n = Z.of_nat (length buf)) as ->.
  { revert Hr. unfold ENOSPC. case_bool_decide; lia. }
  rewrite bool_decide_false in Hsz by lia.
  eexists. rewrite read_inode_ok; [|by eapply written_inode|lia|lia|lia|].
  - assert (read_count (sint_at m' (ino_size p) 8) (Z.of_nat (length buf)) offset = Z.of_nat (length buf)) as ->
      by (unfold read_count; lia).
    by erewrite written_file_bytes.
  - assert (read_count (sint_at m' (ino_size p) 8) (Z.of_nat (length buf)) offset = Z.of_nat (length buf)) as ->
      by (unfold read_count; lia).
    by eapply written_blocks_ok.
Qed.

End Write.
End WfsWrite.
