(* ===== verification/WfsMkfs.v ===== *)
(** WfsMkfs: p7/mkfs.c: the command line, the size computation, the superblock
    and the root inode of a fresh image. *)
From S2P Require Import Prelude Memory CLib WfsLayout WfsBitmap WfsPath WfsOps WfsInv WfsFile.
From Stdlib Require Import Strings.Byte.
Local Open Scope Z_scope.

Module WfsMkfs.
Import Wfs CLib WfsBitmap WfsPath WfsOps WfsInv WfsFile.

(** * Command line *)
Record opts := Opts { o_d : option (list byte); o_i : Z; o_b : Z }.

(** The [for] loop over [argv[1] ..]; after the last argument comes the null
    pointer, which [atoi] must not be given. *)
Fixpoint parse_args (argv : list (list byte)) (o : opts) : option opts :=
  match argv with
  | [] => Some o
  | a :: rest =>
      if bool_decide (a = ["-"; "d"]%byte) then parse_args rest (Opts (head rest) (o_i o) (o_b o))
      else if bool_decide (a = ["-"; "i"]%byte) then
        x ← head rest; parse_args rest (Opts (o_d o) (atoi x) (o_b o))
      else if bool_decide (a = ["-"; "b"]%byte) then
        x ← head rest; parse_args rest (Opts (o_d o) (o_i o) (atoi x))
      else parse_args rest o
  end.

(** * Sizes *)

(** [if (i % 32 != 0) i = i + 32 - (i % 32)] *)
Definition round32 (i : Z) : Z :=
  if Z.rem i 32 =? 0 then i else i32 (i + 32 - Z.rem i 32).

Definition bitmap_size (i : Z) : Z := u64 (i32 (i + 7) ÷ 8).
Definition table_size (i : Z) : Z := u64 (i32 (i * BLOCK_SIZE)).
Definition filesystem_size (i b : Z) : Z :=
  u64 (sizeof_sb + bitmap_size i + bitmap_size b + table_size i + table_size b).

(** * The image *)

Definition S_IRWXUGO : Z := 0x1ff.

(** The stores into the mapped image: superblock, root inode, inode bitmap. *)
Definition write_sb (i b : Z) : ST state unit :=
  do! store_int 8 0 i in
  do! store_int 8 8 b in
  do! store_int 8 16 sizeof_sb in
  let! ibm := ld_i_bitmap_ptr in
  do! store_int 8 24 (ibm + bitmap_size i) in
  let! dbm := ld_d_bitmap_ptr in
  do! store_int 8 32 (dbm + bitmap_size b) in
  let! ibp := ld_i_blocks_ptr in
  store_int 8 40 (ibp + table_size i).

Definition write_root (e : env) : ST state unit :=
  let! root := ld_i_blocks_ptr in
  do! store_int 4 root 0 in
  do! store_int 4 (root + 4) (Z.lor S_IFDIR S_IRWXUGO) in
  do! store_int 4 (root + 8) (e_uid e) in
  do! store_int 4 (root + 12) (e_gid e) in
  do! store_int 8 (ino_size root) 0 in
  do! store_int 4 (ino_nlinks root) 1 in
  do! store_int 8 (ino_atim root) (e_now e) in
  do! store_int 8 (ino_mtim root) (e_now e) in
  do! store_int 8 (ino_ctim root) (e_now e) in
  let! ibm := ld_i_bitmap_ptr in
  let! w := load_sint 4 ibm in
  store_int 4 ibm (Z.lor w 1).

(** The mapped file after [memset(addr, 0, filesystem_size)]. *)
Definition blank (size : Z) : mem := Mem size (λ _, x00).

Inductive outcome :=
| Exit (status : Z)             (* nothing was written *)
| Formatted (image : mem)       (* status 0 *)
| Crash.

(** [int main(int argc, char *argv[])]; [disk_img_size] is the size of the file
    that [open] gives. *)
Definition mkfs_main (e : env) (argv : list (list byte)) (disk_img_size : Z) : outcome :=
  if Z.of_nat (length argv) <? 7 then Exit 1 else
  match parse_args (tail argv) (Opts None 0 0) with
  | None => Crash
  | Some (Opts None _ _) => Exit 1
  | Some (Opts (Some _) i b) =>
      if (i <=? 0) || (b <=? 0) then Exit 1 else
      let i := round32 i in
      let b := round32 b in
      let size := filesystem_size i b in
      if disk_img_size <? size then Exit 1 else
      match bind (write_sb i b) (λ _, write_root e) (State (blank size) 0) with
      | Ok _ s => Formatted (disk s)
      | Fault => Crash
      end
  end.

(** * What mkfs guarantees *)

(** Rounding gives the least multiple of 32 that is not smaller. *)
Lemma round32_spec i :
  0 < i < 2 ^ 31 - 31 → ∃ k, round32 i = 32 * k ∧ 0 < k ∧ i ≤ 32 * k < i + 32.
Proof.
  intros Hi. unfold round32. rewrite Z.rem_mod_nonneg by lia.
  pose proof (Z.div_mod i 32 ltac:(lia)). pose proof (Z.mod_pos_bound i 32 ltac:(lia)).
  destruct (Z.eqb_spec (i mod 32) 0).
  - exists (i / 32). lia.
  - rewrite i32_small by lia. exists (i / 32 + 1). lia.
Qed.

Section Format.
Context (ki kb : Z) (Hfits : fits ki kb).

Lemma sizes_ok k :
  0 < k → 16384 * k < 2 ^ 31 →
  bitmap_size (32 * k) = 4 * k ∧ table_size (32 * k) = 16384 * k.
Proof.
  intros. unfold bitmap_size, table_size, BLOCK_SIZE.
  rewrite !i32_small, Z.quot_div_nonneg by lia.
  replace (32 * k + 7) with (7 + 4 * k * 8) by lia. rewrite Z.div_add, Z.div_small by lia.
  rewrite !u64_small by lia. lia.
Qed.

Lemma filesystem_size_ok : filesystem_size (32 * ki) (32 * kb) = size_of ki kb.
Proof.
  destruct Hfits as (? & ? & ? & ?). unfold filesystem_size.
  destruct (sizes_ok ki) as [-> ->]; [done..|]. destruct (sizes_ok kb) as [-> ->]; [done..|].
  unfold size_of, dbp_of, ibp_of, dbm_of, sizeof_sb. rewrite u64_small by lia. lia.
Qed.

(** The image after the superblock is written. *)
Definition sb_image : mem :=
  mstore (mstore (mstore (mstore (mstore (mstore (blank (size_of ki kb))
    0 8 (32 * ki)) 8 8 (32 * kb)) 16 8 48) 24 8 (dbm_of ki)) 32 8 (ibp_of ki kb)) 40 8 (dbp_of ki kb).

Lemma write_sb_ok :
  write_sb (32 * ki) (32 * kb) (State (blank (size_of ki kb)) 0) = Ok tt (State sb_image 0).
Proof.
  destruct Hfits as (? & ? & ? & ?).
  destruct (sizes_ok ki) as [Hbi Hti]; [done..|]. destruct (sizes_ok kb) as [Hbb Htb]; [done..|].
  enough (wp (write_sb (32 * ki) (32 * kb)) (λ _ s, s = State sb_image 0)
            (State (blank (size_of ki kb)) 0)) as H'.
  { by apply wp_ok in H' as ([] & ? & -> & ->). }
  assert (48 ≤ size_of ki kb) as Hsz by (unfold size_of, dbp_of, ibp_of, dbm_of; lia).
  unfold write_sb, sizeof_sb, ld_i_bitmap_ptr, ld_d_bitmap_ptr, ld_i_blocks_ptr. rewrite Hbi, Hbb, Hti.
  do 3 wp_store. wp_load. simpl the_mem. mem_simpl.
  change (8 * Z.of_nat 8) with 64. rewrite (wraps_small 64 48) by lia.
  wp_store. wp_load. simpl the_mem. mem_simpl.
  change (8 * Z.of_nat 8) with 64. rewrite (wraps_small 64) by lia.
  wp_store. wp_load. simpl the_mem. mem_simpl.
  change (8 * Z.of_nat 8) with 64. rewrite (wraps_small 64) by lia.
  apply wp_store_int; [apply in_range_iff; cbn; lia|]. simpl. unfold sb_image. done.
Qed.

Lemma sb_image_layout : layout ki kb sb_image.
Proof.
  destruct Hfits as (? & ? & ? & ?). split; [done| |done].
  unfold sb_of, sb_image, ibm_of. mem_simpl.
  change (8 * Z.of_nat 8) with 64. unfold dbp_of, ibp_of, dbm_of.
  rewrite !wrapu_small, !wraps_small by lia. done.
Qed.

(** The root inode, as [wfs_getattr] will read it. *)
Definition root_inode (e : env) : wfs_inode := {|
  i_num := 0; i_mode := Z.lor S_IFDIR S_IRWXUGO; i_uid := e_uid e; i_gid := e_gid e;
  i_size := 0; i_nlinks := 1; i_atim := e_now e; i_mtim := e_now e; i_ctim := e_now e;
  i_blocks := replicate 8 0 |}.

Definition root_image (e : env) : mem :=
  let r := ibp_of ki kb in
  mstore (mstore (mstore (mstore (mstore (mstore (mstore (mstore (mstore (mstore sb_image
    r 4 0) (r + 4) 4 (Z.lor S_IFDIR S_IRWXUGO)) (r + 8) 4 (e_uid e)) (r + 12) 4 (e_gid e))
    (ino_size r) 8 0) (ino_nlinks r) 4 1) (ino_atim r) 8 (e_now e)) (ino_mtim r) 8 (e_now e))
    (ino_ctim r) 8 (e_now e)) 48 4 1.

Lemma mget_sb_image a : 48 ≤ a → mget sb_image a = x00.
Proof.
  intros. unfold sb_image, mstore.
  rewrite !mget_mwrite_out by (rewrite length_le_encode; lia). done.
Qed.

Lemma uint_at_blank m off n :
  (∀ a, off ≤ a < off + Z.of_nat n → mget m a = x00) → uint_at m off n = 0.
Proof.
  intros H. unfold uint_at. rewrite (mread_ext m (blank 0) off 0) by (intros; by apply H; lia).
  rewrite <- (le_decode_zeros n). f_equal. apply list_eq_same_length with n.
  - apply length_replicate.
  - apply length_mread.
  - intros i x y Hi. rewrite mread_lookup, lookup_replicate_2 by done. by intros [= <-] [= <-].
Qed.

Lemma sb_image_ibp : sint_at sb_image 32 8 = ibp_of ki kb.
Proof.
  pose proof (ly_sb _ _ _ sb_image_layout) as H. apply (f_equal i_blocks_ptr) in H. exact H.
Qed.

Lemma sb_image_ibm : sint_at sb_image 16 8 = 48.
Proof.
  pose proof (ly_sb _ _ _ sb_image_layout) as H. apply (f_equal i_bitmap_ptr) in H. exact H.
Qed.

Lemma format_bounds :
  0 < ki ∧ 0 < kb ∧ ibp_of ki kb = 48 + 4 * ki + 4 * kb ∧
  size_of ki kb = ibp_of ki kb + 16384 * ki + 16384 * kb ∧ size_of ki kb < 2 ^ 40.
Proof. destruct Hfits as (? & ? & ? & ?). unfold size_of, dbp_of, ibp_of, dbm_of. lia. Qed.

Lemma write_root_ok e : write_root e (State sb_image 0) = Ok tt (State (root_image e) 0).
Proof.
  pose proof format_bounds as (? & ? & Hr & Hs & _).
  enough (wp (write_root e) (λ _ s, s = State (root_image e) 0) (State sb_image 0)) as H'.
  { by apply wp_ok in H' as ([] & ? & -> & ->). }
  unfold write_root, ld_i_blocks_ptr, ld_i_bitmap_ptr.
  assert (msize sb_image = size_of ki kb) as Hsz by done.
  wp_load. simpl the_mem. rewrite sb_image_ibp. set (r := ibp_of ki kb) in *.
  unfold ino_size, ino_nlinks, ino_atim, ino_mtim, ino_ctim.
  do 9 wp_store. wp_load. simpl the_mem. mem_simpl. rewrite sb_image_ibm.
  wp_load. simpl the_mem. mem_simpl.
  assert (sint_at sb_image 48 4 = 0) as ->.
  { unfold sint_at. rewrite uint_at_blank; [done|]. intros. apply mget_sb_image. lia. }
  apply wp_store_int; [apply in_range_iff; cbn; lia|]. done.
Qed.

Lemma root_image_low e a : 52 ≤ a < ibp_of ki kb → mget (root_image e) a = x00.
Proof.
  intros. unfold root_image, mstore, ino_size, ino_nlinks, ino_atim, ino_mtim, ino_ctim.
  rewrite !mget_mwrite_out by (rewrite length_le_encode; lia). apply mget_sb_image. lia.
Qed.

Lemma root_image_layout e : layout ki kb (root_image e).
Proof.
  pose proof format_bounds as (? & ? & ? & _).
  unfold root_image, ino_size, ino_nlinks, ino_atim, ino_mtim, ino_ctim.
  repeat (apply layout_mstore; [unfold sizeof_sb; lia|]). apply sb_image_layout.
Qed.

Lemma root_bits e n :
  0 ≤ n < 32 * ki → bit_at (root_image e) ibm_of n = bool_decide (n = 0).
Proof.
  intros Hn. pose proof format_bounds as (? & ? & ? & _).
  pose proof (word_of_range ibm_of n ki Hn). unfold word_of, ibm_of in *. unfold bit_at.
  destruct (decide (n < 32)).
  - rewrite Z.div_small, Z.mod_small by lia. rewrite Z.mul_0_l, Z.add_0_r.
    unfold root_image. rewrite uint_at_mstore. change (wrapu _ 1) with (Z.shiftl 1 0).
    rewrite shiftl_1_testbit by lia. done.
  - rewrite uint_at_blank, Z.bits_0.
    + symmetry. apply bool_decide_false. lia.
    + assert (1 ≤ n / 32) by (apply Z.div_le_lower_bound; lia).
      intros a ?. apply root_image_low. lia.
Qed.

Lemma root_data_bits e n :
  0 ≤ n < 32 * kb → bit_at (root_image e) (dbm_of ki) n = false.
Proof.
  intros Hn. pose proof format_bounds as (? & ? & ? & _).
  pose proof (word_of_range (dbm_of ki) n kb Hn). unfold word_of, dbm_of in *. unfold bit_at.
  rewrite uint_at_blank, Z.bits_0; [done|]. intros a ?. apply root_image_low. lia.
Qed.

Lemma root_inode_at e :
  0 ≤ e_uid e < 2 ^ 32 → 0 ≤ e_gid e < 2 ^ 32 → - 2 ^ 63 ≤ e_now e < 2 ^ 63 →
  inode_at (root_image e) (ibp_of ki kb) = root_inode e.
Proof.
  intros ???. pose proof format_bounds as (? & ? & ? & _).
  unfold inode_at, root_inode. f_equal; try (unfold root_image, ino_size, ino_nlinks, ino_atim, ino_mtim, ino_ctim; mem_simpl;
    change (8 * Z.of_nat 4) with 32; change (8 * Z.of_nat 8) with 64;
    rewrite ?wraps_small, ?wrapu_small by lia; done).
  change (replicate 8 0) with ((λ _ : Z, 0) <$> seqZ 0 N_BLOCKS).
  apply list_fmap_ext. intros i x Hx%list_elem_of_lookup_2%elem_of_seqZ.
  unfold N_BLOCKS, IND_BLOCK, D_BLOCK in Hx. unfold block_at, sint_at.
  rewrite uint_at_blank; [done|]. unfold ino_block. intros a ?.
  unfold root_image, mstore, ino_size, ino_nlinks, ino_atim, ino_mtim, ino_ctim.
  rewrite !mget_mwrite_out by (rewrite length_le_encode; cbn in *; lia). apply mget_sb_image. lia.
Qed.

End Format.

(** C16: A successful run gives a well-formed empty file system: the two tables have
    the rounded sizes, only inode 0 is taken, every data block is free, and the
    root is an empty directory that [getattr] reports. *)
Theorem mkfs_main_formats e argv disk_img_size d i b :
  7 ≤ Z.of_nat (length argv) → parse_args (tail argv) (Opts None 0 0) = Some (Opts (Some d) i b) →
  0 < i ≤ 2 ^ 21 → 0 < b ≤ 2 ^ 21 →
  filesystem_size (round32 i) (round32 b) ≤ disk_img_size →
  0 ≤ e_uid e < 2 ^ 32 → 0 ≤ e_gid e < 2 ^ 32 → - 2 ^ 63 ≤ e_now e < 2 ^ 63 →
  ∃ m ki kb, mkfs_main e argv disk_img_size = Formatted m ∧
    layout ki kb m ∧ i ≤ 32 * ki < i + 32 ∧ b ≤ 32 * kb < b + 32 ∧
    (∀ n, 0 ≤ n < 32 * ki → bit_at m ibm_of n = bool_decide (n = 0)) ∧
    (∀ n, 0 ≤ n < 32 * kb → bit_at m (dbm_of ki) n = false) ∧
    wfs_getattr [slash] (State m 0) = Ok (0, Some (stat_of 0 (root_inode e))) (State m 0).
Proof.
  intros Hargc Hargs Hi Hb Hsz Hu Hg Ht.
  destruct (round32_spec i) as (ki & Eki & ? & ?); [lia|].
  destruct (round32_spec b) as (kb & Ekb & ? & ?); [lia|].
  assert (fits ki kb) as Hf by (unfold fits; lia).
  exists (root_image ki kb e), ki, kb.
  rewrite Eki, Ekb in Hsz. split; [|split_and!; try lia].
  - unfold mkfs_main. rewrite (proj2 (Z.ltb_ge _ _)) by lia. rewrite Hargs.
    rewrite !(proj2 (Z.leb_gt _ _)) by lia. cbn [orb]. cbv zeta. rewrite Eki, Ekb.
    rewrite (proj2 (Z.ltb_ge disk_img_size _)) by lia.
    rewrite filesystem_size_ok by done.
    rewrite (bind_ok _ _ _ _ _ (write_sb_ok ki kb Hf)), (write_root_ok ki kb Hf). done.
  - by apply root_image_layout.
  - by apply root_bits.
  - by apply root_data_bits.
  - pose proof (root_image_layout ki kb Hf e) as Hly. pose proof (format_bounds ki kb Hf).
    unfold wfs_getattr. erewrite bind_ok by reflexivity. erewrite bind_ok by reflexivity. cbn [Z.ltb Z.compare].
    assert (inode_addressable (root_image ki kb e) 0 = true) as Ha.
    { unfold inode_addressable. rewrite (proj2 (in_range_iff _ _ _)); [done|].
      rewrite (ly_size _ _ _ Hly). unfold sizeof_sb. lia. }
    rewrite (bind_ok _ _ _ _ _ (inode_ptr_ok _ 0 0 Ha)).
    rewrite (inode_addr_layout _ _ _ Hly), Z.mul_0_l, Z.add_0_r.
    erewrite bind_ok; [reflexivity|]. rewrite ld_inode_ok.
    + by rewrite root_inode_at.
    + apply in_range_iff. rewrite (ly_size _ _ _ Hly). unfold sizeof_inode. lia.
Qed.

End WfsMkfs.
