(* ===== verification/WfsCreate.v ===== *)
(** WfsCreate: what [wfs_mknod] and [wfs_mkdir] do: the directory entry, the new
    inode, the bitmap bit and the link count of the parent. *)
From Stdlib Require Import Strings.Byte.
From S2P Require Import Prelude Memory CLib WfsLayout WfsBitmap WfsPath WfsOps WfsInv WfsIO WfsFile WfsWrite WfsMkfs.
Local Open Scope Z_scope.

Module WfsCreate.
Import Wfs CLib WfsBitmap WfsPath WfsOps WfsInv WfsIO WfsFile WfsWrite.

(** * Inodes: encoding *)

Lemma length_inode_bytes x : length (i_blocks x) = 8%nat → length (inode_bytes x) = 120%nat.
Proof.
  intros H. unfold inode_bytes. rewrite !length_app, length_replicate, !length_le_encode.
  assert (length (concat (le_encode 8 <$> i_blocks x)) = 64%nat) as ->; [|done].
  revert H. generalize (i_blocks x). intros l Hl.
  do 8 (destruct l as [|? l]; [done|]). destruct l; [|done]. done.
Qed.

(** The fields of an inode are within the ranges of their C types. *)
Definition inode_fits (x : wfs_inode) : Prop :=
  (- 2 ^ 31 ≤ i_num x < 2 ^ 31) ∧ (0 ≤ i_mode x < 2 ^ 32) ∧ (0 ≤ i_uid x < 2 ^ 32) ∧
  (0 ≤ i_gid x < 2 ^ 32) ∧ (- 2 ^ 63 ≤ i_size x < 2 ^ 63) ∧ (- 2 ^ 31 ≤ i_nlinks x < 2 ^ 31) ∧
  (- 2 ^ 63 ≤ i_atim x < 2 ^ 63) ∧ (- 2 ^ 63 ≤ i_mtim x < 2 ^ 63) ∧
  (- 2 ^ 63 ≤ i_ctim x < 2 ^ 63) ∧ length (i_blocks x) = 8%nat ∧
  Forall (λ b, - 2 ^ 63 ≤ b < 2 ^ 63) (i_blocks x).

(** Fields of a concatenation. *)
Lemma u_field_skip pre bs off n :
  (length pre ≤ off)%nat → u_field (pre ++ bs) off n = u_field bs (off - length pre) n.
Proof. intros. unfold u_field. rewrite drop_app_ge by done. done. Qed.

Lemma u_field_here n z bs : u_field (le_encode n z ++ bs) 0 n = wrapu (8 * Z.of_nat n) z.
Proof.
  unfold u_field. rewrite drop_0, take_app_length'; [apply le_decode_encode|by rewrite length_le_encode].
Qed.

Lemma s_field_skip pre bs off n :
  (length pre ≤ off)%nat → s_field (pre ++ bs) off n = s_field bs (off - length pre) n.
Proof. intros. unfold s_field. by rewrite u_field_skip. Qed.

Lemma s_field_here n z bs : (0 < n)%nat → s_field (le_encode n z ++ bs) 0 n = wraps (8 * Z.of_nat n) z.
Proof. intros. unfold s_field. rewrite u_field_here. apply wraps_wrapu. lia. Qed.

Lemma i64_blocks l :
  Forall (λ b, - 2 ^ 63 ≤ b < 2 ^ 63) l →
  ((λ i, s_field (concat (le_encode 8 <$> l)) (8 * i) 8) <$> seq 0 (length l)) = l.
Proof.
  induction 1 as [|b l Hb Hl IH]; [done|]. cbn [length seq fmap list_fmap concat].
  rewrite s_field_here by lia. f_equal.
  - apply (wraps_small 64); lia.
  - etrans; [|exact IH]. rewrite <- fmap_S_seq, <- list_fmap_compose.
    apply list_fmap_ext. intros i x _. unfold compose.
    rewrite s_field_skip by (rewrite length_le_encode; lia).
    rewrite length_le_encode. f_equal. lia.
Qed.

Lemma inode_of_inode_bytes x : inode_fits x → inode_of_bytes (inode_bytes x) = x.
Proof.
  destruct x as [num mode uid gid size nl at_ mt ct blocks].
  unfold inode_fits; cbn [i_num i_mode i_uid i_gid i_size i_nlinks i_atim i_mtim i_ctim i_blocks].
  intros (? & ? & ? & ? & ? & ? & ? & ? & ? & Hlen & Hb).
  unfold inode_of_bytes, inode_bytes; cbn [i_num i_mode i_uid i_gid i_size i_nlinks i_atim i_mtim i_ctim i_blocks].
  f_equal;
    try (repeat (rewrite ?s_field_skip, ?u_field_skip by (rewrite ?length_le_encode, ?length_replicate; lia);
                 rewrite ?length_le_encode, ?length_replicate; cbn [Nat.sub]);
         rewrite ?s_field_here, ?u_field_here by lia;
         first [apply (wraps_small 32); lia | apply (wrapu_small 32); lia | apply (wraps_small 64); lia]).
  etrans; [|exact (i64_blocks blocks Hb)]. rewrite Hlen.
  apply list_fmap_ext. intros i y _.
  repeat (rewrite s_field_skip by (rewrite ?length_le_encode, ?length_replicate; lia);
          rewrite ?length_le_encode, ?length_replicate).
  f_equal. lia.
Qed.

(** Writing an inode and reading it back. *)
Theorem inode_bytes_roundtrip x : inode_fits x → inode_of_bytes (inode_bytes x) = x.
Proof. apply inode_of_inode_bytes. Qed.

Lemma inode_at_mwrite m p x :
  inode_fits x → inode_at (mwrite m p (inode_bytes x)) p = x.
Proof.
  intros Hx. rewrite <- inode_of_mread, mread_mwrite_eq; [by apply inode_of_inode_bytes|].
  rewrite length_inode_bytes; [done|apply Hx].
Qed.

Lemma inode_at_ext m m' p :
  (∀ a, p ≤ a < p + 120 → mget m' a = mget m a) → inode_at m' p = inode_at m p.
Proof.
  intros H. rewrite <- !inode_of_mread. f_equal. apply mread_ext. intros i Hi. apply H. lia.
Qed.

Lemma cstr_eqb_store m off s :
  Forall (λ c, c ≠ x00) s → cstr_eqb (mwrite m off (s ++ [x00])) off s = true.
Proof.
  intros Hs. apply cstr_eqb_spec. split.
  - rewrite <- (take_mread _ _ (length (s ++ [x00])) (length s)) by (rewrite length_app; simpl; lia).
    rewrite mread_mwrite_eq by done. by rewrite take_app_length.
  - rewrite mget_mwrite_in by (rewrite length_app; simpl; lia).
    rewrite app_nth2 by lia. by rewrite Nat.sub_diag.
Qed.

(** The inode bitmap of a formatted image is searched first-fit. *)
Lemma alloc_inode_ok ki kb m dl :
  layout ki kb m →
  allocate_block ibm_of (32 * ki) (State m dl) = Ok (first_free m ibm_of (32 * ki)) (State m dl).
Proof.
  intros [(? & ? & ? & ?) _ Hsz].
  assert ((32 * ki) ÷ 32 = ki) as Hq by (rewrite Z.mul_comm; apply Z.quot_mul; lia).
  pose proof (wp_allocate_block m dl ibm_of (32 * ki)) as H'. rewrite Hq in H'.
  apply wp_ok in H' as (r & s' & E & -> & ->); [done|lia|].
  apply in_range_iff. rewrite Hsz. unfold size_of, dbp_of, ibp_of, dbm_of, ibm_of in *. lia.
Qed.

(** * Filling a free entry *)
Section Create.
Context (ki kb : Z) (e : env).
Abbreviation layout := (layout ki kb).
Abbreviation ibp := (ibp_of ki kb).
Abbreviation dbp := (dbp_of ki kb).
Definition ino (k : Z) : Z := ibp + k * 512.

Context (m : mem) (dl p dentry mode k : Z) (name : list byte).
Context (Hly : layout m).
Context (Hp : ∃ pn, p = ino pn ∧ 0 ≤ pn < 32 * ki ∧ bit_at m ibm_of pn = true).
Context (Hd : dbp ≤ dentry ∧ dentry + 32 ≤ size_of ki kb).
Context (Hname : Z.of_nat (length name) < MAX_NAME) (Hnul : Forall (λ c, c ≠ x00) name).
Context (Hk : first_in (λ n, negb (bit_at m ibm_of n)) 0 (32 * ki) = Some k).
Context (Hmode : 0 ≤ mode < 2 ^ 32) (Huid : 0 ≤ e_uid e < 2 ^ 32) (Hgid : 0 ≤ e_gid e < 2 ^ 32)
        (Hnow : - 2 ^ 63 ≤ e_now e < 2 ^ 63).

(** The image with the entry filled, then with the inode stored, its bit set and
    the parent's link count incremented. *)
Definition with_entry : mem := mstore (mwrite m dentry (name ++ [x00])) (dentry + MAX_NAME) 4 k.
Definition with_inode : mem := mwrite with_entry (ino k) (inode_bytes (new_inode e k mode)).
Definition filled : mem :=
  let m1 := flip_mem with_inode ibm_of k in
  mstore m1 (ino_nlinks p) 4 (sint_at m1 (ino_nlinks p) 4 + 1).

Lemma create_regions :
  0 < ki ∧ 0 < kb ∧ 16384 * ki < 2 ^ 31 ∧ 16384 * kb < 2 ^ 31 ∧
  48 ≤ word_of ibm_of k ∧ word_of ibm_of k + 4 ≤ ibp ∧
  ibp ≤ p ∧ p + 512 ≤ dbp ∧ ibp ≤ ino k ∧ ino k + 512 ≤ dbp ∧
  (p + 512 ≤ ino k ∨ ino k + 512 ≤ p) ∧ msize m = size_of ki kb ∧ 0 ≤ k < 32 * ki ∧
  bit_at m ibm_of k = false ∧ 48 < ibp ∧ ibp < dbp ∧ dbp < size_of ki kb.
Proof.
  pose proof Hly as [(? & ? & ? & ?) _ Hsz].
  pose proof (first_in_spec (λ n, negb (bit_at m ibm_of n)) 0 (32 * ki)) as Hf.
  rewrite Hk in Hf. destruct Hf as (Hkr & Hfree%negb_true_iff & _).
  destruct Hp as (pn & -> & Hpn & Hset).
  assert (k ≠ pn) by (intros ->; congruence).
  pose proof (word_of_range ibm_of k ki Hkr). unfold ino, ibm_of, size_of, dbp_of, ibp_of, dbm_of in *.
  repeat match goal with |- _ ∧ _ => split end; try lia; done.
Qed.

Lemma new_inode_fits : inode_fits (new_inode e k mode).
Proof.
  pose proof create_regions. unfold inode_fits, new_inode. cbn.
  repeat match goal with |- _ ∧ _ => split end; try lia; try done.
  repeat constructor; lia.
Qed.

Lemma length_new_inode : length (inode_bytes (new_inode e k mode)) = 120%nat.
Proof. by apply length_inode_bytes. Qed.

Lemma fill_dentry_ok :
  fill_dentry e p dentry mode name (State m dl) = Ok 0 (State filled dl).
Proof.
  pose proof create_regions as (? & ? & ? & ? & ? & ? & ? & ? & ? & ? & ? & Hsz & ? & ? & ? & ? & ?).
  pose proof length_new_inode as Hli. unfold MAX_NAME in *.
  unfold fill_dentry. rewrite (bind_ok _ _ _ _ _ (ld_i_bitmap_ptr_ok ki kb m dl Hly)).
  rewrite (bind_ok _ _ _ _ _ (ld_num_inodes_ok ki kb m dl Hly)).
  rewrite i32_small by lia.
  rewrite (bind_ok _ _ _ _ _ (alloc_inode_ok _ _ _ _ Hly)). unfold first_free. rewrite Hk.
  cbn [default from_option id]. destruct (Z.eqb_spec k (-1)); [lia|]. cbv zeta.
  erewrite bind_ok.
  2:{ apply store_bytes_ok. cbn [the_mem state_mem disk]. rewrite length_app. apply in_range_iff. cbn [length]. lia. }
  cbn [the_mem with_mem state_mem disk dentry_loc]. erewrite bind_ok.
  2:{ apply store_int_ok. cbn [the_mem state_mem disk]. apply in_range_iff. cbn. unfold MAX_NAME. lia. }
  cbn [the_mem with_mem state_mem disk dentry_loc]. fold with_entry.
  assert (layout with_entry) as Hly1.
  { unfold with_entry. apply layout_mstore; [unfold sizeof_sb, MAX_NAME; lia|].
    apply layout_mwrite; [unfold sizeof_sb; lia|done]. }
  assert (inode_addressable with_entry k = true) as Hia.
  { unfold inode_addressable, BLOCK_SIZE, sizeof_sb.
    rewrite (layout_range _ _ _ Hly1), (proj2 (Z.leb_le _ _)), (proj2 (Z.ltb_lt _ _)) by lia. done. }
  rewrite (bind_ok _ _ _ _ _ (inode_ptr_ok _ dl k Hia)).
  rewrite (inode_addr_layout _ _ _ Hly1). fold (ino k).
  erewrite bind_ok.
  2:{ apply store_bytes_ok. cbn [the_mem state_mem disk]. rewrite Hli. apply in_range_iff.
      change (msize with_entry) with (msize m). cbn. lia. }
  cbn [the_mem with_mem state_mem disk dentry_loc]. fold with_inode.
  assert (layout with_inode) as Hly2 by (apply layout_mwrite; [unfold sizeof_sb; lia|done]).
  rewrite (bind_ok _ _ _ _ _ (ld_i_bitmap_ptr_ok ki kb _ dl Hly2)).
  erewrite bind_ok.
  2:{ apply flip_bit_ok; [lia|]. apply in_range_iff. change (msize with_inode) with (msize m). lia. }
  erewrite bind_ok.
  2:{ apply load_sint_ok. cbn [the_mem state_mem disk]. apply in_range_iff. unfold ino_nlinks.
      change (msize (flip_mem with_inode ibm_of k)) with (msize m). cbn. lia. }
  erewrite bind_ok; [reflexivity|]. rewrite store_int_ok; [reflexivity|].
  cbn [the_mem state_mem disk]. apply in_range_iff. unfold ino_nlinks.
  change (msize (flip_mem with_inode ibm_of k)) with (msize m). cbn. lia.
Qed.

(** What is true of the image afterwards. *)
Lemma filled_entry : cstr_eqb filled dentry name = true ∧ sint_at filled (dentry + MAX_NAME) 4 = k.
Proof.
  pose proof create_regions as (? & ? & ? & ? & ? & ? & ? & ? & ? & ? & ? & Hsz & ? & ? & ? & ? & ?).
  pose proof length_new_inode as Hli. unfold MAX_NAME in *.
  assert (∀ a, dbp ≤ a → mget filled a = mget with_entry a) as Hsame.
  { intros a ?. unfold filled, mstore. rewrite mget_mwrite_out by (rewrite length_le_encode; unfold ino_nlinks; lia).
    rewrite flip_mem_other by lia. apply mget_mwrite_out. rewrite Hli. cbn. lia. }
  split.
  - destruct (cstr_eqb_ext filled (mwrite m dentry (name ++ [x00])) dentry name) as [-> _].
    + intros a ?. rewrite Hsame by lia. unfold with_entry, mstore, MAX_NAME.
      apply mget_mwrite_out. lia.
    + by apply cstr_eqb_store.
  - unfold sint_at, uint_at. rewrite (mread_ext filled with_entry (dentry + 28) (dentry + 28)).
    2:{ intros i Hi. apply Hsame. lia. }
    change (sint_at with_entry (dentry + 28) 4 = k). unfold with_entry, MAX_NAME.
    rewrite sint_at_mstore by lia. apply (wraps_small 32); lia.
Qed.

Lemma filled_inode : inode_at filled (ino k) = new_inode e k mode.
Proof.
  pose proof create_regions as (? & ? & ? & ? & ? & ? & ? & ? & ? & ? & ? & Hsz & ? & ? & ? & ? & ?).
  rewrite (inode_at_ext with_inode).
  - apply inode_at_mwrite, new_inode_fits.
  - intros a ?. unfold filled, mstore.
    rewrite mget_mwrite_out by (rewrite length_le_encode; unfold ino_nlinks; lia).
    apply flip_mem_other. lia.
Qed.

Lemma filled_bit n : 0 ≤ n < 32 * ki → bit_at filled ibm_of n = bit_at m ibm_of n || bool_decide (n = k).
Proof.
  pose proof create_regions as (? & ? & ? & ? & ? & ? & ? & ? & ? & ? & ? & Hsz & ? & Hfree & ? & ? & ?).
  pose proof length_new_inode as Hli. unfold MAX_NAME in *.
  intros Hn. pose proof (word_of_range ibm_of n ki Hn) as [_ ?].
  assert (ibm_of + 4 * ki < ibp) by (unfold ibp_of, dbm_of, ibm_of; lia).
  unfold filled, mstore. rewrite bit_at_mwrite_ne by (unfold ino_nlinks; lia).
  rewrite bit_at_flip by lia. unfold with_inode. rewrite bit_at_mwrite_ne by lia.
  unfold with_entry, mstore. rewrite !bit_at_mwrite_ne by (unfold MAX_NAME; lia).
  case_bool_decide; [subst; by rewrite Hfree|]. by rewrite xorb_false_r, orb_false_r.
Qed.

Lemma filled_data a : dbp ≤ a → ¬ (dentry ≤ a < dentry + 32) → mget filled a = mget m a.
Proof.
  pose proof create_regions as (? & ? & ? & ? & ? & ? & ? & ? & ? & ? & ? & Hsz & ? & ? & ? & ? & ?).
  pose proof length_new_inode as Hli. unfold MAX_NAME in *.
  intros ? ?. unfold filled, mstore.
  rewrite mget_mwrite_out by (rewrite length_le_encode; unfold ino_nlinks; lia).
  rewrite flip_mem_other by lia. unfold with_inode. rewrite mget_mwrite_out by (rewrite Hli; cbn; lia).
  unfold with_entry, mstore. rewrite mget_mwrite_out by (rewrite length_le_encode; unfold MAX_NAME; lia).
  apply mget_mwrite_out. rewrite length_app. cbn [length]. lia.
Qed.

(** In the area of the inodes only the new inode and the link count of the parent
    change. *)
Lemma filled_inodes a : ibp ≤ a → a < dbp → ¬ (ino k ≤ a < ino k + 120) → ¬ (ino_nlinks p ≤ a < ino_nlinks p + 4) → mget filled a = mget m a.
Proof.
  pose proof create_regions as (? & ? & ? & ? & ? & ? & ? & ? & ? & ? & ? & Hsz & ? & ? & ? & ? & ?).
  pose proof length_new_inode as Hli. unfold MAX_NAME in *.
  intros ? ? ? ?. unfold filled, mstore. rewrite mget_mwrite_out by (rewrite length_le_encode; lia).
  rewrite flip_mem_other by lia. unfold with_inode. rewrite mget_mwrite_out by (rewrite Hli; lia).
  unfold with_entry, mstore. rewrite mget_mwrite_out by (rewrite length_le_encode; unfold MAX_NAME; lia).
  apply mget_mwrite_out. rewrite length_app. cbn [length]. lia.
Qed.

Lemma filled_links : sint_at filled (ino_nlinks p) 4 = i32 (sint_at m (ino_nlinks p) 4 + 1).
Proof.
  pose proof create_regions as (? & ? & ? & ? & ? & ? & ? & ? & ? & ? & ? & Hsz & ? & ? & ? & ? & ?).
  pose proof length_new_inode as Hli. unfold MAX_NAME in *.
  unfold filled. cbv zeta. rewrite sint_at_mstore by lia. change (8 * Z.of_nat 4) with 32. fold (i32 (sint_at m (ino_nlinks p) 4 + 1)).
  unfold i32. do 2 f_equal. unfold ino_nlinks. unfold flip_mem, with_inode, with_entry, MAX_NAME.
  rewrite sint_at_mstore_ne by (cbn; lia). rewrite sint_at_mwrite_ne by (rewrite Hli; cbn; lia).
  rewrite sint_at_mstore_ne by (cbn; lia). apply sint_at_mwrite_ne. rewrite length_app. cbn. lia.
Qed.

Lemma filled_layout : layout filled.
Proof.
  pose proof create_regions as (? & ? & ? & ? & ? & ? & ? & ? & ? & ? & ? & Hsz & ? & ? & ? & ? & ?).
  unfold filled. apply layout_mstore; [unfold sizeof_sb, ino_nlinks; lia|].
  apply layout_flip; [unfold sizeof_sb; lia|]. unfold with_inode.
  apply layout_mwrite; [unfold sizeof_sb; lia|]. unfold with_entry.
  apply layout_mstore; [unfold sizeof_sb, MAX_NAME; lia|]. apply layout_mwrite; [unfold sizeof_sb; lia|done].
Qed.

Lemma filled_parent i : 0 ≤ i < N_BLOCKS → block_at filled p i = block_at m p i.
Proof.
  pose proof create_regions as (? & ? & ? & ? & ? & ? & ? & ? & ? & ? & ? & Hsz & ? & ? & ? & ? & ?).
  pose proof length_new_inode as Hli. unfold MAX_NAME, N_BLOCKS, IND_BLOCK, D_BLOCK in *.
  intros ?. unfold block_at, filled, flip_mem, with_inode, with_entry, ino_block, ino_nlinks, MAX_NAME.
  rewrite !sint_at_mstore_ne by (cbn; lia).
  rewrite sint_at_mwrite_ne by (rewrite Hli; cbn; lia).
  rewrite !sint_at_mstore_ne by (cbn; lia).
  apply sint_at_mwrite_ne. cbn. lia.
Qed.

End Create.

(** * The whole operation *)
Section Spec.
Context (ki kb : Z) (e : env).
Abbreviation layout := (layout ki kb).
Abbreviation ibp := (ibp_of ki kb).
Abbreviation dbp := (dbp_of ki kb).
Abbreviation dbm := (dbm_of ki).
Abbreviation data_block := (data_block ki kb).

(** The first unused entry of a directory block. *)
Definition free_entry (m : mem) (b : Z) : option Z :=
  first_in (λ j, dentry_num m b j =? 0) 0 DENTRIES_PER_BLOCK.
Definition free_inode_num (m : mem) : option Z :=
  first_in (λ n, negb (bit_at m ibm_of n)) 0 (32 * ki).
(** Use the entry at [d], when there is an inode left. *)
Definition fill_spec (m : mem) (p d mode : Z) (name : list byte) : Z * mem :=
  match free_inode_num m with
  | None => (- ENOSPC, m)
  | Some k => (0, filled ki kb e m p d mode k name)
  end.

(** User and group ids and the clock are within their types. *)
Definition env_ok : Prop :=
  0 ≤ e_uid e < 2 ^ 32 ∧ 0 ≤ e_gid e < 2 ^ 32 ∧ - 2 ^ 63 ≤ e_now e < 2 ^ 63.

(** What creating [name] in the directory whose inode is at [p] does: the first
    block pointer that is null or leads to a block with an unused entry decides. *)
Definition create_spec (m : mem) (p mode : Z) (name : list byte) : Z * mem :=
  let usable i := (block_at m p i =? 0) || bool_decide (is_Some (free_entry m (block_at m p i))) in
  match first_in usable 0 (D_BLOCK + 1) with
  | None => (- ENOSPC, m)
  | Some i =>
      let b := block_at m p i in
      if b =? 0 then
        match free_block_num ki kb m with
        | None => (- ENOSPC, m)
        | Some d => fill_spec (assigned ki kb m (ino_block p i) d) p (data_block d) mode name
        end
      else fill_spec m p (dentry_at b (default 0 (free_entry m b))) mode name
  end.

(** A directory the file system maintains: its inode is in use, its block
    pointers are null or lead to data blocks, and free data blocks are zero. *)
Record dir_ok (m : mem) (p : Z) : Prop := {
  dir_layout : layout m;
  dir_inode : ∃ n, p = ibp + n * 512 ∧ 0 ≤ n < 32 * ki ∧ bit_at m ibm_of n = true;
  dir_blocks : ∀ i, 0 ≤ i < IND_BLOCK → block_at m p i = 0 ∨ ∃ j, allocated ki kb m (block_at m p i) j;
  dir_zero : ∀ j, 0 ≤ j < 32 * kb → bit_at m dbm j = false → dentry_num m (data_block j) 0 = 0
}.
Lemma free_entry_range m b j : free_entry m b = Some j → 0 ≤ j < 16 ∧ dentry_num m b j = 0.
Proof.
  intros H. pose proof (first_in_spec (λ j, dentry_num m b j =? 0) 0 DENTRIES_PER_BLOCK) as Hf.
  unfold free_entry in H. rewrite H in Hf. destruct Hf as (? & E%Z.eqb_eq & _).
  change DENTRIES_PER_BLOCK with 16 in *. lia.
Qed.

Lemma ld_dentry_num_ok m dl b j :
  in_range m b 512 = true → 0 ≤ j < 16 →
  ld_dentry_num (dentry_at b j) (State m dl) = Ok (dentry_num m b j) (State m dl).
Proof.
  intros Hr%in_range_iff Hj. unfold ld_dentry_num. rewrite load_sint_ok; [done|].
  cbn [the_mem state_mem disk]. apply in_range_iff.
  unfold dentry_at, sizeof_dentry, MAX_NAME. cbn. lia.
Qed.

Lemma ld_block_ok m dl p i :
  in_range m p 512 = true → 0 ≤ i < IND_BLOCK →
  ld_block p i (State m dl) = Ok (block_at m p i) (State m dl).
Proof.
  intros Hr%in_range_iff Hi. unfold ld_block. rewrite load_sint_ok; [done|].
  cbn [the_mem state_mem disk]. apply in_range_iff.
  unfold ino_block, IND_BLOCK, D_BLOCK in *. cbn. lia.
Qed.

(** The search of one block. *)
Lemma scan_block_ok m dl p i mode name :
  in_range m p 512 = true → 0 ≤ i < IND_BLOCK → in_range m (block_at m p i) 512 = true →
  for_range 0 DENTRIES_PER_BLOCK (λ j,
    let! b := ld_block p i in
    let dentry := dentry_at b j in
    let! num := ld_dentry_num dentry in
    if num =? 0 then
      let! r := fill_dentry e p dentry mode name in ret (Some r)
    else ret None) (State m dl) =
  match free_entry m (block_at m p i) with
  | None => Ok None (State m dl)
  | Some j => bind (fill_dentry e p (dentry_at (block_at m p i) j) mode name)
                (λ r, ret (Some r)) (State m dl)
  end.
Proof.
  intros Hp Hi Hb. rewrite (for_range_first _ (λ j, dentry_num m (block_at m p i) j =? 0)).
  2:{ intros j Hj E. change DENTRIES_PER_BLOCK with 16 in *.
      rewrite (bind_ok _ _ _ _ _ (ld_block_ok m dl p i Hp Hi)). cbv zeta.
      rewrite (bind_ok _ _ _ _ _ (ld_dentry_num_ok m dl _ j Hb Hj)). by rewrite E. }
  fold (free_entry m (block_at m p i)). destruct (free_entry m (block_at m p i)) as [j|] eqn:E; [|done].
  apply free_entry_range in E as [Hj E]. unfold bind at 1.
  rewrite (bind_ok _ _ _ _ _ (ld_block_ok m dl p i Hp Hi)). cbv zeta.
  rewrite (bind_ok _ _ _ _ _ (ld_dentry_num_ok m dl _ j Hb Hj)).
  rewrite (proj2 (Z.eqb_eq _ _) E). unfold bind, ret.
  by destruct (fill_dentry _ _ _ _ _ _).
Qed.

Lemma fill_spec_ok m dl p d mode name :
  layout m → (∃ n, p = ibp + n * 512 ∧ 0 ≤ n < 32 * ki ∧ bit_at m ibm_of n = true) →
  dbp ≤ d ∧ d + 32 ≤ size_of ki kb → Z.of_nat (length name) < MAX_NAME →
  0 ≤ mode < 2 ^ 32 → env_ok →
  fill_dentry e p d mode name (State m dl) =
  Ok (fill_spec m p d mode name).1 (State (fill_spec m p d mode name).2 dl).
Proof.
  intros Hly Hp Hd Hname Hmode (Hu & Hg & Hn). unfold fill_spec, free_inode_num.
  destruct (first_in _ 0 (32 * ki)) as [k|] eqn:Hk; [by apply fill_dentry_ok|].
  pose proof Hly as [(? & ? & ? & ?) _ Hsz].
  unfold fill_dentry. rewrite (bind_ok _ _ _ _ _ (ld_i_bitmap_ptr_ok ki kb m dl Hly)).
  rewrite (bind_ok _ _ _ _ _ (ld_num_inodes_ok ki kb m dl Hly)), i32_small by lia.
  rewrite (bind_ok _ _ _ _ _ (alloc_inode_ok _ _ _ _ Hly)). unfold first_free. by rewrite Hk.
Qed.

(** The image after a block was taken for the null pointer [i]. *)
Lemma assigned_dir m p i d :
  dir_ok m p → 0 ≤ i < IND_BLOCK → 0 ≤ d < 32 * kb →
  let m1 := assigned ki kb m (ino_block p i) d in
  layout m1 ∧ block_at m1 p i = data_block d ∧
  (∀ n, 0 ≤ n < 32 * ki → bit_at m1 ibm_of n = bit_at m ibm_of n) ∧
  (∀ a, dbp ≤ a → mget m1 a = mget m a) ∧
  (∀ a, ibp ≤ a → ¬ (ino_block p i ≤ a < ino_block p i + 8) → mget m1 a = mget m a).
Proof.
  intros [Hly (n & -> & Hn & _) _ _] Hi Hd. cbv zeta. pose proof Hly as [(? & ? & ? & ?) _ _].
  pose proof (word_of_range dbm d kb Hd). unfold IND_BLOCK, D_BLOCK in *.
  assert (48 + 4 * ki = dbm ∧ dbm + 4 * kb = ibp ∧ ibp + 16384 * ki = dbp) as (? & ? & ?)
    by (unfold dbp_of, ibp_of, dbm_of; lia).
  unfold assigned. split_and!.
  - apply layout_flip; [unfold sizeof_sb; lia|]. apply layout_mstore; [unfold sizeof_sb, ino_block; lia|done].
  - unfold block_at, flip_mem. rewrite sint_at_mstore_ne by (unfold ino_block; cbn; lia).
    rewrite sint_at_mstore by lia. change (8 * Z.of_nat 8) with 64.
    unfold WfsInv.data_block in *. apply wraps_small; lia.
  - intros k Hk. pose proof (word_of_range ibm_of k ki Hk). unfold ibm_of in *.
    unfold flip_mem, mstore. rewrite !bit_at_mwrite_ne by (rewrite ?length_le_encode; unfold ino_block; lia). done.
  - intros a Ha. rewrite flip_mem_other by lia. unfold mstore.
    apply mget_mwrite_out. rewrite length_le_encode. unfold ino_block. lia.
  - intros a Ha Hs. rewrite flip_mem_other by lia. unfold mstore.
    apply mget_mwrite_out. rewrite length_le_encode. lia.
Qed.

Lemma dir_range m p : dir_ok m p → in_range m p 512 = true.
Proof.
  intros [Hly (n & -> & Hn & _) _ _]. pose proof Hly as [(? & ? & ? & ?) _ Hsz].
  apply in_range_iff. rewrite Hsz. unfold size_of, dbp_of, ibp_of, dbm_of. lia.
Qed.

Lemma data_block_in m j : layout m → 0 ≤ j < 32 * kb → in_range m (data_block j) 512 = true.
Proof.
  intros [(? & ? & ? & ?) _ Hsz] Hj. apply in_range_iff. rewrite Hsz.
  unfold WfsInv.data_block, size_of, dbp_of, ibp_of, dbm_of. lia.
Qed.

Lemma dentry_num_ext m m' b j :
  (∀ a, b + 32 * j ≤ a → mget m' a = mget m a) → dentry_num m' b j = dentry_num m b j.
Proof.
  intros H. unfold dentry_num, sint_at, uint_at. do 2 f_equal. apply mread_ext.
  intros i Hi. apply H. unfold dentry_at, sizeof_dentry, MAX_NAME. lia.
Qed.

Section Run.
Context (m : mem) (p mode : Z) (name : list byte).
Context (Hdir : dir_ok m p) (Henv : env_ok) (Hmode : 0 ≤ mode < 2 ^ 32).
Context (Hname : Z.of_nat (length name) < MAX_NAME).

Lemma create_in_used_block dl i :
  0 ≤ i < IND_BLOCK → block_at m p i ≠ 0 →
  create_in_block e p mode name i (State m dl) =
  match free_entry m (block_at m p i) with
  | None => Ok None (State m dl)
  | Some j => let r := fill_spec m p (dentry_at (block_at m p i) j) mode name in
              Ok (Some r.1) (State r.2 dl)
  end.
Proof.
  intros Hi Hb. pose proof (dir_range _ _ Hdir) as Hp. pose proof Hdir as [Hly Hino Hblk _].
  destruct (Hblk i Hi) as [?|(d & Ed & Hd & _)]; [done|].
  assert (in_range m (block_at m p i) 512 = true) as Hbr by (rewrite Ed; by apply data_block_in).
  unfold create_in_block. rewrite (bind_ok _ _ _ _ _ (ld_block_ok m dl p i Hp Hi)).
  destruct (Z.eqb_spec (block_at m p i) 0); [done|]. erewrite bind_ok by reflexivity. cbn [negb].
  rewrite scan_block_ok by done. destruct (free_entry m (block_at m p i)) as [j|] eqn:Ej; [|done].
  apply free_entry_range in Ej as [Hj _].
  erewrite bind_ok; [reflexivity|]. apply fill_spec_ok; try done.
  rewrite Ed. unfold dentry_at, sizeof_dentry, size_of, WfsInv.data_block. lia.
Qed.

Lemma create_in_new_block dl i :
  0 ≤ i < IND_BLOCK → block_at m p i = 0 →
  create_in_block e p mode name i (State m dl) =
  let r := match free_block_num ki kb m with
           | None => (- ENOSPC, m)
           | Some d => fill_spec (assigned ki kb m (ino_block p i) d) p (data_block d) mode name
           end in
  Ok (Some r.1) (State r.2 dl).
Proof.
  intros Hi Hb. pose proof (dir_range _ _ Hdir) as Hp. pose proof Hdir as [Hly Hino Hblk Hz].
  unfold create_in_block. rewrite (bind_ok _ _ _ _ _ (ld_block_ok m dl p i Hp Hi)).
  rewrite (proj2 (Z.eqb_eq _ _) Hb).
  assert (is_slot ki kb (ino_block p i)) as Hs.
  { destruct Hino as (n & -> & Hn & _). unfold is_slot, ino_block, size_of, dbp_of, IND_BLOCK, D_BLOCK in *.
    pose proof Hly as [(? & ? & _) _ _]. lia. }
  unfold bind at 1. rewrite (assign_block_eq _ _ _ _ _ Hly Hs).
  destruct (free_block_num ki kb m) as [d|] eqn:E; [|done]. cbn [negb].
  apply free_block_num_spec in E as [Hd Hfree].
  destruct (assigned_dir m p i d Hdir Hi Hd) as (Hl1 & Hb1 & Hbit & Hdata & Hmeta).
  set (m1 := assigned ki kb m (ino_block p i) d) in *.
  assert (in_range m1 p 512 = true) as Hp1.
  { apply in_range_iff. apply in_range_iff in Hp. by rewrite (ly_size _ _ _ Hl1), <- (ly_size _ _ _ Hly). }
  rewrite scan_block_ok; [|done|done|rewrite Hb1; by apply data_block_in]. rewrite Hb1.
  assert (free_entry m1 (data_block d) = Some 0) as ->.
  { symmetry. apply first_in_eq. change DENTRIES_PER_BLOCK with 16. split_and!; [lia..| |intros; lia].
    apply Z.eqb_eq. rewrite (dentry_num_ext m); [by apply Hz|]. intros a Ha. apply Hdata.
    unfold WfsInv.data_block in Ha. lia. }
  replace (dentry_at (data_block d) 0) with (data_block d) by (unfold dentry_at; lia).
  erewrite bind_ok; [reflexivity|]. apply fill_spec_ok; try done.
  - destruct Hino as (n & ? & ? & Hset). exists n. by rewrite Hbit.
  - unfold size_of, WfsInv.data_block. lia.
Qed.

Lemma create_loop_ok dl :
  bind (for_range 0 (D_BLOCK + 1) (create_in_block e p mode name)) (λ r, ret (default (- ENOSPC) r))
    (State m dl) =
  Ok (create_spec m p mode name).1 (State (create_spec m p mode name).2 dl).
Proof.
  unfold create_spec. set (usable := λ i : Z, _). unfold bind at 1.
  rewrite (for_range_first _ usable).
  2:{ intros j Hj [Hz Hfull]%orb_false_iff. apply Z.eqb_neq in Hz.
      rewrite create_in_used_block by (done || unfold IND_BLOCK; lia).
      destruct (free_entry m (block_at m p j)) eqn:E; [|done].
      rewrite bool_decide_true in Hfull by eauto. done. }
  pose proof (first_in_spec usable 0 (D_BLOCK + 1)) as Hf.
  destruct (first_in usable 0 (D_BLOCK + 1)) as [i|]; [|done].
  destruct Hf as (Hi & Hu & _). destruct (Z.eqb_spec (block_at m p i) 0) as [Hz|Hz].
  - unfold bind at 1. by rewrite create_in_new_block.
  - unfold bind at 1. rewrite create_in_used_block by done. unfold usable in Hu.
    rewrite (proj2 (Z.eqb_neq _ _) Hz), orb_false_l in Hu. apply bool_decide_eq_true in Hu as [j ->]. done.
Qed.
End Run.

(** What is true after a successful creation: inode [k] was free, is now in use
    and holds the new object; entry [j] of block [i] of the directory names it;
    the directory has one link more; no other bit of the inode bitmap, no other
    inode and no byte of the data area outside that entry changed; a lookup in that
    block finds the new entry unless the name was already there. *)
Record created (m m' : mem) (p mode : Z) (name : list byte) (i j k : Z) : Prop := {
  cr_index : 0 ≤ i < IND_BLOCK ∧ 0 ≤ j < 16 ∧ 0 ≤ k < 32 * ki;
  cr_layout : layout m';
  cr_free : bit_at m ibm_of k = false;
  cr_unused : block_at m p i ≠ 0 → dentry_num m (block_at m p i) j = 0;
  cr_name : dentry_is m' (block_at m' p i) name j = true;
  cr_num : dentry_num m' (block_at m' p i) j = k;
  cr_inode : inode_at m' (ibp + k * 512) = new_inode e k mode;
  cr_bits : ∀ n, 0 ≤ n < 32 * ki → bit_at m' ibm_of n = bit_at m ibm_of n || bool_decide (n = k);
  cr_links : sint_at m' (ino_nlinks p) 4 = i32 (sint_at m (ino_nlinks p) 4 + 1);
  cr_inodes : ∀ n a, 0 ≤ n < 32 * ki → n ≠ k → ibp + n * 512 ≠ p → ibp + n * 512 ≤ a < ibp + n * 512 + 512 → mget m' a = mget m a;
  cr_data : ∀ a, dbp ≤ a → ¬ (dentry_at (block_at m' p i) j ≤ a < dentry_at (block_at m' p i) j + 32) →
            mget m' a = mget m a;
  cr_lookup : (∀ j', 0 ≤ j' < j → dentry_is m (block_at m p i) name j' = false) →
              dentry_lookup m' (block_at m' p i) name = k
}.

Lemma fill_spec_created m0 m p i j mode name m' :
  layout m → (∃ n, p = ibp + n * 512 ∧ 0 ≤ n < 32 * ki ∧ bit_at m ibm_of n = true) →
  env_ok → 0 ≤ mode < 2 ^ 32 → Z.of_nat (length name) < MAX_NAME → Forall (λ c, c ≠ x00) name →
  0 ≤ i < IND_BLOCK → 0 ≤ j < 16 → dbp ≤ block_at m p i → block_at m p i + 512 ≤ size_of ki kb →
  (∀ n, 0 ≤ n < 32 * ki → bit_at m ibm_of n = bit_at m0 ibm_of n) →
  (∀ a, ibp ≤ a → ¬ (ino_block p i ≤ a < ino_block p i + 8) → mget m a = mget m0 a) →
  (block_at m0 p i = block_at m p i ∧ dentry_num m0 (block_at m p i) j = 0 ∨
   block_at m0 p i = 0 ∧ j = 0) →
  fill_spec m p (dentry_at (block_at m p i) j) mode name = (0, m') →
  ∃ k, created m0 m' p mode name i j k.
Proof.
  intros Hly Hino (Hu & Hg & Hnow) Hmode Hname Hnul Hi Hj Hb1 Hb2 Hbits Hmeta Hold. unfold fill_spec.
  destruct (free_inode_num m) as [k|] eqn:Hk; [|done]. intros [= <-]. exists k.
  set (b := block_at m p i) in *. set (d := dentry_at b j).
  assert (dbp ≤ d ∧ d + 32 ≤ size_of ki kb) as Hd by (unfold d, dentry_at, sizeof_dentry; lia).
  pose proof (create_regions ki kb m p d k name Hly Hino Hd Hk)
    as (? & ? & ? & ? & ? & ? & ? & ? & ? & ? & ? & Hsz & Hkr & Hfree & ? & ? & ?).
  assert (∀ a, dbp ≤ a → mget m a = mget m0 a) as Hdata.
  { intros a Ha. apply Hmeta; [lia|]. unfold ino_block, IND_BLOCK, D_BLOCK in *. lia. }
  assert (block_at (filled ki kb e m p d mode k name) p i = b) as Eb.
  { apply filled_parent; try done. unfold N_BLOCKS. lia. }
  destruct (filled_entry ki kb e m p d mode k name) as [Hnm Hnum]; [done..|].
  pose proof (λ a, filled_data ki kb e m p d mode k name Hly Hino Hd Hname Hk a) as Hout.
  split; rewrite ?Eb.
  - lia.
  - by apply filled_layout.
  - by rewrite <- Hbits.
  - intros Hnz. destruct Hold as [[-> ?]|[? ->]]; done.
  - exact Hnm.
  - exact Hnum.
  - apply filled_inode; done.
  - intros n Hn. rewrite <- Hbits by done. by apply filled_bit.
  - rewrite filled_links by done. do 2 f_equal. unfold sint_at, uint_at. do 2 f_equal. apply mread_ext. intros a Ha.
    unfold ino_nlinks in *. apply Hmeta; [lia|unfold ino_block, IND_BLOCK, D_BLOCK in *; lia].
  - intros n a Hn Hnk Hnp Ha. pose proof Hino as (pn & Epn & Hpn & Hset). unfold ino in *.
    assert (ibp + 16384 * ki = dbp) by (unfold dbp_of; lia). rewrite filled_inodes by (try done; unfold ino_nlinks, ino; lia).
    apply Hmeta; [lia|]. unfold ino_block, IND_BLOCK, D_BLOCK in *. lia.
  - intros a ? ?. rewrite <- Hdata by done. by apply Hout.
  - intros Hno. unfold dentry_lookup, dentry_slot.
    rewrite <- (first_in_eq _ _ _ (Some j)); [exact Hnum|]. unfold sizeof_dentry.
    split_and!; [lia..|exact Hnm|]. intros j' Hj'. destruct Hold as [[E _]|[_ ->]]; [|lia].
    rewrite <- (Hno j') by lia. rewrite E. unfold dentry_is.
    destruct (cstr_eqb_ext (filled ki kb e m p d mode k name) m0 (dentry_at b j') name) as [-> _]; [|done].
    intros a Ha. unfold MAX_NAME in *. rewrite Hout, Hdata; [done|..];
      unfold d, dentry_at, sizeof_dentry in *; lia.
Qed.

Lemma create_spec_created m p mode name m' :
  dir_ok m p → env_ok → 0 ≤ mode < 2 ^ 32 → Z.of_nat (length name) < MAX_NAME →
  Forall (λ c, c ≠ x00) name → create_spec m p mode name = (0, m') →
  ∃ i j k, created m m' p mode name i j k.
Proof.
  intros Hdir Henv Hmode Hname Hnul. pose proof Hdir as [Hly Hino Hblk _].
  unfold create_spec. set (usable := λ i : Z, _).
  pose proof (first_in_spec usable 0 (D_BLOCK + 1)) as Hf.
  destruct (first_in usable 0 (D_BLOCK + 1)) as [i|]; [|done].
  destruct Hf as (Hi & Hu & _). destruct (Z.eqb_spec (block_at m p i) 0) as [Hz|Hz].
  - destruct (free_block_num ki kb m) as [d|] eqn:Ed; [|done].
    apply free_block_num_spec in Ed as [Hd _].
    destruct (assigned_dir m p i d Hdir Hi Hd) as (Hl1 & Hb1 & Hbit & Hdata & Hmeta).
    replace (data_block d) with (dentry_at (block_at (assigned ki kb m (ino_block p i) d) p i) 0)
      by (rewrite Hb1; unfold dentry_at; lia).
    intros E. exists i, 0. eapply fill_spec_created in E as [k Hc]; [by exists k|try done..].
    + destruct Hino as (n & ? & ? & ?). exists n. by rewrite Hbit.
    + rewrite Hb1. unfold WfsInv.data_block. lia.
    + rewrite Hb1. unfold WfsInv.data_block, size_of. lia.
    + by right.
  - unfold usable in Hu. rewrite (proj2 (Z.eqb_neq _ _) Hz), orb_false_l in Hu.
    apply bool_decide_eq_true in Hu as [j Ej]. rewrite Ej. cbn [default from_option id].
    apply free_entry_range in Ej as [Hj Hn0]. destruct (Hblk i Hi) as [?|(d & Ed & Hd & _)]; [done|].
    intros E. exists i, j. eapply fill_spec_created in E as [k Hc]; [by exists k|try done..].
    + rewrite Ed. unfold WfsInv.data_block. lia.
    + rewrite Ed. unfold WfsInv.data_block, size_of. lia.
    + by left.
Qed.

Lemma lor_mode_range mode b : 0 ≤ mode < 2 ^ 32 → 0 ≤ b < 2 ^ 32 → 0 ≤ Z.lor mode b < 2 ^ 32.
Proof.
  intros Hm Hb. split; [apply Z.lor_nonneg; lia|].
  destruct (decide (Z.lor mode b = 0)) as [->|]; [done|].
  assert (0 ≤ Z.lor mode b) by (apply Z.lor_nonneg; lia).
  apply Z.log2_lt_pow2; [lia|]. rewrite Z.log2_lor by lia.
  assert (∀ x, 0 ≤ x < 2 ^ 32 → Z.log2 x < 32).
  { intros x ?. destruct (decide (x = 0)) as [->|]; [done|]. apply Z.log2_lt_pow2; lia. }
  apply Z.max_lub_lt; auto.
Qed.

(** C6: [wfs_mknod] and [wfs_mkdir] implement [create_spec]: an existing path gives
    [-EEXIST]; otherwise the first unused entry of the parent, or a fresh block
    for its first null pointer, gets the name, and [-ENOSPC] leaves the image as
    it was up to the block taken. *)
Theorem wfs_create_correct m dl path mode :
  let w := walk m (tokens path) 0 0 in
  let name := default [] (last (tokens path)) in
  path_ok m 50 path = true → inode_addressable m w.1 = true →
  dir_ok m (inode_addr m w.1) → env_ok → 0 ≤ mode < 2 ^ 32 →
  tokens path ≠ [] → Z.of_nat (length name) < MAX_NAME →
  ∃ dl',
    (w.2 ≠ -1 → wfs_mknod e path mode (State m dl) = Ok (- EEXIST) (State m dl') ∧
                wfs_mkdir e path mode (State m dl) = Ok (- EEXIST) (State m dl')) ∧
    (w.2 = -1 →
       (let r := create_spec m (inode_addr m w.1) (Z.lor mode S_IFREG) name in
        wfs_mknod e path mode (State m dl) = Ok r.1 (State r.2 dl')) ∧
       (let r := create_spec m (inode_addr m w.1) (Z.lor mode S_IFDIR) name in
        wfs_mkdir e path mode (State m dl) = Ok r.1 (State r.2 dl'))).
Proof.
  intros w name Hpath Ha Hdir Henv Hmode Htok Hname.
  destruct (strcpy_find_ok m dl 50 path Hpath) as [dl' E]. exists dl'.
  assert (last (tokens path) = Some name) as Hlast.
  { unfold name. destruct (last (tokens path)) eqn:El; [done|]. by apply last_None in El. }
  unfold wfs_mknod, wfs_mkdir, create. rewrite !E. clear E. fold w. destruct w as [pn num].
  cbn [fst snd] in *. split; intros Hnum.
  - by destruct (Z.eqb_spec num (-1)).
  - subst num. change (negb (-1 =? -1)) with false. cbv iota zeta.
    rewrite !(bind_ok _ _ _ _ _ (last_component_ok path m dl')), Hlast.
    rewrite !(bind_ok _ _ _ _ _ (inode_ptr_ok m dl' pn Ha)). cbn [of_opt].
    split; (erewrite bind_ok by reflexivity); apply create_loop_ok; try done; by apply lor_mode_range.
Qed.

(** Why a creation may find no room: no inode, no data block for the first null
    pointer, or every block of the directory is there and full. *)
Definition no_room (m : mem) (p : Z) : Prop :=
  free_inode_num m = None ∨ free_block_num ki kb m = None ∨
  ∀ i, 0 ≤ i < D_BLOCK + 1 → block_at m p i ≠ 0 ∧ free_entry m (block_at m p i) = None.

(** What a call that creates [path] may do: [r] is its result, [m'] the image after it. *)
Definition create_outcome (m : mem) (path : list byte) (mode r : Z) (m' : mem) : Prop :=
  let w := walk m (tokens path) 0 0 in
  let p := inode_addr m w.1 in
  (r = 0 ∧ w.2 = -1 ∧ ∃ i j k, created m m' p mode (default [] (last (tokens path))) i j k) ∨
  (r = - EEXIST ∧ w.2 ≠ -1 ∧ m' = m) ∨
  (r = - ENOSPC ∧ w.2 = -1 ∧ no_room m p ∧
   (∀ n, 0 ≤ n < 32 * ki → bit_at m' ibm_of n = bit_at m ibm_of n) ∧ (∀ a, dbp ≤ a → mget m' a = mget m a)).

(** A failed creation has no effect on inodes and entries. *)
Lemma fill_spec_failed m0 m p d mode name :
  (∀ n, 0 ≤ n < 32 * ki → bit_at m ibm_of n = bit_at m0 ibm_of n) →
  (fill_spec m p d mode name).1 = 0 ∨ fill_spec m p d mode name = (- ENOSPC, m) ∧ free_inode_num m0 = None.
Proof.
  intros Hb. unfold fill_spec. destruct (free_inode_num m) eqn:E; [by left|right]. split; [done|].
  rewrite <- E. unfold free_inode_num. symmetry. apply first_in_ext. intros n Hn. by rewrite Hb.
Qed.

Lemma create_spec_failed m p mode name :
  dir_ok m p → (create_spec m p mode name).1 ≠ 0 →
  (create_spec m p mode name).1 = - ENOSPC ∧ no_room m p ∧
  (∀ n, 0 ≤ n < 32 * ki → bit_at (create_spec m p mode name).2 ibm_of n = bit_at m ibm_of n) ∧
  (∀ a, dbp ≤ a → mget (create_spec m p mode name).2 a = mget m a).
Proof.
  intros Hdir. unfold create_spec, no_room. set (usable := λ i : Z, _).
  pose proof (first_in_spec usable 0 (D_BLOCK + 1)) as Hf.
  destruct (first_in usable 0 (D_BLOCK + 1)) as [i|].
  - destruct Hf as (Hi & _ & _). destruct (Z.eqb_spec (block_at m p i) 0) as [Hz|Hz].
    + destruct (free_block_num ki kb m) as [d|] eqn:Ed; [|by auto].
      apply free_block_num_spec in Ed as [Hd _]. destruct (assigned_dir m p i d Hdir Hi Hd) as (_ & _ & Hbit & Hdata & _).
      destruct (fill_spec_failed m _ p (data_block d) mode name Hbit) as [?|[-> ?]]; [done|]. by auto.
    + destruct (fill_spec_failed m m p (dentry_at (block_at m p i) (default 0 (free_entry m (block_at m p i)))) mode name) as [?|[-> ?]];
        [done..|]. by auto.
  - intros _. split_and!; [done| |done|done]. right. right. intros i Hi. specialize (Hf i Hi).
    apply orb_false_iff in Hf as [Hz%Z.eqb_neq Hn%bool_decide_eq_false]. split; [done|]. by apply eq_None_not_Some.
Qed.

Lemma create_outcome_ok m dl path mode :
  let w := walk m (tokens path) 0 0 in
  path_ok m 50 path = true → inode_addressable m w.1 = true → dir_ok m (inode_addr m w.1) → env_ok → 0 ≤ mode < 2 ^ 32 →
  tokens path ≠ [] → Z.of_nat (length (default [] (last (tokens path)))) < MAX_NAME → Forall (λ c, c ≠ x00) (default [] (last (tokens path))) →
  ∃ r m' dl', create e path mode (State m dl) = Ok r (State m' dl') ∧ create_outcome m path mode r m'.
Proof.
  intros w Hpath Ha Hdir Henv Hmode Htok Hname Hnul. unfold create_outcome. destruct (strcpy_find_ok m dl 50 path Hpath) as [dl' E].
  unfold create. rewrite E. clear E. fold w. destruct w as [pn num]. cbn [fst snd] in *.
  destruct (Z.eqb_spec num (-1)) as [->|Hne]; cbn [negb]; [|by eexists _, _, dl'; split; [reflexivity|auto]].
  destruct (last (tokens path)) as [name|] eqn:El; [|by apply last_None in El]. cbn [default from_option id] in *.
  rewrite (bind_ok _ _ _ _ _ (last_component_ok path m dl')), El, (bind_ok _ _ _ _ _ (inode_ptr_ok m dl' pn Ha)). cbn [of_opt].
  erewrite bind_ok by reflexivity. rewrite create_loop_ok by done. eexists _, _, dl'. split; [reflexivity|].
  set (r := create_spec m (inode_addr m pn) mode name). destruct (decide (r.1 = 0)) as [E0|E0]; [left|do 2 right].
  - split_and!; [done|done|]. apply create_spec_created; try done. fold r. rewrite (surjective_pairing r). by rewrite E0.
  - destruct (create_spec_failed m (inode_addr m pn) mode name Hdir E0) as (? & ? & ? & ?). done.
Qed.

End Spec.
End WfsCreate.

(** WfsExamples: a small file system made by mkfs, files created in it, and the
    theorems of the WFS files applied to them. *)
Module WfsExamples.
Import CLib Wfs WfsBitmap WfsPath WfsOps WfsInv WfsIO WfsFile WfsWrite WfsMkfs WfsCreate.

Definition env0 : env := Env 7 0 0.
(** 32 inodes and 32 data blocks. *)
Definition disk0 : mem := root_image 1 1 env0.
Definition after {A} (op : ST state A) (m : mem) : mem :=
  match op (State m 0) with Ok _ s => disk s | Fault => m end.
Definition path_a : list byte := ["/"; "a"]%byte.
Definition hi : list byte := ["h"; "i"]%byte.
(** A file [/a] that holds two bytes. *)
Definition disk1 : mem := after (wfs_mknod env0 path_a 0x1a4) disk0.
Definition disk2 : mem := after (wfs_write env0 path_a hi 2 0) disk1.

(** Discharge a hypothesis at a concrete input. *)
Ltac evaluate := solve [lia | vm_compute; reflexivity | vm_compute; discriminate | cbn; lia | vm_compute; split; first [reflexivity|discriminate]].

Lemma fits0 : fits 1 1.
Proof. split_and!; done. Qed.

Lemma env0_ok : env_ok env0.
Proof. split_and!; done. Qed.

Lemma disk0_block i : 0 ≤ i < 8 → block_at disk0 (ibp_of 1 1) i = 0.
Proof.
  intros Hi. pose proof (f_equal i_blocks (root_inode_at 1 1 fits0 env0 ltac:(done) ltac:(done) ltac:(done))) as E.
  apply (f_equal (λ l, l !! Z.to_nat i)) in E. revert E. cbn [inode_at i_blocks root_inode].
  rewrite list_lookup_fmap, lookup_seqZ_lt by (unfold N_BLOCKS, IND_BLOCK, D_BLOCK; lia).
  rewrite lookup_replicate_2 by lia. cbn [fmap option_fmap option_map]. intros [= E].
  by rewrite Z.add_0_l, Z2Nat.id in E by lia.
Qed.

Lemma disk0_direct_inv : direct_inv 1 1 disk0 (ibp_of 1 1).
Proof.
  split.
  - apply root_image_layout, fits0.
  - unfold dbp_of. lia.
  - intros i Hi. left. apply disk0_block. unfold IND_BLOCK, D_BLOCK in Hi. lia.
  - intros i i' Hi _ _ Hne. destruct Hne. apply disk0_block. unfold IND_BLOCK, D_BLOCK in Hi. lia.
Qed.

Lemma disk0_dir_ok : dir_ok 1 1 disk0 (ibp_of 1 1).
Proof.
  split.
  - apply root_image_layout, fits0.
  - exists 0. split_and!; [lia|lia|lia|]. apply root_bits; [apply fits0|lia].
  - intros i Hi. left. apply disk0_block. unfold IND_BLOCK, D_BLOCK in Hi. lia.
  - intros j Hj _. unfold dentry_num, sint_at. rewrite uint_at_blank; [done|].
    intros a Ha. unfold disk0, root_image, mstore, ino_size, ino_nlinks, ino_atim, ino_mtim, ino_ctim.
    unfold dentry_at, MAX_NAME, sizeof_dentry, data_block, dbp_of in Ha.
    rewrite !mget_mwrite_out by (rewrite length_le_encode; unfold ibp_of, dbm_of in *; lia).
    apply mget_sb_image. unfold ibp_of, dbm_of in *. lia.
Qed.

Lemma allocate_block_first_fit_witness :
  allocate_block 52 32 (State disk0 0) = Ok (first_free disk0 52 32) (State disk0 0).
Proof. apply (allocate_block_first_fit disk0 0 52 32); [lia|reflexivity]. Defined.

Lemma flip_bit_toggles_witness :
  ∃ m', flip_bit_in_bitmap 52 3 (State disk0 0) = Ok 0 (State m' 0) ∧ bit_at m' 52 3 = true.
Proof.
  destruct (flip_bit_toggles disk0 0 52 3) as (m' & E & Hb & _); [lia|reflexivity|].
  exists m'. split; [exact E|]. rewrite Hb by lia. rewrite decide_True by done.
  exact (f_equal negb (root_data_bits 1 1 fits0 env0 3 ltac:(lia))).
Defined.

Lemma flip_bit_involutive_witness :
  ∃ m', bind (flip_bit_in_bitmap 52 3) (λ _, flip_bit_in_bitmap 52 3) (State disk0 0) = Ok 0 (State m' 0) ∧ m' ≡ disk0.
Proof. apply (flip_bit_involutive disk0 0 52 3); [lia|reflexivity]. Defined.

Lemma find_inode_number_by_path_walk_witness :
  ∃ dl', find_inode_number_by_path path_a (State disk0 0) = Ok (0, -1) (State disk0 dl').
Proof.
  destruct (find_inode_number_by_path_walk disk0 0 path_a) as [dl' E]; [vm_compute; reflexivity|].
  exists dl'. rewrite E. vm_compute (walk _ _ _ _). reflexivity.
Defined.

Lemma wfs_read_correct_witness :
  ∃ m dl', wfs_read env0 path_a 10 0 (State disk2 0) = Ok (2, hi) (State m dl').
Proof.
  assert (0 + read_count (sint_at disk2 (ino_size (inode_addr disk2 (resolve disk2 path_a))) 8) 10 0 = 2) as Hcount by (vm_compute; reflexivity).
  destruct (wfs_read_correct env0 disk2 0 path_a 10 0) as [dl' E]; [evaluate..| |].
  { rewrite Hcount. intros k Hk. unfold BLOCK_SIZE. rewrite Z.div_small by lia. vm_compute. reflexivity. }
  match type of E with _ = Ok ?r _ => assert (r = (2, hi)) as Hr by (vm_compute; reflexivity) end.
  rewrite Hr in E. by eexists _, dl'.
Defined.

Lemma wfs_write_direct_correct_witness :
  ∃ r m' dl', wfs_write env0 [slash] hi 2 0 (State disk0 0) = Ok r (State m' dl') ∧
              write_outcome 1 1 disk0 (ibp_of 1 1) 0 hi r m'.
Proof.
  apply (wfs_write_direct_correct 1 1 env0 disk0 0 [slash] hi 0);
    first [exact disk0_direct_inv|evaluate].
Defined.

Lemma write_read_roundtrip_witness :
  ∃ r m', write_inode env0 (ibp_of 1 1) hi 2 0 (State disk0 0) = Ok r (State m' 0) ∧
    (r = 2 → ∃ m'', read_inode env0 (ibp_of 1 1) 2 0 (State m' 0) = Ok (2, hi) (State m'' 0)).
Proof.
  apply (write_read_roundtrip 1 1 env0 env0 disk0 0 (ibp_of 1 1) hi 0);
    first [exact disk0_direct_inv|evaluate].
Defined.

Definition argv0 : list (list byte) :=
  [["m"]; ["-"; "d"]; ["x"]; ["-"; "i"]; ["3"; "2"]; ["-"; "b"]; ["3"; "2"]]%byte.
Lemma mkfs_main_formats_witness :
  ∃ m ki kb, mkfs_main env0 argv0 1000000 = Formatted m ∧ layout ki kb m.
Proof.
  destruct (mkfs_main_formats env0 argv0 1000000 ["x"%byte] 32 32) as (m & ki & kb & E & Hl & _);
    [evaluate..|].
  exists m, ki, kb. split; [exact E|exact Hl].
Defined.

Lemma wfs_create_correct_witness :
  ∃ dl', let r := create_spec 1 1 env0 disk0 (ibp_of 1 1) (Z.lor 0x1a4 S_IFREG) ["a"%byte] in
         wfs_mknod env0 path_a 0x1a4 (State disk0 0) = Ok r.1 (State r.2 dl').
Proof.
  destruct (wfs_create_correct 1 1 env0 disk0 0 path_a 0x1a4) as (dl' & _ & H);
    [evaluate|evaluate|exact disk0_dir_ok|exact env0_ok|evaluate..|].
  exists dl'. destruct H as [H _]; [vm_compute; reflexivity|]. exact H.
Defined.


End WfsExamples.
