(* ===== verification/Ring.v ===== *)
(** Ring: the shared ring buffer of p6 (p6/ring_buffer.c, p6/ring_buffer.h) as a
    transition system.  Any number of threads run [ring_submit] and [ring_get]
    one statement at a time, in any interleaving; the POSIX semaphores and
    mutexes are counters and owners that a step may have to wait for. *)
From S2P Require Import Prelude.
Local Open Scope Z_scope.

Module Ring.

Definition RING_SIZE : Z := 1024.

(** [enum REQUEST_TYPE]: an unsigned integer, which need not be one of the two. *)
Definition PUT : Z := 0.
Definition GET : Z := 1.

Record buffer_descriptor := Bd {
  req_type : Z; k : Z; v : Z; res_off : Z; ready : Z
}.
#[export] Instance buffer_descriptor_eq : EqDecision buffer_descriptor.
Proof. solve_decision. Defined.
Definition bd0 : buffer_descriptor := Bd PUT 0 0 0 0.

(** The fields of [struct ring] that the code uses ([p_tail] and [c_head] are
    never read or written). *)
Record ring := MkRing {
  p_head : Z; c_tail : Z; buffer : list buffer_descriptor;
  sem_not_full : Z; sem_not_empty : Z; s_mutex : option nat; g_mutex : option nat
}.

(** [int init_ring(struct ring *r)] *)
Definition init_ring (r : option ring) : Z * option ring :=
  match r with
  | None => (-1, None)
  | Some r => (0, Some (MkRing (p_head r) (c_tail r) (buffer r) RING_SIZE 0 None None))
  end.

(** The next statement of a thread.  [Out o]: outside both functions, [o] being
    what [ring_get] last stored through its argument. *)
Inductive pc :=
| Out (o : option buffer_descriptor)
| SWait (bd : buffer_descriptor) | SLock (bd : buffer_descriptor) | SStore (bd : buffer_descriptor)
| SAdvance | SUnlock | SPost
| GWait | GLock | GLoad
| GAdvance (bd : buffer_descriptor) | GUnlock (bd : buffer_descriptor) | GPost (bd : buffer_descriptor).

Inductive event := Put (bd : buffer_descriptor) | Got (bd : buffer_descriptor).

(** [ring_submit]: null arguments make it return at once. *)
Definition ring_submit (bd : option buffer_descriptor) : pc :=
  match bd with None => Out None | Some bd => SWait bd end.

(** [ring_get] *)
Definition ring_get (dst_is_null : bool) : pc := if dst_is_null then Out None else GWait.

Definition set_sems (r : ring) (nf ne : Z) : ring :=
  MkRing (p_head r) (c_tail r) (buffer r) nf ne (s_mutex r) (g_mutex r).
Definition set_mutexes (r : ring) (s g : option nat) : ring :=
  MkRing (p_head r) (c_tail r) (buffer r) (sem_not_full r) (sem_not_empty r) s g.
Definition next_index (i : Z) : Z := (u32 (i + 1)) mod RING_SIZE.

(** One statement of thread [t]: [None] when it has to wait (or is outside). *)
Definition exec (t : nat) (r : ring) (p : pc) : option (ring * pc * option event) :=
  match p with
  | Out _ => None
  (* ring_submit *)
  | SWait bd =>
      if 0 <? sem_not_full r
      then Some (set_sems r (sem_not_full r - 1) (sem_not_empty r), SLock bd, None) else None
  | SLock bd =>
      match s_mutex r with
      | None => Some (set_mutexes r (Some t) (g_mutex r), SStore bd, None)
      | Some _ => None
      end
  | SStore bd =>
      Some (MkRing (p_head r) (c_tail r) (<[Z.to_nat (p_head r) := bd]> (buffer r))
              (sem_not_full r) (sem_not_empty r) (s_mutex r) (g_mutex r), SAdvance, Some (Put bd))
  | SAdvance =>
      Some (MkRing (next_index (p_head r)) (c_tail r) (buffer r)
              (sem_not_full r) (sem_not_empty r) (s_mutex r) (g_mutex r), SUnlock, None)
  | SUnlock => Some (set_mutexes r None (g_mutex r), SPost, None)
  | SPost => Some (set_sems r (sem_not_full r) (sem_not_empty r + 1), Out None, None)
  (* ring_get *)
  | GWait =>
      if 0 <? sem_not_empty r
      then Some (set_sems r (sem_not_full r) (sem_not_empty r - 1), GLock, None) else None
  | GLock =>
      match g_mutex r with
      | None => Some (set_mutexes r (s_mutex r) (Some t), GLoad, None)
      | Some _ => None
      end
  | GLoad =>
      let bd := nth (Z.to_nat (c_tail r)) (buffer r) bd0 in
      Some (r, GAdvance bd, Some (Got bd))
  | GAdvance bd =>
      Some (MkRing (p_head r) (next_index (c_tail r)) (buffer r)
              (sem_not_full r) (sem_not_empty r) (s_mutex r) (g_mutex r), GUnlock bd, None)
  | GUnlock bd => Some (set_mutexes r (s_mutex r) None, GPost bd, None)
  | GPost bd => Some (set_sems r (sem_not_full r + 1) (sem_not_empty r), Out (Some bd), None)
  end.

(** The ring and the threads that share it. *)
Record sys := Sys { rg : ring; th : list pc }.

Inductive step : sys → option event → sys → Prop :=
| step_call s t o p :
    th s !! t = Some (Out o) →
    ((∃ bd, p = ring_submit bd) ∨ (∃ b, p = ring_get b)) →
    step s None (Sys (rg s) (<[t := p]> (th s)))
| step_run s t p r' p' ev :
    th s !! t = Some p → exec t (rg s) p = Some (r', p', ev) →
    step s ev (Sys r' (<[t := p']> (th s))).

(** [reach s tr s']: [s'] is reached from [s] with the trace [tr]. *)
Inductive reach (s : sys) : list event → sys → Prop :=
| reach_refl : reach s [] s
| reach_step tr s1 ev s2 :
    reach s tr s1 → step s1 ev s2 → reach s (tr ++ option_list ev) s2.

(** A schedule, executed: which thread calls or runs next. *)
Inductive action := Submit (t : nat) (bd : buffer_descriptor) | Get (t : nat) | Run (t : nat).

Definition act (a : action) (s : sys) : option (option event * sys) :=
  let call t p :=
    match th s !! t with
    | Some (Out _) => Some (None, Sys (rg s) (<[t := p]> (th s)))
    | _ => None
    end in
  match a with
  | Submit t bd => call t (ring_submit (Some bd))
  | Get t => call t (ring_get false)
  | Run t =>
      p ← th s !! t;
      '(r', p', ev) ← exec t (rg s) p;
      Some (ev, Sys r' (<[t := p']> (th s)))
  end.

Fixpoint run (sched : list action) (s : sys) : option (list event * sys) :=
  match sched with
  | [] => Some ([], s)
  | a :: sched =>
      '(ev, s1) ← act a s;
      '(tr, s2) ← run sched s1;
      Some (option_list ev ++ tr, s2)
  end.

(** The mapped region is zeroed before [init_ring]; [n] threads, none in a call. *)
Definition zeroed : ring :=
  MkRing 0 0 (replicate (Z.to_nat RING_SIZE) bd0) 0 0 None None.
Definition start (n : nat) : sys :=
  Sys (default zeroed (init_ring (Some zeroed)).2) (replicate n (Out None)).

(** * Specification: a queue of at most [RING_SIZE] descriptors *)
Fixpoint queue_run (q : list buffer_descriptor) (tr : list event) : option (list buffer_descriptor) :=
  match tr with
  | [] => Some q
  | Put bd :: tr => if Z.of_nat (length q) <? RING_SIZE then queue_run (q ++ [bd]) tr else None
  | Got bd :: tr =>
      match q with
      | [] => None
      | x :: q => if decide (x = bd) then queue_run q tr else None
      end
  end.

(** * Invariant *)

Definition sub_waited (p : pc) : bool := match p with SLock _ | SStore _ => true | _ => false end.
Definition sub_stored (p : pc) : bool := match p with SAdvance | SUnlock | SPost => true | _ => false end.
Definition get_waited (p : pc) : bool := match p with GLock | GLoad => true | _ => false end.
Definition get_loaded (p : pc) : bool :=
  match p with GAdvance _ | GUnlock _ | GPost _ => true | _ => false end.
Definition holds_s (p : pc) : bool := match p with SStore _ | SAdvance | SUnlock => true | _ => false end.
Definition holds_g (p : pc) : bool :=
  match p with GLoad | GAdvance _ | GUnlock _ => true | _ => false end.
Definition at_sadv (p : pc) : bool := match p with SAdvance => true | _ => false end.
Definition at_gadv (p : pc) : bool := match p with GAdvance _ => true | _ => false end.

(** Mutual exclusion: the owner of a mutex is the one thread inside. *)
Definition excl (holds : pc → bool) (owner : option nat) (l : list pc) : Prop :=
  (∀ t p, l !! t = Some p → holds p = true → owner = Some t) ∧
  (∀ t, owner = Some t → ∃ p, l !! t = Some p ∧ holds p = true).

(** After [W] stores and [R] loads the ring holds the queue [q]. *)
Record inv (s : sys) (W R : Z) (q : list buffer_descriptor) : Prop := {
  inv_R : 0 ≤ R;
  inv_len : W - R = Z.of_nat (length q);
  inv_nf : sem_not_full (rg s) = RING_SIZE - (W - R) - count sub_waited (th s) - count get_loaded (th s);
  inv_ne : sem_not_empty (rg s) = W - R - count sub_stored (th s) - count get_waited (th s);
  inv_nf0 : 0 ≤ sem_not_full (rg s);
  inv_ne0 : 0 ≤ sem_not_empty (rg s);
  inv_sx : excl holds_s (s_mutex (rg s)) (th s);
  inv_gx : excl holds_g (g_mutex (rg s)) (th s);
  inv_head : p_head (rg s) = (W - count at_sadv (th s)) mod RING_SIZE;
  inv_tail : c_tail (rg s) = (R - count at_gadv (th s)) mod RING_SIZE;
  inv_buf : length (buffer (rg s)) = Z.to_nat RING_SIZE;
  inv_q : ∀ i x, q !! i = Some x →
          buffer (rg s) !! Z.to_nat ((R + Z.of_nat i) mod RING_SIZE) = Some x
}.

Section Excl.
Context (holds : pc → bool) (l : list pc) (t : nat) (p p' : pc).

Lemma excl_keep owner :
  l !! t = Some p → holds p' = holds p → excl holds owner l → excl holds owner (<[t := p']> l).
Proof.
  intros Ht E [H1 H2]. pose proof (lookup_lt_Some _ _ _ Ht). split.
  - intros t' x. destruct (decide (t' = t)) as [->|].
    + rewrite list_lookup_insert_eq by done. intros [= <-] Hx. apply (H1 t p); [done|congruence].
    + rewrite list_lookup_insert_ne by done. apply H1.
  - intros t' Ho. destruct (decide (t' = t)) as [->|].
    + exists p'. rewrite list_lookup_insert_eq by done. split; [done|].
      destruct (H2 t Ho) as (? & ? & ?). congruence.
    + rewrite list_lookup_insert_ne by done. by apply H2.
Qed.

Lemma excl_acquire :
  l !! t = Some p → holds p' = true → excl holds None l → excl holds (Some t) (<[t := p']> l).
Proof.
  intros Ht Hp' [H1 _]. pose proof (lookup_lt_Some _ _ _ Ht). split.
  - intros t' x. destruct (decide (t' = t)) as [->|]; [done|].
    rewrite list_lookup_insert_ne by done. intros Hx Hh. by pose proof (H1 _ _ Hx Hh).
  - intros ? [= <-]. exists p'. by rewrite list_lookup_insert_eq.
Qed.

Lemma excl_release owner :
  l !! t = Some p → holds p = true → holds p' = false →
  excl holds owner l → excl holds None (<[t := p']> l).
Proof.
  intros Ht Hp Hp' [H1 _]. pose proof (lookup_lt_Some _ _ _ Ht). split; [|done].
  intros t' x. destruct (decide (t' = t)) as [->|].
  - rewrite list_lookup_insert_eq by done. intros [= <-]. congruence.
  - rewrite list_lookup_insert_ne by done. intros Hx Hh.
    pose proof (H1 _ _ Hx Hh). pose proof (H1 _ _ Ht Hp). congruence.
Qed.

(** Only the owner can be at a point of the critical section. *)
Lemma excl_count f owner :
  excl holds owner l → (∀ x, f x = true → holds x = true) → f GWait = false →
  l !! t = Some p → holds p = true → count f l = Z.b2z (f p).
Proof.
  intros [H1 _] Hf E0 Ht Hp. pose proof (lookup_lt_Some _ _ _ Ht).
  pose proof (count_insert f l t p GWait Ht) as E. rewrite E0 in E.
  rewrite (count_zero f (<[t := GWait]> l)) in E; [simpl in E; lia|].
  intros x (t' & Hx)%list_elem_of_lookup. destruct (decide (t' = t)) as [->|].
  - rewrite list_lookup_insert_eq in Hx by done. by injection Hx as <-.
  - rewrite list_lookup_insert_ne in Hx by done.
    destruct (f x) eqn:Ex; [|done]. apply Hf in Ex.
    pose proof (H1 _ _ Hx Ex). pose proof (H1 _ _ Ht Hp). congruence.
Qed.
End Excl.

Lemma next_index_mod x : next_index (x mod RING_SIZE) = (x + 1) mod RING_SIZE.
Proof.
  unfold next_index. pose proof (Z.mod_pos_bound x RING_SIZE ltac:(done)).
  rewrite u32_small by (unfold RING_SIZE in *; lia). by rewrite Zplus_mod_idemp_l.
Qed.

Lemma mod_ne x y : 0 < y - x < RING_SIZE → x mod RING_SIZE ≠ y mod RING_SIZE.
Proof.
  unfold RING_SIZE. intros H E. pose proof (Z.div_mod x 1024 ltac:(lia)).
  pose proof (Z.div_mod y 1024 ltac:(lia)). lia.
Qed.

Definition ctl (p : pc) : Z * Z * Z * Z * Z * Z * bool * bool :=
  (Z.b2z (sub_waited p), Z.b2z (sub_stored p), Z.b2z (get_waited p), Z.b2z (get_loaded p),
   Z.b2z (at_sadv p), Z.b2z (at_gadv p), holds_s p, holds_g p).

Lemma inv_call s W R q t o p :
  inv s W R q → th s !! t = Some (Out o) → ctl p = ctl (Out o) →
  inv (Sys (rg s) (<[t := p]> (th s))) W R q.
Proof.
  intros [] Ht E. unfold ctl in E. injection E as E1 E2 E3 E4 E5 E6 E7 E8.
  split; cbn [rg th]; rewrite ?(count_insert _ _ _ _ p Ht); rewrite ?E1, ?E2, ?E3, ?E4, ?E5, ?E6, ?Z.sub_add;
    try done; eapply excl_keep; done.
Qed.

(** The side conditions of a step that leaves most of the invariant alone. *)
Ltac ring_side Hc :=
  rewrite ?Hc; cbn; rewrite ?Z.sub_0_r, ?Z.add_0_r;
  first [done | lia | split; lia | split; eapply excl_keep; done | idtac ].

Lemma inv_exec s W R q t p r' p' ev :
  inv s W R q → th s !! t = Some p → exec t (rg s) p = Some (r', p', ev) →
  ∃ W' R' q', inv (Sys r' (<[t := p']> (th s))) W' R' q' ∧ queue_run q (option_list ev) = Some q'.
Proof.
  intros Hi Ht He.
  pose proof Hi as [HR Hlen Hnf Hne Hnf0 Hne0 Hsx Hgx Hh Hta Hb Hq].
  assert (∀ f, count f (<[t := p']> (th s)) = count f (th s) - Z.b2z (f p) + Z.b2z (f p')) as Hc
    by (intros; by apply count_insert).
  assert (∀ W R r' q', 0 ≤ R → W - R = Z.of_nat (length q') →
    sem_not_full r' = RING_SIZE - (W - R) - count sub_waited (<[t := p']> (th s)) - count get_loaded (<[t := p']> (th s)) →
    sem_not_empty r' = W - R - count sub_stored (<[t := p']> (th s)) - count get_waited (<[t := p']> (th s)) →
    0 ≤ sem_not_full r' ∧ 0 ≤ sem_not_empty r' →
    excl holds_s (s_mutex r') (<[t := p']> (th s)) ∧ excl holds_g (g_mutex r') (<[t := p']> (th s)) →
    p_head r' = (W - count at_sadv (<[t := p']> (th s))) mod RING_SIZE →
    c_tail r' = (R - count at_gadv (<[t := p']> (th s))) mod RING_SIZE →
    length (buffer r') = Z.to_nat RING_SIZE →
    (∀ i x, q' !! i = Some x → buffer r' !! Z.to_nat ((R + Z.of_nat i) mod RING_SIZE) = Some x) →
    queue_run q (option_list ev) = Some q' →
    ∃ W R q', inv (Sys r' (<[t := p']> (th s))) W R q' ∧ queue_run q (option_list ev) = Some q') as Hmk.
  { intros W' R' r q' ? ? ? ? [? ?] [? ?] ? ? ? ? ?. exists W', R', q'. split; [|done]. split; done. }
  assert (at_sadv p = true ∨ (∃ bd, p = SStore bd) → count at_sadv (th s) = Z.b2z (at_sadv p)) as Hsa.
  { intros Hp. eapply (excl_count holds_s); [exact Hsx|by intros []|done|exact Ht|].
    destruct Hp as [|[? ->]]; [by destruct p|done]. }
  assert (at_gadv p = true ∨ p = GLoad → count at_gadv (th s) = Z.b2z (at_gadv p)) as Hga.
  { intros Hp. eapply (excl_count holds_g); [exact Hgx|by intros []|done|exact Ht|].
    destruct Hp as [| ->]; [by destruct p|done]. }
  pose proof (λ f, count_nonneg f (th s)) as Hnn.
  pose proof (λ f, count_pos f (th s) t p Ht) as Hpos.
  destruct p; cbn [exec] in He; [done|..].
  - destruct (Z.ltb_spec 0 (sem_not_full (rg s))); simplify_eq. apply (Hmk W R _ q); ring_side Hc.
  - destruct (s_mutex (rg s)) eqn:Em; simplify_eq. apply (Hmk W R _ q); ring_side Hc.
    split; [by eapply excl_acquire|by eapply excl_keep].
  - (* the store *)
    simplify_eq. specialize (Hpos sub_waited eq_refl). rewrite Hsa in Hh by eauto. cbn in Hh.
    rewrite Z.sub_0_r in Hh.
    assert (Z.of_nat (length q) < RING_SIZE) as Hroom
      by (pose proof (Hnn sub_waited); pose proof (Hnn get_loaded); lia).
    pose proof (Z.mod_pos_bound W RING_SIZE ltac:(done)).
    apply (Hmk (W + 1) R _ (q ++ [bd])); ring_side Hc.
    + rewrite length_app. simpl. lia.
    + rewrite Hh, Hsa by eauto. f_equal. cbn. lia.
    + by rewrite length_insert.
    + intros i x [Hx|[Hl Hx]]%lookup_app_Some.
      * pose proof (lookup_lt_Some _ _ _ Hx). rewrite list_lookup_insert_ne; [by apply Hq|].
        rewrite Hh. pose proof (mod_ne (R + Z.of_nat i) W ltac:(lia)) as Hm.
        pose proof (Z.mod_pos_bound (R + Z.of_nat i) RING_SIZE ltac:(done)). lia.
      * apply list_lookup_singleton_Some in Hx as [Hz <-].
        replace (R + Z.of_nat i) with W by lia. rewrite Hh. apply list_lookup_insert_eq.
        rewrite Hb. lia.
    + by rewrite (proj2 (Z.ltb_lt _ _)) by done.
  - simplify_eq. rewrite Hsa in Hh by eauto. cbn in Hh. apply (Hmk W R _ q); ring_side Hc.
    rewrite Hh, next_index_mod, Hsa by eauto. f_equal. cbn. lia.
  - simplify_eq. apply (Hmk W R _ q); ring_side Hc.
    split; [by eapply excl_release|by eapply excl_keep].
  - simplify_eq. apply (Hmk W R _ q); ring_side Hc.
  - destruct (Z.ltb_spec 0 (sem_not_empty (rg s))); simplify_eq. apply (Hmk W R _ q); ring_side Hc.
  - destruct (g_mutex (rg s)) eqn:Em; simplify_eq. apply (Hmk W R _ q); ring_side Hc.
    split; [by eapply excl_keep|by eapply excl_acquire].
  - (* the load *)
    simplify_eq. specialize (Hpos get_waited eq_refl). rewrite Hga in Hta by eauto. cbn in Hta.
    rewrite Z.sub_0_r in Hta. destruct q as [|x q].
    { pose proof (Hnn sub_stored). simpl in Hlen. lia. }
    assert (nth (Z.to_nat (c_tail (rg s))) (buffer (rg s)) bd0 = x) as Hx.
    { apply nth_lookup_Some. rewrite Hta. rewrite <- (Hq 0%nat x eq_refl). do 3 f_equal. lia. }
    apply (Hmk W (R + 1) _ q); ring_side Hc.
    + simpl in Hlen. lia.
    + rewrite Hta, Hga by eauto. f_equal. cbn. lia.
    + intros i y Hy. rewrite <- (Hq (S i) y Hy). do 3 f_equal. lia.
    + by rewrite decide_True by done.
  - simplify_eq. rewrite Hga in Hta by eauto. cbn in Hta. apply (Hmk W R _ q); ring_side Hc.
    rewrite Hta, next_index_mod, Hga by eauto. f_equal. cbn. lia.
  - simplify_eq. apply (Hmk W R _ q); ring_side Hc.
    split; [by eapply excl_keep|by eapply excl_release].
  - simplify_eq. apply (Hmk W R _ q); ring_side Hc.
Qed.

Lemma inv_step s W R q ev s' :
  inv s W R q → step s ev s' →
  ∃ W' R' q', inv s' W' R' q' ∧ queue_run q (option_list ev) = Some q'.
Proof.
  intros Hi Hs. destruct Hs as [s t o p Ht Hp|s t p r' p' ev Ht He]; [|eapply inv_exec; eauto].
  exists W, R, q. split; [|done]. eapply inv_call; [done..|].
  destruct Hp as [[[bd|] ->]|[[] ->]]; done.
Qed.

Lemma inv_start n : inv (start n) 0 0 [].
Proof.
  assert (∀ t p, replicate n (Out None) !! t = Some p → p = Out None) as Hr
    by (intros t p Hp; by apply lookup_replicate in Hp as [-> _]).
  assert (∀ f, f (Out None) = false → count f (replicate n (Out None)) = 0) as Hc
    by (intros f Hf; apply count_zero; intros x Hx; by apply elem_of_replicate in Hx as [-> _]).
  split; unfold start; cbn [init_ring snd default from_option id rg th zeroed sem_not_full sem_not_empty
    p_head c_tail buffer s_mutex g_mutex]; rewrite ?Hc; try done.
  - split; [|done]. intros t p Hp. by rewrite (Hr _ _ Hp).
  - split; [|done]. intros t p Hp. by rewrite (Hr _ _ Hp).
Qed.

Lemma queue_run_app q tr1 tr2 :
  queue_run q (tr1 ++ tr2) = queue_run q tr1 ≫= λ q', queue_run q' tr2.
Proof.
  revert q. induction tr1 as [|[bd|bd] tr1 IH]; intros q; simpl; [done| |].
  - destruct (_ <? _); [apply IH|done].
  - destruct q; [done|]. case_decide; [apply IH|done].
Qed.

Lemma inv_reach n tr s :
  reach (start n) tr s → ∃ W R q, inv s W R q ∧ queue_run [] tr = Some q.
Proof.
  induction 1 as [|tr s1 ev s2 _ (W & R & q & Hi & Hq) Hs].
  - exists 0, 0, []. split; [apply inv_start|done].
  - destruct (inv_step _ _ _ _ _ _ Hi Hs) as (W' & R' & q' & Hi' & Hq').
    exists W', R', q'. split; [done|]. by rewrite queue_run_app, Hq.
Qed.

(** C10: Whatever the schedule, the trace of the ring is a trace of the bounded
    queue: nothing is lost, duplicated, reordered or overwritten. *)
Theorem ring_refines_queue n tr s :
  reach (start n) tr s → ∃ q, queue_run [] tr = Some q ∧ Z.of_nat (length q) ≤ RING_SIZE.
Proof.
  intros H. destruct (inv_reach n tr s H) as (W & R & q & Hi & Hq). exists q. split; [done|].
  destruct Hi. pose proof (count_nonneg sub_waited (th s)). pose proof (count_nonneg get_loaded (th s)). lia.
Qed.

(** * Consequences *)

Definition puts (tr : list event) : list buffer_descriptor :=
  omap (λ e, match e with Put bd => Some bd | Got _ => None end) tr.
Definition gots (tr : list event) : list buffer_descriptor :=
  omap (λ e, match e with Got bd => Some bd | Put _ => None end) tr.

Lemma queue_run_fifo q tr q' : queue_run q tr = Some q' → q ++ puts tr = gots tr ++ q'.
Proof.
  revert q. induction tr as [|[bd|bd] tr IH]; intros q; simpl.
  - intros [= ->]. by rewrite app_nil_r.
  - destruct (_ <? _); [|done]. intros H. rewrite <- (IH _ H), <- app_assoc. done.
  - destruct q as [|x q]; [done|]. case_decide as E; [|done]. subst. intros H. simpl.
    by rewrite (IH _ H).
Qed.

(** First in, first out: what was taken out is a prefix of what was put in. *)
Theorem ring_fifo n tr s : reach (start n) tr s → gots tr `prefix_of` puts tr.
Proof.
  intros H. destruct (inv_reach n tr s H) as (W & R & q & _ & Hq). exists q.
  apply (queue_run_fifo [] tr q Hq).
Qed.

(** C11: A producer about to copy a descriptor into the ring and a consumer about to
    copy one out never touch the same slot, at most one thread is at either
    point, and both indices are inside the array. *)
Theorem ring_race_free n tr s t1 t2 p :
  reach (start n) tr s → th s !! t1 = Some p →
  match p with
  | SStore _ =>
      0 ≤ p_head (rg s) < Z.of_nat (length (buffer (rg s))) ∧
      (th s !! t2 = Some GLoad → p_head (rg s) ≠ c_tail (rg s)) ∧
      (∀ bd', th s !! t2 = Some (SStore bd') → t1 = t2)
  | GLoad =>
      0 ≤ c_tail (rg s) < Z.of_nat (length (buffer (rg s))) ∧
      (th s !! t2 = Some GLoad → t1 = t2)
  | _ => True
  end.
Proof.
  intros H Ht. destruct (inv_reach n tr s H) as (W & R & q & Hi & _).
  destruct Hi as [HR Hlen Hnf Hne Hnf0 Hne0 Hsx Hgx Hh Hta Hb _].
  pose proof (λ f, count_nonneg f (th s)) as Hnn. pose proof (λ f, count_pos f (th s)) as Hpos.
  assert (length (buffer (rg s)) = 1024%nat) as Hl by (rewrite Hb; done).
  assert (∀ x, 0 ≤ x mod RING_SIZE < 1024) as Hmod by (intros; by apply Z.mod_pos_bound).
  destruct p; try done.
  - rewrite (excl_count holds_s (th s) t1 (SStore bd) at_sadv _ Hsx) in Hh; [|by intros []|done..].
    split_and!; [rewrite Hh; apply Hmod|rewrite Hh, Hl; apply Hmod| |].
    + intros Ht2. rewrite (excl_count holds_g (th s) t2 GLoad at_gadv _ Hgx) in Hta; [|by intros []|done..].
      rewrite Hh, Hta. cbn. rewrite !Z.sub_0_r. apply not_eq_sym, mod_ne.
      pose proof (Hpos sub_waited t1 _ Ht eq_refl). pose proof (Hpos get_waited t2 _ Ht2 eq_refl).
      pose proof (Hnn get_loaded). pose proof (Hnn sub_stored). lia.
    + intros bd' Ht2. destruct Hsx as [Hx _].
      pose proof (Hx _ _ Ht eq_refl). pose proof (Hx _ _ Ht2 eq_refl). congruence.
  - split; [rewrite Hta, Hl; apply Hmod|]. intros Ht2. destruct Hgx as [Hx _].
    pose proof (Hx _ _ Ht eq_refl). pose proof (Hx _ _ Ht2 eq_refl). congruence.
Qed.

(** C12: No deadlock: when no thread inside the functions can run, every one of them
    waits for the right reason: producers because the queue is full, consumers
    because it is empty. *)
Theorem ring_deadlock_free n tr s :
  reach (start n) tr s →
  (∀ t p, th s !! t = Some p → exec t (rg s) p = None) →
  ∃ q, queue_run [] tr = Some q ∧
  ∀ t p, th s !! t = Some p →
    (∃ o, p = Out o) ∨
    (∃ bd, p = SWait bd) ∧ Z.of_nat (length q) = RING_SIZE ∨
    p = GWait ∧ q = [].
Proof.
  intros H Hbl. destruct (inv_reach n tr s H) as (W & R & q & Hi & Hq). exists q. split; [done|].
  destruct Hi as [HR Hlen Hnf Hne Hnf0 Hne0 Hsx Hgx _ _ _ _].
  assert (∀ t p, th s !! t = Some p → (∃ o, p = Out o) ∨ (∃ bd, p = SWait bd) ∨ p = GWait) as Hwait.
  { intros t p Ht. pose proof (Hbl t p Ht) as He.
    destruct p; cbn [exec] in He; try done; eauto.
    - destruct (s_mutex (rg s)) as [t'|] eqn:Em; [|done]. destruct Hsx as [_ Hx].
      destruct (Hx t' eq_refl) as (p' & Ht' & Hp'). pose proof (Hbl t' p' Ht') as He'. by destruct p'.
    - destruct (g_mutex (rg s)) as [t'|] eqn:Em; [|done]. destruct Hgx as [_ Hx].
      destruct (Hx t' eq_refl) as (p' & Ht' & Hp'). pose proof (Hbl t' p' Ht') as He'. by destruct p'. }
  assert (∀ f : pc → bool, (∀ o, f (Out o) = false) → (∀ bd, f (SWait bd) = false) → f GWait = false →
    count f (th s) = 0) as Hc.
  { intros f H1 H2 H3. apply count_zero. intros x (t & Ht)%list_elem_of_lookup.
    destruct (Hwait t x Ht) as [[? ->]|[[? ->]| ->]]; auto. }
  rewrite !Hc in Hnf, Hne by done.
  intros t p Ht. pose proof (Hbl t p Ht) as He.
  destruct (Hwait t p Ht) as [?|[[bd ->]| ->]]; [by left|right; left|right; right].
  - split; [by eexists|]. cbn [exec] in He. destruct (Z.ltb_spec 0 (sem_not_full (rg s))); [done|]. lia.
  - split; [done|]. cbn [exec] in He. destruct (Z.ltb_spec 0 (sem_not_empty (rg s))); [done|].
    destruct q; [done|]. simpl in Hlen. lia.
Qed.

(** * Running a schedule *)

Lemma act_step a s ev s' : act a s = Some (ev, s') → step s ev s'.
Proof.
  destruct a as [t bd|t|t]; simpl.
  - destruct (th s !! t) as [[]|] eqn:Ht; try done. intros [= <- <-].
    eapply step_call; [done|]. left. by exists (Some bd).
  - destruct (th s !! t) as [[]|] eqn:Ht; try done. intros [= <- <-].
    eapply step_call; [done|]. right. by exists false.
  - destruct (th s !! t) as [p|] eqn:Ht; [|done]. simpl.
    destruct (exec t (rg s) p) as [[[r' p'] ev']|] eqn:He; [|done]. intros [= <- <-].
    by eapply step_run.
Qed.

Lemma run_reach sched s0 tr0 s tr s' :
  reach s0 tr0 s → run sched s = Some (tr, s') → reach s0 (tr0 ++ tr) s'.
Proof.
  revert s tr0 tr. induction sched as [|a sched IH]; intros s tr0 tr Hr; simpl.
  - intros [= <- <-]. by rewrite app_nil_r.
  - destruct (act a s) as [[ev s1]|] eqn:Ha; [|done]. simpl.
    destruct (run sched s1) as [[tr1 s2]|] eqn:Hrun; [|done]. intros [= <- <-].
    rewrite app_assoc. eapply IH; [|done]. eapply reach_step; [done|]. by apply (act_step a).
Qed.

End Ring.
