(* ===== verification/KvStore.v ===== *)
(** KvStore: the key-value server of p6 (p6/kv_store.c): the chained hash table,
    [put] and [get], and what the server does with one request. *)
From S2P Require Import Prelude Memory CLib Ring.
From stdpp Require Import gmap.
From Stdlib Require Import Strings.Byte.
Local Open Scope Z_scope.

Module KvStore.
Import CLib Ring.

(** * Data *)

Record keyvalue_node := Node { n_k : Z; n_v : Z }.

(** [size] is an [int]; [v_head] holds one chain of nodes per index, the head of
    the list first. *)
Record kv_store := Kv { size : Z; v_head : list (list keyvalue_node) }.

(** p6/common.h: [k % table_size] is computed on unsigned 32-bit integers;
    [None] is the division by zero. *)
Definition hash_function (k table_size : Z) : option Z :=
  if u32 table_size =? 0 then None else Some (k mod u32 table_size).

(** * Operations on a chain *)

(** The loop of [put] that looks for the key and replaces its value; [None] when
    the key is not there. *)
Fixpoint replace_value (k v : Z) (l : list keyvalue_node) : option (list keyvalue_node) :=
  match l with
  | [] => None
  | n :: l => if n_k n =? k then Some (Node (n_k n) v :: l) else cons n <$> replace_value k v l
  end.
Definition put_chain (k v : Z) (l : list keyvalue_node) : list keyvalue_node :=
  match replace_value k v l with Some l' => l' | None => Node k v :: l end.

(** The loop of [get]. *)
Fixpoint get_chain (k : Z) (l : list keyvalue_node) : Z :=
  match l with
  | [] => 0
  | n :: l => if n_k n =? k then n_v n else get_chain k l
  end.

(** * The table *)

Definition init_kv_store (n : Z) : kv_store := Kv n (replicate (Z.to_nat n) []).

(** The bucket of a key: the index is an [int]. *)
Definition bucket (k : Z) : ST kv_store (nat * list keyvalue_node) := λ t,
  match hash_function k (size t) with
  | None => Fault
  | Some h =>
      let index := i32 h in
      if index <? 0 then Fault else
      match v_head t !! Z.to_nat index with
      | None => Fault
      | Some l => Ok (Z.to_nat index, l) t
      end
  end.

(** [void put(key_type k, value_type v)] *)
Definition put (k v : Z) : ST kv_store unit :=
  let! (i, l) := bucket k in
  modify (λ t, Kv (size t) (<[i := put_chain k v l]> (v_head t))).

(** [value_type get(key_type k)] *)
Definition get (k : Z) : ST kv_store Z :=
  let! (_, l) := bucket k in ret (get_chain k l).

(** [int free_linked_list(struct keyvalue_node *list)]: the nodes are unlinked
    and freed one by one; what is left is the empty list. *)
Fixpoint free_linked_list (l : list keyvalue_node) : list keyvalue_node :=
  match l with [] => [] | _ :: l => free_linked_list l end.

(** [int free_kv_store()]: afterwards [v_head] is [NULL]. *)
Definition free_kv_store : ST kv_store Z :=
  let! n := gets size in
  do! for_range 0 n (λ i,
    let! heads := gets v_head in
    let! l := of_opt (heads !! Z.to_nat i) in
    do! modify (λ t, Kv (size t) (<[Z.to_nat i := free_linked_list l]> (v_head t))) in
    ret (@None unit)) in
  do! modify (λ t, Kv (size t) []) in
  ret 0.

(** The loop over the arguments of [main]; after the last one comes the null
    pointer, which [atoi] must not be given.  The answer is [(n, s)]. *)
Fixpoint parse_args (argv : list (list byte)) (n s : Z) : option (Z * Z) :=
  match argv with
  | [] => Some (n, s)
  | a :: rest =>
      if bool_decide (a = ["-"; "n"]%byte) then
        match rest with x :: rest => parse_args rest (atoi x) s | [] => None end
      else if bool_decide (a = ["-"; "s"]%byte) then
        match rest with x :: rest => parse_args rest n (atoi x) | [] => None end
      else parse_args rest n s
  end.

(** * The server *)

(** The bytes of a [struct buffer_descriptor], and the offsets of its fields. *)
Definition bd_bytes (bd : buffer_descriptor) : list byte :=
  le_encode 4 (req_type bd) ++ le_encode 4 (k bd) ++ le_encode 4 (v bd) ++
  le_encode 4 (res_off bd) ++ le_encode 4 (ready bd).
Definition bd_v (p : Z) : Z := p + 8.
Definition bd_ready (p : Z) : Z := p + 16.

(** The shared region (offsets from its start) and the table. *)
Record server := Server { shm : mem; table : kv_store }.
#[refine, export] Instance server_mem : HasMem server := {|
  the_mem := shm;
  with_mem := λ m s, Server m (table s);
  the_mem_with := _; with_mem_with := _; with_mem_the := _
|}.
Proof. all: by intros; try destruct s. Defined.

(** Run a table operation on the server's table. *)
Definition on_table {A} (f : ST kv_store A) : ST server A := λ s,
  match f (table s) with Ok a t => Ok a (Server (shm s) t) | Fault => Fault end.

(** The body of the loop of [thread_function], after [ring_get]: [Some (-1)] is
    the return of the thread. *)
Definition serve (bd : buffer_descriptor) : ST server (option Z) :=
  let result := res_off bd in
  do! store_bytes result (bd_bytes bd) in
  let! ok :=
    (if req_type bd =? PUT then do! on_table (put (k bd) (v bd)) in ret true
     else if req_type bd =? GET then
       let! x := on_table (get (k bd)) in
       do! store_int 4 (bd_v result) x in ret true
     else ret false) in
  if negb ok then ret (Some (-1)) else
  do! store_int 4 (bd_ready result) 1 in
  ret None.

(** The requests a server thread gets, one after the other. *)
Fixpoint thread_function (bds : list buffer_descriptor) : ST server (option Z) :=
  match bds with
  | [] => ret None
  | bd :: bds =>
      let! r := serve bd in
      match r with Some x => ret (Some x) | None => thread_function bds end
  end.

(** * Specification: a finite map *)

(** The value a chain gives to a key: the first node decides. *)
Fixpoint chain_lookup (k : Z) (l : list keyvalue_node) : option Z :=
  match l with
  | [] => None
  | n :: l => if n_k n =? k then Some (n_v n) else chain_lookup k l
  end.
Definition index_of (n k : Z) : nat := Z.to_nat (k mod n).

(** The table represents the map [m]: one chain per index, no key twice in a
    chain, every key in the chain its hash selects. *)
Record represents (t : kv_store) (m : gmap Z Z) : Prop := {
  rep_size : 0 < size t < 2 ^ 31;
  rep_heads : length (v_head t) = Z.to_nat (size t);
  rep_nodup : ∀ i l, v_head t !! i = Some l → NoDup (n_k <$> l);
  rep_hash : ∀ i l n, v_head t !! i = Some l → n ∈ l →
             0 ≤ n_k n < 2 ^ 32 ∧ index_of (size t) (n_k n) = i;
  rep_map : ∀ k l, 0 ≤ k < 2 ^ 32 → v_head t !! index_of (size t) k = Some l →
            chain_lookup k l = m !! k;
  rep_vals : map_Forall (λ _ x, 0 ≤ x < 2 ^ 32) m
}.

(** ** Chains *)

Lemma replace_none k v l : replace_value k v l = None ↔ k ∉ n_k <$> l.
Proof.
  induction l as [|n l IH]; simpl; [split; [intros _; apply not_elem_of_nil|done]|].
  rewrite not_elem_of_cons. destruct (Z.eqb_spec (n_k n) k).
  - split; [done|]. intros [? _]. congruence.
  - destruct (replace_value k v l) as [l'|]; simpl.
    + split; [done|]. intros [_ H]. by apply IH in H.
    + split; [|done]. intros _. split; [congruence|]. by apply IH.
Qed.

Lemma replace_keys k v l l' : replace_value k v l = Some l' → n_k <$> l' = n_k <$> l.
Proof.
  revert l'. induction l as [|n l IH]; intros l'; simpl; [done|].
  destruct (Z.eqb_spec (n_k n) k); [by intros [= <-]|].
  destruct (replace_value k v l) as [l0|]; simpl; [|done]. intros [= <-]. simpl. f_equal. by apply IH.
Qed.

Lemma put_chain_keys k v l :
  n_k <$> put_chain k v l = if decide (k ∈ n_k <$> l) then n_k <$> l else k :: (n_k <$> l).
Proof.
  unfold put_chain. destruct (replace_value k v l) as [l'|] eqn:E.
  - rewrite (replace_keys _ _ _ _ E). rewrite decide_True; [done|].
    destruct (decide (k ∈ n_k <$> l)) as [|H]; [done|]. apply (replace_none k v) in H. congruence.
  - apply replace_none in E. by rewrite decide_False.
Qed.

Lemma chain_lookup_put k v l k' :
  chain_lookup k' (put_chain k v l) = if k' =? k then Some v else chain_lookup k' l.
Proof.
  unfold put_chain. destruct (replace_value k v l) as [l'|] eqn:E.
  2:{ simpl. rewrite Z.eqb_sym. done. }
  revert l' E. induction l as [|n l IH]; intros l'; simpl; [done|].
  destruct (Z.eqb_spec (n_k n) k) as [->|Hn].
  - intros [= <-]. simpl. rewrite (Z.eqb_sym k k'). by destruct (k' =? k).
  - destruct (replace_value k v l) as [l0|]; simpl; [|done]. intros [= <-]. simpl.
    destruct (Z.eqb_spec (n_k n) k') as [<-|]; [by rewrite (proj2 (Z.eqb_neq _ _))|].
    by apply IH.
Qed.

Lemma get_chain_lookup k l : get_chain k l = default 0 (chain_lookup k l).
Proof. induction l as [|n l IH]; simpl; [done|]. by destruct (n_k n =? k). Qed.

Lemma put_chain_elem k v l n :
  n ∈ put_chain k v l → n_k n = k ∨ ∃ n', n' ∈ l ∧ n_k n' = n_k n.
Proof.
  intros H. assert (n_k n ∈ n_k <$> put_chain k v l) as Hk by (by apply list_elem_of_fmap_2).
  rewrite put_chain_keys in Hk. case_decide.
  - right. apply list_elem_of_fmap in Hk as (n' & ? & ?). eauto.
  - apply elem_of_cons in Hk as [?|(n' & ? & ?)%list_elem_of_fmap]; [by left|right; eauto].
Qed.

(** ** The table *)

Section Table.
Context (t : kv_store) (m : gmap Z Z) (Hrep : represents t m).

Lemma bucket_ok k :
  0 ≤ k < 2 ^ 32 →
  ∃ l, v_head t !! index_of (size t) k = Some l ∧ bucket k t = Ok (index_of (size t) k, l) t.
Proof.
  intros Hk. destruct Hrep as [Hs Hh _ _ _ _].
  pose proof (Z.mod_pos_bound k (size t) ltac:(lia)).
  destruct (lookup_lt_is_Some_2 (v_head t) (index_of (size t) k)) as [l Hl].
  { rewrite Hh. unfold index_of. lia. }
  exists l. split; [done|]. unfold bucket, hash_function. rewrite u32_small by lia.
  destruct (Z.eqb_spec (size t) 0); [lia|]. rewrite i32_small by lia.
  rewrite (proj2 (Z.ltb_ge _ _)) by lia. fold (index_of (size t) k). by rewrite Hl.
Qed.

Lemma put_ok k v :
  0 ≤ k < 2 ^ 32 → 0 ≤ v < 2 ^ 32 → ∃ t', put k v t = Ok tt t' ∧ size t' = size t ∧ represents t' (<[k := v]> m).
Proof.
  intros Hk Hvr. destruct (bucket_ok k Hk) as (l & Hl & Hb).
  unfold put. rewrite (bind_ok _ _ _ _ _ Hb). eexists. split; [reflexivity|]. split; [done|].
  destruct Hrep as [Hs Hh Hnd Hhash Hm Hv]. pose proof (lookup_lt_Some _ _ _ Hl).
  split; cbn [size v_head].
  - done.
  - by rewrite length_insert.
  - intros i l'. destruct (decide (i = index_of (size t) k)) as [->|].
    + rewrite list_lookup_insert_eq by done. intros [= <-]. rewrite put_chain_keys.
      case_decide; [by eapply Hnd|]. constructor; [done|]. by eapply Hnd.
    + rewrite list_lookup_insert_ne by done. apply Hnd.
  - intros i l' n. destruct (decide (i = index_of (size t) k)) as [->|].
    + rewrite list_lookup_insert_eq by done. intros [= <-] [->|(n' & ? & <-)]%put_chain_elem; [done|].
      by eapply Hhash.
    + rewrite list_lookup_insert_ne by done. apply Hhash.
  - intros k' l' Hk'. destruct (decide (index_of (size t) k' = index_of (size t) k)) as [E|E].
    + rewrite E, list_lookup_insert_eq by done. intros [= <-].
      rewrite chain_lookup_put. destruct (Z.eqb_spec k' k) as [->|].
      * by rewrite lookup_insert_eq.
      * rewrite lookup_insert_ne by done. apply Hm; [done|congruence].
    + rewrite list_lookup_insert_ne by done. intros Hl'.
      rewrite lookup_insert_ne by congruence. by apply Hm.
  - by apply map_Forall_insert_2.
Qed.

Lemma get_ok k : 0 ≤ k < 2 ^ 32 → get k t = Ok (default 0 (m !! k)) t.
Proof.
  intros Hk. destruct (bucket_ok k Hk) as (l & Hl & Hb).
  unfold get. rewrite (bind_ok _ _ _ _ _ Hb). unfold ret. f_equal.
  rewrite get_chain_lookup. f_equal. by apply (rep_map _ _ Hrep).
Qed.
End Table.

Lemma init_ok n : 0 < n < 2 ^ 31 → represents (init_kv_store n) ∅.
Proof.
  intros Hn. unfold init_kv_store. split; cbn [size v_head].
  - done.
  - apply length_replicate.
  - intros i l [-> _]%lookup_replicate. constructor.
  - intros i l x [-> _]%lookup_replicate. by intros ?%not_elem_of_nil.
  - intros k l _ [-> _]%lookup_replicate. by rewrite lookup_empty.
  - apply map_Forall_empty.
Qed.

(** * Properties *)

(** C13: The table is a finite map: [init_kv_store] is the empty map, [put] updates
    it and [get] reads it, with 0 for an absent key. *)
Theorem kv_store_refines_map n k v t m :
  0 < n < 2 ^ 31 → 0 ≤ k < 2 ^ 32 → 0 ≤ v < 2 ^ 32 → represents t m →
  represents (init_kv_store n) ∅ ∧
  (∃ t', put k v t = Ok tt t' ∧ size t' = size t ∧ represents t' (<[k := v]> m)) ∧
  get k t = Ok (default 0 (m !! k)) t.
Proof.
  intros Hn Hk Hv Ht. split_and!; [by apply init_ok|by apply put_ok|by apply get_ok].
Qed.

(** ** A batch of requests *)

Definition valid_bd (m : mem) (bd : buffer_descriptor) : Prop :=
  (req_type bd = PUT ∨ req_type bd = GET) ∧ 0 ≤ k bd < 2 ^ 32 ∧ 0 ≤ v bd < 2 ^ 32 ∧
  0 ≤ res_off bd < 2 ^ 31 ∧ in_range m (res_off bd) 20 = true.

(** The map after a request, and the value that goes into its result. *)
Definition apply_bd (m : gmap Z Z) (bd : buffer_descriptor) : gmap Z Z :=
  if req_type bd =? PUT then <[k bd := v bd]> m else m.
Definition reply_v (m : gmap Z Z) (bd : buffer_descriptor) : Z :=
  if req_type bd =? PUT then v bd else default 0 (m !! k bd).

(** The descriptor at offset [p] of the shared region. *)
Definition bd_at (m : mem) (p : Z) : buffer_descriptor :=
  Bd (uint_at m p 4) (uint_at m (p + 4) 4) (uint_at m (bd_v p) 4)
     (sint_at m (p + 12) 4) (sint_at m (bd_ready p) 4).

Lemma length_bd_bytes bd : length (bd_bytes bd) = 20%nat.
Proof. unfold bd_bytes. by rewrite !length_app, !length_le_encode. Qed.

(** The fields of a descriptor that was copied whole. *)
Lemma uint_at_mwrite_app m p l1 n z l2 :
  uint_at (mwrite m p (l1 ++ le_encode n z ++ l2)) (p + Z.of_nat (length l1)) n =
  wrapu (8 * Z.of_nat n) z.
Proof.
  unfold uint_at. rewrite <- le_decode_encode. f_equal. apply list_eq_same_length with n.
  - by rewrite length_le_encode.
  - apply length_mread.
  - intros i x y Hi. rewrite mread_lookup by done. intros Hx Hy. apply (inj Some) in Hx as <-.
    replace (p + Z.of_nat (length l1) + Z.of_nat i) with (p + Z.of_nat (length l1 + i)) by lia.
    rewrite mget_mwrite_in by (rewrite !length_app, length_le_encode; lia).
    rewrite app_nth2_plus, app_nth1 by (rewrite length_le_encode; lia).
    by apply nth_lookup_Some.
Qed.

Lemma bd_at_mwrite m bd :
  (req_type bd = PUT ∨ req_type bd = GET) → 0 ≤ k bd < 2 ^ 32 → 0 ≤ v bd < 2 ^ 32 →
  0 ≤ res_off bd < 2 ^ 31 →
  let m' := mwrite m (res_off bd) (bd_bytes bd) in
  uint_at m' (res_off bd) 4 = req_type bd ∧ uint_at m' (res_off bd + 4) 4 = k bd ∧
  uint_at m' (bd_v (res_off bd)) 4 = v bd ∧ sint_at m' (res_off bd + 12) 4 = res_off bd.
Proof.
  intros Ht Hk Hv Ho m'. unfold m', bd_bytes, bd_v. set (p := res_off bd).
  assert (0 ≤ req_type bd < 2 ^ 32) by (unfold PUT, GET in Ht; lia).
  split_and!.
  - pose proof (uint_at_mwrite_app m p [] 4) as E. cbn [app length Z.of_nat] in E.
    rewrite Z.add_0_r in E. rewrite E. by apply (wrapu_small 32).
  - rewrite (uint_at_mwrite_app m p (le_encode 4 (req_type bd)) 4). by apply (wrapu_small 32).
  - rewrite (app_assoc (le_encode 4 (req_type bd))).
    rewrite (uint_at_mwrite_app m p (le_encode 4 (req_type bd) ++ le_encode 4 (k bd)) 4).
    by apply (wrapu_small 32).
  - rewrite (app_assoc (le_encode 4 (req_type bd))), (app_assoc (_ ++ _)). unfold sint_at.
    rewrite (uint_at_mwrite_app m p ((le_encode 4 (req_type bd) ++ le_encode 4 (k bd)) ++ le_encode 4 (v bd)) 4).
    rewrite wraps_wrapu by lia. apply (wraps_small 32); unfold p; lia.
Qed.

Lemma reply_range t m bd : represents t m → 0 ≤ v bd < 2 ^ 32 → 0 ≤ reply_v m bd < 2 ^ 32.
Proof.
  intros [_ _ _ _ _ Hv] ?. unfold reply_v. destruct (_ =? _); [done|].
  destruct (m !! k bd) eqn:E; [by apply Hv in E|]. simpl. lia.
Qed.

(** The completion that the client finds. *)
Definition completion (m : gmap Z Z) (bd : buffer_descriptor) : buffer_descriptor :=
  Bd (req_type bd) (k bd) (reply_v m bd) (res_off bd) 1.

Lemma serve_ok bd sh t m :
  represents t m → valid_bd sh bd →
  ∃ sh' t', serve bd (Server sh t) = Ok None (Server sh' t') ∧
    represents t' (apply_bd m bd) ∧ msize sh' = msize sh ∧
    bd_at sh' (res_off bd) = completion m bd ∧
    ∀ a, a < res_off bd ∨ res_off bd + 20 ≤ a → mget sh' a = mget sh a.
Proof.
  intros Hrep (Ht & Hk & Hv & Ho & Hr%in_range_iff).
  pose proof (reply_range _ _ bd Hrep Hv) as Hrv.
  pose proof (bd_at_mwrite sh bd Ht Hk Hv Ho) as (E1 & E2 & E3 & E4).
  pose proof (length_bd_bytes bd) as Hlen.
  unfold serve. erewrite bind_ok.
  2:{ apply store_bytes_ok. cbn [the_mem server_mem shm]. rewrite Hlen. apply in_range_iff. cbn. lia. }
  cbn [the_mem with_mem server_mem shm table]. set (sh1 := mwrite sh (res_off bd) (bd_bytes bd)) in *.
  assert (∃ sh2 t2, (∀ a, a < bd_v (res_off bd) ∨ bd_v (res_off bd) + 4 ≤ a → mget sh2 a = mget sh1 a) ∧
    msize sh2 = msize sh ∧ uint_at sh2 (bd_v (res_off bd)) 4 = reply_v m bd ∧
    represents t2 (apply_bd m bd) ∧
    (if req_type bd =? PUT then do! on_table (put (k bd) (v bd)) in ret true
     else if req_type bd =? GET then
       let! x := on_table (get (k bd)) in
       do! store_int 4 (bd_v (res_off bd)) x in ret true
     else ret false) (Server sh1 t) = Ok true (Server sh2 t2))
    as (sh2 & t2 & Hout2 & Hsz2 & Hv2 & Hrep2 & E).
  { unfold reply_v, apply_bd in *. destruct (Z.eqb_spec (req_type bd) PUT) as [Hp|Hp].
    - destruct (put_ok t m Hrep (k bd) (v bd) Hk Hv) as (t2 & Hput & _ & Hrep2).
      exists sh1, t2. split_and!; [done..|]. erewrite bind_ok; [reflexivity|].
      unfold on_table. cbn [table]. by rewrite Hput.
    - destruct Ht as [?|Ht]; [done|]. rewrite Ht. cbn [GET Z.eqb Pos.eqb].
      exists (mstore sh1 (bd_v (res_off bd)) 4 (default 0 (m !! k bd))), t. split_and!.
      + intros a Ha. apply mget_mwrite_out. rewrite length_le_encode. lia.
      + done.
      + rewrite uint_at_mstore. by apply (wrapu_small 32).
      + done.
      + erewrite bind_ok.
        2:{ unfold on_table. cbn [table]. by rewrite (get_ok t m Hrep (k bd) Hk). }
        erewrite bind_ok; [reflexivity|]. rewrite store_int_ok; [reflexivity|].
        cbn [the_mem server_mem shm]. apply in_range_iff. unfold bd_v. cbn. lia. }
  rewrite (bind_ok _ _ _ _ _ E). cbn [negb]. clear E.
  eexists _, t2. split_and!.
  - erewrite bind_ok; [reflexivity|]. rewrite store_int_ok; [reflexivity|].
    cbn [the_mem server_mem shm]. apply in_range_iff. unfold bd_ready. cbn. lia.
  - done.
  - done.
  - unfold bd_at, completion, bd_ready. cbn [the_mem shm server_mem].
    rewrite !uint_at_mstore_ne, sint_at_mstore_ne by (unfold bd_v; cbn; lia).
    rewrite sint_at_mstore by lia. rewrite Hv2.
    assert (∀ o n, bd_v (res_off bd) + 4 ≤ o ∨ o + Z.of_nat n ≤ bd_v (res_off bd) →
      uint_at sh2 o n = uint_at sh1 o n) as Hu.
    { intros o n Hon. unfold uint_at. f_equal. apply mread_ext. intros i Hi. apply Hout2. lia. }
    unfold sint_at in *. rewrite !Hu by (unfold bd_v; cbn; lia). by rewrite E1, E2, E4.
  - intros a Ha. cbn [the_mem shm server_mem]. unfold mstore, bd_ready.
    rewrite mget_mwrite_out by (rewrite length_le_encode; lia).
    rewrite Hout2 by (unfold bd_v; lia). apply mget_mwrite_out. rewrite Hlen. cbn. lia.
Qed.

(** Requests whose result slots do not overlap. *)
Definition disjoint_slots (bds : list buffer_descriptor) : Prop :=
  ∀ i j a b, bds !! i = Some a → bds !! j = Some b → i ≠ j →
             res_off a + 20 ≤ res_off b ∨ res_off b + 20 ≤ res_off a.

Lemma bd_at_ext m m' p :
  (∀ a, p ≤ a < p + 20 → mget m' a = mget m a) → bd_at m' p = bd_at m p.
Proof.
  intros H. assert (∀ o n, p ≤ o → o + Z.of_nat n ≤ p + 20 → uint_at m' o n = uint_at m o n) as Hu.
  { intros o n ? ?. unfold uint_at. f_equal. apply mread_ext. intros i Hi. apply H. lia. }
  unfold bd_at, sint_at, bd_v, bd_ready. by rewrite !Hu by (cbn; lia).
Qed.

Lemma thread_function_ok bds sh t m :
  represents t m → Forall (valid_bd sh) bds → disjoint_slots bds →
  ∃ sh' t', thread_function bds (Server sh t) = Ok None (Server sh' t') ∧
    represents t' (foldl apply_bd m bds) ∧
    (∀ i bd, bds !! i = Some bd →
       bd_at sh' (res_off bd) = completion (foldl apply_bd m (take i bds)) bd) ∧
    (∀ a, (∀ bd, bd ∈ bds → a < res_off bd ∨ res_off bd + 20 ≤ a) → mget sh' a = mget sh a).
Proof.
  revert sh t m. induction bds as [|bd bds IH]; intros sh t m Hrep Hval Hdis.
  { exists sh, t. split_and!; [done..|]. intros i bd. by destruct i. }
  inversion Hval as [|?? Hv Hvs]; subst.
  destruct (serve_ok bd sh t m Hrep Hv) as (sh1 & t1 & E & Hrep1 & Hsz & Hc & Hout).
  destruct (IH sh1 t1 (apply_bd m bd) Hrep1) as (sh2 & t2 & E2 & Hrep2 & Hc2 & Hout2).
  { eapply Forall_impl; [done|]. intros x (? & ? & ? & ? & Hr).
    unfold valid_bd, in_range in *. by rewrite Hsz. }
  { intros i j a b Ha Hb ?. by apply (Hdis (S i) (S j)); auto. }
  exists sh2, t2. split_and!.
  - cbn [thread_function]. by rewrite (bind_ok _ _ _ _ _ E).
  - done.
  - intros [|i] x; cbn [lookup list_lookup take foldl].
    + intros [= <-]. rewrite <- Hc. apply bd_at_ext. intros a Ha. apply Hout2.
      intros b [j Hj]%list_elem_of_lookup. pose proof (Hdis 0%nat (S j) bd b eq_refl Hj ltac:(done)). lia.
    + intros Hx. by apply Hc2.
  - intros a Ha. rewrite Hout2, Hout; [done|apply Ha; by left|]. intros b Hb. apply Ha. by right.
Qed.

(** C14: The server thread answers every request of a batch: each result slot holds
    a copy of the request with [ready] set and, for a GET, the value the map had
    when the request was served; the table ends as the map after all of them,
    and no other byte of the shared region changes. *)
Theorem server_answers_requests bds sh t m :
  represents t m → Forall (valid_bd sh) bds → disjoint_slots bds →
  ∃ sh' t', thread_function bds (Server sh t) = Ok None (Server sh' t') ∧
    represents t' (foldl apply_bd m bds) ∧
    (∀ i bd, bds !! i = Some bd →
       bd_at sh' (res_off bd) = completion (foldl apply_bd m (take i bds)) bd) ∧
    (∀ a, (∀ bd, bd ∈ bds → a < res_off bd ∨ res_off bd + 20 ≤ a) → mget sh' a = mget sh a).
Proof. apply thread_function_ok. Qed.

(** A request of any other type ends the server thread with [-1]: its slot holds
    the copy of the request, still not ready if it was not, the table and the
    requests that follow are left alone. *)
Theorem server_stops_on_bad_request bd bds sh t :
  req_type bd ≠ PUT → req_type bd ≠ GET → in_range sh (res_off bd) 20 = true →
  thread_function (bd :: bds) (Server sh t) =
  Ok (Some (-1)) (Server (mwrite sh (res_off bd) (bd_bytes bd)) t).
Proof.
  intros Hp Hg Hr. cbn [thread_function]. unfold serve, bind at 1 2.
  rewrite store_bytes_ok by (by rewrite length_bd_bytes).
  cbn [the_mem with_mem server_mem shm table].
  rewrite (proj2 (Z.eqb_neq _ _) Hp), (proj2 (Z.eqb_neq _ _) Hg). done.
Qed.

End KvStore.
