(* ===== verification/Client.v ===== *)
(** Client: the client of the key-value store (p6/client.c): the workload parser,
    the window of requests in flight, the split of the requests among threads
    and the check of the results. *)
From stdpp Require Import gmap relations.
From S2P Require Import Prelude Memory CLib Ring KvStore.
From stdpp Require Import relations.
From Stdlib Require Import Strings.Byte.
Local Open Scope Z_scope.

Module Client.
Import CLib Ring KvStore.

(** * Reading the workload *)

Definition LINE_LEN : Z := 256.
Definition NL : byte := byte_of_Z 10.

(** [struct request]: [t] is a [REQUEST_TYPE]. *)
Record request := Request { r_k : Z; r_v : Z; r_t : Z }.

(** [int get_req_type(char *req_str, enum REQUEST_TYPE *type)]: the result and
    what [*type] was set to. *)
Definition get_req_type (req_str : list byte) : Z * option Z :=
  if bool_decide (req_str = ["p"; "u"; "t"]%byte) then (0, Some PUT)
  else if bool_decide (req_str = ["g"; "e"; "t"]%byte) then (0, Some GET)
  else (-1, None).

(** The C string in a buffer. *)
Fixpoint c_string (s : list byte) : list byte :=
  match s with
  | [] => []
  | c :: s => if bool_decide (c = x00) then [] else c :: c_string s
  end.

(** [requests[index].f = ...] for an array the client owns. *)
Definition set_request (index : Z) (f : request → request) : ST (list request) unit := λ rs,
  if index <? 0 then Fault else
  match rs !! Z.to_nat index with
  | None => Fault
  | Some r => Ok tt (<[Z.to_nat index := f r]> rs)
  end.

(** [int add_line_to_req(char *line, int index)] *)
Definition add_line_to_req (line : list byte) (index : Z) : ST (list request) Z :=
  let copy_line := c_string line in
  let (tok, rest) := strtok " "%byte copy_line in
  match tok with
  | None => ret (-1)
  | Some tok =>
      match get_req_type tok with
      | (_, None) => ret (-1)
      | (_, Some type) =>
          do! set_request index (λ r, Request (r_k r) (r_v r) type) in
          let (tok, rest) := strtok " "%byte rest in
          match tok with
          | None => ret (-1)
          | Some tok =>
              let key := atoi tok in
              do! set_request index (λ r, Request (u32 key) (r_v r) (r_t r)) in
              if type =? PUT then
                let (tok, _) := strtok " "%byte rest in
                match tok with
                | None => ret (-1)
                | Some tok =>
                    let value := atoi tok in
                    do! set_request index (λ r, Request (r_k r) (u32 value) (r_t r)) in
                    ret 0
                end
              else ret 0
          end
      end
  end.

(** A stream: its contents, what is left of them and the end-of-file flag. *)
Record FILE := File { f_all : list byte; f_rest : list byte; f_eof : bool }.

(** At most [n] bytes, through the first newline; the flag tells that the end of
    the file was met. *)
Fixpoint get_line (n : nat) (s : list byte) : list byte * list byte * bool :=
  match n, s with
  | O, _ => ([], s, false)
  | S _, [] => ([], [], true)
  | S n, c :: s =>
      if bool_decide (c = NL) then ([c], s, false)
      else let '(l, r, e) := get_line n s in (c :: l, r, e)
  end.

(** [fgets(line, LINE_LEN, f)]: at the end of the file the buffer stays as it
    is. *)
Definition fgets (line : option (list byte)) (f : FILE) : option (list byte) * FILE :=
  let '(l, r, e) := get_line (Z.to_nat (LINE_LEN - 1)) (f_rest f) in
  (match l with [] => line | _ => Some l end, File (f_all f) r (f_eof f || e)).

(** [int count_lines(FILE *f)]: every turn consumes a byte or meets the end. *)
Definition count_lines (f : FILE) : option (Z * FILE) :=
  match
    loop (length (f_rest f) + 2) (λ nl,
      let! f := gets id in
      if f_eof f then ret (inr nl) else
      do! modify (λ f, (fgets None f).2) in
      let! f := gets id in
      if f_eof f then ret (inr nl) else ret (inl (i32 (nl + 1)))) 0 f
  with
  | Ok nl f => Some (nl, File (f_all f) (f_all f) false)
  | Fault => None
  end.

(** One turn of the loop of [read_input_files]: the loop variables are the
    buffer and [index], the state the stream and the array. *)
Definition read_turn : option (list byte) * Z →
    ST (FILE * list request) ((option (list byte) * Z) + Z) :=
  λ '(line, index) '(f, rs),
    if f_eof f then Ok (inr index) (f, rs) else
    let '(line, f) := fgets line f in
    match line with
    | None => Fault
    | Some l =>
        match add_line_to_req l index rs with
        | Ok r rs => if r <? 0 then Ok (inl (line, index)) (f, rs)
                     else Ok (inl (line, i32 (index + 1))) (f, rs)
        | Fault => Fault
        end
    end.

(** [void read_input_files()] on the contents of the workload file: the value
    of [num_requests], the number of requests stored and the array, whose
    contents [junk] are what [malloc] left there. *)
Definition read_input_files (junk : nat → request) (contents : list byte) :
    option (Z * Z * list request) :=
  match count_lines (File contents contents false) with
  | None => None
  | Some (nl, f) =>
      let requests := junk <$> seq 0 (Z.to_nat nl) in
      match loop (length contents + 2) read_turn (None, 0) (f, requests) with
      | Ok index (_, rs) => Some (nl, index, rs)
      | Fault => None
      end
  end.

(** * The window of a client thread *)

(** [sizeof(struct buffer_descriptor)] and [sizeof(struct ring)]. *)
Definition sizeof_bd : Z := 20.
Definition sizeof_ring : Z := 20928.

(** [struct thread_context]; [reqs] and [res] are the thread's parts of the
    arrays, [comps] its status board in the shared region. *)
Record thread_context := Ctx {
  tid : Z; num_reqs : Z; reqs : list request; res : list buffer_descriptor;
  comps : list buffer_descriptor; win_size : Z; nxt_comp : Z; comp_off : Z
}.

Record client := Client {
  ctx : thread_context; last_completed : Z; last_submitted : Z
}.

(** The descriptor of request [i], submitted as number [sub]. *)
Definition mk_bd (c : thread_context) (r : request) (sub : Z) : buffer_descriptor :=
  Bd (r_t r) (r_k r) (r_v r) (i32 (comp_off c + Z.rem sub (win_size c) * sizeof_bd)) 0.

(** One turn of the loop of [submit_reqs]: the descriptor to submit, or [None]
    when the loop is left. *)
Definition submit_turn (c : client) : option (buffer_descriptor * client) :=
  if negb (last_submitted c - last_completed c <? win_size (ctx c)) then None else
  if num_reqs (ctx c) <=? last_submitted c then None else
  r ← reqs (ctx c) !! Z.to_nat (last_submitted c);
  Some (mk_bd (ctx c) r (last_submitted c),
        Client (ctx c) (last_completed c) (last_submitted c + 1)).

Definition READY : Z := 1.
Definition not_ready (b : buffer_descriptor) : buffer_descriptor :=
  Bd (req_type b) (k b) (v b) (res_off b) 0.

(** One turn of the loop of [process_completions]; [None] when it is left. *)
Definition process_turn (c : client) : option client :=
  let x := ctx c in
  b ← comps x !! Z.to_nat (nxt_comp x);
  if ready b =? READY then
    Some (Client
      (Ctx (tid x) (num_reqs x) (reqs x)
         (<[Z.to_nat (last_completed c) := not_ready b]> (res x))
         (<[Z.to_nat (nxt_comp x) := not_ready b]> (comps x))
         (win_size x) (Z.rem (nxt_comp x + 1) (win_size x)) (comp_off x))
      (last_completed c + 1) (last_submitted c))
  else None.

(** The whole functions, run without interference: the descriptors submitted,
    and the client after all the completions that are there. *)
Fixpoint submit_reqs (fuel : nat) (c : client) : list buffer_descriptor * client :=
  match fuel with
  | O => ([], c)
  | S n => match submit_turn c with
           | None => ([], c)
           | Some (bd, c) => let (bds, c) := submit_reqs n c in (bd :: bds, c)
           end
  end.
Fixpoint process_completions (fuel : nat) (c : client) : client :=
  match fuel with
  | O => c
  | S n => match process_turn c with None => c | Some c => process_completions n c end
  end.

(** ** The protocol between a client thread and the server *)

(** [thread_function]: it submits until the window is full, then processes what
    is there, and so on; then it waits for the last completions. *)
Inductive mode := Submitting | Processing.

(** [queued]: submitted and not yet copied to the status board; [serving]:
    copied there by a server thread and not yet answered. *)
Record proto := Proto {
  cl : client; md : mode;
  queued : list buffer_descriptor; serving : list buffer_descriptor
}.

Definition slot_of (x : thread_context) (bd : buffer_descriptor) : nat :=
  Z.to_nat ((res_off bd - comp_off x) ÷ sizeof_bd).
Definition set_comp (c : client) (i : nat) (b : buffer_descriptor) : client :=
  let x := ctx c in
  Client (Ctx (tid x) (num_reqs x) (reqs x) (res x) (<[i := b]> (comps x))
            (win_size x) (nxt_comp x) (comp_off x)) (last_completed c) (last_submitted c).

(** What the server answers: a PUT keeps its value, a GET gets some value. *)
Definition reply (bd : buffer_descriptor) (x : Z) : buffer_descriptor :=
  Bd (req_type bd) (k bd) (if req_type bd =? GET then x else v bd) (res_off bd) READY.

Inductive pstep : proto → proto → Prop :=
| ps_submit c bd c' q s :
    submit_turn c = Some (bd, c') →
    pstep (Proto c Submitting q s) (Proto c' Submitting (q ++ [bd]) s)
| ps_full c q s :
    submit_turn c = None → pstep (Proto c Submitting q s) (Proto c Processing q s)
| ps_process c c' q s :
    process_turn c = Some c' → pstep (Proto c Processing q s) (Proto c' Processing q s)
| ps_again c q s :
    process_turn c = None →
    pstep (Proto c Processing q s)
          (Proto c (if last_submitted c <? num_reqs (ctx c) then Submitting else Processing) q s)
(* any server thread may take any request that was submitted *)
| ps_copy c md q1 bd q2 s :
    pstep (Proto c md (q1 ++ bd :: q2) s)
          (Proto (set_comp c (slot_of (ctx c) bd) bd) md (q1 ++ q2) (bd :: s))
| ps_answer c md q s1 bd s2 x :
    pstep (Proto c md q (s1 ++ bd :: s2))
          (Proto (set_comp c (slot_of (ctx c) bd) (reply bd x)) md q (s1 ++ s2)).

(** * Starting the threads *)

(** The fields that [start_threads] gives to context [i]: the number of
    requests, the index of the first one, the offset of the status board. *)
Definition start_thread (num_requests num_threads win i : Z) : Z * Z * Z :=
  let reqs_per_th := num_requests ÷ num_threads in
  (reqs_per_th, i * reqs_per_th, sizeof_ring + i * win * sizeof_bd).
Definition start_threads (num_requests num_threads win : Z) : list (Z * Z * Z) :=
  start_thread num_requests num_threads win <$> seqZ 0 num_threads.
Definition shm_size (num_threads win : Z) : Z := sizeof_ring + num_threads * win * sizeof_bd.

(** * Checking the results *)

(** [int check_results(value_type *expected)]: [None] is a read past the end of
    [expected]. *)
Fixpoint check_results (rs : list (request * buffer_descriptor)) (expected : list Z) : option Z :=
  match rs with
  | [] => Some 0
  | (q, b) :: rs =>
      if negb (r_t q =? GET) then check_results rs expected else
      match expected with
      | [] => None
      | e :: expected => if negb (v b =? e) then Some 1 else check_results rs expected
      end
  end.

(** [void read_expected_file(FILE *f, value_type *exp)]: the values stored. *)
Definition read_expected_file (contents : list byte) : option (list Z) :=
  match
    loop (length contents + 2) (λ exp,
      let! f := gets id in
      if f_eof f then ret (inr exp) else
      let '(line, _) := fgets None f in
      do! modify (λ f, (fgets None f).2) in
      let! f := gets id in
      if f_eof f then ret (inr exp) else
      ret (inl (exp ++ [u32 (atoi (c_string (default [] line)))]))) [] (File contents contents false)
  with
  | Ok exp _ => Some exp
  | Fault => None
  end.

(** * The window protocol *)
Section Window.
Context (W num coff : Z) (rs : list request).
Context (HW : 0 < W) (Hnum : num = Z.of_nat (length rs)) (Hn31 : num < 2 ^ 31).
Context (Hoff : 0 ≤ coff) (Hoff31 : coff + W * sizeof_bd < 2 ^ 31).

(** Request [i] as it is submitted. *)
Definition sent (i : Z) : buffer_descriptor :=
  match rs !! Z.to_nat i with
  | Some r => Bd (r_t r) (r_k r) (r_v r) (coff + i mod W * sizeof_bd) 0
  | None => bd0
  end.

Definition index (i : Z) : nat := Z.to_nat (i mod W).

(** [c] requests are completed, [s] submitted; those between wait in the ring
    ([qi]), are being served ([si]) or are answered ([di]). *)
Record window (p : proto) (c s : Z) (qi si di : list Z) : Prop := {
  w_c : last_completed (cl p) = c;
  w_s : last_submitted (cl p) = s;
  w_range : 0 ≤ c ∧ c ≤ s ∧ s ≤ num ∧ s - c ≤ W;
  w_reqs : reqs (ctx (cl p)) = rs;
  w_num : num_reqs (ctx (cl p)) = num;
  w_win : win_size (ctx (cl p)) = W;
  w_off : comp_off (ctx (cl p)) = coff;
  w_nxt : nxt_comp (ctx (cl p)) = c mod W;
  w_comps : length (comps (ctx (cl p))) = Z.to_nat W;
  w_res : length (res (ctx (cl p))) = length rs;
  w_flight : qi ++ si ++ di ≡ₚ seqZ c (s - c);
  w_queued : queued p = sent <$> qi;
  w_serving : serving p = sent <$> si;
  w_board : ∀ j b, comps (ctx (cl p)) !! j = Some b →
    (∃ i x, i ∈ di ∧ index i = j ∧ b = reply (sent i) x) ∨
    (ready b = 0 ∧ ∀ i, i ∈ di → index i ≠ j);
  w_done : ∀ i, 0 ≤ i < c → ∃ x, res (ctx (cl p)) !! Z.to_nat i = Some (not_ready (reply (sent i) x))
}.

Definition windowed (p : proto) : Prop := ∃ c s qi si di, window p c s qi si di.

Lemma flight_range p c s qi si di i :
  window p c s qi si di → i ∈ qi ++ si ++ di → c ≤ i < s.
Proof. intros [] Hi. rewrite w_flight0 in Hi. apply elem_of_seqZ in Hi. lia. Qed.

Lemma index_inj c s i j : s - c ≤ W → c ≤ i < s → c ≤ j < s → index i = index j → i = j.
Proof.
  unfold index. intros ? ? ? E. pose proof (Z.mod_pos_bound i W HW). pose proof (Z.mod_pos_bound j W HW).
  pose proof (Z.div_mod i W). pose proof (Z.div_mod j W).
  assert (i mod W = j mod W) as Em by lia. rewrite Em in *.
  assert (i / W = j / W) by nia. nia.
Qed.

Lemma sent_off p c s qi si di i :
  window p c s qi si di → c ≤ i < s →
  slot_of (ctx (cl p)) (sent i) = index i ∧ (index i < length (comps (ctx (cl p))))%nat.
Proof.
  intros [] Hi. pose proof (Z.mod_pos_bound i W HW).
  destruct (lookup_lt_is_Some_2 rs (Z.to_nat i)) as [r Hr]; [lia|].
  unfold slot_of, sent, index. rewrite Hr, w_off0. cbn [res_off]. split; [|lia].
  f_equal. replace (coff + i mod W * sizeof_bd - coff) with (i mod W * sizeof_bd) by lia.
  by apply Z.quot_mul.
Qed.

Lemma flight_nodup p c s qi si di : window p c s qi si di → NoDup (qi ++ si ++ di).
Proof. intros []. rewrite w_flight0. apply NoDup_seqZ. Qed.

(** A store of the server into the slot of a request in flight. *)
Lemma board_insert p c s qi si di di' i b :
  window p c s qi si di → c ≤ i < s → i ∉ di →
  (di' = di ∧ ready b = 0 ∨ di' = i :: di ∧ ∃ x, b = reply (sent i) x) →
  ∀ j b', <[index i := b]> (comps (ctx (cl p))) !! j = Some b' →
    (∃ i x, i ∈ di' ∧ index i = j ∧ b' = reply (sent i) x) ∨
    (ready b' = 0 ∧ ∀ i, i ∈ di' → index i ≠ j).
Proof.
  intros Hw Hi Hni Hcase j b'. pose proof (sent_off _ _ _ _ _ _ _ Hw Hi) as [_ Hlt].
  pose proof (λ i', flight_range _ _ _ _ _ _ i' Hw) as Hr. pose proof Hw as [].
  assert (∀ i', i' ∈ di → index i' ≠ index i) as Hne.
  { intros i' Hi' E. assert (c ≤ i' < s) by (apply Hr; rewrite !elem_of_app; auto).
    apply (index_inj c s) in E; [congruence|lia..]. }
  destruct (decide (j = index i)) as [->|Hj].
  - rewrite list_lookup_insert_eq by done. intros [= <-].
    destruct Hcase as [[-> Hz]|[-> [x ->]]].
    + right. split; [done|]. apply Hne.
    + left. exists i, x. split_and!; [by left|done|done].
  - rewrite list_lookup_insert_ne by done. intros Hb.
    destruct (w_board0 j b' Hb) as [(i' & x & ? & ? & ?)|[? Hn]].
    + left. exists i', x. split_and!; [|done|done]. destruct Hcase as [[-> _]|[-> _]]; [done|by right].
    + right. split; [done|]. destruct Hcase as [[-> _]|[-> _]]; [done|].
      intros i' [->|?]%elem_of_cons; [done|by apply Hn].
Qed.

Lemma window_submit c0 bd c' q s0 :
  submit_turn c0 = Some (bd, c') → windowed (Proto c0 Submitting q s0) →
  windowed (Proto c' Submitting (q ++ [bd]) s0).
Proof.
  intros Ht (c & s & qi & si & di & Hw). pose proof Hw as [].
  unfold submit_turn in Ht. cbn [cl queued serving] in *.
  destruct (Z.ltb_spec (last_submitted c0 - last_completed c0) (win_size (ctx c0))); [|done].
  destruct (Z.leb_spec (num_reqs (ctx c0)) (last_submitted c0)); [done|]. cbn [negb] in Ht.
  destruct (reqs (ctx c0) !! Z.to_nat (last_submitted c0)) as [r|] eqn:Er; [|done]. simplify_eq/=.
  exists (last_completed c0), (last_submitted c0 + 1), (qi ++ [last_submitted c0]), si, di.
  split; cbn [cl queued serving ctx last_completed last_submitted]; try done.
  - lia.
  - replace (last_submitted c0 + 1 - last_completed c0)
      with (last_submitted c0 - last_completed c0 + 1) by lia.
    rewrite seqZ_app by lia. cbn.
    replace (last_completed c0 + (last_submitted c0 - last_completed c0)) with (last_submitted c0) by lia.
    rewrite <- w_flight0. solve_Permutation.
  - rewrite fmap_app. f_equal. cbn. f_equal. unfold sent, mk_bd. rewrite <- w_reqs0, Er.
    pose proof (Z.mod_pos_bound (last_submitted c0) W HW).
    rewrite w_win0, w_off0, Z.rem_mod_nonneg by lia. unfold sizeof_bd in *. rewrite i32_small by nia. done.
Qed.

Lemma window_process c0 c' q s0 :
  process_turn c0 = Some c' → windowed (Proto c0 Processing q s0) →
  windowed (Proto c' Processing q s0).
Proof.
  intros Ht (c & s & qi & si & di & Hw). pose proof Hw as []. pose proof (flight_range _ _ _ _ _ _ c Hw).
  pose proof (λ i', flight_range _ _ _ _ _ _ i' Hw) as Hr. pose proof (flight_nodup _ _ _ _ _ _ Hw) as Hnd.
  unfold process_turn in Ht. cbn [cl queued serving] in *.
  destruct (comps (ctx c0) !! Z.to_nat (nxt_comp (ctx c0))) as [b|] eqn:Eb; [|done]. simpl in Ht.
  destruct (Z.eqb_spec (ready b) READY) as [Hrd|]; [|done]. simplify_eq/=.
  rewrite w_nxt0 in Eb. fold (index (last_completed c0)) in Eb.
  destruct (w_board0 _ _ Eb) as [(i & x & Hi & E & ->)|[Hz _]]; [|by rewrite Hz in Hrd].
  assert (last_completed c0 ≤ i < last_submitted c0) as Hir by (apply Hr; rewrite !elem_of_app; auto).
  apply (index_inj (last_completed c0) (last_submitted c0)) in E; [|lia..]. subst i.
  set (c := last_completed c0) in *.
  apply list_elem_of_split in Hi as (d1 & d2 & ->).
  exists (c + 1), (last_submitted c0), qi, si, (d1 ++ d2).
  assert (c ∉ d1 ++ d2) as Hcn.
  { apply NoDup_app in Hnd as (_ & _ & Hnd). apply NoDup_app in Hnd as (_ & _ & Hnd).
    rewrite (Permutation_middle d1 d2 c) in Hnd || rewrite <- (Permutation_middle d1 d2 c) in Hnd.
    by apply NoDup_cons in Hnd as [? _]. }
  split; cbn [cl queued serving ctx last_completed last_submitted comps res reqs num_reqs win_size comp_off nxt_comp]; try done.
  - lia.
  - rewrite w_nxt0, w_win0. pose proof (Z.mod_pos_bound c W HW). rewrite Z.rem_mod_nonneg by lia.
    by rewrite Zplus_mod_idemp_l.
  - by rewrite length_insert.
  - by rewrite length_insert.
  - apply (Permutation_cons_inv (a := c)).
    replace (last_submitted c0 - c) with (Z.succ (last_submitted c0 - (c + 1))) in w_flight0 by lia.
    rewrite seqZ_cons in w_flight0 by lia. rewrite Z.pred_succ in w_flight0.
    change (Z.succ c) with (c + 1) in w_flight0. rewrite <- w_flight0. solve_Permutation.
  - rewrite w_nxt0. fold (index c). intros j b. destruct (decide (j = index c)) as [->|Hj].
    + rewrite list_lookup_insert_eq by (apply lookup_lt_Some in Eb; done). intros [= <-]. right.
      split; [done|]. intros i Hi E.
      assert (c ≤ i < last_submitted c0) by (apply Hr; rewrite !elem_of_app, elem_of_cons in *; tauto || (rewrite elem_of_app in Hi; tauto)).
      apply (index_inj c (last_submitted c0)) in E; [congruence|lia..].
    + rewrite list_lookup_insert_ne by done. intros Hb.
      destruct (w_board0 j b Hb) as [(i & y & Hi & E & ?)|[? Hn]].
      * left. exists i, y. split_and!; [|done|done].
        rewrite elem_of_app, elem_of_cons in Hi. rewrite elem_of_app.
        destruct Hi as [?|[->|?]]; [tauto|congruence|tauto].
      * right. split; [done|]. intros i Hi. apply Hn. rewrite elem_of_app, elem_of_cons.
        rewrite elem_of_app in Hi. tauto.
  - intros i Hi. destruct (decide (i = c)) as [->|].
    + exists x. apply list_lookup_insert_eq. lia.
    + rewrite list_lookup_insert_ne by lia. apply w_done0. lia.
Qed.

Lemma sent_ready i : ready (sent i) = 0.
Proof. unfold sent. by destruct (rs !! Z.to_nat i). Qed.

(** The server copies request [i] to its slot, or answers it. *)
Lemma window_store p c s qi si di q' s' qi' si' di' i b :
  window p c s qi si di → c ≤ i < s → i ∉ di →
  (di' = di ∧ ready b = 0 ∨ di' = i :: di ∧ ∃ x, b = reply (sent i) x) →
  qi' ++ si' ++ di' ≡ₚ qi ++ si ++ di → q' = sent <$> qi' → s' = sent <$> si' →
  windowed (Proto (set_comp (cl p) (slot_of (ctx (cl p)) (sent i)) b) (md p) q' s').
Proof.
  intros Hw Hi Hni Hcase Hperm -> ->. pose proof (sent_off _ _ _ _ _ _ _ Hw Hi) as [-> _].
  exists c, s, qi', si', di'. pose proof (board_insert _ _ _ _ _ _ di' i b Hw Hi Hni Hcase).
  destruct Hw. split; cbn [cl set_comp ctx last_completed last_submitted comps res reqs num_reqs
    win_size comp_off nxt_comp queued serving]; try done.
  - by rewrite length_insert.
  - by rewrite Hperm.
Qed.

Lemma window_step p p' : pstep p p' → windowed p → windowed p'.
Proof.
  intros Hs Hwd. destruct Hs as [c bd c' q s Ht|c q s Ht|c c' q s Ht|c q s Ht|c md q1 bd q2 s|c md q s1 bd s2 x].
  - by eapply window_submit.
  - destruct Hwd as (c1 & s1 & qi & si & di & []). exists c1, s1, qi, si, di. by split.
  - by eapply window_process.
  - destruct Hwd as (c1 & s1 & qi & si & di & []). exists c1, s1, qi, si, di. by split.
  - destruct Hwd as (c0 & s0 & qi & si & di & Hw). pose proof (w_queued _ _ _ _ _ _ Hw) as Eq.
    pose proof (w_serving _ _ _ _ _ _ Hw) as Es. cbn [queued serving] in *.
    symmetry in Eq. apply fmap_app_inv in Eq as (a1 & a2 & -> & Ea & ->).
    destruct a2 as [|i a2]; [done|]. cbn in Ea. injection Ea as -> ->.
    pose proof (flight_nodup _ _ _ _ _ _ Hw) as Hnd.
    assert (i ∉ di) as Hni.
    { apply NoDup_app in Hnd as (_ & Hnd & _). intros Hi. eapply Hnd; [|rewrite elem_of_app; right; exact Hi].
      rewrite elem_of_app, elem_of_cons. tauto. }
    eapply (window_store _ _ _ _ _ _ _ _ (a1 ++ a2) (i :: si) di i (sent i) Hw); try done.
    + eapply flight_range; [done|]. rewrite !elem_of_app, elem_of_cons. tauto.
    + left. split; [done|apply sent_ready].
    + solve_Permutation.
    + by rewrite fmap_app.
    + by rewrite Es.
  - destruct Hwd as (c0 & s0 & qi & si & di & Hw). pose proof (w_queued _ _ _ _ _ _ Hw) as Eq.
    pose proof (w_serving _ _ _ _ _ _ Hw) as Es. cbn [queued serving] in *.
    symmetry in Es. apply fmap_app_inv in Es as (a1 & a2 & -> & Ea & ->).
    destruct a2 as [|i a2]; [done|]. cbn in Ea. injection Ea as -> ->.
    pose proof (flight_nodup _ _ _ _ _ _ Hw) as Hnd.
    assert (i ∉ di) as Hni.
    { apply NoDup_app in Hnd as (_ & _ & Hnd). apply NoDup_app in Hnd as (_ & Hnd & _).
      intros Hi. eapply Hnd; [|exact Hi]. rewrite elem_of_app, elem_of_cons. tauto. }
    eapply (window_store _ _ _ _ _ _ _ _ qi (a1 ++ a2) (i :: di) i _ Hw); try done.
    + eapply flight_range; [done|]. rewrite !elem_of_app, elem_of_cons. tauto.
    + right. split; [done|by eexists].
    + solve_Permutation.
    + by rewrite fmap_app.
Qed.

(** A thread that has not submitted anything: the status board is clear. *)
Definition fresh_client (t : Z) (rb cb : list buffer_descriptor) : proto :=
  Proto (Client (Ctx t num rs rb cb W 0 coff) 0 0) Submitting [] [].

Lemma window_fresh t rb cb :
  length rb = length rs → length cb = Z.to_nat W → Forall (λ b, ready b = 0) cb →
  windowed (fresh_client t rb cb).
Proof.
  intros Hr Hc Hz. exists 0, 0, [], [], [].
  split; cbn [cl fresh_client ctx last_completed last_submitted comps res reqs num_reqs win_size comp_off nxt_comp queued serving]; try done.
  - lia.
  - intros j b Hb. right. split; [by eapply (Forall_lookup_1 _ _ _ _ Hz)|]. by intros i ?%not_elem_of_nil.
  - intros i ?. lia.
Qed.

Lemma window_reach p p' : rtc pstep p p' → windowed p → windowed p'.
Proof. induction 1; [done|]. eauto using window_step. Qed.

(** C15: Whatever the order in which the server threads take and answer the requests:
    the window holds at most [W] requests, each completion that was processed is
    the answer to the request with the same index, requests in flight have
    status slots of their own, and a thread that is still waiting when nothing
    is left with the server finds its next completion ready. *)
Theorem client_window_correct t rb cb p :
  length rb = length rs → length cb = Z.to_nat W → Forall (λ b, ready b = 0) cb →
  rtc pstep (fresh_client t rb cb) p →
  let c := last_completed (cl p) in
  let s := last_submitted (cl p) in
  0 ≤ c ≤ s ∧ s ≤ num ∧ s - c ≤ W ∧
  (∀ i, 0 ≤ i < c → ∃ x, res (ctx (cl p)) !! Z.to_nat i = Some (not_ready (reply (sent i) x))) ∧
  NoDup (slot_of (ctx (cl p)) <$> (queued p ++ serving p)) ∧
  (queued p = [] → serving p = [] → c < s → is_Some (process_turn (cl p))).
Proof.
  intros Hr Hc Hz Hreach. destruct (window_reach _ _ Hreach (window_fresh t rb cb Hr Hc Hz))
    as (c & s & qi & si & di & Hw). pose proof Hw as []. pose proof (flight_nodup _ _ _ _ _ _ Hw) as Hnd.
  rewrite w_c0, w_s0. split_and!; try lia; [done| |].
  - rewrite w_queued0, w_serving0, <- fmap_app, <- list_fmap_compose.
    rewrite app_assoc in Hnd. apply NoDup_app in Hnd as (Hnd & _ & _).
    apply NoDup_fmap_2_strong; [|done]. intros i j Hi Hj E. unfold compose in E.
    assert (∀ i, i ∈ qi ++ si → c ≤ i < s) as Hin.
    { intros k Hk. eapply flight_range; [done|]. rewrite !elem_of_app in *. tauto. }
    pose proof (Hin i Hi). pose proof (Hin j Hj).
    destruct (sent_off _ _ _ _ _ _ i Hw) as [Ei _]; [done|]. destruct (sent_off _ _ _ _ _ _ j Hw) as [Ej _]; [done|].
    rewrite Ei, Ej in E. apply (index_inj c s); [lia|done..].
  - rewrite w_queued0, w_serving0. intros ->%fmap_nil_inv ->%fmap_nil_inv Hcs.
    destruct (sent_off _ _ _ _ _ _ c Hw) as [_ Hlt]; [lia|].
    destruct (lookup_lt_is_Some_2 _ _ Hlt) as [b Hb].
    assert (c ∈ di) as Hin.
    { cbn in w_flight0. rewrite w_flight0. apply elem_of_seqZ. lia. }
    unfold process_turn. rewrite w_nxt0. fold (index c). rewrite Hb. simpl.
    destruct (w_board0 _ _ Hb) as [(i & x & _ & _ & ->)|[_ Hn]]; [by eexists|].
    by destruct (Hn c Hin).
Qed.
End Window.

(** * Splitting the work *)

(** The contexts are those of [start_threads]: consecutive parts of the request
    array, and status boards that do not overlap and end with the region. *)
Theorem start_threads_split num_requests num_threads win i j :
  0 ≤ num_requests → 0 < num_threads → 0 < win → 0 ≤ i < num_threads → 0 ≤ j < num_threads →
  ∃ n fi bi fj bj,
    start_threads num_requests num_threads win !! Z.to_nat i = Some (n, fi, bi) ∧
    start_threads num_requests num_threads win !! Z.to_nat j = Some (n, fj, bj) ∧
    0 ≤ fi ∧ fi + n ≤ num_requests ∧
    (i < j → fi + n ≤ fj ∧ bi + win * sizeof_bd ≤ bj) ∧
    sizeof_ring ≤ bi ∧ bi + win * sizeof_bd ≤ shm_size num_threads win ∧
    (∀ x, 0 ≤ x < num_requests →
       (∃ t n ft bt, 0 ≤ t < num_threads ∧
          start_threads num_requests num_threads win !! Z.to_nat t = Some (n, ft, bt) ∧
          ft ≤ x < ft + n) ↔ x < num_requests - num_requests mod num_threads).
Proof.
  intros Hr Ht Hw Hi Hj. unfold start_threads.
  assert (∀ t, 0 ≤ t < num_threads →
    (start_thread num_requests num_threads win <$> seqZ 0 num_threads) !! Z.to_nat t =
    Some (start_thread num_requests num_threads win t)) as Hl.
  { intros t ?. rewrite list_lookup_fmap, lookup_seqZ_lt by lia. cbn. do 2 f_equal. lia. }
  exists (num_requests ÷ num_threads), (i * (num_requests ÷ num_threads)),
    (sizeof_ring + i * win * sizeof_bd), (j * (num_requests ÷ num_threads)), (sizeof_ring + j * win * sizeof_bd).
  rewrite !Hl by done. rewrite Z.quot_div_nonneg by lia.
  pose proof (Z.div_mod num_requests num_threads ltac:(lia)).
  pose proof (Z.mod_pos_bound num_requests num_threads Ht).
  pose proof (Z.div_pos num_requests num_threads Hr Ht).
  set (d := num_requests / num_threads) in *. unfold shm_size, sizeof_bd.
  assert (i * d + d ≤ num_threads * d) by nia.
  assert (i * win + win ≤ num_threads * win) by nia.
  split_and!; try nia.
  - unfold start_thread. rewrite Z.quot_div_nonneg by lia. done.
  - unfold start_thread. rewrite Z.quot_div_nonneg by lia. done.
  - intros x Hx. split.
    + intros (t & n & ft & bt & Htr & E & Hxt). rewrite Hl in E by done.
      unfold start_thread in E. rewrite Z.quot_div_nonneg in E by lia. fold d in E. injection E as <- <- <-.
      assert (t * d + d ≤ num_threads * d) by nia. lia.
    + intros Hlt. assert (0 < d) by nia. exists (x / d), d, (x / d * d), (sizeof_ring + x / d * win * 20).
      pose proof (Z.div_mod x d ltac:(lia)). pose proof (Z.mod_pos_bound x d ltac:(lia)).
      pose proof (Z.div_pos x d ltac:(lia) ltac:(lia)). assert (x / d < num_threads) by (apply Z.div_lt_upper_bound; lia).
      split_and!; try lia. rewrite Hl by lia. unfold start_thread. rewrite Z.quot_div_nonneg by lia. done.
Qed.

(** * Reading the workload: what is stored *)

(** What a valid line says: type, key and, for a PUT, the value. *)
Definition parse_line (line : list byte) : option (Z * Z * option Z) :=
  let (tok, rest) := strtok " "%byte (c_string line) in
  tok ← tok;
  type ← (get_req_type tok).2;
  let (tok, rest) := strtok " "%byte rest in
  key ← tok;
  if type =? PUT then
    let (tok, _) := strtok " "%byte rest in
    value ← tok; Some (type, u32 (atoi key), Some (u32 (atoi value)))
  else Some (type, u32 (atoi key), None).

Definition line_ok (l : list byte) : Prop :=
  ∃ body, l = body ++ [NL] ∧ (NL ∉ body) ∧ Z.of_nat (length l) < LINE_LEN.

(** A line put into entry [index], and the next index. *)
Definition add_one (st : option (Z * list request)) (line : list byte) : option (Z * list request) :=
  '(index, rs) ← st;
  match add_line_to_req line index rs with
  | Ok r rs => Some (if r <? 0 then (index, rs) else (i32 (index + 1), rs))
  | Fault => None
  end.

Lemma set_request_ok i f rs r :
  rs !! i = Some r → set_request (Z.of_nat i) f rs = Ok tt (<[i := f r]> rs).
Proof.
  intros H. unfold set_request. rewrite (proj2 (Z.ltb_ge _ _)) by lia. by rewrite Nat2Z.id, H.
Qed.

Lemma add_line_valid l i rs t k vo :
  parse_line l = Some (t, k, vo) →
  add_line_to_req l (Z.of_nat i) rs =
  match rs !! i with
  | Some r => Ok 0 (<[i := Request k (default (r_v r) vo) t]> rs)
  | None => Fault
  end.
Proof.
  unfold parse_line, add_line_to_req. destruct (strtok _ (c_string l)) as [[tok|] rest]; [|done]. simpl.
  destruct (get_req_type tok) as [? [type|]]; [|done]. simpl.
  destruct (strtok _ rest) as [[key|] rest']; [|done]. simpl.
  destruct (rs !! i) as [r|] eqn:Hr.
  2:{ intros _. unfold bind, set_request. rewrite (proj2 (Z.ltb_ge _ _)) by lia. by rewrite Nat2Z.id, Hr. }
  pose proof (lookup_lt_Some _ _ _ Hr) as Hlt.
  intros H. rewrite (bind_ok _ _ _ _ _ (set_request_ok _ _ _ _ Hr)). cbv zeta.
  erewrite bind_ok by (apply set_request_ok, list_lookup_insert_eq, Hlt).
  rewrite list_insert_insert_eq. cbn [r_k r_v r_t].
  destruct (Z.eqb_spec type PUT) as [->|].
  - destruct (strtok _ rest') as [[value|] ?]; [|done]. simplify_eq/=.
    erewrite bind_ok by (apply set_request_ok, list_lookup_insert_eq, Hlt).
    by rewrite list_insert_insert_eq.
  - by simplify_eq.
Qed.

Lemma add_line_invalid l i rs r :
  parse_line l = None → rs !! i = Some r →
  ∃ rs', add_line_to_req l (Z.of_nat i) rs = Ok (-1) rs' ∧ length rs' = length rs ∧
         ∀ j, j ≠ i → rs' !! j = rs !! j.
Proof.
  intros Hp Hr. pose proof (lookup_lt_Some _ _ _ Hr) as Hlt.
  unfold parse_line, add_line_to_req in *.
  destruct (strtok _ (c_string l)) as [[tok|] rest]; [|by exists rs]. simpl in *.
  destruct (get_req_type tok) as [? [type|]]; [|by exists rs]. simpl in *.
  rewrite (bind_ok _ _ _ _ _ (set_request_ok _ _ _ _ Hr)).
  destruct (strtok _ rest) as [[key|] rest'].
  2:{ eexists. split; [done|]. split; [by rewrite length_insert|]. intros. by rewrite list_lookup_insert_ne. }
  simpl in Hp. erewrite bind_ok by (apply set_request_ok, list_lookup_insert_eq, Hlt).
  rewrite list_insert_insert_eq. destruct (type =? PUT); [|done].
  destruct (strtok _ rest') as [[value|] ?]; [done|].
  eexists. split; [done|]. split; [by rewrite length_insert|]. intros. by rewrite list_lookup_insert_ne.
Qed.

Lemma get_line_ok n body rest :
  NL ∉ body → (length body < n)%nat → get_line n (body ++ NL :: rest) = (body ++ [NL], rest, false).
Proof.
  revert n. induction body as [|c body IH]; intros [|n] Hb Hn; try (simpl in Hn; lia); cbn [get_line app].
  - by rewrite bool_decide_true.
  - apply not_elem_of_cons in Hb as [? ?]. rewrite bool_decide_false by done.
    rewrite IH; [done|done|simpl in Hn; lia].
Qed.

Lemma fgets_line ln all l rest :
  line_ok l → fgets ln (File all (l ++ rest) false) = (Some l, File all rest false).
Proof.
  intros (body & -> & Hb & Hl). rewrite length_app in Hl. unfold LINE_LEN in Hl. simpl in Hl.
  unfold fgets. cbn [f_rest f_all f_eof]. rewrite <- app_assoc. cbn [app].
  rewrite get_line_ok by (done || (unfold LINE_LEN; lia)). by destruct body.
Qed.

Lemma count_lines_ok lines :
  Forall line_ok lines → Z.of_nat (length lines) < 2 ^ 31 →
  count_lines (File (concat lines) (concat lines) false) =
  Some (Z.of_nat (length lines), File (concat lines) (concat lines) false).
Proof.
  intros Hl Hn. unfold count_lines. cbn [f_rest f_all].
  set (body := λ nl : Z, _).
  enough (∀ lines fuel nl all, Forall line_ok lines → (length lines < fuel)%nat → 0 ≤ nl →
    nl + Z.of_nat (length lines) < 2 ^ 31 →
    loop fuel body nl (File all (concat lines) false) =
    Ok (nl + Z.of_nat (length lines)) (File all [] true)) as H.
  { rewrite H; [done|done| |done|lia].
    enough (length lines ≤ length (concat lines))%nat by lia. clear -Hl.
    induction Hl as [|l lines (b & -> & _) _ IH]; simpl; [lia|]. rewrite !length_app. simpl. lia. }
  clear. induction lines as [|l lines IH]; intros fuel nl all Hl Hf Hnl Hb; (destruct fuel; [simpl in Hf; lia|]).
  - apply loop_exit. simpl. by rewrite Z.add_0_r.
  - inversion Hl; subst. simpl in Hb, Hf.
    rewrite (loop_next _ _ _ _ (nl + 1) (File all (concat lines) false)).
    + rewrite IH; [|done|lia..]. f_equal. simpl. lia.
    + unfold body, bind, gets, modify. cbn [id f_eof concat].
      rewrite fgets_line by done. cbn [snd f_eof]. by rewrite i32_small by lia.
Qed.

Lemma foldl_add_none ls : foldl add_one None ls = None.
Proof. by induction ls. Qed.

(** The lines are added in order; the last one is added again when the end of
    the file is met. *)
Lemma read_lines_ok fuel lines ln idx rs all :
  Forall line_ok lines → (length lines + 2 ≤ fuel)%nat → is_Some ln ∨ lines ≠ [] →
  loop fuel read_turn (ln, idx) (File all (concat lines) false, rs) =
  match foldl add_one (Some (idx, rs)) (lines ++ [default (default [] ln) (last lines)]) with
  | Some (i, rs') => Ok i (File all [] true, rs')
  | None => Fault
  end.
Proof.
  revert fuel ln idx rs. induction lines as [|l lines IH]; intros fuel ln idx rs Hl Hf Hne.
  - destruct Hne as [[l ->]|]; [|done]. destruct fuel as [|[|fuel]]; [simpl in Hf; lia..|].
    assert (read_turn (Some l, idx) (File all [] false, rs) =
      match add_line_to_req l idx rs with
      | Ok r rs' => Ok (inl (Some l, if r <? 0 then idx else i32 (idx + 1))) (File all [] true, rs')
      | Fault => Fault
      end) as E.
    { unfold read_turn. change (fgets (Some l) (File all [] false)) with (Some l, File all [] true).
      cbn [f_eof]. destruct (add_line_to_req l idx rs) as [r rs'|]; [|done].
      by destruct (r <? 0). }
    cbn [loop concat]. unfold bind at 1. rewrite E. cbn.
    destruct (add_line_to_req l idx rs) as [r rs'|]; [|done]. by destruct (r <? 0).
  - inversion Hl; subst. destruct fuel as [|fuel]; [simpl in Hf; lia|].
    cbn [loop concat]. unfold bind at 1. unfold read_turn at 1. cbn [f_eof].
    rewrite fgets_line by done. cbn [foldl app].
    assert (add_one (Some (idx, rs)) l =
      match add_line_to_req l idx rs with
      | Ok r rs => Some (if r <? 0 then (idx, rs) else (i32 (idx + 1), rs))
      | Fault => None
      end) as -> by done.
    destruct (add_line_to_req l idx rs) as [r rs'|]; [|by rewrite foldl_add_none].
    assert (default (default [] ln) (last (l :: lines)) = default (default [] (Some l)) (last lines)) as ->.
    { rewrite last_cons. by destruct (last lines). }
    destruct (r <? 0); (rewrite IH; [done|done|simpl in Hf; lia|by left]).
Qed.

(** What the array holds after some lines: entry [j] is what valid line [j]
    says. *)
Definition stored (n : nat) (lines : list (list byte)) (idx : Z) (rs : list request) : Prop :=
  idx = Z.of_nat (length (omap parse_line lines)) ∧ length rs = n ∧
  ∀ j t k vo, omap parse_line lines !! j = Some (t, k, vo) →
    ∃ r, rs !! j = Some r ∧ r_t r = t ∧ r_k r = k ∧ ∀ x, vo = Some x → r_v r = x.

Lemma add_one_stored n lines l idx rs :
  stored n lines idx rs → Z.of_nat n < 2 ^ 31 → (length (omap parse_line lines) < n)%nat →
  ∃ idx' rs', add_one (Some (idx, rs)) l = Some (idx', rs') ∧ stored n (lines ++ [l]) idx' rs'.
Proof.
  intros (-> & Hlen & Hst) Hn Hlt. unfold add_one, mbind, option_bind.
  destruct (lookup_lt_is_Some_2 rs (length (omap parse_line lines))) as [r Hr]; [lia|].
  unfold stored. rewrite omap_app. cbn [omap list_omap].
  destruct (parse_line l) as [[[t k] vo]|] eqn:Hp.
  - rewrite (add_line_valid _ _ _ _ _ _ Hp), Hr. cbn [Z.ltb Z.compare].
    eexists _, _. split; [done|]. split_and!.
    + rewrite i32_small by lia. rewrite length_app. simpl. lia.
    + by rewrite length_insert.
    + intros j t' k' vo' [Hj|[Hj1 Hj2]]%lookup_app_Some.
      * pose proof (lookup_lt_Some _ _ _ Hj). rewrite list_lookup_insert_ne by lia. by apply Hst.
      * apply list_lookup_singleton_Some in Hj2 as [? [= <- <- <-]].
        assert (j = length (omap parse_line lines)) as -> by lia.
        rewrite list_lookup_insert_eq by lia. eexists. split; [done|]. split_and!; [done..|].
        intros x ->. done.
  - destruct (add_line_invalid _ _ _ _ Hp Hr) as (rs' & -> & Hlen' & Hsame). cbn [Z.ltb Z.compare].
    rewrite app_nil_r. eexists _, _. split; [done|]. split_and!; [done|congruence|].
    intros j t k vo Hj. pose proof (lookup_lt_Some _ _ _ Hj). rewrite Hsame by lia. by apply Hst.
Qed.

Lemma foldl_add_stored n lines pre idx rs :
  stored n pre idx rs → Z.of_nat n < 2 ^ 31 →
  (∀ k, (k < length lines)%nat → (length (omap parse_line (pre ++ take k lines)) < n)%nat) →
  ∃ idx' rs', foldl add_one (Some (idx, rs)) lines = Some (idx', rs') ∧ stored n (pre ++ lines) idx' rs'.
Proof.
  revert pre idx rs. induction lines as [|l lines IH]; intros pre idx rs Hst Hn Hk.
  { exists idx, rs. by rewrite app_nil_r. }
  destruct (add_one_stored n pre l idx rs Hst Hn) as (idx1 & rs1 & E & Hst1).
  { specialize (Hk 0%nat ltac:(simpl; lia)). by rewrite app_nil_r in Hk. }
  cbn [foldl]. rewrite E. destruct (IH (pre ++ [l]) idx1 rs1 Hst1 Hn) as (idx2 & rs2 & E2 & Hst2).
  - intros k Hlt. rewrite <- app_assoc. apply (Hk (S k)). simpl. lia.
  - exists idx2, rs2. by rewrite <- app_assoc in Hst2.
Qed.

Lemma length_lines lines : Forall line_ok lines → (length lines ≤ length (concat lines))%nat.
Proof.
  induction 1 as [|l lines (b & -> & _) _ IH]; simpl; [lia|]. rewrite !length_app. simpl. lia.
Qed.

Lemma length_omap_le {A B} (f : A → option B) l : (length (omap f l) ≤ length l)%nat.
Proof.
  induction l as [|x l IH]; [done|]. change (omap f (x :: l)) with
    (match f x with Some y => y :: omap f l | None => omap f l end). destruct (f x); cbn [length]; lia.
Qed.

Lemma read_input_unfold junk lines :
  Forall line_ok lines → Z.of_nat (length lines) < 2 ^ 31 → lines ≠ [] →
  read_input_files junk (concat lines) =
  match foldl add_one (Some (0, junk <$> seq 0 (length lines)))
          (lines ++ [default [] (last lines)]) with
  | Some (i, rs) => Some (Z.of_nat (length lines), i, rs)
  | None => None
  end.
Proof.
  intros Hl Hn Hne. unfold read_input_files. rewrite count_lines_ok by done. rewrite Nat2Z.id.
  rewrite read_lines_ok; [|done|pose proof (length_lines _ Hl); lia|by right].
  cbn [default from_option id]. by destruct (foldl _ _ _) as [[]|].
Qed.

Lemma stored_start junk n : stored n [] 0 (junk <$> seq 0 n).
Proof. split_and!; [done|by rewrite length_fmap, length_seq|]. intros j t k vo. by destruct j. Qed.

(** When the last line of the workload is not a request (a blank line, say), the
    client stores what the valid lines say, in order. *)
Theorem read_input_files_correct junk lines l :
  Forall line_ok (lines ++ [l]) → Z.of_nat (length (lines ++ [l])) < 2 ^ 31 → parse_line l = None →
  ∃ rs, read_input_files junk (concat (lines ++ [l])) =
        Some (Z.of_nat (length (lines ++ [l])), Z.of_nat (length (omap parse_line lines)), rs) ∧
    ∀ j t k vo, omap parse_line lines !! j = Some (t, k, vo) →
      ∃ r, rs !! j = Some r ∧ r_t r = t ∧ r_k r = k ∧ ∀ x, vo = Some x → r_v r = x.
Proof.
  intros Hl Hn Hp. rewrite read_input_unfold by (done || by destruct lines).
  rewrite last_snoc. cbn [default from_option id].
  assert (omap parse_line (lines ++ [l]) = omap parse_line lines) as E1.
  { rewrite omap_app. cbn. by rewrite Hp, app_nil_r. }
  assert (omap parse_line ((lines ++ [l]) ++ [l]) = omap parse_line lines) as E2.
  { rewrite omap_app, E1. cbn. by rewrite Hp, app_nil_r. }
  destruct (foldl_add_stored _ ((lines ++ [l]) ++ [l]) [] _ _ (stored_start junk (length (lines ++ [l]))) Hn)
    as (idx & rs & -> & Hi & _ & Hst).
  - intros k Hk. cbn [app]. rewrite length_app. cbn [length].
    pose proof (length_omap_le parse_line (take k ((lines ++ [l]) ++ [l]))).
    destruct (decide (k ≤ length lines)%nat).
    { rewrite length_take in *. lia. }
    rewrite length_app in Hk. cbn [length] in Hk. rewrite length_app in Hk. cbn [length] in Hk.
    rewrite take_app_le by (rewrite length_app; simpl; lia).
    rewrite take_ge by (rewrite length_app; simpl; lia). rewrite E1.
    pose proof (length_omap_le parse_line lines). lia.
  - exists rs. cbn [app] in *. rewrite E2 in *. by rewrite Hi.
Qed.

(** When every line is a request, the last one is parsed a second time at the
    end of the file and stored past the end of the array. *)
Theorem read_input_files_overruns junk lines :
  Forall line_ok lines → Z.of_nat (length lines) < 2 ^ 31 → lines ≠ [] →
  Forall (λ l, is_Some (parse_line l)) lines →
  read_input_files junk (concat lines) = None.
Proof.
  intros Hl Hn Hne Hv. rewrite read_input_unfold by done.
  assert (length (omap parse_line lines) = length lines) as Hlen.
  { clear -Hv. induction Hv as [|l ls [x Hx] _ IH]; [done|]. cbn. rewrite Hx. simpl. by f_equal. }
  rewrite foldl_app.
  destruct (foldl_add_stored _ lines [] _ _ (stored_start junk (length lines)) Hn)
    as (idx & rs & -> & Hi & Hrs & _).
  - intros k Hk. cbn [app]. pose proof (length_omap_le parse_line (take k lines)).
    rewrite length_take in *. lia.
  - cbn [app] in Hi. destruct lines as [|l lines _] using rev_ind; [done|].
    rewrite last_snoc. cbn [default from_option id foldl]. unfold add_one, mbind, option_bind.
    apply Forall_app in Hv as [_ [x Hx]%Forall_singleton]. destruct x as [[t k] vo].
    rewrite Hi, (add_line_valid _ _ _ _ _ _ Hx). rewrite lookup_ge_None_2 by lia. done.
Qed.

End Client.

(** KvExamples: the theorems on the ring buffer, the table, the server and the
    client applied to small concrete runs. *)
Module KvExamples.
Import CLib Ring KvStore Client.

(** Discharge a hypothesis at a concrete input. *)
Ltac evaluate := solve [lia | done | vm_compute; reflexivity | vm_compute; discriminate | cbn; lia].

(** ** Ring buffer: one thread submits, another one gets *)

Definition bd1 : buffer_descriptor := Bd PUT 1 2 100 0.
Definition sched1 : list action := Submit 0 bd1 :: replicate 6 (Run 0) ++ Get 1 :: replicate 4 (Run 1).

Lemma reach_run n sched tr s : run sched (start n) = Some (tr, s) → reach (start n) tr s.
Proof. intros E. exact (run_reach sched (start n) [] (start n) tr s (reach_refl _) E). Qed.

(** The state [sched] leads to from a fresh ring with two threads. *)
Definition end_of (sched : list action) : sys := from_option snd (start 2) (run sched (start 2)).
Lemma reach_end sched tr : run sched (start 2) = Some (tr, end_of sched) → reach (start 2) tr (end_of sched).
Proof. apply reach_run. Qed.

Lemma ring_refines_queue_witness :
  ∃ q, queue_run [] [Put bd1; Got bd1] = Some q ∧ Z.of_nat (length q) ≤ RING_SIZE.
Proof. apply (ring_refines_queue 2 _ (end_of sched1)). apply reach_end. vm_compute. reflexivity. Defined.

Lemma ring_fifo_witness : gots [Put bd1; Got bd1] `prefix_of` puts [Put bd1; Got bd1].
Proof. apply (ring_fifo 2 _ (end_of sched1)). apply reach_end. vm_compute. reflexivity. Defined.

(** Thread 0 is about to store while thread 1 waits for the ring to be filled. *)
Definition sched2 : list action := [Submit 0 bd1; Run 0; Run 0; Get 1].
Lemma ring_race_free_witness :
  0 ≤ p_head (rg (end_of sched2)) < Z.of_nat (length (buffer (rg (end_of sched2)))) ∧
  (th (end_of sched2) !! 1%nat = Some GLoad → p_head (rg (end_of sched2)) ≠ c_tail (rg (end_of sched2))) ∧
  (∀ bd', th (end_of sched2) !! 1%nat = Some (SStore bd') → 0%nat = 1%nat).
Proof.
  apply (ring_race_free 2 [] (end_of sched2) 0 1 (SStore bd1)); [apply reach_end|]; vm_compute; reflexivity.
Defined.

Lemma ring_deadlock_free_witness :
  ∃ q, queue_run [] [] = Some q ∧ ∀ t p, th (end_of [Get 1]) !! t = Some p →
    (∃ o, p = Out o) ∨ (∃ bd, p = SWait bd) ∧ Z.of_nat (length q) = RING_SIZE ∨ p = GWait ∧ q = [].
Proof.
  apply (ring_deadlock_free 2 [] (end_of [Get 1])); [apply reach_end; vm_compute; reflexivity|].
  intros [|[|t]] p; vm_compute; [by intros [= <-]..|by intros].
Defined.

(** ** The table and the server *)

Lemma table0 : represents (init_kv_store 4) ∅.
Proof.
  split; cbn [init_kv_store size v_head].
  - lia.
  - by rewrite length_replicate.
  - intros i l [-> _]%lookup_replicate. constructor.
  - intros i l n [-> _]%lookup_replicate Hn. by apply not_elem_of_nil in Hn.
  - intros k l _ [-> _]%lookup_replicate. done.
  - apply map_Forall_empty.
Qed.

Lemma kv_store_refines_map_witness :
  ∃ t', put 5 9 (init_kv_store 4) = Ok tt t' ∧ represents t' {[5 := 9]}.
Proof.
  destruct (kv_store_refines_map 4 5 9 (init_kv_store 4) ∅) as (_ & (t' & E & _ & Hr) & _);
    [lia|lia|lia|exact table0|]. exists t'. split; [exact E|exact Hr].
Defined.

Definition shm0 : mem := Mem 1000 (λ _, x00).
Definition bds0 : list buffer_descriptor := [Bd PUT 5 9 100 0; Bd GET 5 0 120 0].

Lemma server_answers_requests_witness :
  ∃ sh' t', thread_function bds0 (Server shm0 (init_kv_store 4)) = Ok None (Server sh' t') ∧
            bd_at sh' 120 = Bd GET 5 9 120 1.
Proof.
  destruct (server_answers_requests bds0 shm0 (init_kv_store 4) ∅) as (sh' & t' & E & _ & Hb & _);
    [exact table0| | |].
  - constructor; [|constructor; [|constructor]]; (split; [first [by left|by right]|]); split_and!; done.
  - intros [|[|i]] [|[|j]] a b; cbn; intros [= <-] [= <-] Hij; try done; cbn; lia.
  - exists sh', t'. split; [exact E|]. exact (Hb 1%nat _ eq_refl).
Defined.

Lemma server_stops_on_bad_request_witness :
  thread_function [Bd 7 5 9 100 0] (Server shm0 (init_kv_store 4)) =
  Ok (Some (-1)) (Server (mwrite shm0 100 (bd_bytes (Bd 7 5 9 100 0))) (init_kv_store 4)).
Proof.
  apply (server_stops_on_bad_request (Bd 7 5 9 100 0) [] shm0 (init_kv_store 4));
    [discriminate|discriminate|reflexivity].
Defined.

(** ** The client *)

Definition reqs0 : list request := [Request 5 9 PUT; Request 5 0 GET].
Definition board0 : list buffer_descriptor := [bd0].
Definition first : proto :=
  Proto (Client (Ctx 0 2 reqs0 [bd0; bd0] board0 1 0 100) 0 1) Submitting [Bd PUT 5 9 100 0] [].

Lemma client_window_correct_witness :
  let c := last_completed (cl first) in
  let s := last_submitted (cl first) in
  0 ≤ c ≤ s ∧ s ≤ 2 ∧ s - c ≤ 1 ∧
  (∀ i, 0 ≤ i < c → ∃ x, res (ctx (cl first)) !! Z.to_nat i = Some (not_ready (reply (sent 1 100 reqs0 i) x))) ∧
  NoDup (slot_of (ctx (cl first)) <$> (queued first ++ serving first)) ∧
  (queued first = [] → serving first = [] → c < s → is_Some (process_turn (cl first))).
Proof.
  apply (client_window_correct 1 2 100 reqs0) with (t := 0) (rb := [bd0; bd0]) (cb := board0);
    [evaluate|evaluate|evaluate|evaluate|evaluate|evaluate|by repeat constructor|].
  apply rtc_once. apply (ps_submit _ (Bd PUT 5 9 100 0)). reflexivity.
Defined.

Lemma start_threads_split_witness :
  ∃ n fi bi fj bj,
    start_threads 7 3 2 !! 0%nat = Some (n, fi, bi) ∧ start_threads 7 3 2 !! 2%nat = Some (n, fj, bj) ∧
    fi + n ≤ fj ∧ bi + 2 * sizeof_bd ≤ bj.
Proof.
  destruct (start_threads_split 7 3 2 0 2) as (n & fi & bi & fj & bj & E1 & E2 & _ & _ & H & _); [lia..|].
  exists n, fi, bi, fj, bj. split; [exact E1|]. split; [exact E2|]. apply H. lia.
Defined.

Definition line1 : list byte := ["p"; "u"; "t"; " "; "5"; " "; "9"; NL]%byte.
Definition line2 : list byte := ["#"; NL]%byte.

Lemma line1_ok : line_ok line1.
Proof.
  exists ["p"; "u"; "t"; " "; "5"; " "; "9"]%byte. split_and!; [done| |done].
  by apply (bool_decide_unpack _).
Qed.

Lemma line2_ok : line_ok line2.
Proof. exists ["#"]%byte. split_and!; [done| |done]. by apply (bool_decide_unpack _). Qed.

Lemma read_input_files_correct_witness :
  ∃ rs, read_input_files (λ _, Request 0 0 0) (concat ([line1] ++ [line2])) = Some (2, 1, rs).
Proof.
  destruct (read_input_files_correct (λ _, Request 0 0 0) [line1] line2) as (rs & E & _);
    [|reflexivity|reflexivity|by exists rs].
  constructor; [exact line1_ok|]. constructor; [exact line2_ok|constructor].
Defined.

Lemma read_input_files_overruns_witness :
  read_input_files (λ _, Request 0 0 0) (concat [line1]) = None.
Proof.
  apply (read_input_files_overruns (λ _, Request 0 0 0) [line1]); [|reflexivity|discriminate|].
  - constructor; [exact line1_ok|constructor].
  - constructor; [|constructor]. vm_compute. eexists. reflexivity.
Defined.

End KvExamples.
