(* ===== verification/Proc.v ===== *)
(** Proc: the process table of the p5 kernel (p5/xv6-public/proc.c, proc.h): the
    operations that create, run, put to sleep, wake, kill and reap processes and
    threads, with priorities inherited through mutexes.  Each operation runs
    with [ptable.lock] held, so it is one transition of the table; the parts of
    [fork] and [clone] outside the lock only touch a process that no other CPU
    uses yet. *)
From S2P Require Import Prelude Memory.
From Stdlib Require Import Strings.Byte.
Local Open Scope Z_scope.

Module Proc.

Definition NPROC : Z := 64.
Definition NOFILE : Z := 16.
Definition KSTACKSIZE : Z := 4096.
Definition MAXPROCNAMELEN : Z := 16.
Definition MAXMUTEXLOCKSHELD : Z := 16.

(** * Data *)

Inductive procstate := UNUSED | EMBRYO | SLEEPING | RUNNABLE | RUNNING | ZOMBIE.
#[export] Instance procstate_eq : EqDecision procstate.
Proof. solve_decision. Defined.

(** Sleep channels are addresses: none, that of a process, that of [ticks], or
    any other. *)
Inductive channel := NoChan | ProcChan (i : nat) | TicksChan | AddrChan (a : Z).
(** The channel that is the address of a process structure. *)
Definition chan_of (p : option nat) : channel :=
  match p with Some i => ProcChan i | None => NoChan end.
#[export] Instance channel_eq : EqDecision channel.
Proof. solve_decision. Defined.

(** The fields of the trap frame that are given a value here. *)
Record trapframe := Tf { eax : Z; esp : Z; eip : Z }.

(** [struct proc]; pointers to processes are indices of the table, null pointers
    to files, page tables and stacks are 0. *)
Record proc := Proc {
  sz : Z;
  pgdir : Z;
  kstack : Z;
  state : procstate;
  pid : Z;
  parent : option nat;
  tf : trapframe;
  pchan : channel;
  killed : Z;
  ofile : list Z;
  cwd : Z;
  name : list byte;
  nclone : Z;
  sleepticks : Z;
  locks_held : list Z;
  num_locks_held : Z;
  nice : Z;
  elevated_nice : Z
}.

(** Assignments to the fields. *)
Definition set_sz (x : Z) (p : proc) : proc :=
  Proc x (pgdir p) (kstack p) (state p) (pid p) (parent p) (tf p) (pchan p) (killed p) (ofile p) (cwd p) (name p) (nclone p) (sleepticks p) (locks_held p) (num_locks_held p) (nice p) (elevated_nice p).
Definition set_pgdir (x : Z) (p : proc) : proc :=
  Proc (sz p) x (kstack p) (state p) (pid p) (parent p) (tf p) (pchan p) (killed p) (ofile p) (cwd p) (name p) (nclone p) (sleepticks p) (locks_held p) (num_locks_held p) (nice p) (elevated_nice p).
Definition set_kstack (x : Z) (p : proc) : proc :=
  Proc (sz p) (pgdir p) x (state p) (pid p) (parent p) (tf p) (pchan p) (killed p) (ofile p) (cwd p) (name p) (nclone p) (sleepticks p) (locks_held p) (num_locks_held p) (nice p) (elevated_nice p).
Definition set_state (x : procstate) (p : proc) : proc :=
  Proc (sz p) (pgdir p) (kstack p) x (pid p) (parent p) (tf p) (pchan p) (killed p) (ofile p) (cwd p) (name p) (nclone p) (sleepticks p) (locks_held p) (num_locks_held p) (nice p) (elevated_nice p).
Definition set_pid (x : Z) (p : proc) : proc :=
  Proc (sz p) (pgdir p) (kstack p) (state p) x (parent p) (tf p) (pchan p) (killed p) (ofile p) (cwd p) (name p) (nclone p) (sleepticks p) (locks_held p) (num_locks_held p) (nice p) (elevated_nice p).
Definition set_parent (x : option nat) (p : proc) : proc :=
  Proc (sz p) (pgdir p) (kstack p) (state p) (pid p) x (tf p) (pchan p) (killed p) (ofile p) (cwd p) (name p) (nclone p) (sleepticks p) (locks_held p) (num_locks_held p) (nice p) (elevated_nice p).
Definition set_tf (x : trapframe) (p : proc) : proc :=
  Proc (sz p) (pgdir p) (kstack p) (state p) (pid p) (parent p) x (pchan p) (killed p) (ofile p) (cwd p) (name p) (nclone p) (sleepticks p) (locks_held p) (num_locks_held p) (nice p) (elevated_nice p).
Definition set_pchan (x : channel) (p : proc) : proc :=
  Proc (sz p) (pgdir p) (kstack p) (state p) (pid p) (parent p) (tf p) x (killed p) (ofile p) (cwd p) (name p) (nclone p) (sleepticks p) (locks_held p) (num_locks_held p) (nice p) (elevated_nice p).
Definition set_killed (x : Z) (p : proc) : proc :=
  Proc (sz p) (pgdir p) (kstack p) (state p) (pid p) (parent p) (tf p) (pchan p) x (ofile p) (cwd p) (name p) (nclone p) (sleepticks p) (locks_held p) (num_locks_held p) (nice p) (elevated_nice p).
Definition set_ofile (x : list Z) (p : proc) : proc :=
  Proc (sz p) (pgdir p) (kstack p) (state p) (pid p) (parent p) (tf p) (pchan p) (killed p) x (cwd p) (name p) (nclone p) (sleepticks p) (locks_held p) (num_locks_held p) (nice p) (elevated_nice p).
Definition set_cwd (x : Z) (p : proc) : proc :=
  Proc (sz p) (pgdir p) (kstack p) (state p) (pid p) (parent p) (tf p) (pchan p) (killed p) (ofile p) x (name p) (nclone p) (sleepticks p) (locks_held p) (num_locks_held p) (nice p) (elevated_nice p).
Definition set_name (x : list byte) (p : proc) : proc :=
  Proc (sz p) (pgdir p) (kstack p) (state p) (pid p) (parent p) (tf p) (pchan p) (killed p) (ofile p) (cwd p) x (nclone p) (sleepticks p) (locks_held p) (num_locks_held p) (nice p) (elevated_nice p).
Definition set_nclone (x : Z) (p : proc) : proc :=
  Proc (sz p) (pgdir p) (kstack p) (state p) (pid p) (parent p) (tf p) (pchan p) (killed p) (ofile p) (cwd p) (name p) x (sleepticks p) (locks_held p) (num_locks_held p) (nice p) (elevated_nice p).
Definition set_sleepticks (x : Z) (p : proc) : proc :=
  Proc (sz p) (pgdir p) (kstack p) (state p) (pid p) (parent p) (tf p) (pchan p) (killed p) (ofile p) (cwd p) (name p) (nclone p) x (locks_held p) (num_locks_held p) (nice p) (elevated_nice p).
Definition set_locks_held (x : list Z) (p : proc) : proc :=
  Proc (sz p) (pgdir p) (kstack p) (state p) (pid p) (parent p) (tf p) (pchan p) (killed p) (ofile p) (cwd p) (name p) (nclone p) (sleepticks p) x (num_locks_held p) (nice p) (elevated_nice p).
Definition set_num_locks_held (x : Z) (p : proc) : proc :=
  Proc (sz p) (pgdir p) (kstack p) (state p) (pid p) (parent p) (tf p) (pchan p) (killed p) (ofile p) (cwd p) (name p) (nclone p) (sleepticks p) (locks_held p) x (nice p) (elevated_nice p).
Definition set_nice (x : Z) (p : proc) : proc :=
  Proc (sz p) (pgdir p) (kstack p) (state p) (pid p) (parent p) (tf p) (pchan p) (killed p) (ofile p) (cwd p) (name p) (nclone p) (sleepticks p) (locks_held p) (num_locks_held p) x (elevated_nice p).
Definition set_elevated_nice (x : Z) (p : proc) : proc :=
  Proc (sz p) (pgdir p) (kstack p) (state p) (pid p) (parent p) (tf p) (pchan p) (killed p) (ofile p) (cwd p) (name p) (nclone p) (sleepticks p) (locks_held p) (num_locks_held p) (nice p) x.


Definition proc0 : proc :=
  Proc 0 0 0 UNUSED 0 None (Tf 0 0 0) NoChan 0 (replicate 16 0) 0 (replicate 16 x00) 0 0
    (replicate 16 0) 0 0 0.

(** * The rest of the kernel, as this file uses it: the page and stack allocator,
    address spaces, files and user memory.  An address is 0 when an allocation
    fails. *)
Class Services (V : Type) := {
  kalloc : ST V Z;
  kfree : Z → ST V unit;
  setupkvm : ST V Z;
  inituvm : Z → ST V unit;
  allocuvm : Z → Z → Z → ST V Z;
  deallocuvm : Z → Z → Z → ST V Z;
  copyuvm : Z → Z → ST V Z;
  free_pages : Z → ST V unit;
  filedup : Z → ST V Z;
  fileclose : Z → ST V unit;
  idup : Z → ST V Z;
  iput_op : Z → ST V unit;
  namei_root : ST V Z;
  store_user : Z → Z → ST V unit
}.

Record uvmdesc := Uvm { refcount : Z; u_pgdir : Z }.

(** The kernel: the table, [nextpid], [initproc], [uvmrefcount] and the rest. *)
Record kernel (V : Type) := Kernel {
  ptab : list proc; nextpid : Z; initproc : option nat; uvmrefcount : list uvmdesc; rest : V
}.
Arguments Kernel {V}. Arguments ptab {V}. Arguments nextpid {V}. Arguments initproc {V}.
Arguments uvmrefcount {V}. Arguments rest {V}.

Section Kernel.
Context {V : Type} `{Services V}.
Abbreviation K := (ST (kernel V)).

Definition svc {A} (f : ST V A) : K A := λ k,
  match f (rest k) with
  | Ok a v => Ok a (Kernel (ptab k) (nextpid k) (initproc k) (uvmrefcount k) v)
  | Fault => Fault
  end.
Definition set_ptab (f : list proc → list proc) : K unit :=
  modify (λ k, Kernel (f (ptab k)) (nextpid k) (initproc k) (uvmrefcount k) (rest k)).
Definition get_proc (i : nat) : K proc := λ k,
  match ptab k !! i with Some p => Ok p k | None => Fault end.
Definition upd_proc (i : nat) (f : proc → proc) : K unit :=
  let! p := get_proc i in set_ptab (λ l, <[i := f p]> l).
Definition set_uvm (f : list uvmdesc → list uvmdesc) : K unit :=
  modify (λ k, Kernel (ptab k) (nextpid k) (initproc k) (f (uvmrefcount k)) (rest k)).

(** * Reference counts of address spaces (p5/xv6-public/vm.c) *)

Definition locate_uvmrefcount (pg : Z) (l : list uvmdesc) : option nat :=
  fst <$> list_find (λ d, refcount d ≠ -1 ∧ u_pgdir d = pg) l.
Definition allocate_uvmrefcount (pg rc : Z) (l : list uvmdesc) : option (list uvmdesc) :=
  '(i, _) ← list_find (λ d, refcount d = -1) l; Some (<[i := Uvm rc pg]> l).

(** The first part of [freevm]: is this the last user of the page table? *)
Definition release_uvm (pg : Z) : K bool :=
  let! l := gets uvmrefcount in
  match locate_uvmrefcount pg l with
  | None => ret true
  | Some i =>
      let! d := of_opt (l !! i) in
      if refcount d <? 1 then fault else
      let rc := refcount d - 1 in
      if negb (rc =? 0) then do! set_uvm (λ l, <[i := Uvm rc pg]> l) in ret false
      else do! set_uvm (λ l, <[i := Uvm (-1) pg]> l) in ret true
  end.
Definition freevm (pg : Z) : K unit :=
  let! last := release_uvm pg in
  if negb last then ret tt else
  if pg =? 0 then fault else svc (free_pages pg).

(** [pinit] *)
Definition pinit : K unit := set_uvm (λ l, (λ d, Uvm (-1) (u_pgdir d)) <$> l).

(** * Creating processes *)

(** The critical section of [allocproc]: the first [UNUSED] entry is taken. *)
Definition alloc_slot : K (option nat) :=
  let! l := gets ptab in
  match list_find (λ p, state p = UNUSED) l with
  | None => ret None
  | Some (i, _) =>
      let! n := gets nextpid in
      do! upd_proc i (λ p, set_pchan NoChan (set_sleepticks (-1) (set_nclone 0 (set_pid n
                             (set_state EMBRYO p))))) in
      do! modify (λ k, Kernel (ptab k) (i32 (n + 1)) (initproc k) (uvmrefcount k) (rest k)) in
      ret (Some i)
  end.

Definition allocproc : K (option nat) :=
  let! o := alloc_slot in
  match o with
  | None => ret None
  | Some i =>
      let! ks := svc kalloc in
      do! upd_proc i (set_kstack ks) in
      if ks =? 0 then do! upd_proc i (set_state UNUSED) in ret None else
      do! upd_proc i (λ p, set_elevated_nice 0 (set_nice 0 (set_num_locks_held 0 p))) in
      ret (Some i)
  end.

(** [switchuvm]: the hardware is told of the stack and the page table. *)
Definition switchuvm (i : nat) : K unit :=
  let! p := get_proc i in
  if (kstack p =? 0) || (pgdir p =? 0) then fault else ret tt.

(** [userinit]: the first process.  [allocproc] cannot fail in a state with a
    free entry and a free page. *)
Definition PGSIZE : Z := 4096.
Definition userinit (initcode : list byte) : K unit :=
  let! o := allocproc in
  do! modify (λ k, Kernel (ptab k) (nextpid k) o (uvmrefcount k) (rest k)) in
  let! i := of_opt o in
  let! pg := svc setupkvm in
  do! upd_proc i (set_pgdir pg) in
  if pg =? 0 then fault else
  do! svc (inituvm pg) in
  do! upd_proc i (λ p, set_name initcode (set_tf (Tf 0 PGSIZE 0) (set_sz PGSIZE p))) in
  let! d := svc namei_root in
  do! upd_proc i (set_cwd d) in
  upd_proc i (set_state RUNNABLE).

(** [int growproc(int n)] *)
Definition growproc (curproc : nat) (n : Z) : K Z :=
  let! cur := get_proc curproc in
  let old := sz cur in
  let! new :=
    (if 0 <? n then svc (allocuvm (pgdir cur) old (u32 (old + n)))
     else if n <? 0 then svc (deallocuvm (pgdir cur) old (u32 (old + n)))
     else ret old) in
  if negb (n =? 0) && (new =? 0) then ret (-1) else
  do! upd_proc curproc (set_sz new) in
  do! switchuvm curproc in
  ret 0.

(** The open files and the current directory are shared with the parent. *)
Fixpoint dup_files (np : nat) (fd : nat) (fs : list Z) : K unit :=
  match fs with
  | [] => ret tt
  | f :: fs =>
      do! (if f =? 0 then ret tt
           else let! g := svc (filedup f) in
                upd_proc np (λ p, set_ofile (<[fd := g]> (ofile p)) p)) in
      dup_files np (S fd) fs
  end.

(** [safestrcpy(s, t, n)] on arrays of [n] bytes: the terminator is copied, and written
    once more behind it. *)
Fixpoint copy_str (n : nat) (s t : list byte) : list byte :=
  match n, s, t with
  | S n', _ :: s', c :: t' =>
      match n' with
      | O => x00 :: s'
      | _ => if bool_decide (c = x00) then x00 :: x00 :: tail s' else c :: copy_str n' s' t'
      end
  | _, _, _ => s
  end.
Definition safestrcpy (s t : list byte) : list byte := copy_str (length s) s t.

(** Setting the state under [ptable.lock] lets the other CPUs run the process. *)
Definition make_runnable (np : nat) : K unit := upd_proc np (set_state RUNNABLE).

(** [int fork(void)] *)
Definition fork (curproc : nat) : K Z :=
  let! o := allocproc in
  match o with
  | None => ret (-1)
  | Some np =>
      let! cur := get_proc curproc in
      let! pg := svc (copyuvm (pgdir cur) (sz cur)) in
      do! upd_proc np (set_pgdir pg) in
      if pg =? 0 then
        let! n := get_proc np in
        do! svc (kfree (kstack n)) in
        do! upd_proc np (λ p, set_state UNUSED (set_kstack 0 p)) in
        ret (-1)
      else
        do! upd_proc np (λ p, set_tf (Tf 0 (esp (tf cur)) (eip (tf cur)))
                                (set_parent (Some curproc) (set_sz (sz cur) p))) in
        do! dup_files np 0 (ofile cur) in
        let! d := svc (idup (cwd cur)) in
        do! upd_proc np (λ p, set_name (safestrcpy (name p) (name cur)) (set_cwd d p)) in
        let! n := get_proc np in
        do! make_runnable np in
        ret (pid n)
  end.

(** The digits that [clone] appends to the name of a thread. *)
Fixpoint append_number (fuel : nat) (threadnum : Z) (i : nat) (s : list byte) : list byte * nat :=
  match fuel with
  | O => (s, i)
  | S n =>
      if (threadnum =? 0) || (MAXPROCNAMELEN - 1 <=? Z.of_nat i) then (s, i)
      else append_number n (threadnum ÷ 10) (S i)
             (<[i := byte_of_Z (48 + Z.rem threadnum 10)]> s)
  end.
Fixpoint strlen (s : list byte) : nat :=
  match s with
  | [] => O
  | c :: s => if bool_decide (c = x00) then O else S (strlen s)
  end.
Definition thread_name (own parent : list byte) (threadnum : Z) : list byte :=
  let s := safestrcpy own parent in
  let (s, i) := append_number (length s) threadnum (strlen s) s in
  <[i := x00]> s.

(** Sharing the page table in [clone]. *)
Definition share_uvm (pg : Z) : K unit :=
  let! l := gets uvmrefcount in
  match locate_uvmrefcount pg l with
  | Some i =>
      let! d := of_opt (l !! i) in
      set_uvm (λ l, <[i := Uvm (refcount d + 1) (u_pgdir d)]> l)
  | None =>
      match allocate_uvmrefcount pg 2 l with
      | Some l' => set_uvm (λ _, l')
      | None => ret tt
      end
  end.

(** [int clone(void (*fn)(void*), void *stack, void *arg)] *)
Definition clone (curproc : nat) (fn stack arg : Z) : K Z :=
  let! o := allocproc in
  match o with
  | None => ret (-1)
  | Some np =>
      let! cur := get_proc curproc in
      do! upd_proc np (set_pgdir (pgdir cur)) in
      do! share_uvm (pgdir cur) in
      do! upd_proc np (λ p, set_parent (Some curproc) (set_sz (sz cur) (set_pchan NoChan p))) in
      do! svc (store_user (u32 (stack - 4)) arg) in
      do! svc (store_user (u32 (stack - 8)) 0xffffffff) in
      do! upd_proc np (set_tf (Tf 0 (u32 (stack - 8)) fn)) in
      do! dup_files np 0 (ofile cur) in
      let! d := svc (idup (cwd cur)) in
      do! upd_proc np (set_cwd d) in
      do! upd_proc curproc (λ p, set_nclone (i32 (nclone p + 1)) p) in
      let! cur := get_proc curproc in
      do! upd_proc np (λ p, set_nclone (i32 (nclone p + 1))
                              (set_name (thread_name (name p) (name cur) (nclone cur)) p)) in
      let! n := get_proc np in
      do! make_runnable np in
      ret (pid n)
  end.

(** * Sleeping and waking *)

Definition wake (ch : channel) (p : proc) : proc :=
  if decide (state p = SLEEPING ∧ pchan p = ch) then set_state RUNNABLE p else p.
Definition wakeup1 (ch : channel) : K unit := set_ptab (fmap (wake ch)).
Definition wakeup (ch : channel) : K unit := wakeup1 ch.

(** [sleep], up to the switch to the scheduler and after it. *)
Definition go_to_sleep (ch : channel) (i : nat) : K unit :=
  upd_proc i (λ p, set_state SLEEPING (set_pchan ch p)).
Definition after_sleep (i : nat) : K unit := upd_proc i (set_pchan NoChan).

(** [yield], up to the switch. *)
Definition yield (i : nat) : K unit := upd_proc i (set_state RUNNABLE).

(** [sleep_proc_notify], at each tick. *)
Definition notify (p : proc) : proc :=
  if decide (state p = SLEEPING ∧ pchan p = TicksChan) then
    if sleepticks p =? 0 then set_state RUNNABLE p else set_sleepticks (i32 (sleepticks p - 1)) p
  else p.
Definition sleep_proc_notify : K unit := set_ptab (fmap notify).

(** [int kill(int pid)] *)
Definition kill_proc (p : proc) : proc :=
  let p := set_killed 1 p in
  if decide (state p = SLEEPING) then set_state RUNNABLE p else p.
Definition kill (n : Z) : K Z :=
  let! l := gets ptab in
  match list_find (λ p, pid p = n) l with
  | Some (i, _) => do! upd_proc i kill_proc in ret 0
  | None => ret (-1)
  end.

(** * Leaving *)

(** The loop that closes the open files. *)
Fixpoint close_files (i : nat) (fd : nat) (fs : list Z) : K unit :=
  match fs with
  | [] => ret tt
  | f :: fs =>
      do! (if f =? 0 then ret tt
           else do! svc (fileclose f) in
                upd_proc i (λ p, set_ofile (<[fd := 0]> (ofile p)) p)) in
      close_files i (S fd) fs
  end.

(** The loop that passes the children to [init]: [wakeup1] runs on the table as
    the loop has left it. *)
Fixpoint abandon (curproc : nat) (init : option nat) (i n : nat) : K unit :=
  match n with
  | O => ret tt
  | S n =>
      let! p := get_proc i in
      do! (if decide (parent p = Some curproc) then
             do! upd_proc i (set_parent init) in
             if decide (state p = ZOMBIE)
             then wakeup1 (chan_of init) else ret tt
           else ret tt) in
      abandon curproc init (S i) n
  end.

(** [exit], up to the switch to the scheduler. *)
Definition exit (curproc : nat) : K unit :=
  let! init := gets initproc in
  if decide (init = Some curproc) then fault else
  let! cur := get_proc curproc in
  do! close_files curproc 0 (ofile cur) in
  do! svc (iput_op (cwd cur)) in
  do! upd_proc curproc (set_cwd 0) in
  let! cur := get_proc curproc in
  do! wakeup1 (chan_of (parent cur)) in
  let! l := gets ptab in
  do! abandon curproc init 0 (length l) in
  upd_proc curproc (set_state ZOMBIE).

(** One scan of [wait]: a zombie child is reaped, or there is no child to wait
    for, or the parent must sleep. *)
Inductive wait_result := Reaped (pid : Z) | NoChild | MustSleep.

Definition reap (i : nat) : K Z :=
  let! p := get_proc i in
  do! svc (kfree (kstack p)) in
  do! upd_proc i (set_kstack 0) in
  do! freevm (pgdir p) in
  do! upd_proc i (λ q, set_state UNUSED (set_killed 0 (set_name (<[0%nat := x00]> (name q))
                         (set_parent None (set_pid 0 q))))) in
  ret (pid p).

Definition wait_scan (curproc : nat) : K wait_result :=
  let! l := gets ptab in
  match list_find (λ p, parent p = Some curproc ∧ state p = ZOMBIE) l with
  | Some (i, _) => let! n := reap i in ret (Reaped n)
  | None =>
      let! cur := get_proc curproc in
      if bool_decide (Exists (λ p, parent p = Some curproc) l) && (killed cur =? 0)
      then do! go_to_sleep (ProcChan curproc) curproc in ret MustSleep
      else ret NoChild
  end.

(** * Scheduling *)

(** The priority of a process: the smallest nice value of it and of the
    processes that sleep on a lock it holds. *)
Definition inherit (l : list proc) (p : proc) : Z :=
  foldl (λ acc lock,
    foldl (λ acc q, if decide (state q = SLEEPING ∧ pchan q = AddrChan lock) then
                      if nice q <? acc then nice q else acc
                    else acc) acc l)
    (nice p) (take (Z.to_nat (num_locks_held p)) (locks_held p)).

Definition elevate (l : list proc) (p : proc) : proc :=
  if decide (state p = RUNNABLE) then set_elevated_nice (inherit l p) p else p.

(** [int findminnice(void)]: the elevated nice values are set, the least one
    is returned.  A value of [nice] is never changed, so the order of the loop
    does not matter. *)
Definition min_of (l : list proc) : Z :=
  foldl (λ m p, if decide (state p = RUNNABLE) then
                  if elevated_nice p <? m then elevated_nice p else m else m) 19 l.
Definition findminnice : K Z :=
  do! set_ptab (λ l, elevate l <$> l) in
  let! l := gets ptab in
  ret (min_of l).

(** The scan of the scheduler from entry [from] on: the next process to run. *)
Definition candidate (minnice : Z) (p : proc) : Prop := state p = RUNNABLE ∧ elevated_nice p ≤ minnice.
#[export] Instance candidate_dec m p : Decision (candidate m p).
Proof. unfold candidate. apply _. Defined.

Definition schedule (from : nat) : K (option nat) :=
  let! minnice := findminnice in
  let! l := gets ptab in
  match list_find (candidate minnice) (drop from l) with
  | None => ret None
  | Some (i, _) =>
      do! switchuvm (from + i) in
      do! upd_proc (from + i) (set_state RUNNING) in
      ret (Some (from + i)%nat)
  end.

End Kernel.
End Proc.
