(* ===== verification/ProcInv.v ===== *)
(** ProcInv: the invariants of the process table: process ids are unique, parents
    are alive, no wake-up of a waiting parent is lost. *)
From S2P Require Import Prelude Memory Proc.
Local Open Scope Z_scope.

Module ProcInv.
Import Proc.

(** * The invariant *)

Definition alive (p : proc) : Prop :=
  state p = SLEEPING ∨ state p = RUNNABLE ∨ state p = RUNNING.
#[export] Instance alive_dec p : Decision (alive p).
Proof. unfold alive. apply _. Defined.

Record table_ok (l : list proc) (next : Z) (init : option nat) : Prop := {
  (* process ids of used entries are given out once *)
  tb_pid : ∀ i p, l !! i = Some p → state p ≠ UNUSED → 0 < pid p < next;
  tb_unique : ∀ i j p q, l !! i = Some p → l !! j = Some q →
              state p ≠ UNUSED → state q ≠ UNUSED → pid p = pid q → i = j;
  (* only entries in use have a parent, and the parent is alive *)
  tb_unused : ∀ i p, l !! i = Some p → state p = UNUSED → parent p = None;
  tb_parent : ∀ i p j, l !! i = Some p → parent p = Some j → ∃ q, l !! j = Some q ∧ alive q;
  tb_init : ∀ j, init = Some j → ∃ q, l !! j = Some q ∧ alive q ∧ parent q = None;
  tb_self : ∀ i p, l !! i = Some p → parent p ≠ Some i;
  (* a process asleep in [wait] has no zombie child *)
  tb_wait : ∀ i p j q, l !! i = Some p → state p = SLEEPING → pchan p = ProcChan i →
            l !! j = Some q → parent q = Some i → state q ≠ ZOMBIE;
  tb_chan : ∀ i p j, l !! i = Some p → state p = SLEEPING → pchan p = ProcChan j → j = i
}.

Section Inv.
Context {V : Type} `{Services V}.

Definition Inv (k : kernel V) : Prop := table_ok (ptab k) (nextpid k) (initproc k).

Lemma post_svc {A} (f : ST V A) (Q : A → kernel V → Prop) k :
  (∀ a v, Q a (Kernel (ptab k) (nextpid k) (initproc k) (uvmrefcount k) v)) → post (svc f) Q k.
Proof. intros HQ a k'. unfold svc. destruct (f (rest k)); [|done]. intros [= <- <-]. apply HQ. Qed.

Lemma post_get_proc i (Q : proc → kernel V → Prop) k :
  (∀ p, ptab k !! i = Some p → Q p k) → post (get_proc i) Q k.
Proof. intros HQ a k'. unfold get_proc. destruct (ptab k !! i); [|done]. intros [= <- <-]. by apply HQ. Qed.

Lemma post_upd_proc i f (Q : unit → kernel V → Prop) k :
  (∀ p, ptab k !! i = Some p →
     Q tt (Kernel (<[i := f p]> (ptab k)) (nextpid k) (initproc k) (uvmrefcount k) (rest k))) →
  post (upd_proc i f) Q k.
Proof.
  intros HQ. apply post_bind, post_get_proc. intros p Hp. by apply post_modify, HQ.
Qed.

(** An update that keeps id, parent and wait channel, and does not kill. *)
Definition keeps (p q : proc) : Prop :=
  pid q = pid p ∧ parent q = parent p ∧ (state q = UNUSED ↔ state p = UNUSED) ∧
  (alive p → alive q) ∧ (state q = ZOMBIE → state p = ZOMBIE) ∧
  (state q = SLEEPING → state p = SLEEPING ∧ pchan q = pchan p ∨ ∀ j, pchan q ≠ ProcChan j).

Lemma keeps_refl p : keeps p p.
Proof. split_and!; tauto. Qed.

Lemma table_ok_keeps l l' next init :
  table_ok l next init → length l' = length l →
  (∀ i p', l' !! i = Some p' → ∃ p, l !! i = Some p ∧ keeps p p') →
  table_ok l' next init.
Proof.
  intros [Hpid Huni Hun Hpar Hin Hself Hwait Hch] Hlen Hk.
  assert (∀ i p, l !! i = Some p → ∃ p', l' !! i = Some p' ∧ keeps p p') as Hk'.
  { intros i p Hp. destruct (lookup_lt_is_Some_2 l' i) as [p' Hp'].
    { rewrite Hlen. by eapply lookup_lt_Some. }
    destruct (Hk i p' Hp') as (p0 & Hp0 & ?). exists p'. simplify_eq. done. }
  assert (∀ j, (∃ q, l !! j = Some q ∧ alive q) → ∃ q, l' !! j = Some q ∧ alive q) as Ha.
  { intros j (q & Hq & Hal). destruct (Hk' j q Hq) as (q' & ? & ? & ? & ? & Hm & _). eauto. }
  split.
  - intros i p' Hp' Hs. destruct (Hk i p' Hp') as (p & Hp & Epid & _ & Eu & _). rewrite Epid.
    apply (Hpid i p Hp). tauto.
  - intros i j p' q' Hp' Hq' Hs Ht E. destruct (Hk i p' Hp') as (p & Hp & Ep & _ & Eu & _).
    destruct (Hk j q' Hq') as (q & Hq & Eq & _ & Ev & _).
    apply (Huni i j p q Hp Hq); [tauto|tauto|congruence].
  - intros i p' Hp' Hs. destruct (Hk i p' Hp') as (p & Hp & _ & -> & Eu & _). apply (Hun i p Hp). tauto.
  - intros i p' j Hp' Ep. destruct (Hk i p' Hp') as (p & Hp & _ & Eq & _). apply Ha.
    apply (Hpar i p); [done|congruence].
  - intros j Hj. destruct (Hin j Hj) as (q & Hq & Hal & Hqp).
    destruct (Hk' j q Hq) as (q' & ? & ? & E & ? & Hm & _). exists q'. split_and!; [done|by apply Hm|congruence].
  - intros i p' Hp'. destruct (Hk i p' Hp') as (p & Hp & _ & -> & _). by apply Hself.
  - intros i p' j q' Hp' Hs Hc Hq' Epar Hz. destruct (Hk i p' Hp') as (p & Hp & _ & _ & _ & _ & _ & Hsl).
    destruct (Hk j q' Hq') as (q & Hq & _ & Eq & _ & _ & Hzz & _).
    destruct (Hsl Hs) as [[Hs0 Ec]|Hne]; [|by apply (Hne i)].
    apply (Hwait i p j q); [done|done|congruence|done|congruence|by apply Hzz].
  - intros i p' j Hp' Hs Hc. destruct (Hk i p' Hp') as (p & Hp & _ & _ & _ & _ & _ & Hsl).
    destruct (Hsl Hs) as [[Hs0 Ec]|Hne]; [|by destruct (Hne j)].
    apply (Hch i p); [done|done|congruence].
Qed.

Lemma table_ok_insert l next init i p q :
  table_ok l next init → l !! i = Some p → keeps p q → table_ok (<[i := q]> l) next init.
Proof.
  intros Hl Hp Hk. eapply table_ok_keeps; [done|by rewrite length_insert|].
  intros j p' Hj. destruct (decide (j = i)) as [->|].
  - rewrite list_lookup_insert_eq in Hj by (by eapply lookup_lt_Some). injection Hj as <-. eauto.
  - rewrite list_lookup_insert_ne in Hj by done. exists p'. split; [done|]. apply keeps_refl.
Qed.

Lemma table_ok_fmap l next init f :
  table_ok l next init → (∀ p, keeps p (f p)) → table_ok (f <$> l) next init.
Proof.
  intros Hl Hk. eapply table_ok_keeps; [done|by rewrite length_fmap|].
  intros i p' Hi. rewrite list_lookup_fmap in Hi. destruct (l !! i) as [p|] eqn:E; [|done].
  injection Hi as <-. eauto.
Qed.

Ltac keeps_tac := unfold keeps, alive; cbn; intuition (congruence || done).

Lemma keeps_wake ch p : keeps p (wake ch p).
Proof. unfold wake. case_decide as E; [|apply keeps_refl]. destruct p, E; cbn in *; subst. keeps_tac. Qed.
Lemma keeps_notify p : keeps p (notify p).
Proof.
  unfold notify. case_decide as E; [|apply keeps_refl]. destruct (_ =? _); destruct p, E; cbn in *; subst; keeps_tac.
Qed.
Lemma keeps_kill p : keeps p (kill_proc p).
Proof. unfold kill_proc. case_decide as E; destruct p; cbn in *; subst; keeps_tac. Qed.
Lemma keeps_elevate l p : keeps p (elevate l p).
Proof. unfold elevate. case_decide; [|apply keeps_refl]. destruct p; keeps_tac. Qed.

(** ** Freeing and creating entries *)

Lemma table_ok_next l next next' init : table_ok l next init → next ≤ next' → table_ok l next' init.
Proof. intros [] ?. split; try done. intros i p Hi Hs. specialize (tb_pid0 i p Hi Hs). lia. Qed.

(** An entry that is not alive is nobody's parent and can be cleared. *)
Lemma table_ok_unuse l next init i p q :
  table_ok l next init → l !! i = Some p → ¬ alive p → state q = UNUSED → parent q = None →
  table_ok (<[i := q]> l) next init.
Proof.
  intros [Hpid Huni Hun Hpar Hin Hself Hwait Hch] Hi Hs Hq Hqp. pose proof (lookup_lt_Some _ _ _ Hi) as Hlt.
  assert (∀ j r, <[i := q]> l !! j = Some r → j = i ∧ r = q ∨ j ≠ i ∧ l !! j = Some r) as Hl.
  { intros j r Hj. destruct (decide (j = i)) as [->|].
    - rewrite list_lookup_insert_eq in Hj by done. left. by injection Hj as <-.
    - rewrite list_lookup_insert_ne in Hj by done. by right. }
  assert (∀ j r, l !! j = Some r → alive r → <[i := q]> l !! j = Some r) as Ha.
  { intros j r Hr Hal. rewrite list_lookup_insert_ne; [done|]. intros <-. by simplify_eq. }
  split.
  - intros j r [[-> ->]|[? Hr]]%Hl Hu; [done|]. by apply (Hpid j).
  - intros j1 j2 q1 q2 [[-> ->]|[? H1]]%Hl [[-> ->]|[? H2]]%Hl Hu1 Hu2; [done..|]. by apply Huni.
  - intros j r [[-> ->]|[? Hr]]%Hl Hu; [done|]. by apply (Hun j).
  - intros j r m [[-> ->]|[? Hr]]%Hl Hpp; [congruence|].
    destruct (Hpar j r m Hr Hpp) as (r' & ? & ?). eauto.
  - intros j Hj. destruct (Hin j Hj) as (r & ? & ? & ?). eauto.
  - intros j r [[-> ->]|[? Hr]]%Hl; [by rewrite Hqp|by apply Hself].
  - intros j r m r' [[-> ->]|[? Hr]]%Hl Hsl Hcc; [congruence|].
    intros [[-> ->]|[? Hr']]%Hl Hpp; [congruence|]. by apply (Hwait j r m r').
  - intros j r m [[-> ->]|[? Hr]]%Hl Hsl Hcc; [congruence|]. by apply (Hch j r).
Qed.

(** The entry that [alloc_slot] has taken. *)
Definition embryo (n : Z) (p : proc) : proc :=
  set_pchan NoChan (set_sleepticks (-1) (set_nclone 0 (set_pid n (set_state EMBRYO p)))).

Lemma table_ok_alloc l next init i p :
  table_ok l next init → 0 < next → l !! i = Some p → state p = UNUSED →
  table_ok (<[i := embryo next p]> l) (next + 1) init.
Proof.
  intros [Hpid Huni Hun Hpar Hin Hself Hwait Hch] Hn Hi Hs. pose proof (lookup_lt_Some _ _ _ Hi) as Hlt.
  assert (∀ j q, <[i := embryo next p]> l !! j = Some q →
    j = i ∧ q = embryo next p ∨ j ≠ i ∧ l !! j = Some q) as Hl.
  { intros j q Hj. destruct (decide (j = i)) as [->|].
    - rewrite list_lookup_insert_eq in Hj by done. left. by injection Hj as <-.
    - rewrite list_lookup_insert_ne in Hj by done. by right. }
  assert (∀ j q, l !! j = Some q → alive q → <[i := embryo next p]> l !! j = Some q) as Ha.
  { intros j q Hq Hal. rewrite list_lookup_insert_ne; [done|].
    intros <-. simplify_eq. unfold alive in Hal. rewrite Hs in Hal. by destruct Hal as [|[|]]. }
  split.
  - intros j q [[-> ->]|[? Hq]]%Hl Hu; cbn; [lia|]. specialize (Hpid j q Hq Hu). lia.
  - intros j1 j2 q1 q2 [[-> ->]|[? H1]]%Hl [[-> ->]|[? H2]]%Hl Hu1 Hu2 E; cbn in E; [done|..].
    + specialize (Hpid _ _ H2 Hu2). lia.
    + specialize (Hpid _ _ H1 Hu1). lia.
    + by apply (Huni j1 j2 q1 q2).
  - intros j q [[-> ->]|[? Hq]]%Hl Hu; [done|]. by apply (Hun j).
  - intros j q m [[-> ->]|[? Hq]]%Hl Hp; [cbn in Hp; by rewrite (Hun i p Hi Hs) in Hp|].
    destruct (Hpar j q m Hq Hp) as (r & ? & ?). eauto.
  - intros j Hj. destruct (Hin j Hj) as (r & ? & ? & ?). eauto.
  - intros j q [[-> ->]|[? Hq]]%Hl; [cbn; by rewrite (Hun i p Hi Hs)|by apply Hself].
  - intros j q m r [[-> ->]|[? Hq]]%Hl Hsl Hc; [done|].
    intros [[-> ->]|[? Hr]]%Hl Hp; [done|]. by apply (Hwait j q m r).
  - intros j q m [[-> ->]|[? Hq]]%Hl Hsl Hc; [done|]. by apply (Hch j q).
Qed.

Lemma alloc_slot_eq (k : kernel V) :
  alloc_slot k =
  match list_find (λ p, state p = UNUSED) (ptab k) with
  | None => Ok None k
  | Some (i, p) => Ok (Some i) (Kernel (<[i := embryo (nextpid k) p]> (ptab k)) (i32 (nextpid k + 1))
                                  (initproc k) (uvmrefcount k) (rest k))
  end.
Proof.
  unfold alloc_slot. erewrite bind_ok by reflexivity.
  destruct (list_find _ (ptab k)) as [[i p]|] eqn:E; [|done].
  apply list_find_Some in E as (Hi & _ & _). erewrite bind_ok by reflexivity.
  unfold upd_proc. unfold bind at 1 2. unfold get_proc. by rewrite Hi.
Qed.

(** The caller [cur] runs and has allocated entry [np], whose parent is [par]. *)
Record making (cur np : nat) (par : option nat) (k : kernel V) : Prop := {
  mk_inv : Inv k;
  mk_new : ∃ p, ptab k !! np = Some p ∧ state p = EMBRYO ∧ parent p = par;
  mk_cur : ∃ p, ptab k !! cur = Some p ∧ state p = RUNNING
}.

Definition runs (i : nat) (k : kernel V) : Prop := ∃ p, ptab k !! i = Some p ∧ state p = RUNNING.

Lemma post_allocproc cur k :
  Inv k → runs cur k → 0 < nextpid k < 2 ^ 31 - 1 →
  post allocproc (λ o k', match o with None => Inv k' | Some np => making cur np None k' end) k.
Proof.
  intros Hi (c & Hc & Hcs) Hn. unfold allocproc. apply post_bind. intros o k1 E. rewrite alloc_slot_eq in E.
  destruct (list_find _ (ptab k)) as [[i p]|] eqn:Ef; injection E as <- <-; [|by apply post_ret].
  apply list_find_Some in Ef as (Hp & Hs & _). pose proof (lookup_lt_Some _ _ _ Hp).
  assert (i ≠ cur) by (intros ->; congruence).
  rewrite i32_small by lia.
  assert (table_ok (<[i := embryo (nextpid k) p]> (ptab k)) (nextpid k + 1) (initproc k)) as Ht
    by (apply table_ok_alloc; [done|lia|done|done]).
  apply post_bind, post_svc. intros ks v. apply post_bind, post_upd_proc. cbn [ptab nextpid initproc rest].
  intros p1 Hp1. rewrite list_lookup_insert_eq in Hp1 by done. injection Hp1 as <-.
  rewrite list_insert_insert_eq.
  apply post_if; intros _.
  - apply post_bind, post_upd_proc. cbn [ptab nextpid initproc rest]. intros p2 Hp2. apply post_ret.
    rewrite list_lookup_insert_eq in Hp2 by done. injection Hp2 as <-. rewrite list_insert_insert_eq.
    apply (table_ok_next _ (nextpid k)); [|cbn; lia]. eapply table_ok_unuse; [done|done| |done|].
    + unfold alive. rewrite Hs. by intros [|[|]].
    + exact (tb_unused _ _ _ Hi i p Hp Hs).
  - apply post_bind, post_upd_proc. cbn [ptab nextpid initproc rest]. intros p2 Hp2. apply post_ret.
    rewrite list_lookup_insert_eq in Hp2 by done. injection Hp2 as <-. rewrite list_insert_insert_eq.
    split.
    + unfold Inv. cbn [ptab nextpid initproc].
      rewrite <- (list_insert_insert_eq (ptab k) i _ (embryo (nextpid k) p)).
      eapply table_ok_insert; [done|by apply list_lookup_insert_eq|]. unfold keeps, alive. cbn. intuition (congruence || done).
    + cbn [ptab]. eexists. split_and!; [by apply list_lookup_insert_eq|done|].
      exact (tb_unused _ _ _ Hi i p Hp Hs).
    + cbn [ptab]. exists c. by rewrite list_lookup_insert_ne.
Qed.

(** Giving an entry in the making a parent. *)
Lemma table_ok_parent l next init i p q j :
  table_ok l next init → l !! i = Some p → state p = EMBRYO → state q = EMBRYO → pid q = pid p →
  parent q = Some j → j ≠ i → (∃ r, l !! j = Some r ∧ alive r) → table_ok (<[i := q]> l) next init.
Proof.
  intros [Hpid Huni Hun Hpar Hin Hself Hwait Hch] Hi Hs Hq Hqp Hj Hji (rj & Hrj & Hal). pose proof (lookup_lt_Some _ _ _ Hi) as Hlt.
  assert (∀ j r, <[i := q]> l !! j = Some r → j = i ∧ r = q ∨ j ≠ i ∧ l !! j = Some r) as Hl.
  { intros m r Hm. destruct (decide (m = i)) as [->|].
    - rewrite list_lookup_insert_eq in Hm by done. left. by injection Hm as <-.
    - rewrite list_lookup_insert_ne in Hm by done. by right. }
  assert (∀ j r, l !! j = Some r → alive r → <[i := q]> l !! j = Some r) as Ha.
  { intros m r Hr Har. rewrite list_lookup_insert_ne; [done|].
    intros <-. simplify_eq. unfold alive in Har. rewrite Hs in Har. by destruct Har as [|[|]]. }
  split.
  - intros m r [[-> ->]|[? Hr]]%Hl Hu; [rewrite Hqp; apply (Hpid i p); congruence|]. by apply (Hpid m).
  - intros j1 j2 q1 q2 [[-> ->]|[? H1]]%Hl [[-> ->]|[? H2]]%Hl Hu1 Hu2 E; [done|..].
    + apply (Huni i j2 p q2); congruence.
    + apply (Huni j1 i q1 p); congruence.
    + by apply (Huni j1 j2 q1 q2).
  - intros m r [[-> ->]|[? Hr]]%Hl Hu; [congruence|]. by apply (Hun m).
  - intros m r n [[-> ->]|[? Hr]]%Hl Hpp; [simplify_eq; eauto|].
    destruct (Hpar m r n Hr Hpp) as (r' & ? & ?). eauto.
  - intros m Hm. destruct (Hin m Hm) as (r & ? & ? & ?). eauto.
  - intros m r [[-> ->]|[? Hr]]%Hl; [congruence|by apply Hself].
  - intros m r n r' [[-> ->]|[? Hr]]%Hl Hsl Hcc; [congruence|].
    intros [[-> ->]|[? Hr']]%Hl Hpp; [congruence|]. by apply (Hwait m r n r').
  - intros m r n [[-> ->]|[? Hr]]%Hl Hsl Hcc; [congruence|]. by apply (Hch m r).
Qed.

Lemma post_making cur np par par' f (Q : unit → kernel V → Prop) k :
  making cur np par k →
  (∀ p, state p = EMBRYO → parent p = par →
        state (f p) = EMBRYO ∧ pid (f p) = pid p ∧ parent (f p) = par') →
  par' = par ∨ par' = Some cur →
  (∀ k', making cur np par' k' → Q tt k') → post (upd_proc np f) Q k.
Proof.
  intros [Hi (p & Hp & Hs & Hpp) (c & Hc & Hcs)] Hf Hpar HQ. apply post_upd_proc. intros p' Hp'.
  rewrite Hp in Hp'. injection Hp' as <-.
  pose proof (lookup_lt_Some _ _ _ Hp). assert (np ≠ cur) by (intros ->; congruence).
  destruct (Hf p Hs Hpp) as (Hfs & Hfp & E). apply HQ. split; cbn [ptab].
  - unfold Inv. cbn [ptab nextpid initproc]. destruct Hpar as [->| ->].
    + eapply table_ok_insert; [done|done|]. unfold keeps, alive. rewrite Hfs, Hs, Hfp, E, Hpp.
      intuition (congruence || done).
    + eapply table_ok_parent; try done. exists c. split; [done|]. right; right. done.
  - eexists. split_and!; [by apply list_lookup_insert_eq|done|done].
  - exists c. by rewrite list_lookup_insert_ne.
Qed.

Lemma making_svc cur np par k v :
  making cur np par k → making cur np par (Kernel (ptab k) (nextpid k) (initproc k) (uvmrefcount k) v).
Proof. by intros []. Qed.

Ltac making_same := eapply (post_making _ _ _ _); [eassumption || (apply making_svc; eassumption)
  |intros ? ? ?; cbn; by auto|by left|].

Lemma post_dup_files cur np par fs (Q : unit → kernel V → Prop) fd k :
  making cur np par k → (∀ k', making cur np par k' → Q tt k') → post (dup_files np fd fs) Q k.
Proof.
  revert fd k. induction fs as [|f fs IH]; intros fd k Hm HQ; [by apply post_ret, HQ|].
  cbn [dup_files]. apply post_bind, post_if; intros _.
  - apply post_ret. by apply IH.
  - apply post_bind, post_svc. intros g v. making_same. intros. by apply IH.
Qed.

(** Publishing the new process, and [Inv] afterwards. *)
Lemma post_publish cur np par (Q : Z → kernel V → Prop) n k :
  making cur np par k → (∀ k', Inv k' → Q n k') → post (bind (make_runnable np) (λ _, ret n)) Q k.
Proof.
  intros [Hi (p & Hp & Hs & _) _] HQ. apply post_bind, post_upd_proc. intros p' Hp'.
  rewrite Hp in Hp'. injection Hp' as <-.
  apply post_ret, HQ. unfold Inv. cbn [ptab nextpid initproc]. eapply table_ok_insert; [done|done|].
  unfold keeps, alive. cbn. rewrite Hs. intuition (congruence || done).
Qed.

Lemma fork_inv cur k :
  Inv k → runs cur k → 0 < nextpid k < 2 ^ 31 - 1 → post (fork cur) (λ _ k', Inv k') k.
Proof.
  intros Hi Hr Hn. unfold fork. apply post_bind.
  eapply post_mono; [by apply (post_allocproc cur)|]. intros [np|] k1 Hm; [|by apply post_ret].
  apply post_bind, post_get_proc. intros c Hc. apply post_bind, post_svc. intros pg v.
  apply post_bind. making_same. intros k2 Hm2. apply post_if; intros _.
  - apply post_bind, post_get_proc. intros n Hnp. apply post_bind, post_svc. intros u v2.
    apply post_bind, post_upd_proc. cbn [ptab nextpid initproc]. intros p Hp. apply post_ret.
    destruct Hm2 as [Hi2 (p' & Hp' & Hs & Hpar) _]. rewrite Hp in Hp'. injection Hp' as <-.
    eapply table_ok_unuse; [exact Hi2|done| |done|done]. unfold alive. rewrite Hs. by intros [|[|]].
  - apply post_bind. eapply (post_making _ _ _ (Some cur)); [done|done|by right|]. intros k3 Hm3.
    apply post_bind. eapply post_dup_files; [done|]. intros k4 Hm4.
    apply post_bind, post_svc. intros d v4. apply post_bind. making_same. intros k5 Hm5.
    apply post_bind, post_get_proc. intros n Hnp. by eapply post_publish.
Qed.

Lemma post_set_uvm f (Q : unit → kernel V → Prop) k :
  Q tt (Kernel (ptab k) (nextpid k) (initproc k) (f (uvmrefcount k)) (rest k)) → post (set_uvm f) Q k.
Proof. intros HQ. unfold set_uvm. apply post_modify, HQ. Qed.

(** Only the reference counts change when an address space is shared. *)
Lemma post_share_uvm pg (Q : unit → kernel V → Prop) k :
  (∀ u, Q tt (Kernel (ptab k) (nextpid k) (initproc k) u (rest k))) → post (share_uvm pg) Q k.
Proof.
  intros HQ. unfold share_uvm. apply post_bind, post_gets. destruct (locate_uvmrefcount _ _).
  - apply post_bind, post_of_opt. intros d _. apply post_set_uvm, HQ.
  - destruct (allocate_uvmrefcount _ _ _); [apply post_set_uvm, HQ|]. apply post_ret.
    destruct k. apply HQ.
Qed.

Lemma clone_inv cur fn stack arg k :
  Inv k → runs cur k → 0 < nextpid k < 2 ^ 31 - 1 → post (clone cur fn stack arg) (λ _ k', Inv k') k.
Proof.
  intros Hi Hr Hn. unfold clone. apply post_bind.
  eapply post_mono; [by apply (post_allocproc cur)|]. intros [np|] k1 Hm; [|by apply post_ret].
  apply post_bind, post_get_proc. intros c Hc. apply post_bind. making_same. intros k2 Hm2.
  apply post_bind, post_share_uvm. intros u.
  assert (making cur np None (Kernel (ptab k2) (nextpid k2) (initproc k2) u (rest k2))) as Hm3 by (by destruct Hm2).
  apply post_bind. eapply (post_making _ _ _ (Some cur)); [done|done|by right|]. intros k4 Hm4.
  apply post_bind, post_svc. intros ? v4. apply post_bind, post_svc. intros ? v5.
  apply post_bind. eapply (post_making _ _ (Some cur) (Some cur)); [by do 2 apply making_svc|by auto|by left|].
  intros k6 Hm6. apply post_bind. eapply post_dup_files; [done|]. intros k7 Hm7.
  apply post_bind, post_svc. intros d v7. apply post_bind. making_same. intros k8 Hm8.
  apply post_bind, post_upd_proc. intros c8 Hc8.
  set (k9 := Kernel _ _ _ _ _).
  assert (making cur np (Some cur) k9) as Hm9.
  { destruct Hm8 as [Hi8 (p & Hp & Hs & Hpar) (c' & Hc' & Hcs)]. rewrite Hc8 in Hc'. injection Hc' as <-.
    assert (np ≠ cur) by (intros ->; congruence). pose proof (lookup_lt_Some _ _ _ Hc8). unfold k9. split; cbn [ptab].
    - unfold Inv. cbn [ptab nextpid initproc]. eapply table_ok_insert; [exact Hi8|done|].
      unfold keeps, alive. cbn. rewrite Hcs. intuition (congruence || done).
    - exists p. by rewrite list_lookup_insert_ne.
    - eexists. split; [by apply list_lookup_insert_eq|done]. }
  apply post_bind, post_get_proc. intros c9 Hc9. apply post_bind. making_same. intros k10 Hm10.
  apply post_bind, post_get_proc. intros n Hnp. by eapply post_publish.
Qed.

(** ** Sleeping, waking, scheduling *)

Lemma post_keeps i f (Q : unit → kernel V → Prop) k :
  Inv k → (∀ p, ptab k !! i = Some p → keeps p (f p)) → (∀ k', Inv k' → Q tt k') →
  post (upd_proc i f) Q k.
Proof.
  intros Hi Hf HQ. apply post_upd_proc. intros p Hp. apply HQ. unfold Inv. cbn [ptab nextpid initproc].
  eapply table_ok_insert; [exact Hi|done|by apply Hf].
Qed.

Lemma post_map f (Q : unit → kernel V → Prop) k :
  Inv k → (∀ p, keeps p (f p)) → (∀ k', Inv k' → Q tt k') → post (set_ptab (fmap f)) Q k.
Proof.
  intros Hi Hf HQ. apply post_modify, HQ. unfold Inv. cbn [ptab nextpid initproc].
  by apply table_ok_fmap.
Qed.

Lemma runs_keeps cur k f :
  runs cur k → (∀ p, state p = RUNNING → keeps p (f p)) →
  ∀ p, ptab k !! cur = Some p → keeps p (f p).
Proof. intros (c & Hc & Hs) Hf p Hp. simplify_eq. auto. Qed.

Lemma sleep_inv ch cur k :
  Inv k → runs cur k → (∀ j, ch ≠ ProcChan j) → post (go_to_sleep ch cur) (λ _ k', Inv k') k.
Proof.
  intros Hi Hr Hch. apply post_keeps; [done| |done]. eapply runs_keeps; [done|].
  intros p Hs. unfold keeps, alive. cbn. rewrite Hs. intuition (congruence || done).
Qed.

Lemma schedule_inv from k : Inv k → post (schedule from) (λ _ k', Inv k') k.
Proof.
  intros Hi. unfold schedule, findminnice. apply post_bind, post_bind.
  apply post_modify. set (k1 := Kernel _ _ _ _ _).
  assert (Inv k1) as Hi1 by (apply table_ok_fmap; [exact Hi|apply keeps_elevate]).
  apply post_bind, post_gets, post_ret, post_bind, post_gets.
  destruct (list_find _ _) as [[i p]|] eqn:E; [|by apply post_ret].
  apply list_find_Some in E as (Hl & [Hs _] & _). rewrite lookup_drop in Hl.
  apply post_bind, post_bind, post_get_proc. intros p' Hp'. apply post_if; intros _; [apply post_fault|].
  apply post_ret, post_bind, post_keeps; [done| |intros; by apply post_ret].
  intros q Hq. simplify_eq. unfold keeps, alive. cbn. rewrite Hs. intuition (congruence || done).
Qed.

Lemma kill_inv n k : Inv k → post (kill n) (λ _ k', Inv k') k.
Proof.
  intros Hi. unfold kill. apply post_bind, post_gets. destruct (list_find _ _) as [[i p]|]; [|by apply post_ret].
  apply post_bind, post_keeps; [done|intros; apply keeps_kill|intros; by apply post_ret].
Qed.

(** ** Waiting *)

(** A running process without zombie children may wait for its children. *)
Lemma table_ok_wait l next init i p q :
  table_ok l next init → l !! i = Some p → alive p → pid q = pid p → parent q = parent p →
  state q = SLEEPING → pchan q = ProcChan i →
  (∀ j r, l !! j = Some r → parent r = Some i → state r ≠ ZOMBIE) →
  table_ok (<[i := q]> l) next init.
Proof.
  intros [Hpid Huni Hun Hpar Hin Hself Hwait Hch] Hi Hal Eid Epar Eq Ec Hz.
  pose proof (lookup_lt_Some _ _ _ Hi) as Hlt.
  assert (state p ≠ UNUSED ∧ state p ≠ ZOMBIE) as [Hu0 Hz0] by (destruct Hal as [E|[E|E]]; rewrite E; done).
  assert (∀ j r, <[i := q]> l !! j = Some r → j = i ∧ r = q ∨ j ≠ i ∧ l !! j = Some r) as Hl.
  { intros m r Hm. destruct (decide (m = i)) as [->|].
    - rewrite list_lookup_insert_eq in Hm by done. left. by injection Hm as <-.
    - rewrite list_lookup_insert_ne in Hm by done. by right. }
  assert (∀ j, (∃ r, l !! j = Some r ∧ alive r) → ∃ r, <[i := q]> l !! j = Some r ∧ alive r) as Ha.
  { intros m (r & Hr & Har). destruct (decide (m = i)) as [->|].
    - exists q. split; [by apply list_lookup_insert_eq|by left].
    - exists r. by rewrite list_lookup_insert_ne. }
  split.
  - intros m r [[-> ->]|[? Hr]]%Hl Hu; [rewrite Eid; by apply (Hpid i p)|by apply (Hpid m)].
  - intros j1 j2 q1 q2 [[-> ->]|[? H1]]%Hl [[-> ->]|[? H2]]%Hl Hu1 Hu2 E; [done|..].
    + apply (Huni i j2 p q2); congruence.
    + apply (Huni j1 i q1 p); congruence.
    + by apply (Huni j1 j2 q1 q2).
  - intros m r [[-> ->]|[? Hr]]%Hl Hu; [congruence|by apply (Hun m)].
  - intros m r n [[-> ->]|[? Hr]]%Hl Hpp; [apply Ha, (Hpar i p); congruence|by apply Ha, (Hpar m r)].
  - intros m Hm. destruct (Hin m Hm) as (r & Hr & Har & Hrp). destruct (decide (m = i)) as [->|].
    + exists q. rewrite list_lookup_insert_eq by done. simplify_eq. split_and!; [done|by left|congruence].
    + exists r. by rewrite list_lookup_insert_ne.
  - intros m r [[-> ->]|[? Hr]]%Hl; [rewrite Epar; by apply Hself|by apply Hself].
  - intros m r n r' [[-> ->]|[? Hr]]%Hl Hsl Hcc [[-> ->]|[? Hr']]%Hl Hpp; try congruence.
    + by apply (Hz n r').
    + by apply (Hwait m r n r').
  - intros m r n [[-> ->]|[? Hr]]%Hl Hsl Hcc; [congruence|by apply (Hch m r)].
Qed.

Lemma post_freevm pg (Q : unit → kernel V → Prop) k :
  (∀ u v, Q tt (Kernel (ptab k) (nextpid k) (initproc k) u v)) → post (freevm pg) Q k.
Proof.
  intros HQ. unfold freevm, release_uvm. apply post_bind, post_bind, post_gets.
  assert (∀ k' : kernel V, ptab k' = ptab k → nextpid k' = nextpid k → initproc k' = initproc k → Q tt k') as HQ'.
  { intros [] ? ? ?; cbn in *; subst. apply HQ. }
  assert (∀ k' : kernel V, ptab k' = ptab k → nextpid k' = nextpid k → initproc k' = initproc k →
    post (if pg =? 0 then fault else svc (free_pages pg)) Q k') as Hfree.
  { intros k' ? ? ?. apply post_if; intros _; [apply post_fault|]. apply post_svc. intros [] v. by apply HQ'. }
  destruct (locate_uvmrefcount _ _) as [i|].
  - apply post_bind, post_of_opt. intros d _. apply post_if; intros _; [apply post_fault|]. cbv zeta.
    apply post_if; intros _; apply post_bind, post_set_uvm, post_ret; cbn [negb].
    + by apply post_ret, HQ'.
    + by apply Hfree.
  - apply post_ret. cbn [negb]. by apply Hfree.
Qed.

Lemma wait_inv cur k : Inv k → runs cur k → post (wait_scan cur) (λ _ k', Inv k') k.
Proof.
  intros Hi (c & Hc & Hcs). unfold wait_scan. apply post_bind, post_gets.
  destruct (list_find _ (ptab k)) as [[i p]|] eqn:E.
  - apply list_find_Some in E as (Hp & [Hpar Hz] & _). apply post_bind. unfold reap.
    apply post_bind, post_get_proc. intros p' Hp'. rewrite Hp in Hp'. injection Hp' as <-.
    apply post_bind, post_svc. intros _ v. apply post_bind, post_upd_proc. cbn [ptab nextpid initproc rest].
    intros p' Hp'. rewrite Hp in Hp'. injection Hp' as <-.
    apply post_bind, post_freevm. cbn [ptab nextpid initproc]. intros u v'.
    pose proof (lookup_lt_Some _ _ _ Hp).
    apply post_bind, post_upd_proc. cbn [ptab nextpid initproc]. intros p2 Hp2.
    rewrite list_lookup_insert_eq in Hp2 by done. injection Hp2 as <-. rewrite list_insert_insert_eq.
    apply post_ret, post_ret. eapply table_ok_unuse; [exact Hi|done| |done|done].
    unfold alive. rewrite Hz. by intros [|[|]].
  - apply list_find_None in E. rewrite Forall_forall in E.
    apply post_bind, post_get_proc. intros c' Hc'. apply post_if; intros _; [|by apply post_ret].
    apply post_bind, post_upd_proc. intros c2 Hc2. apply post_ret. simplify_eq.
    eapply table_ok_wait; [exact Hi|done|by right; right|done..|].
    intros j r Hr Hpr Hzr. apply (E r); [by eapply list_elem_of_lookup_2|done].
Qed.

(** ** Leaving *)

(** No child of [cur] before entry [i]; nobody waits on [ch]. *)
Record leaving (cur : nat) (ch : channel) (len i : nat) (k : kernel V) : Prop := {
  lv_len : length (ptab k) = len;
  lv_inv : Inv k;
  lv_runs : runs cur k;
  lv_init : initproc k ≠ Some cur;
  lv_kids : ∀ j q, (j < i)%nat → ptab k !! j = Some q → parent q ≠ Some cur;
  lv_chan : ∀ j q, ptab k !! j = Some q → state q = SLEEPING → pchan q ≠ ch;
  lv_par : ∀ c j, ptab k !! cur = Some c → parent c = Some j → ch = ProcChan j
}.

(** [init] adopts entry [i]. *)
Lemma table_ok_adopt l next j i p f :
  table_ok l next (Some j) → l !! i = Some p → parent p ≠ None → state p ≠ UNUSED →
  (∀ q, keeps q (f q)) → (state p = ZOMBIE → ∀ q, pchan q = ProcChan j → state (f q) ≠ SLEEPING) →
  (∀ q, state (f q) = SLEEPING → state q = SLEEPING ∧ pchan (f q) = pchan q) →
  table_ok (f <$> <[i := set_parent (Some j) p]> l) next (Some j).
Proof.
  intros [Hpid Huni Hun Hpar Hin Hself Hwait Hch] Hi Hpn Hu Hf Hz Hfs.
  pose proof (lookup_lt_Some _ _ _ Hi) as Hlt. destruct (Hin j eq_refl) as (qj & Hqj & Haj & Hpj).
  assert (j ≠ i) as Hji by (intros ->; simplify_eq).
  assert (∀ m r, (f <$> <[i := set_parent (Some j) p]> l) !! m = Some r →
    ∃ r0, l !! m = Some r0 ∧ (m = i ∧ r0 = p ∧ parent r = Some j ∨ m ≠ i ∧ parent r = parent r0) ∧
          pid r = pid r0 ∧ (state r = UNUSED ↔ state r0 = UNUSED) ∧
          (state r = ZOMBIE → state r0 = ZOMBIE) ∧
          (state r = SLEEPING → state r0 = SLEEPING ∧ pchan r = pchan r0 ∧
             (state p = ZOMBIE → pchan r0 ≠ ProcChan j))) as Hl.
  { intros m r Hm. rewrite list_lookup_fmap in Hm. destruct (decide (m = i)) as [->|].
    - rewrite list_lookup_insert_eq in Hm by done. injection Hm as <-.
      destruct (Hf (set_parent (Some j) p)) as (E1 & E2 & E3 & _ & E4 & _). cbn in *.
      exists p. split_and!; [done|by left|done|done|done|].
      intros Hsl. destruct (Hfs _ Hsl) as [? ?]. cbn in *. split_and!; [done|done|].
      intros Hzp Hc. by apply (Hz Hzp (set_parent (Some j) p)).
    - rewrite list_lookup_insert_ne in Hm by done. destruct (l !! m) as [r0|]; [|done]. injection Hm as <-.
      destruct (Hf r0) as (E1 & E2 & E3 & _ & E4 & _). exists r0. split_and!; [done|by right|done..|].
      intros Hsl. destruct (Hfs _ Hsl) as [? ?]. split_and!; [done|done|].
      intros Hzp Hc. by apply (Hz Hzp r0). }
  assert (∀ m q, l !! m = Some q → alive q →
    ∃ r, (f <$> <[i := set_parent (Some j) p]> l) !! m = Some r ∧ alive r ∧ (m ≠ i → parent r = parent q)) as Ha.
  { intros m q Hq Hal. rewrite list_lookup_fmap. destruct (decide (m = i)) as [->|].
    - rewrite list_lookup_insert_eq by done. eexists. split_and!; [done| |done].
      simplify_eq. by destruct (Hf (set_parent (Some j) p)) as (_ & _ & _ & E & _); apply E.
    - rewrite list_lookup_insert_ne, Hq by done. eexists. split_and!; [done| |].
      + by destruct (Hf q) as (_ & _ & _ & E & _); apply E.
      + intros _. by destruct (Hf q) as (_ & ? & _). }
  split.
  - intros m r (r0 & Hr & _ & -> & Eu & _)%Hl Hus. apply (Hpid m r0); [done|tauto].
  - intros m n r s (r0 & Hr & _ & -> & Eu & _)%Hl (s0 & Hs & _ & -> & Ev & _)%Hl ? ? ?.
    apply (Huni m n r0 s0); tauto.
  - intros m r (r0 & Hr & [(-> & -> & _)|[_ ->]] & _ & Eu & _)%Hl Hus; [tauto|]. apply (Hun m r0); tauto.
  - intros m r n (r0 & Hr & Hp & _)%Hl Ep.
    assert (∃ q, l !! n = Some q ∧ alive q) as (q & Hq & Hal).
    { destruct Hp as [(_ & _ & E)|[_ E]]; rewrite E in Ep; [simplify_eq; eauto|by apply (Hpar m r0)]. }
    destruct (Ha n q Hq Hal) as (r' & ? & ? & _). eauto.
  - intros m [= <-]. destruct (Ha j qj Hqj Haj) as (r & ? & ? & E). exists r. split_and!; [done|done|].
    rewrite E by done. done.
  - intros m r (r0 & Hr & [(-> & _ & ->)|[_ ->]] & _)%Hl; [congruence|by apply Hself].
  - intros m r n s (r0 & Hr & _ & _ & _ & _ & Hsl)%Hl Hs Hc (s0 & Hs0 & Hp & _ & _ & Hzz & _)%Hl Ep Hz2.
    destruct (Hsl Hs) as (Hs' & Hc' & Hnw). destruct Hp as [(-> & -> & E)|[_ E]]; rewrite E in Ep.
    + simplify_eq. apply Hnw; [by apply Hzz|congruence].
    + apply (Hwait m r0 n s0); [done|done|congruence|done|done|by apply Hzz].
  - intros m r n (r0 & Hr & _ & _ & _ & _ & Hsl)%Hl Hs Hc. destruct (Hsl Hs) as (? & ? & _).
    apply (Hch m r0); [done|done|congruence].
Qed.

Lemma wake_asleep ch q : pchan q = ch → state (wake ch q) ≠ SLEEPING.
Proof. unfold wake. intros E. case_decide as D; [done|]. intros Hs. by apply D. Qed.

Lemma wake_sleeping ch q : state (wake ch q) = SLEEPING → state q = SLEEPING ∧ pchan (wake ch q) = pchan q.
Proof. unfold wake. case_decide; [done|]. done. Qed.

Lemma wake_parent ch q : parent (wake ch q) = parent q.
Proof. unfold wake. by case_decide. Qed.

Lemma list_fmap_id' {A} (l : list A) : (λ x, x) <$> l = l.
Proof. apply list_fmap_id. Qed.

Lemma post_abandon cur j ch len n : ∀ i k (Q : unit → kernel V → Prop),
  initproc k = Some j → leaving cur ch len i k →
  (∀ k', initproc k' = Some j → leaving cur ch len (i + n) k' → Q tt k') →
  post (abandon cur (Some j) i n) Q k.
Proof.
  induction n as [|n IH]; intros i k Q Hj Hlv HQ.
  { apply post_ret, HQ; [done|]. by rewrite Nat.add_0_r. }
  assert (∀ k' : kernel V, initproc k' = Some j → leaving cur ch len (S i) k' →
    post (abandon cur (Some j) (S i) n) Q k') as HIH.
  { intros k' ? ?. apply IH; [done|done|]. intros k2. rewrite Nat.add_succ_comm. auto. }
  cbn [abandon]. apply post_bind, post_get_proc. intros p Hp. pose proof (lookup_lt_Some _ _ _ Hp) as Hlt.
  pose proof Hlv as [Hlen Hi (c & Hc & Hcs) Hinit Hkids Hchan Hpar].
  case_decide as Epar.
  2:{ apply post_bind, post_ret, HIH; [done|]. split; [done|done|by exists c|done| |done|done].
      intros m q Hm Hq. destruct (decide (m = i)) as [->|]; [congruence|]. apply (Hkids m); [lia|done]. }
  assert (i ≠ cur) as Hicur by (intros ->; by apply (tb_self _ _ _ Hi cur p Hp)).
  assert (state p ≠ UNUSED) as Hu.
  { intros Hu. by rewrite (tb_unused _ _ _ Hi i p Hp Hu) in Epar. }
  (* the composite update: adopt, and wake init when the child is a zombie *)
  assert (∀ f u v, (∀ q, keeps q (f q)) → (∀ q, parent (f q) = parent q) →
    (∀ q, state (f q) = SLEEPING → state q = SLEEPING ∧ pchan (f q) = pchan q) →
    (∀ q, state q = RUNNING → state (f q) = RUNNING) →
    (state p = ZOMBIE → ∀ q, pchan q = ProcChan j → state (f q) ≠ SLEEPING) →
    leaving cur ch len (S i) (Kernel (f <$> <[i := set_parent (Some j) p]> (ptab k)) (nextpid k) (initproc k) u v)) as Hmk.
  { intros f u v Hf Hfp Hfs Hfr Hz. split; cbn [ptab initproc].
    - by rewrite length_fmap, length_insert.
    - unfold Inv. cbn [ptab nextpid initproc]. rewrite Hj. unfold Inv in Hi. rewrite Hj in Hi.
      apply table_ok_adopt; try done. congruence.
    - exists (f c). cbn [ptab]. rewrite list_lookup_fmap, list_lookup_insert_ne, Hc by done. split; [done|by apply Hfr].
    - done.
    - intros m q Hm Hq. rewrite list_lookup_fmap in Hq. destruct (decide (m = i)) as [->|].
      + rewrite list_lookup_insert_eq in Hq by done. injection Hq as <-. rewrite Hfp. cbn. congruence.
      + rewrite list_lookup_insert_ne in Hq by done. destruct (ptab k !! m) as [q0|] eqn:Eq; [|done].
        injection Hq as <-. rewrite Hfp. apply (Hkids m); [lia|done].
    - intros m q Hq Hs. rewrite list_lookup_fmap in Hq. destruct (decide (m = i)) as [->|].
      + rewrite list_lookup_insert_eq in Hq by done. injection Hq as <-. destruct (Hfs _ Hs) as [Hs' ->].
        by apply (Hchan i p).
      + rewrite list_lookup_insert_ne in Hq by done. destruct (ptab k !! m) as [q0|] eqn:Eq; [|done].
        injection Hq as <-. destruct (Hfs _ Hs) as [Hs' ->]. by apply (Hchan m q0).
    - intros c' m Hc'. rewrite list_lookup_fmap, list_lookup_insert_ne, Hc in Hc' by done.
      injection Hc' as <-. rewrite Hfp. by apply Hpar. }
  apply post_bind, post_bind, post_upd_proc. intros p' Hp'. rewrite Hp in Hp'. injection Hp' as <-.
  case_decide as Ez.
  - apply post_modify. cbn [ptab nextpid initproc uvmrefcount rest]. apply HIH; [done|]. apply Hmk.
    + apply keeps_wake.
    + apply wake_parent.
    + apply wake_sleeping.
    + intros q Hq. unfold wake. case_decide as D; [|done]. destruct D. congruence.
    + intros _ q. apply wake_asleep.
  - apply post_ret, HIH; [done|].
    pose proof (Hmk (λ q, q) (uvmrefcount k) (rest k)) as Hl. rewrite list_fmap_id' in Hl. apply Hl; try done.
    apply keeps_refl.
Qed.

(** A process without children, whose parent does not wait, may become a zombie. *)
Lemma table_ok_zombie l next init i p :
  table_ok l next init → l !! i = Some p → alive p → init ≠ Some i →
  (∀ j q, l !! j = Some q → parent q ≠ Some i) →
  (∀ j m q, parent p = Some j → l !! m = Some q → state q = SLEEPING → pchan q ≠ ProcChan j) →
  table_ok (<[i := set_state ZOMBIE p]> l) next init.
Proof.
  intros [Hpid Huni Hun Hpar Hin Hself Hwait Hch] Hi Hal Hni Hkids Hpw.
  pose proof (lookup_lt_Some _ _ _ Hi) as Hlt.
  assert (state p ≠ UNUSED) as Hu0 by (destruct Hal as [E|[E|E]]; rewrite E; done).
  assert (∀ j r, <[i := set_state ZOMBIE p]> l !! j = Some r →
    j = i ∧ r = set_state ZOMBIE p ∨ j ≠ i ∧ l !! j = Some r) as Hl.
  { intros m r Hm. destruct (decide (m = i)) as [->|].
    - rewrite list_lookup_insert_eq in Hm by done. left. by injection Hm as <-.
    - rewrite list_lookup_insert_ne in Hm by done. by right. }
  assert (∀ m n q, l !! n = Some q → parent q = Some m → (∃ r, l !! m = Some r ∧ alive r) →
    ∃ r, <[i := set_state ZOMBIE p]> l !! m = Some r ∧ alive r) as Ha.
  { intros m n q Hq Hqm (r & Hr & Har). exists r. rewrite list_lookup_insert_ne; [done|].
    intros <-. by apply (Hkids n q). }
  split.
  - intros m r [[-> ->]|[? Hr]]%Hl Hu; [by apply (Hpid i p)|by apply (Hpid m)].
  - intros j1 j2 q1 q2 [[-> ->]|[? H1]]%Hl [[-> ->]|[? H2]]%Hl Hu1 Hu2 E; [done|..].
    + by apply (Huni i j2 p q2).
    + by apply (Huni j1 i q1 p).
    + by apply (Huni j1 j2 q1 q2).
  - intros m r [[-> ->]|[? Hr]]%Hl Hu; [done|by apply (Hun m)].
  - intros m r n [[-> ->]|[? Hr]]%Hl Hpp; [eapply Ha; [done|done|by apply (Hpar i p)]|].
    eapply Ha; [done|done|by apply (Hpar m r)].
  - intros m Hm. destruct (Hin m Hm) as (r & ? & ? & ?). exists r.
    rewrite list_lookup_insert_ne by congruence. done.
  - intros m r [[-> ->]|[? Hr]]%Hl; [exact (Hself i p Hi)|by apply Hself].
  - intros m r n r' [[-> ->]|[? Hr]]%Hl Hsl Hcc [[-> ->]|[? Hr']]%Hl Hpp; try done.
    + intros _. by apply (Hpw m m r).
    + by apply (Hwait m r n r').
  - intros m r n [[-> ->]|[? Hr]]%Hl Hsl Hcc; [done|by apply (Hch m r)].
Qed.

Lemma close_files_inv cur fs (Q : unit → kernel V → Prop) fd k :
  Inv k → runs cur k → (∀ k', Inv k' → runs cur k' → initproc k' = initproc k → Q tt k') →
  post (close_files cur fd fs) Q k.
Proof.
  revert fd k. induction fs as [|f fs IH]; intros fd k Hi Hr HQ; [by apply post_ret, HQ|].
  cbn [close_files]. apply post_bind, post_if; intros _.
  - apply post_ret. by apply IH.
  - apply post_bind, post_svc. intros _ v. apply post_upd_proc. cbn [ptab nextpid initproc].
    intros p Hp. apply IH; [| |done].
    + unfold Inv. cbn [ptab nextpid initproc]. eapply table_ok_insert; [exact Hi|done|].
      unfold keeps, alive. cbn. intuition (congruence || done).
    + destruct Hr as (c & Hc & Hcs). simplify_eq. eexists. cbn [ptab].
      split; [apply list_lookup_insert_eq; by eapply lookup_lt_Some|done].
Qed.

(** After [exit] the process is a zombie, nobody has it for a parent, and its own
    parent does not sleep in [wait]. *)
Definition exited (cur : nat) (k' : kernel V) : Prop :=
  ∃ c', ptab k' !! cur = Some c' ∧ state c' = ZOMBIE ∧
    (∀ j q, ptab k' !! j = Some q → parent q ≠ Some cur) ∧
    (∀ j m q, parent c' = Some j → ptab k' !! m = Some q → state q = SLEEPING → pchan q ≠ ProcChan j).

Lemma exit_post cur j k :
  Inv k → runs cur k → initproc k = Some j → post (exit cur) (λ _ k', Inv k' ∧ exited cur k') k.
Proof.
  intros Hi Hr Hj. unfold exit. apply post_bind, post_gets. rewrite Hj.
  case_decide as Ec; [apply post_fault|]. apply post_bind, post_get_proc. intros c Hc.
  apply post_bind, close_files_inv; [done|done|]. intros k1 Hi1 Hr1 Hj1. rewrite Hj in Hj1.
  apply post_bind, post_svc. intros _ v. apply post_bind, post_upd_proc. cbn [ptab nextpid initproc].
  intros c1 Hc1. set (l2 := <[cur := set_cwd 0 c1]> (ptab k1)).
  destruct Hr1 as (c1' & Hc1' & Hcs). rewrite Hc1 in Hc1'. injection Hc1' as <-.
  assert (table_ok l2 (nextpid k1) (initproc k1)) as Ht2.
  { eapply table_ok_insert; [exact Hi1|done|]. unfold keeps, alive. cbn. intuition (congruence || done). }
  assert (l2 !! cur = Some (set_cwd 0 c1)) as Hc2
    by (apply list_lookup_insert_eq; by eapply lookup_lt_Some).
  apply post_bind, post_get_proc. cbn [ptab]. intros c2 Hc2'. rewrite Hc2 in Hc2'. injection Hc2' as <-.
  set (ch := chan_of (parent c1)). change (chan_of (parent (set_cwd 0 c1))) with ch.
  apply post_bind, post_modify. cbn [ptab nextpid initproc uvmrefcount rest].
  apply post_bind, post_gets. cbn [ptab]. apply post_bind.
  assert (∀ q, state (wake ch q) = RUNNING ↔ state q = RUNNING) as Hrun.
  { intros q. unfold wake. case_decide as D; [|done]. destruct D as [D _]. cbn. by rewrite D. }
  assert ((wake ch <$> l2) !! cur = Some (wake ch (set_cwd 0 c1))) as Hc3 by (by rewrite list_lookup_fmap, Hc2).
  eapply (post_abandon cur j ch (length l2)); [done| |].
  - split; cbn [ptab initproc].
    + by rewrite length_fmap.
    + unfold Inv. cbn [ptab nextpid initproc]. apply table_ok_fmap; [exact Ht2|apply keeps_wake].
    + eexists. split; [exact Hc3|]. by apply Hrun.
    + congruence.
    + intros m q Hm. lia.
    + intros m q Hq Hs. rewrite list_lookup_fmap in Hq. destruct (l2 !! m) as [q0|]; [|done].
      injection Hq as <-. destruct (wake_sleeping _ _ Hs) as [_ ->]. intros Hcc. by apply (wake_asleep ch q0).
    + intros c' m Hc' Hpar. rewrite Hc3 in Hc'. injection Hc' as <-. rewrite wake_parent in Hpar.
      cbn in Hpar. unfold ch. by rewrite Hpar.
  - rewrite length_fmap. intros k4 Hj4 [Hlen4 Hi4 (c4 & Hc4 & Hcs4) Hne Hkids Hchan Hpar4]. cbn [Nat.add] in *.
    apply post_upd_proc. intros c5 Hc5. rewrite Hc4 in Hc5. injection Hc5 as <-.
    assert (∀ m q, ptab k4 !! m = Some q → parent q ≠ Some cur) as Hk4.
    { intros m q Hq. apply (Hkids m); [|done]. rewrite <- Hlen4. by eapply lookup_lt_Some. }
    assert (∀ m n q, parent c4 = Some m → ptab k4 !! n = Some q → state q = SLEEPING → pchan q ≠ ProcChan m) as Hp4.
    { intros m n q Hm Hq Hs. rewrite <- (Hpar4 c4 m Hc4 Hm). by apply (Hchan n). }
    split.
    + unfold Inv. cbn [ptab nextpid initproc]. eapply table_ok_zombie; [exact Hi4|done|by right; right|done|done|done].
    + pose proof (lookup_lt_Some _ _ _ Hc4). exists (set_state ZOMBIE c4). cbn [ptab].
      split_and!; [by apply list_lookup_insert_eq|done| |].
      * intros m q Hq. destruct (decide (m = cur)) as [->|].
        -- rewrite list_lookup_insert_eq in Hq by done. injection Hq as <-. by apply (Hk4 cur c4).
        -- rewrite list_lookup_insert_ne in Hq by done. by apply (Hk4 m q).
      * intros m n q Hm Hq Hs. destruct (decide (n = cur)) as [->|].
        -- rewrite list_lookup_insert_eq in Hq by done. by injection Hq as <-.
        -- rewrite list_lookup_insert_ne in Hq by done. by apply (Hp4 m n).
Qed.

Lemma exit_inv cur j k :
  Inv k → runs cur k → initproc k = Some j → post (exit cur) (λ _ k', Inv k') k.
Proof. intros. eapply post_mono; [by eapply exit_post|]. by intros _ k' [? _]. Qed.

(** * Every reachable process table *)

(** The table at boot, and the kernel that [userinit] makes of it. *)
Definition blank (v : V) : kernel V :=
  Kernel (replicate 64 proc0) 1 None (replicate 64 (Uvm (-1) 0)) v.

(** One critical section of one process, of the clock or of a scheduler. *)
Inductive kstep : kernel V → kernel V → Prop :=
| ks_fork cur r k k' :
    runs cur k → nextpid k < 2 ^ 31 - 1 → fork cur k = Ok r k' → kstep k k'
| ks_clone cur fn stack arg r k k' :
    runs cur k → nextpid k < 2 ^ 31 - 1 → clone cur fn stack arg k = Ok r k' → kstep k k'
| ks_exit cur k k' : runs cur k → exit cur k = Ok tt k' → kstep k k'
| ks_wait cur r k k' : runs cur k → wait_scan cur k = Ok r k' → kstep k k'
| ks_sleep cur ch k k' :
    runs cur k → (∀ j, ch ≠ ProcChan j) → go_to_sleep ch cur k = Ok tt k' → kstep k k'
| ks_resume cur k k' : runs cur k → after_sleep cur k = Ok tt k' → kstep k k'
| ks_yield cur k k' : runs cur k → yield cur k = Ok tt k' → kstep k k'
| ks_wakeup ch k k' : wakeup ch k = Ok tt k' → kstep k k'
| ks_tick k k' : sleep_proc_notify k = Ok tt k' → kstep k k'
| ks_kill n r k k' : kill n k = Ok r k' → kstep k k'
| ks_growproc cur n r k k' : runs cur k → growproc cur n k = Ok r k' → kstep k k'
| ks_schedule from r k k' : schedule from k = Ok r k' → kstep k k'.

Inductive kreach (code : list byte) : kernel V → Prop :=
| kr_boot v k : userinit code (blank v) = Ok tt k → kreach code k
| kr_step k k' : kreach code k → kstep k k' → kreach code k'.

Definition booted (k : kernel V) : Prop := Inv k ∧ is_Some (initproc k) ∧ 0 < nextpid k.

Lemma boot_ok code v k : userinit code (blank v) = Ok tt k → booted k.
Proof.
  revert k. assert (post (userinit code) (λ _ k, booted k) (blank v)) as H0; [|intros k E; exact (H0 tt k E)].
  unfold userinit, allocproc. apply post_bind, post_bind. intros o k1 E. rewrite alloc_slot_eq in E.
  assert (list_find (λ p, state p = UNUSED) (replicate 64 proc0) = Some (0%nat, proc0)) as Ef by done.
  unfold blank in E. cbn [ptab nextpid initproc uvmrefcount rest] in E. rewrite Ef in E. clear Ef.
  pose proof (length_replicate 64 proc0) as Hlen.
  pose proof (λ j q, proj1 (lookup_replicate 64 proc0 j q)) as Hlk.
  revert E Hlen Hlk. generalize (replicate 64 proc0). intros l0 E Hlen Hlk. injection E as <- <-.
  cbn [ptab nextpid initproc uvmrefcount rest].
  apply post_bind, post_svc. intros ks v1. apply post_bind, post_upd_proc. cbn [ptab nextpid initproc uvmrefcount rest].
  intros p1 Hp1. rewrite list_insert_insert_eq. apply post_if; intros _.
  { apply post_bind, post_upd_proc. intros p2 Hp2. apply post_ret, post_bind, post_modify, post_bind. by intros ??. }
  apply post_bind, post_upd_proc. cbn [ptab nextpid initproc uvmrefcount rest]. intros p2 Hp2. rewrite list_insert_insert_eq.
  apply post_ret, post_bind, post_modify, post_bind, post_of_opt. intros i [= <-].
  cbn [ptab nextpid initproc uvmrefcount rest]. apply post_bind, post_svc. intros pg v2.
  apply post_bind, post_upd_proc. cbn [ptab nextpid initproc uvmrefcount rest]. intros p3 Hp3. rewrite list_insert_insert_eq.
  apply post_if; intros _; [apply post_fault|].
  apply post_bind, post_svc. intros _ v3. apply post_bind, post_upd_proc. cbn [ptab nextpid initproc uvmrefcount rest].
  intros p4 Hp4. rewrite list_insert_insert_eq. apply post_bind, post_svc. intros d v4.
  apply post_bind, post_upd_proc. cbn [ptab nextpid initproc uvmrefcount rest]. intros p5 Hp5. rewrite list_insert_insert_eq.
  apply post_upd_proc. cbn [ptab nextpid initproc uvmrefcount rest]. intros p6 Hp6. rewrite list_insert_insert_eq.
  rewrite list_lookup_insert_eq in Hp1, Hp2, Hp3, Hp4, Hp5, Hp6 by lia.
  simplify_eq. split_and!; [|by eexists|cbn; by rewrite i32_small by lia].
  unfold Inv. cbn [ptab nextpid initproc]. set (p := set_state RUNNABLE _).
  assert (pid p = 1 ∧ parent p = None ∧ state p = RUNNABLE) as (Ep & Epar & Es) by done. clearbody p.
  assert (∀ j q, <[0%nat := p]> l0 !! j = Some q → j = 0%nat ∧ q = p ∨ q = proc0) as Hl.
  { intros [|j] q Hq.
    - rewrite list_lookup_insert_eq in Hq by lia. left. by injection Hq as <-.
    - right. rewrite list_lookup_insert_ne in Hq by done. by apply Hlk in Hq as [-> _]. }
  change (i32 (1 + 1)) with 2.
  split.
  - intros j q [[-> ->]| ->]%Hl Hu; [rewrite Ep; lia|done].
  - intros i j q r [[-> ->]| ->]%Hl [[-> ->]| ->]%Hl; done.
  - intros j q [[-> ->]| ->]%Hl Hu; [congruence|done].
  - intros j q m [[-> ->]| ->]%Hl Hm; [congruence|done].
  - intros j [= <-]. exists p. split_and!; [apply list_lookup_insert_eq; lia|by right; left|done].
  - intros j q [[-> ->]| ->]%Hl; [congruence|done].
  - intros j q m r [[-> ->]| ->]%Hl Hs; [congruence|done].
  - intros j q m [[-> ->]| ->]%Hl Hs; [congruence|done].
Qed.

(** ** Operations that leave [initproc] and [nextpid] alone *)

Definition framed {A} (m : ST (kernel V) A) : Prop :=
  ∀ k, post m (λ _ k', initproc k' = initproc k ∧ nextpid k' = nextpid k) k.

Lemma framed_ret {A} (a : A) : framed (ret a).
Proof. intros k. by apply post_ret. Qed.
Lemma framed_fault {A} : framed (@fault _ A).
Proof. intros k. apply post_fault. Qed.
Lemma framed_bind {A B} (m : ST (kernel V) A) (f : A → ST (kernel V) B) :
  framed m → (∀ a, framed (f a)) → framed (bind m f).
Proof.
  intros Hm Hf k. apply post_bind. eapply post_mono; [apply Hm|]. intros a k1 [E1 E2]. cbn.
  eapply post_mono; [apply Hf|]. intros b k2 [E3 E4]. split; congruence.
Qed.
Lemma framed_gets {A} (f : kernel V → A) : framed (gets f).
Proof. intros k. by apply post_gets. Qed.
Lemma framed_of_opt {A} (o : option A) : framed (of_opt o).
Proof. intros k. by apply post_of_opt. Qed.
Lemma framed_if {A} (b : bool) (m1 m2 : ST (kernel V) A) : framed m1 → framed m2 → framed (if b then m1 else m2).
Proof. by destruct b. Qed.
Lemma framed_svc {A} (f : ST V A) : framed (svc f).
Proof. intros k. by apply post_svc. Qed.
Lemma framed_get_proc i : framed (get_proc i).
Proof. intros k. by apply post_get_proc. Qed.
Lemma framed_upd_proc i f : framed (upd_proc i f).
Proof. intros k. by apply post_upd_proc. Qed.
Lemma framed_set_ptab f : framed (set_ptab f).
Proof. intros k. by apply post_modify. Qed.
Lemma framed_set_uvm f : framed (set_uvm f).
Proof. intros k. by apply post_modify. Qed.

Create HintDb framed.
Hint Resolve framed_ret framed_fault framed_bind framed_gets framed_of_opt framed_if framed_svc
  framed_get_proc framed_upd_proc framed_set_ptab framed_set_uvm : framed.

Ltac frame := repeat first
  [ apply framed_bind; [|intros] | apply framed_if | solve [auto with framed] | case_match | cbv zeta ].

Lemma framed_dup_files np fd fs : framed (dup_files np fd fs).
Proof. revert fd. induction fs as [|f fs IH]; intros fd; cbn [dup_files]; frame. Qed.
Lemma framed_close_files i fd fs : framed (close_files i fd fs).
Proof. revert fd. induction fs as [|f fs IH]; intros fd; cbn [close_files]; frame. Qed.
Lemma framed_abandon cur init i n : framed (abandon cur init i n).
Proof. revert i. induction n as [|n IH]; intros i; cbn [abandon]; unfold wakeup1; frame. Qed.
Lemma framed_freevm pg : framed (freevm pg).
Proof. unfold freevm, release_uvm; frame. Qed.
Lemma framed_share_uvm pg : framed (share_uvm pg).
Proof. unfold share_uvm; frame. Qed.
Hint Resolve framed_dup_files framed_close_files framed_abandon framed_freevm framed_share_uvm : framed.

Lemma framed_exit cur : framed (exit cur).
Proof. unfold exit, wakeup1. frame. Qed.
Lemma framed_wait_scan cur : framed (wait_scan cur).
Proof. unfold wait_scan, reap, go_to_sleep. frame. Qed.
Lemma framed_schedule from : framed (schedule from).
Proof. unfold schedule, findminnice, switchuvm. frame. Qed.
Lemma framed_kill n : framed (kill n).
Proof. unfold kill. frame. Qed.
Lemma framed_growproc cur n : framed (growproc cur n).
Proof. unfold growproc, switchuvm. frame. Qed.

(** [allocproc] advances [nextpid] by one at most. *)
Lemma post_frame_alloc k :
  0 < nextpid k < 2 ^ 31 - 1 →
  post allocproc (λ _ k', initproc k' = initproc k ∧ 0 < nextpid k') k.
Proof.
  intros Hn. unfold allocproc. apply post_bind. intros o k1 E. rewrite alloc_slot_eq in E.
  assert (initproc k1 = initproc k ∧ 0 < nextpid k1) as [E1 E2].
  { destruct (list_find _ _) as [[i p]|]; injection E as <- <-; cbn [initproc nextpid]; (split; [done|]); [|lia].
    rewrite i32_small by lia. lia. }
  clear E. rewrite <- E1. destruct o as [i|]; [|by apply post_ret].
  assert (framed (let! ks := svc kalloc in
      do! upd_proc i (set_kstack ks) in
      if ks =? 0 then do! upd_proc i (set_state UNUSED) in ret None else
      do! upd_proc i (λ p, set_elevated_nice 0 (set_nice 0 (set_num_locks_held 0 p))) in
      ret (Some i))) as Hf by frame.
  eapply post_mono; [apply Hf|]. intros a k' [-> ->]. done.
Qed.

Lemma framed_booted {A} (m : ST (kernel V) A) a k k' :
  is_Some (initproc k) → 0 < nextpid k → framed m → m k = Ok a k' →
  is_Some (initproc k') ∧ 0 < nextpid k'.
Proof. intros ? ? Hf E. by destruct (Hf k a k' E) as [-> ->]. Qed.

Lemma alloc_booted {A} (f : option nat → ST (kernel V) A) a k k' :
  is_Some (initproc k) → 0 < nextpid k < 2 ^ 31 - 1 → (∀ o, framed (f o)) →
  bind allocproc f k = Ok a k' → is_Some (initproc k') ∧ 0 < nextpid k'.
Proof.
  intros Hj Hb Hf E. apply bind_inv in E as (o & k1 & E1 & E2).
  destruct (post_frame_alloc k Hb o k1 E1) as [E3 ?]. eapply framed_booted; [by rewrite E3|done|apply Hf|exact E2].
Qed.

Lemma kstep_booted k k' : kstep k k' → booted k → booted k'.
Proof.
  destruct 1 as [cur r k k' Hr Hb E|cur fn stack arg r k k' Hr Hb E|cur k k' Hr E|cur r k k' Hr E
    |cur ch k k' Hr Hch E|cur k k' Hr E|cur k k' Hr E|ch k k' E|k k' E|n r k k' E|cur n r k k' Hr E|from r k k' E];
    intros (Hi & Hj & Hn).
  - split; [by eapply fork_inv|]. unfold fork in E. eapply alloc_booted; [exact Hj|lia| |exact E]. intros o. unfold make_runnable. frame.
  - split; [by eapply clone_inv|]. unfold clone in E. eapply alloc_booted; [exact Hj|lia| |exact E]. intros o. unfold make_runnable. frame.
  - split; [destruct Hj; by eapply exit_inv|]. eapply framed_booted; [exact Hj|exact Hn|apply framed_exit|exact E].
  - split; [by eapply wait_inv|]. eapply framed_booted; [exact Hj|exact Hn|apply framed_wait_scan|exact E].
  - split; [by eapply sleep_inv|]. eapply framed_booted; [exact Hj|exact Hn|apply framed_upd_proc|exact E].
  - split; [|eapply framed_booted; [exact Hj|exact Hn|apply framed_upd_proc|exact E]].
    eapply (post_keeps cur (set_pchan NoChan) (λ _ k, Inv k) k); [done| |by auto|exact E].
    eapply runs_keeps; [done|]. intros p Hp. unfold keeps, alive. cbn. rewrite Hp. intuition (congruence || done).
  - split; [|eapply framed_booted; [exact Hj|exact Hn|apply framed_upd_proc|exact E]].
    eapply (post_keeps cur (set_state RUNNABLE) (λ _ k, Inv k) k); [done| |by auto|exact E].
    eapply runs_keeps; [done|]. intros p Hp. unfold keeps, alive. cbn. rewrite Hp. intuition (congruence || done).
  - split; [|eapply framed_booted; [exact Hj|exact Hn|apply framed_set_ptab|exact E]].
    eapply (post_map (wake ch) (λ _ k, Inv k) k); [done|apply keeps_wake|by auto|exact E].
  - split; [|eapply framed_booted; [exact Hj|exact Hn|apply framed_set_ptab|exact E]].
    eapply (post_map notify (λ _ k, Inv k) k); [done|apply keeps_notify|by auto|exact E].
  - split; [by eapply kill_inv|]. eapply framed_booted; [exact Hj|exact Hn|apply framed_kill|exact E].
  - split; [|eapply framed_booted; [exact Hj|exact Hn|apply framed_growproc|exact E]].
    revert E. unfold growproc. intros E. apply bind_inv in E as (c & k1 & E1 & E).
    unfold get_proc in E1. destruct (ptab k !! cur) as [c'|] eqn:Hc; [|done]. injection E1 as <- <-.
    apply bind_inv in E as (new & k2 & E2 & E).
    assert (ptab k2 = ptab k ∧ nextpid k2 = nextpid k ∧ initproc k2 = initproc k) as (Ep & En & Ej).
    { revert E2. repeat case_match; unfold svc; repeat case_match; intros [= <- <-]; done. }
    destruct (_ && _); [injection E as <- <-; unfold Inv; by rewrite Ep, En, Ej|].
    apply bind_inv in E as ([] & k3 & E3 & E). apply bind_inv in E as (u & k4 & E4 & E). injection E as _ <-.
    assert (Inv k3) as Hi3.
    { eapply (post_keeps cur (set_sz new) (λ _ k, Inv k) k2); [unfold Inv; by rewrite Ep, En, Ej| |by auto|exact E3].
      intros p _. unfold keeps, alive. cbn. intuition (congruence || done). }
    unfold switchuvm in E4. apply bind_inv in E4 as (p & k5 & E5 & E4). unfold get_proc in E5.
    destruct (ptab k3 !! cur); [|done]. injection E5 as <- <-. destruct (_ || _); [done|]. by injection E4 as _ <-.
  - split; [by eapply schedule_inv|]. eapply framed_booted; [exact Hj|exact Hn|apply framed_schedule|exact E].
Qed.

Lemma kreach_booted code k : kreach code k → booted k.
Proof. induction 1; [by eapply boot_ok|by eapply kstep_booted]. Qed.

End Inv.

(** C9: In every reachable kernel, whatever the rest of the kernel does: the ids of
    the processes in use are distinct and were given out by [nextpid], an unused
    entry has no parent, the parent of a process is alive, [init] is alive, and
    no process sleeps in [wait] while it has a zombie child. *)
Theorem process_table_invariant {V} `{Services V} code (k : kernel V) :
  kreach code k → table_ok (ptab k) (nextpid k) (initproc k) ∧ is_Some (initproc k).
Proof. intros (Hi & Hj & _)%kreach_booted. done. Qed.

End ProcInv.
