(* ===== verification/ProcSched.v ===== *)
(** ProcSched: what the operations on the process table compute: the choice of
    the scheduler, priority inheritance, timed sleeping, [exit] and [wait],
    reference counts of shared address spaces. *)
From S2P Require Import Prelude Memory Proc ProcInv.
From Stdlib Require Import Strings.Byte.
Local Open Scope Z_scope.

Module ProcSched.
Import Proc ProcInv.

(** * Priorities *)

(** [q] sleeps on a lock that [p] holds. *)
Definition blocks (p q : proc) : Prop :=
  state q = SLEEPING ∧
  ∃ lock, lock ∈ take (Z.to_nat (num_locks_held p)) (locks_held p) ∧ pchan q = AddrChan lock.

(** [x] is the least of [base] and the nice values of the processes that satisfy
    [P]. *)
Definition least (base : Z) (P : proc → Prop) (l : list proc) (x : Z) : Prop :=
  x ≤ base ∧ (∀ q, q ∈ l → P q → x ≤ nice q) ∧ (x = base ∨ ∃ q, q ∈ l ∧ P q ∧ x = nice q).

Lemma inner_least lock l acc :
  least acc (λ q, state q = SLEEPING ∧ pchan q = AddrChan lock) l
    (foldl (λ acc q, if decide (state q = SLEEPING ∧ pchan q = AddrChan lock) then
                       if nice q <? acc then nice q else acc
                     else acc) acc l).
Proof.
  revert acc. induction l as [|q l IH]; intros acc; cbn [foldl].
  { split_and!; [done|intros q Hq; by apply not_elem_of_nil in Hq|by left]. }
  set (acc' := if decide _ then _ else acc). destruct (IH acc') as (H1 & H2 & H3).
  assert (acc' ≤ acc ∧ (state q = SLEEPING ∧ pchan q = AddrChan lock → acc' ≤ nice q) ∧
          (acc' = acc ∨ (state q = SLEEPING ∧ pchan q = AddrChan lock) ∧ acc' = nice q)) as (Ha & Hb & Hc).
  { unfold acc'. case_decide as D; [|split_and!; [lia|done|by left]].
    destruct (Z.ltb_spec (nice q) acc); (split; [lia|split; [lia|]]); [by right|by left]. }
  split_and!.
  - lia.
  - intros r [->|Hr]%elem_of_cons HP; [specialize (Hb HP); lia|by apply H2].
  - destruct H3 as [->|(r & Hr & HP & ->)].
    + destruct Hc as [->|[HP ->]]; [by left|right]. exists q. split; [by left|done].
    + right. exists r. split; [by right|done].
Qed.

(** The inherited priority of a process is the least of its own nice value and
    those of the processes that wait for a lock it holds. *)
Lemma inherit_least l p : least (nice p) (blocks p) l (inherit l p).
Proof.
  unfold inherit, blocks. generalize (nice p) as base.
  generalize (take (Z.to_nat (num_locks_held p)) (locks_held p)) as locks.
  induction locks as [|lock locks IH]; intros base; cbn [foldl].
  { split_and!; [done| |by left]. intros q _ (_ & lock & Hl & _). by apply not_elem_of_nil in Hl. }
  pose proof (inner_least lock l base) as (H1 & H2 & H3).
  match goal with |- least _ _ _ (foldl _ ?x _) => set (b := x) in * end.
  destruct (IH b) as (H4 & H5 & H6). split_and!.
  - lia.
  - intros q Hq (Hs & lk & [->|Hl]%elem_of_cons & Hc).
    + specialize (H2 q Hq (conj Hs Hc)). lia.
    + apply H5; [done|]. split; [done|]. by exists lk.
  - destruct H6 as [->|(q & Hq & (Hs & lk & Hl & Hc) & ->)].
    + destruct H3 as [->|(q & Hq & [Hs Hc] & ->)]; [by left|right].
      exists q. split; [done|]. split; [|done]. split; [done|]. exists lock. split; [by left|done].
    + right. exists q. split; [done|]. split; [|done]. split; [done|]. exists lk. split; [by right|done].
Qed.

(** The priority of [p] among the processes [l]: the least of its nice value and those
    of the processes that sleep on a lock it holds. *)
Definition priority (l : list proc) (p : proc) (x : Z) : Prop := least (nice p) (blocks p) l x.

Lemma priority_inherit l p x : priority l p x ↔ x = inherit l p.
Proof.
  pose proof (inherit_least l p) as (H1 & H2 & H3). split; [|by intros ->].
  intros (Hx1 & Hx2 & Hx3). apply Z.le_antisymm.
  - destruct H3 as [->|(q & Hq & Hb & ->)]; [done|by apply Hx2].
  - destruct Hx3 as [->|(q & Hq & Hb & ->)]; [done|by apply H2].
Qed.

Lemma min_of_spec l :
  min_of l ≤ 19 ∧ ∀ p, p ∈ l → state p = RUNNABLE → min_of l ≤ elevated_nice p.
Proof.
  unfold min_of. generalize 19 as base. induction l as [|q l IH]; intros base; cbn [foldl].
  { split; [done|]. intros p Hp. by apply not_elem_of_nil in Hp. }
  set (b := if decide _ then _ else base). destruct (IH b) as [H1 H2].
  assert (b ≤ base ∧ (state q = RUNNABLE → b ≤ elevated_nice q)) as [Hb1 Hb2].
  { unfold b. case_decide; [|by split]. destruct (Z.ltb_spec (elevated_nice q) base); split; intros; lia. }
  split; [lia|]. intros p [->|Hp]%elem_of_cons Hs; [specialize (Hb2 Hs); lia|by apply H2].
Qed.

Lemma min_of_attained l :
  min_of l = 19 ∨ ∃ p, p ∈ l ∧ state p = RUNNABLE ∧ elevated_nice p = min_of l.
Proof.
  unfold min_of. generalize 19 as base. induction l as [|q l IH]; intros base; cbn [foldl]; [by left|].
  set (b := if decide _ then _ else base). destruct (IH b) as [E|(p & Hp & Hs & E)].
  - rewrite E. unfold b. case_decide as D; [|by left]. destruct (_ <? _); [|by left].
    right. exists q. split_and!; [by left|done|done].
  - right. exists p. split_and!; [by right|done|done].
Qed.

Section Sched.
Context {V : Type} `{Services V}.

Lemma elevate_same l p : state (elevate l p) = state p ∧ nice (elevate l p) = nice p ∧ pchan (elevate l p) = pchan p.
Proof. unfold elevate. by case_decide. Qed.

Lemma elevate_nice l p : state p = RUNNABLE → elevated_nice (elevate l p) = inherit l p.
Proof. intros Hs. unfold elevate. by rewrite decide_True. Qed.

(** ** Computations that return

    [returns n m]: [m] returns from every kernel whose table has [n] entries, and
    leaves it with [n] entries. *)
Definition returns {A} (n : nat) (m : ST (kernel V) A) : Prop :=
  ∀ k, length (ptab k) = n → ∃ a k', m k = Ok a k' ∧ length (ptab k') = n.

(** The operations on files and pages that [exit] and [wait] use do not panic. *)
Definition quiet : Prop :=
  (∀ f v, fileclose f v ≠ Fault) ∧ (∀ d v, iput_op d v ≠ Fault) ∧
  (∀ a v, kfree a v ≠ Fault) ∧ (∀ a v, free_pages a v ≠ Fault).

Lemma returns_ret {A} n (a : A) : returns n (ret a).
Proof. intros k Hk. by exists a, k. Qed.
Lemma returns_bind {A B} n (m : ST (kernel V) A) (f : A → ST (kernel V) B) :
  returns n m → (∀ a, returns n (f a)) → returns n (bind m f).
Proof.
  intros Hm Hf k Hk. destruct (Hm k Hk) as (a & k1 & E & Hk1). destruct (Hf a k1 Hk1) as (b & k2 & E2 & ?).
  exists b, k2. by rewrite (bind_ok _ _ _ _ _ E).
Qed.
Lemma returns_table {B} n (f : list proc → ST (kernel V) B) :
  (∀ l, length l = n → returns n (f l)) → returns n (bind (gets ptab) f).
Proof. intros Hf k Hk. by apply (Hf (ptab k)). Qed.
Lemma svc_ok {A} (f : ST V A) k :
  (∀ v, f v ≠ Fault) → ∃ a v, svc f k = Ok a (Kernel (ptab k) (nextpid k) (initproc k) (uvmrefcount k) v).
Proof. intros Hf. unfold svc. specialize (Hf (rest k)). destruct (f (rest k)) as [a v|]; [|done]. eauto. Qed.
Lemma returns_svc {A} n (f : ST V A) : (∀ v, f v ≠ Fault) → returns n (svc f).
Proof. intros Hf k Hk. destruct (svc_ok f k Hf) as (a & v & E). by eexists _, _. Qed.
Lemma returns_get_proc n i : (i < n)%nat → returns n (get_proc i).
Proof.
  intros Hi k Hk. unfold get_proc. destruct (lookup_lt_is_Some_2 (ptab k) i) as [p ->]; [lia|]. eauto.
Qed.
Lemma returns_upd_proc n i f : (i < n)%nat → returns n (upd_proc i f).
Proof.
  intros Hi. apply returns_bind; [by apply returns_get_proc|]. intros p k Hk. eexists _, _. split; [done|].
  cbn. by rewrite length_insert.
Qed.
Lemma returns_wakeup1 n ch : returns n (wakeup1 ch).
Proof. intros k Hk. eexists _, _. split; [done|]. cbn. by rewrite length_fmap. Qed.
Lemma returns_close_files n i fd fs : quiet → (i < n)%nat → returns n (close_files i fd fs).
Proof.
  intros (Hc & _) Hi. revert fd. induction fs as [|f fs IH]; intros fd; cbn [close_files]; [apply returns_ret|].
  apply returns_bind; [|by intros]. destruct (f =? 0); [apply returns_ret|].
  apply returns_bind; [apply returns_svc, Hc|intros]. by apply returns_upd_proc.
Qed.
Lemma returns_abandon n cur init i m : (i + m ≤ n)%nat → returns n (abandon cur init i m).
Proof.
  revert i. induction m as [|m IH]; intros i Hi; cbn [abandon]; [apply returns_ret|].
  apply returns_bind; [apply returns_get_proc; lia|intros p].
  apply returns_bind; [|intros; apply IH; lia]. case_decide; [|apply returns_ret].
  apply returns_bind; [apply returns_upd_proc; lia|intros]. case_decide; [apply returns_wakeup1|apply returns_ret].
Qed.

Lemma exit_returns cur (k : kernel V) :
  quiet → runs cur k → initproc k ≠ Some cur → ∃ k', exit cur k = Ok tt k'.
Proof.
  intros Hq (c & Hc & _) Hj. pose proof (lookup_lt_Some _ _ _ Hc) as Hlt. pose proof Hq as (_ & Hi & _).
  set (n := length (ptab k)) in *.
  unfold exit. unfold bind at 1. cbn [gets]. rewrite decide_False by done.
  match goal with |- ∃ k', ?m k = _ => enough (returns n m) as Hr end.
  { destruct (Hr k eq_refl) as ([] & k' & E & _). by exists k'. }
  apply returns_bind; [by apply returns_get_proc|intros c1].
  apply returns_bind; [by apply returns_close_files|intros].
  apply returns_bind; [apply returns_svc, Hi|intros].
  apply returns_bind; [by apply returns_upd_proc|intros].
  apply returns_bind; [by apply returns_get_proc|intros c2].
  apply returns_bind; [apply returns_wakeup1|intros].
  apply returns_table. intros l Hl. apply returns_bind; [apply returns_abandon; lia|intros].
  by apply returns_upd_proc.
Qed.

(** The scheduler panics only on a runnable process without stack or page
    table. *)
Definition ready_to_run (l : list proc) : Prop :=
  ∀ i p, l !! i = Some p → state p = RUNNABLE → kstack p ≠ 0 ∧ pgdir p ≠ 0.

Lemma schedule_returns from (k : kernel V) : ready_to_run (ptab k) → ∃ r k', schedule from k = Ok r k'.
Proof.
  intros Hr. unfold schedule. erewrite bind_ok by reflexivity. unfold bind at 1. cbn [gets ptab].
  set (l := elevate (ptab k) <$> ptab k).
  destruct (list_find _ (drop from l)) as [[i p]|] eqn:Ef; [|by eexists _, _].
  apply list_find_Some in Ef as (Hl & [Hs _] & _). rewrite lookup_drop in Hl.
  assert (∃ p0, ptab k !! (from + i)%nat = Some p0 ∧ p = elevate (ptab k) p0) as (p0 & Hp0 & ->).
  { unfold l in Hl. rewrite list_lookup_fmap in Hl. destruct (ptab k !! (from + i)%nat) as [p0|]; [|done].
    exists p0. split; [done|]. by injection Hl. }
  assert (kstack (elevate (ptab k) p0) ≠ 0 ∧ pgdir (elevate (ptab k) p0) ≠ 0) as [Hk Hp].
  { destruct (elevate_same (ptab k) p0) as (Es & _). rewrite Es in Hs. destruct (Hr _ _ Hp0 Hs).
    unfold elevate. by case_decide. }
  eexists _, _. erewrite bind_ok; [|unfold switchuvm; erewrite bind_ok by (unfold get_proc; cbn [ptab]; by rewrite Hl);
    rewrite (proj2 (Z.eqb_neq _ _) Hk), (proj2 (Z.eqb_neq _ _) Hp); reflexivity].
  erewrite bind_ok; [reflexivity|]. unfold upd_proc. erewrite bind_ok; [reflexivity|]. unfold get_proc.
  cbn [ptab]. by rewrite Hl.
Qed.

Lemma schedule_inherit from (k : kernel V) :
  ready_to_run (ptab k) →
  ∃ r k', schedule from k = Ok r k' ∧
  match r with
  | Some i => ∃ p, ptab k !! i = Some p ∧ state p = RUNNABLE ∧ (from ≤ i)%nat ∧
      (∀ j q, ptab k !! j = Some q → state q = RUNNABLE →
              inherit (ptab k) p ≤ inherit (ptab k) q) ∧
      (∀ j q', ptab k' !! j = Some q' → ∃ q, ptab k !! j = Some q ∧
              state q' = if decide (j = i) then RUNNING else state q)
  | None => from = 0%nat →
      ∀ j q, ptab k !! j = Some q → state q = RUNNABLE → 19 < inherit (ptab k) q
  end.
Proof.
  intros Hr. destruct (schedule_returns from k Hr) as (r & k' & E). exists r, k'. split; [done|]. clear Hr.
  unfold schedule, findminnice in E.
  apply bind_inv in E as (m & k1 & E1 & E). apply bind_inv in E1 as ([] & k2 & E2 & E1).
  injection E2 as <-. apply bind_inv in E1 as (l & k3 & E3 & E1). injection E3 as <- <-. injection E1 as <- <-.
  apply bind_inv in E as (l & k4 & E4 & E). injection E4 as <- <-. cbn [ptab] in E.
  set (l := elevate (ptab k) <$> ptab k) in *. pose proof (min_of_spec l) as [Hm19 Hmin].
  assert (∀ j q, ptab k !! j = Some q → state q = RUNNABLE → min_of l ≤ inherit (ptab k) q) as Hle.
  { intros j q Hq Hs. rewrite <- (elevate_nice _ _ Hs). apply Hmin.
    - apply list_elem_of_fmap. exists q. split; [done|by eapply list_elem_of_lookup_2].
    - destruct (elevate_same (ptab k) q) as (-> & _). done. }
  destruct (list_find _ (drop from l)) as [[i p]|] eqn:Ef.
  - apply list_find_Some in Ef as (Hl & [Hs He] & _). rewrite lookup_drop in Hl.
    unfold l in Hl. rewrite list_lookup_fmap in Hl. destruct (ptab k !! (from + i)%nat) as [p0|] eqn:Hp; [|done].
    injection Hl as <-. destruct (elevate_same (ptab k) p0) as (Es & _). rewrite Es in Hs.
    apply bind_inv in E as (u & k5 & E5 & E).
    assert (k5 = Kernel l (nextpid k) (initproc k) (uvmrefcount k) (rest k)) as ->.
    { unfold switchuvm in E5. apply bind_inv in E5 as (q & k6 & E6 & E5). unfold get_proc in E6. cbn [ptab] in E6.
      destruct (l !! (from + i)%nat); [|done]. injection E6 as <- <-. destruct (_ || _); [done|]. by injection E5 as _ <-. }
    apply bind_inv in E as ([] & k6 & E6 & E). injection E as <- <-.
    unfold upd_proc in E6. apply bind_inv in E6 as (q & k7 & E7 & E6). unfold get_proc in E7. cbn [ptab] in E7.
    destruct (l !! (from + i)%nat) as [q0|] eqn:Hq; [|done]. injection E7 as <- <-. injection E6 as <-.
    exists p0. split_and!; [done|done|lia| |].
    + intros j q Hj Hsq. rewrite (elevate_nice _ _ Hs) in He. specialize (Hle j q Hj Hsq). lia.
    + cbn [ptab]. intros j q' Hj. destruct (decide (j = (from + i)%nat)) as [->|].
      * rewrite list_lookup_insert_eq in Hj by (by eapply lookup_lt_Some). injection Hj as <-. by exists p0.
      * rewrite list_lookup_insert_ne in Hj by done. unfold l in Hj. rewrite list_lookup_fmap in Hj.
        destruct (ptab k !! j) as [q|]; [|done]. injection Hj as <-. exists q. split; [done|]. apply elevate_same.
  - injection E as <- <-. intros -> j q Hj Hs. rewrite drop_0 in Ef. apply list_find_None in Ef.
    rewrite Forall_forall in Ef.
    assert (∀ p, p ∈ l → state p = RUNNABLE → min_of l < elevated_nice p) as Hno.
    { intros p Hp Hsp. destruct (decide (min_of l < elevated_nice p)); [done|].
      exfalso. apply (Ef p); [done|]. split; [done|lia]. }
    destruct (min_of_attained l) as [E19|(p & Hp & Hsp & Ep)]; [|specialize (Hno p Hp Hsp); lia].
    rewrite <- E19, <- (elevate_nice _ _ Hs). apply Hno.
    + apply list_elem_of_fmap. exists q. split; [done|by eapply list_elem_of_lookup_2].
    + by destruct (elevate_same (ptab k) q) as (-> & _).
Qed.

(** C18: The scheduler, from entry [from] on: it runs a process whose priority, with what
    it inherits from the processes that sleep on a lock it holds, is the best of all
    runnable processes; from entry 0 on it finds one whenever there is one whose
    priority is at most 19; no process but the chosen one changes state. *)
Theorem scheduler_picks_least from (k : kernel V) :
  ready_to_run (ptab k) →
  ∃ r k', schedule from k = Ok r k' ∧
  match r with
  | Some i => ∃ p x, ptab k !! i = Some p ∧ state p = RUNNABLE ∧ (from ≤ i)%nat ∧ priority (ptab k) p x ∧
      (∀ j q y, ptab k !! j = Some q → state q = RUNNABLE → priority (ptab k) q y → x ≤ y) ∧
      (∀ j q', ptab k' !! j = Some q' → ∃ q, ptab k !! j = Some q ∧
              state q' = if decide (j = i) then RUNNING else state q)
  | None => from = 0%nat →
      ∀ j q y, ptab k !! j = Some q → state q = RUNNABLE → priority (ptab k) q y → 19 < y
  end.
Proof.
  intros Hr. destruct (schedule_inherit from k Hr) as (r & k' & E & Hres). exists r, k'. split; [done|]. destruct r as [i|].
  - destruct Hres as (p & Hp & Hs & Hi & Hle & Hst). exists p, (inherit (ptab k) p). split_and!; [done..|by apply priority_inherit| |done].
    intros j q y Hq Hsq ->%priority_inherit. by eapply Hle.
  - intros H0 j q y Hq Hsq ->%priority_inherit. by eapply Hres.
Qed.

(** Priority inheritance: what the scheduler compares. *)
Theorem inherited_priority l p :
  inherit l p ≤ nice p ∧
  (∀ q, q ∈ l → blocks p q → inherit l p ≤ nice q) ∧
  (inherit l p = nice p ∨ ∃ q, q ∈ l ∧ blocks p q ∧ inherit l p = nice q).
Proof. apply inherit_least. Qed.

(** * Timed sleep *)

(** [sleep(n)] marks the process with [n] ticks and puts it to sleep on [ticks]:
    after [m] ticks without another wake-up it still sleeps exactly when
    [m <= n]; it wakes at tick [n + 1]. *)
Theorem sleep_wakes_after n m p :
  state p = SLEEPING → pchan p = TicksChan → sleepticks p = n → 0 ≤ n < 2 ^ 31 →
  state (Nat.iter m notify p) = if decide (Z.of_nat m ≤ n) then SLEEPING else RUNNABLE.
Proof.
  intros Hs Hc Hn Hr.
  assert (∀ m p, state p = RUNNABLE → Nat.iter m notify p = p) as Hrun.
  { intros m' p' Hp'. induction m' as [|m' IH]; [done|]. rewrite Nat.iter_succ, IH. unfold notify.
    rewrite decide_False; [done|]. intros [? _]. congruence. }
  revert n p Hs Hc Hn Hr. induction m as [|m IH]; intros n p Hs Hc Hn Hr.
  - cbn. case_decide; [done|lia].
  - rewrite Nat.iter_succ_r. unfold notify at 2. rewrite decide_True by done. rewrite Hn.
    destruct (Z.eqb_spec n 0) as [->|].
    + rewrite Hrun by done. rewrite decide_False by lia. done.
    + rewrite (IH (n - 1)); [|done|done|cbn; rewrite i32_small; lia|lia].
      destruct (decide (Z.of_nat m ≤ n - 1)), (decide (Z.of_nat (S m) ≤ n)); try done; lia.
Qed.

(** * Killing a process that does not exist yet *)

(** [kill(0)] finds an unused entry, whose id is 0, and marks it: the mark stays
    on the process that the entry is given to next. *)
Theorem kill_zero_marks_unborn (k : kernel V) i p :
  list_find (λ p, state p = UNUSED) (ptab k) = Some (i, p) →
  list_find (λ p, pid p = 0) (ptab k) = Some (i, p) →
  ∃ k1 k2 q, kill 0 k = Ok 0 k1 ∧ alloc_slot k1 = Ok (Some i) k2 ∧
             ptab k2 !! i = Some q ∧ state q = EMBRYO ∧ pid q = nextpid k ∧ killed q = 1.
Proof.
  intros Hu Hz. pose proof Hu as (Hi & Hs & Hfirst)%list_find_Some.
  pose proof (lookup_lt_Some _ _ _ Hi) as Hlt.
  assert (kill_proc p = set_killed 1 p) as Ek.
  { unfold kill_proc. rewrite decide_False; [done|]. cbn. congruence. }
  assert (kill 0 k = Ok 0 (Kernel (<[i := set_killed 1 p]> (ptab k)) (nextpid k) (initproc k) (uvmrefcount k) (rest k))) as E1.
  { unfold kill. erewrite bind_ok by reflexivity. rewrite Hz. unfold upd_proc, bind, get_proc. rewrite Hi.
    cbn. by rewrite Ek. }
  eexists _, _, _. split; [exact E1|]. rewrite alloc_slot_eq. cbn [ptab nextpid].
  assert (list_find (λ p, state p = UNUSED) (<[i := set_killed 1 p]> (ptab k)) = Some (i, set_killed 1 p)) as ->.
  { apply list_find_Some. split_and!; [by apply list_lookup_insert_eq|done|].
    intros j y Hj Hlj. rewrite list_lookup_insert_ne in Hj by lia. by eapply Hfirst. }
  split; [done|]. cbn [ptab]. rewrite list_insert_insert_eq.
  split_and!; [by apply list_lookup_insert_eq|done|done|done].
Qed.

(** * Exit and wait *)

(** [exit] leaves a zombie without children, whose parent is not asleep in
    [wait] (it has been woken), and keeps the table well formed. *)
Theorem exit_leaves_zombie cur j (k : kernel V) :
  quiet → table_ok (ptab k) (nextpid k) (initproc k) → runs cur k → initproc k = Some j →
  if decide (cur = j) then exit cur k = Fault else
  ∃ k', exit cur k = Ok tt k' ∧
    table_ok (ptab k') (nextpid k') (initproc k') ∧ exited cur k'.
Proof.
  intros Hq Hi Hr Hj. case_decide as D.
  - subst j. unfold exit. erewrite bind_ok by reflexivity. by rewrite decide_True.
  - destruct (exit_returns cur k Hq Hr) as [k' E]; [congruence|]. exists k'. split; [done|].
    exact (exit_post cur j k Hi Hr Hj tt k' E).
Qed.

(** What one scan of [wait] may do. *)
Definition wait_outcome (cur : nat) (k : kernel V) (r : wait_result) (k' : kernel V) : Prop :=
  match r with
  | Reaped n => ∃ i p q, ptab k !! i = Some p ∧ parent p = Some cur ∧ state p = ZOMBIE ∧ pid p = n ∧
      (∀ j q, (j < i)%nat → ptab k !! j = Some q → ¬ (parent q = Some cur ∧ state q = ZOMBIE)) ∧
      ptab k' = <[i := q]> (ptab k) ∧ state q = UNUSED ∧ parent q = None ∧ pid q = 0 ∧ killed q = 0
  | NoChild => k' = k ∧ (∀ j q, ptab k !! j = Some q → ¬ (parent q = Some cur ∧ state q = ZOMBIE)) ∧
      ((∀ j q, ptab k !! j = Some q → parent q ≠ Some cur) ∨ ∃ c, ptab k !! cur = Some c ∧ killed c ≠ 0)
  | MustSleep => (∀ j q, ptab k !! j = Some q → ¬ (parent q = Some cur ∧ state q = ZOMBIE)) ∧
      (∃ j q, ptab k !! j = Some q ∧ parent q = Some cur) ∧
      ∃ c, ptab k !! cur = Some c ∧ killed c = 0 ∧
           ptab k' = <[cur := set_state SLEEPING (set_pchan (ProcChan cur) c)]> (ptab k)
  end.

Lemma wait_scan_post cur (k k' : kernel V) r :
  wait_scan cur k = Ok r k' → wait_outcome cur k r k'.
Proof.
  revert r k'. change (post (wait_scan cur) (wait_outcome cur k) k).
  unfold wait_scan. apply post_bind, post_gets.
  destruct (list_find _ (ptab k)) as [[i p]|] eqn:Ef.
  - apply list_find_Some in Ef as (Hp & [Hpar Hz] & Hfirst). apply post_bind. unfold reap.
    apply post_bind, post_get_proc. intros p' Hp'. rewrite Hp in Hp'. injection Hp' as <-.
    apply post_bind, post_svc. intros _ v. apply post_bind, post_upd_proc. cbn [ptab nextpid initproc rest].
    intros p' Hp'. rewrite Hp in Hp'. injection Hp' as <-.
    apply post_bind, post_freevm. cbn [ptab nextpid initproc]. intros u v'.
    pose proof (lookup_lt_Some _ _ _ Hp).
    apply post_bind, post_upd_proc. cbn [ptab nextpid initproc]. intros p2 Hp2.
    rewrite list_lookup_insert_eq in Hp2 by done. injection Hp2 as <-. rewrite list_insert_insert_eq.
    apply post_ret, post_ret. eexists i, p, _. cbn [ptab]. split_and!; try done.
    intros j q Hj Hq. by eapply Hfirst.
  - apply list_find_None in Ef. rewrite Forall_forall in Ef.
    assert (∀ j q, ptab k !! j = Some q → ¬ (parent q = Some cur ∧ state q = ZOMBIE)) as Hno.
    { intros j q Hq. apply Ef. by eapply list_elem_of_lookup_2. }
    apply post_bind, post_get_proc. intros c Hc. apply post_if.
    + intros [He Hk]%andb_true_iff. apply bool_decide_eq_true in He. apply Z.eqb_eq in Hk.
      apply post_bind, post_upd_proc. intros c2 Hc2. apply post_ret. cbn [ptab]. simplify_eq.
      split_and!; [done| |by exists c].
      apply Exists_exists in He as (q & Hq & Hpar). apply list_elem_of_lookup in Hq as [j Hq]. by exists j, q.
    + intros Hf%andb_false_iff. apply post_ret. split_and!; [done|done|].
      destruct Hf as [Hf|Hf].
      * left. apply bool_decide_eq_false in Hf. intros j q Hq Hpar. apply Hf, Exists_exists.
        exists q. split; [by eapply list_elem_of_lookup_2|done].
      * right. exists c. split; [done|]. by apply Z.eqb_neq.
Qed.

(** * Shared address spaces *)

(** The number of users of a page table, and well-formed counts: at most one
    entry per page table, all counts positive. *)
Definition users (pg : Z) (l : list uvmdesc) : Z :=
  match locate_uvmrefcount pg l with
  | Some i => default 1 (refcount <$> l !! i)
  | None => 1
  end.
Record counts_ok (l : list uvmdesc) : Prop := {
  co_pos : ∀ i d, l !! i = Some d → refcount d ≠ -1 → 1 ≤ refcount d;
  co_one : ∀ i j d e, l !! i = Some d → l !! j = Some e → refcount d ≠ -1 → refcount e ≠ -1 →
           u_pgdir d = u_pgdir e → i = j
}.

Lemma locate_iff l pg i :
  counts_ok l → locate_uvmrefcount pg l = Some i ↔ ∃ d, l !! i = Some d ∧ refcount d ≠ -1 ∧ u_pgdir d = pg.
Proof.
  intros Hl. unfold locate_uvmrefcount. split.
  - destruct (list_find _ l) as [[j d]|] eqn:E; [|done]. intros [= <-].
    apply list_find_Some in E as (? & [? ?] & _). by exists d.
  - intros (d & Hd & Hr & Hp). destruct (list_find _ l) as [[j e]|] eqn:E.
    + apply list_find_Some in E as (He & [? ?] & _). cbn. f_equal.
      eapply (co_one _ Hl j i e d); try done. congruence.
    + apply list_find_None in E. rewrite Forall_forall in E. exfalso.
      apply (E d); [by eapply list_elem_of_lookup_2|done].
Qed.

Lemma users_Some l pg i d :
  counts_ok l → l !! i = Some d → refcount d ≠ -1 → u_pgdir d = pg → users pg l = refcount d.
Proof.
  intros Hl Hd Hr Hp. unfold users. rewrite (proj2 (locate_iff l pg i Hl)) by eauto. by rewrite Hd.
Qed.

Lemma users_None l pg :
  counts_ok l → (∀ i d, l !! i = Some d → refcount d ≠ -1 → u_pgdir d ≠ pg) → users pg l = 1.
Proof.
  intros Hl Hno. unfold users. destruct (locate_uvmrefcount pg l) as [i|] eqn:E; [|done].
  apply (locate_iff _ _ _ Hl) in E as (d & Hd & Hr & Hp). by destruct (Hno i d Hd Hr).
Qed.

(** Entry [i] gets a new count for [pg]. *)
Lemma counts_ok_insert l i d pg rc :
  counts_ok l → l !! i = Some d → (rc ≠ -1 → 1 ≤ rc) →
  (∀ j e, l !! j = Some e → refcount e ≠ -1 → u_pgdir e = pg → j = i) →
  (refcount d ≠ -1 → u_pgdir d = pg) →
  counts_ok (<[i := Uvm rc pg]> l) ∧
  users pg (<[i := Uvm rc pg]> l) = (if decide (rc = -1) then 1 else rc) ∧
  ∀ pg', pg' ≠ pg → users pg' (<[i := Uvm rc pg]> l) = users pg' l.
Proof.
  intros Hl Hd Hrc Hone Hdp. pose proof (lookup_lt_Some _ _ _ Hd) as Hlt.
  assert (∀ j e, <[i := Uvm rc pg]> l !! j = Some e → j = i ∧ e = Uvm rc pg ∨ j ≠ i ∧ l !! j = Some e) as Hi.
  { intros j e Hj. destruct (decide (j = i)) as [->|].
    - rewrite list_lookup_insert_eq in Hj by done. left. by injection Hj as <-.
    - rewrite list_lookup_insert_ne in Hj by done. by right. }
  assert (counts_ok (<[i := Uvm rc pg]> l)) as Hl'.
  { split.
    - intros j e [[-> ->]|[? He]]%Hi; [exact Hrc|by apply (co_pos _ Hl j)].
    - intros j1 j2 e1 e2 [[-> ->]|[? H1]]%Hi [[-> ->]|[? H2]]%Hi Hr1 Hr2 Ep; cbn in *; [done|..].
      + symmetry. by apply (Hone j2 e2).
      + by apply (Hone j1 e1).
      + by apply (co_one _ Hl j1 j2 e1 e2). }
  split; [done|]. split.
  - case_decide as Erc.
    + apply users_None; [done|]. intros j e [[-> ->]|[? He]]%Hi Hr; [done|].
      intros Ep. by apply (Hone j e) in He.
    + by apply (users_Some _ pg i (Uvm rc pg)); [|apply list_lookup_insert_eq| |].
  - intros pg' Hne. destruct (locate_uvmrefcount pg' l) as [j|] eqn:E.
    + apply (locate_iff _ _ _ Hl) in E as (e & He & Hr & Hp).
      assert (j ≠ i) by (intros ->; simplify_eq; auto).
      rewrite (users_Some l pg' j e) by done. apply (users_Some _ pg' j e); try done.
      by rewrite list_lookup_insert_ne.
    + rewrite (users_None l pg'); [|done|].
      * apply users_None; [done|]. intros j e [[-> ->]|[? He]]%Hi Hr; [done|]. intros Hp.
        assert (locate_uvmrefcount pg' l = Some j) by (apply (locate_iff _ _ _ Hl); eauto). congruence.
      * intros j e He Hr Hp.
        assert (locate_uvmrefcount pg' l = Some j) by (apply (locate_iff _ _ _ Hl); eauto). congruence.
Qed.

Lemma freevm_returns pg (k : kernel V) :
  quiet → counts_ok (uvmrefcount k) → pg ≠ 0 →
  ∃ k', freevm pg k = Ok tt k' ∧ ptab k' = ptab k.
Proof.
  intros (_ & _ & _ & Hf) Hl Hpg. unfold freevm, release_uvm.
  assert (∀ k1 : kernel V, ptab k1 = ptab k →
    ∃ k', (if pg =? 0 then fault else svc (free_pages pg)) k1 = Ok tt k' ∧ ptab k' = ptab k) as Hfree.
  { intros k1 Hk1. rewrite (proj2 (Z.eqb_neq _ _) Hpg). destruct (svc_ok (free_pages pg) k1 (Hf pg)) as ([] & v & E).
    by eexists. }
  destruct (locate_uvmrefcount pg (uvmrefcount k)) as [i|] eqn:E.
  - apply (locate_iff _ _ _ Hl) in E as E'. destruct E' as (d & Hd & Hr & Hp).
    pose proof (co_pos _ Hl i d Hd Hr). unfold bind at 1 2. cbn [gets]. rewrite E, Hd. cbn [of_opt].
    unfold bind at 1. cbn [ret]. rewrite (proj2 (Z.ltb_ge _ _)) by lia. cbv zeta.
    destruct (Z.eqb_spec (refcount d - 1) 0); cbn [negb].
    + erewrite bind_ok by reflexivity. by apply Hfree.
    + erewrite bind_ok by reflexivity. by eexists.
  - unfold bind at 1 2. cbn [gets]. rewrite E. by apply Hfree.
Qed.

Lemma wait_scan_returns cur (k : kernel V) :
  quiet → counts_ok (uvmrefcount k) → (cur < length (ptab k))%nat →
  (∀ i p, ptab k !! i = Some p → state p = ZOMBIE → pgdir p ≠ 0) →
  ∃ r k', wait_scan cur k = Ok r k'.
Proof.
  intros Hq Hl Hcur Hpg. pose proof Hq as (_ & _ & Hkf & _).
  unfold wait_scan. unfold bind at 1. cbn [gets].
  destruct (list_find _ (ptab k)) as [[i p]|] eqn:Ef.
  - apply list_find_Some in Ef as (Hp & [Hpar Hz] & _). pose proof (lookup_lt_Some _ _ _ Hp).
    assert (∃ n k', reap i k = Ok n k') as (n & k' & E); [|by rewrite (bind_ok _ _ _ _ _ E); eexists _, _].
    unfold reap. erewrite bind_ok by (unfold get_proc; by rewrite Hp).
    destruct (svc_ok (kfree (kstack p)) k (Hkf _)) as ([] & v & E). rewrite (bind_ok _ _ _ _ _ E).
    destruct (returns_upd_proc (length (ptab k)) i (set_kstack 0) ltac:(lia)
      (Kernel (ptab k) (nextpid k) (initproc k) (uvmrefcount k) v) eq_refl) as ([] & k1 & E1 & Hk1).
    rewrite (bind_ok _ _ _ _ _ E1).
    assert (uvmrefcount k1 = uvmrefcount k) as Eu.
    { unfold upd_proc in E1. apply bind_inv in E1 as (q & k2 & E2 & E1). injection E1 as <-.
      unfold get_proc in E2. destruct (_ !! _); [|done]. by injection E2 as _ <-. }
    destruct (freevm_returns (pgdir p) k1 Hq ltac:(by rewrite Eu) ltac:(eauto)) as (k2 & E2 & Ek2).
    rewrite (bind_ok _ _ _ _ _ E2).
    edestruct (returns_upd_proc (length (ptab k2)) i) as ([] & k3 & E3 & Hk3); [|done|].
    { rewrite Ek2. lia. }
    rewrite (bind_ok _ _ _ _ _ E3). by eexists _, _.
  - destruct (lookup_lt_is_Some_2 _ _ Hcur) as [c Hc]. erewrite bind_ok by (unfold get_proc; by rewrite Hc).
    destruct (_ && _); [|by eexists _, _]. unfold go_to_sleep, upd_proc, bind, get_proc. rewrite Hc. by eexists _, _.
Qed.

(** One scan of [wait]: it reaps the first zombie child, frees its entry and
    returns its id; without one it gives up when there is no child (or the
    caller was killed) and otherwise goes to sleep on its own address. *)
Theorem wait_scan_correct cur (k : kernel V) :
  quiet → counts_ok (uvmrefcount k) → (cur < length (ptab k))%nat →
  (∀ i p, ptab k !! i = Some p → state p = ZOMBIE → pgdir p ≠ 0) →
  ∃ r k', wait_scan cur k = Ok r k' ∧ wait_outcome cur k r k'.
Proof.
  intros Hq Hl Hcur Hpg. destruct (wait_scan_returns cur k Hq Hl Hcur Hpg) as (r & k' & E).
  exists r, k'. split; [done|]. by apply wait_scan_post.
Qed.

(** [clone] counts one more user of the page table; [freevm] counts one less
    and frees the pages exactly when the last user goes; other page tables keep
    their counts. *)
Theorem uvm_refcounts pg (k : kernel V) :
  counts_ok (uvmrefcount k) →
  (locate_uvmrefcount pg (uvmrefcount k) = None → Exists (λ d, refcount d = -1) (uvmrefcount k)) →
  (∃ u, share_uvm pg k = Ok tt (Kernel (ptab k) (nextpid k) (initproc k) u (rest k)) ∧
     counts_ok u ∧ users pg u = users pg (uvmrefcount k) + 1 ∧
     ∀ pg', pg' ≠ pg → users pg' u = users pg' (uvmrefcount k)) ∧
  (∃ u, release_uvm pg k =
          Ok (users pg (uvmrefcount k) =? 1) (Kernel (ptab k) (nextpid k) (initproc k) u (rest k)) ∧
     counts_ok u ∧ users pg u = Z.max 1 (users pg (uvmrefcount k) - 1) ∧
     ∀ pg', pg' ≠ pg → users pg' u = users pg' (uvmrefcount k)).
Proof.
  intros Hl Hroom. set (l := uvmrefcount k) in *.
  unfold share_uvm, release_uvm. unfold bind at 1 3. cbn [gets]. fold l.
  destruct (locate_uvmrefcount pg l) as [i|] eqn:E.
  - apply (locate_iff _ _ _ Hl) in E as (d & Hd & Hr & Hp). pose proof (co_pos _ Hl i d Hd Hr).
    assert (∀ j e, l !! j = Some e → refcount e ≠ -1 → u_pgdir e = pg → j = i) as Hone
      by (intros j e He Hre Hpe; apply (co_one _ Hl j i e d); congruence).
    rewrite (users_Some l pg i d) by done. rewrite Hd. cbn [of_opt].
    split.
    + destruct (counts_ok_insert l i d pg (refcount d + 1)) as (H1 & H2 & H3); [done|done|lia|done|done|].
      exists (<[i := Uvm (refcount d + 1) pg]> l). split; [unfold bind, ret, set_uvm, modify; by rewrite Hp|].
      split_and!; [done| |done].
      rewrite H2, decide_False by lia. done.
    + unfold bind at 1. cbn [ret]. rewrite (proj2 (Z.ltb_ge _ _)) by lia. cbv zeta.
      destruct (Z.eqb_spec (refcount d - 1) 0) as [Ez|Ez]; cbn [negb].
      * destruct (counts_ok_insert l i d pg (-1)) as (H1 & H2 & H3); [done|done|lia|done|done|].
        exists (<[i := Uvm (-1) pg]> l). split; [unfold bind, ret, set_uvm, modify|].
        { rewrite (proj2 (Z.eqb_eq _ _)) by lia. reflexivity. }
        split_and!; [done| |done]. rewrite H2, decide_True by done. lia.
      * destruct (counts_ok_insert l i d pg (refcount d - 1)) as (H1 & H2 & H3); [done|done|lia|done|done|].
        exists (<[i := Uvm (refcount d - 1) pg]> l). split; [unfold bind, ret, set_uvm, modify|].
        { rewrite (proj2 (Z.eqb_neq _ _)) by lia. reflexivity. }
        split_and!; [done| |done]. rewrite H2, decide_False by lia. lia.
  - specialize (Hroom eq_refl).
    assert (∀ j e, l !! j = Some e → refcount e ≠ -1 → u_pgdir e ≠ pg) as Hno.
    { intros j e He Hr Hp. assert (locate_uvmrefcount pg l = Some j) by (apply (locate_iff _ _ _ Hl); eauto). congruence. }
    rewrite (users_None l pg Hl Hno). split.
    + unfold allocate_uvmrefcount. destruct (list_find _ l) as [[i d]|] eqn:Ef.
      * apply list_find_Some in Ef as (Hd & Hr & _).
        destruct (counts_ok_insert l i d pg 2) as (H1 & H2 & H3); [done|done|lia| |done|].
        { intros j e He Hre Hpe. by destruct (Hno j e). }
        exists (<[i := Uvm 2 pg]> l). split; [reflexivity|]. by split_and!.
      * apply list_find_None in Ef. exfalso. apply Exists_exists in Hroom as (d & Hd & Hr).
        rewrite Forall_forall in Ef. by apply (Ef d).
    + exists l. split; [by destruct k|]. split_and!; [done|by rewrite (users_None l pg Hl Hno)|done].
Qed.

End Sched.
End ProcSched.
