(* ===== verification/Kalloc.v ===== *)
(** Kalloc: physical memory and the page allocator of xv6
    (p5/xv6-public/kalloc.c; p4 has the same file).  The free pages form a list
    that is linked through their first words. *)
From S2P Require Import Prelude.
From stdpp Require Import gmap.
Local Open Scope Z_scope.

Module Kalloc.

Definition PGSIZE : Z := 4096.
Definition KERNBASE : Z := 0x80000000.
Definition PHYSTOP : Z := 0xE000000.
Definition V2P (a : Z) : Z := u32 (a - KERNBASE).
Definition P2V (a : Z) : Z := u32 (a + KERNBASE).
Definition PGROUNDUP (sz : Z) : Z := Z.land (u32 (sz + PGSIZE - 1)) (u32 (Z.lnot (PGSIZE - 1))).
Definition PGROUNDDOWN (a : Z) : Z := Z.land a (u32 (Z.lnot (PGSIZE - 1))).

Lemma PGROUNDDOWN_eq a : 0 ≤ a < 2 ^ 32 → PGROUNDDOWN a = a - a mod PGSIZE.
Proof.
  intros Ha. unfold PGROUNDDOWN, PGSIZE.
  change (u32 (Z.lnot (4096 - 1))) with (Z.land (Z.ones 32) (Z.lnot (Z.ones 12))).
  rewrite Z.land_assoc, Z.land_ones, Z.mod_small, <- Z.ldiff_land, Z.ldiff_ones_r by lia.
  rewrite Z.shiftr_div_pow2, Z.shiftl_mul_pow2 by lia. change (2 ^ 12) with 4096.
  pose proof (Z.div_mod a 4096 ltac:(lia)). lia.
Qed.

Lemma PGROUNDUP_aligned v : v mod PGSIZE = 0 → 0 ≤ v < 2 ^ 32 → PGROUNDUP v = v.
Proof.
  intros Ha Hv. unfold PGROUNDUP. fold (PGROUNDDOWN (u32 (v + PGSIZE - 1))). unfold PGSIZE in *.
  pose proof (Z.div_mod v 4096 ltac:(lia)). assert (v ≤ 2 ^ 32 - 4096) by lia.
  rewrite u32_small, PGROUNDDOWN_eq by lia. unfold PGSIZE.
  replace (v + 4096 - 1) with (4095 + v / 4096 * 4096) by lia.
  rewrite Z.mod_add by lia. change (4095 mod 4096) with 4095. lia.
Qed.

(** Physical memory: pages of 1024 words, by their kernel virtual address, and
    [kmem.freelist]. *)
Record phys := Phys { freelist : Z; frames : gmap Z (list Z) }.

(** Words of memory. *)
Definition page_of (a : Z) : Z := a - a mod PGSIZE.
Definition word_of (a : Z) : nat := Z.to_nat (a mod PGSIZE / 4).
Definition ld_word (a : Z) : ST phys Z := λ m,
  if negb (a mod 4 =? 0) then Fault else
  match frames m !! page_of a ≫= lookup (word_of a) with
  | Some w => Ok w m
  | None => Fault
  end.
Definition st_word (a w : Z) : ST phys unit := λ m,
  if negb (a mod 4 =? 0) then Fault else
  match frames m !! page_of a with
  | Some ws => if (word_of a <? length ws)%nat
               then Ok tt (Phys (freelist m) (<[page_of a := <[word_of a := w]> ws]> (frames m)))
               else Fault
  | None => Fault
  end.

(** [memset(v, c, PGSIZE)] on a page. *)
Definition fill_page (v c : Z) : ST phys unit := λ m,
  match frames m !! v with
  | Some ws => Ok tt (Phys (freelist m) (<[v := replicate (length ws) (c * 0x01010101)]> (frames m)))
  | None => Fault
  end.

Section Kalloc.
(** [end]: the first address after the kernel, a symbol of the linker. *)
Context (kend : Z).

(** [void kfree(char *v)] *)
Definition kfree (v : Z) : ST phys unit :=
  if negb (v mod PGSIZE =? 0) || (v <? kend) || (PHYSTOP <=? V2P v) then fault else
  do! fill_page v 1 in
  let! r := gets freelist in
  do! st_word v r in
  modify (λ m, Phys v (frames m)).

(** [char *kalloc(void)] *)
Definition kalloc : ST phys Z :=
  let! r := gets freelist in
  if r =? 0 then ret r else
  let! next := ld_word r in
  do! modify (λ m, Phys next (frames m)) in
  ret r.

(** [void freerange(void *vstart, void *vend)] *)
Definition freerange (vstart vend : Z) : ST phys unit :=
  loop (Z.to_nat ((vend - vstart) / PGSIZE) + 2) (λ p,
    if p + PGSIZE <=? vend then do! kfree p in ret (inl (p + PGSIZE)) else ret (inr tt))
    (PGROUNDUP vstart).

(** * The free list *)

(** [l] is the list of the free pages, from the head on. *)
Fixpoint chain (fr : gmap Z (list Z)) (h : Z) (l : list Z) : Prop :=
  match l with
  | [] => h = 0
  | a :: l => h = a ∧ a ≠ 0 ∧ a mod PGSIZE = 0 ∧
              ∃ next ws, fr !! a = Some (next :: ws) ∧ length ws = 1023%nat ∧ chain fr next l
  end.

Lemma chain_insert fr h l a ws : a ∉ l → chain fr h l → chain (<[a := ws]> fr) h l.
Proof.
  revert h. induction l as [|b l IH]; intros h Ha; [done|].
  apply not_elem_of_cons in Ha as [? Ha]. intros (? & ? & ? & next & w & ? & ? & ?).
  split_and!; try done. exists next, w. rewrite lookup_insert_ne by done. auto.
Qed.

Lemma aligned_word v : v mod PGSIZE = 0 → v mod 4 = 0 ∧ page_of v = v ∧ word_of v = 0%nat.
Proof.
  intros H. unfold page_of, word_of. rewrite H. split_and!; [|lia|done].
  unfold PGSIZE in H. pose proof (Z.div_mod v 4096 ltac:(lia)) as E. rewrite H, Z.add_0_r in E.
  rewrite E. replace (4096 * (v / 4096)) with (0 + (1024 * (v / 4096)) * 4) by lia.
  by rewrite Z.mod_add by lia.
Qed.

Definition kpage (v : Z) : Prop := v mod PGSIZE = 0 ∧ kend ≤ v ∧ V2P v < PHYSTOP ∧ v ≠ 0.

(** The page after [kfree]. *)
Definition freed (h : Z) : list Z := h :: replicate 1023 0x01010101.

Lemma kfree_ok m v ws :
  kpage v → frames m !! v = Some ws → length ws = 1024%nat →
  kfree v m = Ok tt (Phys v (<[v := freed (freelist m)]> (frames m))).
Proof.
  intros (Ha & Hk & Hp & Hnz) Hw Hl. destruct (aligned_word v Ha) as (E4 & Ep & Ew).
  unfold kfree. rewrite Ha. assert (negb (0 =? 0) || (v <? kend) || (PHYSTOP <=? V2P v) = false) as -> by lia.
  erewrite bind_ok by (unfold fill_page; by rewrite Hw). erewrite bind_ok by reflexivity.
  cbn [freelist frames]. erewrite bind_ok.
  2:{ unfold st_word. cbn [frames freelist]. rewrite E4, Ep, Ew, lookup_insert_eq. cbn [negb Z.eqb].
      rewrite length_replicate, Hl. reflexivity. }
  unfold modify. cbn [frames freelist]. rewrite insert_insert_eq. reflexivity.
Qed.

Lemma kalloc_ok m a l :
  chain (frames m) (freelist m) (a :: l) →
  ∃ m', kalloc m = Ok a m' ∧ frames m' = frames m ∧ chain (frames m') (freelist m') l.
Proof.
  intros (Eh & Hnz & Ha & next & ws & Hw & Hl & Hc). destruct (aligned_word a Ha) as (E4 & Ep & Ew).
  exists (Phys next (frames m)). split_and!; [|done|done].
  unfold kalloc. erewrite bind_ok by reflexivity. rewrite Eh. destruct (Z.eqb_spec a 0); [done|].
  erewrite bind_ok; [reflexivity|]. unfold ld_word. rewrite E4, Ep, Ew, Hw. done.
Qed.

(** The allocator is a stack of pages: a page that is freed is the next one
    handed out, [kalloc] takes the top and 0 means that the stack is empty; no
    page is on it twice. *)
Theorem kalloc_is_stack m v ws l :
  chain (frames m) (freelist m) l → NoDup l →
  kpage v → v ∉ l → frames m !! v = Some ws → length ws = 1024%nat →
  (∃ m', kfree v m = Ok tt m' ∧ chain (frames m') (freelist m') (v :: l) ∧ NoDup (v :: l) ∧
     ∃ m'', kalloc m' = Ok v m'' ∧ chain (frames m'') (freelist m'') l) ∧
  match l with
  | [] => kalloc m = Ok 0 m
  | a :: l' => ∃ m', kalloc m = Ok a m' ∧ frames m' = frames m ∧ chain (frames m') (freelist m') l'
  end.
Proof.
  intros Hc Hnd Hv Hni Hw Hl. split.
  - eexists. split; [by eapply kfree_ok|]. cbn [frames freelist].
    assert (chain (<[v := freed (freelist m)]> (frames m)) v (v :: l)) as Hc'.
    { destruct Hv as (? & ? & ? & ?). split_and!; try done. exists (freelist m), (replicate 1023 0x01010101).
      split_and!; [apply lookup_insert_eq|by rewrite length_replicate|by apply chain_insert]. }
    split_and!; [done|by constructor|].
    destruct (kalloc_ok (Phys v (<[v := freed (freelist m)]> (frames m))) v l Hc') as (m'' & ? & ? & ?).
    by exists m''.
  - destruct l as [|a l]; [|by apply kalloc_ok]. cbn in Hc. unfold kalloc. erewrite bind_ok by reflexivity.
    by rewrite Hc.
Qed.

(** The [i]-th page from [v] on. *)
Definition nth_page (v : Z) (i : nat) : Z := v + Z.of_nat i * PGSIZE.

Lemma nth_page_S v i : nth_page (v + PGSIZE) i = nth_page v (S i).
Proof. unfold nth_page. lia. Qed.

(** [freerange] puts every page of the range on the list, the last one first. *)
Theorem freerange_frees_all m v n l :
  chain (frames m) (freelist m) l → v mod PGSIZE = 0 → 0 < v → v + Z.of_nat n * PGSIZE < 2 ^ 32 →
  (∀ i, (i < n)%nat → let a := (v + Z.of_nat i * PGSIZE)%Z in
     (kpage (nth_page v i) ∧ (nth_page v i ∉ l) ∧ ∃ ws, frames m !! nth_page v i = Some ws ∧ length ws = 1024%nat)) →
  ∃ m', freerange v (v + Z.of_nat n * PGSIZE) m = Ok tt m' ∧
    chain (frames m') (freelist m') (reverse (nth_page v <$> seq 0 n) ++ l).
Proof.
  intros Hc Ha Hv Hlim Hpages. unfold freerange.
  rewrite PGROUNDUP_aligned by (unfold PGSIZE in *; lia).
  set (vend := v + Z.of_nat n * PGSIZE). set (body := λ p : Z, _).
  enough (∀ n v fuel m l, chain (frames m) (freelist m) l → (n < fuel)%nat → v mod PGSIZE = 0 →
    (∀ i, (i < n)%nat → let a := (v + Z.of_nat i * PGSIZE)%Z in
       (kpage (nth_page v i) ∧ (nth_page v i ∉ l) ∧ ∃ ws, frames m !! nth_page v i = Some ws ∧ length ws = 1024%nat)) →
    vend = v + Z.of_nat n * PGSIZE →
    ∃ m', loop fuel body v m = Ok tt m' ∧
      chain (frames m') (freelist m') (reverse (nth_page v <$> seq 0 n) ++ l)) as Hgen.
  { apply Hgen; try done. unfold vend. rewrite Z.add_simpl_l, Z.div_mul by (unfold PGSIZE; lia). lia. }
  subst body. clearbody vend. clear. intros n. induction n as [|n IH]; intros v fuel m l Hc Hf Ha Hp He; (destruct fuel as [|fuel]; [lia|]).
  - exists m. split; [|done]. apply loop_exit. rewrite (proj2 (Z.leb_gt _ _)) by (unfold PGSIZE in *; lia). done.
  - destruct (Hp 0%nat ltac:(lia)) as (Hk & Hni & ws & Hw & Hl). unfold nth_page in Hk, Hni, Hw. rewrite Z.mul_0_l, Z.add_0_r in Hk, Hni, Hw.
    set (m1 := Phys v (<[v := freed (freelist m)]> (frames m))).
    destruct (IH (v + PGSIZE) fuel m1 (v :: l)) as (m' & E & Hc'); [|lia| | |lia|].
    + destruct Hk as (? & ? & ? & ?). split_and!; try done. exists (freelist m), (replicate 1023 0x01010101).
      split_and!; [apply lookup_insert_eq|by rewrite length_replicate|by apply chain_insert].
    + rewrite <- (Z.mod_add v 1 PGSIZE) in Ha by done. by rewrite Z.mul_1_l in Ha.
    + intros i Hi. destruct (Hp (S i) ltac:(lia)) as (Hk' & Hni' & ws' & Hw' & Hl').
      rewrite nth_page_S. assert (nth_page v (S i) ≠ v) by (unfold nth_page, PGSIZE; lia).
      split_and!; [done|by apply not_elem_of_cons|]. exists ws'. cbn [frames m1].
      by rewrite lookup_insert_ne.
    + exists m'. split.
      * rewrite (loop_next _ _ _ _ (v + PGSIZE) m1).
        -- exact E.
        -- rewrite (proj2 (Z.leb_le _ _)) by (unfold PGSIZE in *; lia).
           erewrite bind_ok by (by eapply kfree_ok). done.
      * revert Hc'. cbn [seq fmap list_fmap]. rewrite reverse_cons, <- app_assoc. cbn [app].
        rewrite <- fmap_S_seq, <- list_fmap_compose.
        rewrite (list_fmap_ext (nth_page (v + PGSIZE)) (nth_page v ∘ S) (seq 0 n)); [|intros; apply nth_page_S].
        replace (nth_page v 0) with v by (unfold nth_page; lia). done.
Qed.

End Kalloc.
End Kalloc.
