(* ===== verification/Vm.v ===== *)
(** Vm: page tables (p4/xv6-public/vm.c; p5 has the same code but for the
    reference counts of [freevm]).  A page directory and its page tables are
    pages of physical memory, addressed as the kernel addresses them. *)
From S2P Require Import Prelude Kalloc.
From stdpp Require Import gmap.
Local Open Scope Z_scope.

Module Vm.
Import Kalloc.

Definition PTE_P : Z := 0x001.
Definition PTE_W : Z := 0x002.
Definition PTE_U : Z := 0x004.
Definition PDX (va : Z) : Z := Z.land (Z.shiftr va 22) 0x3FF.
Definition PTX (va : Z) : Z := Z.land (Z.shiftr va 12) 0x3FF.
Definition PGADDR (d t o : Z) : Z := u32 (Z.lor (Z.lor (Z.shiftl d 22) (Z.shiftl t 12)) o).
Definition PTE_ADDR (pte : Z) : Z := Z.land pte (u32 (Z.lnot 0xFFF)).
Definition PTE_FLAGS (pte : Z) : Z := Z.land pte 0xFFF.
Definition NPDENTRIES : Z := 1024.

(** [e & f] as a condition. *)
Definition has (e f : Z) : bool := negb (Z.land e f =? 0).

(** ** Bytes of memory *)
Definition byte_in (w k : Z) : Z := Z.land (Z.shiftr w (8 * k)) 0xFF.
Definition with_byte (w k b : Z) : Z :=
  Z.lor (Z.ldiff w (Z.shiftl 0xFF (8 * k))) (Z.shiftl (Z.land b 0xFF) (8 * k)).
Definition st_byte (a b : Z) : ST phys unit :=
  let! w := ld_word (a - a mod 4) in
  st_word (a - a mod 4) (with_byte w (a mod 4) b).
(** [memmove(a, buf, n)] from a buffer outside the pages. *)
Fixpoint copy_in (a : Z) (buf : list Z) : ST phys unit :=
  match buf with
  | [] => ret tt
  | b :: buf => do! st_byte a b in copy_in (a + 1) buf
  end.
(** [memmove(dst, src, PGSIZE)] between pages. *)
Definition copy_page (dst src : Z) : ST phys unit := λ m,
  match frames m !! src, frames m !! dst with
  | Some ws, Some _ => Ok tt (Phys (freelist m) (<[dst := ws]> (frames m)))
  | _, _ => Fault
  end.

Section Vm.
(** [end] and [data]: symbols of the linker. *)
Context (kend kdata : Z).

(** [pte_t *walkpgdir(pde_t *pgdir, const void *va, int alloc)] *)
Definition walkpgdir (pgdir va : Z) (alloc : bool) : ST phys Z :=
  let pde := pgdir + 4 * PDX va in
  let! e := ld_word pde in
  if has e PTE_P then ret (P2V (PTE_ADDR e) + 4 * PTX va) else
  if negb alloc then ret 0 else
  let! pgtab := kalloc in
  if pgtab =? 0 then ret 0 else
  do! fill_page pgtab 0 in
  do! st_word pde (Z.lor (Z.lor (Z.lor (V2P pgtab) PTE_P) PTE_W) PTE_U) in
  ret (pgtab + 4 * PTX va).

(** One turn of the loop of [mappages]. *)
Definition map_page (pgdir perm last : Z) : Z * Z → ST phys ((Z * Z) + Z) := λ '(a, pa),
  let! pte := walkpgdir pgdir a true in
  if pte =? 0 then ret (inr (-1)) else
  let! e := ld_word pte in
  if has e PTE_P then fault else
  do! st_word pte (Z.lor (Z.lor pa perm) PTE_P) in
  if a =? last then ret (inr 0) else ret (inl (u32 (a + PGSIZE), u32 (pa + PGSIZE))).

(** [int mappages(pde_t *pgdir, void *va, uint size, uint pa, int perm)] *)
Definition mappages (pgdir va size pa perm : Z) : ST phys Z :=
  let a := PGROUNDDOWN va in
  let last := PGROUNDDOWN (u32 (va + size - 1)) in
  loop (S (Z.to_nat (u32 (last - a) / PGSIZE))) (map_page pgdir perm last) (a, pa).

(** [int deallocuvm(pde_t *pgdir, uint oldsz, uint newsz)] *)
Definition dealloc_page (pgdir a : Z) : ST phys Z :=
  let! pte := walkpgdir pgdir a false in
  if pte =? 0 then ret (u32 (u32 (PGADDR (PDX a + 1) 0 0 - PGSIZE) + PGSIZE)) else
  let! e := ld_word pte in
  do! (if has e PTE_P then
         let pa := PTE_ADDR e in
         if pa =? 0 then fault else
         do! kfree kend (P2V pa) in
         st_word pte 0
       else ret tt) in
  ret (u32 (a + PGSIZE)).
Definition deallocuvm (pgdir oldsz newsz : Z) : ST phys Z :=
  if oldsz <=? newsz then ret oldsz else
  loop (Z.to_nat ((oldsz - newsz) / PGSIZE) + 2) (λ a,
    if a <? oldsz then let! a := dealloc_page pgdir a in ret (inl a) else ret (inr newsz))
    (PGROUNDUP newsz).

(** [void freevm(pde_t *pgdir)] *)
Definition freevm (pgdir : Z) : ST phys unit :=
  if pgdir =? 0 then fault else
  let! _ := deallocuvm pgdir KERNBASE 0 in
  do! for_range 0 NPDENTRIES (λ i,
    let! e := ld_word (pgdir + 4 * i) in
    do! (if has e PTE_P then kfree kend (P2V (PTE_ADDR e)) else ret tt) in
    ret (@None unit)) in
  kfree kend pgdir.

(** The table [kmap]: virtual address, physical start and end, permissions. *)
Definition EXTMEM : Z := 0x100000.
Definition KERNLINK : Z := KERNBASE + EXTMEM.
Definition DEVSPACE : Z := 0xFE000000.
Definition kmap : list (Z * Z * Z * Z) :=
  [ (KERNBASE, 0, EXTMEM, PTE_W);
    (KERNLINK, V2P KERNLINK, V2P kdata, 0);
    (kdata, V2P kdata, PHYSTOP, PTE_W);
    (DEVSPACE, DEVSPACE, 0, PTE_W) ].

(** [pde_t* setupkvm(void)] *)
Fixpoint map_kernel (pgdir : Z) (ks : list (Z * Z * Z * Z)) : ST phys Z :=
  match ks with
  | [] => ret pgdir
  | (virt, phys_start, phys_end, perm) :: ks =>
      let! r := mappages pgdir virt (u32 (phys_end - phys_start)) phys_start perm in
      if r <? 0 then do! freevm pgdir in ret 0 else map_kernel pgdir ks
  end.
Definition setupkvm : ST phys Z :=
  let! pgdir := kalloc in
  if pgdir =? 0 then ret 0 else
  do! fill_page pgdir 0 in
  if DEVSPACE <? P2V PHYSTOP then fault else
  map_kernel pgdir kmap.

(** [void inituvm(pde_t *pgdir, char *init, uint sz)]; neither [kalloc] nor
    [mappages] is tested. *)
Definition inituvm (pgdir : Z) (init : list Z) : ST phys unit :=
  if PGSIZE <=? Z.of_nat (length init) then fault else
  let! mem := kalloc in
  do! fill_page mem 0 in
  let! _ := mappages pgdir 0 PGSIZE (V2P mem) (Z.lor PTE_W PTE_U) in
  copy_in mem init.

(** [int allocuvm(pde_t *pgdir, uint oldsz, uint newsz)] *)
Definition alloc_page (pgdir oldsz newsz a : Z) : ST phys (Z + Z) :=
  if negb (a <? newsz) then ret (inr newsz) else
  let! mem := kalloc in
  if mem =? 0 then let! _ := deallocuvm pgdir newsz oldsz in ret (inr 0) else
  do! fill_page mem 0 in
  let! r := mappages pgdir a PGSIZE (V2P mem) (Z.lor PTE_W PTE_U) in
  if r <? 0 then
    let! _ := deallocuvm pgdir newsz oldsz in
    do! kfree kend mem in ret (inr 0)
  else ret (inl (u32 (a + PGSIZE))).
Definition allocuvm (pgdir oldsz newsz : Z) : ST phys Z :=
  if KERNBASE <=? newsz then ret 0 else
  if newsz <? oldsz then ret oldsz else
  loop (Z.to_nat ((newsz - oldsz) / PGSIZE) + 2) (alloc_page pgdir oldsz newsz) (PGROUNDUP oldsz).

(** [void clearpteu(pde_t *pgdir, char *uva)] *)
Definition clearpteu (pgdir uva : Z) : ST phys unit :=
  let! pte := walkpgdir pgdir uva false in
  if pte =? 0 then fault else
  let! e := ld_word pte in
  st_word pte (Z.ldiff e PTE_U).

(** [pde_t* copyuvm(pde_t *pgdir, uint sz)] *)
Definition copy_user_page (d pgdir sz i : Z) : ST phys (Z + Z) :=
  if negb (i <? sz) then ret (inr d) else
  let! pte := walkpgdir pgdir i false in
  if pte =? 0 then fault else
  let! e := ld_word pte in
  if negb (has e PTE_P) then fault else
  let pa := PTE_ADDR e in
  let flags := PTE_FLAGS e in
  let! mem := kalloc in
  if mem =? 0 then do! freevm d in ret (inr 0) else
  do! copy_page mem (P2V pa) in
  let! r := mappages d i PGSIZE (V2P mem) flags in
  if r <? 0 then do! kfree kend mem in do! freevm d in ret (inr 0)
  else ret (inl (u32 (i + PGSIZE))).
Definition copyuvm (pgdir sz : Z) : ST phys Z :=
  let! d := setupkvm in
  if d =? 0 then ret 0 else
  loop (Z.to_nat (sz / PGSIZE) + 2) (copy_user_page d pgdir sz) 0.

(** [char* uva2ka(pde_t *pgdir, char *uva)]; the result of [walkpgdir] is not
    tested. *)
Definition uva2ka (pgdir uva : Z) : ST phys Z :=
  let! pte := walkpgdir pgdir uva false in
  let! e := ld_word pte in
  if negb (has e PTE_P) then ret 0 else
  if negb (has e PTE_U) then ret 0 else
  ret (P2V (PTE_ADDR e)).

(** [int copyout(pde_t *pgdir, uint va, void *p, uint len)] *)
Definition copyout_step (pgdir : Z) : Z * list Z → ST phys ((Z * list Z) + Z) := λ '(va, buf),
  match buf with
  | [] => ret (inr 0)
  | _ =>
      let va0 := PGROUNDDOWN va in
      let! pa0 := uva2ka pgdir va0 in
      if pa0 =? 0 then ret (inr (-1)) else
      let n := PGSIZE - (va - va0) in
      let n := if Z.of_nat (length buf) <? n then Z.of_nat (length buf) else n in
      do! copy_in (pa0 + (va - va0)) (take (Z.to_nat n) buf) in
      ret (inl (u32 (va0 + PGSIZE), drop (Z.to_nat n) buf))
  end.
Definition copyout (pgdir va : Z) (p : list Z) : ST phys Z :=
  loop (length p + 1) (copyout_step pgdir) (va, p).

End Vm.
End Vm.
