(* ===== verification/VmMap.v ===== *)
(** VmMap: what [walkpgdir] and [mappages] do to the mapping that a page
    directory represents, under the invariant that the directory, its page
    tables and the free pages are distinct pages. *)
From S2P Require Import Prelude Kalloc Vm.
From stdpp Require Import gmap.
Local Open Scope Z_scope.

Module VmMap.
Import Kalloc Vm.

(** * Bits of page-table entries *)

(** A page in the kernel's address range. *)
Definition kaddr (a : Z) : Prop := KERNBASE ≤ a < 2 ^ 32 ∧ a mod PGSIZE = 0.

Lemma lor_low a f : a mod 4096 = 0 → 0 ≤ f < 4096 → Z.lor a f = a + f.
Proof.
  intros Ha Hf. assert (Z.land a f = 0) as Hl.
  { apply Z.bits_inj'. intros i Hi. rewrite Z.land_spec, Z.bits_0. destruct (decide (i < 12)).
    - rewrite <- (Z.mod_pow2_bits_low a 12 i) by lia. change (2 ^ 12) with 4096. by rewrite Ha, Z.bits_0.
    - rewrite (testbit_small f 12 i) by (change (2 ^ 12) with 4096; lia). by rewrite andb_false_r. }
  rewrite <- Z.lxor_lor, Z.add_nocarry_lxor by done. done.
Qed.

Lemma PTE_ADDR_eq e : 0 ≤ e < 2 ^ 32 → PTE_ADDR e = e - e mod 4096.
Proof. intros He. exact (PGROUNDDOWN_eq e He). Qed.

Lemma V2P_kaddr t : kaddr t → V2P t = t - KERNBASE ∧ V2P t mod 4096 = 0 ∧ 0 ≤ V2P t < 2 ^ 31.
Proof.
  unfold kaddr, V2P, KERNBASE, PGSIZE. intros [Ht Ha]. rewrite u32_small by lia. split; [done|]. split; [|lia].
  replace (t - 2147483648) with (t + (- 524288) * 4096) by lia. by rewrite Z.mod_add.
Qed.

Lemma P2V_V2P t : kaddr t → P2V (V2P t) = t.
Proof. intros Ht. destruct (V2P_kaddr t Ht) as [-> _]. unfold kaddr, KERNBASE in *. unfold P2V, KERNBASE. rewrite u32_small; lia. Qed.

(** The entry that [walkpgdir] makes for a new page table. *)
Definition table_entry (t : Z) : Z := Z.lor (Z.lor (Z.lor (V2P t) PTE_P) PTE_W) PTE_U.

Lemma table_entry_ok t : kaddr t → has (table_entry t) PTE_P = true ∧ P2V (PTE_ADDR (table_entry t)) = t.
Proof.
  intros Ht. destruct (V2P_kaddr t Ht) as (_ & Ha & Hr).
  assert (table_entry t = V2P t + 7) as E.
  { unfold table_entry. rewrite <- !Z.lor_assoc. apply (lor_low (V2P t) 7); [done|lia]. }
  split.
  - unfold has, table_entry. rewrite <- !Z.lor_assoc. rewrite Z.land_lor_distr_l.
    destruct (Z.eqb_spec (Z.lor (Z.land (V2P t) PTE_P) (Z.land (Z.lor PTE_P (Z.lor PTE_W PTE_U)) PTE_P)) 0) as [E0|]; [|done].
    apply Z.lor_eq_0_iff in E0 as [_ E0]. discriminate E0.
  - rewrite E, PTE_ADDR_eq by lia. rewrite <- Z.add_mod_idemp_l, Ha by lia. change ((0 + 7) mod 4096) with 7.
    rewrite Z.add_simpl_r. by apply P2V_V2P.
Qed.

Lemma P2V_PTE_ADDR_aligned e : P2V (PTE_ADDR e) mod 4096 = 0.
Proof.
  unfold P2V, u32, wrapu, PTE_ADDR. change (u32 (Z.lnot 0xFFF)) with (Z.land (Z.ones 32) (Z.lnot (Z.ones 12))).
  rewrite Z.land_assoc, <- Z.ldiff_land, Z.ldiff_ones_r by lia.
  rewrite Z.shiftl_mul_pow2 by lia. change (2 ^ 32) with (1048576 * 4096). change (2 ^ 12) with 4096.
  set (q := Z.shiftr _ _). unfold KERNBASE. replace (q * 4096 + 2147483648) with ((q + 524288) * 4096) by lia.
  rewrite Z.mul_mod_distr_r by lia. by apply Z.mod_mul.
Qed.

(** Indices of the page [va / 4096]. *)
Lemma index_range va : 0 ≤ PDX va < 1024 ∧ 0 ≤ PTX va < 1024.
Proof.
  unfold PDX, PTX. change 0x3FF with (Z.ones 10). rewrite !Z.land_ones by lia.
  change (2 ^ 10) with 1024. split; apply Z.mod_pos_bound; lia.
Qed.

Lemma index_eq va : 0 ≤ va < 2 ^ 32 → va / 4096 = PDX va * 1024 + PTX va.
Proof.
  intros Hva. unfold PDX, PTX. change 0x3FF with (Z.ones 10). rewrite !Z.land_ones, !Z.shiftr_div_pow2 by lia.
  change (2 ^ 10) with 1024. change (2 ^ 22) with (4096 * 1024). change (2 ^ 12) with 4096.
  rewrite <- Z.div_div by lia.
  assert (0 ≤ va / 4096 < 1048576) by (split; [apply Z.div_pos; lia|apply Z.div_lt_upper_bound; lia]).
  rewrite (Z.mod_small (va / 4096 / 1024)).
  - pose proof (Z.div_mod (va / 4096) 1024 ltac:(lia)). lia.
  - split; [apply Z.div_pos; lia|apply Z.div_lt_upper_bound; lia].
Qed.

Lemma page_index_inj va vb :
  0 ≤ va < 2 ^ 32 → 0 ≤ vb < 2 ^ 32 → PDX va = PDX vb → PTX va = PTX vb → va / 4096 = vb / 4096.
Proof. intros. rewrite !index_eq by done. congruence. Qed.

Lemma same_page va vb :
  0 ≤ va < 2 ^ 32 → 0 ≤ vb < 2 ^ 32 → va / 4096 = vb / 4096 → PDX va = PDX vb ∧ PTX va = PTX vb.
Proof.
  intros Ha Hb E. rewrite !index_eq in E by done.
  destruct (index_range va) as [_ ?], (index_range vb) as [_ ?]. lia.
Qed.

(** * Words of pages *)

Lemma word_at t i : t mod 4096 = 0 → 0 ≤ i < 1024 →
  (t + 4 * i) mod 4 = 0 ∧ page_of (t + 4 * i) = t ∧ word_of (t + 4 * i) = Z.to_nat i.
Proof.
  intros Ht Hi. unfold page_of, word_of, PGSIZE.
  pose proof (Z.div_mod t 4096 ltac:(lia)) as E. rewrite Ht, Z.add_0_r in E.
  assert ((t + 4 * i) mod 4096 = 4 * i) as ->.
  { rewrite <- Z.add_mod_idemp_l, Ht by lia. apply Z.mod_small. lia. }
  split_and!; [|lia|].
  - rewrite E. replace (4096 * (t / 4096) + 4 * i) with (0 + (1024 * (t / 4096) + i) * 4) by lia. by rewrite Z.mod_add.
  - f_equal. rewrite Z.mul_comm. by apply Z.div_mul.
Qed.

Lemma ld_word_ok m t i ws w :
  t mod 4096 = 0 → 0 ≤ i < 1024 → frames m !! t = Some ws → ws !! Z.to_nat i = Some w →
  ld_word (t + 4 * i) m = Ok w m.
Proof.
  intros Ht Hi Hws Hw. destruct (word_at t i Ht Hi) as (E4 & Ep & Ew). unfold ld_word.
  rewrite E4, Ep, Ew, Hws. cbn [negb Z.eqb mbind option_bind]. by rewrite Hw.
Qed.

Lemma st_word_ok m t i ws w :
  t mod 4096 = 0 → 0 ≤ i < 1024 → frames m !! t = Some ws → length ws = 1024%nat →
  st_word (t + 4 * i) w m = Ok tt (Phys (freelist m) (<[t := <[Z.to_nat i := w]> ws]> (frames m))).
Proof.
  intros Ht Hi Hws Hl. destruct (word_at t i Ht Hi) as (E4 & Ep & Ew). unfold st_word.
  rewrite E4, Ep, Ew, Hws. cbn [negb Z.eqb]. by rewrite (proj2 (Nat.ltb_lt _ _)) by lia.
Qed.

(** * The mapping of a page directory *)

Definition pde (m : phys) (pgdir i : Z) : option Z := frames m !! pgdir ≫= lookup (Z.to_nat i).
(** [t] is the page table for [va]. *)
Definition table (m : phys) (pgdir va t : Z) : Prop :=
  ∃ e, pde m pgdir (PDX va) = Some e ∧ has e PTE_P = true ∧ t = P2V (PTE_ADDR e).
(** The present page-table entry of [va], if there is one. *)
Definition mapping (m : phys) (pgdir va : Z) : option Z :=
  e ← pde m pgdir (PDX va);
  guard (has e PTE_P = true);;
  x ← pde m (P2V (PTE_ADDR e)) (PTX va);
  guard (has x PTE_P = true);; Some x.

Record vm_ok (m : phys) (pgdir : Z) (l : list Z) : Prop := {
  vo_chain : chain (frames m) (freelist m) l;
  vo_nodup : NoDup l;
  vo_free : ∀ a, a ∈ l → kaddr a;
  vo_dir : pgdir mod PGSIZE = 0 ∧ (pgdir ∉ l) ∧ ∃ ws, frames m !! pgdir = Some ws ∧ length ws = 1024%nat;
  vo_tab : ∀ i e, 0 ≤ i < 1024 → pde m pgdir i = Some e → has e PTE_P = true →
           P2V (PTE_ADDR e) ≠ 0 ∧ P2V (PTE_ADDR e) ≠ pgdir ∧ (P2V (PTE_ADDR e) ∉ l) ∧
           ∃ ws, frames m !! P2V (PTE_ADDR e) = Some ws ∧ length ws = 1024%nat;
  vo_inj : ∀ i j e f, 0 ≤ i < 1024 → 0 ≤ j < 1024 → pde m pgdir i = Some e → pde m pgdir j = Some f →
           has e PTE_P = true → has f PTE_P = true → P2V (PTE_ADDR e) = P2V (PTE_ADDR f) → i = j
}.

Lemma has_0 f : has 0 f = false.
Proof. unfold has. by rewrite Z.land_0_l. Qed.

Lemma pde_insert m h t i ws w j :
  0 ≤ i → 0 ≤ j → (Z.to_nat i < length ws)%nat → frames m !! t = Some ws →
  pde (Phys h (<[t := <[Z.to_nat i := w]> ws]> (frames m))) t j = if decide (j = i) then Some w else pde m t j.
Proof.
  intros Hi Hj Hl Ht. unfold pde. cbn [frames]. rewrite lookup_insert_eq, Ht. cbn [mbind option_bind].
  case_decide as D; [subst j; by apply list_lookup_insert_eq|]. apply list_lookup_insert_ne. lia.
Qed.

Lemma pde_other m h t x ws j : t ≠ x → pde (Phys h (<[x := ws]> (frames m))) t j = pde m t j.
Proof. intros. unfold pde. cbn [frames]. by rewrite lookup_insert_ne. Qed.

Lemma mapping_table m pgdir va t :
  table m pgdir va t →
  mapping m pgdir va = (x ← pde m t (PTX va); guard (has x PTE_P = true);; Some x).
Proof.
  intros (e & He & Hp & ->). unfold mapping. rewrite He. cbn [mbind option_bind].
  by rewrite option_guard_True.
Qed.

Lemma mapping_same_page m pgdir va vb :
  0 ≤ va < 2 ^ 32 → 0 ≤ vb < 2 ^ 32 → va / 4096 = vb / 4096 → mapping m pgdir va = mapping m pgdir vb.
Proof. intros Ha Hb E. unfold mapping. by destruct (same_page va vb Ha Hb E) as [-> ->]. Qed.

Lemma mapping_None m pgdir va e :
  pde m pgdir (PDX va) = Some e → has e PTE_P = false → mapping m pgdir va = None.
Proof.
  intros He Hp. unfold mapping. rewrite He. cbn [mbind option_bind]. rewrite option_guard_False; [done|congruence].
Qed.

Section Map.
Context (m : phys) (pgdir : Z) (l : list Z) (Hok : vm_ok m pgdir l).

Lemma dir_entry va : ∃ e, pde m pgdir (PDX va) = Some e.
Proof.
  destruct (vo_dir _ _ _ Hok) as (_ & _ & ws & Hws & Hl). unfold pde. rewrite Hws. cbn [mbind option_bind].
  apply lookup_lt_is_Some_2. pose proof (index_range va). lia.
Qed.

Lemma dir_load va e : pde m pgdir (PDX va) = Some e → ld_word (pgdir + 4 * PDX va) m = Ok e m.
Proof.
  destruct (vo_dir _ _ _ Hok) as (Ha & _ & ws & Hws & Hl). unfold pde. rewrite Hws. cbn [mbind option_bind].
  intros He. eapply ld_word_ok; [exact Ha|apply index_range|exact Hws|exact He].
Qed.

(** A page table: its address, and its words. *)
Lemma table_page va t : table m pgdir va t →
  t ≠ 0 ∧ t ≠ pgdir ∧ (t ∉ l) ∧ t mod 4096 = 0 ∧ ∃ ws, frames m !! t = Some ws ∧ length ws = 1024%nat.
Proof.
  intros (e & He & Hp & ->). destruct (vo_tab _ _ _ Hok _ _ (proj1 (index_range va)) He Hp) as (? & ? & ? & ?).
  split_and!; try done. apply P2V_PTE_ADDR_aligned.
Qed.

Lemma walk_present va b t : table m pgdir va t → walkpgdir pgdir va b m = Ok (t + 4 * PTX va) m.
Proof.
  intros (e & He & Hp & ->). unfold walkpgdir. cbv zeta. rewrite (bind_ok _ _ _ _ _ (dir_load _ _ He)). by rewrite Hp.
Qed.

Lemma walk_absent va e :
  pde m pgdir (PDX va) = Some e → has e PTE_P = false → walkpgdir pgdir va false m = Ok 0 m.
Proof.
  intros He Hp. unfold walkpgdir. cbv zeta. rewrite (bind_ok _ _ _ _ _ (dir_load _ _ He)). by rewrite Hp.
Qed.

(** Storing a page-table entry. *)
Definition set_pte (t va x : Z) : phys :=
  match frames m !! t with
  | Some ws => Phys (freelist m) (<[t := <[Z.to_nat (PTX va) := x]> ws]> (frames m))
  | None => m
  end.

Lemma set_pte_ok va t x : table m pgdir va t → st_word (t + 4 * PTX va) x m = Ok tt (set_pte t va x).
Proof.
  intros (_ & _ & _ & Ha & ws & Hws & Hl)%table_page. unfold set_pte. rewrite Hws.
  by apply st_word_ok; [|apply index_range| |].
Qed.

Lemma set_pte_pde va t x u j :
  table m pgdir va t → 0 ≤ j →
  pde (set_pte t va x) u j = if decide (u = t ∧ j = PTX va) then Some x else pde m u j.
Proof.
  intros (_ & _ & _ & Ha & ws & Hws & Hl)%table_page Hj. unfold set_pte. rewrite Hws.
  pose proof (index_range va) as [_ ?]. destruct (decide (u = t)) as [->|].
  - rewrite pde_insert by (try done; lia). destruct (decide (j = PTX va)) as [->|].
    + by rewrite decide_True.
    + rewrite decide_False; [done|]. by intros [].
  - rewrite pde_other by done. rewrite decide_False; [done|]. by intros [].
Qed.

Lemma set_pte_frames va t x u : table m pgdir va t → u ≠ t → frames (set_pte t va x) !! u = frames m !! u.
Proof.
  intros (_ & _ & _ & Ha & ws & Hws & Hl)%table_page Hu. unfold set_pte. rewrite Hws. cbn [frames].
  by rewrite lookup_insert_ne.
Qed.

Lemma set_pte_dir va t x i : table m pgdir va t → 0 ≤ i → pde (set_pte t va x) pgdir i = pde m pgdir i.
Proof.
  intros Ht Hi. rewrite set_pte_pde by done. rewrite decide_False; [done|]. intros [E _].
  destruct (table_page va t Ht) as (_ & ? & _). congruence.
Qed.

Lemma set_pte_vm_ok va t x : table m pgdir va t → vm_ok (set_pte t va x) pgdir l.
Proof.
  intros Ht. pose proof (set_pte_dir va t x) as Hdir.
  destruct (table_page va t Ht) as (H0 & Hd & Hni & Ha & ws & Hws & Hl). pose proof Hok as [].
  assert (∀ u ws', frames m !! u = Some ws' → length ws' = 1024%nat →
    ∃ ws', frames (set_pte t va x) !! u = Some ws' ∧ length ws' = 1024%nat) as Hpage.
  { intros u ws' Hu Hlu. unfold set_pte. rewrite Hws. cbn [frames]. destruct (decide (u = t)) as [->|].
    - rewrite lookup_insert_eq. eexists. split; [done|]. by rewrite length_insert.
    - rewrite lookup_insert_ne by done. eauto. }
  split.
  - unfold set_pte. rewrite Hws. by apply chain_insert.
  - done.
  - done.
  - destruct vo_dir0 as (? & ? & ws' & Hws' & Hl'). split_and!; try done. by eapply Hpage.
  - intros i e Hi He Hp. rewrite Hdir in He by (done || lia).
    destruct (vo_tab0 i e Hi He Hp) as (? & ? & ? & ws' & Hws' & Hl'). split_and!; try done. by eapply Hpage.
  - intros i j e f Hi Hj He Hf. rewrite Hdir in He by (done || lia). rewrite Hdir in Hf by (done || lia). by eapply vo_inj0.
Qed.

Lemma set_pte_mapping va t x vb :
  table m pgdir va t → 0 ≤ va < 2 ^ 32 → 0 ≤ vb < 2 ^ 32 →
  mapping (set_pte t va x) pgdir vb =
    if decide (va / 4096 = vb / 4096) then (guard (has x PTE_P = true);; Some x) else mapping m pgdir vb.
Proof.
  intros Ht Hva Hvb. pose proof (index_range vb) as [? ?].
  destruct (dir_entry vb) as [e He]. unfold mapping. rewrite set_pte_dir, He by (done || lia). cbn [mbind option_bind].
  destruct (decide (has e PTE_P = true)) as [Hp|Hp].
  - rewrite option_guard_True by done. rewrite set_pte_pde by (done || lia).
    destruct (decide (va / 4096 = vb / 4096)) as [Ev|Ev].
    + destruct Ht as (e' & He' & Hp' & ->). rewrite !index_eq in Ev by done. pose proof (index_range va) as [? ?].
      assert (PDX va = PDX vb) as Ed by lia. assert (PTX va = PTX vb) as Et by lia.
      rewrite <- Ed, He' in He. injection He as ->. by rewrite decide_True.
    + rewrite decide_False; [by rewrite option_guard_True|]. intros [Ep Et]. apply Ev. apply page_index_inj; try done.
      destruct Ht as (e' & He' & Hp' & ->). pose proof (index_range va) as [? ?]. symmetry.
      by eapply (vo_inj _ _ _ Hok _ _ e e').
  - rewrite option_guard_False by done. case_decide as Ev; [|by rewrite ?option_guard_False by done]. exfalso. apply Hp.
    destruct Ht as (e' & He' & Hp' & _). rewrite !index_eq in Ev by done.
    pose proof (index_range va) as [? ?]. assert (PDX va = PDX vb) as Ed by lia. rewrite <- Ed in He. congruence.
Qed.

End Map.

(** ** A new page table *)

(** Memory after [walkpgdir] took the page [t] for a page table. *)
Definition with_table (m : phys) (pgdir va t : Z) (dir : list Z) : phys :=
  Phys (freelist m) (<[pgdir := <[Z.to_nat (PDX va) := table_entry t]> dir]>
                       (<[t := replicate 1024 0]> (frames m))).

Section NewTable.
Context (m : phys) (pgdir : Z) (l : list Z) (va t : Z) (e : Z) (dir : list Z).
Context (Hok : vm_ok m pgdir (t :: l)).
Context (He : pde m pgdir (PDX va) = Some e) (Hp : has e PTE_P = false).
Context (Hdir : frames m !! pgdir = Some dir) (m1 : phys).
Context (Hfr : frames m1 = frames m) (Hch : chain (frames m1) (freelist m1) l).

Abbreviation m2 := (with_table m1 pgdir va t dir).

Lemma new_fresh : kaddr t ∧ t ≠ pgdir ∧ (t ∉ l) ∧ length dir = 1024%nat ∧ (pgdir ∉ l).
Proof.
  destruct (vo_dir _ _ _ Hok) as (_ & Hni & ws & Hws & Hl). apply not_elem_of_cons in Hni as [? ?].
  pose proof (vo_nodup _ _ _ Hok) as [Ht _]%NoDup_cons. split_and!; try done; [|congruence].
  apply (vo_free _ _ _ Hok). by left.
Qed.

Lemma new_dir i : 0 ≤ i → pde m2 pgdir i = if decide (i = PDX va) then Some (table_entry t) else pde m pgdir i.
Proof.
  intros Hi. destruct new_fresh as (_ & ? & _ & Hl & _). pose proof (index_range va) as [? _].
  unfold pde, with_table. cbn [frames]. rewrite lookup_insert_eq, Hdir. cbn [mbind option_bind].
  case_decide as D; [subst i; apply list_lookup_insert_eq; lia|]. apply list_lookup_insert_ne. lia.
Qed.

Lemma new_frames u : u ≠ pgdir → frames m2 !! u = if decide (u = t) then Some (replicate 1024 0) else frames m !! u.
Proof.
  intros Hu. unfold with_table. cbn [frames]. rewrite lookup_insert_ne by done. rewrite Hfr.
  case_decide as D; [subst u; apply lookup_insert_eq|by apply lookup_insert_ne].
Qed.

Lemma new_pde u j : u ≠ pgdir → u ≠ t → pde m2 u j = pde m u j.
Proof. intros. unfold pde. by rewrite new_frames, decide_False. Qed.

Lemma new_entry i x : 0 ≤ i < 1024 → pde m pgdir i = Some x → has x PTE_P = true →
  i ≠ PDX va ∧ P2V (PTE_ADDR x) ≠ t.
Proof.
  intros Hi Hx Hpx. split; [intros ->; congruence|].
  destruct (vo_tab _ _ _ Hok i x Hi Hx Hpx) as (_ & _ & [? _]%not_elem_of_cons & _). done.
Qed.

Lemma new_vm_ok : vm_ok m2 pgdir l.
Proof.
  destruct new_fresh as (Hk & Hne & Hni & Hl & Hpg). destruct (table_entry_ok t Hk) as [Htp Hta].
  assert (∀ i x, 0 ≤ i < 1024 → pde m2 pgdir i = Some x → has x PTE_P = true →
    i = PDX va ∧ P2V (PTE_ADDR x) = t ∨ i ≠ PDX va ∧ P2V (PTE_ADDR x) ≠ t ∧ pde m pgdir i = Some x) as Hcase.
  { intros i x Hi Hx Hpx. rewrite new_dir in Hx by lia. case_decide as D; [left; split; [done|]|right].
    - injection Hx as <-. done.
    - split; [done|]. split; [|done]. by eapply new_entry. }
  pose proof Hok as []. split.
  - unfold with_table. cbn [frames freelist]. apply chain_insert; [done|]. by apply chain_insert.
  - by apply NoDup_cons in vo_nodup0 as [_ ?].
  - intros a Ha. apply vo_free0. by right.
  - destruct vo_dir0 as (? & _ & ws & Hws & _). split_and!; try done.
    unfold with_table. cbn [frames]. rewrite lookup_insert_eq. eexists. split; [done|]. by rewrite length_insert.
  - intros i x Hi Hx Hpx. destruct (Hcase i x Hi Hx Hpx) as [[_ ->]|(Hi' & Hx' & Hold)].
    + split_and!; try done; [unfold kaddr, KERNBASE in Hk; lia|].
      rewrite new_frames, decide_True by done. eexists. split; [done|]. by rewrite length_replicate.
    + destruct (vo_tab0 i x Hi Hold Hpx) as (? & ? & [_ ?]%not_elem_of_cons & ws & Hws & Hlw). split_and!; try done.
      rewrite new_frames, decide_False by done. by exists ws.
  - intros i j x y Hi Hj Hx Hy Hpx Hpy Exy.
    destruct (Hcase i x Hi Hx Hpx) as [[-> ?]|(? & ? & ?)], (Hcase j y Hj Hy Hpy) as [[-> ?]|(? & ? & ?)]; try done; [congruence..|].
    by eapply vo_inj0.
Qed.

Lemma new_table : table m2 pgdir va t.
Proof.
  destruct new_fresh as (Hk & _). destruct (table_entry_ok t Hk) as [Htp Hta]. exists (table_entry t).
  pose proof (index_range va). rewrite new_dir, decide_True by (done || lia). done.
Qed.

Lemma new_mapping vb : mapping m2 pgdir vb = mapping m pgdir vb.
Proof.
  destruct new_fresh as (Hk & Hne & _). destruct (table_entry_ok t Hk) as [Htp Hta]. pose proof (index_range vb) as [? ?].
  destruct (dir_entry m pgdir (t :: l) Hok vb) as [x Hx].
  unfold mapping. rewrite new_dir by lia. case_decide as D.
  - rewrite D, He. cbn [mbind option_bind]. rewrite option_guard_True, (option_guard_False (has e PTE_P = true)) by congruence.
    rewrite Hta. unfold pde at 1. rewrite new_frames, decide_True by done. cbn [mbind option_bind].
    rewrite lookup_replicate_2 by lia. cbn [mbind option_bind]. rewrite option_guard_False; [done|]. by rewrite has_0.
  - rewrite Hx. cbn [mbind option_bind]. destruct (decide (has x PTE_P = true)) as [Hpx|Hpx].
    + destruct (new_entry (PDX vb) x ltac:(lia) Hx Hpx) as [_ ?].
      destruct (vo_tab _ _ _ Hok (PDX vb) x ltac:(lia) Hx Hpx) as (_ & ? & _).
      by rewrite new_pde.
    + by rewrite !option_guard_False.
Qed.
End NewTable.

(** The page tables are those from before and pages that came off the free list. *)
Definition tables_grow (m m' : phys) (pgdir : Z) (l l' : list Z) : Prop :=
  (∀ vb u, table m' pgdir vb u → table m pgdir vb u ∨ u ∈ l) ∧
  (∀ vb u, table m pgdir vb u → table m' pgdir vb u) ∧
  (∀ u, u ∈ l → u ∉ l' → ∃ vb, table m' pgdir vb u).

Lemma tables_grow_same m m' pgdir l :
  (∀ i, 0 ≤ i → pde m' pgdir i = pde m pgdir i) → tables_grow m m' pgdir l l.
Proof.
  intros Hd. split; [|split; [|done]]; intros vb u (e & He & Hp & ->); [left|]; exists e; pose proof (index_range vb);
    by rewrite ?Hd in * by lia.
Qed.

Lemma tables_grow_trans m1 m2 m3 pgdir l1 l2 l3 :
  l2 `suffix_of` l1 → tables_grow m1 m2 pgdir l1 l2 → tables_grow m2 m3 pgdir l2 l3 → tables_grow m1 m3 pgdir l1 l3.
Proof.
  intros [l0 ->] (A1 & A2 & A3) (B1 & B2 & B3). split; [|split].
  - intros vb u [Hu|Hu]%B1; [by apply A1 in Hu|]. right. apply elem_of_app. by right.
  - eauto.
  - intros u Hu Hn. destruct (decide (u ∈ l2)) as [H2|H2]; [by apply B3|]. destruct (A3 u Hu H2) as [vb ?]. exists vb. eauto.
Qed.

(** [walkpgdir] with allocation: a page table is there, or is made of the first
    free page, or there is no free page. *)
Lemma walk_alloc m pgdir l va :
  vm_ok m pgdir l →
  (l = [] ∧ walkpgdir pgdir va true m = Ok 0 m) ∨
  ∃ m' l' t, walkpgdir pgdir va true m = Ok (t + 4 * PTX va) m' ∧ vm_ok m' pgdir l' ∧
    l' `suffix_of` l ∧ table m' pgdir va t ∧ (∀ vb, mapping m' pgdir vb = mapping m pgdir vb) ∧
    (∀ u, u ≠ pgdir → u ∉ l → frames m' !! u = frames m !! u) ∧
    tables_grow m m' pgdir l l'.
Proof.
  intros Hok. destruct (dir_entry m pgdir l Hok va) as [e He]. destruct (has e PTE_P) eqn:Hp.
  { right. exists m, l, (P2V (PTE_ADDR e)). split_and!; try done; [|by exists e|by apply tables_grow_same].
    apply (walk_present m pgdir l Hok). by exists e. }
  destruct l as [|t l].
  - left. split; [done|]. unfold walkpgdir. cbv zeta. rewrite (bind_ok _ _ _ _ _ (dir_load m pgdir [] Hok _ _ He)), Hp.
    cbn [negb]. unfold kalloc. pose proof (vo_chain _ _ _ Hok) as Hc. cbn in Hc.
    unfold bind at 1 2. cbn [gets]. rewrite Hc. done.
  - right. destruct (vo_dir _ _ _ Hok) as (Ha & _ & dir & Hdir & Hld).
    destruct (kalloc_ok m t l (vo_chain _ _ _ Hok)) as (m1 & Ek & Hfr & Hch).
    destruct (new_fresh m pgdir l t dir Hok Hdir) as (Hk & Hne & Hni & _ & _).
    exists (with_table m1 pgdir va t dir), l, t. split_and!.
    + unfold walkpgdir. cbv zeta. rewrite (bind_ok _ _ _ _ _ (dir_load m pgdir (t :: l) Hok _ _ He)), Hp. cbn [negb].
      rewrite (bind_ok _ _ _ _ _ Ek). rewrite (proj2 (Z.eqb_neq _ _)) by (unfold kaddr, KERNBASE in Hk; lia).
      destruct (vo_chain _ _ _ Hok) as (_ & _ & _ & next & ws & Hws & Hlw & _).
      erewrite bind_ok by (unfold fill_page; rewrite Hfr, Hws; reflexivity).
      erewrite bind_ok; [reflexivity|]. rewrite (st_word_ok _ pgdir (PDX va) dir); [|exact Ha|apply index_range| |exact Hld].
      * unfold with_table. rewrite Hfr. cbn [frames freelist]. by replace (length (next :: ws)) with 1024%nat by (cbn; by rewrite Hlw).
      * cbn [frames]. by rewrite lookup_insert_ne.
    + by eapply new_vm_ok.
    + by exists [t].
    + by eapply new_table.
    + intros vb. by eapply new_mapping.
    + intros u Hu [? ?]%not_elem_of_cons. rewrite (new_frames m pgdir va t dir m1 Hfr), decide_False; done.
    + split; [|split].
      * intros vb u (x & Hx & Hpx & ->). pose proof (index_range vb) as [? ?].
        rewrite (new_dir m pgdir l va t dir Hok Hdir) in Hx by lia. case_decide; [|left; by exists x].
        injection Hx as <-. right. destruct (table_entry_ok t Hk) as [_ ->]. by left.
      * intros vb u (x & Hx & Hpx & ->). pose proof (index_range vb) as [? ?]. exists x. split; [|done].
        rewrite (new_dir m pgdir l va t dir Hok Hdir) by lia. case_decide as D; [|done]. rewrite D in Hx. congruence.
      * intros u [->|?]%elem_of_cons ?; [|done]. exists va. by eapply new_table.
Qed.

Lemma has_lor_P x : has (Z.lor x PTE_P) PTE_P = true.
Proof.
  unfold has. rewrite Z.land_lor_distr_l.
  destruct (Z.eqb_spec (Z.lor (Z.land x PTE_P) (Z.land PTE_P PTE_P)) 0) as [E|]; [|done].
  apply Z.lor_eq_0_iff in E as [_ E]. discriminate E.
Qed.

(** * Mapping pages *)

(** The entry that maps a page to [pa]. *)
Definition page_entry (pa perm : Z) : Z := Z.lor (Z.lor pa perm) PTE_P.

(** One turn of the loop of [mappages] on an unmapped page. *)
Lemma map_page_ok m pgdir l a pa perm last :
  vm_ok m pgdir l → 0 ≤ a < 2 ^ 32 → mapping m pgdir a = None →
  (l = [] ∧ map_page pgdir perm last (a, pa) m = Ok (inr (-1)) m) ∨
  ∃ m' l', map_page pgdir perm last (a, pa) m =
      Ok (if a =? last then inr 0 else inl (u32 (a + PGSIZE), u32 (pa + PGSIZE))) m' ∧
    vm_ok m' pgdir l' ∧ l' `suffix_of` l ∧
    (∀ vb, 0 ≤ vb < 2 ^ 32 →
       mapping m' pgdir vb = if decide (a / 4096 = vb / 4096) then Some (page_entry pa perm) else mapping m pgdir vb) ∧
    (∀ u, u ≠ pgdir → u ∉ l → (∀ vb, ¬ table m pgdir vb u) → frames m' !! u = frames m !! u) ∧
    tables_grow m m' pgdir l l'.
Proof.
  intros Hok Ha Hnone. destruct (walk_alloc m pgdir l a Hok) as [[-> E]|(m1 & l1 & t & E & Hok1 & Hs & Ht & Hm1 & Hf1 & Ht1)].
  { left. split; [done|]. unfold map_page. by rewrite (bind_ok _ _ _ _ _ E). }
  right. destruct (table_page m1 pgdir l1 Hok1 a t Ht) as (H0 & Hne & Hni & Hta & ws & Hws & Hlw).
  pose proof (index_range a) as [_ ?].
  destruct (lookup_lt_is_Some_2 ws (Z.to_nat (PTX a))) as [x Hx]; [lia|].
  assert (has x PTE_P = false) as Hpx.
  { apply not_true_is_false. intros Hpx. rewrite <- Hm1, (mapping_table m1 pgdir a t Ht) in Hnone. revert Hnone.
    unfold pde. rewrite Hws. cbn [mbind option_bind]. rewrite Hx. cbn [mbind option_bind]. by rewrite option_guard_True. }
  assert (0 ≤ t) as Ht0.
  { destruct Ht as (e & _ & _ & ->). unfold P2V. by apply wrapu_range. }
  exists (set_pte m1 t a (page_entry pa perm)), l1. split_and!.
  - unfold map_page. rewrite (bind_ok _ _ _ _ _ E). rewrite (proj2 (Z.eqb_neq _ _)) by lia.
    erewrite bind_ok by (eapply ld_word_ok; [exact Hta|done|exact Hws|exact Hx]). rewrite Hpx.
    rewrite (bind_ok _ _ _ _ _ (set_pte_ok m1 pgdir l1 Hok1 a t (page_entry pa perm) Ht)). by destruct (a =? last).
  - by apply set_pte_vm_ok.
  - done.
  - intros vb Hvb. rewrite (set_pte_mapping m1 pgdir l1 Hok1), Hm1 by done.
    case_decide; [|done]. unfold page_entry. by rewrite option_guard_True by apply has_lor_P.
  - intros u Hu Hnu Hnt. assert (u ≠ t) by (intros ->; destruct (proj1 Ht1 a t Ht) as [?|?]; [by eapply Hnt|done]).
    rewrite (set_pte_frames m1 pgdir l1 Hok1 a) by done. by apply Hf1.
  - eapply tables_grow_trans; [done..|]. apply tables_grow_same. intros i Hi. by apply (set_pte_dir m1 pgdir l1 Hok1 a).
Qed.

Lemma page_range_step a k vb :
  0 ≤ a → a mod 4096 = 0 → 0 ≤ k →
  (a / 4096 = vb / 4096 ∨ (a + 4096) / 4096 ≤ vb / 4096 < (a + 4096) / 4096 + k) ↔
  a / 4096 ≤ vb / 4096 < a / 4096 + (k + 1).
Proof. intros. replace (a + 4096) with (a + 1 * 4096) by lia. rewrite Z.div_add by lia. lia. Qed.

(** What [mappages] does to [n] pages from [a] on: the first [k] of them are
    mapped to consecutive pages from [pa] on, [k < n] only for lack of memory. *)
Definition mapped_pages (m m' : phys) (pgdir a pa perm n k : Z) (r : Z) (l' : list Z) : Prop :=
  0 ≤ k ≤ n ∧ (k = n ∧ r = 0 ∨ k < n ∧ r = -1 ∧ l' = []) ∧
  ∀ vb, 0 ≤ vb < 2 ^ 32 →
    mapping m' pgdir vb =
      if decide (a / 4096 ≤ vb / 4096 < a / 4096 + k)
      then Some (page_entry (u32 (pa + (vb / 4096 - a / 4096) * 4096)) perm)
      else mapping m pgdir vb.

Lemma map_loop_ok n : ∀ m pgdir l a pa perm fuel,
  vm_ok m pgdir l → a mod 4096 = 0 → 0 ≤ a → a + (Z.of_nat n + 1) * 4096 ≤ 2 ^ 32 → 0 ≤ pa < 2 ^ 32 →
  (∀ vb, 0 ≤ vb < 2 ^ 32 → a / 4096 ≤ vb / 4096 < a / 4096 + (Z.of_nat n + 1) → mapping m pgdir vb = None) →
  (n < fuel)%nat →
  ∃ r m' l' k, loop fuel (map_page pgdir perm (a + Z.of_nat n * 4096)) (a, pa) m = Ok r m' ∧
    vm_ok m' pgdir l' ∧ l' `suffix_of` l ∧ mapped_pages m m' pgdir a pa perm (Z.of_nat n + 1) k r l' ∧
    (∀ u, u ≠ pgdir → u ∉ l → (∀ vb, ¬ table m pgdir vb u) → frames m' !! u = frames m !! u) ∧
    tables_grow m m' pgdir l l'.
Proof.
  induction n as [|n IH]; intros m pgdir l a pa perm fuel Hok Ha H0 Hlim Hpa Hnone Hf;
    (destruct fuel as [|fuel]; [lia|]);
    match goal with |- context [map_page pgdir perm ?last] =>
      destruct (map_page_ok m pgdir l a pa perm last Hok) as [[-> E]|(m1 & l1 & E & Hok1 & Hs & Hm1 & Hf1 & Ht1)];
        [lia|apply Hnone; lia| |] end.
  1,3: exists (-1), m, [], 0; split_and!; [by apply loop_exit|done|done| |done|by apply tables_grow_same];
    (split; [lia|split; [right; split_and!; [lia|done|done]|]]); intros vb Hvb; rewrite decide_False by lia; done.
  - exists 0, m1, l1, 1. split_and!; [|done|done| |done|done].
    + apply loop_exit. rewrite E. rewrite (proj2 (Z.eqb_eq _ _)) by lia. done.
    + split; [lia|split; [left; lia|]]. intros vb Hvb. rewrite Hm1 by done.
      destruct (decide (a / 4096 = vb / 4096)) as [Ev|Ev].
      * rewrite decide_True by lia. by rewrite Ev, Z.sub_diag, Z.mul_0_l, Z.add_0_r, u32_small.
      * by rewrite decide_False by lia.
  - rewrite (proj2 (Z.eqb_neq _ _)) in E by lia. unfold PGSIZE in E. rewrite (u32_small (a + 4096)) in E by lia.
    destruct (IH m1 pgdir l1 (a + 4096) (u32 (pa + 4096)) perm fuel) as (r & m' & l' & k & E' & Hok' & Hs' & Hmap & Hf' & Ht');
      [done| |lia|lia|apply (wrapu_range 32); lia| |lia|].
    { replace (a + 4096) with (a + 1 * 4096) by lia. by rewrite Z.mod_add. }
    { replace (a + 4096) with (a + 1 * 4096) by lia. rewrite Z.div_add by lia.
      intros vb Hvb Hr. rewrite Hm1, decide_False by lia. apply Hnone; lia. }
    exists r, m', l', (k + 1). split_and!; [|done|by etrans| | |].
    + rewrite (loop_next _ _ _ _ _ _ E).
      replace (a + Z.of_nat (S n) * 4096) with (a + 4096 + Z.of_nat n * 4096) by lia. done.
    + destruct Hmap as (Hk & Hr & Hmap). split; [lia|]. split; [intuition lia|].
      intros vb Hvb. rewrite Hmap, Hm1 by done.
      pose proof (page_range_step a k vb H0 Ha ltac:(lia)) as Hrange.
      replace (a + 4096) with (a + 1 * 4096) in * by lia. rewrite Z.div_add in * by lia.
      destruct (decide (a / 4096 ≤ vb / 4096 < a / 4096 + (k + 1))) as [Hin|Hout].
      * destruct (decide (a / 4096 = vb / 4096)) as [Ev|Ev].
        -- rewrite decide_False by lia. rewrite <- Ev, Z.sub_diag, Z.mul_0_l, Z.add_0_r. by rewrite u32_small.
        -- rewrite decide_True by lia. do 2 f_equal. unfold u32, wrapu. rewrite Zplus_mod_idemp_l. f_equal. lia.
      * rewrite !decide_False by lia. done.
    + intros u Hu Hnu Hnt. rewrite Hf'; [by apply Hf1|done| |].
      * destruct Hs as [l0 ->]. intros ?. apply Hnu, elem_of_app. by right.
      * intros vb [?|?]%(proj1 Ht1); [by eapply Hnt|done].
    + by eapply tables_grow_trans.
Qed.

Lemma PGROUNDDOWN_aligned a : 0 ≤ a < 2 ^ 32 → a mod 4096 = 0 → PGROUNDDOWN a = a.
Proof. intros Ha Hm. rewrite PGROUNDDOWN_eq by done. unfold PGSIZE. lia. Qed.

Lemma mappages_ok m pgdir l va n pa perm :
  vm_ok m pgdir l → va mod 4096 = 0 → 0 ≤ va → 0 < n → va + n * 4096 ≤ 2 ^ 32 → 0 ≤ pa < 2 ^ 32 →
  (∀ vb, 0 ≤ vb < 2 ^ 32 → va / 4096 ≤ vb / 4096 < va / 4096 + n → mapping m pgdir vb = None) →
  ∃ r m' l' k, mappages pgdir va (n * 4096) pa perm m = Ok r m' ∧
    vm_ok m' pgdir l' ∧ l' `suffix_of` l ∧ mapped_pages m m' pgdir va pa perm n k r l' ∧
    (∀ u, u ≠ pgdir → u ∉ l → (∀ vb, ¬ table m pgdir vb u) → frames m' !! u = frames m !! u) ∧
    tables_grow m m' pgdir l l'.
Proof.
  intros Hok Hva H0 Hn Hlim Hpa Hnone. unfold mappages. cbv zeta.
  rewrite (PGROUNDDOWN_aligned va) by (done || lia).
  assert (PGROUNDDOWN (u32 (va + n * 4096 - 1)) = va + Z.of_nat (Z.to_nat (n - 1)) * 4096) as ->.
  { rewrite u32_small, PGROUNDDOWN_eq by lia. unfold PGSIZE.
    pose proof (Z.div_mod va 4096 ltac:(lia)) as E. rewrite Hva in E.
    replace (va + n * 4096 - 1) with (4095 + (va / 4096 + (n - 1)) * 4096) by lia.
    rewrite Z.mod_add by lia. change (4095 mod 4096) with 4095. lia. }
  destruct (map_loop_ok (Z.to_nat (n - 1)) m pgdir l va pa perm (S (Z.to_nat (n - 1)))) as (r & m' & l' & k & E & Hok' & Hs & Hm & Hf & Ht);
    try done; [lia| |lia|].
  { intros vb Hvb Hr. apply Hnone; lia. }
  exists r, m', l', k. split_and!; try done.
  - rewrite <- E. f_equal. f_equal. rewrite Z.add_simpl_l, u32_small by lia.
    unfold PGSIZE. rewrite Z.div_mul by lia. lia.
  - by replace (Z.of_nat (Z.to_nat (n - 1)) + 1) with n in Hm by lia.
Qed.

(** [mappages] on unmapped pages: it maps them to consecutive physical pages
    and returns 0, or runs out of free pages and returns -1 with a prefix of
    them mapped.  Other pages keep their mapping, only the directory and page
    tables change, and the directory stays well formed. *)
Theorem mappages_correct m pgdir l va n pa perm :
  vm_ok m pgdir l → va mod 4096 = 0 → 0 ≤ va → 0 < n → va + n * 4096 ≤ 2 ^ 32 → 0 ≤ pa < 2 ^ 32 →
  (∀ vb, 0 ≤ vb < 2 ^ 32 → va / 4096 ≤ vb / 4096 < va / 4096 + n → mapping m pgdir vb = None) →
  ∃ r m' l' k, mappages pgdir va (n * 4096) pa perm m = Ok r m' ∧
    vm_ok m' pgdir l' ∧ l' `suffix_of` l ∧ mapped_pages m m' pgdir va pa perm n k r l' ∧
    (∀ u, u ≠ pgdir → u ∉ l → (∀ vb, ¬ table m pgdir vb u) → frames m' !! u = frames m !! u).
Proof.
  intros. edestruct (mappages_ok m pgdir l va n pa perm) as (r & m' & l' & k & ? & ? & ? & ? & ? & _); [done..|].
  by exists r, m', l', k.
Qed.

End VmMap.
