(* ===== verification/VmSpace.v ===== *)
(** VmSpace: address spaces.  A page directory owns itself, its page tables and the
    pages it maps below [KERNBASE]; together with the free pages these are the
    pages that the operations of vm.c move around.  The lemmas of this file say
    for the smallest steps (taking a page, freeing one, mapping and unmapping one)
    that no page is lost and none is used twice. *)
From S2P Require Import Prelude Kalloc Vm VmMap.
From stdpp Require Import gmap.
Local Open Scope Z_scope.

Module VmSpace.
Import Kalloc Vm VmMap.

(** * Taking a page off the free list, and putting it back *)

Section Page.
Context (m : phys) (pg : Z) (p : Z) (l : list Z) (Hok : vm_ok m pg (p :: l)).

(** The page is neither the directory nor a page table. *)
Lemma free_page_apart : p ≠ pg ∧ (p ∉ l) ∧ (pg ∉ l) ∧ kaddr p ∧ ∀ vb, ¬ table m pg vb p.
Proof.
  destruct (vo_dir _ _ _ Hok) as (_ & [? ?]%not_elem_of_cons & _).
  pose proof (vo_nodup _ _ _ Hok) as [? _]%NoDup_cons. split_and!; try done.
  - apply (vo_free _ _ _ Hok). by left.
  - intros vb Ht. destruct (table_page m pg (p :: l) Hok vb p Ht) as (_ & _ & [? _]%not_elem_of_cons & _). done.
Qed.

Context (h : Z) (ws : list Z) (Hch : chain (frames m) h l).
Definition filled_page : phys := Phys h (<[p := ws]> (frames m)).

Lemma filled_pde i : pde filled_page pg i = pde m pg i.
Proof. destruct free_page_apart as (? & _). by apply pde_other. Qed.

Lemma filled_table vb u : table filled_page pg vb u ↔ table m pg vb u.
Proof. unfold table. by setoid_rewrite filled_pde. Qed.

Lemma filled_vm_ok : vm_ok filled_page pg l.
Proof.
  destruct free_page_apart as (? & ? & ? & _ & Hnt). pose proof Hok as []. split.
  - by apply chain_insert.
  - by apply NoDup_cons in vo_nodup0 as [_ ?].
  - intros a Ha. apply vo_free0. by right.
  - destruct vo_dir0 as (? & _ & ws' & Hws' & ?). split_and!; try done. exists ws'. split; [|done].
    unfold filled_page. cbn [frames]. by rewrite lookup_insert_ne.
  - intros i e Hi He Hp. rewrite filled_pde in He.
    destruct (vo_tab0 i e Hi He Hp) as (? & ? & [Hne ?]%not_elem_of_cons & ws' & Hws' & ?). split_and!; try done.
    exists ws'. split; [|done]. unfold filled_page. cbn [frames]. by rewrite lookup_insert_ne.
  - intros i j e f Hi Hj. rewrite !filled_pde. by apply vo_inj0.
Qed.

Lemma filled_mapping va : mapping filled_page pg va = mapping m pg va.
Proof.
  unfold mapping. rewrite filled_pde. destruct (pde m pg (PDX va)) as [e|] eqn:He; [|done]. cbn [mbind option_bind].
  destruct (decide (has e PTE_P = true)) as [Hp|Hp]; [|by rewrite !option_guard_False].
  rewrite !option_guard_True by done. destruct free_page_apart as (_ & _ & _ & _ & Hnt).
  unfold filled_page. rewrite pde_other; [done|]. intros E. apply (Hnt va). by exists e.
Qed.
End Page.

(** Freeing a page that the directory does not use. *)
Lemma kfree_vm_ok kend m pg p l ws :
  vm_ok m pg l → kpage kend p → kaddr p → p ≠ pg → p ∉ l → (∀ vb, ¬ table m pg vb p) →
  frames m !! p = Some ws → length ws = 1024%nat →
  ∃ m', Kalloc.kfree kend p m = Ok tt m' ∧ vm_ok m' pg (p :: l) ∧ ∀ va, mapping m' pg va = mapping m pg va.
Proof.
  intros Hok Hk Ha Hne Hni Hnt Hws Hlen. eexists. split; [by eapply kfree_ok|].
  set (m' := Phys p (<[p := freed (freelist m)]> (frames m))).
  assert (∀ i, pde m' pg i = pde m pg i) as Hpde by (intros i; by apply pde_other).
  assert (∀ u, u ≠ p → frames m' !! u = frames m !! u) as Hfr by (intros u Hu; cbn; by rewrite lookup_insert_ne).
  pose proof Hok as [].
  assert (∀ i e, 0 ≤ i < 1024 → pde m pg i = Some e → has e PTE_P = true → P2V (PTE_ADDR e) ≠ p) as Hent.
  { intros i e Hi He Hp E. apply (Hnt (i * 2 ^ 22)). exists e. split; [|by split].
    unfold PDX. rewrite Z.shiftr_div_pow2, Z.div_mul by lia. change 0x3FF with (Z.ones 10).
    rewrite Z.land_ones, Z.mod_small by (change (2 ^ 10) with 1024; lia). done. }
  split; [split|].
  - destruct Hk as (? & ? & ? & ?). split_and!; try done. exists (freelist m), (replicate 1023 0x01010101).
    split_and!; [apply lookup_insert_eq|by rewrite length_replicate|by apply chain_insert].
  - by constructor.
  - intros a [->|?]%elem_of_cons; [done|by apply vo_free0].
  - destruct vo_dir0 as (? & ? & ws' & ? & ?). split_and!; try done; [by apply not_elem_of_cons|].
    exists ws'. by rewrite Hfr.
  - intros i e Hi He Hp. rewrite Hpde in He. pose proof (Hent i e Hi He Hp).
    destruct (vo_tab0 i e Hi He Hp) as (? & ? & ? & ws' & ? & ?). split_and!; try done; [by apply not_elem_of_cons|].
    exists ws'. by rewrite Hfr.
  - intros i j e f Hi Hj. rewrite !Hpde. by apply vo_inj0.
  - intros va. unfold mapping. rewrite Hpde. destruct (pde m pg (PDX va)) as [e|] eqn:He; [|done]. cbn [mbind option_bind].
    destruct (decide (has e PTE_P = true)) as [Hp|Hp]; [|by rewrite !option_guard_False].
    rewrite !option_guard_True by done. unfold m'. rewrite pde_other; [done|].
    apply (Hent (PDX va)); [apply index_range|done|done].
Qed.

(** * Address spaces *)

(** A user address, and the page that it is mapped to. *)
Definition uva (va : Z) : Prop := 0 ≤ va < KERNBASE.
Definition maps (m : phys) (pg va u : Z) : Prop := ∃ e, mapping m pg va = Some e ∧ u = P2V (PTE_ADDR e).

(** What a directory owns, and the pages of an operation: free or owned. *)
Definition owns (m : phys) (pg u : Z) : Prop :=
  u = pg ∨ (∃ va, table m pg va u) ∨ (∃ va, uva va ∧ maps m pg va u).
Definition arena (m : phys) (pg : Z) (l : list Z) (u : Z) : Prop := u ∈ l ∨ owns m pg u.

Definition page (m : phys) (u : Z) : Prop := ∃ ws, frames m !! u = Some ws ∧ length ws = 1024%nat.

Lemma chain_page m h l u : chain (frames m) h l → u ∈ l → page m u.
Proof.
  revert h. induction l as [|x l IH]; intros h; [by intros _ ?%not_elem_of_nil|].
  intros (-> & _ & _ & nx & ws & Hws & Hlw & Hc) [->|Hu]%elem_of_cons; [|by eapply IH].
  exists (nx :: ws). split; [done|]. cbn. lia.
Qed.

Lemma table_is_page m pg l va u : vm_ok m pg l → table m pg va u → page m u.
Proof. intros Hv Ht. by destruct (table_page m pg l Hv va u Ht) as (_ & _ & _ & _ & ?). Qed.

Section Space.
Context (kend : Z).

Definition usable (u : Z) : Prop := kpage kend u ∧ kaddr u.

(** The free pages [l] and the pages owned are all different and all there. *)
Record space (m : phys) (pg : Z) (l : list Z) : Prop := {
  sp_vm : vm_ok m pg l;
  sp_page : ∀ u, arena m pg l u → usable u ∧ page m u;
  sp_user : ∀ va u, uva va → maps m pg va u → (u ∉ l) ∧ u ≠ pg ∧ ∀ vb, ¬ table m pg vb u;
  sp_inj : ∀ va vb u, uva va → uva vb → maps m pg va u → maps m pg vb u → va / 4096 = vb / 4096
}.

(** The contents of the pages that stay mapped. *)
Definition keeps (m m' : phys) (pg : Z) : Prop :=
  ∀ va u, uva va → maps m pg va u → maps m' pg va u → frames m' !! u = frames m !! u.
Definition same_outside (m m' : phys) (P : Z → Prop) : Prop := ∀ u, ¬ P u → frames m' !! u = frames m !! u.

Lemma maps_mapping m m' pg va u : mapping m' pg va = mapping m pg va → maps m' pg va u ↔ maps m pg va u.
Proof. intros E. unfold maps. by rewrite E. Qed.

Lemma maps_fun m pg va u u' : maps m pg va u → maps m pg va u' → u = u'.
Proof. intros (e & E & ->) (e' & E' & ->). congruence. Qed.

(** The same mappings and tables. *)
Definition same_maps (m m' : phys) (pg : Z) : Prop :=
  (∀ va u, table m' pg va u ↔ table m pg va u) ∧ (∀ va, mapping m' pg va = mapping m pg va).

Lemma same_maps_owns m m' pg u : same_maps m m' pg → owns m' pg u ↔ owns m pg u.
Proof. intros [Ht Hm]. unfold owns, maps. setoid_rewrite Ht. by setoid_rewrite Hm. Qed.

(** Pages of the same directory after a step that keeps its mappings. *)
Lemma same_maps_space m m' pg l l' :
  space m pg l → same_maps m m' pg → vm_ok m' pg l' → (∀ u, u ∈ l' → u ∈ l) → (∀ u, page m u → page m' u) → space m' pg l'.
Proof.
  intros [Hv Hp Hu Hi] Hs Hv' Hl Hpg. pose proof Hs as [Ht Hm]. split; [done| | |].
  - intros u [H|H]; [destruct (Hp u); [left; auto|auto]|]. apply (same_maps_owns _ _ _ _ Hs) in H. destruct (Hp u); [by right|auto].
  - intros va u Hva. rewrite (maps_mapping m m') by done. intros Hmu. destruct (Hu va u Hva Hmu) as (? & ? & Hnt).
    split; [auto|]. split; [done|]. intros vb. rewrite Ht. apply Hnt.
  - intros va vb u Ha Hb. rewrite !(maps_mapping m m') by done. by apply Hi.
Qed.

(** ** Taking a page, and giving one back *)

Lemma take_page_ok m pg p l : space m pg (p :: l) →
  ∃ m1, kalloc m = Ok p m1 ∧ p ≠ 0 ∧ fill_page p 0 m1 = Ok tt (filled_page m p (freelist m1) (replicate 1024 0)) ∧
  let m2 := filled_page m p (freelist m1) (replicate 1024 0) in
  space m2 pg l ∧ same_maps m m2 pg ∧ usable p ∧ ¬ arena m2 pg l p ∧ frames m2 !! p = Some (replicate 1024 0) ∧
  (∀ u, u ≠ p → frames m2 !! u = frames m !! u).
Proof.
  intros Hsp. pose proof Hsp as [Hv Hp Hu Hi]. destruct (kalloc_ok m p l (vo_chain _ _ _ Hv)) as (m1 & Ek & Hfr & Hch).
  exists m1. split; [done|]. destruct (Hp p ltac:(left; left)) as [[Hk Ha] (ws & Hws & Hl)].
  destruct (free_page_apart _ _ _ _ Hv) as (Hne & Hni & Hpg & _ & Hnt). rewrite Hfr in Hch.
  split; [apply Hk|]. split; [unfold fill_page; rewrite Hfr, Hws, Hl; done|]. cbv zeta.
  set (m2 := filled_page _ _ _ _).
  assert (same_maps m m2 pg) as Hs by (split; intros; [by eapply filled_table|by eapply filled_mapping]).
  assert (space m2 pg l) as Hs2.
  { apply (same_maps_space m m2 pg (p :: l)); [done|done|by eapply filled_vm_ok|intros; by right|].
    intros u (w & Hw & Hlw). unfold page, m2, filled_page. cbn [frames]. destruct (decide (u = p)) as [->|].
    - rewrite lookup_insert_eq. eexists. split; [done|]. by rewrite length_replicate.
    - rewrite lookup_insert_ne by done. by exists w. }
  split; [done|]. split; [done|]. split; [done|]. split.
  { intros [?|H]; [done|]. apply (same_maps_owns m m2 pg p Hs) in H as [?|[[va H]|(va & Hva & H)]]; [done|by eapply Hnt|].
    destruct (Hu va p Hva H) as [[? _]%not_elem_of_cons _]. done. }
  unfold m2, filled_page. cbn [frames]. split; [apply lookup_insert_eq|]. intros. by rewrite lookup_insert_ne.
Qed.

Lemma owns_tables m pg u : (∀ vb, ¬ table m pg vb u) → u ≠ pg → owns m pg u → ∃ va, uva va ∧ maps m pg va u.
Proof. intros Hn Hne [?|[[va ?]|?]]; [done|by destruct (Hn va)|done]. Qed.

(** [kfree] of a page that is not in use. *)
Lemma give_ok m pg p l : space m pg l → usable p → page m p → ¬ arena m pg l p →
  ∃ m', kfree kend p m = Ok tt m' ∧ space m' pg (p :: l) ∧ same_maps m m' pg ∧ (∀ u, u ≠ p → frames m' !! u = frames m !! u).
Proof.
  intros Hsp [Hk Ha] (ws & Hws & Hl) Hna. pose proof Hsp as [Hv Hp Hu Hi].
  assert (p ≠ pg) by (intros ->; apply Hna; right; by left). assert (p ∉ l) by (intros ?; apply Hna; by left).
  assert (∀ vb, ¬ table m pg vb p) as Hnt by (intros vb ?; apply Hna; right; right; left; by exists vb).
  destruct (kfree_vm_ok kend m pg p l ws) as (m' & E & Hv' & Hm'); try done. exists m'. split; [done|].
  assert (∀ u, u ≠ p → frames m' !! u = frames m !! u) as Hfr.
  { rewrite (kfree_ok kend m p ws) in E by done. injection E as <-. intros u Hu'. cbn. by rewrite lookup_insert_ne. }
  assert (page m' p) as Hpp.
  { destruct (vo_chain _ _ _ Hv') as (_ & _ & _ & nx & w & ? & ? & _). exists (nx :: w). split; [done|]. cbn. lia. }
  assert (∀ i, pde m' pg i = pde m pg i) as Hd by (intros i; unfold pde; by rewrite Hfr by done).
  assert (same_maps m m' pg) as Hs.
  { split; [|done]. intros va u. unfold table. by setoid_rewrite Hd. }
  split; [|done]. pose proof Hs as [Ht _]. split; [done| | |].
  - intros u [[->|H']%elem_of_cons|H']; [done| |].
    + destruct (Hp u ltac:(by left)) as [? (w & ? & ?)]. split; [done|]. exists w. rewrite Hfr; [done|]. by intros ->.
    + apply (same_maps_owns m m' pg u Hs) in H'. destruct (Hp u ltac:(by right)) as [? (w & ? & ?)]. split; [done|].
      exists w. rewrite Hfr; [done|]. intros ->. apply Hna. by right.
  - intros va u Hva. rewrite (maps_mapping m m') by done. intros Hmu. destruct (Hu va u Hva Hmu) as (? & ? & Hnt').
    split; [apply not_elem_of_cons; split; [|done]|]. { intros ->. apply Hna. right. right. right. by exists va. }
    split; [done|]. intros vb. rewrite Ht. apply Hnt'.
  - intros va vb u Hva Hvb. rewrite !(maps_mapping m m') by done. by apply Hi.
Qed.

(** ** Mapping a page *)

Lemma page_entry_frame p perm : kaddr p → 0 ≤ perm < 4096 →
  P2V (PTE_ADDR (page_entry (V2P p) perm)) = p ∧ 0 ≤ page_entry (V2P p) perm < 2 ^ 32.
Proof.
  intros Hk Hp. destruct (V2P_kaddr p Hk) as (_ & Ha & Hr). unfold page_entry. rewrite <- Z.lor_assoc.
  assert (0 ≤ Z.lor perm PTE_P < 4096) as Hf.
  { assert (0 ≤ Z.lor perm PTE_P) by (apply Z.lor_nonneg; unfold PTE_P; lia). split; [done|].
    destruct (decide (Z.lor perm PTE_P < 2 ^ 12)) as [|Hge]; [done|]. exfalso.
    assert (12 ≤ Z.log2 (Z.lor perm PTE_P)) by (rewrite <- (Z.log2_pow2 12) by lia; apply Z.log2_le_mono; lia).
    rewrite Z.log2_lor in * by (unfold PTE_P; lia). change (Z.log2 PTE_P) with 0 in *.
    assert (Z.log2 perm < 12); [|lia]. destruct (decide (perm = 0)) as [->|]; [cbn; lia|].
    apply Z.log2_lt_pow2; [lia|]. change (2 ^ 12) with 4096. lia. }
  rewrite lor_low by done. split; [|lia]. rewrite PTE_ADDR_eq by lia.
  rewrite <- Z.add_mod_idemp_l, Ha, Z.add_0_l, (Z.mod_small (Z.lor _ _)), Z.add_simpl_r by lia. by apply P2V_V2P.
Qed.

Lemma user_half va vb : uva va → vb / 4096 = va / 4096 → 0 ≤ vb → uva vb.
Proof.
  unfold uva, KERNBASE. intros. assert (va / 4096 < 524288) by (apply Z.div_lt_upper_bound; lia).
  pose proof (Z.div_mod vb 4096 ltac:(lia)). pose proof (Z.mod_pos_bound vb 4096 ltac:(lia)). lia.
Qed.

(** A step that maps [p] at [a], or nothing ([new = None]), and takes page tables
    off the free list. *)
Lemma grown_space m m' pg l l' p a perm (b : bool) :
  space m pg l →
  (b = true → usable p ∧ page m p ∧ ¬ arena m pg l p ∧ uva a ∧ mapping m pg a = None ∧ 0 ≤ perm < 4096) →
  vm_ok m' pg l' → l' `suffix_of` l → tables_grow m m' pg l l' →
  (∀ u, u ≠ pg → u ∉ l → (∀ vb, ¬ table m pg vb u) → frames m' !! u = frames m !! u) →
  (∀ vb, uva vb → mapping m' pg vb =
     if decide (b = true ∧ a / 4096 = vb / 4096) then Some (page_entry (V2P p) perm) else mapping m pg vb) →
  space m' pg l' ∧ (∀ u, arena m' pg l' u ↔ arena m pg l u ∨ b = true ∧ u = p).
Proof.
  intros Hsp Hb Hv' Hsuf (T1 & T2 & T3) Hfr Hm'. pose proof Hsp as [Hv Hp Hu Hi].
  assert (b = true → P2V (PTE_ADDR (page_entry (V2P p) perm)) = p) as Hpe.
  { intros H. destruct (Hb H) as ([_ ?] & _ & _ & _ & _ & ?). by apply page_entry_frame. }
  assert (b = true → ¬ arena m pg l p) as Hna by (intros H; by apply Hb).
  assert (∀ u, u ∈ l' → u ∈ l) as Hl by (destruct Hsuf as [l0 ->]; intros; apply elem_of_app; by right).
  assert (∀ va u, uva va → maps m' pg va u ↔ (b = true ∧ a / 4096 = va / 4096 ∧ u = p) ∨ (¬ (b = true ∧ a / 4096 = va / 4096) ∧ maps m pg va u)) as Hmaps.
  { intros va u Hva. unfold maps at 1. rewrite Hm' by done.
    destruct (decide (b = true ∧ a / 4096 = va / 4096)) as [D|D].
    - specialize (Hpe (proj1 D)). split; [intros (e & [= <-] & ->); left; rewrite Hpe; by destruct D|].
      intros [(_ & _ & ->)|[? _]]; [|done]. exists (page_entry (V2P p) perm). by rewrite Hpe.
    - split; [by right|]. by intros [(? & ? & _)|[_ ?]]; [destruct D|]. }
  assert (∀ va, uva va → b = true ∧ a / 4096 = va / 4096 → ∀ u, ¬ maps m pg va u) as Hnew.
  { intros va Hva [H E] u (e & He & _). destruct (Hb H) as (_ & _ & _ & Ha & Hnone & _).
    rewrite (mapping_same_page m pg va a), Hnone in He; [done|unfold uva, KERNBASE in *; lia..]. }
  assert (∀ u, arena m' pg l' u ↔ arena m pg l u ∨ b = true ∧ u = p) as Har.
  { intros u. split.
    - intros [H|[->|[[va H]|(va & Hva & H)]]]; [left; left; auto|left; right; by left| |].
      + apply T1 in H as [H|H]; left; [right; right; left; by exists va|by left].
      + apply Hmaps in H as [(? & ? & ->)|[_ H]]; [by right|left|done]. right. right. right. by exists va.
    - intros [[H|[->|[[va H]|(va & Hva & H)]]]|[H ->]]; [|right; by left|right; right; left; exists va; auto|right; right; right..].
      + destruct (decide (u ∈ l')) as [|Hn]; [by left|]. right. right. left. by apply T3.
      + exists va. split; [done|]. apply Hmaps; [done|]. right. split; [|done]. intros E. by eapply Hnew.
      + exists a. destruct (Hb H) as (_ & _ & _ & Ha & _). split; [done|]. apply Hmaps; [done|]. by left. }
  assert (b = true → ∀ vb, ¬ table m' pg vb p) as Hpt.
  { intros E vb [H|H]%T1; apply (Hna E); [right; right; left; by exists vb|by left]. }
  assert (∀ va u, uva va → maps m pg va u → ∀ vb, ¬ table m' pg vb u) as Hut.
  { intros va u Hva H vb [Ht|Ht]%T1; destruct (Hu va u Hva H) as (? & ? & Hnt); [by eapply Hnt|done]. }
  split; [|done]. split; [done| | |].
  - intros u Hau. split.
    { apply Har in Hau as [Hau|[E ->]]; [by apply Hp|by apply Hb]. }
    destruct Hau as [H|[->|[[va H]|(va & Hva & H)]]].
    + by eapply chain_page; [apply (vo_chain _ _ _ Hv')|].
    + by destruct (vo_dir _ _ _ Hv') as (_ & _ & ?).
    + by eapply table_is_page.
    + apply Hmaps in H as [(E & _ & ->)|[_ H]]; [| |done].
      * unfold page. rewrite Hfr; [by apply Hb| | |]; [intros ->|intros ?|intros vb ?]; apply (Hna E); [right; by left|by left|right; right; left; by exists vb].
      * destruct (Hu va u Hva H) as (? & ? & ?). unfold page. rewrite Hfr by done. apply Hp. right. right. right. by exists va.
  - intros va u Hva H. apply Hmaps in H as [(E & _ & ->)|[_ H]]; [| |done].
    + split; [intros H%Hl; apply (Hna E); by left|]. split; [intros ->; apply (Hna E); right; by left|by apply Hpt].
    + destruct (Hu va u Hva H) as (? & ? & ?). split; [auto|]. split; [done|]. by eapply Hut.
  - intros va vb u Hva Hvb H1 H2. apply Hmaps in H1 as [(E & E1 & ->)|[_ H1]]; [| |done]; apply Hmaps in H2 as [(E' & E2 & E3)|[_ H2]]; try done.
    + congruence.
    + exfalso. apply (Hna E). right. right. right. by exists vb.
    + subst u. exfalso. apply (Hna E'). right. right. right. by exists va.
    + by apply (Hi va vb u).
Qed.

Lemma map_one_ok m pg l p a perm :
  space m pg l → usable p → page m p → ¬ arena m pg l p → uva a → a mod 4096 = 0 → mapping m pg a = None → 0 ≤ perm < 4096 →
  ∃ r m' l', mappages pg a PGSIZE (V2P p) perm m = Ok r m' ∧ space m' pg l' ∧
    (r = 0 ∨ r = -1 ∧ l' = []) ∧
    (∀ u, arena m' pg l' u ↔ arena m pg l u ∨ r = 0 ∧ u = p) ∧
    (∀ vb, 0 ≤ vb < 2 ^ 32 → mapping m' pg vb =
       if decide (r = 0 ∧ a / 4096 = vb / 4096) then Some (page_entry (V2P p) perm) else mapping m pg vb) ∧
    (∀ u, u ≠ pg → u ∉ l → (∀ vb, ¬ table m pg vb u) → frames m' !! u = frames m !! u).
Proof.
  intros Hsp Hup Hpp Hna Ha Hal Hnone Hperm. pose proof Hsp as [Hv _ _ _]. destruct (V2P_kaddr p (proj2 Hup)) as (_ & _ & Hr).
  destruct (mappages_ok m pg l a 1 (V2P p) perm Hv Hal) as (r & m' & l' & k & E & Hv' & Hs & (Hk & Hrk & Hm) & Hfr & Ht);
    [unfold uva, KERNBASE in Ha; lia..| |].
  { intros vb Hvb Hrg. rewrite <- Hnone. apply mapping_same_page; [done|unfold uva, KERNBASE in Ha; lia|lia]. }
  assert (∀ vb, 0 ≤ vb < 2 ^ 32 → mapping m' pg vb =
    if decide (r = 0 ∧ a / 4096 = vb / 4096) then Some (page_entry (V2P p) perm) else mapping m pg vb) as Hm'.
  { intros vb Hvb. rewrite Hm by done. destruct (decide (r = 0 ∧ a / 4096 = vb / 4096)) as [[-> Ev]|D].
    - rewrite decide_True by lia. by rewrite Ev, Z.sub_diag, Z.mul_0_l, Z.add_0_r, u32_small by lia.
    - by rewrite decide_False by lia. }
  destruct (grown_space m m' pg l l' p a perm (bool_decide (r = 0))) as [Hsp' Har]; try done.
  { intros vb Hvb. rewrite Hm' by (unfold uva, KERNBASE in Hvb; lia). case_bool_decide as D.
    - destruct (decide (r = 0 ∧ a / 4096 = vb / 4096)), (decide (true = true ∧ a / 4096 = vb / 4096)); naive_solver.
    - destruct (decide (r = 0 ∧ a / 4096 = vb / 4096)), (decide (false = true ∧ a / 4096 = vb / 4096)); naive_solver. }
  exists r, m', l'. split; [exact E|]. split; [done|]. split; [naive_solver|]. split; [|done].
  intros u. rewrite Har, bool_decide_eq_true. done.
Qed.

(** ** Unmapping a page *)

Lemma page_start a : 0 ≤ a → a mod 4096 = 0 → a / 4096 * 4096 = a.
Proof. intros. pose proof (Z.div_mod a 4096 ltac:(lia)). lia. Qed.

Lemma maps_present m pg va u : maps m pg va u → ∃ t e, table m pg va t ∧ pde m t (PTX va) = Some e ∧ has e PTE_P = true ∧ u = P2V (PTE_ADDR e).
Proof.
  intros (e & He & ->). unfold mapping in He. destruct (pde m pg (PDX va)) as [d|] eqn:Hd; [|done]. cbn [mbind option_bind] in He.
  destruct (decide (has d PTE_P = true)) as [Hp|Hp]; [rewrite option_guard_True in He by done|by rewrite option_guard_False in He].
  destruct (pde m _ (PTX va)) as [x|] eqn:Hx; [|done]. cbn [mbind option_bind] in He.
  destruct (decide (has x PTE_P = true)) as [Hpx|Hpx]; [rewrite option_guard_True in He by done|by rewrite option_guard_False in He].
  injection He as ->. exists (P2V (PTE_ADDR d)), e. split; [by exists d|done].
Qed.

(** Freeing the page at [a] and clearing its entry. *)
Lemma unmap_ok m pg l a t e :
  space m pg l → uva a → table m pg a t → pde m t (PTX a) = Some e → has e PTE_P = true →
  let u := P2V (PTE_ADDR e) in
  ∃ m1 m', kfree kend u m = Ok tt m1 ∧ st_word (t + 4 * PTX a) 0 m1 = Ok tt m' ∧ space m' pg (u :: l) ∧
    (∀ w, arena m' pg (u :: l) w ↔ arena m pg l w) ∧
    (∀ vb, 0 ≤ vb < 2 ^ 32 → mapping m' pg vb = if decide (a / 4096 = vb / 4096) then None else mapping m pg vb) ∧
    (∀ vb w, table m' pg vb w ↔ table m pg vb w) ∧
    (∀ w, w ≠ u → w ≠ t → frames m' !! w = frames m !! w).
Proof.
  intros Hsp Ha Ht He Hpe u. pose proof Hsp as [Hv Hp Hu Hi].
  assert (mapping m pg a = Some e) as Hma.
  { rewrite (mapping_table m pg a t Ht), He. cbn [mbind option_bind]. by rewrite option_guard_True. }
  assert (maps m pg a u) as Hmu by by exists e. destruct (Hu a u Ha Hmu) as (Hul & Hup & Hut).
  destruct (Hp u) as [[Hk Hka] (ws & Hws & Hl)]; [right; right; right; by exists a|].
  destruct (kfree_vm_ok kend m pg u l ws) as (m1 & E & Hv1 & Hm1); try done.
  assert (∀ w, w ≠ u → frames m1 !! w = frames m !! w) as Hfr1.
  { rewrite (kfree_ok kend m u ws) in E by done. injection E as <-. intros w Hw. cbn. by rewrite lookup_insert_ne. }
  assert (∀ i, pde m1 pg i = pde m pg i) as Hd1 by (intros i; unfold pde; by rewrite Hfr1 by done).
  assert (∀ vb w, table m1 pg vb w ↔ table m pg vb w) as Ht1 by (intros vb w; unfold table; by setoid_rewrite Hd1).
  assert (table m1 pg a t) as Hta by by apply Ht1.
  set (m' := set_pte m1 t a 0). exists m1, m'. split; [exact E|]. split; [by eapply set_pte_ok|].
  assert (vm_ok m' pg (u :: l)) as Hv' by by eapply set_pte_vm_ok.
  assert (∀ vb w, table m' pg vb w ↔ table m pg vb w) as Ht'.
  { intros vb w. rewrite <- Ht1. unfold table, m'. pose proof (index_range vb).
    by rewrite (set_pte_dir m1 pg (u :: l) Hv1 a t 0 (PDX vb)) by (done || lia). }
  assert (∀ w, w ≠ u → w ≠ t → frames m' !! w = frames m !! w) as Hfr'.
  { intros w Hw Hwt. unfold m'. rewrite (set_pte_frames m1 pg (u :: l) Hv1 a) by done. by apply Hfr1. }
  assert (∀ vb, 0 ≤ vb < 2 ^ 32 → mapping m' pg vb = if decide (a / 4096 = vb / 4096) then None else mapping m pg vb) as Hm'.
  { intros vb Hvb. unfold m'. rewrite (set_pte_mapping m1 pg (u :: l) Hv1), Hm1 by (done || unfold uva, KERNBASE in Ha; lia).
    case_decide; [|done]. by rewrite has_0. }
  assert (∀ va w, uva va → maps m' pg va w ↔ a / 4096 ≠ va / 4096 ∧ maps m pg va w) as Hmaps.
  { intros va w Hva. unfold maps at 1. rewrite Hm' by (unfold uva, KERNBASE in Hva; lia).
    destruct (decide (a / 4096 = va / 4096)) as [D|D]; [split; [by intros (? & ? & _)|by intros [? _]]|]. split; [done|by intros [_ ?]]. }
  assert (∀ w, arena m' pg (u :: l) w ↔ arena m pg l w) as Har.
  { intros w. split.
    - intros [[->|H]%elem_of_cons|[->|[[va H]|(va & Hva & H)]]].
      + right. right. right. by exists a.
      + by left.
      + right. by left.
      + right. right. left. exists va. by apply Ht'.
      + right. right. right. exists va. split; [done|]. by apply Hmaps in H as [_ ?].
    - intros [H|[->|[[va H]|(va & Hva & H)]]].
      + left. by right.
      + right. by left.
      + right. right. left. exists va. by apply Ht'.
      + destruct (decide (a / 4096 = va / 4096)) as [D|D].
        * left. destruct H as (e' & He' & ->). rewrite <- (mapping_same_page m pg a va), Hma in He' by (unfold uva, KERNBASE in *; lia).
          injection He' as <-. left.
        * right. right. right. exists va. split; [done|]. by apply Hmaps. }
  split; [|done]. split; [done| | |].
  - intros w Hw. split; [by apply Hp, Har|]. apply Har in Hw. destruct (Hp w Hw) as [_ (ww & Hww & Hlw)].
    destruct (decide (w = u)) as [->|Hne].
    { apply (chain_page m' (freelist m') (u :: l)); [apply (vo_chain _ _ _ Hv')|left]. }
    destruct (decide (w = t)) as [->|Hnt]; [by eapply table_is_page; [|apply Ht']|].
    exists ww. by rewrite Hfr'.
  - intros va w Hva [Hne H]%Hmaps; [|done]. destruct (Hu va w Hva H) as (? & ? & Hnt). split.
    + apply not_elem_of_cons. split; [|done]. intros ->. apply Hne. by apply (Hi a va u).
    + split; [done|]. intros vb. rewrite Ht'. apply Hnt.
  - intros va vb w Hva Hvb [_ H1]%Hmaps [_ H2]%Hmaps; [|done..]. by apply (Hi va vb w).
Qed.

End Space.
End VmSpace.
