(* ===== verification/VmUser.v ===== *)
(** VmUser: the user part of an address space: [deallocuvm], [allocuvm], [freevm]
    and [setupkvm] (p4/xv6-public/vm.c).  They keep the address space well formed
    and lose no page, in particular when memory runs out half way. *)
From S2P Require Import Prelude Kalloc Vm VmMap VmSpace.
From stdpp Require Import gmap.
Local Open Scope Z_scope.

Module VmUser.
Import Kalloc Vm VmMap VmSpace.

(** The number of pages that [sz] bytes take. *)
Definition pages (sz : Z) : Z := (sz + 4095) / 4096.

Lemma PGROUNDUP_pages sz : 0 ≤ sz ≤ 2 ^ 32 - 4096 → PGROUNDUP sz = pages sz * 4096.
Proof.
  intros Hs. unfold PGROUNDUP. fold (PGROUNDDOWN (u32 (sz + PGSIZE - 1))). unfold PGSIZE.
  rewrite u32_small, PGROUNDDOWN_eq by lia. unfold pages, PGSIZE. replace (sz + 4096 - 1) with (sz + 4095) by lia.
  pose proof (Z.div_mod (sz + 4095) 4096 ltac:(lia)). lia.
Qed.

Lemma pages_lt a sz : 0 ≤ a → a mod 4096 = 0 → a < sz ↔ a / 4096 < pages sz.
Proof.
  intros Ha Hm. unfold pages. pose proof (Z.div_mod a 4096 ltac:(lia)). pose proof (Z.div_mod (sz + 4095) 4096 ltac:(lia)).
  pose proof (Z.mod_pos_bound (sz + 4095) 4096 ltac:(lia)). lia.
Qed.

Lemma pages_mono a b : a ≤ b → pages a ≤ pages b.
Proof. intros. apply Z.div_le_mono; lia. Qed.

Section User.
Context (kend : Z) (Hkend : KERNBASE < kend).

(** What taking away user pages does: the pages from index [lo] to [hi] are
    unmapped and free, the others keep their mapping and contents. *)
Record shrunk (m : phys) (pg : Z) (l : list Z) (lo hi : Z) (m' : phys) (l' : list Z) : Prop := {
  sk_space : space kend m' pg l';
  sk_arena : ∀ u, arena m' pg l' u ↔ arena m pg l u;
  sk_mapping : ∀ vb, 0 ≤ vb < 2 ^ 32 → mapping m' pg vb = if decide (lo ≤ vb / 4096 < hi) then None else mapping m pg vb;
  sk_keeps : keeps m m' pg;
  sk_outside : same_outside m m' (arena m pg l)
}.

Lemma shrunk_refl m pg l lo : space kend m pg l → shrunk m pg l lo lo m l.
Proof. intros H. split; try done. intros vb Hvb. by rewrite decide_False by lia. Qed.

Lemma shrunk_maps m pg l lo hi m' l' va u : shrunk m pg l lo hi m' l' → uva va → maps m' pg va u → maps m pg va u.
Proof.
  intros H Hva (e & He & ->). rewrite (sk_mapping _ _ _ _ _ _ _ H) in He by (unfold uva, KERNBASE in Hva; lia).
  case_decide; [done|]. by exists e.
Qed.

Lemma shrunk_trans m pg l lo mid hi m1 l1 m2 l2 :
  lo ≤ mid ≤ hi → shrunk m pg l lo mid m1 l1 → shrunk m1 pg l1 mid hi m2 l2 → shrunk m pg l lo hi m2 l2.
Proof.
  intros Hlo H1 H2. split.
  - apply H2.
  - intros u. rewrite (sk_arena _ _ _ _ _ _ _ H2). apply H1.
  - intros vb Hvb. rewrite (sk_mapping _ _ _ _ _ _ _ H2), (sk_mapping _ _ _ _ _ _ _ H1) by done.
    repeat case_decide; lia || done.
  - intros va u Hva Ha Hc. pose proof (shrunk_maps _ _ _ _ _ _ _ va u H2 Hva Hc) as Hb.
    rewrite (sk_keeps _ _ _ _ _ _ _ H2 va u) by done. by apply (sk_keeps _ _ _ _ _ _ _ H1 va u).
  - intros u Hu. rewrite (sk_outside _ _ _ _ _ _ _ H2); [by apply H1|]. by rewrite (sk_arena _ _ _ _ _ _ _ H1).
Qed.

(** Nothing to unmap. *)
Lemma shrunk_none m pg l lo hi :
  space kend m pg l → (∀ vb, 0 ≤ vb < 2 ^ 32 → lo ≤ vb / 4096 < hi → mapping m pg vb = None) → shrunk m pg l lo hi m l.
Proof. intros H Hn. split; try done. intros vb Hvb. case_decide; [by apply Hn|done]. Qed.

Lemma PDX_div a : 0 ≤ a < 2 ^ 32 → PDX a = a / 4096 / 1024.
Proof.
  intros Ha. pose proof (index_eq a Ha) as E. pose proof (index_range a). rewrite E.
  rewrite Z.add_comm, Z.div_add by lia. rewrite (Z.div_small (PTX a)) by lia. done.
Qed.

Lemma next_table a : uva a → u32 (u32 (PGADDR (PDX a + 1) 0 0 - PGSIZE) + PGSIZE) = (PDX a + 1) * 1024 * 4096 ∧ PDX a < 512.
Proof.
  unfold uva, KERNBASE. intros Ha. pose proof (index_range a) as [? _].
  assert (PDX a < 512) as Hd.
  { rewrite PDX_div by lia. apply Z.div_lt_upper_bound; [lia|]. apply Z.div_lt_upper_bound; lia. }
  split; [|done]. unfold PGADDR, PGSIZE. rewrite Z.shiftl_0_l, !Z.lor_0_r, Z.shiftl_mul_pow2 by lia.
  change (2 ^ 22) with (1024 * 4096). rewrite (u32_small ((PDX a + 1) * _)) by lia. rewrite (u32_small (_ - 4096)), u32_small by lia. lia.
Qed.

(** One turn of the loop of [deallocuvm]. *)
Lemma dealloc_page_ok m pg l a :
  space kend m pg l → uva a → a mod 4096 = 0 →
  ∃ a' m' l', dealloc_page kend pg a m = Ok a' m' ∧ shrunk m pg l (a / 4096) (a' / 4096) m' l' ∧
    (∀ vb, 0 ≤ vb < 2 ^ 32 → a / 4096 + 1 ≤ vb / 4096 < a' / 4096 → mapping m pg vb = None) ∧
    a < a' ≤ KERNBASE ∧ a' mod 4096 = 0.
Proof.
  intros Hsp Ha Hal. pose proof Hsp as [Hv Hp Hu Hi]. assert (0 ≤ a < 2 ^ 32) as Har by (unfold uva, KERNBASE in Ha; lia).
  pose proof (page_start a ltac:(lia) Hal) as Hst. unfold dealloc_page.
  destruct (dir_entry m pg l Hv a) as [d Hd]. destruct (has d PTE_P) eqn:Hdp.
  2:{ rewrite (bind_ok _ _ _ _ _ (walk_absent m pg l Hv a d Hd Hdp)). rewrite Z.eqb_refl.
      destruct (next_table a Ha) as [-> Hd5]. pose proof (PDX_div a Har) as Ed.
      pose proof (Z.div_mod (a / 4096) 1024 ltac:(lia)) as Hdm. pose proof (Z.mod_pos_bound (a / 4096) 1024 ltac:(lia)).
      assert (∀ vb, 0 ≤ vb < 2 ^ 32 → a / 4096 ≤ vb / 4096 < (PDX a + 1) * 1024 → mapping m pg vb = None) as Hnone.
      { intros vb Hvb Hr. eapply mapping_None; [|exact Hdp]. rewrite PDX_div by done. rewrite <- Hd. f_equal. rewrite Ed.
        symmetry. apply Z.div_unique_pos with (vb / 4096 - (a / 4096 / 1024) * 1024); lia. }
      exists ((PDX a + 1) * 1024 * 4096), m, l. rewrite Z.div_mul by lia. split; [done|]. split; [by apply shrunk_none|].
      split; [intros; apply Hnone; [done|lia]|]. split; [unfold KERNBASE; lia|]. by apply Z.mod_mul. }
  set (t := P2V (PTE_ADDR d)). assert (table m pg a t) as Ht by by exists d.
  destruct (table_page m pg l Hv a t Ht) as (H0 & _ & _ & Hta & ws & Hws & Hl).
  assert (0 ≤ t) by (unfold t, P2V; by apply wrapu_range). pose proof (index_range a) as [_ ?].
  rewrite (bind_ok _ _ _ _ _ (walk_present m pg l Hv a false t Ht)). rewrite (proj2 (Z.eqb_neq _ _)) by lia.
  destruct (lookup_lt_is_Some_2 ws (Z.to_nat (PTX a))) as [e He]; [lia|].
  rewrite (bind_ok _ _ _ _ _ (ld_word_ok m t (PTX a) ws e Hta ltac:(done) Hws He)).
  assert (pde m t (PTX a) = Some e) as Hpe by (unfold pde; by rewrite Hws).
  assert ((a + 4096) / 4096 = a / 4096 + 1) as Enext by (replace (a + 4096) with (a + 1 * 4096) by lia; by rewrite Z.div_add).
  assert ((a + 4096) mod 4096 = 0) as Hal' by (replace (a + 4096) with (a + 1 * 4096) by lia; by rewrite Z.mod_add).
  assert (a + 4096 ≤ KERNBASE) by (unfold uva, KERNBASE in *; assert (a / 4096 < 524288) by (apply Z.div_lt_upper_bound; lia); lia).
  assert (u32 (a + PGSIZE) = a + 4096) as -> by (unfold PGSIZE, KERNBASE in *; rewrite u32_small; lia).
  destruct (has e PTE_P) eqn:Hep.
  - destruct (unmap_ok kend m pg l a t e Hsp Ha Ht Hpe Hep) as (m1 & m' & E1 & E2 & Hsp' & Har' & Hm' & Ht' & Hfr).
    assert (maps m pg a (P2V (PTE_ADDR e))) as Hmu.
    { exists e. split; [|done]. rewrite (mapping_table m pg a t Ht), Hpe. cbn [mbind option_bind]. by rewrite option_guard_True. }
    assert (PTE_ADDR e ≠ 0) as Hnz.
    { intros E0. destruct (Hp (P2V (PTE_ADDR e))) as [[(_ & Hk & _) _] _]; [right; right; right; by exists a|].
      rewrite E0 in Hk. revert Hk. unfold P2V, KERNBASE in *. rewrite u32_small by lia. lia. }
    cbv zeta. rewrite (proj2 (Z.eqb_neq _ _) Hnz). rewrite bind_assoc, (bind_ok _ _ _ _ _ E1), (bind_ok _ _ _ _ _ E2).
    exists (a + 4096), m', (P2V (PTE_ADDR e) :: l). split; [done|]. rewrite Enext. split.
    + split; try done.
      * intros vb Hvb. rewrite Hm' by done. repeat case_decide; lia || done.
      * intros va u Hva Hmv Hmv'. destruct (Hu va u Hva Hmv) as (_ & _ & Hnt). apply Hfr; [|by intros ->; apply (Hnt a)].
        intros ->. destruct Hmv' as (x & Hx & _). rewrite Hm' in Hx by (unfold uva, KERNBASE in Hva; lia).
        case_decide as D; [done|]. apply D. by apply (Hi a va (P2V (PTE_ADDR e))).
      * intros u Hu'. apply Hfr; intros ->; apply Hu'; right; right; [right; by exists a|left; by exists a].
    + split; [lia|]. split; [lia|done].
  - rewrite bind_ret_l. exists (a + 4096), m, l. split; [done|]. rewrite Enext. split.
    + apply shrunk_none; [done|]. intros vb Hvb Hr. rewrite <- (mapping_same_page m pg a vb) by (done || lia).
      rewrite (mapping_table m pg a t Ht), Hpe. cbn [mbind option_bind]. by rewrite option_guard_False by congruence.
    + split; [lia|]. split; [lia|done].
Qed.

(** The end of a range in which nothing was mapped does not matter. *)
Lemma shrunk_cut m pg l lo mid hi m' l' :
  lo ≤ mid ≤ hi → (∀ vb, 0 ≤ vb < 2 ^ 32 → mid ≤ vb / 4096 < hi → mapping m pg vb = None) →
  shrunk m pg l lo hi m' l' → shrunk m pg l lo mid m' l'.
Proof.
  intros Hlo Hn []. split; try done. intros vb Hvb. rewrite sk_mapping0 by done.
  repeat case_decide; try (lia || done). symmetry. apply Hn; [done|lia].
Qed.

Lemma deallocuvm_ok m pg l oldsz newsz :
  space kend m pg l → 0 ≤ newsz < oldsz → oldsz ≤ KERNBASE →
  ∃ m' l', deallocuvm kend pg oldsz newsz m = Ok newsz m' ∧ shrunk m pg l (pages newsz) (pages oldsz) m' l'.
Proof.
  intros Hsp Hnew Hold. unfold deallocuvm. rewrite (proj2 (Z.leb_gt oldsz newsz)) by lia.
  unfold KERNBASE in Hold. rewrite PGROUNDUP_pages by lia. pose proof (pages_mono newsz oldsz ltac:(lia)) as Hmono.
  assert (pages oldsz ≤ 524288) as Hpo by (unfold pages; apply (Z.div_le_mono _ (524288 * 4096 + 4095)); lia).
  assert (0 ≤ pages newsz) by (apply Z.div_pos; lia).
  match goal with |- ∃ m' l', loop ?f ?b ?a m = _ ∧ _ =>
    enough (wp (loop f b a) (λ r m', r = newsz ∧ ∃ l', shrunk m pg l (pages newsz) (pages oldsz) m' l') m) as Hwp;
      [apply wp_ok in Hwp as (r & m' & E & -> & l' & H'); by exists m', l'|] end.
  eapply (wp_loop _ (λ a m', 0 ≤ a ≤ KERNBASE ∧ a mod 4096 = 0 ∧ pages newsz ≤ a / 4096 ∧
                       ∃ l', shrunk m pg l (pages newsz) (Z.min (a / 4096) (pages oldsz)) m' l')
                    (λ a, Z.to_nat (pages oldsz - a / 4096))).
  - rewrite Z.div_mul, Z.min_l by lia. split; [unfold KERNBASE; lia|]. split; [by apply Z.mod_mul|]. split; [lia|].
    exists l. by apply shrunk_refl.
  - rewrite Z.div_mul by lia. unfold pages, PGSIZE. pose proof (Z.div_mod (oldsz + 4095) 4096 ltac:(lia)).
    pose proof (Z.div_mod (newsz + 4095) 4096 ltac:(lia)). pose proof (Z.mod_pos_bound (newsz + 4095) 4096 ltac:(lia)).
    pose proof (Z.mod_pos_bound (oldsz + 4095) 4096 ltac:(lia)). pose proof (Z.div_mod (oldsz - newsz) 4096 ltac:(lia)).
    pose proof (Z.mod_pos_bound (oldsz - newsz) 4096 ltac:(lia)). lia.
  - intros a m1 (Ha & Hal & Hlo & l1 & H1). pose proof (pages_lt a oldsz ltac:(lia) Hal) as Hlt. destruct (Z.ltb_spec a oldsz) as [Hao|Hao].
    + assert (uva a) as Hua by (unfold uva, KERNBASE in *; lia).
      destruct (dealloc_page_ok m1 pg l1 a (sk_space _ _ _ _ _ _ _ H1) Hua Hal) as (a' & m2 & l2 & E & H2 & Hnone & Ha' & Hal').
      apply wp_bind. unfold wp at 1. rewrite E. unfold wp, ret. rewrite Z.min_l in H1 by lia.
      assert (a / 4096 + 1 ≤ a' / 4096) by (pose proof (page_start a ltac:(lia) Hal); pose proof (page_start a' ltac:(lia) Hal'); lia).
      split; [|lia]. split; [lia|]. split; [done|]. split; [lia|]. exists l2.
      apply (shrunk_trans _ _ _ _ (a / 4096) _ m1 l1); [lia|done|].
      apply (shrunk_cut _ _ _ _ _ (a' / 4096)); [lia| |done]. intros vb Hvb Hr. apply Hnone; [done|lia].
    + unfold wp, ret. split; [done|]. exists l1. rewrite Z.min_r in H1 by lia. done.
Qed.

(** ** Growing *)

(** What adding user pages does: the pages from index [lo] to [hi] are mapped to
    pages of zeros. *)
Record grown (m : phys) (pg : Z) (l : list Z) (lo hi : Z) (m' : phys) (l' : list Z) : Prop := {
  gr_space : space kend m' pg l';
  gr_arena : ∀ u, arena m' pg l' u ↔ arena m pg l u;
  gr_mapping : ∀ vb, 0 ≤ vb < 2 ^ 32 → ¬ lo ≤ vb / 4096 < hi → mapping m' pg vb = mapping m pg vb;
  gr_new : ∀ vb, 0 ≤ vb < 2 ^ 32 → lo ≤ vb / 4096 < hi →
    ∃ p, mapping m' pg vb = Some (page_entry (V2P p) (Z.lor PTE_W PTE_U)) ∧ kaddr p ∧ frames m' !! p = Some (replicate 1024 0);
  gr_keeps : keeps m m' pg;
  gr_outside : same_outside m m' (arena m pg l)
}.

Lemma grown_refl m pg l lo : space kend m pg l → grown m pg l lo lo m l.
Proof. intros H. split; try done. intros vb Hvb Hr. lia. Qed.

Lemma arena_take m m2 pg p l u : same_maps m m2 pg → arena m pg (p :: l) u ↔ u = p ∨ arena m2 pg l u.
Proof. intros H. unfold arena. rewrite elem_of_cons, (same_maps_owns m m2 pg u H). tauto. Qed.

Lemma owned_apart m pg l u : space kend m pg l → (∃ va, uva va ∧ maps m pg va u) → u ≠ pg ∧ (u ∉ l) ∧ ∀ vb, ¬ table m pg vb u.
Proof. intros H (va & Hva & Hm). by destruct (sp_user _ _ _ _ H va u Hva Hm) as (? & ? & ?). Qed.

(** Memory has run out: in some state on the way no page was free. *)
Definition exhausted (m : phys) (pg : Z) (l : list Z) (n : Z) : Prop :=
  ∃ m1 p, space kend m1 pg [] ∧ (∀ u, arena m pg l u → arena m1 pg [] u ∨ u = p) ∧
    ∀ vb, uva vb → n ≤ vb / 4096 → mapping m1 pg vb = mapping m pg vb.

Lemma exhausted_mono m pg l m1 l1 n n' :
  (∀ u, arena m pg l u → arena m1 pg l1 u) → (∀ vb, uva vb → n' ≤ vb / 4096 → mapping m1 pg vb = mapping m pg vb) → n ≤ n' →
  exhausted m1 pg l1 n → exhausted m pg l n'.
Proof.
  intros Ha Hm Hn (m2 & p & Hsp & Har & Hm2). exists m2, p. split; [done|]. split; [eauto|].
  intros vb Hvb Hge. rewrite Hm2 by (done || lia). by apply Hm.
Qed.

(** A page of zeros at [a]; or, without memory, everything that was added before is
    given back. *)
Lemma alloc_page_ok m pg l a newsz oldsz :
  space kend m pg l → uva a → a mod 4096 = 0 → a < newsz → 0 ≤ oldsz < newsz → newsz < KERNBASE → mapping m pg a = None →
  (∃ m' l', alloc_page kend pg oldsz newsz a m = Ok (inl (a + 4096)) m' ∧ grown m pg l (a / 4096) (a / 4096 + 1) m' l') ∨
  (∃ m' l', alloc_page kend pg oldsz newsz a m = Ok (inr 0) m' ∧ shrunk m pg l (pages oldsz) (pages newsz) m' l' ∧
     exhausted m pg l (pages newsz)).
Proof.
  intros Hsp Hua Hal Hlt Hsz Hk Hnone. unfold alloc_page. rewrite (proj2 (Z.ltb_lt a newsz)) by done. cbn [negb].
  destruct l as [|p l].
  { right. destruct (deallocuvm_ok m pg [] newsz oldsz Hsp ltac:(lia) ltac:(lia)) as (m' & l' & E & Hs).
    exists m', l'. split; [|split; [done|exists m, 0; split; [done|split; [by left|done]]]]. assert (kalloc m = Ok 0 m) as Ek.
    { unfold kalloc. pose proof (vo_chain _ _ _ (sp_vm _ _ _ _ Hsp)) as Hc. cbn in Hc. erewrite bind_ok by reflexivity. by rewrite Hc. }
    rewrite (bind_ok _ _ _ _ _ Ek). cbn [Z.eqb]. by rewrite (bind_ok _ _ _ _ _ E). }
  destruct (take_page_ok kend m pg p l Hsp) as (m1 & Ek & Hp0 & Ef & Hsp2 & Hsm & Hup & Hna & Hz & Hfr2).
  rewrite (bind_ok _ _ _ _ _ Ek). rewrite (proj2 (Z.eqb_neq _ _) Hp0). rewrite (bind_ok _ _ _ _ _ Ef).
  set (m2 := filled_page _ _ _ _) in *.
  assert (∀ va u, uva va → maps m pg va u → frames m2 !! u = frames m !! u) as Hk2.
  { intros va u Hva Hmu. apply Hfr2. intros ->. destruct (sp_user _ _ _ _ Hsp va p Hva Hmu) as [[? _]%not_elem_of_cons _]. done. }
  destruct (map_one_ok kend m2 pg l p a (Z.lor PTE_W PTE_U) Hsp2 Hup ltac:(by exists (replicate 1024 0)) Hna Hua Hal)
    as (r & m3 & l3 & E & Hsp3 & Hr & Har & Hm3 & Hfr3); [by rewrite (proj2 Hsm)|by vm_compute|].
  rewrite (bind_ok _ _ _ _ _ E).
  assert (∀ va u, uva va → maps m pg va u → frames m3 !! u = frames m !! u) as Hk3.
  { intros va u Hva Hmu. destruct (owned_apart m2 pg l u Hsp2) as (? & ? & ?).
    { exists va. split; [done|]. apply (maps_mapping m m2); [apply Hsm|done]. }
    rewrite Hfr3 by done. by eapply Hk2. }
  assert (∀ u, ¬ arena m pg (p :: l) u → frames m3 !! u = frames m !! u) as Hout3.
  { intros u Hu. rewrite (arena_take m m2) in Hu by done. rewrite Hfr3.
    - apply Hfr2. tauto.
    - intros ->. apply Hu. right. right. by left.
    - intros ?. apply Hu. right. by left.
    - intros vb ?. apply Hu. right. right. right. left. by exists vb. }
  destruct Hr as [->|[-> ->]].
  - left. cbn [Z.ltb Z.compare]. exists m3, l3. split.
    { unfold PGSIZE. unfold uva, KERNBASE in Hua. by rewrite u32_small by lia. }
    split; try done.
    + intros u. rewrite Har, (arena_take m m2) by done. tauto.
    + intros vb Hvb Hr. rewrite Hm3 by done. destruct (decide (0 = 0 ∧ a / 4096 = vb / 4096)) as [[_ D]|D]; [lia|]. apply (proj2 Hsm).
    + intros vb Hvb Hr. exists p. rewrite Hm3 by done. rewrite decide_True by (split; [done|lia]). split; [done|]. split; [apply Hup|].
      rewrite Hfr3; [done| | |]; [intros ->|intros ?|intros vb' ?]; apply Hna; [right; by left|by left|right; right; left; by exists vb'].
    + intros va u Hva Hmu _. by eapply Hk3.
  - right. cbn [Z.ltb Z.compare].
    destruct (deallocuvm_ok m3 pg [] newsz oldsz Hsp3 ltac:(lia) ltac:(lia)) as (m4 & l4 & E4 & H4).
    rewrite (bind_ok _ _ _ _ _ E4).
    assert (∀ u, arena m3 pg [] u ↔ arena m2 pg l u) as Har3.
    { intros u. rewrite Har. split; [by intros [?|[? _]]|by left]. }
    assert (∀ u, arena m4 pg l4 u ↔ arena m2 pg l u) as Har4.
    { intros u. by rewrite (sk_arena _ _ _ _ _ _ _ H4), Har3. }
    assert (frames m4 !! p = Some (replicate 1024 0)) as Hp4.
    { rewrite (sk_outside _ _ _ _ _ _ _ H4) by (by rewrite Har3).
      rewrite Hfr3; [done| | |]; [intros ->|intros ?|intros vb' ?]; apply Hna; [right; by left|by left|right; right; left; by exists vb']. }
    destruct (give_ok kend m4 pg p l4 (sk_space _ _ _ _ _ _ _ H4) Hup) as (m5 & E5 & Hsp5 & Hs5 & Hfr5);
      [by exists (replicate 1024 0)|by rewrite Har4|].
    rewrite (bind_ok _ _ _ _ _ E5). exists m5, (p :: l4). split; [done|].
    assert (∀ vb, 0 ≤ vb < 2 ^ 32 → mapping m5 pg vb = if decide (pages oldsz ≤ vb / 4096 < pages newsz) then None else mapping m pg vb) as Hm5.
    { intros vb Hvb. rewrite (proj2 Hs5), (sk_mapping _ _ _ _ _ _ _ H4) by done.
      destruct (decide (pages oldsz ≤ vb / 4096 < pages newsz)); [done|]. rewrite Hm3 by done.
      destruct (decide (-1 = 0 ∧ a / 4096 = vb / 4096)) as [[? _]|_]; [done|]. apply (proj2 Hsm). }
    assert (exhausted m pg (p :: l) (pages newsz)) as Hex.
    { exists m3, p. split; [done|]. split.
      - intros u. rewrite (arena_take m m2) by done. rewrite Har3. tauto.
      - intros vb Hvb _. rewrite Hm3 by (unfold uva, KERNBASE in Hvb; lia).
        destruct (decide (-1 = 0 ∧ a / 4096 = vb / 4096)) as [[? _]|_]; [done|]. apply (proj2 Hsm). }
    split; [|done]. split; try done.
    + intros u. assert (same_maps m5 m4 pg) as Hs5' by (split; symmetry; apply Hs5).
      rewrite (arena_take m5 m4) by done. rewrite Har4, (arena_take m m2) by done. tauto.
    + intros va u Hva Hmu Hmu'. assert (maps m4 pg va u) as H4u by (eapply maps_mapping; [|exact Hmu']; symmetry; apply Hs5).
      assert (u ≠ p) by (intros ->; apply Hna, Har4; right; right; right; by exists va).
      rewrite Hfr5 by done. rewrite (sk_keeps _ _ _ _ _ _ _ H4 va u Hva); [by eapply Hk3| |done].
      by eapply shrunk_maps.
    + intros u Hu. assert (u ≠ p) by (intros ->; apply Hu; left; left). rewrite Hfr5 by done.
      rewrite (sk_outside _ _ _ _ _ _ _ H4); [by apply Hout3|]. rewrite Har3. rewrite (arena_take m m2) in Hu by done. tauto.
Qed.

Lemma new_maps m pg vb p : kaddr p → mapping m pg vb = Some (page_entry (V2P p) (Z.lor PTE_W PTE_U)) → maps m pg vb p.
Proof. intros Hk Hm. eexists. split; [exact Hm|]. by destruct (page_entry_frame p (Z.lor PTE_W PTE_U) Hk ltac:(by vm_compute)) as [-> _]. Qed.

Lemma user_page vb hi : 0 ≤ vb → vb / 4096 < hi → hi ≤ 524288 → uva vb.
Proof.
  intros. unfold uva, KERNBASE. pose proof (Z.div_mod vb 4096 ltac:(lia)). pose proof (Z.mod_pos_bound vb 4096 ltac:(lia)). lia.
Qed.

Lemma grown_step m pg l lo mid m1 l1 m2 l2 :
  lo ≤ mid < 524288 → grown m pg l lo mid m1 l1 → grown m1 pg l1 mid (mid + 1) m2 l2 →
  (∀ vb, 0 ≤ vb < 2 ^ 32 → lo ≤ vb / 4096 ≤ mid → mapping m pg vb = None) → grown m pg l lo (mid + 1) m2 l2.
Proof.
  intros Hlo H1 H2 Hnone. split.
  - apply H2.
  - intros u. rewrite (gr_arena _ _ _ _ _ _ _ H2). apply H1.
  - intros vb Hvb Hr. rewrite (gr_mapping _ _ _ _ _ _ _ H2), (gr_mapping _ _ _ _ _ _ _ H1) by (done || lia). done.
  - intros vb Hvb Hr. destruct (decide (vb / 4096 = mid)) as [D|D]; [apply (gr_new _ _ _ _ _ _ _ H2); [done|lia]|].
    destruct (gr_new _ _ _ _ _ _ _ H1 vb Hvb ltac:(lia)) as (p & Hp & Hk & Hz). exists p.
    assert (mapping m2 pg vb = mapping m1 pg vb) as Em by (apply (gr_mapping _ _ _ _ _ _ _ H2); [done|lia]).
    rewrite Em. split; [done|]. split; [done|]. rewrite (gr_keeps _ _ _ _ _ _ _ H2 vb p); [done|eapply user_page; [lia|apply Hr|lia]| |];
      apply new_maps; by rewrite ?Em.
  - intros va u Hva Hmu Hmu'. assert (0 ≤ va < 2 ^ 32) by (unfold uva, KERNBASE in Hva; lia).
    destruct (decide (lo ≤ va / 4096 ≤ mid)) as [D|D].
    { destruct Hmu as (e & He & _). rewrite Hnone in He by done. done. }
    assert (maps m1 pg va u) as Hmu1 by (eapply maps_mapping; [|exact Hmu]; apply (gr_mapping _ _ _ _ _ _ _ H1); [done|lia]).
    rewrite (gr_keeps _ _ _ _ _ _ _ H2 va u) by done. by apply (gr_keeps _ _ _ _ _ _ _ H1 va u).
  - intros u Hu. rewrite (gr_outside _ _ _ _ _ _ _ H2); [by apply H1|]. by rewrite (gr_arena _ _ _ _ _ _ _ H1).
Qed.

(** What was added and taken away again leaves no trace in the mappings. *)
Lemma grown_shrunk m pg l lo mid hi m1 l1 m2 l2 :
  lo ≤ mid ≤ hi → grown m pg l lo mid m1 l1 → shrunk m1 pg l1 lo hi m2 l2 →
  (∀ vb, 0 ≤ vb < 2 ^ 32 → lo ≤ vb / 4096 < hi → mapping m pg vb = None) → shrunk m pg l lo lo m2 l2.
Proof.
  intros Hlo H1 H2 Hnone. split.
  - apply H2.
  - intros u. rewrite (sk_arena _ _ _ _ _ _ _ H2). apply H1.
  - intros vb Hvb. rewrite (sk_mapping _ _ _ _ _ _ _ H2) by done. rewrite (decide_False (P := lo ≤ vb / 4096 < lo)) by lia.
    case_decide; [by rewrite Hnone|]. apply (gr_mapping _ _ _ _ _ _ _ H1); [done|lia].
  - intros va u Hva Hmu Hmu'. assert (0 ≤ va < 2 ^ 32) by (unfold uva, KERNBASE in Hva; lia).
    destruct (decide (lo ≤ va / 4096 < hi)) as [D|D].
    { destruct Hmu as (e & He & _). rewrite Hnone in He by done. done. }
    assert (maps m1 pg va u) as Hmu1 by (eapply maps_mapping; [|exact Hmu]; apply (gr_mapping _ _ _ _ _ _ _ H1); [done|lia]).
    rewrite (sk_keeps _ _ _ _ _ _ _ H2 va u) by done. by apply (gr_keeps _ _ _ _ _ _ _ H1 va u).
  - intros u Hu. rewrite (sk_outside _ _ _ _ _ _ _ H2); [by apply H1|]. by rewrite (gr_arena _ _ _ _ _ _ _ H1).
Qed.

(** [allocuvm] adds the pages up to [newsz], or changes nothing for lack of
    memory. *)
Lemma allocuvm_ok m pg l oldsz newsz :
  space kend m pg l → 0 ≤ oldsz ≤ newsz → newsz < KERNBASE →
  (∀ vb, 0 ≤ vb < 2 ^ 32 → pages oldsz ≤ vb / 4096 < pages newsz → mapping m pg vb = None) →
  (∃ m' l', allocuvm kend pg oldsz newsz m = Ok newsz m' ∧ grown m pg l (pages oldsz) (pages newsz) m' l') ∨
  (∃ m' l', allocuvm kend pg oldsz newsz m = Ok 0 m' ∧ shrunk m pg l (pages oldsz) (pages oldsz) m' l' ∧ exhausted m pg l (pages newsz)).
Proof.
  intros Hsp Hsz Hk Hnone. unfold allocuvm. rewrite (proj2 (Z.leb_gt KERNBASE newsz)), (proj2 (Z.ltb_ge newsz oldsz)) by lia.
  unfold KERNBASE in Hk. rewrite PGROUNDUP_pages by lia. pose proof (pages_mono oldsz newsz ltac:(lia)) as Hmono.
  assert (pages newsz ≤ 524288) as Hpo by (unfold pages; apply (Z.div_le_mono _ (524288 * 4096 + 4095)); lia).
  assert (0 ≤ pages oldsz) by (apply Z.div_pos; lia).
  match goal with |- (∃ m' l', loop ?f ?b ?a m = _ ∧ _) ∨ _ =>
    enough (wp (loop f b a) (λ r m', (r = newsz ∧ ∃ l', grown m pg l (pages oldsz) (pages newsz) m' l') ∨
                                     (r = 0 ∧ ∃ l', shrunk m pg l (pages oldsz) (pages oldsz) m' l' ∧ exhausted m pg l (pages newsz))) m) as Hwp;
      [apply wp_ok in Hwp as (r & m' & E & [(-> & l' & H')|(-> & l' & H')]); [left|right]; by exists m', l'|] end.
  eapply (wp_loop _ (λ a m', 0 ≤ a ∧ a mod 4096 = 0 ∧ pages oldsz ≤ a / 4096 ≤ pages newsz ∧ ∃ l', grown m pg l (pages oldsz) (a / 4096) m' l')
                    (λ a, Z.to_nat (pages newsz - a / 4096))).
  - rewrite Z.div_mul by lia. split; [lia|]. split; [by apply Z.mod_mul|]. split; [lia|]. exists l. by apply grown_refl.
  - rewrite Z.div_mul by lia. unfold pages, PGSIZE. pose proof (Z.div_mod (oldsz + 4095) 4096 ltac:(lia)).
    pose proof (Z.div_mod (newsz + 4095) 4096 ltac:(lia)). pose proof (Z.mod_pos_bound (newsz + 4095) 4096 ltac:(lia)).
    pose proof (Z.mod_pos_bound (oldsz + 4095) 4096 ltac:(lia)). pose proof (Z.div_mod (newsz - oldsz) 4096 ltac:(lia)).
    pose proof (Z.mod_pos_bound (newsz - oldsz) 4096 ltac:(lia)). lia.
  - intros a m1 (Ha & Hal & Hlo & l1 & H1). pose proof (pages_lt a newsz ltac:(lia) Hal) as Hlt. pose proof (page_start a Ha Hal) as Hst.
    destruct (decide (a < newsz)) as [Han|Han].
    + assert (mapping m1 pg a = None) as Hna.
      { rewrite (gr_mapping _ _ _ _ _ _ _ H1) by lia. apply Hnone; lia. }
      assert (∀ vb, 0 ≤ vb < 2 ^ 32 → a / 4096 ≤ vb / 4096 < pages newsz → mapping m1 pg vb = None) as Hna'.
      { intros vb Hvb Hr. rewrite (gr_mapping _ _ _ _ _ _ _ H1) by lia. apply Hnone; lia. }
      destruct (decide (oldsz < newsz)) as [Hlt2|]; [|exfalso; assert (oldsz = newsz) as -> by lia; lia].
      destruct (alloc_page_ok m1 pg l1 a newsz oldsz (gr_space _ _ _ _ _ _ _ H1)) as [(m2 & l2 & E & H2)|(m2 & l2 & E & H2 & Hex)];
        try done; try (unfold uva, KERNBASE; lia); unfold wp; rewrite E.
      * replace (a + 4096) with (a + 1 * 4096) by lia. rewrite Z.mod_add, Z.div_add by lia. split; [|lia]. split; [lia|]. split; [done|].
        split; [lia|]. exists l2. apply (grown_step _ _ _ _ (a / 4096) m1 l1); try done; [lia|]. intros vb Hvb Hr. apply Hnone; lia.
      * right. split; [done|]. exists l2. split; [by apply (grown_shrunk _ _ _ _ (a / 4096) (pages newsz) m1 l1); [lia|..]|].
        apply (exhausted_mono m pg l m1 l1 (pages newsz)); [intros u; apply H1| |lia|done].
        intros vb Hvb Hge. apply (gr_mapping _ _ _ _ _ _ _ H1); [unfold uva, KERNBASE in Hvb; lia|lia].
    + unfold alloc_page. rewrite (proj2 (Z.ltb_ge a newsz)) by lia. unfold wp, ret. cbn [negb]. left. split; [done|].
      exists l1. by replace (pages newsz) with (a / 4096) by lia.
Qed.

(** ** Giving everything back *)

(** A list of free pages. *)
Record free_list (m : phys) (l : list Z) : Prop := {
  fl_chain : chain (frames m) (freelist m) l;
  fl_nodup : NoDup l;
  fl_usable : ∀ u, u ∈ l → usable kend u
}.

Lemma space_free_list m pg l : space kend m pg l → free_list m l.
Proof. intros [[] Hp _ _]. split; [done..|]. intros u Hu. apply Hp. by left. Qed.

Lemma free_list_cons m l v : free_list m l → usable kend v → v ∉ l → page m v →
  ∃ m', kfree kend v m = Ok tt m' ∧ free_list m' (v :: l) ∧ (∀ u, u ≠ v → frames m' !! u = frames m !! u).
Proof.
  intros [Hc Hnd Hu] Hv Hni (ws & Hws & Hl). eexists. split; [eapply kfree_ok; [apply Hv|done..]|].
  split; [|intros u Hne; cbn; by rewrite lookup_insert_ne]. split.
  - destruct Hv as [(? & ? & ? & ?) _]. split_and!; try done. exists (freelist m), (replicate 1023 0x01010101).
    split_and!; [apply lookup_insert_eq|by rewrite length_replicate|by apply chain_insert].
  - by constructor.
  - intros u [->|?]%elem_of_cons; auto.
Qed.

Lemma PDX_shift j : 0 ≤ j < 1024 → PDX (j * 2 ^ 22) = j.
Proof.
  intros Hj. unfold PDX. rewrite Z.shiftr_div_pow2, Z.div_mul by lia. change 0x3FF with (Z.ones 10).
  rewrite Z.land_ones, Z.mod_small by (change (2 ^ 10) with 1024; lia). done.
Qed.

(** The tables of the first [i] entries of the directory. *)
Definition table_below (m : phys) (pg i u : Z) : Prop :=
  ∃ j e, 0 ≤ j < i ∧ pde m pg j = Some e ∧ has e PTE_P = true ∧ u = P2V (PTE_ADDR e).

Lemma table_below_all m pg u : table_below m pg 1024 u ↔ ∃ va, table m pg va u.
Proof.
  split.
  - intros (j & e & Hj & He & Hp & ->). exists (j * 2 ^ 22), e. by rewrite PDX_shift.
  - intros (va & e & He & Hp & ->). exists (PDX va), e. pose proof (index_range va). split; [lia|done].
Qed.

(** The loop of [freevm] over the directory. *)
Lemma free_tables_ok m pg l :
  space kend m pg l →
  ∃ m' l', for_range 0 NPDENTRIES (λ i,
      let! e := ld_word (pg + 4 * i) in
      do! (if has e PTE_P then kfree kend (P2V (PTE_ADDR e)) else ret tt) in
      ret (@None unit)) m = Ok None m' ∧
    free_list m' l' ∧ (∀ u, u ∈ l' ↔ u ∈ l ∨ ∃ va, table m pg va u) ∧ (∀ u, u ∉ l' → frames m' !! u = frames m !! u).
Proof.
  intros Hsp. pose proof Hsp as [Hv Hp _ _]. destruct (vo_dir _ _ _ Hv) as (Hpa & Hpl & dir & Hdir & Hdl).
  match goal with |- ∃ m' l', for_range ?a ?b ?f m = _ ∧ _ =>
    enough (wp (for_range a b f) (λ r m', r = None ∧ ∃ l', free_list m' l' ∧
      (∀ u, u ∈ l' ↔ u ∈ l ∨ table_below m pg 1024 u) ∧ (∀ u, u ∉ l' → frames m' !! u = frames m !! u)) m) as Hwp end.
  { apply wp_ok in Hwp as (r & m' & E & -> & l' & Hl' & Hi & Hf). exists m', l'. split; [done|]. split; [done|]. split; [|done].
    intros u. by rewrite Hi, table_below_all. }
  eapply (wp_for_range _ (λ i m', ∃ l', free_list m' l' ∧
      (∀ u, u ∈ l' ↔ u ∈ l ∨ table_below m pg i u) ∧ (∀ u, u ∉ l' → frames m' !! u = frames m !! u))); [done| | |by intros m' ?].
  - exists l. split; [by eapply space_free_list|]. split; [|done]. intros u. split; [by left|]. intros [?|(j & ? & ? & _)]; [done|lia].
  - intros i m1 Hi (l1 & Hl1 & Hin & Hfr). unfold NPDENTRIES in Hi.
    assert (pg ∉ l1) as Hpg1.
    { rewrite Hin. intros [?|(j & e & Hj & He & Hpe & E)]; [done|]. destruct (vo_tab _ _ _ Hv j e ltac:(lia) He Hpe) as (_ & ? & _). congruence. }
    destruct (lookup_lt_is_Some_2 dir (Z.to_nat i)) as [e He]; [lia|].
    assert (pde m pg i = Some e) as Hpe by (unfold pde; by rewrite Hdir).
    apply wp_bind. unfold wp at 1. rewrite (ld_word_ok m1 pg i dir e Hpa ltac:(lia)) by (rewrite ?Hfr; done).
    assert (∀ u, table_below m pg (i + 1) u ↔ table_below m pg i u ∨ has e PTE_P = true ∧ u = P2V (PTE_ADDR e)) as Htb.
    { intros u. split.
      - intros (j & e' & Hj & He' & Hpr & ->). destruct (decide (j = i)) as [->|]; [right; by simplify_eq|left; exists j, e'; split; [lia|done]].
      - intros [(j & e' & Hj & H')|[? ->]]; [exists j, e'; split; [lia|done]|exists i, e; split; [lia|done]]. }
    destruct (has e PTE_P) eqn:Hpr.
    + set (t := P2V (PTE_ADDR e)) in *. destruct (vo_tab _ _ _ Hv i e ltac:(lia) Hpe Hpr) as (_ & _ & Htl & Htp).
      assert (t ∉ l1) as Ht1.
      { rewrite Hin. intros [?|(j & e' & Hj & He' & Hpr' & E)]; [done|].
        pose proof (vo_inj _ _ _ Hv i j e e' ltac:(lia) ltac:(lia) Hpe He' Hpr Hpr' E). lia. }
      assert (table m pg (i * 2 ^ 22) t) as Htt by (exists e; by rewrite PDX_shift by lia).
      destruct (free_list_cons m1 l1 t Hl1) as (m2 & E2 & Hl2 & Hfr2); [apply Hp; right; right; left; by exists (i * 2 ^ 22)|done| |].
      { unfold page. by rewrite Hfr. }
      unfold wp. rewrite (bind_ok _ _ _ _ _ E2). unfold ret. exists (t :: l1). split; [done|]. split.
      * intros u. rewrite elem_of_cons, Hin, Htb. split; [intros [->|[?|?]]|intros [?|[?|[_ ->]]]]; auto.
      * intros u [? ?]%not_elem_of_cons. rewrite Hfr2 by done. by apply Hfr.
    + unfold wp. rewrite bind_ret_l. unfold ret. exists l1. split; [done|]. split; [|done]. intros u. rewrite Hin, Htb.
      split; [tauto|]. intros [?|[?|[? _]]]; [by left|by right|done].
Qed.

(** [freevm] gives back the directory, its tables and the user pages: every page of
    the arena is on the free list, once. *)
Lemma freevm_ok m pg l :
  space kend m pg l →
  ∃ m' l', freevm kend pg m = Ok tt m' ∧ free_list m' l' ∧ (∀ u, u ∈ l' ↔ arena m pg l u) ∧ same_outside m m' (arena m pg l).
Proof.
  intros Hsp. assert (usable kend pg) as Hpgu by (apply (sp_page _ _ _ _ Hsp); right; by left).
  unfold freevm. rewrite (proj2 (Z.eqb_neq pg 0)) by apply Hpgu.
  destruct (deallocuvm_ok m pg l KERNBASE 0 Hsp) as (m1 & l1 & E1 & H1); [unfold KERNBASE; lia|lia|].
  rewrite (bind_ok _ _ _ _ _ E1). pose proof (sk_space _ _ _ _ _ _ _ H1) as Hsp1.
  destruct (free_tables_ok m1 pg l1 Hsp1) as (m2 & l2 & E2 & Hl2 & Hin2 & Hfr2). rewrite (bind_ok _ _ _ _ _ E2).
  assert (pg ∉ l2) as Hpg2.
  { rewrite Hin2. destruct (vo_dir _ _ _ (sp_vm _ _ _ _ Hsp1)) as (_ & ? & _). intros [?|[va Ht]]; [done|].
    destruct (table_page m1 pg l1 (sp_vm _ _ _ _ Hsp1) va pg Ht) as (_ & ? & _). done. }
  destruct (free_list_cons m2 l2 pg Hl2 Hpgu Hpg2) as (m3 & E3 & Hl3 & Hfr3).
  { unfold page. rewrite Hfr2 by done. apply (vo_dir _ _ _ (sp_vm _ _ _ _ Hsp1)). }
  assert (∀ u, u ∈ pg :: l2 ↔ arena m pg l u) as Hin3.
  { intros u. rewrite <- (sk_arena _ _ _ _ _ _ _ H1), elem_of_cons, Hin2. unfold arena, owns. split; [tauto|].
    intros [?|[?|[?|(va & Hva & (e & He & _))]]]; [tauto..|]. exfalso.
    rewrite (sk_mapping _ _ _ _ _ _ _ H1) in He by (unfold uva, KERNBASE in Hva; lia). rewrite decide_True in He; [done|].
    change (pages 0) with 0. change (pages KERNBASE) with 524288. unfold uva, KERNBASE in Hva.
    split; [apply Z.div_pos; lia|apply Z.div_lt_upper_bound; lia]. }
  exists m3, (pg :: l2). split; [done|]. split; [done|]. split; [done|].
  intros u Hu. rewrite <- Hin3 in Hu. apply not_elem_of_cons in Hu as Hu'. destruct Hu' as [Hu1 Hu2].
  rewrite Hfr3, Hfr2 by done. apply (sk_outside _ _ _ _ _ _ _ H1). by rewrite <- Hin3.
Qed.

(** ** Counting *)

(** An address space of at most [n] user pages without free pages has at most
    [1025 + n] pages in all: it takes more to satisfy a request. *)
Lemma arena_bound m pg n L :
  space kend m pg [] → 0 ≤ n ≤ 524288 → (∀ vb, uva vb → n ≤ vb / 4096 → mapping m pg vb = None) →
  NoDup L → (∀ u, u ∈ L → arena m pg [] u) → Z.of_nat (length L) ≤ 1025 + n.
Proof.
  intros Hsp Hn Hnone Hnd HL.
  set (tab := (λ i, P2V (PTE_ADDR (default 0 (pde m pg (Z.of_nat i))))) <$> seq 0 1024).
  set (usr := (λ i, P2V (PTE_ADDR (default 0 (mapping m pg (Z.of_nat i * 4096))))) <$> seq 0 (Z.to_nat n)).
  assert (L ⊆+ pg :: tab ++ usr) as Hsub.
  { apply NoDup_submseteq; [done|]. intros u Hu. apply HL in Hu as [Hu|[->|[[va Ht]|(va & Hva & e & He & ->)]]].
    - by apply not_elem_of_nil in Hu.
    - left.
    - right. apply elem_of_app. left. destruct Ht as (e & He & _ & ->). pose proof (index_range va). apply list_elem_of_fmap.
      exists (Z.to_nat (PDX va)). rewrite Z2Nat.id, He by lia. split; [done|]. apply elem_of_seq. lia.
    - right. apply elem_of_app. right. apply list_elem_of_fmap. exists (Z.to_nat (va / 4096)).
      assert (va / 4096 < n) by (destruct (decide (n ≤ va / 4096)); [|lia]; by rewrite Hnone in He).
      assert (0 ≤ va / 4096) by (apply Z.div_pos; unfold uva in Hva; lia).
      rewrite Z2Nat.id by done.
      pose proof (Z.div_mod va 4096 ltac:(lia)). pose proof (Z.mod_pos_bound va 4096 ltac:(lia)).
      rewrite (mapping_same_page m pg (va / 4096 * 4096) va), He by (rewrite ?Z.div_mul; unfold uva, KERNBASE in Hva; lia).
      split; [done|]. apply elem_of_seq. unfold uva in Hva. lia. }
  apply submseteq_length in Hsub. unfold tab, usr in Hsub. cbn [length] in Hsub. rewrite length_app, !length_fmap, !length_seq in Hsub. lia.
Qed.

Lemma exhausted_bound m pg l n L :
  exhausted m pg l n → 0 ≤ n ≤ 524288 → (∀ vb, uva vb → n ≤ vb / 4096 → mapping m pg vb = None) →
  NoDup L → (∀ u, u ∈ L → arena m pg l u) → Z.of_nat (length L) ≤ 1026 + n.
Proof.
  intros (m1 & p & Hsp & Har & Hm) Hn Hnone Hnd HL.
  assert (Z.of_nat (length (filter (λ u, u ≠ p) L)) ≤ 1025 + n) as Hb.
  { apply (arena_bound m1 pg n _ Hsp Hn); [intros; rewrite Hm; auto|by apply NoDup_filter|].
    intros u [Hu Hin]%list_elem_of_filter. destruct (Har u (HL u Hin)); done. }
  assert (length L ≤ S (length (filter (λ u, u ≠ p) L)))%nat; [|lia]. clear -Hnd.
  induction Hnd as [|x L Hx Hnd IH]; [cbn; lia|]. rewrite filter_cons. destruct (decide (x ≠ p)) as [Hne|He]; cbn [length]; [lia|].
  assert (x = p) as -> by (destruct (decide (x = p)); tauto). clear IH. assert (filter (λ u, u ≠ p) L = L) as ->; [|lia].
  induction L as [|y L IH]; [done|]. apply not_elem_of_cons in Hx as [? ?]. apply NoDup_cons in Hnd as [_ ?]. rewrite filter_cons, decide_True by done. f_equal. auto.
Qed.

End User.
End VmUser.

(** VmKernel: [setupkvm] (p4/xv6-public/vm.c): a new directory with the mappings of
    the kernel, or, without memory, nothing. *)
Module VmKernel.
Import Kalloc Vm VmMap VmSpace VmUser.

(** Nothing is mapped below [KERNBASE] and from [va] on. *)
Definition empty_from (m : phys) (pg va : Z) : Prop :=
  ∀ vb, 0 ≤ vb < 2 ^ 32 → uva vb ∨ va / 4096 ≤ vb / 4096 → mapping m pg vb = None.

(** The entries of [kmap]: aligned ranges in increasing order. *)
Fixpoint kmap_ok (lo : Z) (ks : list (Z * Z * Z * Z)) : Prop :=
  match ks with
  | [] => True
  | (virt, phys_start, phys_end, perm) :: ks =>
      virt mod 4096 = 0 ∧ lo ≤ virt ∧ 0 ≤ phys_start < 2 ^ 32 ∧
      ∃ n, 0 < n ∧ u32 (phys_end - phys_start) = n * 4096 ∧ virt + n * 4096 ≤ 2 ^ 32 ∧ kmap_ok (virt + n * 4096) ks
  end.

Section Kernel.
Context (kend kdata : Z) (Hkend : KERNBASE < kend).

Lemma map_region_ok m pg l va n pa perm :
  space kend m pg l → KERNBASE ≤ va → va mod 4096 = 0 → 0 < n → va + n * 4096 ≤ 2 ^ 32 → 0 ≤ pa < 2 ^ 32 → empty_from m pg va →
  ∃ r m' l', mappages pg va (n * 4096) pa perm m = Ok r m' ∧ space kend m' pg l' ∧ (r = 0 ∨ r = -1 ∧ l' = []) ∧
    (∀ vb, uva vb → mapping m' pg vb = mapping m pg vb) ∧
    (∀ u, arena m' pg l' u ↔ arena m pg l u) ∧ same_outside m m' (arena m pg l) ∧
    (r = 0 → empty_from m' pg (va + n * 4096)).
Proof.
  intros Hsp Hk Hal Hn Hlim Hpa Hem. unfold KERNBASE in Hk.
  assert (∀ vb, 0 ≤ vb < 2 ^ 32 → va / 4096 ≤ vb / 4096 < va / 4096 + n → mapping m pg vb = None) as Hnone.
  { intros vb Hvb Hrg. apply Hem; [done|right; lia]. }
  destruct (mappages_ok m pg l va n pa perm (sp_vm _ _ _ _ Hsp) Hal ltac:(lia) Hn Hlim Hpa Hnone)
    as (r & m' & l' & k & E & Hv' & Hs & (Hk' & Hr & Hm) & Hfr & Ht).
  assert (∀ vb, uva vb → mapping m' pg vb = mapping m pg vb) as Hu.
  { intros vb Hvb. unfold uva, KERNBASE in Hvb. rewrite Hm by lia. rewrite decide_False; [done|]. intros [H _].
    assert (vb / 4096 < 524288) by (apply Z.div_lt_upper_bound; lia). assert (524288 ≤ va / 4096) by (apply Z.div_le_lower_bound; lia). lia. }
  destruct (grown_space kend m m' pg l l' 0 0 0 false Hsp ltac:(done) Hv' Hs Ht Hfr) as [Hsp' Har].
  { intros vb Hvb. rewrite decide_False by (by intros [? _]). by apply Hu. }
  exists r, m', l'. split; [done|]. split; [done|]. split; [intuition lia|]. split; [done|]. split.
  { intros u. rewrite Har. split; [by intros [?|[? _]]|by left]. }
  split.
  { intros u Hua. apply Hfr; [intros ->; apply Hua; right; by left|intros ?; apply Hua; by left|].
    intros vb ?. apply Hua. right. right. left. by exists vb. }
  intros -> vb Hvb [Hvu|Hge]; [rewrite Hu by done; apply Hem; [done|by left]|].
  rewrite Z.div_add in Hge by lia. rewrite Hm by done. rewrite decide_False by lia. apply Hem; [done|right; lia].
Qed.

Lemma map_kernel_ok ks : ∀ m pg l lo,
  space kend m pg l → KERNBASE ≤ lo → empty_from m pg lo → kmap_ok lo ks →
  (∃ m' l', map_kernel kend pg ks m = Ok pg m' ∧ space kend m' pg l' ∧ (∀ u, arena m' pg l' u ↔ arena m pg l u) ∧
     same_outside m m' (arena m pg l) ∧ (∀ vb, uva vb → mapping m' pg vb = None)) ∨
  (∃ m' l', map_kernel kend pg ks m = Ok 0 m' ∧ free_list kend m' l' ∧ (∀ u, u ∈ l' ↔ arena m pg l u) ∧ same_outside m m' (arena m pg l) ∧
     exhausted kend m pg l 0).
Proof.
  induction ks as [|[[[virt ps] pe] perm] ks IH]; intros m pg l lo Hsp Hlo Hem Hks; cbn [map_kernel].
  - left. exists m, l. split_and!; try done. intros vb Hvb. apply Hem; [unfold uva, KERNBASE in Hvb; lia|by left].
  - destruct Hks as (Hal & Hv & Hps & n & Hn & -> & Hlim & Hks).
    destruct (map_region_ok m pg l virt n ps perm Hsp ltac:(lia) Hal Hn Hlim Hps) as (r & m1 & l1 & E & Hsp1 & Hr & Hm1 & Har & Hout & Hem1).
    { intros vb Hvb [?|?]; apply Hem; [done|by left|done|right]. pose proof (Z.div_le_mono lo virt 4096). lia. }
    destruct Hr as [->|[-> ->]].
    + destruct (IH m1 pg l1 (virt + n * 4096) Hsp1 ltac:(lia) (Hem1 eq_refl) Hks) as [(m' & l' & E' & ? & Har' & Hout' & ?)|(m' & l' & E' & ? & Har' & Hout' & Hex)];
        [left|right]; exists m', l'; rewrite (bind_ok _ _ _ _ _ E); cbn [Z.ltb Z.compare].
      * split; [done|]. split; [done|]. split; [intros u; by rewrite Har'|]. split; [|done].
        intros u Hu. rewrite Hout'; [by apply Hout|by rewrite Har].
      * split; [done|]. split; [done|]. split; [intros u; by rewrite Har'|]. split; [intros u Hu; rewrite Hout'; [by apply Hout|by rewrite Har]|].
        apply (exhausted_mono kend m pg l m1 l1 0); [intros u; apply Har|intros vb Hvb _; by apply Hm1|lia|done].
    + right. destruct (freevm_ok kend Hkend m1 pg [] Hsp1) as (m' & l' & E' & ? & Hin & Hout'). exists m', l'.
      rewrite (bind_ok _ _ _ _ _ E). cbn [Z.ltb Z.compare]. rewrite (bind_ok _ _ _ _ _ E').
      split; [done|]. split; [done|]. split; [intros u; by rewrite Hin|]. split; [intros u Hu; rewrite Hout'; [by apply Hout|by rewrite Har]|].
      exists m1, 0. split; [done|]. split; [intros u Hu; left; by apply Har|]. intros vb Hvb _. by apply Hm1.
Qed.

(** A page of zeros is an empty directory. *)
Lemma new_dir_ok m p l :
  free_list kend m (p :: l) →
  ∃ m1, kalloc m = Ok p m1 ∧ fill_page p 0 m1 = Ok tt (filled_page m p (freelist m1) (replicate 1024 0)) ∧
  let m2 := filled_page m p (freelist m1) (replicate 1024 0) in
  space kend m2 p l ∧ (∀ u, arena m2 p l u ↔ u ∈ p :: l) ∧ empty_from m2 p KERNBASE ∧ (∀ u, u ≠ p → frames m2 !! u = frames m !! u).
Proof.
  intros [Hc Hnd Hu]. destruct (kalloc_ok m p l Hc) as (m1 & Ek & Hfr & Hch). exists m1. split; [done|].
  pose proof Hc as (_ & _ & Hal & nx & ws & Hws & Hl & _). apply NoDup_cons in Hnd as [Hni Hnd].
  split; [unfold fill_page; rewrite Hfr, Hws; cbn [length]; by rewrite Hl|]. cbv zeta. set (m2 := filled_page _ _ _ _).
  assert (∀ i e, pde m2 p i = Some e → e = 0) as Hz.
  { intros i e. unfold pde, m2, filled_page. cbn [frames]. rewrite lookup_insert_eq. cbn [mbind option_bind].
    intros He. by apply lookup_replicate in He as [-> _]. }
  assert (∀ va u, ¬ table m2 p va u) as Hnt by (intros va u (e & He & Hp & _); by rewrite (Hz _ _ He), has_0 in Hp).
  assert (∀ va, mapping m2 p va = None) as Hm.
  { intros va. destruct (mapping m2 p va) as [e|] eqn:E; [|done]. exfalso.
    destruct (maps_present m2 p va _ ltac:(by exists e)) as (t & x & Ht & _). by eapply Hnt. }
  assert (∀ u, arena m2 p l u ↔ u ∈ p :: l) as Har.
  { intros u. rewrite elem_of_cons. split; [|intros [->|?]; [right; by left|by left]].
    intros [?|[?|[[va ?]|(va & _ & (e & He & _))]]]; [by right|by left|by destruct (Hnt va u)|by rewrite Hm in He]. }
  assert (chain (frames m2) (freelist m2) l) as Hc2.
  { unfold m2, filled_page. cbn [frames freelist]. rewrite <- Hfr. by apply chain_insert. }
  assert (∃ ws', frames m2 !! p = Some ws' ∧ length ws' = 1024%nat) as Hpp.
  { exists (replicate 1024 0). split; [apply lookup_insert_eq|by rewrite length_replicate]. }
  split; [|split; [done|split; [by intros vb _ _|intros u Hne; unfold m2, filled_page; cbn; by rewrite lookup_insert_ne]]].
  split.
  - split; [done|done|intros a Ha; apply Hu; by right|done| |]; intros i.
    + intros e _ He. by rewrite (Hz _ _ He), has_0.
    + intros j e f _ _ He _. by rewrite (Hz _ _ He), has_0.
  - intros u Hua. apply Har in Hua. split; [by apply Hu|]. apply elem_of_cons in Hua as [->|Hua]; [done|].
    by eapply chain_page.
  - intros va u _ (e & He & _). by rewrite Hm in He.
  - intros va vb u _ _ (e & He & _). by rewrite Hm in He.
Qed.

(** [data]: the linker script aligns it to a page and puts it behind the text. *)
Context (Hkdata : kdata mod 4096 = 0 ∧ KERNLINK < kdata < KERNBASE + PHYSTOP).

Lemma kmap_is_ok : kmap_ok KERNBASE (kmap kdata).
Proof.
  destruct Hkdata as [Hal Hr]. unfold KERNLINK, KERNBASE, EXTMEM, PHYSTOP in Hr.
  pose proof (Z.div_mod kdata 4096 ltac:(lia)) as Hdm. rewrite Hal in Hdm.
  assert (V2P kdata = kdata - 2147483648) as Hv by (unfold V2P, KERNBASE; rewrite u32_small; lia).
  assert (V2P KERNLINK = 1048576) as Hv' by done. unfold kmap. cbn [kmap_ok]. rewrite Hv, Hv'.
  unfold KERNBASE, KERNLINK, EXTMEM, PHYSTOP, DEVSPACE. unfold KERNBASE.
  split; [done|]. split; [lia|]. split; [lia|]. exists 256. split; [lia|]. split; [done|]. split; [lia|].
  split; [done|]. split; [lia|]. split; [lia|]. exists (kdata / 4096 - 524544). split; [lia|]. split; [rewrite u32_small; lia|]. split; [lia|].
  split; [done|]. split; [lia|]. split; [lia|]. exists (581632 - kdata / 4096). split; [lia|]. split; [rewrite u32_small; lia|]. split; [lia|].
  split; [done|]. split; [lia|]. split; [lia|]. exists 8192. split; [lia|]. split; [done|]. split; [lia|done].
Qed.

(** [setupkvm] makes an address space without user pages from free pages, or gives
    back what it took. *)
Lemma setupkvm_ok m l :
  free_list kend m l →
  (∃ pg m' l', setupkvm kend kdata m = Ok pg m' ∧ pg ≠ 0 ∧ space kend m' pg l' ∧ (∀ u, arena m' pg l' u ↔ u ∈ l) ∧
     same_outside m m' (λ u, u ∈ l) ∧ (∀ vb, uva vb → mapping m' pg vb = None)) ∨
  (∃ m' l', setupkvm kend kdata m = Ok 0 m' ∧ free_list kend m' l' ∧ (∀ u, u ∈ l' ↔ u ∈ l) ∧ same_outside m m' (λ u, u ∈ l) ∧
     Z.of_nat (length l) ≤ 1026).
Proof.
  intros Hl. unfold setupkvm. destruct l as [|p l].
  { right. exists m, []. split; [|by split]. unfold kalloc. pose proof (fl_chain _ _ _ Hl) as Hc. cbn in Hc.
    rewrite bind_assoc. erewrite bind_ok by reflexivity. by rewrite Hc. }
  destruct (new_dir_ok m p l Hl) as (m1 & Ek & Ef & Hsp & Har & Hem & Hfr). set (m2 := filled_page _ _ _ _) in *.
  assert (p ≠ 0) as Hp0 by (apply (fl_usable _ _ _ Hl); left).
  rewrite (bind_ok _ _ _ _ _ Ek), (proj2 (Z.eqb_neq _ _) Hp0), (bind_ok _ _ _ _ _ Ef).
  change (DEVSPACE <? P2V PHYSTOP) with false. cbn match.
  assert (∀ m', same_outside m2 m' (arena m2 p l) → same_outside m m' (λ u, u ∈ p :: l)) as Hout.
  { intros m' H u Hu. rewrite H by by rewrite Har. apply Hfr. intros ->. apply Hu. left. }
  destruct (map_kernel_ok (kmap kdata) m2 p l KERNBASE Hsp ltac:(done) Hem kmap_is_ok) as [(m' & l' & E & Hsp' & Har' & Ho & Hn)|(m' & l' & E & Hl' & Hin & Ho & Hex)].
  - left. exists p, m', l'. split; [done|]. split; [done|]. split; [done|]. split; [intros u; by rewrite Har', Har|]. split; [by apply Hout|done].
  - right. exists m', l'. split; [done|]. split; [done|]. split; [intros u; by rewrite Hin, Har|]. split; [by apply Hout|].
    apply (exhausted_bound kend m2 p l 0 (p :: l) Hex ltac:(lia)).
    + intros vb Hvb _. apply Hem; [unfold uva, KERNBASE in Hvb; lia|by left].
    + apply Hl.
    + intros u Hu. by apply Har.
Qed.

End Kernel.
End VmKernel.
