(* ===== verification/VmBytes.v ===== *)
(** VmBytes: the bytes of a process as its page directory shows them, and what
    [copy_in], [clearpteu], [copyout] (p4/xv6-public/vm.c) do to them. *)
From S2P Require Import Prelude Kalloc Vm VmMap VmSpace VmUser.
From stdpp Require Import gmap.
Local Open Scope Z_scope.

Module VmBytes.
Import Kalloc Vm VmMap VmSpace VmUser.
Ltac Zify.zify_post_hook ::= Z.to_euclidean_division_equations.

(** * Bytes of a page *)

Definition frame_byte (ws : list Z) (i : Z) : Z := byte_in (nth (Z.to_nat (i / 4)) ws 0) (i mod 4).

Lemma byte_range x : 0 ≤ Z.land x 0xFF < 256.
Proof. change 0xFF with (Z.ones 8). rewrite Z.land_ones by lia. apply (Z.mod_pos_bound x 256). lia. Qed.

Lemma byte_with_byte w k b j : 0 ≤ k < 4 → 0 ≤ j < 4 →
  byte_in (with_byte w k b) j = if decide (j = k) then Z.land b 0xFF else byte_in w j.
Proof.
  intros Hk Hj. unfold byte_in, with_byte. apply Z.bits_inj'. intros i Hi.
  assert (∀ x, Z.testbit (Z.land x 0xFF) i = if decide (i < 8) then Z.testbit x i else false) as Hl.
  { intros x. change 0xFF with (Z.ones 8). rewrite Z.land_spec. case_decide.
    - rewrite Z.ones_spec_low by lia. apply andb_true_r.
    - rewrite Z.ones_spec_high by lia. apply andb_false_r. }
  rewrite Hl. case_decide as Hi8.
  2:{ case_decide; by rewrite Hl. }
  rewrite Z.shiftr_spec, Z.lor_spec, Z.ldiff_spec, !Z.shiftl_spec by lia. case_decide as Hjk.
  - subst j. replace (i + 8 * k - 8 * k) with i by lia. change 0xFF with (Z.ones 8). rewrite Z.ones_spec_low by lia. cbn. by rewrite andb_false_r.
  - rewrite Hl, Z.shiftr_spec by lia. change 0xFF with (Z.ones 8). destruct (decide (j < k)).
    + rewrite !(Z.testbit_neg_r _ (i + 8 * j - 8 * k)) by lia. cbn. by rewrite andb_true_r, orb_false_r.
    + rewrite Z.land_spec, Z.ones_spec_high by lia. cbn. by rewrite andb_false_r, orb_false_r, andb_true_r.
Qed.

Definition touch (m : phys) (u : Z) (ws : list Z) : phys := Phys (freelist m) (<[u := ws]> (frames m)).

Lemma st_byte_ok m u o b ws : u mod 4096 = 0 → 0 ≤ o < 4096 → frames m !! u = Some ws → length ws = 1024%nat →
  ∃ ws', st_byte (u + o) b m = Ok tt (touch m u ws') ∧ length ws' = 1024%nat ∧
    ∀ i, 0 ≤ i < 4096 → frame_byte ws' i = if decide (i = o) then Z.land b 0xFF else frame_byte ws i.
Proof.
  intros Hu Ho Hws Hl. unfold st_byte. assert ((u + o) mod 4 = o mod 4) as -> by lia.
  replace (u + o - o mod 4) with (u + 4 * (o / 4)) by lia.
  destruct (lookup_lt_is_Some_2 ws (Z.to_nat (o / 4))) as [w Hw]; [lia|].
  rewrite (bind_ok _ _ _ _ _ (ld_word_ok m u (o / 4) ws w Hu ltac:(lia) Hws Hw)).
  exists (<[Z.to_nat (o / 4) := with_byte w (o mod 4) b]> ws). split; [by apply st_word_ok; [|lia|..]|].
  split; [by rewrite length_insert|]. intros i Hi. unfold frame_byte. rewrite !nth_lookup. destruct (decide (i / 4 = o / 4)) as [E|E].
  - rewrite E, list_lookup_insert_eq by lia. cbn [default]. rewrite Hw. cbn [default from_option id].
    rewrite byte_with_byte by lia. repeat case_decide; try done; lia.
  - rewrite list_lookup_insert_ne by lia. rewrite decide_False by congruence. done.
Qed.

(** What is at index [i] after [bs] was copied to index [o]. *)
Definition overlay (o : Z) (bs : list Z) (f : Z → Z) (i : Z) : Z :=
  if decide (o ≤ i < o + Z.of_nat (length bs)) then Z.land (nth (Z.to_nat (i - o)) bs 0) 0xFF else f i.

Lemma overlay_nil o f i : overlay o [] f i = f i.
Proof. unfold overlay. cbn. by rewrite decide_False by lia. Qed.

Lemma copy_in_ok m u o bs ws : u mod 4096 = 0 → 0 ≤ o → o + Z.of_nat (length bs) ≤ 4096 → frames m !! u = Some ws → length ws = 1024%nat →
  ∃ m' ws', copy_in (u + o) bs m = Ok tt m' ∧ freelist m' = freelist m ∧ frames m' !! u = Some ws' ∧ length ws' = 1024%nat ∧
    (∀ v, v ≠ u → frames m' !! v = frames m !! v) ∧
    ∀ i, 0 ≤ i < 4096 → frame_byte ws' i = overlay o bs (frame_byte ws) i.
Proof.
  intros Hu. revert m o ws. induction bs as [|b bs IH]; intros m o ws Ho Hlen Hws Hl; cbn [copy_in].
  { exists m, ws. split_and!; try done. intros i Hi. by rewrite overlay_nil. }
  cbn [length] in Hlen. destruct (st_byte_ok m u o b ws Hu ltac:(lia) Hws Hl) as (ws1 & E1 & Hl1 & Hb1).
  rewrite (bind_ok _ _ _ _ _ E1). replace (u + o + 1) with (u + (o + 1)) by lia.
  destruct (IH (touch m u ws1) (o + 1) ws1 ltac:(lia) ltac:(lia) (lookup_insert_eq _ _ _) Hl1) as (m' & ws' & E & Hf & Hws' & Hl' & Hv & Hb).
  exists m', ws'. split; [done|]. split; [by rewrite Hf|]. split; [done|]. split; [done|]. split.
  { intros v Hne. rewrite Hv by done. unfold touch. cbn [frames]. by rewrite lookup_insert_ne. }
  intros i Hi. rewrite Hb by done. unfold overlay. cbn [length]. rewrite Hb1 by done.
  destruct (decide (i = o)) as [->|].
  - rewrite (decide_False (P := o + 1 ≤ o < _)) by lia. rewrite decide_True by lia. by rewrite Z.sub_diag.
  - repeat case_decide; try (lia || done). replace (Z.to_nat (i - o)) with (S (Z.to_nat (i - (o + 1)))) by lia. done.
Qed.

(** * Bytes of an address space *)

Definition user_byte (m : phys) (pg va : Z) : option Z :=
  e ← mapping m pg va; ws ← frames m !! P2V (PTE_ADDR e); Some (frame_byte ws (va mod 4096)).

Lemma user_byte_maps m pg va u ws : maps m pg va u → frames m !! u = Some ws → user_byte m pg va = Some (frame_byte ws (va mod 4096)).
Proof. intros (e & He & ->) Hws. unfold user_byte. rewrite He. cbn [mbind option_bind]. by rewrite Hws. Qed.

Section Bytes.
Context (kend : Z) (Hkend : KERNBASE < kend).

(** Changing the contents of a user page. *)
Lemma touch_space m m' pg l va u :
  space kend m pg l → uva va → maps m pg va u → freelist m' = freelist m →
  (∀ v, v ≠ u → frames m' !! v = frames m !! v) → page m' u → space kend m' pg l ∧ same_maps m m' pg.
Proof.
  intros Hsp Hva Hmu Hfl Hfr Hpu. pose proof Hsp as [Hv Hp Hu Hi]. destruct (Hu va u Hva Hmu) as (Hul & Hup & Hut).
  assert (∀ i, pde m' pg i = pde m pg i) as Hd by (intros i; unfold pde; by rewrite Hfr by done).
  assert (∀ vb w, table m' pg vb w ↔ table m pg vb w) as Ht by (intros vb w; unfold table; by setoid_rewrite Hd).
  assert (∀ vb, mapping m' pg vb = mapping m pg vb) as Hm.
  { intros vb. unfold mapping. rewrite Hd. destruct (pde m pg (PDX vb)) as [e|] eqn:He; [|done]. cbn [mbind option_bind].
    destruct (decide (has e PTE_P = true)) as [Hpr|Hpr]; [|by rewrite !option_guard_False].
    rewrite !option_guard_True by done. unfold pde. rewrite Hfr; [done|]. intros E. apply (Hut vb). by exists e. }
  assert (∀ v, page m v → page m' v) as Hpg.
  { intros v (w & Hw & Hl). destruct (decide (v = u)) as [->|]; [done|]. exists w. by rewrite Hfr. }
  assert (same_maps m m' pg) as Hs by by split. split; [|done].
  apply (same_maps_space kend m m' pg l l); try done. destruct Hv. split; try done.
  - rewrite Hfl. revert vo_chain0 Hul. generalize (freelist m) as h. clear -Hfr.
    induction l as [|x l IH]; intros h; [done|]. intros (-> & ? & ? & nx & ws & ? & ? & ?) [? ?]%not_elem_of_cons.
    split_and!; try done. exists nx, ws. rewrite Hfr by done. split_and!; [done..|]. by apply IH.
  - destruct vo_dir0 as (? & ? & ws & ? & ?). split_and!; try done. exists ws. by rewrite Hfr.
  - intros i e Hi' He Hpr. rewrite Hd in He. destruct (vo_tab0 i e Hi' He Hpr) as (? & ? & ? & ?). split_and!; try done. by apply Hpg.
  - intros i j e f Hi' Hj He Hf. rewrite Hd in He, Hf. by apply vo_inj0.
Qed.

(** Copying into the page of [va] from index [o] on. *)
Lemma copy_user_ok m pg l va u o bs :
  space kend m pg l → uva va → maps m pg va u → 0 ≤ o → o + Z.of_nat (length bs) ≤ 4096 →
  ∃ m', copy_in (u + o) bs m = Ok tt m' ∧ space kend m' pg l ∧ same_maps m m' pg ∧
    (∀ v, v ≠ u → frames m' !! v = frames m !! v) ∧
    ∀ vb, uva vb → user_byte m' pg vb =
      if decide (vb / 4096 = va / 4096) then (λ x, overlay o bs (λ _, x) (vb mod 4096)) <$> user_byte m pg vb else user_byte m pg vb.
Proof.
  intros Hsp Hva Hmu Ho Hlen. destruct (sp_page _ _ _ _ Hsp u) as [[[Hal _] _] (ws & Hws & Hl)]; [right; right; right; by exists va|].
  destruct (copy_in_ok m u o bs ws Hal Ho Hlen Hws Hl) as (m' & ws' & E & Hfl & Hws' & Hl' & Hfr & Hb).
  destruct (touch_space m m' pg l va u Hsp Hva Hmu Hfl Hfr ltac:(by exists ws')) as [Hsp' Hs]. exists m'. split_and!; try done.
  intros vb Hvb. destruct (decide (vb / 4096 = va / 4096)) as [D|D].
  - assert (maps m pg vb u) as Hmb.
    { destruct Hmu as (e & He & ->). exists e. split; [|done]. rewrite <- He. apply mapping_same_page; unfold uva, KERNBASE in *; lia. }
    rewrite (user_byte_maps m pg vb u ws Hmb Hws), (user_byte_maps m' pg vb u ws') by (done || by apply (maps_mapping m m'); [apply (proj2 Hs)|]).
    cbn [fmap option_fmap option_map]. f_equal. rewrite Hb by lia. done.
  - unfold user_byte. rewrite (proj2 Hs). destruct (mapping m pg vb) as [e|] eqn:He; [|done]. cbn [mbind option_bind]. rewrite Hfr; [done|].
    intros Eu. apply D. apply (sp_inj _ _ _ _ Hsp vb va u); [done|done|by exists e|done].
Qed.

(** * The image of a process *)

(** The first [n] pages are mapped, all but the page [g] open to the user, and
    their bytes are [f]; no other user page is mapped. *)
Record image (m : phys) (pg : Z) (l : list Z) (n : Z) (g : option Z) (f : Z → Z) : Prop := {
  im_space : space kend m pg l;
  im_size : 0 ≤ n ≤ 524288;
  im_mapped : ∀ va, uva va → va / 4096 < n → ∃ e, mapping m pg va = Some e ∧ (has e PTE_U = true ↔ g ≠ Some (va / 4096));
  im_none : ∀ va, uva va → n ≤ va / 4096 → mapping m pg va = None;
  im_bytes : ∀ va, uva va → va / 4096 < n → user_byte m pg va = Some (f va)
}.

(** What an operation on an image may change: its own pages only. *)
Definition within (m : phys) (pg : Z) (l : list Z) (m' : phys) (l' : list Z) : Prop :=
  (∀ u, arena m' pg l' u ↔ arena m pg l u) ∧ same_outside m m' (arena m pg l).

Lemma within_refl m pg l : within m pg l m l.
Proof. by split. Qed.
Lemma within_trans m pg l m1 l1 m2 l2 : within m pg l m1 l1 → within m1 pg l1 m2 l2 → within m pg l m2 l2.
Proof.
  intros [A1 O1] [A2 O2]. split; [intros u; by rewrite A2|]. intros u Hu. rewrite O2; [by apply O1|by rewrite A1].
Qed.

Lemma image_ext m pg l n g f f' : image m pg l n g f → (∀ va, uva va → va / 4096 < n → f' va = f va) → image m pg l n g f'.
Proof. intros [] Hf. split; try done. intros va Hva Hn. rewrite Hf by done. auto. Qed.

Lemma same_maps_within m m' pg l : same_maps m m' pg → (∀ v, ¬ arena m pg l v → frames m' !! v = frames m !! v) → within m pg l m' l.
Proof. intros Hs Ho. split; [|done]. intros u. unfold arena. by rewrite (same_maps_owns m m' pg u Hs). Qed.

Lemma uva_page va n : 0 ≤ va < n * 4096 → n ≤ 524288 → uva va ∧ va / 4096 < n.
Proof. unfold uva, KERNBASE. lia. Qed.

(** The entry of a page of the image. *)
Lemma image_pte m pg l n g f va : image m pg l n g f → uva va → va / 4096 < n →
  ∃ pte e, walkpgdir pg va false m = Ok pte m ∧ pte ≠ 0 ∧ ld_word pte m = Ok e m ∧ mapping m pg va = Some e ∧ has e PTE_P = true ∧
    (has e PTE_U = true ↔ g ≠ Some (va / 4096)) ∧ P2V (PTE_ADDR e) ≠ 0.
Proof.
  intros Him Hva Hn. pose proof (im_space _ _ _ _ _ _ Him) as Hsp. destruct (im_mapped _ _ _ _ _ _ Him va Hva Hn) as (e & He & Hu).
  destruct (maps_present m pg va _ ltac:(by exists e)) as (t & e' & Ht & Hpe & Hp & _).
  assert (e' = e) as -> by (rewrite (mapping_table m pg va t Ht), Hpe in He; cbn [mbind option_bind] in He; rewrite option_guard_True in He by done; congruence).
  destruct (table_page m pg l (sp_vm _ _ _ _ Hsp) va t Ht) as (Ht0 & _ & _ & Hta & ws & Hws & Hl). pose proof (index_range va) as [_ ?].
  assert (0 ≤ t) by (destruct Ht as (d & _ & _ & ->); unfold P2V; by apply wrapu_range).
  exists (t + 4 * PTX va), e. split; [apply (walk_present m pg l (sp_vm _ _ _ _ Hsp) va false t Ht)|]. split; [lia|].
  unfold pde in Hpe. rewrite Hws in Hpe. cbn [mbind option_bind] in Hpe. split; [by apply (ld_word_ok m t (PTX va) ws e)|].
  split; [done|]. split; [done|]. split; [done|].
  destruct (sp_page _ _ _ _ Hsp (P2V (PTE_ADDR e))) as [[(_ & _ & _ & ?) _] _]; [|done]. right. right. right. exists va. split; [done|by exists e].
Qed.

Lemma uva2ka_ok m pg l n g f va : image m pg l n g f → uva va → va / 4096 < n →
  ∃ e, mapping m pg va = Some e ∧ uva2ka pg va m = Ok (if decide (g = Some (va / 4096)) then 0 else P2V (PTE_ADDR e)) m ∧ P2V (PTE_ADDR e) ≠ 0.
Proof.
  intros Him Hva Hn. destruct (image_pte m pg l n g f va Him Hva Hn) as (pte & e & Ew & _ & El & He & Hp & Hu & Hnz).
  exists e. split; [done|]. split; [|done]. unfold uva2ka. rewrite (bind_ok _ _ _ _ _ Ew), (bind_ok _ _ _ _ _ El), Hp. cbn [negb].
  case_decide as D; [|by rewrite (proj2 Hu)]. destruct (has e PTE_U); [by destruct (proj1 Hu)|done].
Qed.

(** One turn of [copyout], on a page that is open: the bytes that go there. *)
Lemma copy_image_ok m pg l n g f va u bs :
  image m pg l n g f → uva va → va / 4096 < n → maps m pg va u → va mod 4096 + Z.of_nat (length bs) ≤ 4096 →
  ∃ m', copy_in (u + va mod 4096) bs m = Ok tt m' ∧ image m' pg l n g (overlay va bs f) ∧ within m pg l m' l.
Proof.
  intros Him Hva Hn Hmu Hlen. pose proof (im_space _ _ _ _ _ _ Him) as Hsp.
  destruct (copy_user_ok m pg l va u (va mod 4096) bs Hsp Hva Hmu ltac:(lia) Hlen) as (m' & E & Hsp' & Hs & Hfr & Hb).
  exists m'. split; [done|]. split.
  - destruct Him. split; try done.
    + intros vb. rewrite (proj2 Hs). auto.
    + intros vb. rewrite (proj2 Hs). auto.
    + intros vb Hvb Hnb. rewrite Hb, im_bytes0 by done. case_decide as D; cbn; f_equal; unfold overlay.
      * repeat case_decide; try (lia || done). do 2 f_equal. lia.
      * rewrite decide_False; [done|lia].
  - apply same_maps_within; [done|]. intros v Hv. apply Hfr. intros ->. apply Hv. right. right. right. by exists va.
Qed.

Lemma overlay_app o bs1 bs2 f i : overlay o (bs1 ++ bs2) f i = overlay (o + Z.of_nat (length bs1)) bs2 (overlay o bs1 f) i.
Proof.
  unfold overlay. rewrite length_app. repeat case_decide; try (lia || done).
  - rewrite app_nth2 by lia. do 2 f_equal. lia.
  - rewrite app_nth1 by lia. done.
Qed.

Lemma copyout_ok m pg l n g f va bs :
  image m pg l n g f → 0 ≤ va → va + Z.of_nat (length bs) ≤ n * 4096 →
  ∃ r m' f', copyout pg va bs m = Ok r m' ∧ image m' pg l n g f' ∧ within m pg l m' l ∧
    ((r = 0 ∧ (∀ i, f' i = overlay va bs f i) ∧ ∀ i, va ≤ i < va + Z.of_nat (length bs) → g ≠ Some (i / 4096)) ∨
     (r = -1 ∧ ∃ i, va ≤ i < va + Z.of_nat (length bs) ∧ g = Some (i / 4096))).
Proof.
  intros Him H0 Hlen. unfold copyout. remember (length bs + 1)%nat as fuel eqn:Ef. assert (length bs < fuel)%nat as Hf by lia. clear Ef.
  revert m f va bs Him H0 Hlen Hf. induction fuel as [|fuel IH]; intros m f va bs Him H0 Hlen Hf; [lia|].
  destruct bs as [|b bs'] eqn:Ebs.
  { exists 0, m, f. split; [by apply loop_exit|]. split; [done|]. split; [apply within_refl|]. left. split; [done|]. split; [intros i; by rewrite overlay_nil|cbn; lia]. }
  rewrite <- Ebs in *. assert (0 < length bs)%nat by (rewrite Ebs; cbn; lia).
  pose proof (im_size _ _ _ _ _ _ Him) as Hn. destruct (uva_page va n ltac:(lia) ltac:(lia)) as [Hva Hvn].
  assert (PGROUNDDOWN va = va / 4096 * 4096) as Er by (rewrite PGROUNDDOWN_eq by (unfold uva, KERNBASE in Hva; lia); unfold PGSIZE; lia).
  destruct (uva2ka_ok m pg l n g f (va / 4096 * 4096) Him) as (e & He & Eu & Hnz); [unfold uva, KERNBASE in *; lia|rewrite Z.div_mul; lia|].
  rewrite Z.div_mul in Eu by lia.
  assert (copyout_step pg (va, bs) m = (let! pa0 := uva2ka pg (va / 4096 * 4096) in
      if pa0 =? 0 then ret (inr (-1)) else
      let n := PGSIZE - (va - va / 4096 * 4096) in
      let n := if Z.of_nat (length bs) <? n then Z.of_nat (length bs) else n in
      do! copy_in (pa0 + (va - va / 4096 * 4096)) (take (Z.to_nat n) bs) in
      ret (inl (u32 (va / 4096 * 4096 + PGSIZE), drop (Z.to_nat n) bs))) m) as Estep.
  { unfold copyout_step. rewrite Er, Ebs. done. }
  rewrite (bind_ok _ _ _ _ _ Eu) in Estep. destruct (decide (g = Some (va / 4096))) as [Hg|Hg].
  { exists (-1), m, f. rewrite (loop_exit _ _ _ _ _ _ Estep). split; [done|]. split; [done|]. split; [apply within_refl|].
    right. split; [done|]. exists va. split; [lia|done]. }
  rewrite (proj2 (Z.eqb_neq _ _) Hnz) in Estep. cbv zeta in Estep. replace (va - va / 4096 * 4096) with (va mod 4096) in Estep by lia. unfold PGSIZE in Estep.
  set (k := if Z.of_nat (length bs) <? 4096 - va mod 4096 then Z.of_nat (length bs) else 4096 - va mod 4096) in Estep.
  assert (0 < k ≤ 4096 - va mod 4096 ∧ k ≤ Z.of_nat (length bs) ∧ (k < Z.of_nat (length bs) → k = 4096 - va mod 4096)) as Hk
    by (unfold k; destruct (Z.ltb_spec (Z.of_nat (length bs)) (4096 - va mod 4096)); lia).
  assert (maps m pg va (P2V (PTE_ADDR e))) as Hmu.
  { exists e. split; [|done]. rewrite <- He. apply mapping_same_page; unfold uva, KERNBASE in *; lia. }
  destruct (copy_image_ok m pg l n g f va _ (take (Z.to_nat k) bs) Him Hva Hvn Hmu) as (m1 & E1 & Him1 & Hw1); [rewrite length_take; lia|].
  rewrite (bind_ok _ _ _ _ _ E1), u32_small in Estep by (unfold uva, KERNBASE in *; lia).
  rewrite (loop_next _ _ _ _ _ _ Estep).
  assert (∀ i, overlay va bs f i = overlay (va + k) (drop (Z.to_nat k) bs) (overlay va (take (Z.to_nat k) bs) f) i) as Hov.
  { intros i. rewrite <- (take_drop (Z.to_nat k) bs) at 1. rewrite overlay_app, length_take. do 2 f_equal. lia. }
  destruct (decide (k = Z.of_nat (length bs))) as [Hall|Hpart].
  - rewrite drop_ge by lia. destruct fuel as [|fuel']; [lia|]. exists 0, m1, (overlay va (take (Z.to_nat k) bs) f).
    split; [by apply loop_exit|]. split; [done|]. split; [done|]. left. split; [done|]. split; [intros i; rewrite Hov, drop_ge by lia; by rewrite overlay_nil|].
    intros i Hi. replace (i / 4096) with (va / 4096) by lia. done.
  - destruct (IH m1 (overlay va (take (Z.to_nat k) bs) f) (va / 4096 * 4096 + 4096) (drop (Z.to_nat k) bs) Him1 ltac:(lia)) as (r & m2 & f2 & E2 & Him2 & Hw2 & Hr);
      [rewrite length_drop; lia|rewrite length_drop; lia|].
    exists r, m2, f2. split; [done|]. split; [done|]. split; [by eapply within_trans|]. destruct Hr as [(-> & Hf2 & Hg2)|(-> & i & Hi & Hgi)]; [left|right].
    + split; [done|]. split; [intros i; rewrite Hf2, Hov; by replace (va + k) with (va / 4096 * 4096 + 4096) by lia|].
      intros i Hi. destruct (decide (i < va / 4096 * 4096 + 4096)); [by replace (i / 4096) with (va / 4096) by lia|].
      apply Hg2. rewrite length_drop. lia.
    + split; [done|]. exists i. split; [|done]. rewrite length_drop in Hi. lia.
Qed.

(** ** A guard page *)

Lemma ldiff_U e : has (Z.ldiff e PTE_U) PTE_P = has e PTE_P ∧ has (Z.ldiff e PTE_U) PTE_U = false ∧ PTE_ADDR (Z.ldiff e PTE_U) = PTE_ADDR e.
Proof.
  assert (∀ x y, Z.land y PTE_U = 0 → Z.land (Z.ldiff x PTE_U) y = Z.land x y) as Hl.
  { intros x y Hy. apply Z.bits_inj'. intros i Hi. rewrite !Z.land_spec, Z.ldiff_spec.
    assert (Z.testbit (Z.land y PTE_U) i = false) as Hb by (rewrite Hy; apply Z.bits_0). rewrite Z.land_spec in Hb.
    destruct (Z.testbit x i), (Z.testbit y i), (Z.testbit PTE_U i); done. }
  split; [|split].
  - unfold has. by rewrite Hl.
  - unfold has. assert (Z.land (Z.ldiff e PTE_U) PTE_U = 0) as ->; [|done].
    apply Z.bits_inj'. intros i Hi. rewrite Z.land_spec, Z.ldiff_spec, Z.bits_0. by destruct (Z.testbit e i), (Z.testbit PTE_U i).
  - unfold PTE_ADDR. by apply Hl.
Qed.

(** Changing the flags of the entry of a user page. *)
Lemma remap_ok m pg l va t e x :
  space kend m pg l → uva va → table m pg va t → pde m t (PTX va) = Some e → has e PTE_P = true → has x PTE_P = true → PTE_ADDR x = PTE_ADDR e →
  ∃ m', st_word (t + 4 * PTX va) x m = Ok tt m' ∧ space kend m' pg l ∧ within m pg l m' l ∧
    (∀ vb, 0 ≤ vb < 2 ^ 32 → mapping m' pg vb = if decide (va / 4096 = vb / 4096) then Some x else mapping m pg vb) ∧
    (∀ u, u ≠ t → frames m' !! u = frames m !! u).
Proof.
  intros Hsp Hva Ht He Hpe Hpx Hadr. pose proof Hsp as [Hv Hp Hu Hi]. exists (set_pte m t va x).
  assert (0 ≤ va < 2 ^ 32) as Hva32 by (unfold uva, KERNBASE in Hva; lia).
  assert (mapping m pg va = Some e) as Hma.
  { rewrite (mapping_table m pg va t Ht), He. cbn [mbind option_bind]. by rewrite option_guard_True. }
  split; [by eapply set_pte_ok|].
  assert (vm_ok (set_pte m t va x) pg l) as Hv' by by eapply set_pte_vm_ok.
  assert (∀ vb, 0 ≤ vb < 2 ^ 32 → mapping (set_pte m t va x) pg vb = if decide (va / 4096 = vb / 4096) then Some x else mapping m pg vb) as Hm'.
  { intros vb Hvb. rewrite (set_pte_mapping m pg l Hv) by done. by rewrite option_guard_True. }
  assert (∀ u, u ≠ t → frames (set_pte m t va x) !! u = frames m !! u) as Hfr by (intros u Hut; by apply (set_pte_frames m pg l Hv va)).
  assert (∀ vb w, table (set_pte m t va x) pg vb w ↔ table m pg vb w) as Ht'.
  { intros vb w. unfold table. pose proof (index_range vb). by rewrite (set_pte_dir m pg l Hv va t x (PDX vb)) by (done || lia). }
  assert (∀ vb u, uva vb → maps (set_pte m t va x) pg vb u ↔ maps m pg vb u) as Hmaps.
  { intros vb u Hvb. unfold maps. rewrite Hm' by (unfold uva, KERNBASE in Hvb; lia). case_decide as D; [|done].
    rewrite <- (mapping_same_page m pg va vb), Hma by (done || unfold uva, KERNBASE in Hvb; lia).
    split; intros (y & [= <-] & ->); eexists; (split; [done|]); by rewrite Hadr. }
  assert (∀ u, arena (set_pte m t va x) pg l u ↔ arena m pg l u) as Har.
  { intros u. unfold arena, owns. setoid_rewrite Ht'. split; intros [?|[?|[?|(vb & Hvb & H)]]]; try tauto; right; right; right; exists vb; (split; [done|]); by apply Hmaps. }
  split; [|split; [split; [done|]|done]].
  - split; [done| | |].
    + intros u Hua. apply Har in Hua. destruct (Hp u Hua) as [? (w & Hw & Hl)]. split; [done|].
      destruct (decide (u = t)) as [->|]; [by eapply table_is_page; [|apply Ht']|]. exists w. by rewrite Hfr.
    + intros vb u Hvb H%Hmaps; [|done]. destruct (Hu vb u Hvb H) as (? & ? & Hn). split; [done|]. split; [done|]. intros vc. rewrite Ht'. apply Hn.
    + intros vb vc u Hvb Hvc H1%Hmaps H2%Hmaps; [|done..]. by apply (Hi vb vc u).
  - intros u Hua. apply Hfr. intros ->. apply Hua. right. right. left. by exists va.
Qed.

Lemma clearpteu_ok m pg l n f k :
  image m pg l n None f → 0 ≤ k < n →
  ∃ m', clearpteu pg (k * 4096) m = Ok tt m' ∧ image m' pg l n (Some k) f ∧ within m pg l m' l.
Proof.
  intros Him Hk. pose proof (im_space _ _ _ _ _ _ Him) as Hsp. pose proof (im_size _ _ _ _ _ _ Him) as Hn.
  assert (uva (k * 4096)) as Hva by (unfold uva, KERNBASE; lia). assert (k * 4096 / 4096 = k) as Ek by lia.
  destruct (im_mapped _ _ _ _ _ _ Him _ Hva ltac:(lia)) as (e & He & _).
  destruct (maps_present m pg (k * 4096) _ ltac:(by exists e)) as (t & e' & Ht & Hpe & Hp & _).
  assert (e' = e) as -> by (rewrite (mapping_table m pg _ t Ht), Hpe in He; cbn [mbind option_bind] in He; rewrite option_guard_True in He by done; congruence).
  destruct (ldiff_U e) as (Hp' & Hu' & Ha').
  destruct (remap_ok m pg l (k * 4096) t e (Z.ldiff e PTE_U) Hsp Hva Ht Hpe Hp) as (m' & E & Hsp' & Hw & Hm' & Hfr); [by rewrite Hp'|done|].
  destruct (table_page m pg l (sp_vm _ _ _ _ Hsp) _ t Ht) as (Ht0 & _ & _ & Hta & ws & Hws & Hl). pose proof (index_range (k * 4096)) as [_ ?].
  assert (0 ≤ t) by (destruct Ht as (d & _ & _ & ->); unfold P2V; by apply wrapu_range).
  exists m'. split; [|split; [|done]].
  - unfold clearpteu. rewrite (bind_ok _ _ _ _ _ (walk_present m pg l (sp_vm _ _ _ _ Hsp) _ false t Ht)).
    rewrite (proj2 (Z.eqb_neq _ _)) by lia. unfold pde in Hpe. rewrite Hws in Hpe. cbn [mbind option_bind] in Hpe.
    by rewrite (bind_ok _ _ _ _ _ (ld_word_ok m t _ ws e Hta ltac:(done) Hws Hpe)).
  - assert (∀ va, uva va → mapping m' pg va = if decide (k = va / 4096) then Some (Z.ldiff e PTE_U) else mapping m pg va) as Hm.
    { intros va Hv. rewrite Hm' by (unfold uva, KERNBASE in Hv; lia). by rewrite Ek. }
    destruct Him as [_ _ Hmap Hnone Hby]. split; [done|done| | |].
    + intros va Hv Hvn. rewrite Hm by done. case_decide as D.
      * eexists. split; [done|]. rewrite Hu'. split; [done|]. intros []. by rewrite D.
      * destruct (Hmap va Hv Hvn) as (x & Hx & Hux). exists x. split; [done|]. rewrite Hux. split; [congruence|done].
    + intros va Hv Hvn. rewrite Hm, decide_False by (done || lia). by apply Hnone.
    + intros va Hv Hvn. rewrite <- (Hby va Hv Hvn). unfold user_byte. rewrite Hm by done.
      assert (∀ x, mapping m pg va = Some x → frames m' !! P2V (PTE_ADDR x) = frames m !! P2V (PTE_ADDR x)) as Hf.
      { intros x Hx. apply Hfr. destruct (sp_user _ _ _ _ Hsp va (P2V (PTE_ADDR x)) Hv ltac:(by exists x)) as (_ & _ & Hnt).
        intros Et. apply (Hnt (k * 4096)). by rewrite Et. }
      case_decide as D.
      * assert (mapping m pg va = Some e) as He2 by (rewrite <- He; apply mapping_same_page; unfold uva, KERNBASE in *; lia).
        rewrite He2. cbn [mbind option_bind]. by rewrite Ha', (Hf e He2).
      * destruct (mapping m pg va) as [x|] eqn:Hx; [|done]. cbn [mbind option_bind]. by rewrite (Hf x eq_refl).
Qed.

(** ** Growing an image *)

Lemma zeros_byte i : frame_byte (replicate 1024 0) i = 0.
Proof.
  unfold frame_byte. rewrite nth_lookup. destruct (replicate 1024 0 !! Z.to_nat (i / 4)) as [w|] eqn:E; cbn [default].
  - apply lookup_replicate in E as [-> _]. unfold byte_in. by rewrite Z.shiftr_0_l.
  - unfold byte_in. by rewrite Z.shiftr_0_l.
Qed.

Lemma grown_image m pg l n f hi m' l' :
  image m pg l n None f → n ≤ hi ≤ 524288 → grown kend m pg l n hi m' l' →
  image m' pg l' hi None (λ va, if decide (va / 4096 < n) then f va else 0) ∧ within m pg l m' l'.
Proof.
  intros Him Hhi Hg. pose proof (im_size _ _ _ _ _ _ Him) as Hn. split; [|split; [apply Hg|apply Hg]].
  assert (∀ va, uva va → 0 ≤ va < 2 ^ 32) as H32 by (unfold uva, KERNBASE; lia).
  split; [apply Hg|lia| | |].
  - intros va Hva Hlt. destruct (decide (n ≤ va / 4096)) as [Hge|Hlt'].
    + destruct (gr_new _ _ _ _ _ _ _ _ Hg va (H32 va Hva) ltac:(lia)) as (p & Hp & Hk & _). eexists. split; [exact Hp|]. split; [done|].
      intros _. destruct (V2P_kaddr p Hk) as (_ & Ha & Hr). unfold page_entry, has. rewrite <- Z.lor_assoc.
      rewrite lor_low by (done || by vm_compute). change (Z.lor (Z.lor PTE_W PTE_U) PTE_P) with 7.
      replace (V2P p + 7) with (Z.lor (V2P p) 7) by (apply lor_low; [done|lia]). rewrite Z.land_lor_distr_l.
      destruct (Z.eqb_spec (Z.lor (Z.land (V2P p) PTE_U) (Z.land 7 PTE_U)) 0) as [E|]; [|done]. by apply Z.lor_eq_0_iff in E as [_ E].
    + rewrite (gr_mapping _ _ _ _ _ _ _ _ Hg) by (auto || lia). apply (im_mapped _ _ _ _ _ _ Him); [done|lia].
  - intros va Hva Hge. rewrite (gr_mapping _ _ _ _ _ _ _ _ Hg) by (auto || lia). apply (im_none _ _ _ _ _ _ Him); [done|lia].
  - intros va Hva Hlt. case_decide as D.
    + rewrite <- (im_bytes _ _ _ _ _ _ Him va Hva D). unfold user_byte.
      assert (mapping m' pg va = mapping m pg va) as Em by (apply (gr_mapping _ _ _ _ _ _ _ _ Hg); [auto|lia]). rewrite Em.
      destruct (mapping m pg va) as [e|] eqn:He; [|done]. cbn [mbind option_bind].
      rewrite (gr_keeps _ _ _ _ _ _ _ _ Hg va); [done|done|by exists e|]. apply (maps_mapping m m'); [by rewrite Em|by exists e].
    + destruct (gr_new _ _ _ _ _ _ _ _ Hg va (H32 va Hva) ltac:(lia)) as (p & Hp & Hk & Hz).
      rewrite (user_byte_maps m' pg va p _ (new_maps _ _ _ _ Hk Hp) Hz). by rewrite zeros_byte.
Qed.

(** [allocuvm] on an image: it grows by zeros, or nothing is left of the attempt. *)
Lemma alloc_image m pg l oldsz newsz f :
  image m pg l (pages oldsz) None f → 0 ≤ oldsz → 0 ≤ newsz →
  ∃ r m' l', allocuvm kend pg oldsz newsz m = Ok r m' ∧ within m pg l m' l' ∧
    ((r = Z.max oldsz newsz ∧ newsz < KERNBASE ∧ image m' pg l' (pages r) None (λ va, if decide (va / 4096 < pages oldsz) then f va else 0)) ∨
     (r = 0 ∧ space kend m' pg l' ∧ (KERNBASE ≤ newsz ∨ exhausted kend m pg l (pages newsz)))).
Proof.
  intros Him Hold Hnew. pose proof (im_space _ _ _ _ _ _ Him) as Hsp.
  destruct (decide (KERNBASE ≤ newsz)) as [Hk|Hk].
  { exists 0, m, l. unfold allocuvm. rewrite (proj2 (Z.leb_le _ _)) by done. split; [done|]. split; [apply within_refl|]. right. by split_and!; [..|left]. }
  destruct (decide (newsz < oldsz)) as [Hlt|Hge].
  { exists oldsz, m, l. unfold allocuvm. rewrite (proj2 (Z.leb_gt _ _)), (proj2 (Z.ltb_lt _ _)) by lia. split; [done|]. split; [apply within_refl|].
    left. split; [lia|]. split; [lia|]. eapply image_ext; [done|]. intros va Hva Hn. by rewrite decide_True. }
  destruct (allocuvm_ok kend Hkend m pg l oldsz newsz Hsp ltac:(lia) ltac:(lia)) as [(m' & l' & E & Hg)|(m' & l' & E & Hs & Hex)].
  { intros vb Hvb Hr. apply (im_none _ _ _ _ _ _ Him); [|lia]. eapply user_page; [lia|apply Hr|].
    unfold pages. unfold KERNBASE in Hk. lia. }
  - exists newsz, m', l'. split; [done|]. rewrite Z.max_r by lia. destruct (grown_image m pg l (pages oldsz) f (pages newsz) m' l' Him) as [Him' Hw].
    { pose proof (pages_mono oldsz newsz ltac:(lia)). unfold pages in *. unfold KERNBASE in Hk. lia. }
    { done. }
    split; [done|]. left. split; [done|]. split; [lia|done].
  - exists 0, m', l'. split; [done|]. split; [split; apply Hs|]. right. split; [done|]. split; [apply Hs|by right].
Qed.

(** A directory without user pages is an empty image. *)
Lemma empty_image m pg l : space kend m pg l → (∀ vb, uva vb → mapping m pg vb = None) → image m pg l 0 None (λ _, 0).
Proof.
  intros Hsp Hn. split; [done|lia| | |].
  - unfold uva. intros va Hva Hlt. lia.
  - intros va Hva _. by apply Hn.
  - unfold uva. intros va Hva Hlt. lia.
Qed.

(** ** Memory that changes elsewhere *)

Lemma space_frame m m' pg l l' :
  space kend m pg l → free_list kend m' l' → (∀ u, owns m pg u → (u ∉ l') ∧ frames m' !! u = frames m !! u) →
  space kend m' pg l' ∧ same_maps m m' pg.
Proof.
  intros Hsp [Hc Hnd Hus] Hown. pose proof Hsp as [Hv Hp Hu Hi]. destruct (Hown pg ltac:(by left)) as [Hpl Hpf].
  assert (∀ i, pde m' pg i = pde m pg i) as Hd by (intros i; unfold pde; by rewrite Hpf).
  assert (∀ vb w, table m' pg vb w ↔ table m pg vb w) as Ht by (intros vb w; unfold table; by setoid_rewrite Hd).
  assert (∀ vb, mapping m' pg vb = mapping m pg vb) as Hm.
  { intros vb. unfold mapping. rewrite Hd. destruct (pde m pg (PDX vb)) as [e|] eqn:He; [|done]. cbn [mbind option_bind].
    destruct (decide (has e PTE_P = true)) as [Hpr|Hpr]; [|by rewrite !option_guard_False].
    rewrite !option_guard_True by done. unfold pde. destruct (Hown (P2V (PTE_ADDR e))) as [_ ->]; [|done]. right. left. exists vb, e. done. }
  assert (same_maps m m' pg) as Hs by by split. split; [|done].
  assert (∀ u, owns m' pg u → owns m pg u) as Ho by (intros u; by apply same_maps_owns).
  assert (∀ u, owns m pg u → page m' u) as Hpg.
  { intros u Hu'. destruct (Hp u ltac:(by right)) as [_ (ws & Hws & Hl)]. exists ws. by destruct (Hown u Hu') as [_ ->]. }
  split.
  - pose proof Hv as []. split; try done.
    + intros a Ha. by apply Hus.
    + split; [apply vo_dir0|]. split; [done|]. apply Hpg. by left.
    + intros i e Hi' He Hpr. rewrite Hd in He. destruct (vo_tab0 i e Hi' He Hpr) as (? & ? & _ & _).
      assert (owns m pg (P2V (PTE_ADDR e))) as Hot by (right; left; exists (i * 2 ^ 22), e; by rewrite PDX_shift).
      split; [done|]. split; [done|]. split; [by apply Hown|]. by apply Hpg.
    + intros i j e f Hi' Hj He Hf. rewrite Hd in He, Hf. by apply vo_inj0.
  - intros u [Hl|Hou%Ho]; [split; [by apply Hus|by eapply chain_page]|]. split; [apply Hp; by right|by apply Hpg].
  - intros va u Hva H. apply (maps_mapping m m') in H; [|done]. destruct (Hu va u Hva H) as (_ & ? & Hn).
    split; [apply Hown; right; right; by exists va|]. split; [done|]. intros vb. rewrite Ht. apply Hn.
  - intros va vb u Hva Hvb H1 H2. apply (maps_mapping m m') in H1, H2; [|done..]. by apply (Hi va vb u).
Qed.

Lemma image_frame m m' pg l l' n g f :
  image m pg l n g f → free_list kend m' l' → (∀ u, owns m pg u → (u ∉ l') ∧ frames m' !! u = frames m !! u) → image m' pg l' n g f.
Proof.
  intros Him Hl Hown. destruct (space_frame m m' pg l l' (im_space _ _ _ _ _ _ Him) Hl Hown) as [Hsp' [_ Hm]]. destruct Him. split; try done.
  - intros va. rewrite Hm. auto.
  - intros va. rewrite Hm. auto.
  - intros va Hva Hn. rewrite <- (im_bytes0 va Hva Hn). unfold user_byte. rewrite Hm. destruct (mapping m pg va) as [e|] eqn:He; [|done].
    cbn [mbind option_bind]. destruct (Hown (P2V (PTE_ADDR e))) as [_ ->]; [|done]. right. right. exists va. split; [done|by exists e].
Qed.

End Bytes.
End VmBytes.
