(* ===== verification/Exec.v ===== *)
(** Exec: running a program (p4/xv6-public/exec.c, with [loaduvm] of vm.c, the
    headers of elf.h and [safestrcpy] of string.c): [exec] replaces the address
    space of the process by the program in a file, with its arguments on a new
    stack. *)
From Stdlib Require Import Strings.Byte.
From S2P Require Import Prelude Memory Kalloc Vm.
From stdpp Require Import gmap.
Local Open Scope Z_scope.

Module Exec.
Import Kalloc Vm.

Definition ELF_MAGIC : Z := 0x464C457F.
Definition ELF_PROG_LOAD : Z := 1.
Definition MAXARG : Z := 32.
Definition SLASH : byte := x2f.

(** [struct elfhdr] and [struct proghdr]: their sizes and the fields that are
    used. *)
Definition sizeof_elfhdr : Z := 52.
Definition sizeof_proghdr : Z := 32.
Definition field (bs : list byte) (o n : nat) : Z := le_decode (take n (drop o bs)).
Record elfhdr := Elf { magic : Z; entry : Z; phoff : Z; phnum : Z }.
Definition load_elfhdr (bs : list byte) : elfhdr := Elf (field bs 0 4) (field bs 24 4) (field bs 28 4) (field bs 44 2).
Record proghdr := Ph { ph_type : Z; ph_off : Z; ph_vaddr : Z; ph_filesz : Z; ph_memsz : Z }.
Definition load_proghdr (bs : list byte) : proghdr :=
  Ph (field bs 0 4) (field bs 4 4) (field bs 8 4) (field bs 16 4) (field bs 20 4).

(** The operations on files that [exec] calls. *)
Class Inodes (F : Type) := {
  begin_op : ST F unit;
  end_op : ST F unit;
  namei : list byte → ST F (option nat);
  ilock : nat → ST F unit;
  iunlockput : nat → ST F unit;
  readi : nat → Z → Z → ST F (Z * list byte)
}.

(** The process: what [exec] changes of [struct proc] and its trap frame. *)
Record proc := Proc { name : list byte; x_pgdir : Z; x_sz : Z; eip : Z; esp : Z }.

(** Memory, files and the process. *)
Record state (F : Type) := St { mem : phys; files : F; cur : proc }.
Arguments St {F}. Arguments mem {F}. Arguments files {F}. Arguments cur {F}.

(** [char *safestrcpy(char *s, const char *t, int n)] into the [n] bytes [s]. *)
Fixpoint safestrcpy (s t : list byte) (n : nat) : list byte :=
  match n with
  | O => s
  | S O => x00 :: tail s
  | S n' =>
      let c := default x00 (head t) in
      if bool_decide (c = x00) then x00 :: x00 :: drop 2 s
      else c :: safestrcpy (tail s) (tail t) n'
  end.

(** The loop that finds what follows the last slash of the path. *)
Fixpoint last_element (last s : list byte) : list byte :=
  match s with
  | [] => last
  | c :: s => last_element (if bool_decide (c = SLASH) then s else last) s
  end.

(** Little-endian bytes of words. *)
Definition word_bytes (ws : list Z) : list Z := concat ((λ w, Z_of_byte <$> le_encode 4 w) <$> ws).

Section Exec.
Context {F : Type} `{Inodes F} (kend kdata : Z).
Abbreviation T := (ST (state F)).

Definition on_mem {A} (f : ST phys A) : T A := λ s,
  match f (mem s) with Ok a m => Ok a (St m (files s) (cur s)) | Fault => Fault end.
Definition on_fs {A} (f : ST F A) : T A := λ s,
  match f (files s) with Ok a x => Ok a (St (mem s) x (cur s)) | Fault => Fault end.
Definition set_cur (p : proc) : T unit := modify (λ s, St (mem s) (files s) p).

(** [int loaduvm(pde_t *pgdir, char *addr, struct inode *ip, uint offset, uint sz)]:
    one turn of its loop. *)
Definition load_page (pgdir addr : Z) (ip : nat) (offset sz i : Z) : T (Z + Z) :=
  if negb (i <? sz) then ret (inr 0) else
  let! pte := on_mem (walkpgdir pgdir (u32 (addr + i)) false) in
  if pte =? 0 then fault else
  let! e := on_mem (ld_word pte) in
  let pa := PTE_ADDR e in
  let n := if u32 (sz - i) <? PGSIZE then u32 (sz - i) else PGSIZE in
  let! (r, bytes) := on_fs (readi ip (u32 (offset + i)) n) in
  do! on_mem (copy_in (P2V pa) (Z_of_byte <$> bytes)) in
  if negb (r =? n) then ret (inr (-1)) else ret (inl (u32 (i + PGSIZE))).
Definition loaduvm (pgdir addr : Z) (ip : nat) (offset sz : Z) : T Z :=
  if negb (addr mod PGSIZE =? 0) then fault else
  loop (Z.to_nat (sz / PGSIZE) + 2) (load_page pgdir addr ip offset sz) 0.

(** One turn of the loop over the program headers; [None] is [goto bad]. *)
Definition load_segment (pgdir : Z) (ip : nat) (num : Z) : Z * Z * Z → T ((Z * Z * Z) + option Z) := λ '(i, off, sz),
  if negb (i <? num) then ret (inr (Some sz)) else
  let next sz := inl (i + 1, i32 (off + sizeof_proghdr), sz) in
  let! (r, bs) := on_fs (readi ip (u32 off) sizeof_proghdr) in
  if negb (r =? sizeof_proghdr) then ret (inr None) else
  let ph := load_proghdr bs in
  if negb (ph_type ph =? ELF_PROG_LOAD) then ret (next sz) else
  if ph_memsz ph <? ph_filesz ph then ret (inr None) else
  if u32 (ph_vaddr ph + ph_memsz ph) <? ph_vaddr ph then ret (inr None) else
  let! sz := on_mem (allocuvm kend pgdir sz (u32 (ph_vaddr ph + ph_memsz ph))) in
  if sz =? 0 then ret (inr None) else
  if negb (ph_vaddr ph mod PGSIZE =? 0) then ret (inr None) else
  let! r := loaduvm pgdir (ph_vaddr ph) ip (ph_off ph) (ph_filesz ph) in
  if r <? 0 then ret (inr None) else ret (next sz).

(** The loop that pushes the arguments: [argc] are done, [ptrs] are their
    addresses.  The result is the stack pointer and the addresses. *)
Fixpoint push_args (pgdir argc sp : Z) (argv : list (list byte)) (ptrs : list Z) : T (option (Z * list Z)) :=
  match argv with
  | [] => ret (Some (sp, ptrs))
  | s :: argv =>
      if MAXARG <=? argc then ret None else
      let len := Z.of_nat (length s) in
      let sp := Z.land (u32 (sp - (len + 1))) (u32 (Z.lnot 3)) in
      let! r := on_mem (copyout pgdir sp (Z_of_byte <$> s ++ [x00])) in
      if r <? 0 then ret None else push_args pgdir (argc + 1) sp argv (ptrs ++ [sp])
  end.

(** [bad:] *)
Definition bad (pgdir : Z) (ip : option nat) : T Z :=
  do! (if pgdir =? 0 then ret tt else on_mem (freevm kend pgdir)) in
  do! (match ip with
       | Some ip => do! on_fs (iunlockput ip) in on_fs end_op
       | None => ret tt
       end) in
  ret (-1).

(** [void switchuvm(struct proc *p)]: its test of the directory; the rest concerns
    the hardware. *)
Definition switchuvm (pgdir : Z) : T unit := if pgdir =? 0 then fault else ret tt.

(** From the end of the loading on: the stack, and the new image becomes that of
    the process. *)
Definition exec_stack (path : list byte) (argv : list (list byte)) (pgdir entry sz : Z) : T Z :=
  let sz := PGROUNDUP sz in
  let! sz := on_mem (allocuvm kend pgdir sz (u32 (sz + 2 * PGSIZE))) in
  if sz =? 0 then bad pgdir None else
  do! on_mem (clearpteu pgdir (u32 (sz - 2 * PGSIZE))) in
  let! r := push_args pgdir 0 sz argv [] in
  match r with
  | None => bad pgdir None
  | Some (sp, ptrs) =>
      let argc := Z.of_nat (length argv) in
      let ustack := [0xffffffff; argc; u32 (sp - (argc + 1) * 4)] ++ ptrs ++ [0] in
      let sp := u32 (sp - (3 + argc + 1) * 4) in
      let! r := on_mem (copyout pgdir sp (word_bytes ustack)) in
      if r <? 0 then bad pgdir None else
      let! s := gets id in
      let old := x_pgdir (cur s) in
      do! set_cur (Proc (safestrcpy (name (cur s)) (last_element path path) 16) pgdir sz entry sp) in
      do! switchuvm pgdir in
      do! on_mem (freevm kend old) in
      ret 0
  end.

(** [int exec(char *path, char **argv)] *)
Definition exec (path : list byte) (argv : list (list byte)) : T Z :=
  do! on_fs begin_op in
  let! r := on_fs (namei path) in
  match r with
  | None => do! on_fs end_op in ret (-1)
  | Some ip =>
      do! on_fs (ilock ip) in
      let! (n, bs) := on_fs (readi ip 0 sizeof_elfhdr) in
      if negb (n =? sizeof_elfhdr) then bad 0 (Some ip) else
      let elf := load_elfhdr bs in
      if negb (magic elf =? ELF_MAGIC) then bad 0 (Some ip) else
      let! pgdir := on_mem (setupkvm kend kdata) in
      if pgdir =? 0 then bad 0 (Some ip) else
      let! r := loop (Z.to_nat (phnum elf) + 1) (load_segment pgdir ip (phnum elf)) (0, i32 (phoff elf), 0) in
      match r with
      | None => bad pgdir (Some ip)
      | Some sz =>
          do! on_fs (iunlockput ip) in
          do! on_fs end_op in
          exec_stack path argv pgdir (entry elf) sz
      end
  end.

End Exec.
End Exec.
