(* ===== verification/ExecSpec.v ===== *)
(** ExecSpec: what [exec] promises.  [plan] computes from the bytes of the file and
    the arguments what the process will find in its memory and registers; the laws
    [Files] say what [exec] needs of the file system. *)
From Stdlib Require Import Strings.Byte.
From S2P Require Import Prelude Memory Kalloc Vm VmMap VmSpace VmUser VmBytes Exec.
From stdpp Require Import gmap.
Local Open Scope Z_scope.

Module ExecSpec.
Import Kalloc Vm VmMap VmSpace VmUser VmBytes Exec.

(** * Reading a file *)

(** The answer of [readi] on a file that holds [d]. *)
Definition read_result (d : list byte) (off n : Z) : Z * list byte :=
  if decide (Z.of_nat (length d) < off ∨ 2 ^ 32 ≤ off + n) then (-1, []) else
  let bs := take (Z.to_nat n) (drop (Z.to_nat off) d) in (Z.of_nat (length bs), bs).

(** The [n] bytes at [off], when the file has them all. *)
Definition bytes_at (d : list byte) (off n : Z) : option (list byte) :=
  if decide (off + n ≤ Z.of_nat (length d)) then Some (take (Z.to_nat n) (drop (Z.to_nat off) d)) else None.

(** The file system that [exec] is a client of: the files that the paths name do
    not change, and its calls come in the order that takes and releases the inode.
    [known]: the paths that do not lead to a device. *)
Class Files (F : Type) `{Inodes F} (contents : list byte → option (list byte)) := {
  known : list byte → Prop;
  idle : F → Prop;
  busy : F → Prop;
  named : nat → list byte → F → Prop;
  locked : nat → list byte → F → Prop;
  begin_op_law x : idle x → wp begin_op (λ _ y, busy y) x;
  end_op_law x : busy x → wp end_op (λ _ y, idle y) x;
  namei_law path x : known path → busy x → wp (namei path) (λ r y,
    match contents path with
    | Some d => ∃ ip, r = Some ip ∧ named ip d y
    | None => r = None ∧ busy y
    end) x;
  ilock_law ip d x : named ip d x → wp (ilock ip) (λ _ y, locked ip d y) x;
  iunlockput_law ip d x : locked ip d x → wp (iunlockput ip) (λ _ y, busy y) x;
  readi_law ip d off n x : locked ip d x → 0 ≤ off < 2 ^ 32 → 0 ≤ n < 2 ^ 31 →
    wp (readi ip off n) (λ r y, r = read_result d off n ∧ locked ip d y) x;
  contents_size path d : known path → contents path = Some d → Z.of_nat (length d) < 2 ^ 31
}.

(** * The program *)

(** The size of the image and its bytes. *)
Definition loaded : Type := Z * (Z → Z).

(** The header of the file, and that of its segment [k]. *)
Definition header (d : list byte) : option elfhdr :=
  bs ← bytes_at d 0 sizeof_elfhdr; guard (magic (load_elfhdr bs) = ELF_MAGIC);; Some (load_elfhdr bs).
Definition segment_header (d : list byte) (e : elfhdr) (k : Z) : option proghdr :=
  load_proghdr <$> bytes_at d (u32 (phoff e + k * sizeof_proghdr)) sizeof_proghdr.

(** A segment that can be loaded: aligned, below the kernel, its bytes in the file. *)
Definition loadable (d : list byte) (ph : proghdr) : Prop :=
  ph_filesz ph ≤ ph_memsz ph ∧ ph_vaddr ph + ph_memsz ph < KERNBASE ∧ ph_vaddr ph mod 4096 = 0 ∧
  (ph_filesz ph = 0 ∨ ph_off ph + ph_filesz ph ≤ Z.of_nat (length d)).
#[global] Instance loadable_dec d ph : Decision (loadable d ph).
Proof. apply _. Defined.

Definition segment_bytes (d : list byte) (ph : proghdr) : list Z :=
  Z_of_byte <$> take (Z.to_nat (ph_filesz ph)) (drop (Z.to_nat (ph_off ph)) d).

(** The image grows to the end of the segment, and gets its bytes; the rest stays
    0.  A program may not end at address 0. *)
Definition add_segment (d : list byte) (ph : proghdr) (p : loaded) : option loaded :=
  if decide (ph_type ph = ELF_PROG_LOAD) then
    guard (loadable d ph);;
    let sz := Z.max p.1 (ph_vaddr ph + ph_memsz ph) in
    guard (sz ≠ 0);;
    Some (sz, overlay (ph_vaddr ph) (segment_bytes d ph) p.2)
  else Some p.
Fixpoint add_segments (d : list byte) (e : elfhdr) (k : Z) (n : nat) (p : loaded) {struct n} : option loaded :=
  match n with
  | O => Some p
  | S n => ph ← segment_header d e k; p ← add_segment d ph p; add_segments d e (k + 1) n p
  end.
Definition program (d : list byte) : option (Z * loaded) :=
  e ← header d;
  p ← add_segments d e 0 (Z.to_nat (phnum e)) (0, λ _, 0);
  Some (entry e, p).

(** * The stack *)

(** The strings go below each other at multiples of 4, none of them below [lo];
    [ptrs] are the addresses so far. *)
Fixpoint push (lo sp : Z) (argv : list (list byte)) (ptrs : list Z) (f : Z → Z) {struct argv} : option (Z * list Z * (Z → Z)) :=
  match argv with
  | [] => Some (sp, ptrs, f)
  | s :: argv =>
      let sp := (sp - (Z.of_nat (length s) + 1)) / 4 * 4 in
      guard (lo ≤ sp);;
      push lo sp argv (ptrs ++ [sp]) (overlay sp (Z_of_byte <$> s ++ [x00]) f)
  end.

(** What the program finds at its start: the return address, [argc], [argv] and
    the array it points to. *)
Definition frame (sp : Z) (ptrs : list Z) : list Z :=
  let argc := Z.of_nat (length ptrs) in
  [0xffffffff; argc; sp - (argc + 1) * 4] ++ ptrs ++ [0].

Record start := Start { s_size : Z; s_entry : Z; s_sp : Z; s_bytes : Z → Z }.

(** The stack is the last page of the image; the page below it is the guard. *)
Definition with_stack (entry : Z) (p : loaded) (argv : list (list byte)) : option start :=
  let top := pages p.1 * 4096 + 8192 in
  let lo := top - 4096 in
  guard (top < KERNBASE);;
  '(sp, ptrs, f) ← push lo top argv [] p.2;
  let sp' := sp - (4 + Z.of_nat (length argv)) * 4 in
  guard ((length argv ≤ 32)%nat ∧ lo ≤ sp');;
  Some (Start top entry sp' (overlay sp' (word_bytes (frame sp ptrs)) f)).
Definition plan (d : list byte) (argv : list (list byte)) : option start :=
  '(entry, p) ← program d; with_stack entry p argv.

(** The page of the guard. *)
Definition guard_page (s : start) : Z := s_size s / 4096 - 2.

End ExecSpec.
