(* ===== verification/ExecLoad.v ===== *)
(** ExecLoad: [loaduvm] and the loop of [exec] over the program headers put the
    segments of the file into the new image. *)
From Stdlib Require Import Strings.Byte.
From S2P Require Import Prelude Memory Kalloc Vm VmMap VmSpace VmUser VmBytes Exec ExecSpec.
From stdpp Require Import gmap.
Local Open Scope Z_scope.

Module ExecLoad.
Import Kalloc Vm VmMap VmSpace VmUser VmBytes Exec ExecSpec.
Ltac Zify.zify_post_hook ::= Z.to_euclidean_division_equations.

(** * Reading *)

Lemma read_fits d off n : 0 ≤ off → 0 ≤ n → off + n ≤ Z.of_nat (length d) → Z.of_nat (length d) < 2 ^ 31 →
  read_result d off n = (n, take (Z.to_nat n) (drop (Z.to_nat off) d)).
Proof.
  intros. unfold read_result. rewrite decide_False by lia. f_equal. rewrite length_take, length_drop. lia.
Qed.

Lemma read_short d off n : 0 ≤ off → 0 < n → Z.of_nat (length d) < off + n →
  (read_result d off n).1 ≠ n ∧ Z.of_nat (length (read_result d off n).2) ≤ n.
Proof.
  intros. unfold read_result. case_decide; cbn [fst snd]; [cbn; lia|]. rewrite length_take, length_drop. lia.
Qed.

(** A header is read in full, or its absence is noticed. *)
Lemma read_header d off n : 0 ≤ off → 0 < n → Z.of_nat (length d) < 2 ^ 31 →
  match bytes_at d off n with
  | Some bs => read_result d off n = (n, bs)
  | None => (read_result d off n).1 ≠ n
  end.
Proof. intros. unfold bytes_at. case_decide; [apply read_fits; lia|apply read_short; lia]. Qed.

Lemma take_drop_app {A} (l : list A) o i n : take (i + n) (drop o l) = take i (drop o l) ++ take n (drop (o + i) l).
Proof. rewrite <- take_take_drop. by rewrite drop_drop. Qed.

Lemma field_range bs o n : 0 ≤ field bs o n < 2 ^ (8 * Z.of_nat n).
Proof.
  unfold field. pose proof (le_decode_range (take n (drop o bs))) as H. split; [lia|].
  eapply Z.lt_le_trans; [apply H|]. apply Z.pow_le_mono_r; [lia|]. rewrite length_take. lia.
Qed.

(** * Computations on a part of the state *)

Section Load.
Context {F : Type} `{Inodes F} (contents : list byte → option (list byte)) `{!Files F contents}.
Context (kend : Z) (Hkend : KERNBASE < kend).

Lemma wp_on_mem {A} (f : ST phys A) a m' Q m (x : F) p : f m = Ok a m' → Q a (St m' x p) → wp (on_mem f) Q (St m x p).
Proof. intros E HQ. unfold wp, on_mem. cbn [mem files cur]. by rewrite E. Qed.

Lemma wp_on_fs {A} (f : ST F A) Q m x p : wp f (λ a y, Q a (St m y p)) x → wp (on_fs f) Q (St m x p).
Proof. unfold wp, on_fs. cbn [mem files cur]. by destruct (f x). Qed.

Lemma wp_readi ip d off n Q m x p :
  locked ip d x → 0 ≤ off < 2 ^ 32 → 0 ≤ n < 2 ^ 31 → (∀ y, locked ip d y → Q (read_result d off n) (St m y p)) →
  wp (on_fs (readi ip off n)) Q (St m x p).
Proof.
  intros Hl Ho Hn HQ. apply wp_on_fs. eapply wp_mono; [by apply readi_law|]. intros r y [-> Hy]. by apply HQ.
Qed.

(** * [loaduvm] *)

(** The part of the segment that the first [i] bytes are. *)
Definition part (d : list byte) (off i : Z) : list Z := Z_of_byte <$> take (Z.to_nat i) (drop (Z.to_nat off) d).
Definition present (d : list byte) (off n : Z) : Prop := n = 0 ∨ off + n ≤ Z.of_nat (length d).

Lemma part_app d off i n : 0 ≤ off → 0 ≤ i → 0 ≤ n → part d off (i + n) = part d off i ++ part d (off + i) n.
Proof. intros. unfold part. rewrite !Z2Nat.inj_add by lia. by rewrite take_drop_app, fmap_app. Qed.

Lemma length_part d off i : 0 ≤ off → 0 ≤ i → present d off i → Z.of_nat (length (part d off i)) = i.
Proof. unfold part, present. rewrite length_fmap, length_take, length_drop. lia. Qed.

(** The loop before index [i]. *)
Definition loading (m : phys) (pg : Z) (l : list Z) (n : Z) (f : Z → Z) (d : list byte) (ip : nat) (p : proc) (addr off i : Z) (s : state F) : Prop :=
  present d off i ∧ locked ip d (files s) ∧ cur s = p ∧
  image kend (mem s) pg l n None (overlay addr (part d off i) f) ∧ within m pg l (mem s) l.

Lemma load_page_ok m pg l n f d ip p addr off sz i s :
  Z.of_nat (length d) < 2 ^ 31 → 0 ≤ addr → addr mod 4096 = 0 → 0 ≤ off < 2 ^ 32 → addr + sz ≤ n * 4096 → n ≤ 524288 →
  0 ≤ i < sz → i mod 4096 = 0 → loading m pg l n f d ip p addr off i s →
  wp (load_page pg addr ip off sz i) (λ r s',
    let k := Z.min 4096 (sz - i) in
    (r = inl (i + 4096) ∧ loading m pg l n f d ip p addr off (i + k) s') ∨
    (r = inr (-1) ∧ ¬ present d off (i + k) ∧ locked ip d (files s') ∧ cur s' = p ∧
     (∃ f', image kend (mem s') pg l n None f') ∧ within m pg l (mem s') l)) s.
Proof.
  intros Hd Ha Hal Ho Hsz Hn Hi Him (Hpr & Hlk & Hc & Himg & Hw). destruct s as [m1 x p']. cbn [mem files cur] in *. subst p'.
  destruct (uva_page (addr + i) n ltac:(lia) Hn) as [Hva Hvn].
  destruct (image_pte kend m1 pg l n None _ (addr + i) Himg Hva Hvn) as (pte & e & Ew & Hnz & El & He & _ & _ & _).
  unfold load_page. rewrite (proj2 (Z.ltb_lt i sz)) by lia. cbn [negb]. rewrite u32_small by (unfold uva, KERNBASE in Hva; lia).
  apply wp_bind. eapply wp_on_mem; [exact Ew|]. rewrite (proj2 (Z.eqb_neq _ _) Hnz).
  apply wp_bind. eapply wp_on_mem; [exact El|]. cbv zeta. unfold PGSIZE. unfold KERNBASE in *.
  rewrite (u32_small (sz - i)) by lia.
  replace (if sz - i <? 4096 then sz - i else 4096) with (Z.min 4096 (sz - i)) by (destruct (Z.ltb_spec (sz - i) 4096); lia).
  set (k := Z.min 4096 (sz - i)).
  assert (off + i < 2 ^ 32) as Hoff by (destruct Hpr; lia). rewrite (u32_small (off + i)) by lia.
  apply wp_bind. apply (wp_readi ip d); [done|lia|lia|]. intros y Hy.
  assert (∃ bytes, read_result d (off + i) k = (k, bytes) ∧ (Z_of_byte <$> bytes) = part d (off + i) k ∧ present d off (i + k) ∧ length (part d (off + i) k) = Z.to_nat k ∨
    ∃ r, read_result d (off + i) k = (r, bytes) ∧ r ≠ k ∧ Z.of_nat (length (Z_of_byte <$> bytes)) ≤ 4096 ∧ ¬ present d off (i + k)) as (bytes & Hb).
  { destruct (decide (off + i + k ≤ Z.of_nat (length d))) as [Hf|Hf].
    - exists (take (Z.to_nat k) (drop (Z.to_nat (off + i)) d)). left. rewrite read_fits by lia. split; [done|]. split; [done|].
      split; [right; lia|]. assert (present d (off + i) k) as Hp by (right; lia). apply length_part in Hp; lia.
    - destruct (read_short d (off + i) k) as [Hr Hl]; [lia..|]. destruct (read_result d (off + i) k) as [r bs]. exists bs. right. exists r.
      cbn [fst snd] in *. rewrite length_fmap. split; [done|]. split; [done|]. split; [lia|]. unfold present. lia. }
  assert (maps m1 pg (addr + i) (P2V (PTE_ADDR e))) as Hmu by by exists e.
  assert (Z.of_nat (length (Z_of_byte <$> bytes)) ≤ 4096) as Hlen.
  { destruct Hb as [(_ & -> & _ & ->)|(r & _ & _ & ? & _)]; lia. }
  assert ((addr + i) mod 4096 = 0) as Hm0 by lia.
  destruct (copy_image_ok kend m1 pg l n None _ (addr + i) _ (Z_of_byte <$> bytes) Himg Hva Hvn Hmu) as (m2 & E2 & Himg2 & Hw2); [lia|].
  rewrite Hm0, Z.add_0_r in E2.
  destruct Hb as [(-> & Hbs & Hpr' & Hlp)|(r & -> & Hne & _ & Hnp)]; apply wp_bind; (eapply wp_on_mem; [exact E2|]).
  - rewrite Z.eqb_refl. cbn [negb]. rewrite u32_small by lia. apply wp_ret. left. split; [done|].
    split; [done|]. split; [done|]. split; [done|]. cbn [mem]. split; [|by eapply within_trans].
    eapply image_ext; [exact Himg2|]. intros va _ _. rewrite part_app, overlay_app, length_part by (done || lia). by rewrite Hbs.
  - rewrite (proj2 (Z.eqb_neq _ _) Hne). cbn [negb]. apply wp_ret. right. split; [done|]. split; [done|]. split; [done|]. split; [done|].
    split; [by eexists|by eapply within_trans].
Qed.

Lemma loaduvm_ok m pg l n f d ip (x : F) p addr off sz :
  Z.of_nat (length d) < 2 ^ 31 → 0 ≤ addr → addr mod 4096 = 0 → 0 ≤ off < 2 ^ 32 → 0 ≤ sz → addr + sz ≤ n * 4096 →
  image kend m pg l n None f → locked ip d x →
  wp (loaduvm pg addr ip off sz) (λ r s',
    locked ip d (files s') ∧ cur s' = p ∧ within m pg l (mem s') l ∧
    ((r = 0 ∧ present d off sz ∧ image kend (mem s') pg l n None (overlay addr (part d off sz) f)) ∨
     (r = -1 ∧ ¬ present d off sz ∧ ∃ f', image kend (mem s') pg l n None f'))) (St m x p).
Proof.
  intros Hd Ha Hal Ho Hsz Hn Him Hl. pose proof (im_size _ _ _ _ _ _ _ Him) as Hns. unfold loaduvm. unfold PGSIZE. rewrite Hal. cbn [negb Z.eqb].
  eapply (wp_loop _ (λ i s, 0 ≤ i ∧ i mod 4096 = 0 ∧ i < sz + 4096 ∧ loading m pg l n f d ip p addr off (Z.min i sz) s) (λ i, Z.to_nat ((sz - i) / 4096 + 1))).
  - split; [lia|]. split; [done|]. split; [lia|]. rewrite Z.min_l by lia. split; [by left|]. split; [done|]. split; [done|]. split; [|apply within_refl].
    eapply image_ext; [exact Him|]. intros va _ _. unfold part. cbn. apply overlay_nil.
  - lia.
  - intros i s (Hi & Hm & Hlt & Hld). destruct (decide (i < sz)) as [Hc|Hc].
    + rewrite Z.min_l in Hld by lia. eapply wp_mono; [by apply (load_page_ok m pg l n f d ip p addr off sz i s); try lia|].
      cbv beta zeta. intros r s' [[-> Hld']|(-> & Hnp & ? & ? & (f' & ?) & ?)].
      * split; [|lia]. split; [lia|]. split; [lia|]. split; [lia|]. by replace (Z.min (i + 4096) sz) with (i + Z.min 4096 (sz - i)) by lia.
      * split; [done|]. split; [done|]. split; [done|]. right. split; [done|]. split; [|by exists f'].
        intros [->|Hp]; [lia|]. apply Hnp. right. lia.
    + rewrite Z.min_r in Hld by lia. destruct Hld as (? & ? & ? & ? & ?). unfold load_page. rewrite (proj2 (Z.ltb_ge i sz)) by lia. cbn [negb].
      apply wp_ret. split; [done|]. split; [done|]. split; [done|]. by left.
Qed.

(** * The loop over the program headers *)

Lemma u32_i32 z : u32 (i32 z) = u32 z.
Proof. unfold u32, i32, wrapu, wraps. change (2 ^ (32 - 1)) with 2147483648. change (2 ^ 32) with 4294967296. lia. Qed.
Lemma u32_add z k : u32 (z + k) = u32 (u32 z + k).
Proof. unfold u32, wrapu. change (2 ^ 32) with 4294967296. lia. Qed.

Lemma exhausted_more m pg l n n' : n ≤ n' → exhausted kend m pg l n → exhausted kend m pg l n'.
Proof. intros Hn. by apply exhausted_mono. Qed.

Section Segments.
Context (m0 : phys) (pg : Z) (l0 : list Z) (d : list byte) (e : elfhdr) (ip : nat) (p : proc).
Context (Hd : Z.of_nat (length d) < 2 ^ 31) (L : list Z) (HL : NoDup L) (HLa : ∀ u, u ∈ L → arena m0 pg l0 u).

(** The image so far, and an end without an image. *)
Definition built (q : loaded) (s : state F) : Prop :=
  locked ip d (files s) ∧ cur s = p ∧ 0 ≤ q.1 ∧ (∀ va, pages q.1 ≤ va / 4096 → q.2 va = 0) ∧
  ∃ l, image kend (mem s) pg l (pages q.1) None q.2 ∧ within m0 pg l0 (mem s) l.
Definition given_up (spec : option loaded) (s : state F) : Prop :=
  locked ip d (files s) ∧ cur s = p ∧ (∀ q, spec = Some q → Z.of_nat (length L) ≤ 1026 + pages q.1) ∧
  ∃ l, space kend (mem s) pg l ∧ within m0 pg l0 (mem s) l.

Lemma built_given_up q spec s : spec = None → built q s → given_up spec s.
Proof. intros -> (? & ? & _ & _ & l & Him & ?). split; [done|]. split; [done|]. split; [done|]. exists l. split; [apply Him|done]. Qed.

(** Growing the image for a segment. *)
Lemma grow_segment_ok sz f top s :
  built (sz, f) s → 0 ≤ top →
  wp (on_mem (allocuvm kend pg sz top)) (λ r s',
    (r = Z.max sz top ∧ top < KERNBASE ∧ built (r, f) s') ∨
    (r = 0 ∧ ∃ l, space kend (mem s') pg l ∧ within m0 pg l0 (mem s') l ∧ locked ip d (files s') ∧ cur s' = p ∧
       (top < KERNBASE → Z.of_nat (length L) ≤ 1026 + pages (Z.max sz top)))) s.
Proof.
  intros (Hlk & Hc & Hsz & Hz & l & Him & Hw) Htop. destruct s as [m1 x p']. cbn [mem files cur fst snd] in *.
  destruct (alloc_image kend Hkend m1 pg l sz top f Him Hsz Htop) as (r & m2 & l2 & E & Hw2 & Hr).
  eapply wp_on_mem; [exact E|]. assert (within m0 pg l0 m2 l2) as Hw' by by eapply within_trans.
  destruct Hr as [(-> & Hk & Him2)|(-> & Hsp & Hex)].
  - left. split; [done|]. split; [done|]. split; [done|]. split; [done|]. cbn [fst snd mem files cur]. split; [lia|].
    pose proof (pages_mono sz (Z.max sz top) ltac:(lia)). split; [intros va Hva; apply Hz; lia|].
    exists l2. split; [|done]. eapply image_ext; [exact Him2|]. intros va _ _. cbn. case_decide; [done|]. apply Hz. lia.
  - right. split; [done|]. exists l2. split; [done|]. split; [done|]. split; [done|]. split; [done|]. intros Hk.
    destruct Hex as [?|Hex]; [lia|]. pose proof (pages_mono sz (Z.max sz top) ltac:(lia)) as Hm1. pose proof (pages_mono top (Z.max sz top) ltac:(lia)) as Hm2.
    pose proof (im_size _ _ _ _ _ _ _ Him). pose proof (im_none _ _ _ _ _ _ _ Him) as Hnone.
    apply (exhausted_bound kend m1 pg l (pages (Z.max sz top)) L); [by apply (exhausted_more _ _ _ (pages top))| | |done|].
    + unfold pages in *. unfold KERNBASE in Hk. lia.
    + intros vb Hvb Hge. apply Hnone; [done|lia].
    + intros u Hu. apply (proj1 Hw). by apply HLa.
Qed.

(** The cases of a segment. *)
Lemma add_segment_Some ph q q' : ph_type ph = ELF_PROG_LOAD →
  add_segment d ph q = Some q' ↔
  loadable d ph ∧ Z.max q.1 (ph_vaddr ph + ph_memsz ph) ≠ 0 ∧
  q' = (Z.max q.1 (ph_vaddr ph + ph_memsz ph), overlay (ph_vaddr ph) (segment_bytes d ph) q.2).
Proof.
  intros Ht. unfold add_segment. rewrite decide_True, option_guard_decide by done. cbv zeta.
  destruct (decide (loadable d ph)) as [Hl|Hl]; [|split; [done|by intros [? _]]].
  rewrite option_guard_decide. destruct (decide (Z.max q.1 (ph_vaddr ph + ph_memsz ph) ≠ 0)) as [Hz|Hz]; [|split; [done|by intros (_ & ? & _)]].
  split; [by intros [= <-]|by intros (_ & _ & ->)].
Qed.
Lemma add_segment_None ph q : ph_type ph = ELF_PROG_LOAD →
  ¬ (loadable d ph ∧ Z.max q.1 (ph_vaddr ph + ph_memsz ph) ≠ 0) → add_segment d ph q = None.
Proof. intros Ht Hn. apply eq_None_not_Some. intros (q' & Hq'%add_segment_Some); [|done]. apply Hn. intuition. Qed.

(** One turn. *)
Lemma load_segment_ok i off sz f spec s :
  spec = (ph ← segment_header d e i; add_segment d ph (sz, f)) →
  built (sz, f) s → u32 off = u32 (phoff e + i * sizeof_proghdr) → i < phnum e →
  wp (load_segment kend pg ip (phnum e) (i, off, sz)) (λ r s',
    (∃ off' q, r = inl (i + 1, off', q.1) ∧ spec = Some q ∧ u32 off' = u32 (phoff e + (i + 1) * sizeof_proghdr) ∧ built q s') ∨
    (r = inr None ∧ given_up spec s')) s.
Proof.
  intros Hspec Hb Hoff Hi. destruct Hb as (Hlk & Hc & Hrest) eqn:Eb. assert (built (sz, f) s) as Hb' by done. clear Eb Hb.
  assert (u32 (i32 (off + sizeof_proghdr)) = u32 (phoff e + (i + 1) * sizeof_proghdr)) as Hoff'.
  { rewrite u32_i32, u32_add, Hoff, <- u32_add. f_equal. unfold sizeof_proghdr. lia. }
  unfold load_segment. rewrite (proj2 (Z.ltb_lt i _)) by done. cbn [negb]. cbv zeta.
  pose proof (wrapu_range 32 off ltac:(lia)) as Hu. fold u32 in Hu. destruct s as [m1 x p1]. cbn [files mem cur] in *.
  apply wp_bind. apply (wp_readi ip d); [done|done|unfold sizeof_proghdr; lia|]. intros y Hy.
  set (s1 := St m1 y p1). assert (built (sz, f) s1) as Hb by (by split). clear Hb' Hrest.
  pose proof (read_header d (u32 off) sizeof_proghdr ltac:(lia) ltac:(done) Hd) as Hrd. unfold segment_header in Hspec. rewrite <- Hoff in Hspec.
  destruct (bytes_at d (u32 off) sizeof_proghdr) as [bs|] eqn:Ebs; cbn [fmap option_fmap option_map mbind option_bind] in Hspec.
  2:{ destruct (read_result _ _ _) as [r bs']. cbn [fst] in Hrd. rewrite (proj2 (Z.eqb_neq _ _) Hrd). cbn [negb]. apply wp_ret. right.
      split; [done|]. by eapply built_given_up. }
  rewrite Hrd, Z.eqb_refl. cbn [negb]. set (ph := load_proghdr bs) in *.
  destruct (Z.eqb_spec (ph_type ph) ELF_PROG_LOAD) as [Ht|Ht]; cbn [negb].
  2:{ apply wp_ret. left. eexists _, (sz, f). unfold add_segment in Hspec. by rewrite decide_False in Hspec. }
  assert (0 ≤ ph_vaddr ph < 2 ^ 32 ∧ 0 ≤ ph_off ph < 2 ^ 32 ∧ 0 ≤ ph_filesz ph < 2 ^ 32 ∧ 0 ≤ ph_memsz ph < 2 ^ 32) as (Hv & Ho & Hfs & Hms) by (unfold ph, load_proghdr; cbn; split_and!; apply field_range).
  destruct (Z.ltb_spec (ph_memsz ph) (ph_filesz ph)).
  { apply wp_ret. right. split; [done|]. eapply built_given_up; [rewrite Hspec; apply add_segment_None; [done|]|done]. intros [(? & _) _]. lia. }
  destruct (decide (2 ^ 32 ≤ ph_vaddr ph + ph_memsz ph)) as [Hov|Hov].
  { assert (u32 (ph_vaddr ph + ph_memsz ph) < ph_vaddr ph) as Hlt by (unfold u32, wrapu; lia). rewrite (proj2 (Z.ltb_lt _ _) Hlt).
    apply wp_ret. right. split; [done|]. eapply built_given_up; [rewrite Hspec; apply add_segment_None; [done|]|done]. intros [(? & ? & _) _]. unfold KERNBASE in *. lia. }
  rewrite u32_small by lia. rewrite (proj2 (Z.ltb_ge _ (ph_vaddr ph))) by lia. set (top := ph_vaddr ph + ph_memsz ph) in *.
  apply wp_bind. eapply wp_mono; [apply (grow_segment_ok sz f top); [done|lia]|]. intros sz' s2 [(-> & Hk & Hb2)|(-> & l2 & Hsp2 & Hw2 & Hl2 & Hc2 & Hex)].
  2:{ cbn [Z.eqb]. apply wp_ret. right. split; [done|]. split; [done|]. split; [done|]. split; [|by exists l2].
      intros q Hq. rewrite Hspec in Hq. apply add_segment_Some in Hq as ((_ & Hk & _) & _ & ->); [|done]. by apply Hex. }
  destruct (Z.eqb_spec (Z.max sz top) 0) as [Hz|Hz].
  { apply wp_ret. right. split; [done|]. eapply built_given_up; [rewrite Hspec; apply add_segment_None; [done|]|done]. by intros [_ Hn]. }
  destruct (Z.eqb_spec (ph_vaddr ph mod PGSIZE) 0) as [Hal|Hal]; cbn [negb].
  2:{ apply wp_ret. right. split; [done|]. eapply built_given_up; [rewrite Hspec; apply add_segment_None; [done|]|done]. by intros [(? & ? & ? & _) _]. }
  destruct Hb2 as (Hl2 & Hc2 & Hnn & Hz2 & l2 & Him2 & Hw2). destruct s2 as [m2 x2 p2]. cbn [files mem cur fst snd] in *. subst p2.
  assert (Z.max sz top ≤ pages (Z.max sz top) * 4096) as Hpg by (unfold pages; lia).
  apply wp_bind. eapply wp_mono; [apply (loaduvm_ok m2 pg l2 (pages (Z.max sz top)) f d ip x2 p); try done; lia|].
  intros r s3 (Hl3 & Hc3 & Hw3 & [(-> & Hpr & Him3)|(-> & Hnp & f' & Him3)]).
  - cbn [Z.ltb Z.compare]. apply wp_ret. left. eexists _, (Z.max sz top, _). split; [done|]. split; [|split; [done|]].
    + rewrite Hspec. apply add_segment_Some; [done|]. by split_and!.
    + split; [done|]. split; [done|]. cbn [fst snd]. split; [done|]. split; [|exists l2; split; [exact Him3|by eapply within_trans]].
      intros va Hva. unfold overlay, segment_bytes. rewrite length_fmap, length_take, length_drop. rewrite decide_False by (unfold pages in Hva; lia). by apply Hz2.
  - cbn [Z.ltb Z.compare]. apply wp_ret. right. split; [done|]. rewrite Hspec, add_segment_None; [|done|by intros [(? & ? & ? & ?) _]].
    split; [done|]. split; [done|]. split; [done|]. exists l2. split; [apply Him3|by eapply within_trans].
Qed.

(** The image only grows. *)
Lemma add_segments_grow i n q q' : add_segments d e i n q = Some q' → q.1 ≤ q'.1.
Proof.
  revert i q. induction n as [|n IH]; intros i q; cbn [add_segments]; [by intros [= ->]|].
  intros (ph & _ & (q1 & Hq & Hr)%bind_Some)%bind_Some. apply IH in Hr. enough (q.1 ≤ q1.1) by lia. unfold add_segment in Hq.
  case_decide; [|by injection Hq as ->]. apply bind_Some in Hq as (? & _ & (? & _ & [= <-])%bind_Some). cbn. lia.
Qed.

Lemma segments_ok n : ∀ i off q s,
  built q s → u32 off = u32 (phoff e + i * sizeof_proghdr) → phnum e = i + Z.of_nat n →
  wp (loop (n + 1) (load_segment kend pg ip (phnum e)) (i, off, q.1)) (λ r s',
    (∃ q', r = Some q'.1 ∧ add_segments d e i n q = Some q' ∧ built q' s') ∨ (r = None ∧ given_up (add_segments d e i n q) s')) s.
Proof.
  induction n as [|n IH]; intros i off [sz f] s Hb Hoff Hn; cbn [fst Nat.add loop].
  - unfold load_segment. rewrite (proj2 (Z.ltb_ge i _)) by lia. cbn [negb]. do 2 apply wp_ret. left. by exists (sz, f).
  - apply wp_bind. eapply wp_mono; [by eapply load_segment_ok; [done..|lia]|]. cbn [add_segments].
    intros r s' [(off' & q & -> & Hq & Hoff' & Hb')|(-> & Hg)].
    + destruct (segment_header d e i) as [ph|]; [|done]. cbn [mbind option_bind] in Hq |- *. rewrite Hq. cbn [mbind option_bind].
      apply IH; [done|done|lia].
    + apply wp_ret. right. split; [done|]. destruct Hg as (? & ? & Hex & ?). split; [done|]. split; [done|]. split; [|done].
      intros q' (ph & Hph & (q1 & Hq1 & Hr)%bind_Some)%bind_Some. assert (q1.1 ≤ q'.1) as Hle by by eapply add_segments_grow.
      apply pages_mono in Hle. enough (Z.of_nat (length L) ≤ 1026 + pages q1.1) by lia. apply Hex. rewrite Hph. done.
Qed.

End Segments.

End Load.
End ExecLoad.
