(* ===== verification/ExecCorrect.v ===== *)
(** ExecCorrect: [exec] either replaces the process as planned, with every page of
    the old image free again, or answers -1 and leaves the process as it was; for
    a good program it fails only when memory is short. *)
From Stdlib Require Import Strings.Byte.
From S2P Require Import Prelude Memory Kalloc Vm VmMap VmSpace VmUser VmBytes Exec ExecSpec ExecLoad.
From stdpp Require Import gmap.
Local Open Scope Z_scope.

Module ExecCorrect.
Import Kalloc Vm VmMap VmSpace VmUser VmKernel VmBytes Exec ExecSpec ExecLoad.
Ltac Zify.zify_post_hook ::= Z.to_euclidean_division_equations.

(** * The stack *)

Lemma align4 z : 0 ≤ z < 2 ^ 32 → Z.land z (u32 (Z.lnot 3)) = z / 4 * 4.
Proof.
  intros Hz. change (u32 (Z.lnot 3)) with (Z.land (Z.ones 32) (Z.lnot (Z.ones 2))).
  rewrite Z.land_assoc, Z.land_ones, Z.mod_small, <- Z.ldiff_land, Z.ldiff_ones_r by lia.
  by rewrite Z.shiftr_div_pow2, Z.shiftl_mul_pow2 by lia.
Qed.

Lemma length_word_bytes ws : length (word_bytes ws) = (4 * length ws)%nat.
Proof.
  unfold word_bytes. induction ws as [|w ws IH]; [done|]. rewrite fmap_cons. cbn [concat length].
  rewrite length_app, IH, length_fmap, length_le_encode. lia.
Qed.

Lemma push_ptrs lo argv : ∀ sp ptrs f sp' ptrs' f', push lo sp argv ptrs f = Some (sp', ptrs', f') →
  length ptrs' = (length ptrs + length argv)%nat.
Proof.
  induction argv as [|s argv IH]; intros sp ptrs f sp' ptrs' f'; cbn [push].
  - intros [= _ <- _]. cbn. lia.
  - cbv zeta. rewrite option_guard_decide. case_decide; [|done]. intros E%IH. rewrite E, length_app. cbn. lia.
Qed.

Section Correct.
Context {F : Type} `{Inodes F} (contents : list byte → option (list byte)) `{!Files F contents}.
Context (kend kdata : Z) (Hkend : KERNBASE < kend) (Hkdata : kdata mod 4096 = 0 ∧ KERNLINK < kdata < KERNBASE + PHYSTOP).

Lemma push_args_ok pg l k argv : ∀ argc sp ptrs f m (x : F) p,
  image kend m pg l (k + 2) (Some k) f → 0 ≤ k → 0 ≤ argc ≤ 32 → Forall (λ s, length s < 4096)%nat argv →
  (k + 1) * 4096 ≤ sp ≤ (k + 2) * 4096 → sp mod 4 = 0 →
  wp (push_args pg argc sp argv ptrs) (λ r s', files s' = x ∧ cur s' = p ∧ within m pg l (mem s') l ∧
    match r with
    | Some (sp', ptrs') => ∃ f', push ((k + 1) * 4096) sp argv ptrs f = Some (sp', ptrs', f') ∧ argc + Z.of_nat (length argv) ≤ 32 ∧
        image kend (mem s') pg l (k + 2) (Some k) f' ∧ (k + 1) * 4096 ≤ sp' ≤ (k + 2) * 4096
    | None => (push ((k + 1) * 4096) sp argv ptrs f = None ∨ 32 < argc + Z.of_nat (length argv)) ∧ ∃ f', image kend (mem s') pg l (k + 2) (Some k) f'
    end) (St m x p).
Proof.
  induction argv as [|s argv IH]; intros argc sp ptrs f m x p Him Hk Hac Hargv Hsp Hm4; cbn [push_args push].
  - apply wp_ret. split; [done|]. split; [done|]. split; [apply within_refl|]. exists f. split; [done|]. split; [cbn; lia|done].
  - apply Forall_cons in Hargv as [Hs Hargv]. pose proof (im_size _ _ _ _ _ _ _ Him). unfold MAXARG. cbv zeta. destruct (Z.leb_spec 32 argc).
    { apply wp_ret. split; [done|]. split; [done|]. split; [apply within_refl|]. split; [right; cbn [length]; lia|by exists f]. }
    rewrite (u32_small (sp - _)), align4 by lia. set (sp' := (sp - (Z.of_nat (length s) + 1)) / 4 * 4).
    assert (Z.of_nat (length (Z_of_byte <$> s ++ [x00])) = Z.of_nat (length s) + 1) as Hl by (rewrite length_fmap, length_app; cbn; lia).
    destruct (copyout_ok kend m pg l (k + 2) (Some k) f sp' (Z_of_byte <$> s ++ [x00]) Him) as (r & m' & f' & E & Him' & Hw & Hr); [lia|lia|].
    rewrite option_guard_decide. apply wp_bind. eapply wp_on_mem; [exact E|]. case_decide as Hlo.
    + destruct Hr as [(-> & Hf' & _)|(_ & i & Hi & [= ->])]; [|lia]. cbn [Z.ltb Z.compare].
      eapply wp_mono; [apply (IH (argc + 1) sp' (ptrs ++ [sp']) (overlay sp' (Z_of_byte <$> s ++ [x00]) f))|].
      * eapply image_ext; [exact Him'|]. intros va _ _. by rewrite Hf'.
      * done.
      * lia.
      * done.
      * lia.
      * unfold sp'. lia.
      * intros r s' (? & ? & ? & Hres). split; [done|]. split; [done|]. split; [by eapply within_trans|]. cbn [length].
        destruct r as [[sp2 ptrs2]|]; [destruct Hres as (f2 & ? & ? & ? & ?); exists f2; split; [done|]; split; [lia|done]|].
        destruct Hres as [[?|?] ?]; (split; [|done]); [by left|right; lia].
    + destruct Hr as [(_ & _ & Hg)|(-> & _)].
      { exfalso. apply (Hg sp'); [lia|]. f_equal. lia. }
      cbn [Z.ltb Z.compare]. apply wp_ret. split; [done|]. split; [done|]. split; [done|]. split; [by left|by exists f'].
Qed.

(** * Giving up, and going over to the new image *)

Lemma owns_not_free m pg l u : space kend m pg l → owns m pg u → u ∉ l.
Proof.
  intros [Hv _ Hu _] [->|[[va Ht]|(va & Hva & Hm)]]; [apply (vo_dir _ _ _ Hv)|by destruct (table_page m pg l Hv va u Ht) as (_ & _ & ? & _)|].
  by destruct (Hu va u Hva Hm).
Qed.

Section Old.
Context (m0 : phys) (p : proc) (l0 : list Z) (Hold : space kend m0 (x_pgdir p) l0).

(** Memory in which only free pages of [m0] were used. *)
Definition fresh (m : phys) : Prop := same_outside m0 m (λ u, u ∈ l0).

(** The process is as before, the file system is idle, and the free pages are the
    same. *)
Definition unchanged (s : state F) : Prop :=
  cur s = p ∧ idle (files s) ∧ ∃ l, l ≡ₚ l0 ∧ space kend (mem s) (x_pgdir p) l ∧
    ∀ n g f, image kend m0 (x_pgdir p) l0 n g f → image kend (mem s) (x_pgdir p) l n g f.

Lemma old_apart u : owns m0 (x_pgdir p) u → u ∉ l0.
Proof. by apply owns_not_free. Qed.

Lemma old_frame m l : free_list kend m l → (∀ u, u ∈ l → u ∈ l0) → fresh m →
  ∀ u, owns m0 (x_pgdir p) u → (u ∉ l) ∧ frames m !! u = frames m0 !! u.
Proof. intros Hl Hin Hf u Hu%old_apart. split; [auto|by apply Hf]. Qed.

Lemma unchanged_ok m l x : free_list kend m l → (∀ u, u ∈ l ↔ u ∈ l0) → fresh m → idle x → unchanged (St m x p).
Proof.
  intros Hl Hin Hf Hx. pose proof (old_frame m l Hl (λ u, proj1 (Hin u)) Hf) as Ho. split; [done|]. split; [done|]. exists l. cbn [mem files cur].
  split; [apply NoDup_Permutation; [apply Hl|apply (vo_nodup _ _ _ (sp_vm _ _ _ _ Hold))|done]|].
  split; [by apply (space_frame kend m0 m _ l0 l)|]. intros n g f Him. by apply (image_frame kend m0 m _ l0 l).
Qed.

(** [bad] with and without the file. *)
Definition inode_held (ip : option nat) (x : F) : Prop := match ip with Some ip => ∃ d, locked ip d x | None => idle x end.

Lemma put_inode_back_ok ip m x Q : inode_held ip x → (∀ y, idle y → Q (-1) (St m y p)) →
  wp (do! (match ip with Some ip => do! on_fs (iunlockput ip) in on_fs end_op | None => ret tt end) in ret (-1)) Q (St m x p).
Proof.
  destruct ip as [ip|]; cbn [inode_held]; [intros [d Hl]|intros Hx]; intros HQ.
  - do 2 apply wp_bind. apply wp_on_fs. eapply wp_mono; [by eapply iunlockput_law|]. intros [] y Hy.
    apply wp_on_fs. eapply wp_mono; [by apply end_op_law|]. intros [] z Hz. apply wp_ret. by apply HQ.
  - apply wp_bind, wp_ret, wp_ret. by apply HQ.
Qed.

Lemma bad_none_ok ip m l x : free_list kend m l → (∀ u, u ∈ l ↔ u ∈ l0) → fresh m → inode_held ip x →
  wp (bad kend 0 ip) (λ r s', r = -1 ∧ unchanged s') (St m x p).
Proof.
  intros Hl Hin Hf Hx. unfold bad. rewrite Z.eqb_refl. apply wp_bind, wp_ret. apply put_inode_back_ok; [done|].
  intros y Hy. split; [done|]. by eapply unchanged_ok.
Qed.

Lemma bad_ok ip m pg l x : space kend m pg l → (∀ u, arena m pg l u ↔ u ∈ l0) → fresh m → inode_held ip x →
  wp (bad kend pg ip) (λ r s', r = -1 ∧ unchanged s') (St m x p).
Proof.
  intros Hsp Har Hf Hx. assert (pg ≠ 0) as Hnz by (destruct (sp_page _ _ _ _ Hsp pg) as [[(_ & _ & _ & ?) _] _]; [right; by left|done]).
  destruct (freevm_ok kend Hkend m pg l Hsp) as (m' & l' & E & Hl' & Hin' & Hout). unfold bad. rewrite (proj2 (Z.eqb_neq _ _) Hnz).
  apply wp_bind. eapply wp_on_mem; [exact E|]. apply put_inode_back_ok; [done|].
  intros y Hy. split; [done|]. apply (unchanged_ok m' l'); [done|intros u; by rewrite Hin'| |done].
  intros u Hu. rewrite Hout; [by apply Hf|by rewrite Har].
Qed.

(** The process with the image of the plan. *)
Definition replaced (path : list byte) (t : start) (s : state F) : Prop :=
  idle (files s) ∧ ∃ pg l,
    cur s = Proc (safestrcpy (name p) (last_element path path) 16) pg (s_size t) (s_entry t) (s_sp t) ∧
    image kend (mem s) pg l (s_size t / 4096) (Some (guard_page t)) (s_bytes t) ∧
    ∀ u, arena (mem s) pg l u ↔ arena m0 (x_pgdir p) l0 u.

Lemma replace_image_ok m pg l n g f : image kend m pg l n g f → (∀ u, arena m pg l u ↔ u ∈ l0) → fresh m →
  ∃ m' l', freevm kend (x_pgdir p) m = Ok tt m' ∧ image kend m' pg l' n g f ∧ ∀ u, arena m' pg l' u ↔ arena m0 (x_pgdir p) l0 u.
Proof.
  intros Him Har Hf. pose proof (im_space _ _ _ _ _ _ _ Him) as Hsp.
  assert (∀ u, u ∈ l → u ∈ l0) as Hl0 by (intros u Hu; apply Har; by left).
  destruct (space_frame kend m0 m (x_pgdir p) l0 l Hold) as [Hsp0 Hs0]; [by eapply space_free_list|by apply old_frame; [eapply space_free_list|..]|].
  destruct (freevm_ok kend Hkend m (x_pgdir p) l Hsp0) as (m' & l' & E & Hl' & Hin' & Hout).
  assert (∀ u, owns m pg u → (u ∉ l') ∧ frames m' !! u = frames m !! u) as Hown.
  { intros u Hu. assert (¬ arena m (x_pgdir p) l u) as Hn; [|split; [by rewrite Hin'|by apply Hout]].
    intros [Hul|Huo]; [by apply (owns_not_free m pg l u)|]. apply (same_maps_owns m0 m _ u Hs0) in Huo. apply (old_apart u Huo). apply Har. by right. }
  exists m', l'. split; [done|]. split; [by apply (image_frame kend m m' pg l l')|].
  destruct (space_frame kend m m' pg l l' Hsp Hl' Hown) as [_ Hs]. intros u. unfold arena.
  rewrite (same_maps_owns m m' pg u Hs), Hin', <- Har. unfold arena. rewrite (same_maps_owns m0 m _ u Hs0). tauto.
Qed.

(** * The steps of [exec] *)

(** What is left when the program has been loaded; [with_stack] says whether the
    stack fits. *)
Definition outcome (path : list byte) (spec : option start) (r : Z) (s : state F) : Prop :=
  match spec with
  | Some t => (r = 0 ∧ replaced path t s) ∨ (r = -1 ∧ unchanged s ∧ Z.of_nat (length l0) ≤ 1026 + s_size t / 4096)
  | None => r = -1 ∧ unchanged s
  end.

(** The pages of the new image come from the free list. *)
Lemma fresh_within m pg l m' l' : (∀ u, arena m pg l u ↔ u ∈ l0) → fresh m → within m pg l m' l' →
  (∀ u, arena m' pg l' u ↔ u ∈ l0) ∧ fresh m'.
Proof.
  intros Har Hf [Hw Ho]. split; [intros u; by rewrite Hw|]. intros u Hu. rewrite Ho by by rewrite Har. by apply Hf.
Qed.

Definition top_frame (k : Z) (argv : list (list byte)) (q : option (Z * list Z * (Z → Z))) : option (Z * list Z * (Z → Z)) :=
  '(sp, ptrs, f) ← q;
  let sp' := sp - (4 + Z.of_nat (length argv)) * 4 in
  guard ((length argv ≤ 32)%nat ∧ (k + 1) * 4096 ≤ sp');;
  Some (sp', ptrs, overlay sp' (word_bytes (frame sp ptrs)) f).

Lemma push_frame_ok m pg l k f sp ptrs (argc : nat) :
  image kend m pg l (k + 2) (Some k) f → 0 ≤ k → (k + 1) * 4096 ≤ sp ≤ (k + 2) * 4096 → length ptrs = argc → (argc ≤ 32)%nat →
  let sp' := sp - (4 + Z.of_nat argc) * 4 in
  ∃ r m' f', copyout pg sp' (word_bytes (frame sp ptrs)) m = Ok r m' ∧ image kend m' pg l (k + 2) (Some k) f' ∧ within m pg l m' l ∧
    if decide ((k + 1) * 4096 ≤ sp') then r = 0 ∧ ∀ i, f' i = overlay sp' (word_bytes (frame sp ptrs)) f i else r = -1.
Proof.
  intros Him Hk Hsp Hl Ha sp'. assert (Z.of_nat (length (word_bytes (frame sp ptrs))) = (4 + Z.of_nat argc) * 4) as Hlen.
  { rewrite length_word_bytes. unfold frame. cbn [length app]. rewrite length_app, Hl. cbn. lia. }
  destruct (copyout_ok kend m pg l (k + 2) (Some k) f sp' (word_bytes (frame sp ptrs)) Him) as (r & m' & f' & E & Him' & Hw & Hr); [lia..|].
  exists r, m', f'. split; [done|]. split; [done|]. split; [done|]. case_decide as D.
  - destruct Hr as [(? & ? & _)|(_ & i & Hi & [= ->])]; [done|lia].
  - destruct Hr as [(_ & _ & Hg)|(? & _)]; [|done]. exfalso. apply (Hg sp'); [lia|]. f_equal. lia.
Qed.

(** The arguments and the frame, in an image that has its stack and its guard. *)
Lemma stack_ok path argv pg l en k f m x :
  image kend m pg l (k + 2) (Some k) f → 0 ≤ k → (∀ u, arena m pg l u ↔ u ∈ l0) → fresh m → idle x → Forall (λ s, length s < 4096)%nat argv →
  wp (let! r := push_args pg 0 ((k + 2) * 4096) argv [] in
      match r with
      | None => bad kend pg None
      | Some (sp, ptrs) =>
          let! r := on_mem (copyout pg (u32 (sp - (3 + Z.of_nat (length argv) + 1) * 4))
                              (word_bytes ([0xffffffff; Z.of_nat (length argv); u32 (sp - (Z.of_nat (length argv) + 1) * 4)] ++ ptrs ++ [0]))) in
          if r <? 0 then bad kend pg None else
          let! s := gets id in
          do! set_cur (Proc (safestrcpy (name (cur s)) (last_element path path) 16) pg ((k + 2) * 4096) en (u32 (sp - (3 + Z.of_nat (length argv) + 1) * 4))) in
          do! switchuvm pg in
          do! on_mem (freevm kend (x_pgdir (cur s))) in
          ret 0
      end)
    (λ r s', match top_frame k argv (push ((k + 1) * 4096) ((k + 2) * 4096) argv [] f) with
             | Some (sp', _, f') => r = 0 ∧ replaced path (Start ((k + 2) * 4096) en sp' f') s'
             | None => r = -1 ∧ unchanged s'
             end) (St m x p).
Proof.
  intros Him Hk Har Hf Hx Hargv. pose proof (im_size _ _ _ _ _ _ _ Him) as Hn.
  assert (∀ m' f' Q, image kend m' pg l (k + 2) (Some k) f' → within m pg l m' l → (∀ s', unchanged s' → Q (-1) s') → wp (bad kend pg None) Q (St m' x p)) as Hbad.
  { intros m' f' Q Him' Hw HQ. destruct (fresh_within m pg l m' l Har Hf Hw) as [Har' Hf'].
    eapply wp_mono; [apply (bad_ok None m' pg l x); try done; apply Him'|]. intros r s' [-> ?]. by apply HQ. }
  apply wp_bind. eapply wp_mono; [by apply (push_args_ok pg l k argv 0 ((k + 2) * 4096) [] f m x p); try lia|].
  intros r [m1 x1 p1] (Hx1 & Hp1 & Hw1 & Hr). cbn [files cur mem] in *. subst x1 p1.
  destruct r as [[sp ptrs]|].
  2:{ destruct Hr as [Hr [f' Him']]. eapply Hbad; [done|done|]. intros s' Hs'.
      assert (top_frame k argv (push ((k + 1) * 4096) ((k + 2) * 4096) argv [] f) = None) as ->; [|done].
      unfold top_frame. destruct Hr as [->|Hr]; [done|]. destruct (push _ _ _ _ _) as [[[? ?] ?]|]; [|done]. cbn [mbind option_bind].
      rewrite option_guard_False; [done|]. lia. }
  destruct Hr as (f1 & Hpush & Hac & Him1 & Hsp). pose proof (push_ptrs _ _ _ _ _ _ _ _ Hpush) as Hlp. cbn [length Nat.add] in Hlp.
  destruct (push_frame_ok m1 pg l k f1 sp ptrs (length argv) Him1 Hk Hsp Hlp ltac:(lia)) as (r & m2 & f2 & E & Him2 & Hw2 & Hr).
  rewrite !u32_small by lia. replace (sp - (3 + Z.of_nat (length argv) + 1) * 4) with (sp - (4 + Z.of_nat (length argv)) * 4) by lia.
  assert ([0xffffffff; Z.of_nat (length argv); sp - (Z.of_nat (length argv) + 1) * 4] ++ ptrs ++ [0] = frame sp ptrs) as -> by (unfold frame; by rewrite Hlp).
  apply wp_bind. eapply wp_on_mem; [exact E|]. rewrite Hpush. unfold top_frame. cbn [mbind option_bind]. rewrite option_guard_decide.
  assert (within m pg l m2 l) as Hw by by eapply within_trans. revert Hr. case_decide as D; intros Hr.
  - destruct Hr as [-> Hf2]. rewrite decide_True by (split; [lia|done]). cbn [Z.ltb Z.compare].
    apply wp_bind, wp_gets. cbn [id cur]. apply wp_bind, wp_modify. cbn [mem files cur].
    assert (pg ≠ 0) as Hnz by (destruct (sp_page _ _ _ _ (im_space _ _ _ _ _ _ _ Him) pg) as [[(_ & _ & _ & ?) _] _]; [right; by left|done]).
    unfold switchuvm. rewrite (proj2 (Z.eqb_neq _ _) Hnz). apply wp_bind, wp_ret.
    destruct (fresh_within m pg l m2 l Har Hf Hw) as [Har' Hf'].
    destruct (replace_image_ok m2 pg l _ _ _ Him2 Har' Hf') as (m3 & l3 & E3 & Him3 & Har3).
    apply wp_bind. eapply wp_on_mem; [exact E3|]. apply wp_ret. split; [done|]. split; [done|]. exists pg, l3. cbn [s_size s_entry s_sp s_bytes cur mem].
    split; [done|]. split; [|done]. unfold guard_page. cbn [s_size]. rewrite Z.div_mul by lia. replace (k + 2 - 2) with k by lia.
    eapply image_ext; [exact Him3|]. intros va _ _. by rewrite Hf2.
  - subst r. rewrite decide_False by (by intros [_ ?]). cbn [Z.ltb Z.compare]. by eapply Hbad.
Qed.

Lemma with_stack_eq en sz f argv : with_stack en (sz, f) argv =
  if decide ((pages sz + 2) * 4096 < KERNBASE) then
    match top_frame (pages sz) argv (push ((pages sz + 1) * 4096) ((pages sz + 2) * 4096) argv [] f) with
    | Some (sp', _, f') => Some (Start ((pages sz + 2) * 4096) en sp' f')
    | None => None
    end
  else None.
Proof.
  unfold with_stack, top_frame. cbv zeta. cbn [fst snd]. rewrite option_guard_decide.
  replace (pages sz * 4096 + 8192) with ((pages sz + 2) * 4096) by lia.
  replace ((pages sz + 2) * 4096 - 4096) with ((pages sz + 1) * 4096) by lia. case_decide; [|done].
  destruct (push _ _ _ _ _) as [[[sp ptrs] f']|]; [|done]. cbn [mbind option_bind]. rewrite !option_guard_decide. by case_decide.
Qed.

(** From the end of the loading on. *)
Lemma exec_stack_ok path argv pg l en sz f m x :
  image kend m pg l (pages sz) None f → 0 ≤ sz → (∀ va, pages sz ≤ va / 4096 → f va = 0) →
  (∀ u, arena m pg l u ↔ u ∈ l0) → fresh m → idle x → Forall (λ s, length s < 4096)%nat argv →
  wp (exec_stack kend path argv pg en sz) (outcome path (with_stack en (sz, f) argv)) (St m x p).
Proof.
  intros Him Hsz Hz Har Hf Hx Hargv. pose proof (im_size _ _ _ _ _ _ _ Him) as Hn. set (k := pages sz) in *.
  assert (sz ≤ k * 4096) by (unfold k, pages; lia). unfold exec_stack. cbv zeta. rewrite PGROUNDUP_pages by lia. fold k.
  assert (pages (k * 4096) = k) as Ek by (unfold pages; lia). unfold PGSIZE. rewrite u32_small by lia.
  rewrite <- Ek in Him. destruct (alloc_image kend Hkend m pg l (k * 4096) (k * 4096 + 2 * 4096) f Him) as (r & m1 & l1 & E & Hw & Hr); [lia..|].
  destruct (fresh_within m pg l m1 l1 Har Hf Hw) as [Har1 Hf1]. apply wp_bind. eapply wp_on_mem; [exact E|]. rewrite with_stack_eq. fold k.
  rewrite Ek in *. destruct Hr as [(-> & Hk & Him1)|(-> & Hsp & Hex)].
  - rewrite Z.max_r in * by lia. replace (k * 4096 + 2 * 4096) with ((k + 2) * 4096) in * by lia. rewrite (proj2 (Z.eqb_neq _ _)) by lia.
    replace (pages ((k + 2) * 4096)) with (k + 2) in Him1 by (unfold pages; lia).
    replace ((k + 2) * 4096 - 2 * 4096) with (k * 4096) by lia. rewrite u32_small by lia.
    destruct (clearpteu_ok kend m1 pg l1 (k + 2) _ k Him1) as (m2 & E2 & Him2 & Hw2); [lia|].
    destruct (fresh_within m1 pg l1 m2 l1 Har1 Hf1 Hw2) as [Har2 Hf2]. apply wp_bind. eapply wp_on_mem; [exact E2|].
    rewrite decide_True by done. apply (image_ext kend m2 pg l1 _ _ _ f) in Him2; [|intros va _ _; case_decide; [done|apply Hz; lia]].
    eapply wp_mono; [by apply (stack_ok path argv pg l1 en k f m2 x); try lia|]. intros r s'. cbv beta.
    destruct (top_frame _ _ _) as [[[sp' ?] f']|]; unfold outcome; [by left|done].
  - cbn [Z.eqb]. eapply wp_mono; [by apply (bad_ok None m1 pg l1 x)|]. intros r s' [-> Hs']. unfold outcome. case_decide as D; [|done].
    destruct (top_frame _ _ _) as [[[sp' ?] f']|]; [|done]. right. split; [done|]. split; [done|]. cbn [s_size]. rewrite Z.div_mul by lia.
    destruct Hex as [?|Hex]; [unfold KERNBASE in *; lia|]. unfold KERNBASE in D. replace (pages (k * 4096 + 2 * 4096)) with (k + 2) in Hex by (unfold pages; lia).
    apply (exhausted_bound kend m pg l (k + 2) l0 Hex); [lia| |apply (vo_nodup _ _ _ (sp_vm _ _ _ _ Hold))|intros u Hu; by apply Har].
    intros vb Hvb Hge. apply (im_none _ _ _ _ _ _ _ Him); [done|lia].
Qed.

(** The stack only adds to the size. *)
Lemma with_stack_size en q argv t : 0 ≤ q.1 → with_stack en q argv = Some t → pages q.1 ≤ s_size t / 4096.
Proof.
  destruct q as [sz f]. rewrite with_stack_eq. case_decide; [|done]. destruct (top_frame _ _ _) as [[[? ?] ?]|]; [|done].
  intros _ [= <-]. cbn [s_size fst]. rewrite Z.div_mul by lia. lia.
Qed.

(** A failure before the stack. *)
Lemma no_program path spec r s : r = -1 ∧ unchanged s → (∀ t, spec = Some t → Z.of_nat (length l0) ≤ 1026 + s_size t / 4096) → outcome path spec r s.
Proof. intros [-> Hs] Hsp. unfold outcome. destruct spec; [right; auto|done]. Qed.

(** From the header on. *)
Lemma exec_program_ok path argv d ip m l x :
  Z.of_nat (length d) < 2 ^ 31 → locked ip d x → free_list kend m l → (∀ u, u ∈ l ↔ u ∈ l0) → fresh m → Forall (λ s, length s < 4096)%nat argv →
  wp (let! (n, bs) := on_fs (readi ip 0 sizeof_elfhdr) in
      if negb (n =? sizeof_elfhdr) then bad kend 0 (Some ip) else
      let elf := load_elfhdr bs in
      if negb (magic elf =? ELF_MAGIC) then bad kend 0 (Some ip) else
      let! pgdir := on_mem (setupkvm kend kdata) in
      if pgdir =? 0 then bad kend 0 (Some ip) else
      let! r := loop (Z.to_nat (phnum elf) + 1) (load_segment kend pgdir ip (phnum elf)) (0, i32 (phoff elf), 0) in
      match r with
      | None => bad kend pgdir (Some ip)
      | Some sz =>
          do! on_fs (iunlockput ip) in
          do! on_fs end_op in
          exec_stack kend path argv pgdir (entry elf) sz
      end) (outcome path (plan d argv)) (St m x p).
Proof.
  intros Hd Hlk Hl Hin Hf Hargv. apply wp_bind. apply (wp_readi contents ip d); [done|done|done|]. intros y Hy.
  assert (∀ spec, spec = None → wp (bad kend 0 (Some ip)) (outcome path spec) (St m y p)) as Hbad0.
  { intros spec ->. by eapply (bad_none_ok (Some ip)); [..|exists d]. }
  pose proof (read_header d 0 sizeof_elfhdr ltac:(lia) ltac:(done) Hd) as Hrd. unfold plan, program, header.
  destruct (bytes_at d 0 sizeof_elfhdr) as [bs|]; cbn [mbind option_bind].
  2:{ destruct (read_result _ _ _) as [n bs]. cbn [fst] in Hrd. rewrite (proj2 (Z.eqb_neq _ _) Hrd). cbn [negb]. by apply Hbad0. }
  rewrite Hrd, Z.eqb_refl. cbn [negb]. cbv zeta. set (e := load_elfhdr bs).
  rewrite option_guard_decide. destruct (Z.eqb_spec (magic e) ELF_MAGIC) as [Hm|Hm]; cbn [negb]; [rewrite decide_True by done|by rewrite decide_False; [apply Hbad0|]].
  cbn [mbind option_bind].
  assert (length l0 = length l) as Hll.
  { apply Permutation_length, NoDup_Permutation; [apply (vo_nodup _ _ _ (sp_vm _ _ _ _ Hold))|apply Hl|done]. }
  destruct (setupkvm_ok kend kdata Hkend Hkdata m l Hl) as [(pg & m1 & l1 & E & Hnz & Hsp1 & Har1 & Ho1 & Hn1)|(m1 & l1 & E & Hl1 & Hin1 & Ho1 & Hlen)];
    apply wp_bind; (eapply wp_on_mem; [exact E|]).
  2:{ cbn [Z.eqb]. eapply wp_mono; [apply (bad_none_ok (Some ip) m1 l1 y); [done|intros u; by rewrite Hin1| |by exists d]|].
      - intros u Hu. rewrite Ho1; [by apply Hf|by rewrite Hin].
      - intros r s' Hs'. apply no_program; [done|]. intros t ((en & q) & (q' & Hq & [= <- <-])%bind_Some & Ht)%bind_Some.
        apply add_segments_grow in Hq. cbn [fst] in Hq. apply with_stack_size in Ht; [|done]. pose proof (pages_mono 0 q'.1 Hq) as Hp.
        change (pages 0) with 0 in Hp. rewrite Hll. lia. }
  rewrite (proj2 (Z.eqb_neq _ _) Hnz).
  assert (∀ u, arena m1 pg l1 u ↔ u ∈ l0) as Har by (intros u; by rewrite Har1).
  assert (fresh m1) as Hf1 by (intros u Hu; rewrite Ho1; [by apply Hf|by rewrite Hin]).
  assert (0 ≤ phnum e) as Hph by (unfold e, load_elfhdr; cbn [phnum]; apply field_range).
  apply wp_bind. eapply wp_mono.
  { apply (segments_ok contents kend Hkend m1 pg l1 d e ip p Hd l0 (vo_nodup _ _ _ (sp_vm _ _ _ _ Hold)) (λ u Hu, proj2 (Har u) Hu) (Z.to_nat (phnum e)) 0 (i32 (phoff e)) (0, λ _, 0)).
    - split; [done|]. split; [done|]. split; [done|]. split; [done|]. exists l1. split; [by apply empty_image|apply within_refl].
    - rewrite u32_i32. f_equal. lia.
    - lia. }
  intros r [m2 x2 p2] [(q & -> & Hq & Hlk2 & Hp2 & Hnn & Hzq & l2 & Him2 & Hw2)|(-> & Hlk2 & Hp2 & Hex & l2 & Hsp2 & Hw2)];
    cbn [mem files cur] in *; subst p2; destruct (fresh_within m1 pg l1 m2 l2 Har Hf1 Hw2) as [Har2 Hf2].
  - rewrite Hq. cbn [mbind option_bind]. apply wp_bind, wp_on_fs. eapply wp_mono; [by eapply iunlockput_law|]. intros [] y2 Hy2.
    apply wp_bind, wp_on_fs. eapply wp_mono; [by eapply end_op_law|]. intros [] y3 Hy3. destruct q as [sz f]. cbn [fst snd] in *.
    by apply (exec_stack_ok path argv pg l2 (entry e) sz f m2 y3).
  - eapply wp_mono; [by apply (bad_ok (Some ip) m2 pg l2 x2); [..|exists d]|]. intros r s' Hs'. apply no_program; [done|].
    intros t ((en & q) & (q' & Hq & [= <- <-])%bind_Some & Ht)%bind_Some.
    pose proof (add_segments_grow _ _ _ _ _ _ Hq) as Hg. cbn [fst] in Hg. apply with_stack_size in Ht; [|done]. apply Hex in Hq. lia.
Qed.

End Old.

(** All of [exec]. *)
Lemma exec_ok path argv m x p l :
  known path → idle x → space kend m (x_pgdir p) l → Forall (λ s, length s < 4096)%nat argv →
  ∃ r s', exec kend kdata path argv (St m x p) = Ok r s' ∧ outcome m p l path (d ← contents path; plan d argv) r s'.
Proof.
  intros Hk Hx Hsp Hargv. assert (free_list kend m l) as Hl by by eapply space_free_list.
  enough (wp (exec kend kdata path argv) (outcome m p l path (d ← contents path; plan d argv)) (St m x p)) as Hwp.
  { apply wp_ok in Hwp as (r & s' & E & Ho). by exists r, s'. }
  unfold exec. apply wp_bind, wp_on_fs. eapply wp_mono; [by apply begin_op_law|]. intros [] x1 Hx1.
  apply wp_bind, wp_on_fs. eapply wp_mono; [by apply namei_law|]. intros o x2 Hx2.
  destruct (contents path) as [d|] eqn:Hc; cbn [mbind option_bind].
  - destruct Hx2 as (ip & -> & Hx2). apply wp_bind, wp_on_fs. eapply wp_mono; [by eapply ilock_law|]. intros [] x3 Hx3.
    apply (exec_program_ok m p l Hsp path argv d ip m l x3); try done. by eapply contents_size.
  - destruct Hx2 as [-> Hx2]. apply wp_bind, wp_on_fs. eapply wp_mono; [by apply end_op_law|]. intros [] x3 Hx3. apply wp_ret.
    split; [done|]. by apply (unchanged_ok m p l Hsp m l).
Qed.

(** C17: [exec] returns for every path that does not lead to a device and all arguments
    that are shorter than a page (4096 bytes).  When the file is a program
    that fits below the kernel and the arguments fit on the stack page, the process
    has, on success, exactly the planned image: the segments at their addresses, zeros
    elsewhere, the strings, their addresses and the count on the stack, the page below
    the stack closed to the user; its name, size and registers are set, and every page
    of the old image is free again.  In every other case, and when memory is short, the
    answer is -1: the process, its image and the free pages are as before, the new
    directory is taken down, and the inode is released. *)
Theorem exec_correct path argv m x p l :
  known path → idle x → space kend m (x_pgdir p) l → Forall (λ s, length s < 4096)%nat argv →
  ∃ r s', exec kend kdata path argv (St m x p) = Ok r s' ∧ outcome m p l path (d ← contents path; plan d argv) r s'.
Proof. exact (exec_ok path argv m x p l). Qed.
End Correct.
End ExecCorrect.
