(* ===== verification/Wmap.v ===== *)
(** Wmap: the memory mappings of p4: [wmap], [wunmap], [wremap] and the two
    system calls that report on them (p4/xv6-public/sysproc.c), the page-fault
    handler (trap.c) and the parts of [fork] and [exit] that deal with mappings
    (proc.c).  The state is that of the calling process, physical memory and the
    open files. *)
From S2P Require Import Prelude Kalloc Vm.
From stdpp Require Import gmap.
Local Open Scope Z_scope.

Module Wmap.
Import Kalloc Vm.

Definition MAP_PRIVATE : Z := 0x0001.
Definition MAP_SHARED : Z := 0x0002.
Definition MAP_ANONYMOUS : Z := 0x0004.
Definition MAP_FIXED : Z := 0x0008.
Definition MREMAP_MAYMOVE : Z := 0x1.
Definition FAILED : Z := -1.
Definition SUCCESS : Z := 0.
Definition NOFILE : Z := 16.
Definition MAX_UPAGE_INFO : Z := 32.
Definition MAX_WMMAP_INFO : Z := 16.
Definition WMAP_BASE : Z := 0x60000000.
Definition WMAP_END : Z := 0x80000000.

(** [struct mmap_entry], with the address of the page that holds it; the list of
    a process is a [list], a null process or file pointer is 0. *)
Record mmap_entry := Me {
  me_ptr : Z; addr : Z; length : Z; flags : Z; rc : Z;
  mapping_process : Z; n_loaded_pages : Z; file : Z
}.

(** The operations on open files that the calls use.  [filewrite] is given the
    bytes it writes, [fileread] gives the number of bytes read and
    the bytes. *)
Class Files (F : Type) := {
  filedup : Z → ST F unit;
  fileclose : Z → ST F unit;
  set_off : Z → Z → ST F unit;
  filewrite : Z → list Z → ST F Z;
  fileread : Z → Z → ST F (Z * list Z)
}.

(** The process: its directory, mappings, open files and [killed]. *)
Record task (F : Type) := Task {
  mem : phys; pgdir : Z; mmaps : list mmap_entry; ofile : list Z; killed : Z; fs : F
}.
Arguments Task {F}. Arguments mem {F}. Arguments pgdir {F}. Arguments mmaps {F}.
Arguments ofile {F}. Arguments killed {F}. Arguments fs {F}.

Section Wmap.
Context {F : Type} `{Files F} (kend : Z).
Abbreviation T := (ST (task F)).

Definition on_mem {A} (f : ST phys A) : T A := λ t,
  match f (mem t) with
  | Ok a m => Ok a (Task m (pgdir t) (mmaps t) (ofile t) (killed t) (fs t))
  | Fault => Fault
  end.
Definition on_fs {A} (f : ST F A) : T A := λ t,
  match f (fs t) with
  | Ok a s => Ok a (Task (mem t) (pgdir t) (mmaps t) (ofile t) (killed t) s)
  | Fault => Fault
  end.
Definition set_mmaps (l : list mmap_entry) : T unit :=
  modify (λ t, Task (mem t) (pgdir t) l (ofile t) (killed t) (fs t)).
Definition kill : T unit :=
  modify (λ t, Task (mem t) (pgdir t) (mmaps t) (ofile t) 1 (fs t)).

(** [if (f) fileclose(f)] *)
Definition close_file (f : Z) : T unit := if f =? 0 then ret tt else on_fs (fileclose f).
(** [f->off = off]: a null [f] is not tested. *)
Definition seek (f off : Z) : T unit := if f =? 0 then fault else on_fs (set_off f off).

(** [for (uint i = 0; i < length; i += PGSIZE) body]; the comparison converts
    [length] to unsigned. *)
Definition for_pages (len : Z) (body : Z → T unit) : T unit :=
  loop (Z.to_nat (u32 len / PGSIZE) + 2) (λ i,
    if i <? u32 len then do! body i in ret (inl (u32 (i + PGSIZE))) else ret (inr tt)) 0.

(** ** Searching the address space *)

Definition me_end (me : mmap_entry) : Z := u32 (addr me + length me).
(** [(a < me->addr + me->length) && (a + len > me->addr)] *)
Definition overlaps (a len : Z) (me : mmap_entry) : bool :=
  (a <? me_end me) && (addr me <? u32 (a + len)).

(** The loop that looks for a gap.  Beyond the first turn the address is a
    multiple of the page size, so a run of more than [2 ^ 20 + 1] turns does not
    end. *)
Definition fit_step {S} (ms : list mmap_entry) (len a : Z) : ST S (Z + Z) :=
  match List.find (overlaps a len) ms with
  | None => ret (inr a)
  | Some me =>
      let a := PGROUNDUP (me_end me) in
      if WMAP_END <? u32 (a + len) then ret (inr a) else ret (inl a)
  end.
Definition find_fit {S} (ms : list mmap_entry) (len : Z) : ST S Z :=
  loop (Z.to_nat (2 ^ 20 + 2)) (fit_step ms len) WMAP_BASE.

(** ** Page faults (trap.c, case T_PGFLT) *)

(** What goes into a fresh page; false when the file cannot be read. *)
Definition load_page (me : mmap_entry) (va page : Z) : T bool :=
  if negb (file me =? 0) && negb (has (flags me) MAP_ANONYMOUS) then
    let offset_within_page := va mod PGSIZE in
    let file_offset := i32 (u32 (u32 (va - addr me) - offset_within_page)) in
    do! seek (file me) file_offset in
    let! (read_bytes, buf) := on_fs (fileread (file me) PGSIZE) in
    if read_bytes <? 0 then do! on_mem (kfree kend page) in do! kill in ret false else
    do! on_mem (copy_in page (take (Z.to_nat read_bytes) buf)) in
    do! (if read_bytes <? PGSIZE
         then on_mem (copy_in (page + read_bytes) (replicate (Z.to_nat (PGSIZE - read_bytes)) 0))
         else ret tt) in
    ret true
  else do! on_mem (fill_page page 0) in ret true.

Definition inside (va : Z) (me : mmap_entry) : bool := (addr me <=? va) && (va <? me_end me).

Definition set_loaded (n : Z) (me : mmap_entry) : mmap_entry :=
  Me (me_ptr me) (addr me) (length me) (flags me) (rc me) (mapping_process me) n (file me).

Definition page_fault (va : Z) : T unit :=
  let! ms := gets mmaps in
  match list_find (λ me, inside va me = true) ms with
  | None => kill
  | Some (i, me) =>
      let! page := on_mem kalloc in
      if page =? 0 then kill else
      let! ok := load_page me va page in
      if negb ok then ret tt else
      let! pg := gets pgdir in
      let! r := on_mem (mappages pg (PGROUNDDOWN va) PGSIZE (V2P page) (Z.lor PTE_W PTE_U)) in
      if r <? 0 then do! on_mem (kfree kend page) in kill else
      let! ms := gets mmaps in
      set_mmaps (<[i := set_loaded (i32 (n_loaded_pages me + 1)) me]> ms)
  end.

(** ** Access to the memory of the process in the kernel

    by [memmove] and [filewrite].  An access to a page that is not there, or a
    write to one that is read-only, runs [page_fault] and is tried again; when it
    still fails the kernel faults again and again, which is a fault of the model. *)
Definition user_page (write : bool) (va : Z) : T (option Z) :=
  let! pg := gets pgdir in
  let! pte := on_mem (walkpgdir pg va false) in
  if pte =? 0 then ret None else
  let! e := on_mem (ld_word pte) in
  if has e PTE_P && (negb write || has e PTE_W)
  then ret (Some (P2V (PTE_ADDR e) + va mod PGSIZE)) else ret None.
Definition access (write : bool) (va : Z) : T Z :=
  let! o := user_page write va in
  match o with
  | Some a => ret a
  | None =>
      do! page_fault va in
      let! o := user_page write va in
      of_opt o
  end.
Definition ld_byte (a : Z) : ST phys Z :=
  let! w := ld_word (a - a mod 4) in ret (byte_in w (a mod 4)).
Definition copy_user_byte (dst src : Z) : T unit :=
  let! s := access false src in
  let! b := on_mem (ld_byte s) in
  let! d := access true dst in
  on_mem (st_byte d b).

(** [filewrite(f, va, PGSIZE)] of bytes of the process. *)
Fixpoint user_bytes (va : Z) (n : nat) : T (list Z) :=
  match n with
  | O => ret []
  | S n =>
      let! a := access false va in
      let! b := on_mem (ld_byte a) in
      let! bs := user_bytes (u32 (va + 1)) n in
      ret (b :: bs)
  end.
Definition write_page (f va : Z) : T unit :=
  if f =? 0 then fault else
  let! bs := user_bytes va (Z.to_nat PGSIZE) in
  let! _ := on_fs (filewrite f bs) in ret tt.

(** ** The system calls *)

(** [*pte &= ~PTE_W] for the page at [va]; a null [pte] is not tested. *)
Definition clear_write (pg va : Z) : ST phys unit :=
  let! pte := walkpgdir pg va false in
  if pte =? 0 then fault else
  let! e := ld_word pte in
  st_word pte (Z.ldiff e PTE_W).

(** The entry of a new mapping (from [kalloc] on). *)
Definition add_mapping (curproc a len fl f : Z) : T Z :=
  let! me := on_mem kalloc in
  if me =? 0 then do! close_file f in ret (u32 FAILED) else
  let! pg := gets pgdir in
  do! (if has fl MAP_PRIVATE then for_pages len (λ i, on_mem (clear_write pg (u32 (a + i)))) else ret tt) in
  let! ms := gets mmaps in
  do! set_mmaps (Me me a len fl 1 curproc 0 f :: ms) in
  ret a.

(** The file of the mapping: 0 for an anonymous one, [None] for a bad descriptor. *)
Definition wmap_file (ofs : list Z) (fl fd : Z) : option Z :=
  if has fl MAP_ANONYMOUS then Some 0 else
  if (fd <? 0) || (NOFILE <=? fd) then None else
  match ofs !! Z.to_nat fd with
  | Some f => if f =? 0 then None else Some f
  | None => None
  end.

(** [uint sys_wmap(void)]: [args] are address, length and flags, as far as
    [argint] can fetch them. *)
Definition sys_wmap (curproc : Z) (args : option (Z * Z * Z)) (fd : option Z) : T Z :=
  match args with
  | None => ret (u32 FAILED)
  | Some (a, len, fl) =>
      match (if has fl MAP_ANONYMOUS then Some 0 else fd) with
      | None => ret (u32 FAILED)
      | Some fd =>
          if eqb (has fl MAP_PRIVATE) (has fl MAP_SHARED) then ret (u32 FAILED) else
          let! ofs := gets ofile in
          match wmap_file ofs fl fd with
          | None => ret (u32 FAILED)
          | Some f =>
              do! (if has fl MAP_ANONYMOUS then ret tt else on_fs (filedup f)) in
              let! ms := gets mmaps in
              if negb (has fl MAP_FIXED) then
                let! a := find_fit ms len in
                if WMAP_END <? u32 (a + len) then do! close_file f in ret (u32 FAILED)
                else add_mapping curproc a len fl f
              else if existsb (overlaps a len) ms then do! close_file f in ret (u32 FAILED)
              else add_mapping curproc a len fl f
          end
      end
  end.

(** Removing one page of a private and of a shared mapping. *)
Definition unmap_private_page (va : Z) : T unit :=
  let! pg := gets pgdir in
  let! pte := on_mem (walkpgdir pg va false) in
  if pte =? 0 then ret tt else
  let! e := on_mem (ld_word pte) in
  if has e PTE_P then on_mem (st_word pte 0) else ret tt.

Definition unmap_shared_page (off : bool) (me : mmap_entry) (i : Z) : T unit :=
  let! pg := gets pgdir in
  let! pte := on_mem (walkpgdir pg (u32 (addr me + i)) false) in
  if pte =? 0 then ret tt else
  let! e := on_mem (ld_word pte) in
  if negb (has e PTE_P) then ret tt else
  do! (if has e PTE_W then
         do! (if off then seek (file me) i else ret tt) in
         do! write_page (file me) (u32 (addr me + i)) in
         on_mem (st_word pte (Z.ldiff e PTE_W))
       else ret tt) in
  let! e := on_mem (ld_word pte) in
  do! on_mem (kfree kend (P2V (PTE_ADDR e))) in
  on_mem (st_word pte 0).

Definition remove_entry (i : nat) : T unit :=
  let! ms := gets mmaps in set_mmaps (take i ms ++ drop (S i) ms).

(** [int sys_wunmap(void)] *)
Definition sys_wunmap (arg : option Z) : T Z :=
  match arg with
  | None => ret FAILED
  | Some a =>
      let! ms := gets mmaps in
      match list_find (λ me, addr me = a) ms with
      | None => ret FAILED
      | Some (i, me) =>
          do! (if has (flags me) MAP_PRIVATE then
                 for_pages (length me) (λ i, unmap_private_page (u32 (addr me + i)))
               else if has (flags me) MAP_SHARED then
                 do! for_pages (length me) (unmap_shared_page true me) in
                 close_file (file me)
               else ret tt) in
          do! remove_entry i in
          do! on_mem (kfree kend (me_ptr me)) in
          ret SUCCESS
      end
  end.

(** ** Moving a mapping *)

(** [memmove(dst, src, n)] of p4/xv6-public/string.c: backwards when the areas overlap and [src] is the
    lower one. *)
Definition memmove (dst src n : Z) : T unit :=
  let n := u32 n in
  let backwards := (src <? dst) && (dst <? u32 (src + n)) in
  let! _ := for_range 0 n (λ i,
    let k := if backwards then n - 1 - i else i in
    do! copy_user_byte (u32 (dst + k)) (u32 (src + k)) in
    ret (@None unit)) in
  ret tt.

(** [newsize + i] is the address the code looks at. *)
Definition write_back_page (me : mmap_entry) (newsize i : Z) : T unit :=
  let va := u32 (newsize + i) in
  let! pg := gets pgdir in
  let! pte := on_mem (walkpgdir pg va false) in
  if pte =? 0 then ret tt else
  let! e := on_mem (ld_word pte) in
  if negb (has e PTE_P && has e PTE_W) then ret tt else
  do! seek (file me) i in
  write_page (file me) va.

(** The test that makes a mapping move: [otherme->addr <= me->addr + newsize]. *)
Definition in_the_way (me : mmap_entry) (newsize : Z) (other : mmap_entry) : bool :=
  negb (me_ptr other =? me_ptr me) && (addr other <=? u32 (addr me + newsize)).

Definition set_length (n : Z) (me : mmap_entry) : mmap_entry :=
  Me (me_ptr me) (addr me) n (flags me) (rc me) (mapping_process me) (n_loaded_pages me) (file me).

(** The second half of [sys_wremap]: entry [i], [me], moves. *)
Definition move_mapping (curproc : Z) (i : nat) (me : mmap_entry) (oldsize newsize : Z) : T Z :=
  let oldaddr := addr me in
  let! ms := gets mmaps in
  let! newaddr := find_fit ms newsize in
  if WMAP_END <? u32 (newaddr + newsize) then ret oldaddr else
  let! p := on_mem kalloc in
  if p =? 0 then ret oldaddr else
  do! set_mmaps (Me p newaddr newsize (flags me) 1 curproc (n_loaded_pages me) (file me) :: ms) in
  do! memmove newaddr oldaddr oldsize in
  do! (if has (flags me) MAP_PRIVATE then ret tt
       else if has (flags me) MAP_SHARED then for_pages newsize (write_back_page me newsize)
       else ret tt) in
  do! remove_entry (S i) in
  do! on_mem (kfree kend (me_ptr me)) in
  ret newaddr.

(** [uint sys_wremap(void)]; [args]: old address, old size, new size, flags. *)
Definition sys_wremap (curproc : Z) (args : option (Z * Z * Z * Z)) : T Z :=
  match args with
  | None => ret (u32 FAILED)
  | Some (oldaddr, oldsize, newsize, fl) =>
      if newsize <=? 0 then ret (u32 FAILED) else
      let! ms := gets mmaps in
      match list_find (λ me, addr me = oldaddr ∧ length me = oldsize) ms with
      | None => ret (u32 FAILED)
      | Some (i, me) =>
          let blocked := (oldsize <? newsize) && existsb (in_the_way me newsize) ms in
          if blocked && negb (has fl MREMAP_MAYMOVE) then ret (u32 FAILED) else
          if negb blocked || negb (has fl MREMAP_MAYMOVE) then
            do! set_mmaps (<[i := set_length newsize me]> ms) in ret oldaddr
          else move_mapping curproc i me oldsize newsize
      end
  end.

(** ** Reports *)

(** [int sys_getwmapinfo(void)]: what is stored for the caller (address, length
    and loaded pages of each entry; their number is [total_mmaps]). *)
Definition sys_getwmapinfo (arg : bool) : T (Z * list (Z * Z * Z)) :=
  if negb arg then ret (FAILED, []) else
  let! ms := gets mmaps in
  ret (SUCCESS, (λ me, (addr me, length me, n_loaded_pages me)) <$> take (Z.to_nat MAX_WMMAP_INFO) ms).

(** [int sys_getpgdirinfo(void)]: the first entries of the user's pages, with
    their virtual addresses. *)
Definition report_entry (i j pte : Z) (acc : list (Z * Z)) : list (Z * Z) :=
  if (Z.of_nat (List.length acc) <? MAX_UPAGE_INFO) && has pte PTE_P && has pte PTE_U
  then acc ++ [(u32 (Z.lor (Z.shiftl i 22) (Z.shiftl j 12)), Z.lor (PTE_ADDR pte) (Z.land pte 0xFFF))]
  else acc.
Definition report_table (i pde : Z) (acc : list (Z * Z)) : ST phys (list (Z * Z)) :=
  if negb (has pde PTE_P) then ret acc else
  loop 1025 (λ '(j, acc),
    if (j <? 1024) && (Z.of_nat (List.length acc) <? MAX_UPAGE_INFO) then
      let! pte := ld_word (P2V (PTE_ADDR pde) + 4 * j) in
      ret (inl (j + 1, report_entry i j pte acc))
    else ret (inr acc)) (0, acc).
Definition sys_getpgdirinfo (arg : bool) : T (Z * list (Z * Z)) :=
  if negb arg then ret (FAILED, []) else
  let! pg := gets pgdir in
  let! acc := on_mem (loop 1025 (λ '(i, acc),
    if (i <? NPDENTRIES) && (Z.of_nat (List.length acc) <? MAX_UPAGE_INFO) then
      let! pde := ld_word (pg + 4 * i) in
      let! acc := report_table i pde acc in
      ret (inl (i + 1, acc))
    else ret (inr acc)) (0, [])) in
  ret (SUCCESS, acc).

(** ** Fork and exit (proc.c) *)

(** The loop of [fork] over the parent's entries: the entries of the child, or
    [None] when it gives up. *)
Definition protect_copy (np_pgdir : Z) (me : mmap_entry) : T bool :=
  loop (Z.to_nat (u32 (length me) / PGSIZE) + 2) (λ i,
    if i <? u32 (length me) then
      let! pte := on_mem (walkpgdir np_pgdir (u32 (addr me + i)) false) in
      if pte =? 0 then ret (inr false) else
      let! e := on_mem (ld_word pte) in
      do! on_mem (st_word pte (Z.ldiff e PTE_W)) in
      ret (inl (u32 (i + PGSIZE)))
    else ret (inr true)) 0.
Fixpoint copy_mmaps (np_pgdir : Z) (ms copied : list mmap_entry) : T (option (list mmap_entry)) :=
  match ms with
  | [] => ret (Some copied)
  | me :: ms =>
      let! p := on_mem kalloc in
      if p =? 0 then ret None else
      let newme := Me p (addr me) (length me) (flags me) (rc me)
        (if has (flags me) MAP_SHARED then 0 else mapping_process me) (n_loaded_pages me) (file me) in
      let! ok := (if has (flags me) MAP_PRIVATE then protect_copy np_pgdir newme else ret true) in
      if negb ok then ret None else copy_mmaps np_pgdir ms (newme :: copied)
  end.

(** The loop of [exit]: only shared mappings are taken off the list. *)
Definition exit_step : unit → T (unit + unit) := λ _,
  let! ms := gets mmaps in
  match ms with
  | [] => ret (inr tt)
  | me :: ms =>
      if has (flags me) MAP_PRIVATE then
        do! for_pages (length me) (λ i,
          let va := u32 (addr me + i) in
          let! pg := gets pgdir in
          let! pte := on_mem (walkpgdir pg va false) in
          if pte =? 0 then ret tt else
          let! e := on_mem (ld_word pte) in
          if has e PTE_P then
            do! on_mem (kfree kend (P2V (PTE_ADDR e))) in on_mem (st_word pte 0)
          else ret tt) in
        ret (inl tt)
      else if has (flags me) MAP_SHARED then
        do! for_pages (length me) (unmap_shared_page false me) in
        do! close_file (file me) in
        do! set_mmaps ms in
        do! on_mem (kfree kend (me_ptr me)) in
        ret (inl tt)
      else ret (inl tt)
  end.
Definition exit_mmaps (fuel : nat) : T unit := loop fuel exit_step tt.

End Wmap.
End Wmap.
