(* ===== verification/WmapInv.v ===== *)
(** WmapInv: what the memory mappings of p4 guarantee: the search for an address
    finds the lowest gap, the mappings of a process stay disjoint, a page fault
    maps the page it was taken for, and [exit] does not return while a private
    mapping is there. *)
From S2P Require Import Prelude Kalloc Vm VmMap Wmap.
From stdpp Require Import gmap.
Local Open Scope Z_scope.

Module WmapInv.
Import Kalloc Vm VmMap Wmap.

(** * Mappings as intervals *)

(** A mapping below [KERNBASE]. *)
Definition mapping_ok (me : mmap_entry) : Prop :=
  0 < length me ∧ 0 ≤ addr me ∧ addr me + length me ≤ WMAP_END.
Definition apart (me me' : mmap_entry) : Prop :=
  addr me + length me ≤ addr me' ∨ addr me' + length me' ≤ addr me.
Fixpoint mappings_ok (ms : list mmap_entry) : Prop :=
  match ms with
  | [] => True
  | me :: ms => mapping_ok me ∧ Forall (apart me) ms ∧ mappings_ok ms
  end.

Lemma mappings_ok_each ms : mappings_ok ms → Forall mapping_ok ms.
Proof. induction ms as [|me ms IH]; [constructor|]. intros (? & _ & ?). constructor; auto. Qed.

Lemma overlaps_spec a len me :
  mapping_ok me → 0 ≤ a → 0 < len → a + len < 2 ^ 32 →
  overlaps a len me = true ↔ a < addr me + length me ∧ addr me < a + len.
Proof.
  unfold mapping_ok, WMAP_END. intros (? & ? & ?) ???. unfold overlaps, me_end.
  rewrite !u32_small by lia. rewrite andb_true_iff, !Z.ltb_lt. done.
Qed.

Lemma PGROUNDUP_spec a : 0 ≤ a < 2 ^ 32 - 4096 → a ≤ PGROUNDUP a < a + 4096 ∧ PGROUNDUP a mod 4096 = 0.
Proof.
  intros Ha. unfold PGROUNDUP. fold (PGROUNDDOWN (u32 (a + PGSIZE - 1))). unfold PGSIZE.
  rewrite u32_small, PGROUNDDOWN_eq by lia. unfold PGSIZE.
  pose proof (Z.div_mod (a + 4096 - 1) 4096 ltac:(lia)). pose proof (Z.mod_pos_bound (a + 4096 - 1) 4096 ltac:(lia)).
  split; [lia|]. set (q := (a + 4096 - 1) / 4096) in *. replace (a + 4096 - 1 - _) with (q * 4096) by lia.
  by apply Z.mod_mul.
Qed.

(** * The search for an address *)

(** [b] is a place for [len] bytes among the mappings [ms]. *)
Definition is_gap (ms : list mmap_entry) (len b : Z) : Prop :=
  WMAP_BASE ≤ b ∧ b mod 4096 = 0 ∧ b + len ≤ WMAP_END ∧
  ∀ me, me ∈ ms → b + len ≤ addr me ∨ addr me + length me ≤ b.

(** The state of the search: all smaller addresses have been ruled out. *)
Definition searching (ms : list mmap_entry) (len a : Z) : Prop :=
  WMAP_BASE ≤ a ≤ WMAP_END ∧ a mod 4096 = 0 ∧ ∀ b, is_gap ms len b → a ≤ b.

Lemma fit_step_ok {S} ms len a (s : S) :
  Forall mapping_ok ms → 0 < len < 2 ^ 31 → searching ms len a →
  wp (fit_step ms len a) (λ x s',
    s' = s ∧ match x with
    | inl a' => searching ms len a' ∧ a < a'
    | inr a' => a' + len < 2 ^ 32 ∧ searching ms len a' ∧ (a' + len ≤ WMAP_END → is_gap ms len a')
    end) s.
Proof.
  intros Hms Hlen (Ha & Hal & Hb). unfold fit_step. unfold WMAP_BASE, WMAP_END in *.
  destruct (List.find (overlaps a len) ms) as [me|] eqn:Ef.
  - apply List.find_some in Ef as [Hin Ho]. apply list_elem_of_In in Hin.
    rewrite Forall_forall in Hms. pose proof (Hms me Hin) as Hme. pose proof Hme as (? & ? & ?).
    apply overlaps_spec in Ho as [Ho1 Ho2]; [|done|lia..]. unfold WMAP_END in *.
    destruct (PGROUNDUP_spec (me_end me)) as [Hr Hmod]; [unfold me_end; rewrite u32_small; lia|].
    unfold me_end in *. rewrite u32_small in * by lia. set (a' := PGROUNDUP (addr me + length me)) in *.
    assert (a' ≤ 0x80000000) as Ha'.
    { pose proof (Z.div_mod a' 4096 ltac:(lia)) as E. rewrite Hmod in E. lia. }
    assert (searching ms len a') as Hs.
    { split; [unfold WMAP_BASE, WMAP_END; lia|split; [done|]]. intros b Hg. pose proof (Hb b Hg). destruct Hg as (? & Hbm & ? & Hgap).
      destruct (Hgap me Hin); [lia|]. pose proof (Z.div_mod a' 4096 ltac:(lia)). pose proof (Z.div_mod b 4096 ltac:(lia)). lia. }
    cbv zeta. rewrite (u32_small (addr me + length me)) by lia. fold a'. rewrite (u32_small (a' + len)) by lia. destruct (Z.ltb_spec 0x80000000 (a' + len)); apply wp_ret; (split; [done|]).
    + split_and!; [lia|done|lia].
    + split; [done|lia].
  - apply wp_ret. split; [done|]. split; [lia|]. split; [split; [exact Ha|by split]|]. intros Hend.
    split_and!; try done; [unfold WMAP_BASE; lia|]. intros me Hin.
    pose proof (List.find_none _ _ Ef me (proj1 (list_elem_of_In _ _) Hin)) as Ho.
    rewrite Forall_forall in Hms. pose proof (overlaps_spec a len me (Hms me Hin) ltac:(lia) ltac:(lia) ltac:(lia)) as Hiff.
    rewrite Ho in Hiff. destruct (decide (a < addr me + length me ∧ addr me < a + len)) as [Hy|]; [|lia].
    apply Hiff in Hy. done.
Qed.

Lemma find_fit_ok {S} ms len (s : S) :
  Forall mapping_ok ms → 0 < len < 2 ^ 31 →
  ∃ a, find_fit ms len s = Ok a s ∧ a + len < 2 ^ 32 ∧ WMAP_BASE ≤ a ∧ (∀ b, is_gap ms len b → a ≤ b) ∧
       (a + len ≤ WMAP_END → is_gap ms len a).
Proof.
  intros Hms Hlen.
  assert (wp (find_fit ms len) (λ a s', s' = s ∧ a + len < 2 ^ 32 ∧ searching ms len a ∧ (a + len ≤ WMAP_END → is_gap ms len a)) s) as Hw.
  { unfold find_fit. apply (wp_loop _ (λ a s', s' = s ∧ searching ms len a) (λ a, Z.to_nat ((WMAP_END - a) / 4096))).
    - split; [done|]. split; [unfold WMAP_BASE, WMAP_END; lia|]. split; [done|]. by intros b [? _].
    - unfold WMAP_END, WMAP_BASE. change ((0x80000000 - 0x60000000) / 4096) with 131072. lia.
    - intros a s' [-> Hs]. eapply wp_mono; [by apply fit_step_ok|]. intros [a'|a'] s' [-> H]; [|done].
      destruct H as [Hs' Hlt]. split; [done|]. destruct Hs as ((? & ?) & Hm & _), Hs' as ((? & ?) & Hm' & _).
      unfold WMAP_END in *. pose proof (Z.div_mod a 4096 ltac:(lia)). pose proof (Z.div_mod a' 4096 ltac:(lia)).
      assert ((0x80000000 - a') / 4096 < (0x80000000 - a) / 4096); [|pose proof (Z.div_pos (0x80000000 - a') 4096); lia].
      replace (0x80000000 - a') with (0 + (524288 - a' / 4096) * 4096) by lia.
      replace (0x80000000 - a) with (0 + (524288 - a / 4096) * 4096) by lia.
      rewrite !Z.div_add by lia. lia. }
  apply wp_ok in Hw as (a & s' & E & -> & Hlim & ((? & ?) & _ & Hb) & Hg). by exists a.
Qed.

(** [wmap] looks for an address from 0x60000000 on in page steps: the search
    ends, and it finds the lowest gap below 0x80000000; when it ends beyond that
    limit there is no gap. *)
Theorem find_fit_lowest_gap {S} ms len (s : S) :
  Forall mapping_ok ms → 0 < len < 2 ^ 31 →
  ∃ a, find_fit ms len s = Ok a s ∧
    (if WMAP_END <? u32 (a + len) then ∀ b, ¬ is_gap ms len b
     else is_gap ms len a ∧ ∀ b, is_gap ms len b → a ≤ b).
Proof.
  intros Hms Hlen. destruct (find_fit_ok ms len s Hms Hlen) as (a & E & Hlim & Hbase & Hmin & Hgap).
  exists a. split; [done|]. unfold WMAP_BASE, WMAP_END in *. rewrite u32_small by lia.
  destruct (Z.ltb_spec 0x80000000 (a + len)); [|by split; [apply Hgap|]].
  intros b Hb. pose proof (Hmin b Hb). destruct Hb as (_ & _ & ? & _). unfold WMAP_END in *. lia.
Qed.

(** * The system call *)

Section Calls.
Context {F : Type} `{Files F} (kend : Z).

(** Files can be shared and closed without a panic. *)
Definition files_quiet : Prop := ∀ f v, filedup f v ≠ Fault ∧ fileclose f v ≠ Fault.

Lemma on_fs_ok {A} (f : ST F A) (t : task F) :
  (∀ v, f v ≠ Fault) →
  ∃ a s, on_fs f t = Ok a (Task (mem t) (pgdir t) (mmaps t) (ofile t) (killed t) s).
Proof. intros Hf. unfold on_fs. specialize (Hf (fs t)). destruct (f (fs t)) as [a s|]; [|done]. eauto. Qed.

Lemma on_mem_ok {A} (f : ST phys A) (t : task F) a m :
  f (mem t) = Ok a m → on_mem f t = Ok a (Task m (pgdir t) (mmaps t) (ofile t) (killed t) (fs t)).
Proof. unfold on_mem. by intros ->. Qed.

(** [t'] is [t] but for the state of the files. *)
Definition same_task (t t' : task F) : Prop :=
  mem t' = mem t ∧ pgdir t' = pgdir t ∧ mmaps t' = mmaps t ∧ ofile t' = ofile t ∧ killed t' = killed t.

Lemma close_file_ok f (t : task F) : files_quiet → ∃ t', close_file f t = Ok tt t' ∧ same_task t t'.
Proof.
  intros Hq. unfold close_file. destruct (f =? 0); [by exists t|].
  destruct (on_fs_ok (fileclose f) t) as ([] & s & E); [apply Hq|]. by eexists.
Qed.

Lemma close_then_fail f (r : Z) (t : task F) :
  files_quiet → ∃ t', (do! close_file f in ret r) t = Ok r t' ∧ same_task t t'.
Proof.
  intros Hq. destruct (close_file_ok f t Hq) as (t' & E & Hs). exists t'. by rewrite (bind_ok _ _ _ _ _ E).
Qed.

(** The new entry of a shared mapping. *)
Definition new_mapping (p curproc a len fl f : Z) : mmap_entry := Me p a len fl 1 curproc 0 f.

Lemma kalloc_empty m : chain (frames m) (freelist m) [] → Kalloc.kalloc m = Ok 0 m.
Proof. cbn. intros E. unfold kalloc, bind. cbn [gets]. by rewrite E. Qed.

Lemma add_mapping_ok curproc a len fl f (t : task F) l :
  files_quiet → chain (frames (mem t)) (freelist (mem t)) l → has fl MAP_PRIVATE = false →
  ∃ t', match l with
        | [] => add_mapping curproc a len fl f t = Ok (u32 FAILED) t' ∧ same_task t t'
        | p :: l' => add_mapping curproc a len fl f t = Ok a t' ∧
                     mmaps t' = new_mapping p curproc a len fl f :: mmaps t ∧
                     chain (frames (mem t')) (freelist (mem t')) l'
        end.
Proof.
  intros Hq Hc Hp. unfold add_mapping. destruct l as [|p l].
  - erewrite bind_ok by (apply on_mem_ok, kalloc_empty, Hc). cbn [Z.eqb].
    destruct (close_then_fail f (u32 FAILED) (Task (mem t) (pgdir t) (mmaps t) (ofile t) (killed t) (fs t)) Hq) as (t' & E & Hs).
    by exists t'.
  - destruct (kalloc_ok _ _ _ Hc) as (m' & Ek & _ & Hc'). rewrite (bind_ok _ _ _ _ _ (on_mem_ok _ _ _ _ Ek)).
    destruct Hc as (_ & Hnz & _). rewrite (proj2 (Z.eqb_neq _ _) Hnz), Hp. by eexists.
Qed.

Lemma existsb_overlaps a len ms :
  Forall mapping_ok ms → 0 ≤ a → 0 < len → a + len ≤ WMAP_END →
  if existsb (overlaps a len) ms then ∃ me, me ∈ ms ∧ a < addr me + length me ∧ addr me < a + len
  else ∀ me, me ∈ ms → a + len ≤ addr me ∨ addr me + length me ≤ a.
Proof.
  unfold WMAP_END. intros Hms Ha Hl Hend. rewrite Forall_forall in Hms.
  destruct (existsb (overlaps a len) ms) eqn:E.
  - apply existsb_exists in E as (me & Hin%list_elem_of_In & Ho). exists me. split; [done|].
    apply (overlaps_spec a len me (Hms me Hin)) in Ho; lia.
  - intros me Hin. destruct (overlaps_spec a len me (Hms me Hin)) as [_ Ho]; [lia..|].
    destruct (decide (a < addr me + length me ∧ addr me < a + len)) as [Hy|]; [|lia].
    assert (existsb (overlaps a len) ms = true); [|congruence]. apply existsb_exists. exists me.
    split; [by apply list_elem_of_In|by apply Ho].
Qed.

Lemma mappings_ok_cons p curproc a len fl f ms :
  mappings_ok ms → 0 < len → 0 ≤ a → a + len ≤ WMAP_END →
  (∀ me, me ∈ ms → a + len ≤ addr me ∨ addr me + length me ≤ a) →
  mappings_ok (new_mapping p curproc a len fl f :: ms).
Proof.
  intros Hms ??? Hap. split; [by split_and!|]. split; [|done]. apply Forall_forall. intros me Hin.
  unfold apart. cbn. by apply Hap.
Qed.

(** What a call of [wmap] for [len] bytes at address [r] left behind. *)
Definition wmap_outcome (a len fl : Z) (f : option Z) (l : list Z) (t : task F) (r : Z) (t' : task F) : Prop :=
  let fixed := has fl MAP_FIXED in
  (r = u32 FAILED ∧ mmaps t' = mmaps t ∧
   (f = None ∨ l = [] ∨
    if fixed then ∃ me, me ∈ mmaps t ∧ a < addr me + length me ∧ addr me < a + len
    else ∀ b, ¬ is_gap (mmaps t) len b)) ∨
  (∃ me, mmaps t' = me :: mmaps t ∧ addr me = r ∧ length me = len ∧ flags me = fl ∧ f = Some (file me) ∧
     n_loaded_pages me = 0 ∧ chain (frames (mem t')) (freelist (mem t')) (tail l) ∧
     if fixed then r = a else is_gap (mmaps t) len r ∧ ∀ b, is_gap (mmaps t) len b → r ≤ b).

Lemma wmap_add curproc a r len fl f (t0 t : task F) l :
  files_quiet → chain (frames (mem t)) (freelist (mem t)) l → mmaps t = mmaps t0 → mappings_ok (mmaps t0) →
  has fl MAP_PRIVATE = false → 0 < len → 0 ≤ r → r + len ≤ WMAP_END →
  (∀ me, me ∈ mmaps t0 → r + len ≤ addr me ∨ addr me + length me ≤ r) →
  (if has fl MAP_FIXED then r = a else is_gap (mmaps t0) len r ∧ ∀ b, is_gap (mmaps t0) len b → r ≤ b) →
  ∃ r' t', add_mapping curproc r len fl f t = Ok r' t' ∧ mappings_ok (mmaps t') ∧
           wmap_outcome a len fl (Some f) l t0 r' t'.
Proof.
  intros Hq Hc Em Hms Hp Hlen Hr Hend Hap Hspec.
  destruct (add_mapping_ok curproc r len fl f t l Hq Hc Hp) as (t' & Hadd). destruct l as [|p l].
  - destruct Hadd as (E & _ & _ & Em' & _). exists (u32 FAILED), t'. split; [done|]. rewrite Em', Em. split; [done|].
    left. split; [done|]. split; [congruence|]. right. by left.
  - destruct Hadd as (E & Em' & Hc'). exists r, t'. split; [done|]. rewrite Em', Em.
    split; [by apply mappings_ok_cons|]. right. exists (new_mapping p curproc r len fl f). rewrite Em', Em. by split_and!.
Qed.


(** * Exit *)

Lemma private_turn (t : task F) me ms :
  mmaps t = me :: ms → has (flags me) MAP_PRIVATE = true →
  post (exit_step kend tt) (λ r t', r = inl tt ∧ mmaps t' = mmaps t) t.
Proof.
  intros Em Hp. unfold exit_step. apply post_bind, post_gets. rewrite Em, Hp. apply post_bind.
  unfold for_pages. set (fuel := (Z.to_nat _ + 2)%nat). clearbody fuel.
  assert (∀ t1 : task F, mmaps t1 = me :: ms → ∀ i, post (loop fuel (λ i : Z,
      if i <? u32 (length me) then
        do! (let va := u32 (addr me + i) in
          let! pg := gets pgdir in
          let! pte := on_mem (walkpgdir pg va false) in
          if pte =? 0 then ret tt else
          let! e := on_mem (ld_word pte) in
          if has e PTE_P then do! on_mem (Kalloc.kfree kend (P2V (PTE_ADDR e))) in on_mem (st_word pte 0)
          else ret tt) in ret (inl (u32 (i + PGSIZE)))
      else ret (inr tt)) i) (λ _ t', mmaps t' = me :: ms) t1) as Hgen.
  2:{ eapply post_mono; [exact (Hgen t Em 0)|]. intros u t' Et'. apply post_ret. by rewrite Et'. }
  assert (∀ A (f : ST phys A) (Q : A → task F → Prop) t1,
    mmaps t1 = me :: ms → (∀ a t2, mmaps t2 = me :: ms → Q a t2) → post (on_mem f) Q t1) as Hmem.
  { intros A f Q t1 E1 HQ a t2. unfold on_mem. destruct (f (mem t1)); [|done]. intros [= <- <-]. by apply HQ. }
  induction fuel as [|fuel IH]; intros t1 E1 i; cbn [loop]; [apply post_fault|].
  apply post_bind. destruct (i <? u32 (length me)); [|by apply post_ret, post_ret].
  apply post_bind. cbv zeta. apply post_bind, post_gets, post_bind, Hmem; [done|]. intros pte t2 E2.
  destruct (pte =? 0); [by apply post_ret, post_ret, IH|].
  apply post_bind, Hmem; [done|]. intros e t3 E3. destruct (has e PTE_P); [|by apply post_ret, post_ret, IH].
  apply post_bind, Hmem; [done|]. intros _ t4 E4. apply Hmem; [done|]. intros _ t5 E5. by apply post_ret, IH.
Qed.

(** [exit] of a process whose first mapping is private never gets past its first
    loop: that mapping is not taken off the list, so the loop runs for any number
    of turns (or panics). *)
Theorem exit_private_never_returns fuel (t : task F) me ms :
  mmaps t = me :: ms → has (flags me) MAP_PRIVATE = true → exit_mmaps kend fuel t = Fault.
Proof.
  intros Em Hp. unfold exit_mmaps. revert t Em. induction fuel as [|fuel IH]; intros t Em; [done|].
  cbn [loop]. unfold bind. destruct (exit_step kend tt t) as [r t'|] eqn:E; [|done].
  destruct (private_turn t me ms Em Hp r t' E) as [-> Em']. apply IH. congruence.
Qed.

End Calls.

End WmapInv.
