(* ===== verification/WmapFault.v ===== *)
(** WmapFault: the page-fault handler of p4 on anonymous mappings: the faulting
    page is mapped to a fresh zeroed page and nothing else changes, or the process
    is killed. *)
From S2P Require Import Prelude Kalloc Vm VmMap VmSpace Wmap WmapInv.
From stdpp Require Import gmap.
Local Open Scope Z_scope.

Module WmapFault.
Import Kalloc Vm VmMap VmSpace Wmap WmapInv.

Section Fault.
Context {F : Type} `{Files F} (kend : Z).

(** The handler, when the first mapping around [va] is [me], entry [i]. *)
Definition fault_handled (t : task F) (va : Z) (i : nat) (me : mmap_entry) (l : list Z) (t' : task F) (l' : list Z) : Prop :=
  (killed t' = 1 ∧ mmaps t' = mmaps t ∧ (List.length l' ≤ 1)%nat ∧
   ∀ vb, 0 ≤ vb < 2 ^ 32 → mapping (mem t') (pgdir t) vb = mapping (mem t) (pgdir t) vb) ∨
  (killed t' = killed t ∧ mmaps t' = <[i := set_loaded (i32 (n_loaded_pages me + 1)) me]> (mmaps t) ∧
   ∃ p, p ∈ l ∧ (p ∉ l') ∧ frames (mem t') !! p = Some (replicate 1024 0) ∧
     ∀ vb, 0 ≤ vb < 2 ^ 32 → mapping (mem t') (pgdir t) vb =
       if decide (va / 4096 = vb / 4096) then Some (page_entry (V2P p) (Z.lor PTE_W PTE_U))
       else mapping (mem t) (pgdir t) vb).

Lemma load_page_anonymous me va p (t : task F) ws :
  has (flags me) MAP_ANONYMOUS = true → frames (mem t) !! p = Some ws →
  load_page kend me va p t =
  Ok true (Task (Phys (freelist (mem t)) (<[p := replicate (List.length ws) 0]> (frames (mem t))))
             (pgdir t) (mmaps t) (ofile t) (killed t) (fs t)).
Proof.
  intros Ha Hws. unfold load_page. rewrite Ha, andb_false_r. erewrite bind_ok; [reflexivity|].
  apply on_mem_ok. unfold fill_page. by rewrite Hws.
Qed.

(** Mapping the page of [va] to a page [p] just taken and filled. *)
Lemma map_filled m pg p l h va :
  vm_ok m pg (p :: l) → Forall (kpage kend) (p :: l) → chain (frames m) h l →
  0 ≤ va < 2 ^ 32 → mapping m pg va = None →
  let m2 := filled_page m p h (replicate 1024 0) in
  ∃ r m3, mappages pg (PGROUNDDOWN va) PGSIZE (V2P p) (Z.lor PTE_W PTE_U) m2 = Ok r m3 ∧
    (r = 0 ∧ (∃ l3, vm_ok m3 pg l3 ∧ (p ∉ l3)) ∧ frames m3 !! p = Some (replicate 1024 0) ∧
       (∀ vb, 0 ≤ vb < 2 ^ 32 → mapping m3 pg vb =
         if decide (va / 4096 = vb / 4096) then Some (page_entry (V2P p) (Z.lor PTE_W PTE_U)) else mapping m pg vb) ∨
     r = -1 ∧ ∃ m4, Kalloc.kfree kend p m3 = Ok tt m4 ∧ vm_ok m4 pg [p] ∧
       ∀ vb, 0 ≤ vb < 2 ^ 32 → mapping m4 pg vb = mapping m pg vb).
Proof.
  intros Hok Hk Hc Hva Hnone m2. destruct (free_page_apart _ _ _ _ Hok) as (Hne & Hni & Hpg & Hka & Hnt).
  pose proof (filled_vm_ok _ _ _ _ Hok h (replicate 1024 0) Hc) as Hok2. fold m2 in Hok2.
  pose proof (filled_mapping _ _ _ _ Hok h (replicate 1024 0)) as Hm2. fold m2 in Hm2.
  pose proof (filled_table _ _ _ _ Hok h (replicate 1024 0)) as Ht2. fold m2 in Ht2.
  pose proof (Z.div_mod va 4096 ltac:(lia)) as Edm. pose proof (Z.mod_pos_bound va 4096 ltac:(lia)).
  destruct (V2P_kaddr p Hka) as (_ & _ & Hv).
  assert (PGROUNDDOWN va = va / 4096 * 4096) as Er by (rewrite PGROUNDDOWN_eq by done; unfold PGSIZE; lia).
  assert (frames m2 !! p = Some (replicate 1024 0)) as Hp2 by apply lookup_insert_eq.
  assert (∀ vb, ¬ table m2 pg vb p) as Hnt2 by (intros vb; rewrite Ht2; apply Hnt).
  destruct (mappages_ok m2 pg l (PGROUNDDOWN va) 1 (V2P p) (Z.lor PTE_W PTE_U) Hok2)
    as (r & m3 & l3 & k & Em & Hok3 & Hs3 & (Hk3 & Hr & Hm3) & Hf3 & Ht3);
    rewrite ?Er; [by apply Z.mod_mul|lia|lia|lia|lia| |].
  { intros vb Hvb Hr. rewrite Z.div_mul in Hr by lia. rewrite Hm2, <- Hnone. apply mapping_same_page; lia. }
  rewrite Er in Em, Hm3. rewrite Z.div_mul in Hm3 by lia.
  assert (p ∉ l3) as Hni3 by (destruct Hs3 as [l0 ->]; intros ?; apply Hni, elem_of_app; by right).
  exists r, m3. split; [exact Em|]. destruct Hr as [[-> ->]|(Hk0 & -> & ->)]; [left|right].
  - split_and!; [done|by exists l3|by rewrite Hf3|]. intros vb Hvb. rewrite Hm3, Hm2 by done.
    destruct (decide (va / 4096 = vb / 4096)) as [E|E]; [|by rewrite decide_False by lia].
    rewrite decide_True by lia. by rewrite E, Z.sub_diag, Z.mul_0_l, Z.add_0_r, u32_small by lia.
  - split; [done|]. assert (k = 0) as -> by lia. apply Forall_cons in Hk as [Hkp _].
    destruct (kfree_vm_ok kend m3 pg p [] (replicate 1024 0)) as (m4 & E4 & Hok4 & Hm4); try done.
    + by intros vb [?%Hnt2|?]%Ht3.
    + by rewrite Hf3.
    + exists m4. split_and!; try done. intros vb Hvb. rewrite Hm4, Hm3, Hm2 by done. by rewrite decide_False by lia.
Qed.

Lemma page_fault_ok (t : task F) va i me l :
  vm_ok (mem t) (pgdir t) l → Forall (kpage kend) l → 0 ≤ va < 2 ^ 32 →
  mapping (mem t) (pgdir t) va = None →
  list_find (λ me, inside va me = true) (mmaps t) = Some (i, me) → has (flags me) MAP_ANONYMOUS = true →
  ∃ t' l', page_fault kend va t = Ok tt t' ∧ pgdir t' = pgdir t ∧ vm_ok (mem t') (pgdir t) l' ∧
           fault_handled t va i me l t' l'.
Proof.
  intros Hok Hk Hva Hnone Hf Ha. unfold page_fault. unfold bind at 1. cbn [gets]. rewrite Hf.
  destruct l as [|p l].
  - erewrite bind_ok by (apply on_mem_ok, kalloc_empty, (vo_chain _ _ _ Hok)). cbn [Z.eqb].
    eexists _, []. split; [reflexivity|]. split; [done|]. split; [done|]. left. by split_and!; try done; cbn; lia.
  - destruct (kalloc_ok _ _ _ (vo_chain _ _ _ Hok)) as (m1 & Ek & Hfr & Hc). rewrite Hfr in Hc.
    rewrite (bind_ok _ _ _ _ _ (on_mem_ok _ _ _ _ Ek)).
    destruct (vo_chain _ _ _ Hok) as (_ & Hnz & _ & next & ws & Hws & Hlw & _).
    rewrite (proj2 (Z.eqb_neq _ _) Hnz).
    erewrite bind_ok by (apply (load_page_anonymous me va p _ (next :: ws)); [done|cbn; by rewrite Hfr]).
    cbn [negb mem pgdir mmaps ofile killed fs]. unfold bind at 1. cbn [gets pgdir].
    replace (List.length (next :: ws)) with 1024%nat by (cbn; by rewrite Hlw). rewrite Hfr.
    destruct (map_filled (mem t) (pgdir t) p l (freelist m1) va Hok Hk Hc Hva Hnone)
      as (r & m3 & Em & [(-> & (l3 & Hok3 & Hni) & Hp3 & Hm3)|(-> & m4 & E4 & Hok4 & Hm4)]);
      rewrite (bind_ok _ _ _ _ _ (on_mem_ok _ (Task _ _ _ _ _ _) _ _ Em)); cbn [Z.ltb Z.compare mem pgdir mmaps ofile killed fs].
    + eexists _, l3. split; [reflexivity|]. split; [done|]. split; [done|]. right. split_and!; try done.
      exists p. split_and!; try done. by left.
    + rewrite (bind_ok _ _ _ _ _ (on_mem_ok _ (Task _ _ _ _ _ _) _ _ E4)).
      eexists _, [p]. split; [reflexivity|]. split; [done|]. split; [done|]. left. by split_and!.
Qed.

(** C20: A page fault of a process at an address that is not mapped, its mappings
    being anonymous: outside every mapping the process is killed and nothing else
    changes; inside one (the first in the list) the page is mapped, writable, to a
    zeroed page that was free, every other address keeps its mapping and the
    count of loaded pages goes up; without memory the process is killed and no
    mapping changes.  The page directory stays well formed. *)
Theorem page_fault_correct (t : task F) va l :
  vm_ok (mem t) (pgdir t) l → Forall (kpage kend) l → 0 ≤ va < 2 ^ 32 →
  mapping (mem t) (pgdir t) va = None → Forall (λ me, has (flags me) MAP_ANONYMOUS = true) (mmaps t) →
  ∃ t' l', page_fault kend va t = Ok tt t' ∧ pgdir t' = pgdir t ∧ vm_ok (mem t') (pgdir t) l' ∧
    match list_find (λ me, inside va me = true) (mmaps t) with
    | None => t' = Task (mem t) (pgdir t) (mmaps t) (ofile t) 1 (fs t)
    | Some (i, me) => fault_handled t va i me l t' l'
    end.
Proof.
  intros Hok Hk Hva Hnone Hanon. destruct (list_find _ (mmaps t)) as [[i me]|] eqn:Hf.
  - assert (has (flags me) MAP_ANONYMOUS = true) as Ha.
    { apply list_find_Some in Hf as (Hi & _). by eapply Forall_lookup_1 in Hanon. }
    by apply page_fault_ok.
  - exists (Task (mem t) (pgdir t) (mmaps t) (ofile t) 1 (fs t)), l. split; [|done].
    unfold page_fault, bind at 1. cbn [gets]. by rewrite Hf.
Qed.
End Fault.

End WmapFault.

(** WmapExamples: the theorems on page tables and memory mappings at concrete
    states: an empty page directory with two free pages. *)
Module WmapExamples.
Import Kalloc Vm VmMap Wmap WmapInv WmapFault.

(** An empty directory and the free pages [pg1], [pg2]. *)
Definition dir : Z := 0x80400000.
Definition pg1 : Z := 0x80401000.
Definition pg2 : Z := 0x80402000.
Definition zeros : list Z := replicate 1024 0.
Definition m0 : phys :=
  Phys pg1 {[ dir := zeros; pg1 := pg2 :: replicate 1023 0x01010101; pg2 := 0 :: replicate 1023 0x01010101 ]}.
Definition kend0 : Z := 0x80200000.

Lemma pde_m0 i e : 0 ≤ i < 1024 → pde m0 dir i = Some e → e = 0.
Proof. intros Hi. unfold pde, m0, zeros. cbn [frames]. rewrite lookup_insert_eq. cbn [mbind option_bind]. by intros [-> _]%lookup_replicate_1. Qed.

Lemma vm_ok_m0 : vm_ok m0 dir [pg1; pg2].
Proof.
  split.
  - split_and!; [done..|]. exists pg2, (replicate 1023 0x01010101). split_and!; [reflexivity|done|].
    split_and!; [done..|]. exists 0, (replicate 1023 0x01010101). by split_and!.
  - repeat constructor; set_solver.
  - intros a Ha. assert (a = pg1 ∨ a = pg2) as [-> | ->] by set_solver; unfold kaddr, pg1, pg2, KERNBASE; split; (lia || done).
  - split_and!; [done|unfold dir, pg1, pg2; set_solver|]. by exists zeros.
  - intros i e Hi He Hp. apply pde_m0 in He as ->; [|done]. by rewrite has_0 in Hp.
  - intros i j e f Hi Hj He Hf Hp. apply pde_m0 in He as ->; [|done]. by rewrite has_0 in Hp.
Qed.

Lemma mapping_m0 va : mapping m0 dir va = None.
Proof.
  destruct (dir_entry m0 dir _ vm_ok_m0 va) as [e He]. eapply mapping_None; [exact He|].
  apply pde_m0 in He as ->; [apply has_0|apply index_range].
Qed.

Lemma kpage_m0 : Forall (kpage kend0) [pg1; pg2].
Proof. repeat constructor; done. Qed.

Lemma mappages_correct_witness :
  ∃ r m' l' k, mappages dir 0x60000000 (2 * 4096) 0x5000 PTE_W m0 = Ok r m' ∧
    vm_ok m' dir l' ∧ l' `suffix_of` [pg1; pg2] ∧ mapped_pages m0 m' dir 0x60000000 0x5000 PTE_W 2 k r l' ∧
    (∀ u, u ≠ dir → u ∉ [pg1; pg2] → (∀ vb, ¬ table m0 dir vb u) → frames m' !! u = frames m0 !! u).
Proof.
  apply mappages_correct; [apply vm_ok_m0|reflexivity|lia|lia|lia|lia|]. intros. apply mapping_m0.
Defined.

Definition me1 : mmap_entry := Me pg1 0x60000000 0x1800 6 1 0 0 0.

Lemma find_fit_lowest_gap_witness :
  Forall mapping_ok [me1] ∧
  ∃ a, find_fit [me1] 0x1000 tt = Ok a tt ∧
    (if WMAP_END <? u32 (a + 0x1000) then ∀ b, ¬ is_gap [me1] 0x1000 b
     else is_gap [me1] 0x1000 a ∧ ∀ b, is_gap [me1] 0x1000 b → a ≤ b).
Proof.
  assert (Forall mapping_ok [me1]) as H by (repeat constructor; done).
  split; [exact H|]. apply (find_fit_lowest_gap [me1] 0x1000 tt H). lia.
Defined.

Example find_fit_next_page : find_fit [me1] 0x1000 tt = Ok 0x60002000 tt.
Proof. reflexivity. Qed.

(** Files that do nothing. *)
#[local] Instance no_files : Files unit := {
  filedup := λ _, ret tt; fileclose := λ _, ret tt; set_off := λ _ _, ret tt;
  filewrite := λ _ _, ret 0; fileread := λ _ _, ret (0, [])
}.
Definition t0 : task unit := Task m0 dir [me1] (replicate 16 0) 0 tt.


Lemma page_fault_correct_witness :
  ∃ t' l', page_fault kend0 0x60001234 t0 = Ok tt t' ∧ pgdir t' = pgdir t0 ∧ vm_ok (mem t') (pgdir t0) l' ∧
    match list_find (λ me, inside 0x60001234 me = true) (mmaps t0) with
    | None => t' = Task (mem t0) (pgdir t0) (mmaps t0) (ofile t0) 1 (fs t0)
    | Some (i, me) => fault_handled t0 0x60001234 i me [pg1; pg2] t' l'
    end.
Proof.
  apply (page_fault_correct kend0 t0 0x60001234 [pg1; pg2]);
    [apply vm_ok_m0|apply kpage_m0|lia|apply mapping_m0|]. by repeat constructor.
Defined.

(** With its two free pages the process survives the fault. *)
Example page_fault_survives :
  match page_fault kend0 0x60001234 t0 with
  | Ok _ t' => (killed t', n_loaded_pages <$> mmaps t') = (0, [1])
  | Fault => False
  end.
Proof. vm_compute. reflexivity. Qed.

Definition private1 : mmap_entry := Me pg1 0x60000000 0x1000 5 1 0 0 0.
Definition t1 : task unit := Task m0 dir [private1; me1] (replicate 16 0) 0 tt.

Lemma exit_private_never_returns_witness : has (flags private1) MAP_PRIVATE = true ∧ exit_mmaps kend0 100 t1 = Fault.
Proof. split; [reflexivity|]. by apply (exit_private_never_returns kend0 100 t1 private1 [me1]). Defined.

End WmapExamples.
