(* ===== verification/ProcSys.v ===== *)
(** ProcSys: the system calls of p5 on mutexes, priorities and time
    (p5/xv6-public/sysproc.c, mutex.c): [sys_macquire], [sys_mrelease],
    [sys_nice], [sys_sleep], on top of the process table of [Proc]. *)
From Stdlib Require Import Strings.Byte.
From S2P Require Import Prelude Memory Proc ProcInv ProcSched Kalloc.
From stdpp Require Import gmap.
Local Open Scope Z_scope.

Module ProcSys.
Import Proc ProcInv ProcSched.

(** * Data *)

(** [mutex], without its spinlock: each call runs with it held. *)
Record mutex := Mutex { m_locked : Z; m_pid : Z }.

(** [minit] *)
Definition minit : mutex := Mutex 0 0.

Definition KERNBASE : Z := 0x80000000.

(** Mutexes live in user memory, at the addresses of the threads that share it. *)
Record system (V : Type) := System { kern : kernel V; mutexes : gmap Z mutex; ticks : Z }.
Arguments System {V}. Arguments kern {V}. Arguments mutexes {V}. Arguments ticks {V}.

(** A system call ends with a value or leaves the caller asleep, to try again
    when it is woken. *)
Inductive outcome := Return (r : Z) | Asleep.

Section Calls.
Context {V : Type} `{Services V}.
(** The page-table entry of an address: what [walkpgdir] finds. *)
Context (pte_of : Z → Z → option Z).
Abbreviation Y := (ST (system V)).

Definition on_kern {A} (f : ST (kernel V) A) : Y A := λ s,
  match f (kern s) with
  | Ok a k => Ok a (System k (mutexes s) (ticks s))
  | Fault => Fault
  end.
Definition get_mutex (m : Z) : Y mutex := λ s,
  match mutexes s !! m with Some x => Ok x s | None => Fault end.
Definition set_mutex (m : Z) (x : mutex) : Y unit :=
  modify (λ s, System (kern s) (<[m := x]> (mutexes s)) (ticks s)).

(** [V2P( *pte)]: what the code uses for the physical address of the mutex. *)
Definition m_phys (pte : Z) : Z := u32 (pte - KERNBASE).

(** [curproc->locks_held[curproc->num_locks_held++] = m_phys] *)
Definition hold_lock (cur : nat) (a : Z) : ST (kernel V) unit :=
  let! p := get_proc cur in
  let n := num_locks_held p in
  if (n <? 0) || (MAXMUTEXLOCKSHELD <=? n) then fault else
  upd_proc cur (λ p, set_num_locks_held (n + 1) (set_locks_held (<[Z.to_nat n := a]> (locks_held p)) p)).

(** [int sys_macquire(void)], from [acquire(&m->lk)] on each time it runs. *)
Definition sys_macquire (cur : nat) (arg : option Z) : Y outcome :=
  match arg with
  | None => ret (Return (-1))
  | Some m =>
      let! p := on_kern (get_proc cur) in
      match pte_of (pgdir p) m with
      | None => ret (Return (-1))
      | Some pte =>
          let a := m_phys pte in
          let! x := get_mutex m in
          if negb (m_locked x =? 0) then
            do! on_kern (go_to_sleep (AddrChan a) cur) in ret Asleep
          else
            do! set_mutex m (Mutex 1 (pid p)) in
            do! on_kern (hold_lock cur a) in
            ret (Return 0)
      end
  end.

(** The loop of [sys_mrelease] on [locks_held] and [num_locks_held]. *)
Fixpoint drop_lock (fuel : nat) (a i : Z) (held : list Z) (n : Z) : list Z * Z :=
  match fuel with
  | O => (held, n)
  | S f =>
      if i <? n then
        if bool_decide (held !! Z.to_nat i = Some a) then
          let n := n - 1 in
          let held := <[Z.to_nat i := nth (Z.to_nat n) held 0]> held in
          drop_lock f a (i + 1) (<[Z.to_nat n := 0]> held) n
        else drop_lock f a (i + 1) held n
      else (held, n)
  end.
Definition release_lock (cur : nat) (a : Z) : ST (kernel V) unit :=
  upd_proc cur (λ p,
    let (held, n) := drop_lock (Z.to_nat (num_locks_held p)) a 0 (locks_held p) (num_locks_held p) in
    set_num_locks_held n (set_locks_held held p)).

(** [int sys_mrelease(void)] *)
Definition sys_mrelease (cur : nat) (arg : option Z) : Y Z :=
  match arg with
  | None => ret (-1)
  | Some m =>
      let! p := on_kern (get_proc cur) in
      match pte_of (pgdir p) m with
      | None => ret (-1)
      | Some pte =>
          let a := m_phys pte in
          let! _ := get_mutex m in
          do! on_kern (release_lock cur a) in
          do! set_mutex m (Mutex 0 0) in
          do! on_kern (wakeup (AddrChan a)) in
          ret 0
      end
  end.

(** [int sys_nice(void)]; the sum of two [int]s must not overflow. *)
Definition sys_nice (cur : nat) (arg : option Z) : ST (kernel V) Z :=
  match arg with
  | None => ret (-1)
  | Some inc =>
      let! p := get_proc cur in
      let inc := inc + nice p in
      if (inc <? - 2 ^ 31) || (2 ^ 31 <=? inc) then fault else
      let inc := if 19 <? inc then 19 else if inc <? -20 then -20 else inc in
      do! upd_proc cur (set_nice inc) in
      ret 0
  end.

(** [int sys_sleep(void)], up to its loop, and one test of the loop.
    [ticks - ticks0 < n] compares unsigned integers. *)
Definition sys_sleep_start (cur : nat) (n : Z) : Y (option Z) :=
  if n =? 0 then do! on_kern (yield cur) in ret None else
  let! ticks0 := gets ticks in
  do! on_kern (upd_proc cur (set_sleepticks n)) in
  ret (Some ticks0).
Definition sys_sleep_test (cur : nat) (ticks0 n : Z) : Y outcome :=
  let! t := gets ticks in
  if u32 (t - ticks0) <? u32 n then
    let! p := on_kern (get_proc cur) in
    if negb (killed p =? 0) then ret (Return (-1)) else
    do! on_kern (go_to_sleep TicksChan cur) in ret Asleep
  else
    do! on_kern (upd_proc cur (set_sleepticks (-1))) in ret (Return 0).

(** The timer interrupt on CPU 0 (p5/xv6-public/trap.c). *)
Definition timer_tick : Y unit :=
  do! modify (λ s, System (kern s) (mutexes s) (u32 (ticks s + 1))) in
  on_kern sleep_proc_notify.

(** * Properties *)

Lemma on_kern_ok {A} (f : ST (kernel V) A) s a k :
  f (kern s) = Ok a k → on_kern f s = Ok a (System k (mutexes s) (ticks s)).
Proof. unfold on_kern. by intros ->. Qed.

Lemma get_proc_ok (k : kernel V) i p : ptab k !! i = Some p → get_proc i k = Ok p k.
Proof. unfold get_proc. by intros ->. Qed.

Lemma upd_proc_ok (k : kernel V) i p f :
  ptab k !! i = Some p →
  upd_proc i f k = Ok tt (Kernel (<[i := f p]> (ptab k)) (nextpid k) (initproc k) (uvmrefcount k) (rest k)).
Proof. intros Hp. unfold upd_proc, bind, get_proc. by rewrite Hp. Qed.

(** Acquiring a mutex: a free one becomes locked by the caller, who records it
    among the locks it holds; a locked one is left alone and the caller sleeps
    on the channel of the mutex. *)
Theorem macquire_correct cur m s p pte x :
  ptab (kern s) !! cur = Some p → pte_of (pgdir p) m = Some pte → mutexes s !! m = Some x →
  0 ≤ num_locks_held p < MAXMUTEXLOCKSHELD → length (locks_held p) = 16%nat →
  ∃ s' p', ptab (kern s') !! cur = Some p' ∧
    (∀ i, i ≠ cur → ptab (kern s') !! i = ptab (kern s) !! i) ∧
    if m_locked x =? 0 then
      sys_macquire cur (Some m) s = Ok (Return 0) s' ∧
      mutexes s' = <[m := Mutex 1 (pid p)]> (mutexes s) ∧
      num_locks_held p' = num_locks_held p + 1 ∧
      m_phys pte ∈ take (Z.to_nat (num_locks_held p')) (locks_held p') ∧
      state p' = state p
    else
      sys_macquire cur (Some m) s = Ok Asleep s' ∧ mutexes s' = mutexes s ∧
      state p' = SLEEPING ∧ pchan p' = AddrChan (m_phys pte).
Proof.
  intros Hp Hpte Hx Hn Hlen. pose proof (lookup_lt_Some _ _ _ Hp) as Hlt.
  unfold sys_macquire. rewrite (bind_ok _ _ _ _ _ (on_kern_ok _ _ _ _ (get_proc_ok _ _ _ Hp))).
  assert (System (kern s) (mutexes s) (ticks s) = s) as -> by (by destruct s). rewrite Hpte.
  assert (get_mutex m s = Ok x s) as Hg by (unfold get_mutex; by rewrite Hx).
  rewrite (bind_ok _ _ _ _ _ Hg). destruct (Z.eqb_spec (m_locked x) 0); cbn [negb].
  - eexists _, (set_num_locks_held (num_locks_held p + 1)
      (set_locks_held (<[Z.to_nat (num_locks_held p) := m_phys pte]> (locks_held p)) p)).
    split_and!; cycle 2.
    + erewrite bind_ok by reflexivity. erewrite bind_ok; [reflexivity|].
      apply on_kern_ok. cbn [kern]. unfold hold_lock. rewrite (bind_ok _ _ _ _ _ (get_proc_ok _ _ _ Hp)). cbv zeta.
      assert ((num_locks_held p <? 0) || (MAXMUTEXLOCKSHELD <=? num_locks_held p) = false) as -> by lia.
      by apply upd_proc_ok.
    + done.
    + cbn [set_num_locks_held num_locks_held]. reflexivity.
    + cbn [set_num_locks_held set_locks_held num_locks_held locks_held]. unfold MAXMUTEXLOCKSHELD in *.
      apply list_elem_of_lookup. exists (Z.to_nat (num_locks_held p)). rewrite lookup_take_lt by lia.
      apply list_lookup_insert_eq. lia.
    + done.
    + cbn [kern ptab]. by apply list_lookup_insert_eq.
    + intros i Hi. cbn [kern ptab]. by rewrite list_lookup_insert_ne.
  - eexists _, (set_state SLEEPING (set_pchan (AddrChan (m_phys pte)) p)). split_and!; cycle 2.
    + erewrite bind_ok; [reflexivity|]. apply on_kern_ok. by apply upd_proc_ok.
    + done.
    + done.
    + done.
    + cbn [kern ptab]. by apply list_lookup_insert_eq.
    + intros i Hi. cbn [kern ptab]. by rewrite list_lookup_insert_ne.
Qed.

(** Releasing a mutex frees it and wakes every process that sleeps on its
    channel. *)
Theorem mrelease_correct cur m s p pte x :
  ptab (kern s) !! cur = Some p → pte_of (pgdir p) m = Some pte → mutexes s !! m = Some x →
  ∃ s', sys_mrelease cur (Some m) s = Ok 0 s' ∧
    mutexes s' = <[m := Mutex 0 0]> (mutexes s) ∧
    ∀ i q, ptab (kern s) !! i = Some q → i ≠ cur →
      ∃ q', ptab (kern s') !! i = Some q' ∧
        state q' = if decide (state q = SLEEPING ∧ pchan q = AddrChan (m_phys pte)) then RUNNABLE else state q.
Proof.
  intros Hp Hpte Hx. unfold sys_mrelease.
  rewrite (bind_ok _ _ _ _ _ (on_kern_ok _ _ _ _ (get_proc_ok _ _ _ Hp))).
  assert (System (kern s) (mutexes s) (ticks s) = s) as -> by (by destruct s). rewrite Hpte.
  assert (get_mutex m s = Ok x s) as Hg by (unfold get_mutex; by rewrite Hx).
  rewrite (bind_ok _ _ _ _ _ Hg). eexists. split; [|split].
  - unfold release_lock. erewrite bind_ok by (apply on_kern_ok, (upd_proc_ok _ _ _ _ Hp)).
    erewrite bind_ok by reflexivity. erewrite bind_ok by (apply on_kern_ok; reflexivity). reflexivity.
  - done.
  - intros i q Hq Hi. cbn [kern ptab]. rewrite list_lookup_fmap, list_lookup_insert_ne, Hq by done.
    eexists. split; [done|]. unfold wake. by case_decide.
Qed.

(** Mutexes in one page have the same [m_phys], and the loop of [sys_mrelease]
    goes on after it has moved the last entry down: with three such locks held,
    releasing one forgets two. *)
Theorem mrelease_forgets_locks a held :
  length held = 16%nat → held !! 0%nat = Some a → held !! 1%nat = Some a → held !! 2%nat = Some a →
  (drop_lock 3 a 0 held 3).2 = 1.
Proof.
  intros Hl H0 H1 H2. do 3 (destruct held as [|? held]; [done|]). cbn in H0, H1, H2. simplify_eq.
  cbn. rewrite bool_decide_true by done. cbn. rewrite bool_decide_true by done. done.
Qed.

(** [nice] adds to the priority within [-20, 19]. *)
Theorem nice_correct cur inc (k : kernel V) p :
  ptab k !! cur = Some p → -20 ≤ nice p ≤ 19 → - 2 ^ 31 + 20 ≤ inc < 2 ^ 31 - 19 →
  ∃ k', sys_nice cur (Some inc) k = Ok 0 k' ∧
    ptab k' = <[cur := set_nice (Z.max (-20) (Z.min 19 (nice p + inc))) p]> (ptab k).
Proof.
  intros Hp Hn Hi. unfold sys_nice. rewrite (bind_ok _ _ _ _ _ (get_proc_ok _ _ _ Hp)). cbv zeta.
  assert ((inc + nice p <? - 2 ^ 31) || (2 ^ 31 <=? inc + nice p) = false) as -> by lia.
  eexists. split; [by rewrite (bind_ok _ _ _ _ _ (upd_proc_ok _ _ _ _ Hp))|]. cbn [ptab]. f_equal. f_equal.
  destruct (Z.ltb_spec 19 (inc + nice p)), (Z.ltb_spec (inc + nice p) (-20)); lia.
Qed.

End Calls.
End ProcSys.

(** ProcExamples: a kernel on a simple page allocator, brought up to a state in
    which a child of [init] runs, and the theorems on processes, mutexes and the
    page allocator applied to it. *)
Module ProcExamples.
Import Proc ProcInv ProcSched ProcSys.

(** The rest of the kernel: pages are handed out in order and never run out. *)
Definition next_page : ST Z Z := λ v, Ok v (v + 4096).
Definition services0 : Services Z := {|
  kalloc := next_page; kfree := λ _, ret tt; setupkvm := next_page; inituvm := λ _, ret tt;
  allocuvm := λ _ _ n, ret n; deallocuvm := λ _ _ n, ret n; copyuvm := λ _ _, next_page;
  free_pages := λ _, ret tt; filedup := λ f, ret f; fileclose := λ _, ret tt; idup := λ d, ret d;
  iput_op := λ _, ret tt; namei_root := ret 1; store_user := λ _ _, ret tt
|}.
#[local] Existing Instance services0.

Lemma quiet0 : quiet.
Proof. split_and!; done. Qed.

Definition after {A} (op : ST (kernel Z) A) (k : kernel Z) : kernel Z :=
  match op k with Ok _ k' => k' | Fault => k end.
(** [init] is made, runs, forks, and its child runs. *)
Definition k0 : kernel Z := after (userinit []) (blank 4096).
Definition k1 : kernel Z := after (schedule 0) k0.
Definition k2 : kernel Z := after (fork 0) k1.
Definition k3 : kernel Z := after (schedule 1) k2.

Lemma runs0 : runs 0 k1.
Proof. eexists. split; vm_compute; reflexivity. Qed.
Lemma runs1 : runs 1 k3.
Proof. eexists. split; vm_compute; reflexivity. Qed.

Lemma kreach_k3 : kreach [] k3.
Proof.
  eapply kr_step; [eapply kr_step; [eapply kr_step; [eapply (kr_boot _ 4096)|]|]|].
  - instantiate (1 := k0). vm_compute. reflexivity.
  - apply (ks_schedule 0 (Some 0%nat) k0 k1). vm_compute. reflexivity.
  - apply (ks_fork 0 2 k1 k2); [exact runs0|vm_compute; reflexivity|vm_compute; reflexivity].
  - apply (ks_schedule 1 (Some 1%nat) k2 k3). vm_compute. reflexivity.
Qed.

Lemma process_table_invariant_witness : table_ok (ptab k3) (nextpid k3) (initproc k3) ∧ is_Some (initproc k3).
Proof. apply (process_table_invariant [] k3). exact kreach_k3. Defined.

(** A table of two runnable processes. *)
Definition job (n : Z) : proc := set_nice n (set_pgdir 8192 (set_kstack 4096 (set_state RUNNABLE proc0))).
Definition kjobs : kernel Z := Kernel [job 5; job 2] 3 None [Uvm (-1) 0] 0.

Lemma scheduler_picks_least_witness :
  ∃ r k', schedule 0 kjobs = Ok r k' ∧
          ∃ i p x, r = Some i ∧ ptab kjobs !! i = Some p ∧ priority (ptab kjobs) p x ∧ x ≤ 2.
Proof.
  destruct (scheduler_picks_least 0 kjobs) as ([i|] & k' & E & H).
  - intros [|[|i]] p; cbn; [by intros [= <-]..|by intros].
  - exists (Some i), k'. split; [exact E|]. destruct H as (p & x & Hp & _ & _ & Hx & Hle & _). exists i, p, x.
    split; [reflexivity|]. split; [exact Hp|]. split; [exact Hx|].
    apply (Hle 1%nat (job 2) 2); [reflexivity|reflexivity|]. by apply priority_inherit.
  - exfalso. vm_compute in E. discriminate E.
Defined.

Lemma sleep_wakes_after_witness :
  state (Nat.iter 4 notify (set_sleepticks 3 (set_pchan TicksChan (set_state SLEEPING proc0)))) = RUNNABLE.
Proof.
  refine (sleep_wakes_after 3 4 _ _ _ _ _); [reflexivity|reflexivity|reflexivity|lia].
Defined.

Lemma kill_zero_marks_unborn_witness :
  ∃ k k' q, kill 0 k3 = Ok 0 k ∧ alloc_slot k = Ok (Some 2%nat) k' ∧ ptab k' !! 2%nat = Some q ∧
            state q = EMBRYO ∧ pid q = nextpid k3 ∧ killed q = 1.
Proof. apply (kill_zero_marks_unborn k3 2 proc0); vm_compute; reflexivity. Defined.

Lemma exit_leaves_zombie_witness : ∃ k', exit 1 k3 = Ok tt k' ∧ exited 1 k'.
Proof.
  pose proof (exit_leaves_zombie 1 0 k3 quiet0 (proj1 (kreach_booted _ _ kreach_k3)) runs1) as H.
  destruct H as (k' & E & _ & Hx); [vm_compute; reflexivity|]. exists k'. split; [exact E|exact Hx].
Defined.

Lemma counts0 : counts_ok [Uvm (-1) 0].
Proof.
  split.
  - intros [|i] d; cbn; [by intros [= <-]|done].
  - intros [|i] [|j] d e; cbn; try done; by intros [= <-].
Qed.

(** [init] waits for a child that has exited. *)
Definition dead : proc := set_parent (Some 0%nat) (set_pid 7 (set_state ZOMBIE (job 0))).
Definition kdead : kernel Z := Kernel [job 0; dead] 8 (Some 0%nat) [Uvm (-1) 0] 0.
Lemma wait_scan_correct_witness : ∃ r k', wait_scan 0 kdead = Ok r k' ∧ wait_outcome 0 kdead r k'.
Proof.
  apply (wait_scan_correct 0 kdead); [exact quiet0|exact counts0|cbn; lia|].
  intros [|[|i]] p; cbn; [by intros [= <-]..|by intros].
Defined.

Lemma uvm_refcounts_witness :
  ∃ u, share_uvm 8192 kdead = Ok tt (Kernel (ptab kdead) 8 (Some 0%nat) u 0) ∧ users 8192 u = 2.
Proof.
  destruct (uvm_refcounts 8192 kdead) as [(u & E & _ & Hu & _) _]; [exact counts0|intros _; by constructor|].
  exists u. split; [exact E|exact Hu].
Defined.

(** ** System calls *)

Definition pte0 (pg a : Z) : option Z := Some 0x80003007.
Definition sys0 : system Z := System kjobs {[100 := minit]} 0.

Lemma macquire_correct_witness :
  ∃ s' p', ptab (kern s') !! 0%nat = Some p' ∧
    sys_macquire pte0 0 (Some 100) sys0 = Ok (Return 0) s' ∧ num_locks_held p' = 1.
Proof.
  destruct (macquire_correct pte0 0 100 sys0 (job 5) 0x80003007 minit) as (s' & p' & Hp & _ & H);
    [reflexivity|reflexivity|reflexivity|split; [discriminate|reflexivity]|reflexivity|].
  destruct H as (E & _ & Hn & _). exists s', p'. split; [exact Hp|]. split; [exact E|exact Hn].
Defined.

Lemma mrelease_correct_witness :
  ∃ s', sys_mrelease pte0 0 (Some 100) sys0 = Ok 0 s' ∧ mutexes s' = <[100 := Mutex 0 0]> (mutexes sys0).
Proof.
  destruct (mrelease_correct pte0 0 100 sys0 (job 5) 0x80003007 minit) as (s' & E & Hm & _);
    [reflexivity|reflexivity|reflexivity|]. exists s'. split; [exact E|exact Hm].
Defined.

Lemma mrelease_forgets_locks_witness : (drop_lock 3 0x3007 0 (replicate 16 0x3007) 3).2 = 1.
Proof. apply (mrelease_forgets_locks 0x3007 (replicate 16 0x3007)); reflexivity. Defined.

Lemma nice_correct_witness : ∃ k', sys_nice 0 (Some 30) kjobs = Ok 0 k' ∧ ptab k' = [job 19; job 2].
Proof. apply (nice_correct 0 30 kjobs (job 5)); [reflexivity|cbn; lia|lia]. Defined.

(** ** The page allocator *)

Definition page_a : Z := 0x80100000.
Definition mem0 : Kalloc.phys := Kalloc.Phys 0 {[page_a := replicate 1024 0]}.

Lemma kpage_a : Kalloc.kpage 0x80000000 page_a.
Proof. split_and!; done. Qed.

Lemma kalloc_is_stack_witness :
  ∃ m', Kalloc.kfree 0x80000000 page_a mem0 = Ok tt m' ∧ ∃ m'', Kalloc.kalloc m' = Ok page_a m''.
Proof.
  destruct (Kalloc.kalloc_is_stack 0x80000000 mem0 page_a (replicate 1024 0) []) as [(m' & E & _ & _ & m'' & E' & _) _];
    [reflexivity|constructor|exact kpage_a|by apply not_elem_of_nil|apply lookup_singleton_eq|by rewrite length_replicate|].
  exists m'. split; [exact E|]. exists m''. exact E'.
Defined.

Lemma freerange_frees_all_witness :
  ∃ m', Kalloc.freerange 0x80000000 page_a (page_a + 4096) mem0 = Ok tt m' ∧
        Kalloc.chain (Kalloc.frames m') (Kalloc.freelist m') [page_a].
Proof.
  destruct (Kalloc.freerange_frees_all 0x80000000 mem0 page_a 1 []) as (m' & E & H);
    [reflexivity|reflexivity|reflexivity|reflexivity| |].
  - intros [|i] Hi; [|lia]. split_and!; [exact kpage_a|by apply not_elem_of_nil|].
    exists (replicate 1024 0). split; [apply lookup_singleton_eq|by rewrite length_replicate].
  - exists m'. split; [exact E|exact H].
Defined.

End ProcExamples.
