(* ===== verification/Printf.v ===== *)
(** Printf: the formatted output of the kernel ([cprintf] in
    p4/xv6-public/console.c) and of user programs ([printf] in printf.c).  The
    two have the same [printint] up to the table of digits; the place where the
    characters go is a parameter. *)
From S2P Require Import Prelude.
Local Open Scope Z_scope.

Module Printf.

Definition c_percent : Z := 37.
Definition c_minus : Z := 45.
Definition c_c : Z := 99.
Definition c_d : Z := 100.
Definition c_p : Z := 112.
Definition c_s : Z := 115.
Definition c_x : Z := 120.

(** ["0123456789abcdef"] of console.c and ["0123456789ABCDEF"] of printf.c *)
Definition lower_digits : list Z := [48; 49; 50; 51; 52; 53; 54; 55; 56; 57; 97; 98; 99; 100; 101; 102].
Definition upper_digits : list Z := [48; 49; 50; 51; 52; 53; 54; 55; 56; 57; 65; 66; 67; 68; 69; 70].

(** The words after the format: a number, or a pointer to a string (which ends at
    its first null character). *)
Inductive arg := Word (w : Z) | Str (s : list Z).

(** ["(null)"] *)
Definition null_text : list Z := [40; 110; 117; 108; 108; 41].

(** [char buf[16]] of [printint] *)
Definition BUF : nat := 16.

Section Output.
Context {S : Type} (putc : Z → ST S unit).

(** [do buf[i++] = digits[x % base]; while((x /= base) != 0)]: the characters
    stored.  A store behind the end of [buf] is a fault. *)
Definition digit_turn {T} (digits : list Z) (base : Z) : Z * list Z → ST T ((Z * list Z) + list Z) := λ '(x, buf),
  let! d := of_opt (digits !! Z.to_nat (x mod base)) in
  let buf := buf ++ [d] in
  let x := x / base in
  if x =? 0 then ret (inr buf) else ret (inl (x, buf)).
Definition digit_loop {T} (digits : list Z) (x base : Z) : ST T (list Z) :=
  loop BUF (digit_turn digits base) (x, []).

(** [while(--i >= 0) putc(buf[i])] *)
Fixpoint put_all (cs : list Z) : ST S unit :=
  match cs with
  | [] => ret tt
  | c :: cs => do! putc c in put_all cs
  end.

(** [static void printint(int xx, int base, int sign)] *)
Definition printint (digits : list Z) (xx base : Z) (sign : bool) : ST S unit :=
  let neg := sign && (xx <? 0) in
  let x := if neg then u32 (- xx) else u32 xx in
  let! buf := digit_loop digits x base in
  let! buf := (if neg then if (length buf <? BUF)%nat then ret (buf ++ [c_minus]) else fault
               else ret buf) in
  put_all (reverse buf).

(** The string that an argument points to. *)
Definition string_arg (a : arg) : ST S (list Z) :=
  match a with
  | Str s => ret s
  | Word w => if w =? 0 then ret null_text else fault
  end.
Definition word_arg (a : arg) : ST S Z :=
  match a with Word w => ret w | Str _ => fault end.
Definition next_arg (args : list arg) : ST S (arg * list arg) := of_opt (match args with a :: t => Some (a, t) | [] => None end).

(** What follows a [%] in [cprintf]. *)
Definition cprintf_conv (c : Z) (args : list arg) : ST S (list arg) :=
  if c =? c_d then
    let! (a, args) := next_arg args in
    let! v := word_arg a in
    do! printint lower_digits (i32 v) 10 true in ret args
  else if (c =? c_x) || (c =? c_p) then
    let! (a, args) := next_arg args in
    let! v := word_arg a in
    do! printint lower_digits (i32 v) 16 false in ret args
  else if c =? c_s then
    let! (a, args) := next_arg args in
    let! s := string_arg a in
    do! put_all s in ret args
  else if c =? c_percent then do! putc c_percent in ret args
  else do! putc c_percent in do! putc c in ret args.

(** [void cprintf(char *fmt, ...)]: the format without its null character. *)
Fixpoint cprintf (fmt : list Z) (args : list arg) : ST S unit :=
  match fmt with
  | [] => ret tt
  | c :: fmt =>
      if negb (c =? c_percent) then do! putc c in cprintf fmt args else
      match fmt with
      | [] => ret tt
      | c :: fmt => let! args := cprintf_conv c args in cprintf fmt args
      end
  end.

(** What follows a [%] in the user program's [printf]. *)
Definition printf_conv (c : Z) (args : list arg) : ST S (list arg) :=
  if c =? c_d then
    let! (a, args) := next_arg args in
    let! v := word_arg a in
    do! printint upper_digits (i32 v) 10 true in ret args
  else if (c =? c_x) || (c =? c_p) then
    let! (a, args) := next_arg args in
    let! v := word_arg a in
    do! printint upper_digits (i32 v) 16 false in ret args
  else if c =? c_s then
    let! (a, args) := next_arg args in
    let! s := string_arg a in
    do! put_all s in ret args
  else if c =? c_c then
    let! (a, args) := next_arg args in
    let! v := word_arg a in
    do! putc v in ret args
  else if c =? c_percent then do! putc c in ret args
  else do! putc c_percent in do! putc c in ret args.

(** One turn of the loop of [printf]: [state] is [true] after a [%]. *)
Definition printf_step (c : Z) (state : bool) (args : list arg) : ST S (bool * list arg) :=
  if negb state then
    if c =? c_percent then ret (true, args) else do! putc c in ret (false, args)
  else let! args := printf_conv c args in ret (false, args).

(** [void printf(int fd, const char *fmt, ...)] *)
Fixpoint printf_loop (fmt : list Z) (state : bool) (args : list arg) : ST S unit :=
  match fmt with
  | [] => ret tt
  | c :: fmt => let! (state, args) := printf_step c state args in printf_loop fmt state args
  end.
Definition printf (fmt : list Z) (args : list arg) : ST S unit := printf_loop fmt false args.

End Output.

(** * Numbers and their text *)

(** What the digits stand for, the lowest first. *)
Definition value (base : Z) (ds : list Z) : Z := foldr (λ d v, d + base * v) 0 ds.

(** Reading a number back: the characters are digits of the table, the highest
    first, behind a sign. *)
Definition read_digit (digits : list Z) (c : Z) : option Z := Z.of_nat ∘ fst <$> list_find (eq c) digits.
Definition read_digits (digits : list Z) (base : Z) (cs : list Z) : option Z :=
  foldl (λ acc c, v ← acc; d ← read_digit digits c; Some (v * base + d)) (Some 0) cs.
Definition read_number (digits : list Z) (base : Z) (cs : list Z) : option Z :=
  match cs with
  | c :: cs' => if c =? c_minus then Z.opp <$> read_digits digits base cs' else read_digits digits base cs
  | [] => None
  end.

(** A table of sixteen different characters, none of them a sign. *)
Record table_ok (digits : list Z) : Prop := {
  to_length : length digits = 16%nat;
  to_nodup : NoDup digits;
  to_sign : c_minus ∉ digits
}.

Lemma lower_ok : table_ok lower_digits.
Proof. split; [done|by apply (bool_decide_unpack _); vm_compute|by apply (bool_decide_unpack _); vm_compute]. Qed.
Lemma upper_ok : table_ok upper_digits.
Proof. split; [done|by apply (bool_decide_unpack _); vm_compute|by apply (bool_decide_unpack _); vm_compute]. Qed.

Section Numbers.
Context (digits : list Z) (base : Z) (Ht : table_ok digits) (Hb : 2 ≤ base ≤ 16).

Definition digit_char (d : Z) : Z := nth (Z.to_nat d) digits 0.
Definition is_digit (d : Z) : Prop := 0 ≤ d < base.

Lemma digit_lookup d : is_digit d → digits !! Z.to_nat d = Some (digit_char d).
Proof. intros [? ?]. apply lookup_nth. rewrite (to_length _ Ht). lia. Qed.

Lemma read_digit_char d : is_digit d → read_digit digits (digit_char d) = Some d.
Proof.
  intros Hd. unfold read_digit. pose proof (digit_lookup d Hd) as E.
  assert (list_find (eq (digit_char d)) digits = Some (Z.to_nat d, digit_char d)) as ->.
  { apply list_find_Some. split; [done|]. split; [done|]. intros j y Hj Hlt Hy. subst y.
    pose proof (NoDup_lookup _ _ _ _ (to_nodup _ Ht) Hj E). lia. }
  cbn. f_equal. destruct Hd. lia.
Qed.

Lemma digit_char_sign d : is_digit d → digit_char d ≠ c_minus.
Proof. intros Hd E. apply (to_sign _ Ht). rewrite <- E. eapply list_elem_of_lookup_2. by apply digit_lookup. Qed.

Lemma read_digits_app cs c : read_digits digits base (cs ++ [c]) =
  (v ← read_digits digits base cs; d ← read_digit digits c; Some (v * base + d)).
Proof. unfold read_digits. by rewrite foldl_app. Qed.

Lemma read_digits_reverse ds : Forall is_digit ds → read_digits digits base (reverse (digit_char <$> ds)) = Some (value base ds).
Proof.
  induction 1 as [|d ds Hd _ IH]; [done|]. rewrite fmap_cons, reverse_cons, read_digits_app, IH. cbn [mbind option_bind].
  rewrite read_digit_char by done. cbn [mbind option_bind]. f_equal. cbn [value foldr]. fold (value base ds). lia.
Qed.

(** The digits that the loop stores: those of [x], without leading zeros. *)
Definition numeral (x : Z) (ds : list Z) : Prop :=
  Forall is_digit ds ∧ value base ds = x ∧ ds ≠ [] ∧ (0 < x → base ^ (Z.of_nat (length ds) - 1) ≤ x) ∧ (x = 0 → ds = [0]).

Lemma numeral_zero : numeral 0 [0].
Proof. split_and!; [by constructor; [split; lia|]|cbn; lia|done|lia|done]. Qed.

Lemma numeral_step x ds : 0 < x / base → numeral (x / base) ds → numeral x (x mod base :: ds).
Proof.
  intros Hx (Hd & Hv & Hne & Hlen & _). pose proof (Z.div_mod x base ltac:(lia)). pose proof (Z.mod_pos_bound x base ltac:(lia)).
  assert (x ≠ 0) by (intros ->; rewrite Z.div_0_l in Hx; lia).
  split_and!; [by constructor| |done| |done].
  - cbn [value foldr]. fold (value base ds). rewrite Hv. lia.
  - intros _. specialize (Hlen Hx). cbn [length]. destruct ds as [|d ds]; [done|]. cbn [length] in *.
    replace (Z.of_nat (S (S (length ds))) - 1) with (Z.succ (Z.of_nat (S (length ds)) - 1)) by lia.
    rewrite Z.pow_succ_r by lia. nia.
Qed.

Lemma digit_loop_ok x : 0 ≤ x < base ^ Z.of_nat BUF →
  ∃ ds, numeral x ds ∧ ∀ T (s : T), digit_loop digits x base s = Ok (digit_char <$> ds) s.
Proof.
  unfold digit_loop.
  enough (∀ fuel x buf, (0 < fuel)%nat → 0 ≤ x < base ^ Z.of_nat fuel →
    ∃ ds, numeral x ds ∧ ∀ T (s : T), loop fuel (digit_turn digits base) (x, buf) s = Ok (buf ++ (digit_char <$> ds)) s) as H.
  { intros Hx. apply (H BUF x []); [unfold BUF; lia|done]. }
  clear x. intros fuel. induction fuel as [|fuel IH]; intros x buf Hf Hx; [lia|].
  pose proof (Z.mod_pos_bound x base ltac:(lia)) as Hm. pose proof (Z.div_mod x base ltac:(lia)) as Hdm.
  assert (∀ T (s : T), digit_turn digits base (x, buf) s = Ok (if x / base =? 0 then inr (buf ++ [digit_char (x mod base)])
                                else inl (x / base, buf ++ [digit_char (x mod base)])) s) as E.
  { intros T s. unfold digit_turn. rewrite digit_lookup by done. cbn. by destruct (x / base =? 0). }
  destruct (Z.eqb_spec (x / base) 0) as [E0|E0].
  - exists [x mod base]. split; [|intros T s; by rewrite (loop_exit _ _ _ _ _ _ (E T s))]. assert (x mod base = x) as -> by lia.
    split_and!; [by constructor; [split; lia|]|cbn; lia|done|cbn; lia|intros ->; done].
  - assert (0 < x / base) by (pose proof (Z.div_pos x base); lia).
    destruct fuel as [|fuel]; [change (Z.of_nat 1) with 1 in Hx; rewrite Z.pow_1_r in Hx; rewrite Z.div_small in E0; lia|].
    destruct (IH (x / base) (buf ++ [digit_char (x mod base)])) as (ds & Hn & E'); [lia| |].
    { split; [lia|]. apply Z.div_lt_upper_bound; [lia|]. rewrite <- Z.pow_succ_r by lia. replace (Z.succ (Z.of_nat (S fuel))) with (Z.of_nat (S (S fuel))) by lia. lia. }
    exists (x mod base :: ds). split; [by apply numeral_step|]. intros T s. rewrite (loop_next _ _ _ _ _ _ (E T s)), E'. by rewrite <- app_assoc.
Qed.

Lemma numeral_length x ds : 5 ≤ base → 0 ≤ x < 2 ^ 32 → numeral x ds → (length ds < BUF)%nat.
Proof.
  intros Hb5 Hx (_ & _ & Hne & Hlen & H0). destruct (Z.eq_dec x 0) as [->|]; [rewrite H0 by done; unfold BUF; cbn [length]; lia|].
  specialize (Hlen ltac:(lia)). destruct (decide (length ds < BUF)%nat) as [|Hl]; [done|]. exfalso. unfold BUF in Hl.
  assert (5 ^ 15 ≤ base ^ (Z.of_nat (length ds) - 1)); [|change (5 ^ 15) with 30517578125 in *; lia].
  transitivity (base ^ 15); [apply Z.pow_le_mono_l; lia|apply Z.pow_le_mono_r; lia].
Qed.
End Numbers.

(** The text of a number. *)
Definition int_text (digits : list Z) (xx base : Z) (sign : bool) (cs : list Z) : Prop :=
  ∃ ds, numeral base (if sign then Z.abs xx else u32 xx) ds ∧
        cs = (if sign && (xx <? 0) then [c_minus] else []) ++ reverse (digit_char digits <$> ds).

Lemma printint_ok digits base xx sign : table_ok digits → 5 ≤ base ≤ 16 → - 2 ^ 31 ≤ xx < 2 ^ 31 →
  ∃ cs, int_text digits xx base sign cs ∧
        ∀ S (putc : Z → ST S unit) s, printint putc digits xx base sign s = put_all putc cs s.
Proof.
  intros Ht Hb Hxx. set (x := if sign then Z.abs xx else u32 xx).
  assert (0 ≤ x < 2 ^ 32) as Hx by (unfold x; destruct sign; [lia|by apply wrapu_range]).
  assert ((if sign && (xx <? 0) then u32 (- xx) else u32 xx) = x) as Ex.
  { unfold x. destruct sign; cbn [andb]; [|done]. destruct (Z.ltb_spec xx 0); rewrite u32_small; lia. }
  assert (x < base ^ Z.of_nat BUF) as Hx'.
  { apply (Z.lt_le_trans _ (5 ^ 16)); [change (5 ^ 16) with 152587890625; lia|]. apply Z.pow_le_mono_l. lia. }
  destruct (digit_loop_ok digits base Ht ltac:(lia) x ltac:(lia)) as (ds & Hn & E).
  pose proof (numeral_length base ltac:(lia) x ds ltac:(lia) Hx Hn) as Hl.
  eexists. split; [exists ds; split; [exact Hn|reflexivity]|].
  intros S putc s. unfold printint. rewrite Ex, (bind_ok _ _ _ _ _ (E S s)).
  destruct (sign && (xx <? 0)).
  - rewrite length_fmap, (proj2 (Nat.ltb_lt _ _)) by done. by rewrite bind_ret_l, reverse_app.
  - done.
Qed.

(** A number without a sign. *)
Lemma read_unsigned digits base ds :
  table_ok digits → 2 ≤ base ≤ 16 → Forall (is_digit base) ds → ds ≠ [] →
  read_number digits base (reverse (digit_char digits <$> ds)) = Some (value base ds).
Proof.
  intros Ht Hb Hd Hne. rewrite <- (read_digits_reverse digits base Ht Hb ds Hd).
  destruct (reverse (digit_char digits <$> ds)) as [|c cs] eqn:E.
  { apply (f_equal length) in E. rewrite length_reverse, length_fmap in E. by destruct ds. }
  assert (c ∈ digit_char digits <$> ds) as (d & -> & Hd')%list_elem_of_fmap by (rewrite <- elem_of_reverse, E; left).
  rewrite Forall_forall in Hd. cbn [read_number]. rewrite (proj2 (Z.eqb_neq _ _)); [done|]. eapply digit_char_sign; eauto.
Qed.

Lemma int_text_read digits base xx sign cs :
  table_ok digits → 2 ≤ base ≤ 16 → int_text digits xx base sign cs →
  read_number digits base cs = Some (if sign then xx else u32 xx).
Proof.
  intros Ht Hb (ds & (Hd & Hv & Hne & _) & ->). destruct sign; cbn [andb] in *; [destruct (Z.ltb_spec xx 0)|]; cbn [app].
  - cbn [read_number]. rewrite Z.eqb_refl, (read_digits_reverse digits base Ht Hb ds Hd), Hv. cbn. f_equal. lia.
  - rewrite read_unsigned, Hv by done. f_equal. lia.
  - by rewrite read_unsigned, Hv.
Qed.

(** [printint] writes the text of a number: the buffer of 16 characters is long
    enough for every base from 5 on, and reading the text gives the number back,
    [-2 ^ 31] included. *)
Theorem printint_roundtrip digits base xx sign :
  table_ok digits → 5 ≤ base ≤ 16 → - 2 ^ 31 ≤ xx < 2 ^ 31 →
  ∃ cs, (∀ S (putc : Z → ST S unit) s, printint putc digits xx base sign s = put_all putc cs s) ∧
        read_number digits base cs = Some (if sign then xx else u32 xx).
Proof.
  intros Ht Hb Hxx. destruct (printint_ok digits base xx sign Ht Hb Hxx) as (cs & Hcs & E).
  exists cs. split; [done|]. eapply int_text_read; [done|lia|done].
Qed.

End Printf.

(** Screen: the output side of the console (p4/xv6-public/console.c, [cgaputc] and
    [consputc]; uart.c, [uartputc]): the text memory of the display, the cursor
    registers of its controller, and the characters sent to the serial port. *)
Module Screen.
Import Printf.

Definition BACKSPACE : Z := 0x100.
Definition newline : Z := 10.
(** 25 rows of 80 characters; the last row is not used. *)
Definition cols : Z := 80.
Definition cells : Z := 25 * 80.
Definition visible : Z := 24 * 80.

(** [crt], the registers 14 and 15 of the controller (the cursor), whether there is
    a serial port, and what was sent to it. *)
Record screen := Scr { crt : list Z; cur_hi : Z; cur_lo : Z; uart : bool; serial : list Z }.

Definition set_crt (cs : list Z) : ST screen unit :=
  modify (λ s, Scr cs (cur_hi s) (cur_lo s) (uart s) (serial s)).
(** [crt[i] = v] *)
Definition crt_store (i v : Z) : ST screen unit :=
  let! cs := gets crt in
  if (i <? 0) || (Z.of_nat (length cs) <=? i) then fault else set_crt (<[Z.to_nat i := v]> cs).
(** [memmove(crt, crt+80, sizeof(crt[0])*23*80)] *)
Definition crt_scroll : ST screen unit :=
  let! cs := gets crt in
  if Z.of_nat (length cs) <? 24 * 80 then fault else
  set_crt (take (23 * 80) (drop 80 cs) ++ drop (23 * 80) cs).
(** [memset(crt+pos, 0, sizeof(crt[0])*n)] *)
Definition crt_clear (pos n : Z) : ST screen unit :=
  let! cs := gets crt in
  if (pos <? 0) || (n <? 0) || (Z.of_nat (length cs) <? pos + n) then fault else
  set_crt (take (Z.to_nat pos) cs ++ replicate (Z.to_nat n) 0 ++ drop (Z.to_nat (pos + n)) cs).
(** [outb(CRTPORT+1, b)] to the registers 14 and 15. *)
Definition set_cursor (hi lo : Z) : ST screen unit :=
  modify (λ s, Scr (crt s) (hi mod 256) (lo mod 256) (uart s) (serial s)).

(** [static void cgaputc(int c)] *)
Definition cgaputc (c : Z) : ST screen unit :=
  let! hi := gets cur_hi in
  let! lo := gets cur_lo in
  let pos := Z.lor (Z.shiftl hi 8) lo in
  let! pos := (
    if c =? newline then ret (pos + (80 - Z.rem pos 80))
    else if c =? BACKSPACE then ret (if 0 <? pos then pos - 1 else pos)
    else do! crt_store pos (Z.lor (Z.land c 0xff) 0x0700) in ret (pos + 1)) in
  if (pos <? 0) || (25 * 80 <? pos) then fault else
  let! pos := (
    if 24 <=? Z.quot pos 80 then
      do! crt_scroll in
      let pos := pos - 80 in
      do! crt_clear pos (24 * 80 - pos) in
      ret pos
    else ret pos) in
  do! set_cursor (Z.shiftr pos 8) pos in
  crt_store pos (Z.lor 32 0x0700).

(** [void uartputc(int c)]; the loop that waits for the port ends in any case. *)
Definition uartputc (c : Z) : ST screen unit :=
  modify (λ s, if uart s then Scr (crt s) (cur_hi s) (cur_lo s) (uart s) (serial s ++ [c mod 256]) else s).

(** [void consputc(int c)], before any panic. *)
Definition consputc (c : Z) : ST screen unit :=
  do! (if c =? BACKSPACE then do! uartputc 8 in do! uartputc 32 in uartputc 8 else uartputc c) in
  cgaputc c.

(** ** What the reader of the screen sees *)

(** The character in a cell; unused cells look like spaces. *)
Definition glyph (v : Z) : Z := let b := Z.land v 0xff in if b =? 0 then 32 else b.

(** The text of a terminal of 24 rows, up to the cursor; each row but the last has
    its 80 characters.  The oldest row goes when the rows are full. *)
Definition put_text (t : list Z) (c : Z) : list Z :=
  let t := if c =? newline then t ++ replicate (80 - length t mod 80) 32
           else if c =? BACKSPACE then take (pred (length t)) t
           else t ++ [glyph c] in
  if (24 * 80 <=? length t)%nat then drop 80 t else t.
Definition type_text : list Z → list Z → list Z := foldl put_text.

(** The screen shows the text, and the cursor is behind it. *)
Record shows (s : screen) (t : list Z) : Prop := {
  sh_crt : length (crt s) = 2000%nat;
  sh_text : (length t < 1920)%nat;
  sh_cursor : Z.of_nat (length t) = cur_hi s * 256 + cur_lo s ∧ 0 ≤ cur_hi s ∧ 0 ≤ cur_lo s < 256;
  sh_cells : glyph <$> take 1920 (crt s) = t ++ replicate (1920 - length t) 32
}.

(** * The screen shows the text *)

Lemma lor_shiftl a b n : 0 ≤ n → 0 ≤ b < 2 ^ n → Z.lor (Z.shiftl a n) b = a * 2 ^ n + b.
Proof.
  intros Hn Hb. assert (Z.land (Z.shiftl a n) b = 0) as Hl.
  { apply Z.bits_inj'. intros i Hi. rewrite Z.land_spec, Z.bits_0. destruct (decide (i < n)).
    - rewrite Z.shiftl_spec_low by lia. done.
    - rewrite (testbit_small b n i) by lia. apply andb_false_r. }
  rewrite <- Z.lxor_lor, <- Z.add_nocarry_lxor by done. by rewrite Z.shiftl_mul_pow2.
Qed.

Lemma glyph_shown c : glyph (Z.lor (Z.land c 0xff) 0x0700) = glyph c.
Proof.
  unfold glyph. cbv zeta. rewrite Z.land_lor_distr_l. change (Z.land 0x0700 0xff) with 0.
  by rewrite Z.lor_0_r, <- Z.land_assoc.
Qed.

Definition with_crt (s : screen) (cs : list Z) : screen := Scr cs (cur_hi s) (cur_lo s) (uart s) (serial s).

Lemma crt_store_ok s i v : 0 ≤ i < Z.of_nat (length (crt s)) →
  crt_store i v s = Ok tt (with_crt s (<[Z.to_nat i := v]> (crt s))).
Proof.
  intros Hi. unfold crt_store. erewrite bind_ok by reflexivity.
  by assert ((i <? 0) || (Z.of_nat (length (crt s)) <=? i) = false) as -> by lia.
Qed.

(** What is in the visible cells: the text [t], then blanks. *)
Definition filled (cs t : list Z) : Prop :=
  length cs = 2000%nat ∧ (length t ≤ 1920)%nat ∧ glyph <$> take 1920 cs = t ++ replicate (1920 - length t) 32.

Lemma filled_insert cs t v : filled cs t → (length t < 1920)%nat → filled (<[length t := v]> cs) (t ++ [glyph v]).
Proof.
  intros (Hl & Ht & Hc) Hlt. split; [by rewrite length_insert|]. rewrite length_app. cbn [length]. split; [lia|].
  rewrite take_insert_lt by lia. rewrite list_fmap_insert, Hc. rewrite insert_app_r_alt, Nat.sub_diag by lia.
  replace (1920 - length t)%nat with (S (1920 - (length t + 1))) by lia. cbn [replicate insert list_insert]. by rewrite <- app_assoc.
Qed.

Definition blank : Z := Z.lor 32 0x0700.

Lemma filled_blank cs t : filled cs t → filled (<[length t := blank]> cs) t.
Proof.
  intros (Hl & Ht & Hc). split; [by rewrite length_insert|]. split; [lia|]. destruct (decide (length t < 1920)%nat).
  - rewrite take_insert_lt by lia. rewrite list_fmap_insert, Hc. apply list_insert_id.
    rewrite lookup_app_r by lia. apply lookup_replicate. split; [done|lia].
  - by rewrite take_insert_ge by lia.
Qed.

Lemma filled_pad cs t n : filled cs t → (length t + n ≤ 1920)%nat → filled cs (t ++ replicate n 32).
Proof.
  intros (Hl & Ht & Hc) Hn. split; [done|]. rewrite length_app, length_replicate. split; [lia|].
  rewrite Hc, <- app_assoc, <- replicate_add. do 2 f_equal. lia.
Qed.

Lemma filled_take cs t : filled cs t → t ≠ [] → filled (<[length (take (pred (length t)) t) := blank]> cs) (take (pred (length t)) t).
Proof.
  intros (Hl & Ht & Hc) Hne. destruct t as [|x t _] using rev_ind; [done|]. rewrite length_app in *. cbn [length] in *.
  replace (pred (length t + 1)) with (length t) by lia. rewrite take_app_length.
  split; [by rewrite length_insert|]. split; [lia|]. rewrite take_insert_lt by lia. rewrite list_fmap_insert, Hc. change (glyph blank) with 32.
  rewrite <- app_assoc, insert_app_r_alt, Nat.sub_diag by lia. cbn [insert list_insert app].
  by replace (1920 - length t)%nat with (S (1920 - (length t + 1))) by lia.
Qed.

Lemma filled_scroll cs t :
  filled cs t → length t = 1920%nat →
  let cs' := take (23 * 80) (drop 80 cs) ++ drop (23 * 80) cs in
  filled (take 1840 cs' ++ replicate 80 0 ++ drop 1920 cs') (drop 80 t).
Proof.
  intros (Hl & Ht & Hc) Ht'. cbn zeta. change (23 * 80)%nat with 1840%nat. set (a := take 1840 (drop 80 cs)).
  assert (length a = 1840%nat) as Ha by (unfold a; rewrite length_take, length_drop; lia).
  rewrite take_app_length' by done. rewrite Ht', Nat.sub_diag, app_nil_r in Hc.
  split; [|split]; rewrite ?length_app, ?length_drop, ?length_replicate, ?length_app, ?length_drop; [lia..|].
  rewrite Ht'. rewrite take_app_ge by lia. rewrite Ha. rewrite take_app_length' by (rewrite length_replicate; lia).
  rewrite fmap_app, fmap_replicate. f_equal.
  unfold a. rewrite <- Hc, fmap_take, fmap_drop, fmap_take. rewrite skipn_firstn_comm. done.
Qed.

(** The end of [cgaputc]: the cursor. *)
Lemma cursor_ok s t :
  filled (<[length t := blank]> (crt s)) t → (length t < 1920)%nat →
  ∃ s', (do! set_cursor (Z.shiftr (Z.of_nat (length t)) 8) (Z.of_nat (length t)) in
         crt_store (Z.of_nat (length t)) (Z.lor 32 0x0700)) s = Ok tt s' ∧
        shows s' t ∧ uart s' = uart s ∧ serial s' = serial s.
Proof.
  intros (Hl & ? & Hc) Hlt. rewrite length_insert in Hl. erewrite bind_ok by reflexivity. eexists. split.
  { apply crt_store_ok. cbn [crt]. rewrite Hl. lia. }
  rewrite Nat2Z.id. split; [|done]. split; [cbn; by rewrite length_insert|done| |done]. cbn.
  rewrite Z.shiftr_div_pow2 by lia. change (2 ^ 8) with 256.
  pose proof (Z.div_mod (Z.of_nat (length t)) 256 ltac:(lia)). pose proof (Z.mod_pos_bound (Z.of_nat (length t)) 256 ltac:(lia)).
  assert (0 ≤ Z.of_nat (length t) / 256 < 256) by (split; [apply Z.div_pos; lia|apply Z.div_lt_upper_bound; lia]).
  rewrite (Z.mod_small (_ / 256)) by lia. lia.
Qed.

(** From the new position on: scrolling when the rows are full. *)
Lemma scroll_ok s t :
  filled (<[length t := blank]> (crt s)) t →
  ∃ s', (let! pos := (
           if 24 <=? Z.quot (Z.of_nat (length t)) 80 then
             do! crt_scroll in
             let pos := Z.of_nat (length t) - 80 in
             do! crt_clear pos (24 * 80 - pos) in
             ret pos
           else ret (Z.of_nat (length t))) in
         do! set_cursor (Z.shiftr pos 8) pos in
         crt_store pos (Z.lor 32 0x0700)) s = Ok tt s' ∧
        shows s' (if (24 * 80 <=? length t)%nat then drop 80 t else t) ∧ uart s' = uart s ∧ serial s' = serial s.
Proof.
  intros Hf. pose proof Hf as (Hl & Hle & Hc). rewrite length_insert in Hl. rewrite Z.quot_div_nonneg by lia.
  destruct (Nat.leb_spec (24 * 80) (length t)) as [Hge|Hlt].
  - assert (length t = 1920%nat) as Ht by lia. rewrite Ht. clear Hf. rewrite take_insert_ge in Hc by lia.
    assert (filled (crt s) t) as Hf by done.
    change (24 <=? Z.of_nat 1920 / 80) with true. cbn match.
    pose proof (filled_scroll _ _ Hf Ht) as Hs. cbn zeta in Hs.
    set (cs' := take (23 * 80) (drop 80 (crt s)) ++ drop (23 * 80) (crt s)) in *.
    assert (length cs' = 2000%nat) as Hl' by (unfold cs'; rewrite length_app, length_take, !length_drop; lia).
    assert (length (drop 80 t) = 1840%nat) as Hd by (rewrite length_drop; lia).
    destruct (cursor_ok (with_crt s (take 1840 cs' ++ replicate 80 0 ++ drop 1920 cs')) (drop 80 t) (filled_blank _ _ Hs) ltac:(lia)) as (s' & E & Hs').
    exists s'. split; [|done]. rewrite Hd in E. rewrite <- E.
    refine (bind_ok _ _ s 1840 (with_crt s (take 1840 cs' ++ replicate 80 0 ++ drop 1920 cs')) _).
    assert (crt_scroll s = Ok tt (with_crt s cs')) as E1.
    { unfold crt_scroll. erewrite bind_ok by reflexivity. rewrite Hl. done. }
    rewrite (bind_ok _ _ _ _ _ E1). change (Z.of_nat 1920 - 80) with 1840. cbv zeta. change (24 * 80 - 1840) with 80.
    erewrite bind_ok; [reflexivity|]. unfold crt_clear. erewrite bind_ok by reflexivity. cbn [crt with_crt]. rewrite Hl'. done.
  - assert (Z.of_nat (length t) / 80 < 24) by (apply Z.div_lt_upper_bound; lia).
    rewrite (proj2 (Z.leb_gt _ _)) by done. rewrite bind_ret_l. by apply cursor_ok.
Qed.

Lemma cgaputc_ok s t c :
  shows s t → ∃ s', cgaputc c s = Ok tt s' ∧ shows s' (put_text t c) ∧ uart s' = uart s ∧ serial s' = serial s.
Proof.
  intros [Hl Ht (Hcur & Hhi & Hlo) Hc]. assert (filled (crt s) t) as Hf by (split_and!; [done|lia|done]).
  unfold cgaputc. erewrite bind_ok by reflexivity. erewrite bind_ok by reflexivity. cbv zeta.
  rewrite lor_shiftl by (change (2 ^ 8) with 256; lia). change (2 ^ 8) with 256. rewrite <- Hcur.
  assert (∀ p s1 t1 k, p s = Ok (Z.of_nat (length t1)) s1 → filled (<[length t1 := blank]> (crt s1)) t1 → uart s1 = uart s → serial s1 = serial s →
    k = (λ pos, if (pos <? 0) || (25 * 80 <? pos) then fault else
      let! pos := (
        if 24 <=? Z.quot pos 80 then
          do! crt_scroll in let pos := pos - 80 in do! crt_clear pos (24 * 80 - pos) in ret pos
        else ret pos) in
      do! set_cursor (Z.shiftr pos 8) pos in
      crt_store pos (Z.lor 32 0x0700)) →
    ∃ s', bind p k s = Ok tt s' ∧ shows s' (if (24 * 80 <=? length t1)%nat then drop 80 t1 else t1) ∧
          uart s' = uart s ∧ serial s' = serial s) as Hrest.
  { intros p s1 t1 k E Hf1 Eu Es ->. rewrite (bind_ok _ _ _ _ _ E). pose proof Hf1 as (_ & Hle & _).
    assert ((Z.of_nat (length t1) <? 0) || (25 * 80 <? Z.of_nat (length t1)) = false) as -> by lia.
    destruct (scroll_ok s1 t1 Hf1) as (s' & -> & ? & ? & ?). exists s'. split_and!; congruence || done. }
  unfold put_text. destruct (c =? newline); [|destruct (c =? BACKSPACE)].
  - assert (length t mod 80 < 80)%nat by (apply Nat.mod_upper_bound; lia).
    pose proof (Nat.div_mod (length t) 80 ltac:(lia)) as Hdm. assert (length t / 80 < 24)%nat by (apply Nat.Div0.div_lt_upper_bound; lia).
    eapply (Hrest _ s); [|apply filled_blank, filled_pad; [done|lia]|done..].
    rewrite Z.rem_mod_nonneg by lia. rewrite length_app, length_replicate. unfold ret. f_equal.
    change 80 with (Z.of_nat 80). rewrite <- Nat2Z.inj_mod. lia.
  - destruct (decide (t = [])) as [->|Hne]; [apply (Hrest _ s []); [done|by apply filled_blank|done..]|].
    assert (0 < length t)%nat by (destruct t; [done|cbn; lia]). rewrite (proj2 (Z.ltb_lt _ _)) by lia.
    eapply (Hrest _ s); [|by apply filled_take|done..]. rewrite length_take. unfold ret. f_equal. lia.
  - eapply (Hrest _ (with_crt s (<[length t := Z.lor (Z.land c 0xff) 0x0700]> (crt s)))); [| |done..].
    + erewrite bind_ok by (apply crt_store_ok; lia). rewrite Nat2Z.id, length_app. unfold ret. f_equal. cbn [length]. lia.
    + apply filled_blank. rewrite <- glyph_shown. by apply filled_insert.
Qed.

(** What [consputc] sends to the serial port. *)
Definition serial_out (c : Z) : list Z := if c =? BACKSPACE then [8; 32; 8] else [c mod 256].

Lemma consputc_ok s t c :
  shows s t → ∃ s', consputc c s = Ok tt s' ∧ shows s' (put_text t c) ∧ uart s' = uart s ∧
    serial s' = if uart s then serial s ++ serial_out c else serial s.
Proof.
  intros Hs. unfold consputc, serial_out.
  assert (∀ l, shows (Scr (crt s) (cur_hi s) (cur_lo s) (uart s) l) t) as Hl by (intros l; destruct Hs; by split).
  assert (∃ m, (if c =? BACKSPACE then do! uartputc 8 in do! uartputc 32 in uartputc 8 else uartputc c) s = Ok tt m ∧
    shows m t ∧ uart m = uart s ∧ serial m = if uart s then serial s ++ (if c =? BACKSPACE then [8; 32; 8] else [c mod 256]) else serial s)
    as (m & E & Hm & Eu & Es).
  { destruct s as [cs h lo [] out] eqn:Es; destruct (c =? BACKSPACE); eexists; (split; [reflexivity|]); cbn in *; (split; [apply Hl|]);
      (split; [done|]); by rewrite <- ?app_assoc. }
  rewrite (bind_ok _ _ _ _ _ E). destruct (cgaputc_ok m t c Hm) as (s' & -> & ? & Eu' & Es').
  exists s'. split_and!; congruence || done.
Qed.

Lemma put_all_ok s t cs :
  shows s t → ∃ s', put_all consputc cs s = Ok tt s' ∧ shows s' (type_text t cs) ∧ uart s' = uart s ∧
    serial s' = if uart s then serial s ++ concat (serial_out <$> cs) else serial s.
Proof.
  revert s t. induction cs as [|c cs IH]; intros s t Hs; cbn [put_all].
  - exists s. split_and!; [done..|]. cbn. rewrite app_nil_r. by destruct (uart s).
  - destruct (consputc_ok s t c Hs) as (s1 & E & H1 & Eu & Es). rewrite (bind_ok _ _ _ _ _ E).
    destruct (IH s1 _ H1) as (s2 & -> & ? & ? & Es'). exists s2. split_and!; [done..|congruence|].
    rewrite Es', Eu, Es. destruct (uart s); [|done]. cbn. by rewrite <- app_assoc.
Qed.

(** Printing on the console: whatever is printed, in whatever order, the
    kernel does not panic in [cgaputc] and stays within the text memory; the screen
    shows the last 24 rows of the text, with newlines, erased characters, wrapped
    and scrolled rows, with the cursor behind it, and the serial port gets
    every character. *)
Theorem console_shows_text s t cs :
  shows s t → ∃ s', put_all consputc cs s = Ok tt s' ∧ shows s' (type_text t cs) ∧ uart s' = uart s ∧
    serial s' = if uart s then serial s ++ concat (serial_out <$> cs) else serial s.
Proof. apply put_all_ok. Qed.

(** A cleared screen. *)
Definition cleared : screen := Scr (replicate 2000 0x0700) 0 0 true [].

Lemma cleared_shows : shows cleared [].
Proof. split; [done|cbn; lia|cbn; lia|by vm_compute]. Qed.

(** Thirty lines ["1"], of which the first seven are gone. *)
Definition thirty_lines : list Z := concat (replicate 30 [49; 10]).

Lemma console_shows_text_witness : ∃ s', put_all consputc thirty_lines cleared = Ok tt s' ∧
  shows s' (concat (replicate 23 (49 :: replicate 79 32))) ∧ uart s' = true ∧
  serial s' = thirty_lines.
Proof.
  destruct (console_shows_text cleared [] thirty_lines cleared_shows) as (s' & E & H & Eu & Es).
  exists s'. split; [exact E|]. split; [exact H|]. split; [exact Eu|exact Es].
Defined.

End Screen.
