(* ===== verification/Console.v ===== *)
(** Console: the input side of the console (p4/xv6-public/console.c,
    [consoleintr], [consoleread], [consolewrite]) with the keyboard decoder
    (kbd.c, kbd.h).  Interrupts put characters into a ring buffer, where a line
    can be edited until it is complete; processes read from it. *)
From S2P Require Import Prelude Printf.
Local Open Scope Z_scope.

Module Console.
Import Printf Screen.
Ltac Zify.zify_post_hook ::= Z.to_euclidean_division_equations.

Definition INPUT_BUF : Z := 128.
(** [C(x)], the control characters *)
Definition Ctl (x : Z) : Z := x - 64.
Definition C_D : Z := Ctl 68.
Definition C_H : Z := Ctl 72.
Definition C_P : Z := Ctl 80.
Definition C_U : Z := Ctl 85.
Definition DEL : Z := 127.
Definition c_return : Z := 13.

(** The variable [input] and the screen.  The indices are of type [uint] and wrap
    around; a [char] of the buffer is the number of its byte. *)
Record cons := Cons { buf : list Z; r : Z; w : Z; e : Z; scr : screen }.

Definition set_r (x : Z) : ST cons unit := modify (λ s, Cons (buf s) x (w s) (e s) (scr s)).
Definition set_w (x : Z) : ST cons unit := modify (λ s, Cons (buf s) (r s) x (e s) (scr s)).
Definition set_e (x : Z) : ST cons unit := modify (λ s, Cons (buf s) (r s) (w s) x (scr s)).
(** [input.buf[i % INPUT_BUF]] *)
Definition buf_at (i : Z) : ST cons Z := let! b := gets buf in of_opt (b !! Z.to_nat (i mod INPUT_BUF)).
Definition buf_store (i c : Z) : ST cons unit :=
  modify (λ s, Cons (<[Z.to_nat (i mod INPUT_BUF) := c mod 256]> (buf s)) (r s) (w s) (e s) (scr s)).
Definition putc (c : Z) : ST cons unit := λ s,
  match consputc c (scr s) with Ok _ d => Ok tt (Cons (buf s) (r s) (w s) (e s) d) | Fault => Fault end.

(** [case C('U')]: the loop that kills the line. *)
Definition kill_line : ST cons unit :=
  let! s := gets id in
  loop (Z.to_nat (u32 (e s - w s)) + 1) (λ _,
    let! s := gets id in
    if e s =? w s then ret (inr tt) else
    let! c := buf_at (u32 (e s - 1)) in
    if c =? newline then ret (inr tt) else
    do! set_e (u32 (e s - 1)) in
    do! putc BACKSPACE in
    ret (inl tt)) tt.

(** One turn of the loop of [consoleintr]: whether the processes are to be listed
    and whether the readers are woken. *)
Definition consoleintr_char (c : Z) : ST cons (bool * bool) :=
  if c =? C_P then ret (true, false)
  else if c =? C_U then do! kill_line in ret (false, false)
  else if (c =? C_H) || (c =? DEL) then
    let! s := gets id in
    if e s =? w s then ret (false, false) else
    do! set_e (u32 (e s - 1)) in
    do! putc BACKSPACE in
    ret (false, false)
  else
    let! s := gets id in
    if negb (c =? 0) && (u32 (e s - r s) <? INPUT_BUF) then
      let c := if c =? c_return then newline else c in
      do! set_e (u32 (e s + 1)) in
      do! buf_store (e s) c in
      do! putc c in
      let! s := gets id in
      if (c =? newline) || (c =? C_D) || (e s =? u32 (r s + INPUT_BUF)) then
        do! set_w (e s) in ret (false, true)
      else ret (false, false)
    else ret (false, false).

(** [void consoleintr(getc)]: [cs] are the characters that [getc]
    returns until it returns a negative number. *)
Fixpoint consoleintr (cs : list Z) : ST cons (bool * bool) :=
  match cs with
  | [] => ret (false, false)
  | c :: cs =>
      let! (dump, wake) := consoleintr_char c in
      let! (dump', wake') := consoleintr cs in
      ret (dump || dump', wake || wake')
  end.

(** How a call goes on: it returns, or sleeps with [n] bytes to go. *)
Inductive outcome := Return (v : Z) | Sleep (n : Z).

(** [int consoleread(struct inode *ip, char *dst, int n)] from a point where it
    holds the lock and [n] of the [target] bytes are left: the bytes stored and
    how it goes on. *)
Definition read_turn (killed : bool) (target : Z) : Z * list Z → ST cons ((Z * list Z) + (list Z * outcome)) :=
  λ '(n, dst),
  if negb (0 <? n) then ret (inr (dst, Return (i32 (target - n)))) else
  let! s := gets id in
  if r s =? w s then ret (inr (dst, if killed then Return (-1) else Sleep n)) else
  do! set_r (u32 (r s + 1)) in
  let! c := buf_at (r s) in
  if c =? C_D then
    do! (if n <? target then set_r (u32 (u32 (r s + 1) - 1)) else ret tt) in
    ret (inr (dst, Return (i32 (target - n))))
  else if c =? newline then ret (inr (dst ++ [c], Return (i32 (target - (n - 1)))))
  else ret (inl (n - 1, dst ++ [c])).
Definition consoleread (killed : bool) (target n : Z) : ST cons (list Z * outcome) :=
  loop (Z.to_nat n + 1) (read_turn killed target) (n, []).

(** [int consolewrite(struct inode *ip, char *buf, int n)] *)
Definition consolewrite (bytes : list Z) : ST cons Z :=
  do! put_all putc ((λ b, Z.land b 0xff) <$> bytes) in
  ret (Z.of_nat (length bytes)).

(** * The terminal *)

(** What a terminal promises: complete lines that wait for a reader, the line that
    is being edited, and the text on the screen. *)
Record tty := Tty { ready : list Z; line : list Z; text : list Z }.

Definition key (t : tty) (c : Z) : tty * (bool * bool) :=
  if c =? C_P then (t, (true, false))
  else if c =? C_U then
    (Tty (ready t) [] (type_text (text t) (replicate (length (line t)) BACKSPACE)), (false, false))
  else if (c =? C_H) || (c =? DEL) then
    match line t with
    | [] => (t, (false, false))
    | _ => (Tty (ready t) (take (pred (length (line t))) (line t)) (put_text (text t) BACKSPACE), (false, false))
    end
  else if negb (c =? 0) && (length (ready t ++ line t) <? 128)%nat then
    let c := if c =? c_return then newline else c in
    let l := line t ++ [c] in
    let txt := put_text (text t) c in
    if (c =? newline) || (c =? C_D) || (length (ready t ++ l) =? 128)%nat
    then (Tty (ready t ++ l) [] txt, (false, true))
    else (Tty (ready t) l txt, (false, false))
  else (t, (false, false)).

Fixpoint keys (t : tty) (cs : list Z) : tty * (bool * bool) :=
  match cs with
  | [] => (t, (false, false))
  | c :: cs =>
      let '(t, (dump, wake)) := key t c in
      let '(t, (dump', wake')) := keys t cs in
      (t, (dump || dump', wake || wake'))
  end.

(** Reading at most [n] bytes of the complete lines: up to the end of a line, or
    to an end-of-file character, which stays unless it comes first. *)
Fixpoint take_line (rd : list Z) (n : nat) (first : bool) {struct n} : list Z * list Z * bool :=
  match n, rd with
  | O, _ => (rd, [], true)
  | S _, [] => ([], [], false)
  | S n, c :: rd' =>
      if c =? C_D then (if first then rd' else rd, [], true)
      else if c =? newline then (rd', [c], true)
      else let '(rest, bs, done) := take_line rd' n false in (rest, c :: bs, done)
  end.

Definition read (t : tty) (killed : bool) (target n : Z) : tty * (list Z * outcome) :=
  let '(rest, bs, done) := take_line (ready t) (Z.to_nat n) (target <=? n) in
  (Tty rest (line t) (text t),
   (bs, if done then Return (target - n + Z.of_nat (length bs))
        else if killed then Return (-1) else Sleep (n - Z.of_nat (length bs)))).

(** ** Sessions *)

(** An interrupt, a process that reads (at the start of the call or after
    sleeping), and one that writes. *)
Inductive event :=
| Intr (cs : list Z)
| Read (killed : bool) (target n : Z)
| Write (bytes : list Z).
Inductive answer :=
| Noticed (dump wake : bool)
| Got (bs : list Z) (o : outcome)
| Wrote (n : Z).

Definition handle (ev : event) : ST cons answer :=
  match ev with
  | Intr cs => let! (dump, wake) := consoleintr cs in ret (Noticed dump wake)
  | Read k target n => let! (bs, o) := consoleread k target n in ret (Got bs o)
  | Write bs => let! n := consolewrite bs in ret (Wrote n)
  end.
Definition answers (t : tty) (ev : event) : tty * answer :=
  match ev with
  | Intr cs => let '(t, (dump, wake)) := keys t cs in (t, Noticed dump wake)
  | Read k target n => let '(t, (bs, o)) := read t k target n in (t, Got bs o)
  | Write bs => (Tty (ready t) (line t) (type_text (text t) ((λ b, Z.land b 0xff) <$> bs)), Wrote (Z.of_nat (length bs)))
  end.

Fixpoint session (evs : list event) : ST cons (list answer) :=
  match evs with
  | [] => ret []
  | ev :: evs => let! a := handle ev in let! l := session evs in ret (a :: l)
  end.
Fixpoint tty_session (t : tty) (evs : list event) : tty * list answer :=
  match evs with
  | [] => (t, [])
  | ev :: evs => let '(t, a) := answers t ev in let '(t, l) := tty_session t evs in (t, a :: l)
  end.

(** Keyboard and serial port deliver bytes, the counts of [read] are [int]s, and
    what is left to read is not more than what was asked for. *)
Definition event_ok (ev : event) : Prop :=
  match ev with
  | Intr cs => Forall (λ c, 0 ≤ c < 256) cs
  | Read _ target n => 0 ≤ n ≤ target ∧ target < 2 ^ 31
  | Write _ => True
  end.

(** * The ring buffer *)

(** The [n] characters from index [i] on. *)
Definition chars (b : list Z) (i : Z) (n : nat) : list Z :=
  (λ k, nth (Z.to_nat ((i + Z.of_nat k) mod INPUT_BUF)) b 0) <$> seq 0 n.

Lemma length_chars b i n : length (chars b i n) = n.
Proof. unfold chars. by rewrite length_fmap, length_seq. Qed.

Lemma mod_u32 x y : u32 x = u32 y → x mod INPUT_BUF = y mod INPUT_BUF.
Proof. unfold u32, wrapu, INPUT_BUF. lia. Qed.

Lemma chars_S b i n : chars b i (S n) = nth (Z.to_nat (i mod INPUT_BUF)) b 0 :: chars b (u32 (i + 1)) n.
Proof.
  unfold chars. cbn [seq fmap list_fmap]. rewrite Z.add_0_r. f_equal.
  rewrite <- fmap_S_seq, <- list_fmap_compose. apply list_fmap_ext. intros k x _. cbn [compose]. do 2 f_equal.
  unfold INPUT_BUF, u32, wrapu. lia.
Qed.

Lemma chars_snoc b i n : chars b i (S n) = chars b i n ++ [nth (Z.to_nat ((i + Z.of_nat n) mod INPUT_BUF)) b 0].
Proof. unfold chars. replace (S n) with (n + 1)%nat by lia. by rewrite seq_app, fmap_app. Qed.

Lemma chars_store b i n c : length b = 128%nat → (n < 128)%nat →
  chars (<[Z.to_nat ((i + Z.of_nat n) mod INPUT_BUF) := c]> b) i (S n) = chars b i n ++ [c].
Proof.
  intros Hl Hn. rewrite chars_snoc. f_equal.
  - unfold chars. apply list_fmap_ext. intros k x Hk. apply lookup_seq in Hk as [-> Hk]. rewrite !nth_lookup, list_lookup_insert_ne; [done|].
    unfold INPUT_BUF. lia.
  - f_equal. rewrite nth_lookup, list_lookup_insert_eq; [done|]. unfold INPUT_BUF. lia.
Qed.

(** The console implements the terminal [t]. *)
Record models (s : cons) (t : tty) : Prop := {
  mo_buf : length (buf s) = 128%nat;
  mo_range : 0 ≤ r s < 2 ^ 32 ∧ 0 ≤ w s < 2 ^ 32 ∧ 0 ≤ e s < 2 ^ 32;
  mo_w : w s = u32 (r s + Z.of_nat (length (ready t)));
  mo_e : e s = u32 (w s + Z.of_nat (length (line t)));
  mo_size : (length (ready t ++ line t) ≤ 128)%nat;
  mo_chars : chars (buf s) (r s) (length (ready t ++ line t)) = ready t ++ line t;
  mo_line : newline ∉ line t;
  mo_screen : shows (scr s) (text t)
}.

(** ** One operation at a time *)

Lemma putc_ok s t c : models s t →
  ∃ d, shows d (put_text (text t) c) ∧ ∀ b r w e, putc c (Cons b r w e (scr s)) = Ok tt (Cons b r w e d).
Proof.
  intros Hm. destruct (consputc_ok _ _ c (mo_screen _ _ Hm)) as (d & E & Hd & _).
  exists d. split; [done|]. intros. unfold putc. cbn [scr]. by rewrite E.
Qed.

Lemma buf_at_ok s i : length (buf s) = 128%nat → buf_at i s = Ok (nth (Z.to_nat (i mod INPUT_BUF)) (buf s) 0) s.
Proof.
  intros Hl. unfold buf_at. erewrite bind_ok by reflexivity. unfold of_opt.
  rewrite (lookup_nth _ _ 0); [done|]. unfold INPUT_BUF. lia.
Qed.

Lemma no_line s t : models s t → (e s =? w s) = bool_decide (line t = []).
Proof.
  intros [_ (? & ? & ?) _ He Hs _ _]. rewrite length_app in Hs. apply eq_true_iff_eq. rewrite Z.eqb_eq, bool_decide_eq_true.
  rewrite <- length_zero_iff_nil. unfold u32, wrapu in *. lia.
Qed.

Lemma no_ready s t : models s t → (r s =? w s) = bool_decide (ready t = []).
Proof.
  intros [_ (? & ? & ?) Hw _ Hs _ _]. rewrite length_app in Hs. apply eq_true_iff_eq. rewrite Z.eqb_eq, bool_decide_eq_true.
  rewrite <- length_zero_iff_nil. unfold u32, wrapu in *. lia.
Qed.

(** The character before the edit index is the last one of the line. *)
Lemma last_char s t l c : models s t → line t = l ++ [c] →
  nth (Z.to_nat (u32 (e s - 1) mod INPUT_BUF)) (buf s) 0 = c ∧ c ≠ newline.
Proof.
  intros [Hl (? & ? & ?) Hw He Hs Hc Hn] Hln. split.
  - rewrite Hln, app_assoc, !length_app in Hc. cbn [length] in Hc. rewrite <- length_app, Nat.add_1_r, chars_snoc in Hc.
    apply app_inj_tail in Hc as [_ <-]. rewrite Hln, length_app in He. cbn [length] in He. rewrite length_app. do 2 f_equal.
    unfold u32, wrapu, INPUT_BUF in *. lia.
  - intros ->. apply Hn. rewrite Hln. apply elem_of_app. right. left.
Qed.

(** Erasing the last character of the line. *)
Lemma erase_ok s t l c : models s t → line t = l ++ [c] →
  ∃ s', (do! set_e (u32 (e s - 1)) in putc BACKSPACE) s = Ok tt s' ∧ models s' (Tty (ready t) l (put_text (text t) BACKSPACE)).
Proof.
  intros Hm Hln. destruct (putc_ok s t BACKSPACE Hm) as (d & Hd & E).
  exists (Cons (buf s) (r s) (w s) (u32 (e s - 1)) d). split; [erewrite bind_ok by reflexivity; apply E|].
  destruct Hm as [Hl (? & ? & ?) Hw He Hs Hc Hn]. rewrite Hln, !length_app in *. cbn [length] in *.
  split; cbn [ready line text buf r w e scr]; rewrite ?length_app; try done.
  - split_and!; [lia..| |]; apply wrapu_range; lia.
  - unfold u32, wrapu in *. lia.
  - lia.
  - rewrite app_assoc, (Nat.add_assoc (length (ready t))), Nat.add_1_r, chars_snoc in Hc. apply app_inj_tail in Hc as [Hc _]. exact Hc.
  - intros Hi. apply Hn, elem_of_app. by left.
Qed.

(** Killing the line erases exactly the line that is being edited. *)
Lemma kill_line_ok s t : models s t →
  ∃ s', kill_line s = Ok tt s' ∧ models s' (Tty (ready t) [] (type_text (text t) (replicate (length (line t)) BACKSPACE))).
Proof.
  intros Hm. unfold kill_line. erewrite bind_ok by reflexivity. cbn [id].
  assert (Z.to_nat (u32 (e s - w s)) + 1 = S (length (line t)))%nat as ->.
  { destruct Hm as [_ (? & ? & ?) _ He Hs _ _]. rewrite length_app in Hs. unfold u32, wrapu in *. lia. }
  set (body := λ _ : unit, _). destruct t as [rd l txt]. cbn [line ready text] in *.
  revert s txt Hm. induction l as [|c l IH] using rev_ind; intros s txt Hm.
  - exists s. split; [|done]. apply loop_exit. unfold body. erewrite bind_ok by reflexivity. cbn [id].
    by rewrite (no_line _ _ Hm).
  - destruct (last_char s _ l c Hm eq_refl) as [Hc Hne]. destruct (erase_ok s _ l c Hm eq_refl) as (s1 & E1 & Hm1).
    cbn [ready text] in Hm1. rewrite length_app, Nat.add_1_r.
    assert (body tt s = Ok (inl tt) s1) as E.
    { unfold body. erewrite bind_ok by reflexivity. cbn [id]. rewrite (no_line _ _ Hm), bool_decide_false by (cbn; by destruct l).
      rewrite (bind_ok _ _ _ _ _ (buf_at_ok s _ (mo_buf _ _ Hm))), Hc, (proj2 (Z.eqb_neq _ _) Hne).
      erewrite <- bind_assoc, bind_ok by exact E1. done. }
    rewrite (loop_next _ _ _ _ _ _ E). destruct (IH s1 _ Hm1) as (s' & E' & Hm'). exists s'. split; [exact E'|].
    cbn [replicate]. done.
Qed.

Lemma store_ok s t c : models s t → (length (ready t ++ line t) < 128)%nat → 0 ≤ c < 256 →
  ∃ d, (do! set_e (u32 (e s + 1)) in do! buf_store (e s) c in putc c) s =
         Ok tt (Cons (<[Z.to_nat (e s mod INPUT_BUF) := c]> (buf s)) (r s) (w s) (u32 (e s + 1)) d) ∧
       shows d (put_text (text t) c).
Proof.
  intros Hm Hlt Hc. destruct (putc_ok s t c Hm) as (d & Hd & E). exists d. split; [|done].
  do 2 erewrite bind_ok by reflexivity. cbn [buf r w e scr]. rewrite (Z.mod_small c) by done. apply E.
Qed.

(** The state after a character was added to the line; [sw] tells whether the line
    is complete. *)
Lemma stored_models s t c d sw :
  models s t → (length (ready t ++ line t) < 128)%nat → 0 ≤ c < 256 → shows d (put_text (text t) c) → (c = newline → sw = true) →
  let e' := u32 (e s + 1) in
  models (Cons (<[Z.to_nat (e s mod INPUT_BUF) := c]> (buf s)) (r s) (if sw then e' else w s) e' d)
    (if sw then Tty (ready t ++ line t ++ [c]) [] (put_text (text t) c) else Tty (ready t) (line t ++ [c]) (put_text (text t) c)).
Proof.
  intros [Hl (? & ? & ?) Hw He Hs Hch Hn] Hlt Hc Hd Hsw e'. rewrite length_app in *.
  assert (chars (<[Z.to_nat (e s mod INPUT_BUF) := c]> (buf s)) (r s) (S (length (ready t) + length (line t))) = ready t ++ line t ++ [c]) as Hch'.
  { rewrite app_assoc, <- Hch, <- (chars_store _ _ _ c) by done. do 3 f_equal. unfold u32, wrapu, INPUT_BUF in *. lia. }
  destruct sw; split; cbn [ready line text buf r w e scr]; rewrite ?length_insert, ?length_app; cbn [length]; try done; rewrite ?app_nil_r.
  all: try (rewrite <- Hch'; f_equal; lia).
  all: try (split_and!; [lia|try (apply wrapu_range; lia); lia|apply wrapu_range; lia]).
  all: try (unfold e', u32, wrapu in *; lia).
  - by apply not_elem_of_nil.
  - intros [Hi|Hi]%elem_of_app; [done|]. apply list_elem_of_singleton in Hi. by discriminate (Hsw (eq_sym Hi)).
Qed.

Lemma consoleintr_char_ok s t c : models s t → 0 ≤ c < 256 →
  ∃ s', consoleintr_char c s = Ok (snd (key t c)) s' ∧ models s' (fst (key t c)).
Proof.
  intros Hm Hc. unfold consoleintr_char, key. destruct (c =? C_P); [by exists s|]. destruct (c =? C_U).
  { destruct (kill_line_ok s t Hm) as (s' & E & Hm'). exists s'. split; [|done]. by rewrite (bind_ok _ _ _ _ _ E). }
  destruct ((c =? C_H) || (c =? DEL)).
  { erewrite bind_ok by reflexivity. cbn [id]. rewrite (no_line _ _ Hm). destruct (line t) as [|x l _] eqn:El using rev_ind; [by exists s|].
    rewrite bool_decide_false by (by destruct l).
    destruct (erase_ok s t l x Hm El) as (s' & E & Hm'). exists s'.
    assert (∀ A (a1 a2 : A), match l ++ [x] with [] => a1 | _ => a2 end = a2) as -> by (by destruct l).
    rewrite length_app, Nat.add_1_r. cbn [pred fst snd]. rewrite take_app_length. split; [|done].
    erewrite <- bind_assoc, bind_ok by exact E. done. }
  erewrite bind_ok by reflexivity. cbn [id].
  assert ((u32 (e s - r s) <? INPUT_BUF) = (length (ready t ++ line t) <? 128)%nat) as ->.
  { destruct Hm as [_ (? & ? & ?) Hw He Hs _ _]. rewrite length_app in *. apply eq_true_iff_eq. rewrite Z.ltb_lt, Nat.ltb_lt.
    unfold u32, wrapu, INPUT_BUF in *. lia. }
  destruct (negb (c =? 0) && _) eqn:Eg; [|by exists s]. apply andb_true_iff in Eg as [_ Hlt%Nat.ltb_lt].
  set (c' := if c =? c_return then newline else c).
  assert (0 ≤ c' < 256) as Hc' by (unfold c'; destruct (c =? c_return); unfold newline; lia).
  destruct (store_ok s t c' Hm Hlt Hc') as (d & E & Hd).
  set (s1 := Cons _ _ _ _ d) in E.
  set (sw := (c' =? newline) || (c' =? C_D) || (length (ready t ++ line t ++ [c']) =? 128)%nat).
  assert (sw = (c' =? newline) || (c' =? C_D) || (e s1 =? u32 (r s1 + INPUT_BUF))) as Esw.
  { unfold sw. f_equal. destruct Hm as [_ (? & ? & ?) Hw He Hs _ _]. rewrite !length_app in *. cbn [length s1 e r].
    apply eq_true_iff_eq. rewrite Z.eqb_eq, Nat.eqb_eq. unfold u32, wrapu, INPUT_BUF in *. lia. }
  pose proof (stored_models s t c' d sw Hm Hlt Hc' Hd) as Hm'. specialize (Hm' ltac:(intros H; unfold sw; by rewrite H)).
  assert (∀ (a b x : ST cons unit) A (k : ST cons A), (do! a in do! b in do! x in k) s = (do! (do! a in do! b in x) in k) s) as Hseq.
  { intros a b x A k. unfold bind. destruct (a s) as [? s2|]; [|done]. destruct (b s2); done. }
  rewrite Hseq, (bind_ok _ _ _ _ _ E). erewrite bind_ok by reflexivity. cbn [id]. rewrite <- Esw. fold c' sw. cbv zeta in Hm'.
  destruct sw; (eexists; split; [reflexivity|exact Hm']).
Qed.

Lemma consoleintr_ok s t cs : models s t → Forall (λ c, 0 ≤ c < 256) cs →
  ∃ s', consoleintr cs s = Ok (snd (keys t cs)) s' ∧ models s' (fst (keys t cs)).
Proof.
  intros Hm Hcs. revert s t Hm. induction Hcs as [|c cs Hc _ IH]; intros s t Hm; cbn [consoleintr keys]; [by exists s|].
  destruct (consoleintr_char_ok s t c Hm Hc) as (s1 & E1 & Hm1). rewrite (bind_ok _ _ _ _ _ E1).
  destruct (key t c) as [t1 [d1 w1]]. cbn [fst snd] in *. destruct (IH s1 t1 Hm1) as (s2 & E2 & Hm2). rewrite (bind_ok _ _ _ _ _ E2).
  destruct (keys t1 cs) as [t2 [d2 w2]]. by exists s2.
Qed.

(** Taking the first of the complete characters. *)
Lemma pop_models s rd c l txt : models s (Tty (c :: rd) l txt) →
  nth (Z.to_nat (r s mod INPUT_BUF)) (buf s) 0 = c ∧
  models (Cons (buf s) (u32 (r s + 1)) (w s) (e s) (scr s)) (Tty rd l txt) ∧
  u32 (u32 (r s + 1) - 1) = r s.
Proof.
  intros [Hl (? & ? & ?) Hw He Hs Hch Hn]. cbn [ready line text app length] in *. rewrite chars_S in Hch. injection Hch as Hc Hch.
  split; [done|]. split; [|unfold u32, wrapu; lia]. split; cbn [ready line text buf r w e scr]; try done.
  - split_and!; [apply wrapu_range; lia|apply wrapu_range; lia|lia..].
  - unfold u32, wrapu in *. lia.
  - lia.
Qed.

Lemma tty_read_ok k target : target < 2 ^ 31 → ∀ fuel n dst s t,
  models s t → 0 ≤ n ≤ target → (Z.to_nat n < fuel)%nat →
  ∃ s', loop fuel (read_turn k target) (n, dst) s =
          Ok (dst ++ fst (snd (read t k target n)), snd (snd (read t k target n))) s' ∧
        models s' (fst (read t k target n)).
Proof.
  intros Ht fuel. induction fuel as [|fuel IH]; intros n dst s [rd l txt] Hm Hn Hf; [lia|]. unfold read. cbn [ready line text].
  destruct (Z.to_nat n) as [|n'] eqn:En.
  { assert (n = 0) as -> by lia. exists s. cbn [take_line fst snd]. rewrite app_nil_r. split; [|done].
    erewrite loop_exit by reflexivity. cbn. rewrite i32_small by lia. f_equal. f_equal. f_equal. lia. }
  assert (read_turn k target (n, dst) s = (if r s =? w s then Ok (inr (dst, if k then Return (-1) else Sleep n)) s else
    (do! set_r (u32 (r s + 1)) in let! c := buf_at (r s) in
      if c =? C_D then
        do! (if n <? target then set_r (u32 (u32 (r s + 1) - 1)) else ret tt) in
        ret (inr (dst, Return (i32 (target - n))))
      else if c =? newline then ret (inr (dst ++ [c], Return (i32 (target - (n - 1)))))
      else ret (inl (n - 1, dst ++ [c]))) s)) as E.
  { unfold read_turn. rewrite (proj2 (Z.ltb_lt 0 n)) by lia. cbn [negb]. erewrite bind_ok by reflexivity. cbn [id]. by destruct (r s =? w s). }
  rewrite (no_ready _ _ Hm) in E. cbn [ready] in E. destruct rd as [|c rd]; cbn [take_line].
  { rewrite bool_decide_true in E by done. exists s. rewrite (loop_exit _ _ _ _ _ _ E). cbn [fst snd length]. rewrite app_nil_r. split; [|done].
    do 2 f_equal. destruct k; [done|]. f_equal. lia. }
  rewrite bool_decide_false in E by done. erewrite bind_ok in E by reflexivity.
  destruct (pop_models s rd c l txt Hm) as (Hc & Hm1 & Hback).
  rewrite (bind_ok _ _ _ _ _ (buf_at_ok _ _ (mo_buf _ _ Hm1))) in E. cbn [buf] in E. rewrite Hc in E.
  destruct (c =? C_D).
  { destruct (Z.leb_spec target n).
    - rewrite (proj2 (Z.ltb_ge n target)) in E by lia. rewrite bind_ret_l in E. eexists. rewrite (loop_exit _ _ _ _ _ _ E). cbn [fst snd length].
      rewrite app_nil_r, i32_small by lia. split; [do 3 f_equal; lia|done].
    - rewrite (proj2 (Z.ltb_lt n target)) in E by lia. erewrite bind_ok in E by reflexivity. cbn [buf w e scr] in E. rewrite Hback in E.
      eexists. rewrite (loop_exit _ _ _ _ _ _ E). cbn [fst snd length].
      rewrite app_nil_r, i32_small by lia. split; [do 3 f_equal; lia|]. by destruct s. }
  destruct (c =? newline).
  { eexists. rewrite (loop_exit _ _ _ _ _ _ E). cbn [fst snd length]. rewrite i32_small by lia. split; [do 3 f_equal; lia|done]. }
  rewrite (loop_next _ _ _ _ _ _ E). destruct (IH (n - 1) (dst ++ [c]) _ _ Hm1) as (s' & E' & Hm'); [lia|lia|].
  unfold read in E', Hm'. cbn [ready line text] in E', Hm'. replace (Z.to_nat (n - 1)) with n' in * by lia.
  rewrite (proj2 (Z.leb_gt target (n - 1))) in * by lia. destruct (take_line rd n' false) as [[rest bs] done].
  cbn [fst snd length] in *. exists s'. split; [|done]. rewrite E', <- app_assoc. cbn [app]. do 2 f_equal.
  destruct done; [f_equal; lia|]. destruct k; [done|]. f_equal. lia.
Qed.

Lemma put_all_putc_ok s t cs : models s t →
  ∃ s', put_all putc cs s = Ok tt s' ∧ models s' (Tty (ready t) (line t) (type_text (text t) cs)).
Proof.
  intros Hm. destruct s as [b r0 w0 e0 d].
  destruct (Screen.put_all_ok d _ cs (mo_screen _ _ Hm)) as (d' & E & Hd & _). exists (Cons b r0 w0 e0 d'). split.
  - clear Hm Hd. revert d E. induction cs as [|c cs IH]; intros d; cbn [put_all]; [by intros [= ->]|].
    unfold bind, putc. cbn [scr buf r w e]. destruct (consputc c d) as [[] d1|]; [|done]. apply IH.
  - destruct Hm. by split.
Qed.

Lemma handle_ok s t ev : models s t → event_ok ev →
  ∃ s', handle ev s = Ok (snd (answers t ev)) s' ∧ models s' (fst (answers t ev)).
Proof.
  intros Hm Hev. destruct ev as [cs|k target n|bs]; cbn [handle answers].
  - destruct (consoleintr_ok s t cs Hm Hev) as (s' & E & Hm'). rewrite (bind_ok _ _ _ _ _ E).
    destruct (keys t cs) as [t' [d w']]. by exists s'.
  - destruct Hev. destruct (tty_read_ok k target ltac:(lia) (Z.to_nat n + 1) n [] s t Hm ltac:(lia) ltac:(lia)) as (s' & E & Hm').
    unfold consoleread. rewrite (bind_ok _ _ _ _ _ E). destruct (read t k target n) as [t' [bs o]]. by exists s'.
  - destruct (put_all_putc_ok s t ((λ b, Z.land b 0xff) <$> bs) Hm) as (s' & E & Hm'). exists s'. split; [|done].
    unfold consolewrite. rewrite bind_assoc, (bind_ok _ _ _ _ _ E). done.
Qed.

(** C35: The console is a terminal: in every session of interrupts, reads (of any
    number of processes, in any interleaving) and writes it answers as the
    terminal does, whose line can be edited until it is complete and whose
    complete lines are read in order, each character once.  It never overruns its
    buffer or the screen, whatever is typed, and the wrap-around of its indices
    does not show. *)
Theorem console_refines_tty s t evs :
  models s t → Forall event_ok evs →
  ∃ s', session evs s = Ok (snd (tty_session t evs)) s' ∧ models s' (fst (tty_session t evs)).
Proof.
  intros Hm Hevs. revert s t Hm. induction Hevs as [|ev evs Hev _ IH]; intros s t Hm; cbn [session tty_session]; [by exists s|].
  destruct (handle_ok s t ev Hm Hev) as (s1 & E1 & Hm1). rewrite (bind_ok _ _ _ _ _ E1).
  destruct (answers t ev) as [t1 a]. destruct (IH s1 t1 Hm1) as (s2 & E2 & Hm2). rewrite (bind_ok _ _ _ _ _ E2).
  destruct (tty_session t1 evs) as [t2 l]. by exists s2.
Qed.

(** The console after start-up: all variables are zero. *)
Definition booted : cons := Cons (replicate 128 0) 0 0 0 cleared.

Lemma booted_models : models booted (Tty [] [] []).
Proof. split; [done|cbn; lia|done|done|cbn; lia|done|apply not_elem_of_nil|apply cleared_shows]. Qed.

(** ** The terminal *)

(** A reader sleeps only when nothing is ready, and whenever something becomes
    ready the readers are woken. *)
Theorem tty_wakes_readers t cs k target n n' :
  (ready (fst (keys t cs)) ≠ ready t → snd (snd (keys t cs)) = true) ∧
  (0 ≤ n → snd (snd (read t k target n)) = Sleep n' → ready (fst (read t k target n)) = [] ∧ 0 < n').
Proof.
  split.
  - revert t. induction cs as [|c cs IH]; intros t; cbn [keys]; [done|].
    assert (ready (fst (key t c)) ≠ ready t → snd (snd (key t c)) = true) as Hk.
    { unfold key. repeat (case_match; try done). }
    destruct (key t c) as [t1 [d w1]]. cbn [fst snd] in Hk. specialize (IH t1). destruct (keys t1 cs) as [t2 [d2 w2]]. cbn [fst snd] in *.
    destruct (decide (ready t1 = ready t)) as [E|E]; [rewrite <- E; intros H; by rewrite IH, orb_true_r|by rewrite Hk].
  - unfold read. intros Hn. generalize (target <=? n) as first. intros first.
    assert (∀ rd n first rest bs, take_line rd n first = (rest, bs, false) → rest = [] ∧ (length bs < n)%nat) as Htl.
    { clear. intros rd n. revert rd. induction n as [|n IH]; intros [|c rd] first rest bs; cbn [take_line]; [done..|intros [= <- <-]; cbn; split; [done|lia]|].
      destruct (c =? C_D); [done|]. destruct (c =? newline); [done|]. destruct (take_line rd n false) as [[x y] z] eqn:E.
      intros [= <- <- ->]. destruct (IH _ _ _ _ E). split; [done|cbn; lia]. }
    destruct (take_line (ready t) (Z.to_nat n) first) as [[rest bs] []] eqn:E; cbn; [done|]. apply Htl in E as [-> ?].
    destruct k; [done|]. intros [= <-]. split; [done|lia].
Qed.

(** Plain characters: neither control keys nor the end of a line. *)
Definition plain (c : Z) : Prop := 32 ≤ c < 127.

Lemma type_plain t l : Forall plain l → (length (ready t ++ line t) + length l < 128)%nat →
  keys t l = (Tty (ready t) (line t ++ l) (type_text (text t) l), (false, false)).
Proof.
  intros Hl. revert t. induction Hl as [|c l Hc _ IH]; intros t Hn; cbn [keys length] in *; [rewrite app_nil_r; by destruct t|].
  assert (key t c = (Tty (ready t) (line t ++ [c]) (put_text (text t) c), (false, false))) as ->.
  { unfold plain in Hc. unfold key, C_P, C_U, C_H, DEL, C_D, Ctl, newline, c_return.
    repeat match goal with |- context [c =? ?x] => rewrite (proj2 (Z.eqb_neq c x)) by lia end. cbn [orb negb andb].
    rewrite (proj2 (Nat.ltb_lt _ _)) by lia. rewrite app_assoc, length_app. cbn [length].
    by rewrite (proj2 (Nat.eqb_neq _ 128)) by lia. }
  rewrite IH; [cbn [ready line text]; by rewrite <- app_assoc|]. cbn [ready line text]. rewrite !length_app in *. cbn [length]. lia.
Qed.

(** A line that is typed, when nobody else types and everything before was read:
    a killed line leaves nothing, and a [read] of the rest gets what was typed,
    with a newline. *)
Theorem typed_line_is_read t junk l target :
  ready t = [] → line t = [] → Forall plain junk → Forall plain l →
  (length junk < 128)%nat → (length l < 127)%nat → Z.of_nat (length l) < target →
  let t' := fst (keys t (junk ++ [C_U] ++ l ++ [c_return])) in
  snd (read t' false target target) = (l ++ [newline], Return (Z.of_nat (length l) + 1)) ∧
  ready (fst (read t' false target target)) = [] ∧ line t' = [].
Proof.
  intros Hr Hln Hj Hl Hj' Hl' Ht. assert (∀ cs1 cs2 t, fst (keys t (cs1 ++ cs2)) = fst (keys (fst (keys t cs1)) cs2)) as Happ.
  { clear. intros cs1 cs2. induction cs1 as [|c cs1 IH]; intros t; cbn [keys app]; [done|]. destruct (key t c) as [t1 [? ?]].
    specialize (IH t1). destruct (keys t1 (cs1 ++ cs2)) as [? [? ?]], (keys t1 cs1) as [? [? ?]]. done. }
  assert (∀ c t, fst (keys t [c]) = fst (key t c)) as Hone by (intros c u; cbn [keys]; by destruct (key u c) as [? [? ?]]).
  cbv zeta. rewrite !Happ, !Hone, (type_plain t junk) by (rewrite ?Hr, ?Hln; cbn; done || lia). cbn [fst].
  assert (∀ u, key u C_U = (Tty (ready u) [] (type_text (text u) (replicate (length (line u)) BACKSPACE)), (false, false))) as -> by done.
  cbn [fst ready line text]. rewrite type_plain by (cbn [ready line]; rewrite ?Hr; cbn; done || lia). cbn [fst ready line text app].
  assert (∀ u, ready u = [] → (length (line u) < 128)%nat → fst (key u c_return) = Tty (line u ++ [newline]) [] (put_text (text u) newline)) as Hret.
  { intros u Hu Hl2. unfold key. change (c_return =? C_P) with false. change (c_return =? C_U) with false.
    change ((c_return =? C_H) || (c_return =? DEL)) with false. change (negb (c_return =? 0)) with true. change (c_return =? c_return) with true.
    cbn [andb]. rewrite Hu. cbn [app]. rewrite (proj2 (Nat.ltb_lt _ 128)) by lia. done. }
  rewrite Hret by (cbn [ready line]; done || lia). cbn [line text].
  assert (∀ l n b, Forall plain l → (length l < n)%nat → take_line (l ++ [newline]) n b = ([], l ++ [newline], true)) as Htl.
  { clear. intros l. induction l as [|c l IH]; intros [|n] b Hf Hn; cbn [length] in Hn; [lia|done|lia|]. apply Forall_cons in Hf as [Hc Hf].
    cbn [app take_line]. unfold plain in Hc. unfold C_D, Ctl, newline.
    rewrite (proj2 (Z.eqb_neq c (68 - 64))), (proj2 (Z.eqb_neq c 10)) by lia. fold newline. by rewrite IH by (done || lia). }
  unfold read. cbn [ready line text]. rewrite Htl by (done || lia). cbn [fst snd ready]. split; [|done]. f_equal. f_equal. rewrite length_app. cbn [length]. lia.
Qed.

(** A session: ["lx"], backspace, ["s"], enter; a read of at most two characters,
    a read of the rest; end-of-file; a read that gets it, and one that sleeps. *)
Definition demo : list event :=
  [Read false 100 100; Intr [108; 120]; Intr [8; 115; 13]; Read false 2 2; Read false 100 100; Intr [4]; Read false 100 100; Read false 100 100].

Lemma console_refines_tty_witness : ∃ s', session demo booted =
  Ok [Got [] (Sleep 100); Noticed false false; Noticed false true; Got [108; 115] (Return 2); Got [10] (Return 1);
      Noticed false true; Got [] (Return 0); Got [] (Sleep 100)] s' ∧ ready (fst (tty_session (Tty [] [] []) demo)) = [].
Proof.
  destruct (console_refines_tty booted (Tty [] [] []) demo booted_models) as (s' & E & Hm).
  - repeat constructor; lia.
  - exists s'. split; [exact E|done].
Defined.

End Console.
