(* ===== verification/Kbd.v ===== *)
(** Kbd: the keyboard (p4/xv6-public/kbd.c, kbd.h): from the bytes that the
    controller delivers to characters, with the state of the modifier keys; and
    the interrupts of keyboard and serial port, which feed the console. *)
From S2P Require Import Prelude Printf Console.
Local Open Scope Z_scope.

Module Kbd.
Import Console.

Definition NO : Z := 0.
Definition SHIFT : Z := Z.shiftl 1 0.
Definition CTL : Z := Z.shiftl 1 1.
Definition ALT : Z := Z.shiftl 1 2.
Definition CAPSLOCK : Z := Z.shiftl 1 3.
Definition NUMLOCK : Z := Z.shiftl 1 4.
Definition SCROLLLOCK : Z := Z.shiftl 1 5.
Definition E0ESC : Z := Z.shiftl 1 6.
Definition KBS_DIB : Z := 0x01.

Definition KEY_HOME : Z := 0xE0.
Definition KEY_END : Z := 0xE1.
Definition KEY_UP : Z := 0xE2.
Definition KEY_DN : Z := 0xE3.
Definition KEY_LF : Z := 0xE4.
Definition KEY_RT : Z := 0xE5.
Definition KEY_PGUP : Z := 0xE6.
Definition KEY_PGDN : Z := 0xE7.
Definition KEY_INS : Z := 0xE8.
Definition KEY_DEL : Z := 0xE9.

(** [static uchar t[256] = { prefix, [i] v, ... }]: elements are converted to
    [uchar], those not named are 0. *)
Definition table (prefix : list Z) (designated : list (nat * Z)) : list Z :=
  (λ v, v mod 256) <$>
  foldl (λ t '(i, v), <[i := v]> t) (prefix ++ replicate (256 - length prefix) 0) designated.

Definition shiftcode : list Z :=
  table [] [(0x1D%nat, CTL); (0x2A%nat, SHIFT); (0x36%nat, SHIFT); (0x38%nat, ALT); (0x9D%nat, CTL); (0xB8%nat, ALT)].
Definition togglecode : list Z :=
  table [] [(0x3A%nat, CAPSLOCK); (0x45%nat, NUMLOCK); (0x46%nat, SCROLLLOCK)].

(** The keys behind an [E0] byte that all maps share. *)
Definition keypad : list (nat * Z) :=
  [(0xC8%nat, KEY_UP); (0xD0%nat, KEY_DN); (0xC9%nat, KEY_PGUP); (0xD1%nat, KEY_PGDN); (0xCB%nat, KEY_LF);
   (0xCD%nat, KEY_RT); (0x97%nat, KEY_HOME); (0xCF%nat, KEY_END); (0xD2%nat, KEY_INS); (0xD3%nat, KEY_DEL)].

Definition normalmap : list Z := table
  [ NO; 0x1B; 49; 50; 51; 52; 53; 54;        (* 1 2 3 4 5 6 *)
    55; 56; 57; 48; 45; 61; 8; 9;            (* 7 8 9 0 - = *)
    113; 119; 101; 114; 116; 121; 117; 105;  (* q w e r t y u i *)
    111; 112; 91; 93; 10; NO; 97; 115;       (* o p [ ] newline a s *)
    100; 102; 103; 104; 106; 107; 108; 59;   (* d f g h j k l ; *)
    39; 96; NO; 92; 122; 120; 99; 118;       (* quote backquote backslash z x c v *)
    98; 110; 109; 44; 46; 47; NO; 42;        (* b n m , . / * *)
    NO; 32; NO; NO; NO; NO; NO; NO;
    NO; NO; NO; NO; NO; NO; NO; 55;
    56; 57; 45; 52; 53; 54; 43; 49;
    50; 51; 48; 46; NO; NO; NO; NO ]
  ([(0x9C%nat, 10); (0xB5%nat, 47)] ++ keypad).

Definition shiftmap : list Z := table
  [ NO; 27; 33; 64; 35; 36; 37; 94;          (* ! @ # $ percent ^ *)
    38; 42; 40; 41; 95; 43; 8; 9;            (* & * parentheses _ + *)
    81; 87; 69; 82; 84; 89; 85; 73;          (* Q W E R T Y U I *)
    79; 80; 123; 125; 10; NO; 65; 83;        (* O P braces newline A S *)
    68; 70; 71; 72; 74; 75; 76; 58;          (* D F G H J K L : *)
    34; 126; NO; 124; 90; 88; 67; 86;        (* double quote ~ bar Z X C V *)
    66; 78; 77; 60; 62; 63; NO; 42;          (* B N M < > ? * *)
    NO; 32; NO; NO; NO; NO; NO; NO;
    NO; NO; NO; NO; NO; NO; NO; 55;
    56; 57; 45; 52; 53; 54; 43; 49;
    50; 51; 48; 46; NO; NO; NO; NO ]
  ([(0x9C%nat, 10); (0xB5%nat, 47)] ++ keypad).

Definition ctlmap : list Z := table
  [ NO; NO; NO; NO; NO; NO; NO; NO;
    NO; NO; NO; NO; NO; NO; NO; NO;
    Ctl 81; Ctl 87; Ctl 69; Ctl 82; Ctl 84; Ctl 89; Ctl 85; Ctl 73;
    Ctl 79; Ctl 80; NO; NO; 13; NO; Ctl 65; Ctl 83;
    Ctl 68; Ctl 70; Ctl 71; Ctl 72; Ctl 74; Ctl 75; Ctl 76; NO;
    NO; NO; NO; Ctl 92; Ctl 90; Ctl 88; Ctl 67; Ctl 86;
    Ctl 66; Ctl 78; Ctl 77; NO; NO; Ctl 47; NO; NO ]
  ([(0x9C%nat, 13); (0xB5%nat, Ctl 47)] ++ keypad).

Definition charcode : list (list Z) := [normalmap; shiftmap; ctlmap; ctlmap].

(** An access to an array. *)
Definition at_index {S A} (t : list A) (i : Z) : ST S A := of_opt (if i <? 0 then None else t !! Z.to_nat i).

(** [int kbdgetc(void)], given what the ports deliver.  The state is the variable
    [shift]. *)
Definition kbdgetc (st data : Z) : ST Z Z :=
  let! shift := gets id in
  if Z.land st KBS_DIB =? 0 then ret (-1) else
  if data =? 0xE0 then do! modify (λ _, Z.lor shift E0ESC) in ret 0 else
  if negb (Z.land data 0x80 =? 0) then
    let data := if negb (Z.land shift E0ESC =? 0) then data else Z.land data 0x7F in
    let! sc := at_index shiftcode data in
    do! modify (λ _, Z.ldiff shift (Z.lor sc E0ESC)) in
    ret 0
  else
    let escaped := negb (Z.land shift E0ESC =? 0) in
    let data := if escaped then Z.lor data 0x80 else data in
    let shift := if escaped then Z.ldiff shift E0ESC else shift in
    let! sc := at_index shiftcode data in
    let! tc := at_index togglecode data in
    let shift := Z.lxor (Z.lor shift sc) tc in
    do! modify (λ _, shift) in
    let! map := at_index charcode (Z.land shift (Z.lor CTL SHIFT)) in
    let! c := at_index map data in
    ret (if negb (Z.land shift CAPSLOCK =? 0) then
           if (97 <=? c) && (c <=? 122) then u32 (c + (65 - 97))
           else if (65 <=? c) && (c <=? 90) then u32 (c + (97 - 65)) else c
         else c).

(** [static int uartgetc(void)] *)
Definition uartgetc (uart : bool) (lsr data : Z) : Z :=
  if negb uart then -1 else if Z.land lsr 0x01 =? 0 then -1 else data.

(** [void kbdintr(void)]: the console gets the characters of the bytes that wait
    in the controller. *)
Fixpoint kbd_chars (codes : list Z) : ST Z (list Z) :=
  match codes with
  | [] => ret []
  | d :: codes => let! c := kbdgetc KBS_DIB d in let! cs := kbd_chars codes in ret (c :: cs)
  end.
Definition kbdintr (codes : list Z) : ST (Z * cons) (bool * bool) := λ '(shift, s),
  match kbd_chars codes shift with
  | Ok cs shift => match consoleintr cs s with Ok x s => Ok x (shift, s) | Fault => Fault end
  | Fault => Fault
  end.

(** * What the keyboard delivers *)

(** The modifiers: seven bits. *)
Definition shift_ok (shift : Z) : Prop := 0 ≤ shift < 2 ^ 7.

Lemma bits_lt n a : 0 ≤ n → 0 ≤ a → (∀ i, n ≤ i → Z.testbit a i = false) → a < 2 ^ n.
Proof.
  intros Hn Ha Hb. destruct (decide (a < 2 ^ n)) as [|Hge]; [done|]. exfalso.
  assert (n ≤ Z.log2 a) by (rewrite <- (Z.log2_pow2 n) by done; apply Z.log2_le_mono; lia).
  specialize (Hb (Z.log2 a) ltac:(done)). rewrite Z.bit_log2 in Hb; [done|]. pose proof (Z.pow_pos_nonneg 2 n). lia.
Qed.

Lemma land_nonneg_ok a b : 0 ≤ b < 2 ^ 7 → shift_ok (Z.land a b).
Proof.
  intros Hb. assert (0 ≤ Z.land a b) by (apply Z.land_nonneg; lia). split; [done|]. apply bits_lt; [lia|done|].
  intros i Hi. rewrite Z.land_spec, (testbit_small b 7 i) by lia. apply andb_false_r.
Qed.
Lemma lor_ok a b : shift_ok a → shift_ok b → shift_ok (Z.lor a b).
Proof.
  intros Ha Hb. assert (0 ≤ Z.lor a b) by (apply Z.lor_nonneg; split; [apply Ha|apply Hb]). split; [done|]. apply bits_lt; [lia|done|].
  intros i Hi. by rewrite Z.lor_spec, (testbit_small a 7 i), (testbit_small b 7 i).
Qed.
Lemma lxor_ok a b : shift_ok a → shift_ok b → shift_ok (Z.lxor a b).
Proof.
  intros Ha Hb. assert (0 ≤ Z.lxor a b) by (apply Z.lxor_nonneg; split; intros; [apply Hb|apply Ha]). split; [done|]. apply bits_lt; [lia|done|].
  intros i Hi. by rewrite Z.lxor_spec, (testbit_small a 7 i), (testbit_small b 7 i).
Qed.
Lemma ldiff_ok a b : shift_ok a → shift_ok (Z.ldiff a b).
Proof.
  intros Ha. assert (0 ≤ Z.ldiff a b) by (apply Z.ldiff_nonneg; left; apply Ha). split; [done|]. apply bits_lt; [lia|done|].
  intros i Hi. by rewrite Z.ldiff_spec, (testbit_small a 7 i).
Qed.

(** The tables have 256 entries, of the right kind. *)
Definition table_ok (P : Z → Prop) (t : list Z) : Prop := length t = 256%nat ∧ Forall P t.
Definition is_char (c : Z) : Prop := 0 ≤ c < 256.

Lemma at_table {S} P t i (s : S) : table_ok P t → 0 ≤ i < 256 → ∃ v, at_index t i s = Ok v s ∧ P v.
Proof.
  intros [Hl HP] Hi. unfold at_index. rewrite (proj2 (Z.ltb_ge i 0)) by lia.
  destruct (lookup_lt_is_Some_2 t (Z.to_nat i) ltac:(lia)) as [v Hv]. exists v. rewrite Hv. split; [done|].
  by eapply Forall_lookup_1.
Qed.

Lemma shiftcode_ok : table_ok shift_ok shiftcode.
Proof. split; [done|]. apply (bool_decide_unpack _). by vm_compute. Qed.
Lemma togglecode_ok : table_ok shift_ok togglecode.
Proof. split; [done|]. apply (bool_decide_unpack _). by vm_compute. Qed.
Lemma charcode_ok m : m ∈ charcode → table_ok is_char m.
Proof.
  unfold charcode. rewrite !elem_of_cons, elem_of_nil.
  intros [->|[->|[->|[->|[]]]]]; (split; [done|]); apply (bool_decide_unpack _); by vm_compute.
Qed.

Lemma u32_case c : 0 ≤ c < 256 → 0 ≤ u32 c < 256.
Proof. intros. rewrite u32_small; lia. Qed.

Lemma land_byte a b : 0 ≤ b < 256 → 0 ≤ Z.land a b < 256.
Proof.
  intros Hb. assert (0 ≤ Z.land a b) by (apply Z.land_nonneg; lia). split; [done|]. apply (bits_lt 8); [lia|done|].
  intros i Hi. rewrite Z.land_spec, (testbit_small b 8 i) by (change (2 ^ 8) with 256; lia). apply andb_false_r.
Qed.
Lemma lor_byte a b : 0 ≤ a < 256 → 0 ≤ b < 256 → 0 ≤ Z.lor a b < 256.
Proof.
  intros Ha Hb. assert (0 ≤ Z.lor a b) by (apply Z.lor_nonneg; lia). split; [done|]. apply (bits_lt 8); [lia|done|].
  intros i Hi. by rewrite Z.lor_spec, (testbit_small a 8 i), (testbit_small b 8 i) by (change (2 ^ 8) with 256; lia).
Qed.

(** The map that is chosen: two bits. *)
Lemma at_charcode {S} shift (s : S) : ∃ m, at_index charcode (Z.land shift (Z.lor CTL SHIFT)) s = Ok m s ∧ m ∈ charcode.
Proof.
  assert (0 ≤ Z.land shift (Z.lor CTL SHIFT) < 4) as Hi.
  { change (Z.lor CTL SHIFT) with (Z.ones 2). rewrite Z.land_ones by lia. apply (Z.mod_pos_bound shift 4). lia. }
  unfold at_index. rewrite (proj2 (Z.ltb_ge _ 0)) by lia.
  destruct (lookup_lt_is_Some_2 charcode (Z.to_nat (Z.land shift (Z.lor CTL SHIFT)))) as [m Hm]; [cbn; lia|].
  exists m. rewrite Hm. split; [done|]. by eapply list_elem_of_lookup_2.
Qed.

Lemma kbdgetc_ok st data shift : 0 ≤ data < 256 → shift_ok shift →
  ∃ c shift', kbdgetc st data shift = Ok c shift' ∧ shift_ok shift' ∧ -1 ≤ c < 256 ∧ (c = -1 ↔ Z.land st KBS_DIB = 0).
Proof.
  intros Hd Hs. unfold kbdgetc. erewrite bind_ok by reflexivity. cbn [id].
  destruct (Z.eqb_spec (Z.land st KBS_DIB) 0) as [E|E]; [by exists (-1), shift; split_and!|].
  destruct (data =? 0xE0).
  { exists 0, (Z.lor shift E0ESC). split; [done|]. split; [apply lor_ok; [done|by vm_compute]|]. split; [lia|]. split; [lia|done]. }
  destruct (negb (Z.land data 0x80 =? 0)).
  - cbv zeta. set (d := if _ : bool then _ else _).
    assert (0 ≤ d < 256) as Hd' by (unfold d; case_match; [done|apply land_byte; lia]).
    destruct (at_table _ _ d shift shiftcode_ok Hd') as (sc & Esc & _). rewrite (bind_ok _ _ _ _ _ Esc).
    exists 0, (Z.ldiff shift (Z.lor sc E0ESC)). split; [done|]. split; [by apply ldiff_ok|]. split; [lia|]. split; [lia|done].
  - cbv zeta. set (esc := negb (Z.land shift E0ESC =? 0)). set (d := if esc then _ else data). set (s1 := if esc then _ else shift).
    assert (0 ≤ d < 256) as Hd' by (unfold d; case_match; [apply lor_byte; lia|done]).
    assert (shift_ok s1) as Hs1 by (unfold s1; case_match; [by apply ldiff_ok|done]).
    destruct (at_table _ _ d shift shiftcode_ok Hd') as (sc & Esc & Hsc). rewrite (bind_ok _ _ _ _ _ Esc).
    destruct (at_table _ _ d shift togglecode_ok Hd') as (tc & Etc & Htc). rewrite (bind_ok _ _ _ _ _ Etc).
    set (s2 := Z.lxor (Z.lor s1 sc) tc). erewrite bind_ok by reflexivity.
    destruct (at_charcode s2 s2) as (m & Em & Hm). rewrite (bind_ok _ _ _ _ _ Em).
    destruct (at_table _ _ d s2 (charcode_ok m Hm) Hd') as (c & Ec & Hc). rewrite (bind_ok _ _ _ _ _ Ec).
    eexists _, s2. split; [reflexivity|]. split; [apply lxor_ok; [by apply lor_ok|done]|].
    assert (∀ x, 0 ≤ x < 256 → -1 ≤ x < 256 ∧ (x = -1 ↔ Z.land st KBS_DIB = 0)) as Hx by (intros; split; [lia|split; [lia|done]]).
    unfold is_char in Hc. repeat case_match; apply Hx; try done; apply u32_case; lia.
Qed.

Lemma kbd_chars_ok codes shift : Forall is_char codes → shift_ok shift →
  ∃ cs shift', kbd_chars codes shift = Ok cs shift' ∧ shift_ok shift' ∧ Forall (λ c, 0 ≤ c < 256) cs.
Proof.
  intros Hc. revert shift. induction Hc as [|d codes Hd _ IH]; intros shift Hs; cbn [kbd_chars]; [by exists [], shift|].
  destruct (kbdgetc_ok KBS_DIB d shift Hd Hs) as (c & s1 & E & Hs1 & Hr & Hne). rewrite (bind_ok _ _ _ _ _ E).
  destruct (IH s1 Hs1) as (cs & s2 & E2 & Hs2 & Hcs). rewrite (bind_ok _ _ _ _ _ E2). exists (c :: cs), s2. split; [done|].
  split; [done|]. constructor; [|done]. destruct (decide (c = -1)) as [->|]; [|lia]. by destruct Hne as [Hne _]; specialize (Hne eq_refl).
Qed.

(** C36: The types of the keyboard: whatever bytes the controller delivers, [kbdgetc]
    stays inside its tables, [shift] keeps to its seven bits, and what comes out
    are characters, so that the console goes on as the terminal does. *)
Theorem kbdintr_well_typed codes shift s t :
  Forall is_char codes → shift_ok shift → models s t →
  ∃ cs shift' s', kbd_chars codes shift = Ok cs shift' ∧ Forall is_char cs ∧ shift_ok shift' ∧
    kbdintr codes (shift, s) = Ok (snd (keys t cs)) (shift', s') ∧ models s' (fst (keys t cs)).
Proof.
  intros Hc Hs Hm. destruct (kbd_chars_ok codes shift Hc Hs) as (cs & s1 & E & Hs1 & Hcs).
  destruct (consoleintr_ok s t cs Hm Hcs) as (s' & E' & Hm'). exists cs, s1, s'. split_and!; try done.
  unfold kbdintr. by rewrite E, E'.
Qed.

(** Press shift, [h], release both, [i], [x], backspace, enter: the bytes of the
    keys, and the line that is ready for a reader. *)
Definition typed_codes : list Z := [0x2A; 0x23; 0xA3; 0xAA; 0x17; 0x97; 0x2D; 0xAD; 0x0E; 0x8E; 0x1C; 0x9C].

Lemma kbdintr_well_typed_witness : ∃ s',
  kbdintr typed_codes (0, booted) = Ok (false, true) (0, s') ∧ models s' (Tty [72; 105; 10] [] (72 :: 105 :: replicate 78 32)).
Proof.
  destruct (kbdintr_well_typed typed_codes 0 booted (Tty [] [] [])) as (cs & shift' & s' & E & _ & _ & E' & Hm).
  - apply (bool_decide_unpack _). by vm_compute.
  - unfold shift_ok. lia.
  - apply booted_models.
  - exists s'. vm_compute in E. injection E as <- <-. split; [exact E'|exact Hm].
Defined.

End Kbd.
