(* ===== verification/Grep.v ===== *)
(** Grep: the regular-expression search of xv6 (p4/xv6-public/grep.c, with
    [strchr] of ulib.c): its matcher against a denotation of patterns, and the
    buffering of lines. *)
From S2P Require Import Prelude Memory.
From Stdlib Require Import Strings.Byte.
Local Open Scope Z_scope.

Module Grep.

(** The characters the code names; a string is a list without the final NUL. *)
Definition NUL : byte := x00.
Definition NL : byte := x0a.
Definition STAR : byte := x2a.
Definition DOT : byte := x2e.
Definition DOLLAR : byte := x24.
Definition CARET : byte := x5e.

Definition beq (a b : byte) : bool := bool_decide (a = b).

(** ** The matcher *)

(** [int matchstar(int c, char *re, char *text)], with [matchhere re] for its
    calls of [matchhere(re, ...)]. *)
Fixpoint matchstar (c : byte) (matchhere_re : list byte → bool) (text : list byte) : bool :=
  if matchhere_re text then true else
  match text with
  | [] => false
  | t :: text => if beq t c || beq c DOT then matchstar c matchhere_re text else false
  end.

(** [int matchhere(char *re, char *text)] *)
Fixpoint matchhere (re text : list byte) : bool :=
  match re with
  | [] => true
  | c :: re1 =>
      let single :=
        match text with
        | [] => false
        | t :: text => if beq c DOT || beq c t then matchhere re1 text else false
        end in
      match re1 with
      | s :: re2 => if beq s STAR then matchstar c (matchhere re2) text else single
      | [] => if beq c DOLLAR then match text with [] => true | _ => false end else single
      end
  end.

(** The loop of [match]. *)
Fixpoint match_any (re text : list byte) : bool :=
  if matchhere re text then true else
  match text with
  | [] => false
  | _ :: text => match_any re text
  end.

(** [int match(char *re, char *text)] *)
Definition match_ (re text : list byte) : bool :=
  match re with
  | c :: re1 => if beq c CARET then matchhere re1 text else match_any re text
  | [] => match_any re text
  end.

(** ** The filter *)

(** [strchr]: the index of the first [c] before the NUL. *)
Fixpoint strchr (s : list byte) (c : byte) : option nat :=
  match s with
  | [] => None
  | x :: s => if beq x NUL then None else if beq x c then Some O else S <$> strchr s c
  end.

(** The file that [grep] reads, and the strings it writes. *)
Record gstate (F : Type) := GState { fd : F; out : list (list byte) }.
Arguments GState {F}. Arguments fd {F}. Arguments out {F}.

Section Grep.
(** [read(fd, buf, n)]: what it stores; an empty result stands for 0 or -1. *)
Context {F : Type} (read : Z → F → list byte * F) (pattern : list byte).

Definition sizeof_buf : Z := 1024.

(** The loop over the lines in the buffer, from [p] on. *)
Definition scan_step (buf : list byte) (p : nat) : ST (gstate F) (nat + nat) :=
  match strchr (drop p buf) NL with
  | None => ret (inr p)
  | Some q =>
      let line := take q (drop p buf) in
      do! (if match_ pattern line
           then modify (λ s, GState (fd s) (out s ++ [line ++ [NL]]))
           else ret tt) in
      ret (inl (p + q + 1)%nat)
  end.

(** One turn of the outer loop; [buf] its what the buffer holds ([m] bytes). *)
Definition grep_step (buf : list byte) : ST (gstate F) (list byte + unit) :=
  let! s := gets fd in
  let (bytes, s') := read (sizeof_buf - Z.of_nat (length buf) - 1) s in
  do! modify (λ g, GState s' (out g)) in
  match bytes with
  | [] => ret (inr tt)
  | _ =>
      let buf := buf ++ bytes in
      let! p := loop (S (length buf)) (scan_step buf) O in
      ret (inl (if (p =? 0)%nat then [] else drop p buf))
  end.

(** [void grep(char *pattern, int fd)] *)
Definition grep (fuel : nat) : ST (gstate F) unit := loop fuel grep_step [].

End Grep.

(** * What a pattern means *)

(** A pattern is a sequence of characters (or any character) and repetitions,
    optionally anchored at the end of the line. *)
Inductive item := One (c : byte) | Many (c : byte).

Fixpoint items (re : list byte) : list item * bool :=
  match re with
  | [] => ([], false)
  | c :: re1 =>
      match re1 with
      | s :: re2 => if beq s STAR then let (its, e) := items re2 in (Many c :: its, e)
                    else let (its, e) := items re1 in (One c :: its, e)
      | [] => if beq c DOLLAR then ([], true) else ([One c], false)
      end
  end.

Definition accepts (c t : byte) : Prop := c = DOT ∨ c = t.

(** The words a sequence of items denotes. *)
Inductive denotes : list item → list byte → Prop :=
| den_nil : denotes [] []
| den_one c its t w : accepts c t → denotes its w → denotes (One c :: its) (t :: w)
| den_many c its ts w : Forall (accepts c) ts → denotes its w → denotes (Many c :: its) (ts ++ w).

Definition denotes_prefix (p : list item * bool) (text : list byte) : Prop :=
  ∃ w rest, text = w ++ rest ∧ denotes p.1 w ∧ (p.2 = true → rest = []).

Definition matches (re text : list byte) : Prop :=
  match re with
  | c :: re1 => if beq c CARET then denotes_prefix (items re1) text
                else ∃ pre suf, text = pre ++ suf ∧ denotes_prefix (items re) suf
  | [] => True
  end.

Lemma beq_true a b : beq a b = true ↔ a = b.
Proof. apply bool_decide_eq_true. Qed.
Lemma beq_accepts c t : beq c DOT || beq c t = true ↔ accepts c t.
Proof. by rewrite orb_true_iff, !beq_true. Qed.

Lemma matchstar_spec c m text :
  matchstar c m text = true ↔ ∃ ts rest, text = ts ++ rest ∧ Forall (accepts c) ts ∧ m rest = true.
Proof.
  induction text as [|t text IH]; cbn [matchstar].
  - destruct (m []) eqn:E; split; try done; [intros; by exists [], []|].
    intros (ts & rest & Eq & _ & Hm). symmetry in Eq. apply app_nil in Eq as [-> ->]. congruence.
  - destruct (m (t :: text)) eqn:E.
    { split; [|done]. intros _. by exists [], (t :: text). }
    replace (beq t c || beq c DOT) with (beq c DOT || beq c t).
    2:{ rewrite orb_comm. f_equal. unfold beq. apply bool_decide_ext. done. }
    destruct (beq c DOT || beq c t) eqn:Ha.
    + apply beq_accepts in Ha. rewrite IH. split.
      * intros (ts & rest & -> & ? & ?). exists (t :: ts), rest. split_and!; [done|by constructor|done].
      * intros ([|t' ts] & rest & Eq & Hts & Hm); cbn in Eq; [subst rest; congruence|].
        injection Eq as <- ->. apply Forall_cons in Hts as [_ ?]. by exists ts, rest.
    + split; [done|]. intros ([|t' ts] & rest & Eq & Hts & Hm); cbn in Eq; [subst rest; congruence|].
      injection Eq as <- ->. apply Forall_cons in Hts as [Hacc _]. apply beq_accepts in Hacc. congruence.
Qed.

Lemma prefix_one c its e text :
  denotes_prefix (One c :: its, e) text ↔ ∃ t text', text = t :: text' ∧ accepts c t ∧ denotes_prefix (its, e) text'.
Proof.
  split.
  - intros (w & rest & -> & Hd & He). inversion Hd; subst. exists t, (w0 ++ rest). split_and!; [done|done|]. by exists w0, rest.
  - intros (t & text' & -> & Ha & w & rest & -> & Hd & He). exists (t :: w), rest. split_and!; [done|by constructor|done].
Qed.

Lemma prefix_many c its e text :
  denotes_prefix (Many c :: its, e) text ↔
  ∃ ts rest, text = ts ++ rest ∧ Forall (accepts c) ts ∧ denotes_prefix (its, e) rest.
Proof.
  split.
  - intros (w & rest & -> & Hd & He). inversion Hd; subst. exists ts, (w0 ++ rest). split_and!; [by rewrite app_assoc|done|].
    by exists w0, rest.
  - intros (ts & text' & -> & Ha & w & rest & -> & Hd & He). exists (ts ++ w), rest.
    split_and!; [by rewrite app_assoc|by constructor|done].
Qed.

Lemma prefix_nil e text : denotes_prefix ([], e) text ↔ (e = true → text = []).
Proof.
  split.
  - intros (w & rest & -> & Hd & He) H. inversion Hd; subst. by rewrite He.
  - intros H. exists [], text. split_and!; [done|constructor|done].
Qed.

(** Induction on patterns, one or two characters at a time. *)
Lemma pattern_ind (P : list byte → Prop) :
  P [] → (∀ c, P [c]) → (∀ c s re, P re → P (s :: re) → P (c :: s :: re)) → ∀ re, P re.
Proof.
  intros H0 H1 H2 re. enough (P re ∧ ∀ c, P (c :: re)) as [? _] by done.
  induction re as [|s re [IH1 IH2]]; split; auto.
Qed.

Lemma single_spec c re text :
  (∀ text, matchhere re text = true ↔ denotes_prefix (items re) text) →
  match text with
  | [] => false
  | t :: text => if beq c DOT || beq c t then matchhere re text else false
  end = true ↔ denotes_prefix (One c :: (items re).1, (items re).2) text.
Proof.
  intros IH. rewrite prefix_one. destruct (items re) as [its e]. cbn [fst snd] in *. split.
  - destruct text as [|t text]; [done|]. destruct (beq c DOT || beq c t) eqn:Ha; [|done].
    apply beq_accepts in Ha. rewrite IH. intros. by exists t, text.
  - intros (t & text' & -> & Ha%beq_accepts & Hd). rewrite Ha. by apply IH.
Qed.

Lemma matchhere_cons c s re text :
  matchhere (c :: s :: re) text =
  if beq s STAR then matchstar c (matchhere re) text
  else match text with
       | [] => false
       | t :: text => if beq c DOT || beq c t then matchhere (s :: re) text else false
       end.
Proof. reflexivity. Qed.

Lemma items_cons c s re :
  items (c :: s :: re) =
  if beq s STAR then (Many c :: (items re).1, (items re).2)
  else (One c :: (items (s :: re)).1, (items (s :: re)).2).
Proof.
  change (items (c :: s :: re)) with
    (if beq s STAR then let (its, e) := items re in (Many c :: its, e)
     else let (its, e) := items (s :: re) in (One c :: its, e)).
  by destruct (beq s STAR), (items re), (items (s :: re)).
Qed.

Lemma matchhere_spec re text : matchhere re text = true ↔ denotes_prefix (items re) text.
Proof.
  revert text. induction re as [|c|c s re IH1 IH2] using pattern_ind; intros text.
  - cbn. rewrite prefix_nil. done.
  - cbn [matchhere items]. destruct (beq c DOLLAR).
    + rewrite prefix_nil. destruct text; naive_solver.
    + apply (single_spec c []). intros. cbn. by rewrite prefix_nil.
  - rewrite matchhere_cons, items_cons. destruct (beq s STAR); [|by apply single_spec].
    destruct (items re) as [its e]. rewrite matchstar_spec, prefix_many. by setoid_rewrite IH1.
Qed.

Lemma match_any_spec re text :
  match_any re text = true ↔ ∃ pre suf, text = pre ++ suf ∧ denotes_prefix (items re) suf.
Proof.
  induction text as [|t text IH]; cbn [match_any].
  - destruct (matchhere re []) eqn:E.
    + split; [|done]. intros _. exists [], []. by rewrite <- matchhere_spec.
    + split; [done|]. intros (pre & suf & Eq & Hd). symmetry in Eq. apply app_nil in Eq as [-> ->].
      apply matchhere_spec in Hd. congruence.
  - destruct (matchhere re (t :: text)) eqn:E.
    + split; [|done]. intros _. exists [], (t :: text). by rewrite <- matchhere_spec.
    + rewrite IH. split.
      * intros (pre & suf & -> & Hd). by exists (t :: pre), suf.
      * intros ([|t' pre] & suf & Eq & Hd); cbn in Eq.
        -- subst suf. apply matchhere_spec in Hd. congruence.
        -- injection Eq as <- ->. by exists pre, suf.
Qed.

(** C40: The matcher of [grep] decides the language of the pattern: [c] stands for
    itself, [.] for any character, [c*] for any number of them, [^] and [$] at
    the ends anchor it; without [^] the match can start anywhere. *)
Theorem match_correct re text : match_ re text = true ↔ matches re text.
Proof.
  unfold match_, matches. destruct re as [|c re].
  - split; [done|]. intros _. by destruct text.
  - destruct (beq c CARET); [apply matchhere_spec|apply match_any_spec].
Qed.

(** * Which lines are printed *)

(** The complete lines of a file, without their newlines. *)
Fixpoint lines (s : list byte) : list (list byte) :=
  match s with
  | [] => []
  | x :: s => if beq x NL then [] :: lines s
              else match lines s with [] => [] | l :: ls => (x :: l) :: ls end
  end.

Definition selected (pattern : list byte) (ls : list (list byte)) : list (list byte) :=
  (λ l, l ++ [NL]) <$> filter (λ l, match_ pattern l = true) ls.

Lemma lines_app_nl l s : NL ∉ l → lines (l ++ NL :: s) = l :: lines s.
Proof.
  induction l as [|x l IH]; intros Hl; cbn [app lines]; [done|].
  apply not_elem_of_cons in Hl as [Hx Hl]. rewrite IH by done.
  destruct (beq x NL) eqn:E; [|done]. apply beq_true in E. congruence.
Qed.

Lemma lines_none l : NL ∉ l → lines l = [].
Proof.
  induction l as [|x l IH]; intros Hl; cbn [lines]; [done|].
  apply not_elem_of_cons in Hl as [Hx Hl]. rewrite IH by done.
  destruct (beq x NL) eqn:E; [|done]. apply beq_true in E. congruence.
Qed.

(** A text without a newline is the beginning of the first line. *)
Lemma lines_app_long l s :
  NL ∉ l → lines (l ++ s) = match lines s with [] => [] | x :: ls => (l ++ x) :: ls end.
Proof.
  induction l as [|x l IH]; intros Hl; cbn [app lines]; [by destruct (lines s)|].
  apply not_elem_of_cons in Hl as [Hx Hl]. rewrite IH by done.
  destruct (beq x NL) eqn:E; [apply beq_true in E; congruence|]. by destruct (lines s).
Qed.

Lemma strchr_spec s :
  NUL ∉ s →
  match strchr s NL with
  | Some q => s = take q s ++ NL :: drop (q + 1) s ∧ (NL ∉ take q s) ∧ (q < length s)%nat
  | None => NL ∉ s
  end.
Proof.
  induction s as [|x s IH]; intros Hs; cbn [strchr]; [apply not_elem_of_nil|].
  apply not_elem_of_cons in Hs as [Hx Hs]. specialize (IH Hs).
  destruct (beq x NUL) eqn:E; [apply beq_true in E; congruence|].
  destruct (beq x NL) eqn:E'.
  - apply beq_true in E' as ->. cbn. split_and!; [by rewrite drop_0|apply not_elem_of_nil|lia].
  - assert (x ≠ NL) by (intros ->; by rewrite (proj2 (beq_true NL NL)) in E').
    destruct (strchr s NL) as [q|]; cbn [fmap option_fmap option_map].
    + destruct IH as (Hq & Hn & Hl). cbn. split_and!; [by f_equal|by apply not_elem_of_cons|lia].
    + by apply not_elem_of_cons.
Qed.

Lemma selected_app pattern l1 l2 : selected pattern (l1 ++ l2) = selected pattern l1 ++ selected pattern l2.
Proof. unfold selected. by rewrite filter_app, fmap_app. Qed.

Section Scan.
Context {F : Type} (pattern : list byte).

Lemma scan_step_line buf p q (g : gstate F) :
  strchr (drop p buf) NL = Some q →
  scan_step pattern buf p g =
  Ok (inl (p + q + 1)%nat) (GState (fd g) (out g ++ selected pattern [take q (drop p buf)])).
Proof.
  intros E. unfold scan_step. rewrite E. unfold selected. rewrite filter_cons, filter_nil.
  destruct (match_ pattern (take q (drop p buf))) eqn:Em.
  - by rewrite decide_True.
  - rewrite decide_False by congruence. cbn. rewrite app_nil_r. by destruct g.
Qed.

(** The loop over the lines: it prints the complete ones that match and stops at
    the beginning of the incomplete one. *)
Lemma scan_ok fuel : ∀ buf p (g : gstate F),
  NUL ∉ buf → (p ≤ length buf)%nat → (length buf - p < fuel)%nat →
  ∃ p' ls, loop fuel (scan_step pattern buf) p g = Ok p' (GState (fd g) (out g ++ selected pattern ls)) ∧
    (p ≤ p' ≤ length buf)%nat ∧ (NL ∉ drop p' buf) ∧ (p' = p → ls = []) ∧
    ∀ rest, lines (drop p buf ++ rest) = ls ++ lines (drop p' buf ++ rest).
Proof.
  induction fuel as [|fuel IH]; intros buf p g Hn Hp Hf; [lia|].
  assert (NUL ∉ drop p buf) as Hd.
  { intros Hin. apply Hn. rewrite <- (take_drop p buf). apply elem_of_app. by right. }
  pose proof (strchr_spec (drop p buf) Hd) as Hs. destruct (strchr (drop p buf) NL) as [q|] eqn:E.
  - destruct Hs as (Hq & Hnl & Hlq). rewrite length_drop in Hlq.
    destruct (IH buf (p + q + 1)%nat (GState (fd g) (out g ++ selected pattern [take q (drop p buf)])) Hn)
      as (p' & ls & El & Hp' & Hn' & _ & Hls); [lia|lia|].
    exists p', (take q (drop p buf) :: ls). split_and!; [|lia|lia|done|lia|].
    + rewrite (loop_next _ _ _ _ _ _ (scan_step_line _ _ _ _ E)), El. cbn [fd out].
      by rewrite <- app_assoc, <- selected_app.
    + intros rest. rewrite Hq at 1. rewrite <- app_assoc. cbn [app].
      rewrite lines_app_nl, drop_drop, Nat.add_assoc by done. by rewrite Hls.
  - exists p, []. split_and!; try done.
    apply loop_exit. unfold scan_step. rewrite E. unfold ret. unfold selected. cbn. rewrite app_nil_r. by destruct g.
Qed.
End Scan.

(** Reading a regular file: as many bytes as there are and as were asked for. *)
Definition read_file (n : Z) (f : list byte) : list byte * list byte :=
  (take (Z.to_nat n) f, drop (Z.to_nat n) f).

(** No complete line is longer than the buffer. *)
Definition lines_fit (s : list byte) : Prop := Forall (λ l, Z.of_nat (length l) < sizeof_buf - 1) (lines s).

Lemma no_lines_app x y :
  NL ∉ x → lines_fit (x ++ y) → sizeof_buf - 1 ≤ Z.of_nat (length x) ∨ y = [] → lines (x ++ y) = [] ∧ lines y = [].
Proof.
  intros Hx Hfit Hy. pose proof (lines_app_long x y Hx) as E. destruct (lines y) as [|l ls] eqn:Ey; [by rewrite E|].
  destruct Hy as [Hlen| ->]; [|done]. unfold lines_fit in Hfit. rewrite E in Hfit.
  apply Forall_cons in Hfit as [Hl _]. rewrite length_app in Hl. lia.
Qed.

(** The states between two turns of the outer loop. *)
Definition between (buf rest : list byte) : Prop :=
  (NUL ∉ buf ++ rest) ∧ (NL ∉ buf) ∧ Z.of_nat (length buf) < sizeof_buf - 1 ∧ lines_fit (buf ++ rest).

Lemma between_keep buf0 rest0 ls buf' rest' pre :
  between buf0 rest0 → buf0 ++ rest0 = pre ++ rest' → buf' `suffix_of` pre → NL ∉ buf' →
  Z.of_nat (length buf') < sizeof_buf - 1 → lines (buf0 ++ rest0) = ls ++ lines (buf' ++ rest') → between buf' rest'.
Proof.
  intros (Hnul & _ & _ & Hfit) E [pre' ->] Hnl Hlen Hls. split_and!; try done.
  - rewrite E, <- app_assoc in Hnul. intros H. apply Hnul, elem_of_app. by right.
  - unfold lines_fit in *. rewrite Hls in Hfit. by apply Forall_app in Hfit as [_ ?].
Qed.

Lemma grep_turn pattern buf rest o :
  between buf rest → rest ≠ [] →
  ∃ buf' rest' ls, grep_step read_file pattern buf (GState rest o) = Ok (inl buf') (GState rest' (o ++ selected pattern ls)) ∧
    between buf' rest' ∧ (length rest' < length rest)%nat ∧ lines (buf ++ rest) = ls ++ lines (buf' ++ rest').
Proof.
  intros Hbt Hne. pose proof Hbt as (Hnul & Hnl & Hlen & Hfit). unfold sizeof_buf in Hlen.
  set (k := Z.to_nat (sizeof_buf - Z.of_nat (length buf) - 1)).
  assert (k = (1023 - length buf)%nat) as Ek by (unfold k, sizeof_buf; lia).
  destruct (take k rest) as [|x bytes] eqn:Eb.
  { destruct rest; [done|]. by replace k with (S (pred k)) in Eb by lia. }
  assert (buf ++ rest = (buf ++ x :: bytes) ++ drop k rest) as Erest by (rewrite <- Eb, <- app_assoc; by rewrite take_drop).
  assert (NUL ∉ buf ++ x :: bytes) as Hnul'.
  { rewrite Erest in Hnul. intros H. apply Hnul, elem_of_app. by left. }
  destruct (scan_ok pattern (S (length (buf ++ x :: bytes))) (buf ++ x :: bytes) 0 (GState (drop k rest) o) Hnul')
    as (p & ls & El & Hp & Hd & Hz & Hls); [lia|lia|]. specialize (Hls (drop k rest)). rewrite drop_0, <- Erest in Hls.
  assert (length (drop k rest) < length rest)%nat as Hshort by (rewrite length_drop; destruct rest; [done|cbn; lia]).
  assert (length (buf ++ x :: bytes) = Nat.min 1023 (length buf + length rest))%nat as Hbuf by (rewrite length_app, <- Eb, length_take; lia).
  exists (if (p =? 0)%nat then [] else drop p (buf ++ x :: bytes)), (drop k rest), ls.
  assert (lines (buf ++ rest) = ls ++ lines ((if (p =? 0)%nat then [] else drop p (buf ++ x :: bytes)) ++ drop k rest)) as Hlines.
  { destruct (Nat.eqb_spec p 0) as [->|]; [|done]. rewrite Hz by done. rewrite drop_0 in Hd. rewrite Erest in Hfit |- *.
    destruct (no_lines_app _ _ Hd Hfit) as [-> H]; [|done].
    destruct (decide (1023 ≤ length buf + length rest)%nat); [left; unfold sizeof_buf; lia|right].
    apply length_zero_iff_nil. rewrite length_drop. lia. }
  split_and!; [|eapply (between_keep buf rest); [done|exact Erest| | | |exact Hlines]|done|exact Hlines].
  - unfold grep_step, read_file. unfold bind at 1. cbn [gets fd]. fold k. rewrite Eb.
    erewrite bind_ok by reflexivity. cbn [out]. rewrite (bind_ok _ _ _ _ _ El). done.
  - destruct (p =? 0)%nat; [apply suffix_nil|apply suffix_drop].
  - destruct (p =? 0)%nat; [apply not_elem_of_nil|done].
  - unfold sizeof_buf. destruct (Nat.eqb_spec p 0); [cbn; lia|]. rewrite length_drop. lia.
Qed.

Lemma grep_loop pattern n : ∀ buf rest o fuel,
  (length rest < fuel)%nat → (length rest ≤ n)%nat → between buf rest →
  loop fuel (grep_step read_file pattern) buf (GState rest o) =
  Ok tt (GState [] (o ++ selected pattern (lines (buf ++ rest)))).
Proof.
  induction n as [|n IH]; intros buf rest o fuel Hf Hn Hbt; (destruct fuel as [|fuel]; [lia|]);
    (destruct (decide (rest = [])) as [->|Hne];
     [apply loop_exit; unfold grep_step, read_file; unfold bind at 1; cbn [gets fd];
      destruct Hbt as (_ & Hnl & _); rewrite !app_nil_r, (lines_none buf Hnl), take_nil, drop_nil; cbn; by rewrite app_nil_r|]).
  { destruct rest; [done|cbn in Hn; lia]. }
  destruct (grep_turn pattern buf rest o Hbt Hne) as (buf' & rest' & ls & E & Hbt' & Hlt & Hls).
  rewrite (loop_next _ _ _ _ _ _ E), IH by (done || lia). by rewrite Hls, selected_app, app_assoc.
Qed.

(** [grep] of a regular file without NUL characters whose lines fit into the
    buffer ends, and writes exactly the complete lines that match the pattern, in
    order; what follows the last newline is never looked at. *)
Theorem grep_prints_matching_lines pattern file fuel :
  NUL ∉ file → lines_fit file → (length file < fuel)%nat →
  grep read_file pattern fuel (GState file []) = Ok tt (GState [] (selected pattern (lines file))).
Proof.
  intros Hnul Hfit Hf. unfold grep. rewrite (grep_loop pattern (length file)); [done|done|done|].
  split_and!; [done|apply not_elem_of_nil|unfold sizeof_buf; cbn; lia|done].
Qed.

Lemma grep_prints_matching_lines_witness :
  let file := [x61; x62; NL; x62; NL; x61] in
  grep read_file [x61] 10 (GState file []) = Ok tt (GState [] (selected [x61] (lines file))).
Proof.
  intros file. apply (grep_prints_matching_lines [x61] file 10); [by apply (bool_decide_unpack _)|by repeat constructor|cbn; lia].
Defined.

End Grep.
