(* ===== verification/Umalloc.v ===== *)
(** Umalloc: the memory allocator of user programs (p4/xv6-public/umalloc.c; p5
    has the same file): a circular list of free blocks in address order, searched
    from a roving pointer, over the memory that [sbrk] adds at the end of the
    process. *)
From S2P Require Import Prelude.
Local Open Scope Z_scope.

Module Umalloc.

Definition KERNBASE : Z := 0x80000000.
Definition sizeof_Header : Z := 8.

(** The memory of the process: its words by address, its size, and the global
    [freep]. *)
Record heap := Heap { word : Z → Z; psize : Z; freep : Z }.

Definition upd (f : Z → Z) (a v : Z) : Z → Z := λ x, if x =? a then v else f x.

Definition ok_addr (h : heap) (a : Z) : bool := (a mod 4 =? 0) && (0 <=? a) && (a + 4 <=? psize h).
Definition ld (a : Z) : ST heap Z := λ h, if ok_addr h a then Ok (word h a) h else Fault.
Definition st (a v : Z) : ST heap unit := λ h,
  if ok_addr h a then Ok tt (Heap (upd (word h) a v) (psize h) (freep h)) else Fault.
Definition set_freep (p : Z) : ST heap unit := modify (λ h, Heap (word h) (psize h) p).

(** The fields of a [Header] at [p]. *)
Definition s_ptr (p : Z) : ST heap Z := ld p.
Definition s_size (p : Z) : ST heap Z := ld (p + 4).
Definition set_ptr (p v : Z) : ST heap unit := st p v.
Definition set_size (p v : Z) : ST heap unit := st (p + 4) v.
(** [p + n] for a [Header *p]. *)
Definition hplus (p n : Z) : Z := u32 (p + sizeof_Header * n).

Section Umalloc.
(** The address of [base], and whether the kernel has the memory to let a process
    of some size grow by some bytes. *)
Context (base : Z) (room : Z → Z → bool).

(** [sbrk], as sys_sbrk and growproc answer it: new memory is zero. *)
Definition sbrk (n : Z) : ST heap Z := λ h,
  let sz := psize h in
  if 0 <? n then
    if (u32 (sz + n) <? KERNBASE) && room sz n
    then Ok sz (Heap (λ a, if (sz <=? a) && (a <? sz + n) then 0 else word h a) (sz + n) (freep h))
    else Ok (-1) h
  else if n <? 0 then
    if u32 (sz + n) =? 0 then Ok (-1) h
    else Ok sz (Heap (word h) (Z.min sz (u32 (sz + n))) (freep h))
  else Ok sz h.

(** Enough turns to go round the list. *)
Definition units (h : heap) : nat := Z.to_nat (psize h / sizeof_Header) + 2.

(** One turn of the loop of [free]: the place [p] after which [bp] belongs. *)
Definition free_step (bp p : Z) : ST heap (Z + Z) :=
  let! next := s_ptr p in
  if (p <? bp) && (bp <? next) then ret (inr p)
  else if (next <=? p) && ((p <? bp) || (bp <? next)) then ret (inr p)
  else ret (inl next).

(** Puts [bp] before [next], or makes one block of both. *)
Definition join_next (bp next : Z) : ST heap unit :=
  let! bsize := s_size bp in
  if hplus bp bsize =? next then
    let! nsize := s_size next in
    do! set_size bp (u32 (bsize + nsize)) in
    let! nnext := s_ptr next in
    set_ptr bp nnext
  else set_ptr bp next.

(** Puts [bp] after [p], or makes one block of both. *)
Definition join_prev (p bp : Z) : ST heap unit :=
  let! size := s_size p in
  if hplus p size =? bp then
    let! bsize := s_size bp in
    do! set_size p (u32 (size + bsize)) in
    let! bnext := s_ptr bp in
    set_ptr p bnext
  else set_ptr p bp.

(** [void free(void *ap)] *)
Definition free (ap : Z) : ST heap unit :=
  let bp := hplus ap (-1) in
  let! f := gets freep in
  let! fuel := gets units in
  let! p := loop fuel (free_step bp) f in
  let! next := s_ptr p in
  do! join_next bp next in
  do! join_prev p bp in
  set_freep p.

(** [static Header* morecore(uint nu)] *)
Definition morecore (nu : Z) : ST heap Z :=
  let nu := if nu <? 4096 then 4096 else nu in
  let! p := sbrk (i32 (u32 (nu * sizeof_Header))) in
  if p =? -1 then ret 0 else
  do! set_size p nu in
  do! free (hplus p 1) in
  gets freep.

(** Takes [nunits] out of the block [p], which has [size] units. *)
Definition carve (nunits prevp p size : Z) : ST heap Z :=
  let! p := (if size =? nunits then
               let! next := s_ptr p in
               do! set_ptr prevp next in
               ret p
             else
               do! set_size p (u32 (size - nunits)) in
               let! rest := s_size p in
               let p := hplus p rest in
               do! set_size p nunits in
               ret p) in
  do! set_freep prevp in
  ret (hplus p 1).

(** One turn of the loop of [malloc]. *)
Definition malloc_step (nunits : Z) (l : Z * Z) : ST heap (Z * Z + Z) :=
  let (prevp, p) := l in
  let! size := s_size p in
  if nunits <=? size then
    let! r := carve nunits prevp p size in
    ret (inr r)
  else
    let! f := gets freep in
    if p =? f then
      let! p := morecore nunits in
      if p =? 0 then ret (inr 0) else
      let! next := s_ptr p in
      ret (inl (p, next))
    else
      let! next := s_ptr p in
      ret (inl (p, next)).

(** [void* malloc(uint nbytes)] *)
Definition malloc (nbytes : Z) : ST heap Z :=
  let nunits := u32 (u32 (nbytes + sizeof_Header - 1) / sizeof_Header + 1) in
  let! prevp := gets freep in
  let! prevp := (if prevp =? 0 then
                   do! set_ptr base base in
                   do! set_freep base in
                   do! set_size base 0 in
                   ret base
                 else ret prevp) in
  let! p := s_ptr prevp in
  let! fuel := gets units in
  loop (2 * fuel) (malloc_step nunits) (prevp, p).

End Umalloc.

End Umalloc.
