(* ===== verification/UmallocInv.v ===== *)
(** UmallocInv: the heap of a user program as a row of blocks, free or in use,
    that covers the memory from [lo] to the end of the process without gaps, and
    the proof that [free] and [malloc] are operations on that row. *)
From S2P Require Import Prelude Umalloc.
From stdpp Require Import sorting.
Local Open Scope Z_scope.

Module UmallocInv.
Import Umalloc.

(** * Rows of blocks *)

(** A block: whether it is free, and its size in units (the header counts). *)
Definition tile : Type := bool * Z.

Definition total (T : list tile) : Z := foldr (λ t n, t.2 + n) 0 T.

(** The addresses and sizes of the free ([f = true]) or used blocks. *)
Fixpoint blocks (f : bool) (a : Z) (T : list tile) : list (Z * Z) :=
  match T with
  | [] => []
  | (g, s) :: T => (if eqb f g then [(a, s)] else []) ++ blocks f (a + 8 * s) T
  end.

(** Adjacent free blocks become one. *)
Definition join (t : tile) (T : list tile) : list tile :=
  match t, T with
  | (true, s), (true, s') :: T' => (true, s + s') :: T'
  | _, _ => t :: T
  end.
Definition coalesce (T : list tile) : list tile := foldr join [] T.
Fixpoint normal (T : list tile) : Prop :=
  match T with
  | [] => True
  | t :: T => match t, T with (true, _), (true, _) :: _ => False | _, _ => normal T end
  end.
Definition sized (T : list tile) : Prop := Forall (λ t, 1 ≤ t.2) T.

Lemma total_app T1 T2 : total (T1 ++ T2) = total T1 + total T2.
Proof. induction T1 as [|t T1 IH]; simpl; [done|]. unfold total in *. lia. Qed.

Lemma blocks_app f a T1 T2 : blocks f a (T1 ++ T2) = blocks f a T1 ++ blocks f (a + 8 * total T1) T2.
Proof.
  revert a. induction T1 as [|[g s] T1 IH]; intros a; cbn [app blocks total foldr].
  - by rewrite Z.add_0_r.
  - rewrite IH, app_assoc. do 2 f_equal. unfold total. simpl. lia.
Qed.

Lemma sized_total T : sized T → 0 ≤ total T.
Proof. induction 1 as [|t T ? ? IH]; [done|]. unfold total in *. simpl. lia. Qed.

Lemma blocks_range f a T b : sized T → b ∈ blocks f a T → a ≤ b.1 ∧ b.1 + 8 * b.2 ≤ a + 8 * total T ∧ 1 ≤ b.2 ∧ b.1 mod 8 = a mod 8.
Proof.
  intros HT. revert a. induction HT as [|[g s] T Hs HT IH]; intros a; cbn [blocks]; [by intros ?%elem_of_nil|].
  pose proof (sized_total T HT). unfold total in *. simpl in *. rewrite elem_of_app. intros [Hb|Hb].
  - destruct (eqb f g); [|by apply elem_of_nil in Hb]. apply list_elem_of_singleton in Hb as ->. simpl. lia.
  - apply IH in Hb as (? & ? & ? & Hm). split_and!; [lia..|]. rewrite Hm, (Z.mul_comm 8), Z.mod_add by lia. done.
Qed.

(** One block ends before the other begins. *)
Definition before (b c : Z * Z) : Prop := b.1 + 8 * Z.max 1 b.2 ≤ c.1.

Lemma blocks_sorted f a T : sized T → StronglySorted before (blocks f a T).
Proof.
  intros HT. revert a. induction HT as [|[g s] T Hs HT IH]; intros a; cbn [blocks]; [constructor|].
  destruct (eqb f g); simpl; [|apply IH]. constructor; [apply IH|].
  apply Forall_forall. intros b (? & _)%blocks_range; [|done]. unfold before. simpl in *. lia.
Qed.

Lemma blocks_disjoint f g a T b c :
  sized T → b ∈ blocks f a T → c ∈ blocks g a T → (f = g ∧ b = c) ∨ before b c ∨ before c b.
Proof.
  intros HT. revert a. induction HT as [|[t s] T Hs HT IH]; intros a; cbn [blocks]; [by intros ?%elem_of_nil|].
  rewrite !elem_of_app. intros [Hb|Hb] [Hc|Hc]; [| | |by eapply IH].
  - destruct f, g, t; simpl in *; rewrite ?list_elem_of_singleton, ?elem_of_nil in *; naive_solver.
  - apply blocks_range in Hc as (? & _); [|done]. destruct (eqb f t); [|by apply elem_of_nil in Hb].
    apply list_elem_of_singleton in Hb as ->. right. left. unfold before. simpl in *. lia.
  - apply blocks_range in Hb as (? & _); [|done]. destruct (eqb g t); [|by apply elem_of_nil in Hc].
    apply list_elem_of_singleton in Hc as ->. right. right. unfold before. simpl in *. lia.
Qed.

(** A place in the list of blocks is a place in the row. *)
Lemma blocks_split f a T p s A B :
  blocks f a T = A ++ (p, s) :: B →
  ∃ T1 T2, T = T1 ++ (f, s) :: T2 ∧ p = a + 8 * total T1 ∧ blocks f a T1 = A ∧ blocks f (p + 8 * s) T2 = B.
Proof.
  revert a A. induction T as [|[g t] T IH]; intros a A; cbn [blocks]; [by destruct A|].
  destruct (eqb f g) eqn:E.
  - apply eqb_prop in E as <-. destruct A as [|x A]; cbn [app].
    + intros [= <- <- <-]. exists [], T. cbn [total foldr]. split_and!; [done|lia|done|done].
    + intros [= <- H]. apply IH in H as (T1 & T2 & -> & -> & <- & <-). exists ((f, t) :: T1), T2.
      cbn [blocks total foldr app]. rewrite eqb_reflx. cbn [snd]. fold (total T1). split_and!; [done|lia|done|f_equal; lia].
  - intros H. apply IH in H as (T1 & T2 & -> & -> & <- & <-). exists ((g, t) :: T1), T2.
    cbn [blocks total foldr app]. rewrite E. cbn [snd]. fold (total T1). split_and!; [done|lia|done|f_equal; lia].
Qed.

(** ** Joining *)
Lemma join_total t T : total (join t T) = t.2 + total T.
Proof. destruct t as [[] s], T as [|[[] s'] T]; unfold total; simpl; lia. Qed.
Lemma coalesce_total T : total (coalesce T) = total T.
Proof. induction T as [|t T IH]; [done|]. cbn [coalesce foldr]. rewrite join_total. fold (coalesce T). rewrite IH. done. Qed.

Lemma join_sized t T : 1 ≤ t.2 → sized T → sized (join t T).
Proof.
  intros Ht HT. destruct t as [[] s], T as [|[[] s'] T]; simpl in *; try by constructor.
  inversion HT; subst. constructor; simpl in *; [lia|done].
Qed.
Lemma coalesce_sized T : sized T → sized (coalesce T).
Proof. induction 1; [constructor|]. by apply join_sized. Qed.

Lemma join_normal t T : normal T → normal (join t T).
Proof. destruct t as [[] s], T as [|[[] s'] [|[[] u] T]]; simpl; tauto. Qed.
Lemma coalesce_normal T : normal (coalesce T).
Proof. induction T; [done|]. by apply join_normal. Qed.
Lemma normal_join t T : normal (t :: T) → join t T = t :: T.
Proof. by destruct t as [[] s], T as [|[[] s'] T]. Qed.
Lemma normal_tail t T : normal (t :: T) → normal T.
Proof. destruct t as [[] s], T as [|[[] s'] T]; simpl; tauto. Qed.
Lemma normal_coalesce T : normal T → coalesce T = T.
Proof. induction T as [|t T IH]; intros H; [done|]. cbn [coalesce foldr]. fold (coalesce T). rewrite IH by by eapply normal_tail. by apply normal_join. Qed.
Lemma normal_app T1 T2 : normal (T1 ++ T2) → normal T1 ∧ normal T2.
Proof.
  induction T1 as [|t T1 IH]; [done|]. intros H. pose proof (normal_tail _ _ H) as [? ?]%IH. split; [|done].
  destruct t as [[] s], T1 as [|[[] s'] T1]; simpl in *; tauto.
Qed.

Lemma blocks_join_used a t T : blocks false a (join t T) = blocks false a (t :: T).
Proof.
  destruct t as [[] s], T as [|[[] s'] T]; try done. cbn [join blocks eqb app]. f_equal. lia.
Qed.
(** Joining leaves the used blocks alone. *)
Lemma coalesce_used a T : blocks false a (coalesce T) = blocks false a T.
Proof.
  revert a. induction T as [|[f s] T IH]; intros a; [done|]. cbn [coalesce foldr]. fold (coalesce T). rewrite blocks_join_used.
  cbn [blocks]. by rewrite IH.
Qed.

Lemma coalesce_big T s : sized T → (true, s) ∈ T → ∃ s', s ≤ s' ∧ (true, s') ∈ coalesce T.
Proof.
  intros HT. induction HT as [|[f t] T Ht HT IH]; [by intros ?%elem_of_nil|].
  cbn [coalesce foldr]. fold (coalesce T). rewrite elem_of_cons. simpl in *. pose proof (coalesce_sized T HT) as HC.
  destruct (coalesce T) as [|[g u] U].
  - intros [[= <- ->]|Hin]; [exists t; split; [lia|left]|]. destruct (IH Hin) as (? & _ & ?%elem_of_nil). done.
  - inversion HC; subst. simpl in *. intros [[= <- ->]|Hin].
    + destruct g; simpl; eexists; (split; [|left]); lia.
    + destruct (IH Hin) as (s' & ? & Hs'). destruct f, g; simpl; rewrite ?elem_of_cons in *.
      * destruct Hs' as [[= ->]|]; [exists (t + u); split; [lia|by left]|exists s'; split; [lia|by right]].
      * exists s'. rewrite !elem_of_cons. tauto.
      * exists s'. rewrite !elem_of_cons. tauto.
      * exists s'. rewrite !elem_of_cons. tauto.
Qed.

Lemma in_blocks f a T s : (f, s) ∈ T ↔ ∃ p, (p, s) ∈ blocks f a T.
Proof.
  revert a. induction T as [|[g t] T IH]; intros a; cbn [blocks].
  { setoid_rewrite elem_of_nil. naive_solver. }
  setoid_rewrite elem_of_app. rewrite elem_of_cons, (IH (a + 8 * t)). destruct (eqb f g) eqn:E.
  - apply eqb_prop in E as <-. setoid_rewrite list_elem_of_singleton. naive_solver.
  - setoid_rewrite elem_of_nil. split; [|naive_solver]. intros [[= -> ->]|]; [by rewrite eqb_reflx in E|naive_solver].
Qed.

(** * The list of free blocks *)

(** The words [w] link the blocks [L] and lead to [t] at the end. *)
Definition hd_addr (L : list (Z * Z)) (t : Z) : Z := match L with [] => t | b :: _ => b.1 end.
Fixpoint seg (w : Z → Z) (L : list (Z * Z)) (t : Z) : Prop :=
  match L with
  | [] => True
  | b :: L => w b.1 = hd_addr L t ∧ w (b.1 + 4) = b.2 ∧ seg w L t
  end.

Lemma hd_addr_app L1 L2 t : hd_addr (L1 ++ L2) t = hd_addr L1 (hd_addr L2 t).
Proof. by destruct L1. Qed.

Lemma seg_app w L1 L2 t : seg w (L1 ++ L2) t ↔ seg w L1 (hd_addr L2 t) ∧ seg w L2 t.
Proof. induction L1 as [|b L1 IH]; cbn [app seg]; [tauto|]. rewrite IH, hd_addr_app. tauto. Qed.

Lemma seg_ext w w' L t :
  (∀ b, b ∈ L → w' b.1 = w b.1 ∧ w' (b.1 + 4) = w (b.1 + 4)) → seg w L t → seg w' L t.
Proof.
  induction L as [|b L IH]; intros H; cbn [seg]; [done|]. destruct (H b ltac:(left)) as [-> ->].
  intros (? & ? & ?). split_and!; [done..|]. apply IH; [|done]. intros c ?. apply H. by right.
Qed.

(** Only the header at [a] differs. *)
Definition same_but (a : Z) (h h' : heap) : Prop :=
  psize h' = psize h ∧ freep h' = freep h ∧ ∀ x, x < a ∨ a + 8 ≤ x → word h' x = word h x.

Lemma seg_same_but a h h' L t :
  same_but a h h' → (∀ b, b ∈ L → b.1 + 8 ≤ a ∨ a + 8 ≤ b.1) → seg (word h) L t → seg (word h') L t.
Proof. intros (_ & _ & H) HL. apply seg_ext. intros b Hb. destruct (HL b Hb); split; apply H; lia. Qed.

Definition addr_ok (h : heap) (a : Z) : Prop := a mod 4 = 0 ∧ 0 ≤ a ∧ a + 8 ≤ psize h.

Lemma add4_mod a : (a + 4) mod 4 = a mod 4.
Proof. replace (a + 4) with (a + 1 * 4) by lia. apply Z.mod_add. lia. Qed.

Lemma mod8_mod4 a k : a mod 8 = 0 → (a + 8 * k) mod 4 = 0.
Proof.
  intros H. pose proof (Z.div_mod a 8 ltac:(lia)).
  replace (a + 8 * k) with (2 * (a / 8 + k) * 4) by lia. apply Z.mod_mul. lia.
Qed.

Lemma ok_addr_0 h a : addr_ok h a → ok_addr h a = true.
Proof. intros (? & ? & ?). unfold ok_addr. rewrite !andb_true_iff, Z.eqb_eq, !Z.leb_le. lia. Qed.
Lemma ok_addr_4 h a : addr_ok h a → ok_addr h (a + 4) = true.
Proof. intros (? & ? & ?). unfold ok_addr. rewrite !andb_true_iff, Z.eqb_eq, !Z.leb_le, add4_mod. lia. Qed.

Lemma s_ptr_ok h a : addr_ok h a → s_ptr a h = Ok (word h a) h.
Proof. intros H. unfold s_ptr, ld. by rewrite ok_addr_0. Qed.
Lemma s_size_ok h a : addr_ok h a → s_size a h = Ok (word h (a + 4)) h.
Proof. intros H. unfold s_size, ld. by rewrite ok_addr_4. Qed.
Lemma set_ptr_ok h a v : addr_ok h a → set_ptr a v h = Ok tt (Heap (upd (word h) a v) (psize h) (freep h)).
Proof. intros H. unfold set_ptr, st. by rewrite ok_addr_0. Qed.
Lemma set_size_ok h a v : addr_ok h a → set_size a v h = Ok tt (Heap (upd (word h) (a + 4) v) (psize h) (freep h)).
Proof. intros H. unfold set_size, st. by rewrite ok_addr_4. Qed.

Lemma words_upd_same f a v : upd f a v a = v.
Proof. unfold upd. by rewrite Z.eqb_refl. Qed.
Lemma words_upd_other f a v x : x ≠ a → upd f a v x = f x.
Proof. intros. unfold upd. by rewrite (proj2 (Z.eqb_neq x a)). Qed.

Lemma hplus_small p n : 0 ≤ p + 8 * n < 2 ^ 32 → hplus p n = p + 8 * n.
Proof. apply u32_small. Qed.

(** ** The two halves of an insertion *)
Lemma join_next_ok h bp next :
  addr_ok h bp → addr_ok h next → psize h ≤ KERNBASE →
  1 ≤ word h (bp + 4) → bp + 8 * word h (bp + 4) ≤ psize h → 0 ≤ word h (next + 4) ≤ psize h →
  ∃ h', join_next bp next h = Ok tt h' ∧ same_but bp h h' ∧
    let b := bp + 8 * word h (bp + 4) =? next in
    word h' bp = (if b then word h next else next) ∧
    word h' (bp + 4) = (if b then word h (bp + 4) + word h (next + 4) else word h (bp + 4)).
Proof.
  intros Hb Hn Hp Hs He Hns. pose proof Hb as (_ & ? & _). unfold KERNBASE in *. unfold join_next.
  rewrite (bind_ok _ _ _ _ _ (s_size_ok _ _ Hb)), hplus_small by (destruct Hb; lia).
  destruct (Z.eqb_spec (bp + 8 * word h (bp + 4)) next) as [E|].
  - rewrite (bind_ok _ _ _ _ _ (s_size_ok _ _ Hn)), (bind_ok _ _ _ _ _ (set_size_ok _ _ _ Hb)).
    erewrite bind_ok by by apply s_ptr_ok. rewrite set_ptr_ok by done. eexists. split; [done|]. split.
    + split_and!; [done..|]. intros x Hx. cbn [word]. rewrite !words_upd_other by lia. done.
    + cbn [word]. rewrite words_upd_same, (words_upd_other _ _ _ (bp + 4)), words_upd_same, words_upd_other, u32_small by lia. done.
  - rewrite set_ptr_ok by done. eexists. split; [done|]. split.
    + split_and!; [done..|]. intros x Hx. cbn [word]. rewrite words_upd_other by lia. done.
    + cbn [word]. rewrite words_upd_same, words_upd_other by lia. done.
Qed.

Lemma join_prev_ok h p bp :
  addr_ok h p → addr_ok h bp → psize h ≤ KERNBASE → p + 8 ≤ bp →
  0 ≤ word h (p + 4) → p + 8 * word h (p + 4) ≤ psize h → 0 ≤ word h (bp + 4) ≤ psize h →
  ∃ h', join_prev p bp h = Ok tt h' ∧ same_but p h h' ∧
    let b := p + 8 * word h (p + 4) =? bp in
    word h' p = (if b then word h bp else bp) ∧
    word h' (p + 4) = (if b then word h (p + 4) + word h (bp + 4) else word h (p + 4)).
Proof.
  intros Hb Hn Hp Hlt Hs He Hns. pose proof Hb as (_ & ? & _). unfold KERNBASE in *. unfold join_prev.
  rewrite (bind_ok _ _ _ _ _ (s_size_ok _ _ Hb)), hplus_small by (destruct Hb; lia).
  destruct (Z.eqb_spec (p + 8 * word h (p + 4)) bp) as [E|].
  - rewrite (bind_ok _ _ _ _ _ (s_size_ok _ _ Hn)), (bind_ok _ _ _ _ _ (set_size_ok _ _ _ Hb)).
    erewrite bind_ok by by apply s_ptr_ok. rewrite set_ptr_ok by done. eexists. split; [done|]. split.
    + split_and!; [done..|]. intros x Hx. cbn [word]. rewrite !words_upd_other by lia. done.
    + cbn [word]. rewrite words_upd_same, (words_upd_other _ _ _ (p + 4)), words_upd_same, words_upd_other, u32_small by lia. done.
  - rewrite set_ptr_ok by done. eexists. split; [done|]. split.
    + split_and!; [done..|]. intros x Hx. cbn [word]. rewrite words_upd_other by lia. done.
    + cbn [word]. rewrite words_upd_same, words_upd_other by lia. done.
Qed.

End UmallocInv.
