(* ===== verification/UmallocFree.v ===== *)
(** UmallocFree: the invariant of the heap, and the proof that [free] gives a
    block back to the row of blocks and joins it with its free neighbours. *)
From S2P Require Import Prelude Umalloc UmallocInv.
From stdpp Require Import sorting.
Local Open Scope Z_scope.

Module UmallocFree.
Import Umalloc UmallocInv.

Section Free.
Context (base : Z).

(** The circular list: [base] and the free blocks in address order. *)
Definition nodes (lo : Z) (T : list tile) : list (Z * Z) := (base, 0) :: blocks true lo T.

(** The row [T] describes the heap from [lo] on. *)
Record heap_ok (lo : Z) (T : list tile) (h : heap) : Prop := {
  ok_base : 0 < base ∧ base mod 4 = 0 ∧ base + 8 ≤ lo;
  ok_lo : lo mod 8 = 0;
  ok_end : lo + 8 * total T = psize h;
  ok_psize : psize h < KERNBASE;
  ok_sized : sized T;
  ok_normal : normal T;
  ok_chain : seg (word h) (nodes lo T) base;
  ok_used : ∀ b, b ∈ blocks false lo T → word h (b.1 + 4) = b.2;
  ok_freep : freep h ∈ (nodes lo T).*1;
}.

(** The blocks [B] have the same contents in [h] and [h']. *)
Definition keeps (B : list (Z * Z)) (h h' : heap) : Prop :=
  ∀ b x, b ∈ B → b.1 ≤ x < b.1 + 8 * b.2 → word h' x = word h x.

Lemma nodes_sorted lo T : base + 8 ≤ lo → sized T → StronglySorted before (nodes lo T).
Proof.
  intros Hb HT. constructor; [by apply blocks_sorted|]. apply Forall_forall.
  intros b (? & _)%blocks_range; [|done]. unfold before. simpl. lia.
Qed.

Lemma node_range lo T h b :
  heap_ok lo T h → b ∈ nodes lo T → addr_ok h b.1 ∧ 0 < b.1 ∧ 0 ≤ b.2 ∧ b.1 + 8 * b.2 ≤ psize h.
Proof.
  intros []. unfold nodes. rewrite elem_of_cons. intros [->|Hb]; simpl.
  - pose proof (sized_total T ok_sized0). split; [|lia]. split_and!; lia.
  - apply blocks_range in Hb as (? & ? & ? & Hm); [|done]. unfold addr_ok. split_and!; try lia.
    rewrite ok_lo0 in Hm. rewrite <- (Z.add_0_r b.1). by apply (mod8_mod4 _ 0).
Qed.

Lemma used_range lo T h b : heap_ok lo T h → b ∈ blocks false lo T → addr_ok h b.1 ∧ lo ≤ b.1 ∧ 1 ≤ b.2 ∧ b.1 + 8 * b.2 ≤ psize h.
Proof.
  intros [] Hb. apply blocks_range in Hb as (? & ? & ? & Hm); [|done]. unfold addr_ok. split_and!; try lia.
  rewrite ok_lo0 in Hm. rewrite <- (Z.add_0_r b.1). by apply (mod8_mod4 _ 0).
Qed.

(** Used blocks and nodes of the list do not overlap. *)
Lemma used_node lo T h b n :
  heap_ok lo T h → b ∈ blocks false lo T → n ∈ nodes lo T → before b n ∨ before n b.
Proof.
  intros Hok Hb. unfold nodes. rewrite elem_of_cons. intros [->|Hn].
  - pose proof (ok_base _ _ _ Hok). apply (used_range _ _ _ _ Hok) in Hb. unfold before. simpl. lia.
  - destruct (blocks_disjoint _ _ _ _ _ _ (ok_sized _ _ _ Hok) Hb Hn) as [[]|]; done.
Qed.

(** ** Finding the place of a block *)
Section Walk.
Context (h : heap) (bp : Z).

Lemma free_step_ok p next :
  addr_ok h p → word h p = next →
  free_step bp p h =
  Ok (if ((p <? bp) && (bp <? next)) || ((next <=? p) && ((p <? bp) || (bp <? next))) then inr p else inl next) h.
Proof.
  intros Ha Hn. unfold free_step. rewrite (bind_ok _ _ _ _ _ (s_ptr_ok _ _ Ha)), Hn.
  destruct (p <? bp), (bp <? next), (next <=? p); done.
Qed.

(** From a node below [bp], the loop of [free] goes to the last such node. *)
Lemma free_walk_below n B Y k :
  seg (word h) (n :: B ++ Y) base → StronglySorted before (n :: B ++ Y) →
  (∀ b, b ∈ n :: B → addr_ok h b.1 ∧ b.1 < bp ∧ base ≤ b.1) → (∀ b, b ∈ Y → bp < b.1) →
  loop (S (length B) + k) (free_step bp) n.1 h = Ok (default n (last B)).1 h.
Proof.
  intros Hseg HS HX HY. revert n Hseg HS HX. induction B as [|m B IH]; intros n Hseg HS HX.
  - cbn [app seg length] in *. destruct Hseg as (Hn & _). destruct (HX n ltac:(left)) as (Ha & ? & ?).
    apply loop_exit. rewrite (free_step_ok _ _ Ha Hn). destruct Y as [|y Y]; cbn [hd_addr].
    + rewrite (proj2 (Z.ltb_ge bp base)), andb_false_r, (proj2 (Z.leb_le base n.1)), (proj2 (Z.ltb_lt n.1 bp)) by lia. done.
    + pose proof (HY y ltac:(left)). rewrite (proj2 (Z.ltb_lt n.1 bp)), (proj2 (Z.ltb_lt bp y.1)) by lia. done.
  - cbn [app length] in *. destruct Hseg as (Hn & _ & Hseg). destruct (HX n ltac:(left)) as (Ha & ? & ?).
    destruct (HX m ltac:(right; left)) as (_ & ? & _). inversion HS as [|? ? HS' HF]; subst. inversion HF as [|? ? Hnm _]; subst.
    unfold before in Hnm. cbn [hd_addr] in Hn. change (S (S (length B)) + k)%nat with (S (S (length B) + k)).
    rewrite (loop_next _ _ _ _ m.1 h).
    2:{ rewrite (free_step_ok _ _ Ha Hn), (proj2 (Z.ltb_ge bp m.1)), andb_false_r, (proj2 (Z.leb_gt m.1 n.1)) by lia. done. }
    rewrite IH; [|done|done|intros; apply HX; by right]. by destruct B as [|? B _] using rev_ind; rewrite ?last_cons, ?last_snoc.
Qed.

(** From a node above [bp], it goes to [base]. *)
Lemma free_walk_above n B k :
  seg (word h) (n :: B) base → StronglySorted before (n :: B) →
  (∀ b, b ∈ n :: B → addr_ok h b.1 ∧ bp < b.1) → base < bp →
  loop (S (length B) + k) (free_step bp) n.1 h = loop k (free_step bp) base h.
Proof.
  intros Hseg HS HX Hb. revert n Hseg HS HX. induction B as [|m B IH]; intros n Hseg HS HX.
  - cbn [seg length hd_addr] in *. destruct Hseg as (Hn & _). destruct (HX n ltac:(left)) as (Ha & ?).
    apply loop_next. rewrite (free_step_ok _ _ Ha Hn), (proj2 (Z.ltb_ge n.1 bp)), (proj2 (Z.ltb_ge bp base)) by lia. by destruct (base <=? n.1).
  - cbn [length] in *. destruct Hseg as (Hn & _ & Hseg). destruct (HX n ltac:(left)) as (Ha & ?).
    inversion HS as [|? ? HS' HF]; subst. inversion HF as [|? ? Hnm _]; subst.
    unfold before in Hnm. cbn [hd_addr] in Hn. change (S (S (length B)) + k)%nat with (S (S (length B) + k)).
    rewrite (loop_next _ _ _ _ m.1 h); [apply IH; [done|done|intros; apply HX; by right]|].
    rewrite (free_step_ok _ _ Ha Hn), (proj2 (Z.ltb_ge n.1 bp)), (proj2 (Z.leb_gt m.1 n.1)) by lia. done.
Qed.
End Walk.

Lemma length_blocks f a T : sized T → Z.of_nat (length (blocks f a T)) ≤ total T.
Proof.
  intros HT. revert a. induction HT as [|[g s] T ? HT IH]; intros a; [done|]. cbn [blocks total foldr snd] in *. fold (total T).
  rewrite length_app. specialize (IH (a + 8 * s)). destruct (eqb f g); simpl length; lia.
Qed.

(** The free blocks of a row with a used block in it. *)
Lemma nodes_used lo T1 s T2 :
  nodes lo (T1 ++ (false, s) :: T2) = nodes lo T1 ++ blocks true (lo + 8 * total T1 + 8 * s) T2.
Proof. unfold nodes. by rewrite blocks_app. Qed.

Lemma fuel_ok lo T h : heap_ok lo T h → (length (nodes lo T) < units h)%nat.
Proof.
  intros []. pose proof (length_blocks true lo T ok_sized0). pose proof (sized_total T ok_sized0).
  unfold units, nodes, sizeof_Header. rewrite <- ok_end0, (Z.mul_comm 8), Z.div_add by lia. cbn [length].
  pose proof (Z.div_pos lo 8 ltac:(lia)). lia.
Qed.

Lemma free_finds lo T1 s T2 h :
  heap_ok lo (T1 ++ (false, s) :: T2) h →
  loop (units h) (free_step (lo + 8 * total T1)) (freep h) h = Ok (default (base, 0) (last (blocks true lo T1))).1 h.
Proof.
  intros Hok. set (bp := lo + 8 * total T1). set (Y := blocks true (bp + 8 * s) T2). pose proof (fuel_ok _ _ _ Hok) as Hfuel.
  pose proof (nodes_sorted lo _ ltac:(apply Hok) (ok_sized _ _ _ Hok)) as HS.
  pose proof (ok_chain _ _ _ Hok) as Hseg. pose proof (ok_base _ _ _ Hok) as Hbase. pose proof (ok_freep _ _ _ Hok) as Hf.
  pose proof (λ b, node_range _ _ _ b Hok) as Hrange. pose proof (ok_sized _ _ _ Hok) as Hsz.
  rewrite nodes_used in *. fold bp Y in HS, Hseg, Hf, Hrange, Hfuel. unfold sized in Hsz. rewrite Forall_app, Forall_cons in Hsz. destruct Hsz as (Hs1 & Hs & Hs2). simpl in Hs.
  pose proof (sized_total _ Hs1).
  assert (∀ b, b ∈ nodes lo T1 → addr_ok h b.1 ∧ b.1 < bp ∧ base ≤ b.1) as HX.
  { intros b Hb. destruct (Hrange b ltac:(apply elem_of_app; by left)) as (? & _). unfold nodes in Hb. apply elem_of_cons in Hb as [->|Hb].
    - simpl. split; [done|]. unfold bp. lia.
    - apply blocks_range in Hb; [|done]. unfold bp. split; [done|lia]. }
  assert (∀ b, b ∈ Y → addr_ok h b.1 ∧ bp < b.1) as HY.
  { intros b Hb. destruct (Hrange b ltac:(apply elem_of_app; by right)) as (? & _). apply blocks_range in Hb; [|done]. split; [done|lia]. }
  rewrite fmap_app, elem_of_app in Hf. rewrite length_app in Hfuel. destruct Hf as [Hf|Hf]; apply list_elem_of_fmap in Hf as (n & -> & Hn).
  - apply list_elem_of_split in Hn as (A & B & E). rewrite E in *. rewrite <- app_assoc in HS, Hseg. apply StronglySorted_app_1_r in HS.
    apply seg_app in Hseg as [_ Hseg]. rewrite length_app in Hfuel. cbn [length] in Hfuel.
    replace (units h) with (S (length B) + (units h - S (length B)))%nat by lia.
    rewrite (free_walk_below h bp n B Y); [|done|done|intros b ?; apply HX, elem_of_app; by right|intros; by apply HY].
    f_equal. unfold nodes in E. destruct A as [|a A]; injection E as <- ->; [done|]. rewrite last_app, last_cons. by destruct (last B).
  - apply list_elem_of_split in Hn as (A & B & E). rewrite E in *. rewrite length_app in Hfuel. unfold nodes in Hfuel. cbn [length] in Hfuel.
    rewrite app_assoc in HS, Hseg. pose proof (StronglySorted_app_1_r _ _ _ HS) as HS2. apply seg_app in Hseg as [Hseg1 Hseg2].
    replace (units h) with (S (length B) + (S (length (blocks true lo T1)) + (units h - S (length B) - S (length (blocks true lo T1)))))%nat by lia.
    rewrite (free_walk_above h bp n B); [|done|done|intros b ?; apply HY, elem_of_app; by right|unfold bp; lia].
    pose proof (ok_chain _ _ _ Hok) as Hseg. rewrite nodes_used in Hseg. fold bp Y in Hseg. rewrite E in Hseg. rewrite <- app_assoc in HS.
    apply (free_walk_below h bp (base, 0) (blocks true lo T1) (A ++ n :: B)); [done|done|done|]. intros b Hb. by apply HY.
Qed.

(** ** Joining with the neighbours *)
Lemma release_right bp s T2 :
  sized T2 → 1 ≤ s → base < bp →
  let Y := blocks true (bp + 8 * s) T2 in let b := bp + 8 * s =? hd_addr Y base in
  let s' := if b then s + (default (base, 0) (head Y)).2 else s in
  ∃ T2', join (true, s) T2 = (true, s') :: T2' ∧ blocks true (bp + 8 * s') T2' = (if b then tail Y else Y).
Proof.
  intros HT Hs Hb Y b s'. destruct T2 as [|[[] s2] T2].
  - assert (b = false) as E by (apply Z.eqb_neq; cbn; lia). exists []. unfold s'. by rewrite E.
  - assert (b = true) as E by (apply Z.eqb_eq; cbn; lia). exists T2. unfold s'. rewrite E. split; [done|].
    cbn [Y blocks eqb app tail head default from_option snd]. f_equal. cbn. lia.
  - assert (b = false) as E.
    { apply Z.eqb_neq. unfold Y. cbn [blocks eqb app]. inversion HT as [|? ? ? HT']; subst. simpl in *.
      destruct (blocks true (bp + 8 * s + 8 * s2) T2) as [|y Z] eqn:EY; cbn [hd_addr]; [lia|].
      assert (y ∈ blocks true (bp + 8 * s + 8 * s2) T2) as Hy by (rewrite EY; left). apply blocks_range in Hy; [lia|done]. }
    exists ((false, s2) :: T2). unfold s'. by rewrite E.
Qed.

Lemma foldr_join_app T t z V : normal (T ++ [t]) → foldr join ((t.1, z) :: V) T = T ++ (t.1, z) :: V.
Proof.
  induction T as [|u T IH]; intros H; [done|]. cbn [foldr app]. pose proof (normal_tail _ _ H). rewrite IH by done.
  destruct u as [[] a], T as [|[[] a'] T], t as [[] b]; try done.
Qed.

Lemma nodes_last lo T : ∃ A, nodes lo T = A ++ [default (base, 0) (last (blocks true lo T))].
Proof.
  unfold nodes. destruct (blocks true lo T) as [|y F _] using rev_ind; [by exists []|].
  exists ((base, 0) :: F). by rewrite last_snoc.
Qed.

Lemma release_left lo T1 s' T2' :
  sized T1 → normal T1 → base + 8 ≤ lo → 
  let bp := lo + 8 * total T1 in let q := default (base, 0) (last (blocks true lo T1)) in
  let Y' := blocks true (bp + 8 * s') T2' in
  ∃ A, nodes lo T1 = A ++ [q] ∧
    nodes lo (foldr join ((true, s') :: T2') T1) =
      if q.1 + 8 * q.2 =? bp then A ++ (q.1, q.2 + s') :: Y' else A ++ q :: (bp, s') :: Y'.
Proof.
  intros HT HN Hb bp q Y'. unfold nodes. destruct T1 as [|[[] s1] T1 _] using rev_ind.
  - exists []. split; [done|]. assert (bp = lo) as Ebp by (unfold bp; simpl; lia).
    rewrite (proj2 (Z.eqb_neq _ _)) by (unfold q; cbn [blocks last default fst snd]; lia). unfold Y'. by rewrite Ebp.
  - exists ((base, 0) :: blocks true lo T1). assert (q = (lo + 8 * total T1, s1)) as Eq.
    { unfold q. rewrite blocks_app. cbn [blocks eqb app]. by rewrite last_snoc. }
    rewrite Eq. split; [by rewrite blocks_app|]. cbn [fst snd]. assert (bp = lo + 8 * total T1 + 8 * s1) as Ebp by (unfold bp; rewrite total_app; cbn; lia).
    rewrite (proj2 (Z.eqb_eq _ _)) by lia. rewrite foldr_app. cbn [foldr join]. rewrite (foldr_join_app T1 (true, s1)) by done.
    rewrite blocks_app. cbn [blocks eqb app]. do 3 f_equal. unfold Y'. f_equal. lia.
  - assert (q = default (base, 0) (last (blocks true lo T1))) as Eq.
    { unfold q. rewrite blocks_app. cbn [blocks eqb app]. by rewrite app_nil_r. }
    unfold sized in HT. apply Forall_app in HT as [HT1 Hs1]. rewrite Forall_singleton in Hs1. cbn [snd] in Hs1.
    assert (bp = lo + 8 * total T1 + 8 * s1) as Ebp by (unfold bp; rewrite total_app; cbn; lia).
    pose proof (sized_total _ HT1).
    assert (q.1 + 8 * q.2 ≠ bp) as Hne.
    { rewrite Eq. destruct (last (blocks true lo T1)) as [y|] eqn:Ey; cbn [default from_option id fst snd]; [|lia].
      apply last_Some_elem_of, blocks_range in Ey; [lia|done]. }
    rewrite (proj2 (Z.eqb_neq _ _) Hne), foldr_app. cbn [foldr join]. rewrite (foldr_join_app T1 (false, s1)) by done.
    destruct (nodes_last lo T1) as [A EA]. unfold nodes in EA. rewrite <- Eq in EA. exists A.
    rewrite !blocks_app. cbn [blocks eqb app]. rewrite app_nil_r. split; [done|].
    rewrite app_comm_cons, EA, <- app_assoc, <- Ebp. done.
Qed.

(** ** The list after each half of an insertion *)
Lemma insert_next h h1 bp s Y :
  seg (word h) Y base → (∀ b, b ∈ Y → bp + 8 ≤ b.1) → same_but bp h h1 →
  let b := bp + 8 * s =? hd_addr Y base in
  base < bp → 1 ≤ s →
  word h1 bp = (if b then word h (hd_addr Y base) else hd_addr Y base) →
  word h1 (bp + 4) = (if b then s + word h (hd_addr Y base + 4) else s) →
  seg (word h1) ((bp, if b then s + (default (base, 0) (head Y)).2 else s) :: (if b then tail Y else Y)) base.
Proof.
  intros HY Hap Hsb b Hb Hs Hp Hz. cbn [seg fst snd]. rewrite Hp, Hz. destruct (Z.eqb_spec (bp + 8 * s) (hd_addr Y base)) as [E|]; unfold b.
  - destruct Y as [|y Y]; cbn [hd_addr] in *; [lia|]. destruct HY as (Hy1 & Hy2 & HY). cbn [tail head default from_option id].
    split_and!; [done|by rewrite Hy2|]. eapply seg_same_but; [done| |done]. intros c Hc. right. apply Hap. by right.
  - split_and!; [done..|]. eapply seg_same_but; [done| |done]. intros c Hc. right. by apply Hap.
Qed.

Lemma insert_prev h1 h2 A q bp s' Y' :
  seg (word h1) A q.1 → word h1 (q.1 + 4) = q.2 → seg (word h1) ((bp, s') :: Y') base →
  (∀ b, b ∈ A → b.1 + 8 ≤ q.1) → (∀ b, b ∈ (bp, s') :: Y' → q.1 + 8 ≤ b.1) → same_but q.1 h1 h2 →
  let b := q.1 + 8 * q.2 =? bp in
  word h2 q.1 = (if b then word h1 bp else bp) →
  word h2 (q.1 + 4) = (if b then q.2 + word h1 (bp + 4) else q.2) →
  seg (word h2) (if b then A ++ (q.1, q.2 + s') :: Y' else A ++ q :: (bp, s') :: Y') base.
Proof.
  intros HA Hq HB HapA HapB Hsb b Hp Hz.
  assert (seg (word h2) A q.1) as HA2. { eapply seg_same_but; [done| |done]. intros c Hc. left. by apply HapA. }
  assert (seg (word h2) ((bp, s') :: Y') base) as HB2. { eapply seg_same_but; [done| |done]. intros c Hc. right. by apply HapB. }
  destruct HB as (Hb1 & Hb2 & _). cbn [fst snd] in *. destruct b; apply seg_app.
  - split; [done|]. cbn [seg fst snd]. rewrite Hp, Hz, Hb1, Hb2. split_and!; [done..|apply HB2].
  - split; [done|]. split_and!; [by rewrite Hp|by rewrite Hz|done].
Qed.

(** ** [free] *)

(** Where a block at [bp] with [s] units goes: after [q], before [Y]; and what the
    list is afterwards. *)
Record place (lo : Z) (h : heap) (bp s : Z) (A : list (Z * Z)) (q : Z * Z) (Y : list (Z * Z)) : Prop := {
  pl_A : ∀ b, b ∈ A → b.1 + 8 ≤ q.1;
  pl_q : addr_ok h q.1 ∧ q.1 + 8 ≤ bp ∧ 0 ≤ q.2 ∧ q.1 + 8 * q.2 ≤ psize h;
  pl_Y : ∀ b, b ∈ Y → bp + 8 ≤ b.1;
  pl_bp : addr_ok h bp ∧ word h (bp + 4) = s ∧ 1 ≤ s ∧ bp + 8 * s ≤ psize h;
  pl_next : addr_ok h (hd_addr Y base) ∧ 0 ≤ word h (hd_addr Y base + 4) ∧
            hd_addr Y base + 8 * word h (hd_addr Y base + 4) ≤ psize h;
  pl_base : base < bp ∧ psize h ≤ KERNBASE;
  pl_seg : seg (word h) (A ++ q :: Y) base;
  pl_find : loop (units h) (free_step bp) (freep h) h = Ok q.1 h;
}.

(** The list once the block is there. *)
Definition placed (bp s : Z) (A : list (Z * Z)) (q : Z * Z) (Y : list (Z * Z)) : list (Z * Z) :=
  let b := bp + 8 * s =? hd_addr Y base in
  let s' := if b then s + (default (base, 0) (head Y)).2 else s in
  let Y' := if b then tail Y else Y in
  if q.1 + 8 * q.2 =? bp then A ++ (q.1, q.2 + s') :: Y' else A ++ q :: (bp, s') :: Y'.

Lemma free_place lo T1 s T2 h :
  heap_ok lo (T1 ++ (false, s) :: T2) h →
  let bp := lo + 8 * total T1 in
  ∃ A q Y, place lo h bp s A q Y ∧ nodes lo (T1 ++ (false, s) :: T2) = A ++ q :: Y ∧
    nodes lo (coalesce (T1 ++ (true, s) :: T2)) = placed bp s A q Y.
Proof.
  intros Hok bp. set (Y := blocks true (bp + 8 * s) T2). set (q := default (base, 0) (last (blocks true lo T1))).
  pose proof (ok_base _ _ _ Hok) as Hbase. pose proof (ok_psize _ _ _ Hok) as Hps.
  pose proof (ok_sized _ _ _ Hok) as Hsz. unfold sized in Hsz. rewrite Forall_app, Forall_cons in Hsz. destruct Hsz as (Hs1 & Hs & Hs2). cbn [snd] in Hs.
  pose proof (sized_total _ Hs1). destruct (normal_app _ _ (ok_normal _ _ _ Hok)) as [HN1 HN2]. apply normal_tail in HN2.
  assert ((bp, s) ∈ blocks false lo (T1 ++ (false, s) :: T2)) as Hbp. { rewrite blocks_app, elem_of_app. right. left. }
  pose proof (used_range _ _ _ _ Hok Hbp) as (Hba & _ & _ & Hbe). cbn [fst snd] in Hba, Hbe.
  destruct (release_right bp s T2 Hs2 Hs ltac:(lia)) as (T2' & Ej & EY). fold Y in Ej, EY.
  set (s' := if bp + 8 * s =? hd_addr Y base then s + (default (base, 0) (head Y)).2 else s) in *.
  destruct (release_left lo T1 s' T2' Hs1 HN1 ltac:(lia)) as (A & EA & EN). fold q bp in EA, EN. rewrite EY in EN.
  assert (∀ b, b ∈ Y → bp + 8 ≤ b.1) as HY. { intros b Hb. apply blocks_range in Hb; [lia|done]. }
  pose proof (λ b, node_range _ _ _ b Hok) as Hrange. pose proof (ok_chain _ _ _ Hok) as Hseg.
  pose proof (nodes_sorted lo _ ltac:(lia) (ok_sized _ _ _ Hok)) as HS.
  assert (nodes lo (T1 ++ (false, s) :: T2) = A ++ q :: Y) as En by (rewrite nodes_used, EA, <- app_assoc; done).
  rewrite En in Hrange, Hseg, HS. exists A, q, Y. split; [|split; [done|]].
  - destruct (Hrange q) as (? & ? & ? & ?); [rewrite elem_of_app; right; left|]. split; [..|apply (free_finds _ _ _ _ _ Hok)]; auto.
    + intros b Hb. eapply StronglySorted_app_1_elem_of in HS; [|done|left]. unfold before in HS. lia.
    + split_and!; [done| |done..]. assert (q ∈ nodes lo T1) as Hq by (rewrite EA, elem_of_app; right; left).
      unfold nodes in Hq. apply elem_of_cons in Hq as [->|Hq]; [unfold bp; cbn; lia|]. apply blocks_range in Hq; [unfold bp; lia|done].
    + split_and!; [done|exact (ok_used _ _ _ Hok _ Hbp)|done..].
    + apply seg_app in Hseg as (_ & _ & _ & HsY). destruct Y as [|y Y0]; cbn [hd_addr].
      * destruct (ok_chain _ _ _ Hok) as (_ & Hz & _). cbn [fst snd] in Hz. rewrite Hz. unfold addr_ok. lia.
      * destruct HsY as (_ & -> & _). destruct (Hrange y) as (? & ? & ? & ?); [rewrite elem_of_app; right; right; left|]. split; [done|lia].
    + split; [unfold bp; lia|lia].
  - etransitivity; [|exact EN]. f_equal. transitivity (foldr join (join (true, s) (coalesce T2)) T1); [unfold coalesce; by rewrite foldr_app|].
    by rewrite (normal_coalesce _ HN2), Ej.
Qed.

(** [free] changes the list as it says, in the headers of [bp] and [q] alone. *)
Lemma free_links lo h bp s A q Y :
  place lo h bp s A q Y →
  ∃ h', free (bp + 8) h = Ok tt h' ∧ seg (word h') (placed bp s A q Y) base ∧ psize h' = psize h ∧ freep h' = q.1 ∧
    ∀ x, x < bp ∨ bp + 8 ≤ x → x < q.1 ∨ q.1 + 8 ≤ x → word h' x = word h x.
Proof.
  intros [HA (Hqa & Hqb & Hq0 & Hqe) HY (Hba & Hbs & Hs & Hbe) (Hna & Hns & Hne) (Hb & Hps) Hseg Hfind].
  assert (0 ≤ bp) by (destruct Hba; lia). pose proof Hna as (_ & ? & _). unfold KERNBASE in Hps.
  apply seg_app in Hseg as (HsA & Hq1 & Hq2 & HsY). cbn [hd_addr] in HsA.
  destruct (join_next_ok h bp (hd_addr Y base)) as (h1 & E1 & Hsb1 & Hw1 & Hw2); rewrite ?Hbs; [done..|lia|]. rewrite Hbs in Hw1, Hw2.
  pose proof (insert_next h h1 bp s Y HsY HY Hsb1 Hb Hs Hw1 Hw2) as Hseg1. cbv zeta in Hseg1.
  pose proof Hsb1 as (Ep1 & Ef1 & Hs1).
  assert (0 ≤ word h1 (bp + 4) ≤ psize h) as Hs'. { rewrite Hw2. destruct (Z.eqb_spec (bp + 8 * s) (hd_addr Y base)); lia. }
  assert (word h1 (q.1 + 4) = q.2) as Hq2'. { rewrite Hs1 by lia. done. }
  assert (∀ a, addr_ok h a → addr_ok h1 a) as Hok1. { unfold addr_ok. by rewrite Ep1. }
  destruct (join_prev_ok h1 q.1 bp) as (h2 & E2 & Hsb2 & Hv1 & Hv2); rewrite ?Hq2', ?Ep1; [by auto|by auto|done..|]. rewrite Hq2' in Hv1, Hv2.
  pose proof Hsb2 as (Ep2 & Ef2 & Hs2).
  exists (Heap (word h2) (psize h2) q.1). split_and!; [|..|done|].
  - unfold free. rewrite hplus_small by lia. replace (bp + 8 + 8 * -1) with bp by lia.
    erewrite bind_ok by done. erewrite bind_ok by done. rewrite (bind_ok _ _ _ _ _ Hfind), (bind_ok _ _ _ _ _ (s_ptr_ok _ _ Hqa)), Hq1.
    rewrite (bind_ok _ _ _ _ _ E1), (bind_ok _ _ _ _ _ E2). done.
  - unfold placed. cbn [word]. eapply (insert_prev h1 h2); [|done..| |done|done|].
    + eapply seg_same_but; [done| |done]. intros c Hc%HA. lia.
    + intros b [->|Hin]%elem_of_cons; [done|]. assert (b ∈ Y) as Hin2%HY; [|lia].
      destruct (bp + 8 * s =? hd_addr Y base); [|done]. destruct Y; [done|by right].
    + done.
  - by rewrite Ep2.
  - intros x ? ?. cbn [word]. rewrite Hs2, Hs1 by done. done.
Qed.

(** A block that is given back becomes free, and one block with the free blocks
    next to it; the other blocks in use keep their contents. *)
Lemma free_ok lo T1 s T2 h :
  heap_ok lo (T1 ++ (false, s) :: T2) h →
  ∃ h', free (lo + 8 * total T1 + 8) h = Ok tt h' ∧
    heap_ok lo (coalesce (T1 ++ (true, s) :: T2)) h' ∧
    keeps (blocks false lo (T1 ++ (true, s) :: T2)) h h' ∧ psize h' = psize h.
Proof.
  intros Hok. destruct (free_place lo T1 s T2 h Hok) as (A & q & Y & Hpl & En & En').
  destruct (free_links _ _ _ _ _ _ _ Hpl) as (h' & E & Hseg & Ep & Ef & Hw). exists h'. split; [done|].
  set (bp := lo + 8 * total T1) in *. set (T := T1 ++ (false, s) :: T2) in *. set (U := T1 ++ (true, s) :: T2) in *.
  assert (∀ b, b ∈ blocks false lo U → b ∈ blocks false lo T ∧ (before b (bp, s) ∨ before (bp, s) b)) as HU.
  { intros b. unfold U, T. rewrite !blocks_app, !elem_of_app. cbn [blocks eqb app]. rewrite elem_of_cons.
    pose proof (ok_sized _ _ _ Hok) as Hsz. unfold T, sized in Hsz. rewrite Forall_app, Forall_cons in Hsz. destruct Hsz as (? & Hs & ?). cbn [snd] in Hs.
    intros [Hb|Hb]; (split; [tauto|]); apply blocks_range in Hb; try done; unfold before, bp; cbn [fst snd]; [left|right]; lia. }
  assert (∀ b x, b ∈ blocks false lo U → b.1 ≤ x < b.1 + 8 * b.2 → word h' x = word h x) as Hkeep.
  { intros b x Hb Hx. apply HU in Hb as [Hb Hbb]. apply Hw; [unfold before in Hbb; cbn [fst snd] in Hbb; lia|].
    assert (q ∈ nodes lo T) as Hq by (rewrite En, elem_of_app; right; left). destruct (used_node _ _ _ _ _ Hok Hb Hq); unfold before in *; lia. }
  split; [|done]. destruct Hok. assert (total U = total T) as Et by (unfold U, T; rewrite !total_app; done).
  assert (sized U) as HsU. { unfold T, U, sized in *. rewrite Forall_app, Forall_cons in *. done. }
  split; [done|done|by rewrite coalesce_total, Et, Ep|by rewrite Ep|by apply coalesce_sized|apply coalesce_normal|by rewrite En'| |].
  - intros b. rewrite coalesce_used. intros Hb. destruct (HU b Hb) as [HbT _]. rewrite <- (ok_used0 b HbT). apply (Hkeep b); [done|].
    apply blocks_range in HbT as (_ & _ & ? & _); [lia|done].
  - rewrite Ef, En'. unfold placed. case_match; rewrite fmap_app, elem_of_app; right; left.
Qed.

End Free.
End UmallocFree.
