(* ===== verification/UmallocAlloc.v ===== *)
(** UmallocAlloc: [malloc] takes a block out of the row, or makes the heap larger
    first; the sessions of a program with its heap. *)
From S2P Require Import Prelude Umalloc UmallocInv UmallocFree.
From stdpp Require Import sorting.
Local Open Scope Z_scope.

Module UmallocAlloc.
Import Umalloc UmallocInv UmallocFree.

(** * The list as a circle *)

(** The words lead from each block to the next, and from the last one to [t]. *)
Lemma seg_targets w b L t : seg w (b :: L) t → (λ c, w c.1) <$> b :: L = L.*1 ++ [t].
Proof.
  revert b. induction L as [|c L IH]; intros b (H & _ & HL); cbn [fmap list_fmap app].
  - by rewrite H.
  - rewrite H. f_equal. apply IH. done.
Qed.

Lemma NoDup_fmap_inj {A B} (f : A → B) l x y : NoDup (f <$> l) → x ∈ l → y ∈ l → f x = f y → x = y.
Proof.
  intros HN Hx Hy E. apply list_elem_of_lookup in Hx as [i Hi], Hy as [j Hj].
  assert (i = j) as -> by (eapply NoDup_lookup; [done|by rewrite list_lookup_fmap, Hi|by rewrite list_lookup_fmap, Hj, E]).
  congruence.
Qed.

(** Two blocks of the circle that lead to the same block are one. *)
Lemma seg_inj w b L x y :
  seg w (b :: L) b.1 → StronglySorted before (b :: L) → x ∈ b :: L → y ∈ b :: L → w x.1 = w y.1 → x = y.
Proof.
  intros Hseg HS. apply (NoDup_fmap_inj (λ c, w c.1)). rewrite (seg_targets _ _ _ _ Hseg).
  rewrite <- (Permutation_cons_append L.*1 b.1). change (NoDup ((b :: L).*1)).
  clear Hseg. induction HS as [|c M HS IH HF]; [constructor|]. cbn [fmap list_fmap]. constructor; [|done].
  intros (d & E & Hd)%list_elem_of_fmap. rewrite Forall_forall in HF. specialize (HF d Hd). unfold before in HF. lia.
Qed.

(** The first element with a property. *)
Lemma first_big (n : Z) (V : list (Z * Z)) :
  Forall (λ b, b.2 < n) V ∨ ∃ V1 x V2, V = V1 ++ x :: V2 ∧ Forall (λ b, b.2 < n) V1 ∧ n ≤ x.2.
Proof.
  induction V as [|b V IH]; [by left|]. destruct (decide (n ≤ b.2)).
  { right. by exists [], b, V. }
  destruct IH as [?|(V1 & x & V2 & -> & ? & ?)]; [left; constructor; [lia|done]|].
  right. exists (b :: V1), x, V2. split_and!; [done|constructor; [lia|done]|done].
Qed.

(** * Rows with one block changed *)
Lemma normal_use T1 s s' T2 : normal (T1 ++ (true, s) :: T2) → normal (T1 ++ (false, s') :: T2).
Proof.
  induction T1 as [|t T1 IH]; intros H; [by destruct T2 as [|[[] ?] ?]|]. pose proof (IH (normal_tail _ _ H)) as H'.
  destruct t as [[] a], T1 as [|[[] a'] T1]; try done; cbn [app normal] in *; tauto.
Qed.
Lemma normal_cut T1 s a b T2 : normal (T1 ++ (true, s) :: T2) → normal (T1 ++ (true, a) :: (false, b) :: T2).
Proof.
  induction T1 as [|t T1 IH]; intros H; [by destruct T2 as [|[[] ?] ?]|]. pose proof (IH (normal_tail _ _ H)) as H'.
  destruct t as [[] c], T1 as [|[[] c'] T1]; try done; cbn [app normal] in *; tauto.
Qed.
Lemma normal_add T n : normal T → normal (T ++ [(false, n)]).
Proof.
  induction T as [|t T IH]; intros H; [done|]. pose proof (IH (normal_tail _ _ H)) as H'.
  destruct t as [[] a], T as [|[[] a'] T]; try done; cbn [app normal] in *; tauto.
Qed.

Lemma length_coalesce a T : (length (blocks true a (coalesce T)) ≤ length (blocks true a T))%nat.
Proof.
  revert a. induction T as [|t T IH]; intros a; [done|]. etransitivity.
  2:{ assert (length (blocks true a (t :: coalesce T)) ≤ length (blocks true a (t :: T)))%nat as H; [|exact H].
      destruct t as [f s]. cbn [blocks]. rewrite !length_app. specialize (IH (a + 8 * s)). lia. }
  cbn [coalesce foldr]. fold (coalesce T). destruct t as [[] s], (coalesce T) as [|[[] s'] U]; try done.
  cbn [join blocks eqb app length]. replace (a + 8 * (s + s')) with (a + 8 * s + 8 * s') by lia. lia.
Qed.

(** [n] units at the end of a free block are put to use. *)
Definition cut (T1 : list tile) (s n : Z) (T2 : list tile) : list tile :=
  if s =? n then T1 ++ (false, n) :: T2 else T1 ++ (true, s - n) :: (false, n) :: T2.

Lemma cut_ok lo T1 s T2 n :
  sized (T1 ++ (true, s) :: T2) → normal (T1 ++ (true, s) :: T2) → 1 ≤ n ≤ s →
  let p := lo + 8 * total T1 in
  let U := cut T1 s n T2 in
  sized U ∧ normal U ∧ total U = total (T1 ++ (true, s) :: T2) ∧
  blocks false lo U = blocks false lo T1 ++ (p + 8 * (s - n), n) :: blocks false (p + 8 * s) T2 ∧
  blocks true lo U = blocks true lo T1 ++ (if s =? n then [] else [(p, s - n)]) ++ blocks true (p + 8 * s) T2.
Proof.
  intros HT HN Hn p U. unfold U, cut. destruct (Z.eqb_spec s n) as [->|].
  - split_and!; [|by eapply normal_use|by rewrite !total_app| |].
    + unfold sized in *. by rewrite Forall_app, Forall_cons in *.
    + rewrite blocks_app. cbn [blocks eqb app]. by rewrite Z.sub_diag, Z.add_0_r.
    + rewrite blocks_app. cbn [blocks eqb app]. done.
  - split_and!; [|by eapply normal_cut|rewrite !total_app; cbn; lia| |].
    + unfold sized in *. rewrite Forall_app, Forall_cons in HT. rewrite Forall_app, !Forall_cons. cbn [snd] in *. naive_solver lia.
    + rewrite blocks_app. cbn [blocks eqb app]. do 3 f_equal. unfold p. lia.
    + rewrite blocks_app. cbn [blocks eqb app]. do 3 f_equal. unfold p. lia.
Qed.

Section Malloc.
Context (base : Z).
Abbreviation heap_ok := (heap_ok base).
Abbreviation nodes := (nodes base).

(** The predecessor of a free block in the list. *)
Lemma nodes_free lo T1 s T2 :
  ∃ A q, nodes lo (T1 ++ (true, s) :: T2) = A ++ q :: (lo + 8 * total T1, s) :: blocks true (lo + 8 * total T1 + 8 * s) T2 ∧
    nodes lo T1 = A ++ [q].
Proof.
  destruct (nodes_last base lo T1) as [A EA]. exists A. eexists. split; [|exact EA].
  unfold UmallocFree.nodes in *. rewrite blocks_app, app_comm_cons, EA, <- app_assoc. done.
Qed.

(** [carve] writes to the header of the predecessor [q] or to the block itself. *)
Lemma carve_run h n q p s :
  addr_ok h q → addr_ok h p → p + 8 * s ≤ psize h → psize h < KERNBASE → 1 ≤ n ≤ s → word h (p + 4) = s →
  ∃ h', carve n q p s h = Ok (p + 8 * (s - n) + 8) h' ∧ psize h' = psize h ∧ freep h' = q ∧
    word h' = if s =? n then upd (word h) q (word h p) else upd (upd (word h) (p + 4) (s - n)) (p + 8 * (s - n) + 4) n.
Proof.
  intros Hq Hp He Hps Hn Hs. pose proof Hp as (? & ? & _). unfold KERNBASE in Hps. unfold carve. destruct (Z.eqb_spec s n) as [->|].
  - rewrite (bind_ok _ _ h p (Heap (upd (word h) q (word h p)) (psize h) (freep h))).
    2:{ rewrite (bind_ok _ _ _ _ _ (s_ptr_ok _ _ Hp)), (bind_ok _ _ _ _ _ (set_ptr_ok _ _ _ Hq)). done. }
    replace (p + 8 * (n - n) + 8) with (hplus p 1) by (rewrite hplus_small; lia). by eexists.
  - set (r := p + 8 * (s - n)). assert (addr_ok h r) as Hr.
    { unfold addr_ok. split_and!; [|lia|lia]. unfold r. replace (p + 8 * (s - n)) with (p + (2 * (s - n)) * 4) by lia. by rewrite Z.mod_add. }
    rewrite (bind_ok _ _ h r (Heap (upd (upd (word h) (p + 4) (s - n)) (r + 4) n) (psize h) (freep h))).
    2:{ rewrite (bind_ok _ _ _ _ _ (set_size_ok _ _ _ Hp)), u32_small by lia.
        erewrite bind_ok by by apply s_size_ok. cbn [word]. rewrite words_upd_same, hplus_small by lia. fold r.
        erewrite bind_ok by by apply set_size_ok. done. }
    replace (r + 8) with (hplus r 1) by (rewrite hplus_small; unfold r; lia). by eexists.
Qed.

(** The list after [carve]. *)
Lemma carve_seg w A q p s n Y :
  seg w (A ++ q :: (p, s) :: Y) base → StronglySorted before (A ++ q :: (p, s) :: Y) → 1 ≤ n ≤ s →
  let w' := if s =? n then upd w q.1 (w p) else upd (upd w (p + 4) (s - n)) (p + 8 * (s - n) + 4) n in
  seg w' (A ++ q :: (if s =? n then [] else [(p, s - n)]) ++ Y) base.
Proof.
  intros Hseg HS Hn w'. apply seg_app in Hseg as (HA & Hq1 & Hq2 & Hp1 & Hp2 & HY). cbn [hd_addr fst snd] in *.
  apply StronglySorted_app in HS as (HAq & _ & HS). apply StronglySorted_cons in HS as [Hqp HS1]. apply StronglySorted_cons in HS1 as [HpY _].
  rewrite Forall_forall in HpY. rewrite Forall_cons in Hqp. destruct Hqp as [Hqp HqY]. rewrite Forall_forall in HqY. unfold before in *. cbn [fst snd] in *.
  assert (∀ b, b ∈ A → w' b.1 = w b.1 ∧ w' (b.1 + 4) = w (b.1 + 4)) as HA'.
  { intros b Hb. specialize (HAq b q Hb ltac:(left)). unfold w'. destruct (s =? n); rewrite !words_upd_other by lia; done. }
  assert (∀ b, b ∈ Y → w' b.1 = w b.1 ∧ w' (b.1 + 4) = w (b.1 + 4)) as HY'.
  { intros b Hb. specialize (HpY b Hb). specialize (HqY b Hb). unfold w'. destruct (s =? n); rewrite !words_upd_other by lia; done. }
  apply seg_app. split; [eapply seg_ext; [exact HA'|done]|]. pose proof (seg_ext _ _ _ _ HY' HY) as HY2.
  unfold w' in *. clear w' HA' HY'. destruct (Z.eqb_spec s n); cbn [seg app hd_addr fst snd].
  - rewrite words_upd_same, words_upd_other by lia. split_and!; [done..|exact HY2].
  - rewrite (words_upd_other _ _ _ q.1), (words_upd_other _ _ _ q.1), (words_upd_other _ _ _ (q.1 + 4)), (words_upd_other _ _ _ (q.1 + 4)),
      (words_upd_other _ _ _ p), (words_upd_other _ _ _ p), (words_upd_other _ _ _ (p + 4)), words_upd_same by lia. split_and!; [done..|exact HY2].
Qed.

Lemma carve_ok lo T1 s T2 h n A q :
  heap_ok lo (T1 ++ (true, s) :: T2) h → 1 ≤ n ≤ s → nodes lo T1 = A ++ [q] →
  let p := lo + 8 * total T1 in
  ∃ h', carve n q.1 p s h = Ok (p + 8 * (s - n) + 8) h' ∧ heap_ok lo (cut T1 s n T2) h' ∧
    keeps (blocks false lo (T1 ++ (true, s) :: T2)) h h' ∧ psize h' = psize h.
Proof.
  intros Hok Hn EA p. set (T := T1 ++ (true, s) :: T2) in *. set (Y := blocks true (p + 8 * s) T2).
  assert (nodes lo T = A ++ q :: (p, s) :: Y) as En.
  { unfold UmallocFree.nodes in *. unfold T. rewrite blocks_app, app_comm_cons, EA, <- app_assoc. done. }
  destruct (node_range _ _ _ _ q Hok) as (Hqa & Hq0 & Hq2 & Hqe); [rewrite En, elem_of_app; right; left|].
  destruct (node_range _ _ _ _ (p, s) Hok) as (Hpa & Hp0 & _ & Hpe); [rewrite En, elem_of_app; right; right; left|]. cbn [fst snd] in *.
  pose proof (ok_chain _ _ _ _ Hok) as Hseg. pose proof (nodes_sorted base lo T ltac:(apply Hok) ltac:(apply Hok)) as HS. rewrite En in Hseg, HS.
  assert (q.1 + 8 ≤ p) as Hqp.
  { apply StronglySorted_app_1_r, StronglySorted_cons in HS as [[H _]%Forall_cons _]. unfold before in H. cbn [fst] in H. lia. }
  destruct (carve_run h n q.1 p s) as (h' & E & Ep & Ef & Ew); [done..|apply Hok|done|apply seg_app in Hseg; apply Hseg|].
  pose proof (carve_seg _ _ _ _ _ _ _ Hseg HS Hn) as Hseg'. cbv zeta in Hseg'. rewrite <- Ew in Hseg'.
  destruct (cut_ok lo T1 s T2 n) as (HU1 & HU2 & HU3 & HU4 & HU5); [apply Hok..|done|]. fold p Y in HU4, HU5.
  assert (∀ b x, b ∈ blocks false lo T → b.1 ≤ x < b.1 + 8 * b.2 → word h' x = word h x) as Hkeep.
  { intros b x Hb Hx. destruct (used_node _ _ _ _ _ q Hok Hb) as [Hbq|Hbq]; [rewrite En, elem_of_app; right; left|..];
      (destruct (used_node _ _ _ _ _ (p, s) Hok Hb) as [Hbp|Hbp]; [rewrite En, elem_of_app; right; right; left|..]); unfold before in *; cbn [fst snd] in *;
      rewrite Ew; destruct (Z.eqb_spec s n); rewrite !words_upd_other by lia; done. }
  exists h'. split; [done|]. split; [|done].
  assert (nodes lo (cut T1 s n T2) = A ++ q :: (if s =? n then [] else [(p, s - n)]) ++ Y) as EU.
  { unfold UmallocFree.nodes in *. rewrite HU5, app_comm_cons, EA, <- app_assoc. done. }
  destruct Hok. split; [done|done|by rewrite HU3, Ep|by rewrite Ep|done|done|by rewrite EU| |].
  - intros b. rewrite HU4. intros Hb. assert (b ∈ blocks false lo T ∨ b = (p + 8 * (s - n), n)) as [HbT| ->].
    { unfold T. rewrite blocks_app. cbn [blocks eqb app]. fold p. rewrite elem_of_app, elem_of_cons in *. tauto. }
    + rewrite <- (ok_used0 b HbT). apply (Hkeep b); [done|]. apply blocks_range in HbT as (_ & _ & ? & _); [lia|done].
    + cbn [fst snd]. rewrite Ew. destruct (Z.eqb_spec s n) as [->|]; [|by rewrite words_upd_same].
      apply seg_app in Hseg as (_ & _ & _ & _ & Hs & _). cbn [fst snd] in Hs. rewrite Z.sub_diag, Z.add_0_r.
      rewrite words_upd_other by lia. done.
  - rewrite Ef, EU, fmap_app, elem_of_app. right. left.
Qed.

(** ** The search *)
Context (room : Z → Z → bool).
Abbreviation step := (malloc_step room).

Lemma malloc_skip n V t k h prev :
  seg (word h) V t → (∀ b, b ∈ V → addr_ok h b.1 ∧ b.1 ≠ freep h ∧ b.2 < n) →
  loop (length V + k) (step n) (prev.1, hd_addr V t) h = loop k (step n) ((default prev (last V)).1, t) h.
Proof.
  revert prev. induction V as [|b V IH]; intros prev Hseg HV; [done|]. destruct Hseg as (Hb1 & Hb2 & Hseg).
  destruct (HV b ltac:(left)) as (Ha & Hf & Hn). cbn [length hd_addr]. change (S (length V) + k)%nat with (S (length V + k)).
  rewrite (loop_next _ _ _ _ (b.1, word h b.1) h).
  2:{ unfold malloc_step. rewrite (bind_ok _ _ _ _ _ (s_size_ok _ _ Ha)), Hb2, (proj2 (Z.leb_gt n b.2)) by lia.
      erewrite bind_ok by done. rewrite (proj2 (Z.eqb_neq _ _) Hf), (bind_ok _ _ _ _ _ (s_ptr_ok _ _ Ha)). done. }
  rewrite Hb1, (IH b Hseg) by (intros; apply HV; by right). rewrite last_cons. by destruct (last V).
Qed.

Lemma seg_last w b L t : seg w (b :: L) t → w (default b (last L)).1 = t.
Proof. revert b. induction L as [|c L IH]; intros b (H & _ & HL); [done|]. rewrite last_cons, <- (IH c HL). by destruct (last L). Qed.

Lemma search_found lo T h n f V x m :
  heap_ok lo T h → 1 ≤ n ≤ x.2 → x ∈ nodes lo T → f.1 = freep h →
  seg (word h) (f :: V) x.1 → (∀ b, b ∈ f :: V → b ∈ nodes lo T) → (∀ b, b ∈ V → b.1 ≠ freep h ∧ b.2 < n) →
  (length V < m)%nat →
  ∃ T1 s T2 h', T = T1 ++ (true, s) :: T2 ∧ n ≤ s ∧
    loop m (step n) (freep h, word h (freep h)) h = Ok (lo + 8 * total T1 + 8 * (s - n) + 8) h' ∧
    heap_ok lo (cut T1 s n T2) h' ∧ keeps (blocks false lo T) h h' ∧ psize h' = psize h.
Proof.
  intros Hok Hn Hx Hf Hseg HVn HV Hm. destruct x as [p s]. cbn [fst snd] in *.
  assert (∃ F1 F2, blocks true lo T = F1 ++ (p, s) :: F2) as (F1 & F2 & EF).
  { unfold UmallocFree.nodes in Hx. apply elem_of_cons in Hx as [[= -> ->]|Hx]; [lia|]. by apply list_elem_of_split. }
  apply blocks_split in EF as (T1 & T2 & -> & -> & _ & _). destruct (nodes_free lo T1 s T2) as (A & q & En & EA).
  destruct (carve_ok lo T1 s T2 h n A q Hok ltac:(lia) EA) as (h' & E & Hok' & Hk & Hp).
  exists T1, s, T2, h'. split_and!; [done|lia| |done..].
  set (p := lo + 8 * total T1) in *. pose proof (ok_chain _ _ _ _ Hok) as Hch. pose proof (nodes_sorted base lo _ ltac:(apply Hok) ltac:(apply Hok)) as HS.
  assert (default f (last V) = q) as Eq.
  { apply (seg_inj (word h) (base, 0) (blocks true lo (T1 ++ (true, s) :: T2))); [exact Hch|exact HS| |fold (nodes lo (T1 ++ (true, s) :: T2)); rewrite En, elem_of_app; right; left|].
    - apply HVn. destruct (last V) eqn:El; [right; by apply last_Some_elem_of|left].
    - rewrite (seg_last _ _ _ _ Hseg). rewrite En in Hch. apply seg_app in Hch as (_ & -> & _). done. }
  pose proof Hseg as (Hf1 & _ & HsV). replace m with (length V + S (m - length V - 1))%nat by lia.
  rewrite <- Hf, Hf1, (malloc_skip n V p _ h f HsV).
  2:{ intros b Hb. split; [|by apply HV]. eapply node_range; [done|]. apply HVn. by right. }
  rewrite Eq. apply loop_exit. destruct (node_range _ _ _ _ _ Hok Hx) as (Hpa & _).
  unfold malloc_step. rewrite (bind_ok _ _ _ _ _ (s_size_ok _ _ Hpa)).
  rewrite En in Hch. apply seg_app in Hch as (_ & _ & _ & _ & -> & _). cbn [fst snd].
  rewrite (proj2 (Z.leb_le n s)) by lia. by rewrite (bind_ok _ _ _ _ _ E).
Qed.

(** From the roving pointer, one round finds a block that is large enough, or
    comes back to the roving pointer. *)
Lemma search_ok lo T h n :
  heap_ok lo T h → 1 ≤ n →
  (∀ m, (length (nodes lo T) ≤ m)%nat → ∃ T1 s T2 h', T = T1 ++ (true, s) :: T2 ∧ n ≤ s ∧
    loop m (step n) (freep h, word h (freep h)) h = Ok (lo + 8 * total T1 + 8 * (s - n) + 8) h' ∧
    heap_ok lo (cut T1 s n T2) h' ∧ keeps (blocks false lo T) h h' ∧ psize h' = psize h) ∨
  (Forall (λ b, b.2 < n) (nodes lo T) ∧ ∃ prev, ∀ k,
    loop (length (nodes lo T) + k) (step n) (freep h, word h (freep h)) h = loop (S k) (step n) (prev, freep h) h).
Proof.
  intros Hok Hn. pose proof (ok_freep _ _ _ _ Hok) as Hf. apply list_elem_of_fmap in Hf as (f & Ef & Hf).
  apply list_elem_of_split in Hf as (A & B & En). pose proof (ok_chain _ _ _ _ Hok) as Hch.
  pose proof (nodes_sorted base lo T ltac:(apply Hok) ltac:(apply Hok)) as HS. rewrite En in Hch, HS.
  apply StronglySorted_app in HS as (HAf & _ & HS). apply StronglySorted_cons in HS as [HfB _]. rewrite Forall_forall in HfB.
  apply seg_app in Hch as (HA & Hf1 & Hf2 & HB). cbn [hd_addr] in HA.
  assert (hd_addr A f.1 = base) as Eb. { unfold UmallocFree.nodes in En. destruct A; by injection En as <- _. }
  assert (seg (word h) (f :: B ++ A) f.1) as HV.
  { cbn [seg]. rewrite hd_addr_app, Eb. split_and!; [done..|]. apply seg_app. by rewrite Eb. }
  assert (∀ b, b ∈ B ++ A → b.1 ≠ freep h) as Hne.
  { intros b. rewrite elem_of_app, Ef. intros [Hb|Hb]; [specialize (HfB b Hb)|specialize (HAf b f Hb ltac:(left))]; unfold before in *; lia. }
  assert (∀ b, b ∈ f :: B ++ A → b ∈ nodes lo T) as Hsub.
  { intros b. rewrite En, elem_of_cons, !elem_of_app, elem_of_cons. tauto. }
  assert (length (nodes lo T) = S (length (B ++ A))) as El by (rewrite En, !length_app; cbn; lia).
  destruct (first_big n (B ++ A)) as [Hsm|(V1 & x & V2 & EV & Hsm & Hx)]; rewrite Forall_forall in Hsm.
  - destruct (decide (n ≤ f.2)).
    + left. intros m Hm. apply (search_found lo T h n f (B ++ A) f m); [done|lia|apply Hsub; left|done..| |lia]. auto.
    + right. split.
      * apply Forall_forall. intros b. rewrite En, elem_of_app, elem_of_cons. intros [?|[->|?]]; [apply Hsm, elem_of_app; by right|lia|apply Hsm, elem_of_app; by left].
      * eexists. intros k. rewrite El, Ef. destruct HV as (-> & _ & HV). cbn [plus].
        change (S (length (B ++ A) + k)) with (1 + length (B ++ A) + k)%nat. replace (1 + length (B ++ A) + k)%nat with (length (B ++ A) + S k)%nat by lia.
        apply malloc_skip; [done|]. intros b Hb. split; [|auto]. eapply node_range; [done|]. apply Hsub. by right.
  - left. intros m Hm. rewrite EV in *. apply (search_found lo T h n f V1 x m); [done|lia|apply Hsub; rewrite elem_of_cons, elem_of_app, elem_of_cons; tauto|done| | | |].
    + rewrite app_comm_cons in HV. by apply seg_app in HV as [HV _].
    + intros b Hb. apply Hsub. rewrite app_comm_cons, elem_of_app. by left.
    + intros b Hb. split; [apply Hne, elem_of_app; by left|auto].
    + rewrite El, length_app in Hm. lia.
Qed.

(** ** More memory *)
Definition more (n : Z) : Z := Z.max n 4096.
Definition can_grow (h : heap) (n : Z) : bool := (psize h + 8 * more n <? KERNBASE) && room (psize h) (8 * more n).

(** A used block at the end of the row. *)
Lemma grow_ok lo T h h' n :
  heap_ok lo T h → 1 ≤ n → psize h' = psize h + 8 * n → psize h' < KERNBASE → freep h' = freep h →
  (∀ x, x < psize h → word h' x = word h x) → word h' (psize h + 4) = n →
  heap_ok lo (T ++ [(false, n)]) h'.
Proof.
  intros Hok Hn Hp Hps Hf Hw Hs. pose proof (λ b, node_range _ _ _ _ b Hok) as Hnr. pose proof (λ b, used_range _ _ _ _ b Hok) as Hur.
  destruct Hok as [? ? He _ ? ? Hch ? ?].
  assert (nodes lo (T ++ [(false, n)]) = nodes lo T) as En by (unfold UmallocFree.nodes; rewrite blocks_app; cbn [blocks eqb app]; by rewrite app_nil_r).
  split; rewrite ?En; [done|done|rewrite total_app; cbn; lia|done| |by apply normal_add| | |by rewrite Hf].
  - unfold sized in *. rewrite Forall_app, Forall_singleton. done.
  - eapply seg_ext; [|done]. intros b Hb. destruct (Hnr b Hb) as ((_ & _ & ?) & _). split; apply Hw; lia.
  - intros b. rewrite blocks_app, elem_of_app. cbn [blocks eqb app]. rewrite list_elem_of_singleton. intros [Hb| ->].
    + destruct (Hur b Hb) as ((_ & _ & ?) & _). rewrite Hw by lia. auto.
    + cbn [fst snd]. by rewrite He.
Qed.

Lemma sbrk_ok h n :
  0 < n → 0 ≤ psize h + n < 2 ^ 32 →
  sbrk room n h =
  if (psize h + n <? KERNBASE) && room (psize h) n
  then Ok (psize h) (Heap (λ a, if (psize h <=? a) && (a <? psize h + n) then 0 else word h a) (psize h + n) (freep h))
  else Ok (-1) h.
Proof. intros Hn Hb. unfold sbrk. rewrite (proj2 (Z.ltb_lt 0 n)), u32_small by lia. by destruct (_ && _). Qed.

Lemma morecore_ok lo T h n :
  heap_ok lo T h → 1 ≤ n → 8 * n < 2 ^ 31 →
  if can_grow h n then
    ∃ h', morecore room n h = Ok (freep h') h' ∧ heap_ok lo (coalesce (T ++ [(true, more n)])) h' ∧
      keeps (blocks false lo T) h h' ∧ psize h' = psize h + 8 * more n
  else morecore room n h = Ok 0 h.
Proof.
  intros Hok Hn Hb. unfold morecore, can_grow. replace (if n <? 4096 then 4096 else n) with (more n) by (unfold more; destruct (Z.ltb_spec n 4096); lia).
  assert (1 ≤ more n ∧ 8 * more n < 2 ^ 31) as [? ?] by (unfold more; lia). generalize dependent (more n). clear n Hn Hb. intros n Hn Hb.
  pose proof (ok_psize _ _ _ _ Hok) as Hps. pose proof (ok_end _ _ _ _ Hok) as He. pose proof (ok_base _ _ _ _ Hok) as Hba. pose proof (ok_lo _ _ _ _ Hok).
  pose proof (sized_total _ (ok_sized _ _ _ _ Hok)). assert (KERNBASE = 2 ^ 31) as EK by done.
  rewrite (Z.mul_comm n), u32_small, i32_small by (unfold sizeof_Header; lia). unfold sizeof_Header.
  pose proof (sbrk_ok h (8 * n) ltac:(lia) ltac:(lia)) as Es. destruct (_ && _) eqn:E; [|by rewrite (bind_ok _ _ _ _ _ Es)].
  rewrite (bind_ok _ _ _ _ _ Es).
  apply andb_true_iff in E as [E%Z.ltb_lt _]. rewrite (proj2 (Z.eqb_neq (psize h) (-1))) by lia.
  set (h1 := Heap _ (_ + _) _). assert (addr_ok h1 (psize h)) as Ha.
  { unfold addr_ok, h1. cbn [psize]. split_and!; [rewrite <- He; by apply mod8_mod4|lia..]. }
  rewrite (bind_ok _ _ _ _ _ (set_size_ok _ _ n Ha)). set (h2 := Heap _ _ _).
  assert (heap_ok lo (T ++ [(false, n)]) h2) as Hok2.
  { apply (grow_ok lo T h); [done..| | |]; cbn; [done|..].
    - intros x Hx. rewrite words_upd_other by lia. by rewrite (proj2 (Z.leb_gt _ _)).
    - by rewrite words_upd_same. }
  destruct (free_ok base lo T n [] h2 Hok2) as (h3 & E3 & Hok3 & Hk & Hp). rewrite hplus_small by lia.
  replace (psize h + 8 * 1) with (lo + 8 * total T + 8) by lia. rewrite (bind_ok _ _ _ _ _ E3).
  exists h3. split; [done|]. split; [done|]. split; [|done].
  intros b x Hin Hx. rewrite (Hk b x); [|rewrite blocks_app, elem_of_app; by left|done].
  apply blocks_range in Hin as (? & ? & _); [|apply Hok]. cbn. rewrite words_upd_other by lia. by rewrite (proj2 (Z.leb_gt _ _)) by lia.
Qed.

(** * [malloc] *)

(** What [malloc] may do with a row: cut [n] units off a free block, after the row
    has grown when no free block is large enough. *)
Definition grown (T : list tile) (n : Z) : list tile := coalesce (T ++ [(true, more n)]).
Definition too_small (T : list tile) (n : Z) : Prop := ∀ s, (true, s) ∈ T → s < n.

Lemma nodes_small lo T n : Forall (λ b, b.2 < n) (nodes lo T) → too_small T n.
Proof. rewrite Forall_forall. intros H s [p Hp]%(in_blocks true lo). apply (H (p, s)). by right. Qed.

Lemma grown_big lo T n : sized T → 1 ≤ n → ¬ Forall (λ b, b.2 < n) (nodes lo (grown T n)).
Proof.
  intros HT Hn H%nodes_small. unfold grown in H. destruct (coalesce_big (T ++ [(true, more n)]) (more n)) as (s & Hs & Hin).
  - unfold sized in *. rewrite Forall_app, Forall_singleton. unfold more. cbn [snd]. split; [done|lia].
  - rewrite elem_of_app. right. left.
  - apply H in Hin. unfold more in *. lia.
Qed.

Lemma length_grown lo T n : (length (nodes lo (grown T n)) ≤ S (length (nodes lo T)))%nat.
Proof.
  unfold UmallocFree.nodes, grown. cbn [length]. pose proof (length_coalesce lo (T ++ [(true, more n)])) as H.
  rewrite blocks_app, length_app in H. cbn [blocks eqb app length] in H. lia.
Qed.

Lemma seg_size w L t b : seg w L t → b ∈ L → w (b.1 + 4) = b.2.
Proof. induction L as [|c L IH]; [by intros _ ?%elem_of_nil|]. intros (_ & ? & ?) [->|]%elem_of_cons; auto. Qed.

(** The turn at which the search is back at the roving pointer. *)
Lemma malloc_turn n prev h :
  addr_ok h (freep h) → word h (freep h + 4) < n →
  step n (prev, freep h) h =
  (let! p := morecore room n in
   if p =? 0 then ret (inr 0) else let! next := s_ptr p in ret (inl (p, next))) h.
Proof.
  intros Ha Hn. unfold malloc_step. rewrite (bind_ok _ _ _ _ _ (s_size_ok _ _ Ha)), (proj2 (Z.leb_gt _ _)) by lia.
  erewrite bind_ok by done. by rewrite Z.eqb_refl.
Qed.

Lemma malloc_loop_ok lo T h n m :
  heap_ok lo T h → 1 ≤ n → 8 * n < 2 ^ 31 → (2 * length (nodes lo T) + 1 ≤ m)%nat →
  ∃ r h', loop m (step n) (freep h, word h (freep h)) h = Ok r h' ∧ keeps (blocks false lo T) h h' ∧
    ((r = 0 ∧ h' = h ∧ too_small T n ∧ can_grow h n = false) ∨
     ∃ U T1 s T2, (U = T ∨ U = grown T n ∧ too_small T n) ∧ U = T1 ++ (true, s) :: T2 ∧ n ≤ s ∧
       r = lo + 8 * total T1 + 8 * (s - n) + 8 ∧ heap_ok lo (cut T1 s n T2) h').
Proof.
  intros Hok Hn Hb Hm. destruct (search_ok lo T h n Hok Hn) as [HS|(Hsm & prev & HS)].
  { destruct (HS m ltac:(lia)) as (T1 & s & T2 & h' & ? & ? & E & ? & ? & _). do 2 eexists. split; [exact E|]. split; [done|].
    right. exists T, T1, s, T2. auto. }
  pose proof (ok_freep _ _ _ _ Hok) as Hf. apply list_elem_of_fmap in Hf as (f & Ef & Hf).
  assert (∃ k, m = length (nodes lo T) + k ∧ S (length (nodes lo T)) ≤ k)%nat as (k & -> & Hk) by (exists (m - length (nodes lo T))%nat; lia).
  rewrite HS. destruct (node_range _ _ _ _ _ Hok Hf) as (Ha & _).
  assert (word h (f.1 + 4) < n) as Hlt. { rewrite (seg_size _ _ _ _ (ok_chain _ _ _ _ Hok) Hf). rewrite Forall_forall in Hsm. by apply Hsm. }
  rewrite <- Ef in Ha, Hlt. pose proof (malloc_turn n prev h Ha Hlt) as Et. pose proof (morecore_ok lo T h n Hok Hn Hb) as Hmc.
  apply nodes_small in Hsm as Hts. destruct (can_grow h n) eqn:Eg.
  - destruct Hmc as (h1 & E1 & Hok1 & Hk1 & _). fold (grown T n) in Hok1. rewrite (bind_ok _ _ _ _ _ E1) in Et.
    pose proof (ok_freep _ _ _ _ Hok1) as Hf1. apply list_elem_of_fmap in Hf1 as (f1 & Ef1 & Hf1). destruct (node_range _ _ _ _ _ Hok1 Hf1) as (Ha1 & ? & _).
    rewrite <- Ef1 in *. rewrite (proj2 (Z.eqb_neq (freep h1) 0)), (bind_ok _ _ _ _ _ (s_ptr_ok _ _ Ha1)) in Et by lia.
    rewrite (loop_next _ _ _ _ _ _ Et). destruct (search_ok lo (grown T n) h1 n Hok1 Hn) as [HS1|(Hsm1 & _)].
    2:{ exfalso. eapply grown_big; [apply (ok_sized _ _ _ _ Hok)|done|exact Hsm1]. }
    pose proof (length_grown lo T n). destruct (HS1 k ltac:(lia)) as (T1 & s & T2 & h' & ET & ? & E & ? & Hk' & _).
    do 2 eexists. split; [exact E|]. split.
    + intros b x Hin Hx. rewrite (Hk' b x); [by apply (Hk1 b)| |done]. unfold grown. rewrite coalesce_used, blocks_app, elem_of_app. by left.
    + right. exists (grown T n), T1, s, T2. auto 7.
  - rewrite (bind_ok _ _ _ _ _ Hmc) in Et. exists 0, h. split; [by apply loop_exit|]. split; [done|]. left. auto.
Qed.

(** ** The heap of a program *)

(** Before the first call of [malloc], and after it. *)
Definition heap_inv (lo : Z) (T : list tile) (h : heap) : Prop :=
  heap_ok lo T h ∨
  freep h = 0 ∧ T = [] ∧ lo = psize h ∧ lo mod 8 = 0 ∧ psize h < KERNBASE ∧ 0 < base ∧ base mod 4 = 0 ∧ base + 8 ≤ lo.

Lemma freep_pos lo T h : heap_ok lo T h → 0 < freep h.
Proof.
  intros Hok. pose proof (ok_freep _ _ _ _ Hok) as Hf. apply list_elem_of_fmap in Hf as (f & -> & Hf).
  by destruct (node_range _ _ _ _ _ Hok Hf) as (_ & ? & _).
Qed.

Lemma malloc_start_ok lo T h :
  heap_inv lo T h →
  ∃ h0, (let! prevp := gets freep in
         if prevp =? 0 then do! set_ptr base base in do! set_freep base in do! set_size base 0 in ret base
         else ret prevp) h = Ok (freep h0) h0 ∧ heap_ok lo T h0 ∧ psize h0 = psize h ∧
    ∀ x, base + 8 ≤ x → word h0 x = word h x.
Proof.
  intros [Hok|(Hf & -> & -> & ? & ? & ? & ? & ?)].
  { exists h. erewrite bind_ok by done. rewrite (proj2 (Z.eqb_neq _ _)) by (pose proof (freep_pos _ _ _ Hok); lia). done. }
  assert (addr_ok h base) as Ha by (unfold addr_ok; lia).
  erewrite bind_ok by done. rewrite Hf, Z.eqb_refl, (bind_ok _ _ _ _ _ (set_ptr_ok _ _ _ Ha)). unfold set_freep. erewrite bind_ok by done.
  rewrite (bind_ok _ _ _ _ _ (set_size_ok (Heap _ (psize h) base) base 0 Ha)). eexists (Heap _ (psize h) base). split; [done|]. cbn [word psize freep].
  split; [|split; [done|]].
  - split; cbn [word psize freep total foldr blocks seg hd_addr fst snd UmallocFree.nodes]; try done; [lia|constructor| |by intros ? ?%elem_of_nil|left].
    rewrite words_upd_other, !words_upd_same by lia. done.
  - intros x ?. rewrite !words_upd_other by lia. done.
Qed.

End Malloc.
End UmallocAlloc.
