(* ===== verification/UmallocSpec.v ===== *)
(** UmallocSpec: what [malloc] and [free] promise to a program: blocks in use are
    disjoint and keep their contents, memory is never lost, and when everything
    has been given back the heap is one free block again. *)
From S2P Require Import Prelude Umalloc UmallocInv UmallocFree UmallocAlloc.
Local Open Scope Z_scope.

Module UmallocSpec.
Import Umalloc UmallocInv UmallocFree UmallocAlloc.

Section Spec.
Context (base : Z) (room : Z → Z → bool).

(** The units for [nbytes] bytes and a header. *)
Definition units_for (nbytes : Z) : Z := (nbytes + 7) / 8 + 1.

Lemma units_for_range nbytes : 0 ≤ nbytes < 2 ^ 31 - 16 →
  1 ≤ units_for nbytes ∧ 8 * units_for nbytes < 2 ^ 31 ∧ nbytes ≤ 8 * (units_for nbytes - 1).
Proof.
  intros H. unfold units_for. pose proof (Z.div_mod (nbytes + 7) 8 ltac:(lia)).
  pose proof (Z.mod_pos_bound (nbytes + 7) 8 ltac:(lia)). pose proof (Z.div_pos nbytes 8 ltac:(lia)). lia.
Qed.

Lemma malloc_run lo T h nbytes :
  heap_inv base lo T h → 0 ≤ nbytes < 2 ^ 31 - 16 →
  let n := units_for nbytes in
  ∃ h0 m, heap_ok base lo T h0 ∧ psize h0 = psize h ∧ (∀ x, base + 8 ≤ x → word h0 x = word h x) ∧
    (2 * length (nodes base lo T) + 1 ≤ m)%nat ∧
    malloc base room nbytes h = loop m (malloc_step room n) (freep h0, word h0 (freep h0)) h0.
Proof.
  intros Hinv Hb n. destruct (malloc_start_ok base lo T h Hinv) as (h0 & E & Hok & Hp & Hw).
  exists h0, (2 * units h0)%nat. split_and!; [done..|pose proof (fuel_ok _ _ _ _ Hok); lia|].
  pose proof (units_for_range nbytes Hb). unfold malloc, sizeof_Header. replace (nbytes + 8 - 1) with (nbytes + 7) by lia.
  rewrite (u32_small (nbytes + 7)) by lia. fold (units_for nbytes). rewrite u32_small by lia. fold n.
  erewrite bind_ok in E by done. erewrite bind_ok by done. rewrite (bind_ok _ _ _ _ _ E).
  pose proof (ok_freep _ _ _ _ Hok) as Hf. apply list_elem_of_fmap in Hf as (f & Ef & Hf). destruct (node_range _ _ _ _ _ Hok Hf) as (Ha & _).
  rewrite <- Ef in Ha. rewrite (bind_ok _ _ _ _ _ (s_ptr_ok _ _ Ha)). by erewrite bind_ok by done.
Qed.

Lemma malloc_spec lo T h nbytes :
  heap_inv base lo T h → 0 ≤ nbytes < 2 ^ 31 - 16 →
  let n := units_for nbytes in
  ∃ r h' T', malloc base room nbytes h = Ok r h' ∧ heap_inv base lo T' h' ∧ keeps (blocks false lo T) h h' ∧
    ((r = 0 ∧ T' = T ∧ too_small T n ∧ can_grow room h n = false) ∨
     (blocks false lo T' ≡ₚ (r - 8, n) :: blocks false lo T ∧ nbytes ≤ 8 * (n - 1) ∧
      ∀ b, b ∈ blocks false lo T → b.1 + 8 * b.2 ≤ r - 8 ∨ r + nbytes ≤ b.1)).
Proof.
  intros Hinv Hb n. destruct (malloc_run lo T h nbytes Hinv Hb) as (h0 & m & Hok & Hp & Hw & Hm & E).
  destruct (units_for_range nbytes Hb) as (Hn1 & Hn2 & Hn3). fold n in Hn1, Hn2, Hn3.
  destruct (malloc_loop_ok base room lo T h0 n m Hok ltac:(done) ltac:(done) Hm) as (r & h' & E' & Hk & Hr).
  assert (keeps (blocks false lo T) h h') as Hk'.
  { intros b x Hin Hx. rewrite (Hk b x Hin Hx). apply Hw. apply blocks_range in Hin; [|apply Hok]. destruct (ok_base _ _ _ _ Hok) as (_ & _ & ?). lia. }
  exists r, h'. destruct Hr as [(-> & -> & Hts & Hg)|(U & T1 & s & T2 & HU & -> & Hs & -> & Hok')].
  - exists T. split; [by rewrite E|]. split; [by left|]. split; [done|]. left. unfold can_grow in *. by rewrite <- Hp.
  - exists (cut T1 s n T2). split; [by rewrite E|]. split; [by left|]. split; [done|]. right.
    assert (sized (T1 ++ (true, s) :: T2) ∧ normal (T1 ++ (true, s) :: T2)) as [HsU HnU].
    { destruct HU as [->|[-> _]]; [split; apply Hok|]. split; [apply coalesce_sized|apply coalesce_normal].
      pose proof (ok_sized _ _ _ _ Hok). unfold sized in *. rewrite Forall_app, Forall_singleton. unfold more. cbn. split; [done|lia]. }
    assert (blocks false lo (T1 ++ (true, s) :: T2) = blocks false lo T) as EU.
    { destruct HU as [->|[-> _]]; [done|]. unfold grown. rewrite coalesce_used, blocks_app. cbn [blocks eqb app]. by rewrite app_nil_r. }
    destruct (cut_ok lo T1 s T2 n HsU HnU ltac:(lia)) as (HC1 & _ & _ & HC & _).
    set (p := lo + 8 * total T1) in *. replace (p + 8 * (s - n) + 8 - 8) with (p + 8 * (s - n)) by lia.
    assert (blocks false lo (cut T1 s n T2) ≡ₚ (p + 8 * (s - n), n) :: blocks false lo T) as HP.
    { rewrite HC, <- EU, blocks_app. cbn [blocks eqb app]. by rewrite Permutation_middle. }
    split_and!; [done|lia|]. intros b Hin.
    rewrite <- EU, blocks_app, elem_of_app in Hin. cbn [blocks eqb app] in Hin. apply Forall_app in HsU as [Hs1 [_ Hs2]%Forall_cons].
    destruct Hin as [Hin|Hin]; apply blocks_range in Hin; try done; [left; unfold p; lia|right; fold p in Hin; lia].
Qed.

(** C34: [malloc], of a request below 2^31 - 16 bytes, answers with a block of at least
    [nbytes] bytes that no block in use
    overlaps, and leaves the contents of the blocks in use alone; it answers 0 only
    when no free block is large enough and the kernel has no more memory. *)
Theorem malloc_correct lo T h nbytes :
  heap_inv base lo T h → 0 ≤ nbytes < 2 ^ 31 - 16 →
  let n := units_for nbytes in
  ∃ r h' T', malloc base room nbytes h = Ok r h' ∧ heap_inv base lo T' h' ∧ keeps (blocks false lo T) h h' ∧
    ((r = 0 ∧ T' = T ∧ too_small T n ∧ can_grow room h n = false) ∨
     (blocks false lo T' ≡ₚ (r - 8, n) :: blocks false lo T ∧ nbytes ≤ 8 * (n - 1) ∧
      ∀ b, b ∈ blocks false lo T → b.1 + 8 * b.2 ≤ r - 8 ∨ r + nbytes ≤ b.1)).
Proof. apply malloc_spec. Qed.

(** [free] takes a block out of use and leaves the contents of the others alone; the
    memory of the heap stays the same. *)
Theorem free_correct lo T h ap s :
  heap_inv base lo T h → (ap - 8, s) ∈ blocks false lo T →
  ∃ h' T', free ap h = Ok tt h' ∧ heap_inv base lo T' h' ∧
    blocks false lo T ≡ₚ (ap - 8, s) :: blocks false lo T' ∧ keeps (blocks false lo T') h h' ∧ total T' = total T.
Proof.
  intros [Hok|(_ & -> & _)] Hin; [|by apply elem_of_nil in Hin].
  apply list_elem_of_split in Hin as (A & B & E). apply blocks_split in E as (T1 & T2 & -> & Ep & <- & <-).
  destruct (free_ok base lo T1 s T2 h Hok) as (h' & E & Hok' & Hk & _). rewrite <- Ep in E. replace (ap - 8 + 8) with ap in E by lia.
  exists h', (coalesce (T1 ++ (true, s) :: T2)). rewrite coalesce_used. split_and!; [done|by left| |done|].
  - rewrite !blocks_app. cbn [blocks eqb app]. rewrite <- Ep. by rewrite Permutation_middle.
  - by rewrite coalesce_total, !total_app.
Qed.

(** Writes of the program to its own blocks keep the heap in order. *)
Lemma client_write_ok lo T h b x v :
  heap_inv base lo T h → b ∈ blocks false lo T → b.1 + 8 ≤ x < b.1 + 8 * b.2 → x mod 4 = b.1 mod 4 →
  heap_inv base lo T (Heap (upd (word h) x v) (psize h) (freep h)).
Proof.
  intros [Hok|(_ & -> & _)] Hb Hx Hm; [|by apply elem_of_nil in Hb]. left.
  pose proof (λ n, used_node _ _ _ _ _ n Hok Hb) as Hn. pose proof (λ n, node_range _ _ _ _ n Hok) as Hnr.
  destruct Hok. split; cbn [word psize freep]; try done.
  - eapply seg_ext; [|done]. intros n Hin. specialize (Hn n Hin). unfold before in Hn. split; apply words_upd_other; lia.
  - intros c Hc. rewrite words_upd_other; [by apply ok_used0|].
    destruct (blocks_disjoint _ _ _ _ _ _ ok_sized0 Hb Hc) as [[_ <-]|[H|H]]; unfold before in *; lia.
Qed.

(** ** Sessions *)

(** A program that uses its heap: the blocks it holds (address of the header and
    units), and the heap.  It asks for less than 2^31 - 16 bytes at a time: beyond
    that [sbrk] gets a negative argument or the number of units wraps around. *)
Inductive heap_run : list (Z * Z) → heap → Prop :=
| run_start h : freep h = 0 → psize h mod 8 = 0 → psize h < KERNBASE → 0 < base → base mod 4 = 0 → base + 8 ≤ psize h → heap_run [] h
| run_malloc L h nbytes r h' :
    heap_run L h → 0 ≤ nbytes < 2 ^ 31 - 16 → malloc base room nbytes h = Ok r h' →
    heap_run (if r =? 0 then L else (r - 8, units_for nbytes) :: L) h'
| run_free L1 ap s L2 h h' :
    heap_run (L1 ++ (ap - 8, s) :: L2) h → free ap h = Ok tt h' → heap_run (L1 ++ L2) h'
| run_write L h b x v :
    heap_run L h → b ∈ L → b.1 + 8 ≤ x < b.1 + 8 * b.2 → x mod 4 = b.1 mod 4 →
    heap_run L (Heap (upd (word h) x v) (psize h) (freep h)).

Lemma heap_run_inv L h : heap_run L h → ∃ lo T, heap_inv base lo T h ∧ blocks false lo T ≡ₚ L.
Proof.
  induction 1 as [h|L h nbytes r h' _ (lo & T & Hinv & HL) Hb E|L1 ap s L2 h h' _ (lo & T & Hinv & HL) E|L h b x v _ (lo & T & Hinv & HL) Hin Hx Hm].
  - exists (psize h), []. split; [|done]. right. auto 8.
  - destruct (malloc_spec lo T h nbytes Hinv Hb) as (r' & h'' & T' & E' & Hinv' & _ & Hr). rewrite E in E'. injection E' as <- <-.
    exists lo, T'. split; [done|]. destruct Hr as [(-> & -> & _)|(HP & _)]; [done|].
    rewrite (proj2 (Z.eqb_neq r 0)); [by rewrite HP, HL|]. intros ->. destruct Hinv' as [Hok|(_ & -> & _)].
    + assert ((0 - 8, units_for nbytes) ∈ blocks false lo T') as Hin by (rewrite HP; left).
      apply (used_range _ _ _ _ _ Hok) in Hin as (_ & ? & _). destruct (ok_base _ _ _ _ Hok) as (? & _ & ?). cbn [fst] in *. lia.
    + by apply Permutation_nil_cons in HP.
  - assert ((ap - 8, s) ∈ blocks false lo T) as Hin by (rewrite HL, elem_of_app; right; left).
    destruct (free_correct lo T h ap s Hinv Hin) as (h'' & T' & E' & Hinv' & HP & _). rewrite E in E'. injection E' as <-.
    exists lo, T'. split; [done|]. rewrite HP, <- Permutation_middle in HL. by apply Permutation_cons_inv in HL.
  - exists lo, T. split; [|done]. eapply client_write_ok; [done|by rewrite HL|done..].
Qed.

Lemma blocks_nodup f a T : sized T → NoDup (blocks f a T).
Proof.
  intros HT. pose proof (blocks_sorted f a T HT) as HS. induction HS as [|b L HS IH HF]; constructor; [|done].
  intros Hb. rewrite Forall_forall in HF. specialize (HF b Hb). unfold before in HF. lia.
Qed.

(** A row without blocks in use is empty or one free block. *)
Lemma all_free a T : normal T → blocks false a T = [] → T = [] ∨ T = [(true, total T)].
Proof.
  destruct T as [|[[] s] [|[[] s'] T]]; cbn [normal blocks eqb app]; try done; [by left|].
  intros _ _. right. unfold total. simpl. by rewrite Z.add_0_r.
Qed.

(** C33: At every point of every session of requests below 2^31 - 16 bytes ([heap_run])
    the blocks the program holds are disjoint and
    inside its memory; the next such [malloc] and the next [free] of one of them return,
    and leave the contents of the other blocks alone; when the program holds no
    block, the heap is empty or one free block. *)
Theorem heap_session_safe L h :
  heap_run L h →
  (∀ i j b c, L !! i = Some b → L !! j = Some c → i ≠ j → b.1 + 8 * b.2 ≤ c.1 ∨ c.1 + 8 * c.2 ≤ b.1) ∧
  (∀ b, b ∈ L → base + 8 ≤ b.1 ∧ b.1 + 8 * b.2 ≤ psize h) ∧
  (∀ nbytes, 0 ≤ nbytes < 2 ^ 31 - 16 → ∃ r h', malloc base room nbytes h = Ok r h' ∧ keeps L h h') ∧
  (∀ L1 ap s L2, L = L1 ++ (ap - 8, s) :: L2 → ∃ h', free ap h = Ok tt h' ∧ keeps (L1 ++ L2) h h') ∧
  (L = [] → ∃ lo T, heap_inv base lo T h ∧ (T = [] ∨ T = [(true, (psize h - lo) / 8)])).
Proof.
  intros (lo & T & Hinv & HL)%heap_run_inv.
  assert (∀ B B' h', B ≡ₚ B' → keeps B h h' → keeps B' h h') as Hkeeps.
  { intros B B' h' HB H b x Hb. apply H. by rewrite HB. }
  split_and!.
  - intros i j b c Hi Hj Hne. destruct Hinv as [Hok|(_ & -> & _)]; [|by apply Permutation_nil_l in HL as <-].
    assert (b ∈ blocks false lo T) as Hb by (rewrite HL; by eapply list_elem_of_lookup_2).
    assert (c ∈ blocks false lo T) as Hc by (rewrite HL; by eapply list_elem_of_lookup_2).
    destruct (blocks_disjoint _ _ _ _ _ _ (ok_sized _ _ _ _ Hok) Hb Hc) as [[_ <-]|[H|H]]; [|unfold before in H; lia..].
    pose proof (blocks_nodup false lo T (ok_sized _ _ _ _ Hok)) as HN. rewrite HL in HN. by destruct (Hne (NoDup_lookup _ _ _ _ HN Hi Hj)).
  - intros b Hb. destruct Hinv as [Hok|(_ & -> & _)]; [|apply Permutation_nil_l in HL as <-; by apply elem_of_nil in Hb].
    rewrite <- HL in Hb. apply (used_range _ _ _ _ _ Hok) in Hb as (_ & ? & _ & ?). destruct (ok_base _ _ _ _ Hok). lia.
  - intros nbytes Hb. destruct (malloc_spec lo T h nbytes Hinv Hb) as (r & h' & _ & E & _ & Hk & _). eauto.
  - intros L1 ap s L2 ->. destruct (free_correct lo T h ap s Hinv) as (h' & T' & E & _ & HP & Hk & _); [rewrite HL, elem_of_app; right; left|].
    exists h'. split; [done|]. eapply Hkeeps; [|exact Hk]. rewrite HP, <- Permutation_middle in HL. by apply Permutation_cons_inv in HL.
  - intros ->. exists lo, T. split; [done|]. symmetry in HL. apply Permutation_nil_l in HL. destruct Hinv as [Hok|(_ & -> & _)]; [|by left].
    destruct (all_free lo T (ok_normal _ _ _ _ Hok) (eq_sym HL)) as [?|E]; [by left|]. right. rewrite E. do 2 f_equal.
    rewrite <- (ok_end _ _ _ _ Hok). replace (lo + 8 * total T - lo) with (total T * 8) by lia. by rewrite Z.div_mul.
Qed.

End Spec.

(** * A small process *)
Definition h0 : heap := Heap (λ _, 0) 8192 0.
Definition always (_ _ : Z) : bool := true.

(** Two blocks and a large one that needs more memory; all are given back, in the
    order that leaves most to join. *)
Example malloc_session :
  match (let! a := malloc 4096 always 100 in
         let! b := malloc 4096 always 16 in
         do! free a in
         let! c := malloc 4096 always 40000 in
         do! free b in
         do! free c in
         ret (a, b, c)) h0 with
  | Ok r h => Some (r, psize h, word h 8192, word h 8196)
  | Fault => None
  end = Some (40856, 40832, 40968, 80968, 4096, 9097).
Proof. vm_compute. reflexivity. Qed.

Lemma h0_inv : heap_inv 4096 8192 [] h0.
Proof. right. by vm_compute. Qed.

Lemma malloc_correct_witness : ∃ r h' T', malloc 4096 always 100 h0 = Ok r h' ∧ heap_inv 4096 8192 T' h'.
Proof.
  destruct (malloc_correct 4096 always 8192 [] h0 100 h0_inv ltac:(lia)) as (r & h' & T' & E & Hinv & _). by exists r, h', T'.
Defined.

Lemma run0 : ∃ h, heap_run 4096 always [(40848, 14)] h.
Proof.
  destruct (malloc_spec 4096 always 8192 [] h0 100 h0_inv ltac:(lia)) as (r & h' & _ & E & _).
  assert (r = 40856) as ->. { assert (match malloc 4096 always 100 h0 with Ok r _ => r | Fault => 0 end = 40856) as H by (vm_compute; reflexivity). by rewrite E in H. }
  exists h'. apply (run_malloc 4096 always [] h0 100 40856 h'); [by apply run_start|lia|done].
Qed.

Lemma heap_session_safe_witness : ∃ h h', heap_run 4096 always [(40848, 14)] h ∧ free 40856 h = Ok tt h'.
Proof.
  destruct run0 as [h Hrun]. destruct (heap_session_safe 4096 always _ h Hrun) as (_ & _ & _ & Hfree & _).
  destruct (Hfree [] 40856 14 []) as (h' & E & _); [done|]. by exists h, h'.
Defined.
End UmallocSpec.
