(* ===== verification/Sh.v ===== *)
(** Sh: the shell of xv6 (p4/xv6-public/sh.c; p5 has the same file): reading a
    line, and the recursive-descent parser with its nodes and with the strings
    that it leaves in the line. *)
From S2P Require Import Prelude Memory Grep.
From Stdlib Require Import Strings.Byte Strings.String.
From stdpp Require Import list.
Local Open Scope Z_scope.

Module Sh.
Import Grep.

Definition MAXARGS : nat := 10.
Definition O_RDONLY : Z := 0.
Definition O_WRONLY : Z := 1.
Definition O_CREATE : Z := 0x200.

(** ** The state *)

(** Pointers to commands are positions in [cmds], pointers to characters are
    positions in [text]. *)
Inductive node :=
| EXEC (argv eargv : list (option nat))
| REDIR (cmd file efile : nat) (mode fd : Z)
| PIPE (left right : nat)
| LIST (left right : nat)
| BACK (cmd : nat).

(** [text]: the memory of the line, [pos]: the pointer that all parsing functions
    advance ([*ps]), [cmds]: the commands allocated so far. *)
Record sh := ShState { text : list byte; pos : nat; cmds : list node }.

Definition char_at (s : nat) : ST sh byte := let! t := gets text in of_opt (t !! s).
Definition set_pos (s : nat) : ST sh unit := modify (λ h, ShState (text h) s (cmds h)).
Definition put_char (s : nat) (c : byte) : ST sh unit :=
  do! char_at s in modify (λ h, ShState (<[s := c]> (text h)) (pos h) (cmds h)).

(** A parsing function answers, or the shell panics with a message and exits. *)
Definition parser (A : Type) : Type := ST sh (A + string).
Definition panic {A} (s : string) : parser A := ret (inr s).
Definition pbind {A B} (m : parser A) (k : A → parser B) : parser B :=
  let! x := m in match x with inl a => k a | inr e => ret (inr e) end.
Definition total {A} (m : ST sh A) : parser A := let! a := m in ret (inl a).
Notation "'let?' x ':=' m 'in' k" := (pbind m (λ x, k))
  (at level 10, x pattern, m at level 100, k at level 200) : c_scope.

(** ** Constructors *)
Definition new_cmd (n : node) : ST sh nat :=
  let! ns := gets cmds in
  do! modify (λ h, ShState (text h) (pos h) (cmds h ++ [n])) in
  ret (List.length ns).
Definition execcmd : ST sh nat := new_cmd (EXEC (replicate MAXARGS None) (replicate MAXARGS None)).
Definition redircmd (subcmd file efile : nat) (mode fd : Z) : ST sh nat := new_cmd (REDIR subcmd file efile mode fd).
Definition pipecmd (left right : nat) : ST sh nat := new_cmd (PIPE left right).
Definition listcmd (left right : nat) : ST sh nat := new_cmd (LIST left right).
Definition backcmd (subcmd : nat) : ST sh nat := new_cmd (BACK subcmd).

Definition get_cmd (p : nat) : ST sh node := let! ns := gets cmds in of_opt (ns !! p).
(** [cmd->argv[i] = q; cmd->eargv[i] = eq;] *)
Definition set_arg (p i : nat) (q eq : option nat) : ST sh unit :=
  let! n := get_cmd p in
  match n with
  | EXEC argv eargv =>
      if (i <? List.length argv)%nat
      then modify (λ h, ShState (text h) (pos h) (<[p := EXEC (<[i := q]> argv) (<[i := eq]> eargv)]> (cmds h)))
      else fault
  | _ => fault
  end.

(** ** Tokens *)
Definition whitespace : list byte := [x20; x09; x0d; x0a; x0b].
Definition LT : byte := x3c.
Definition BAR : byte := x7c.
Definition GT : byte := x3e.
Definition AMP : byte := x26.
Definition SEMI : byte := x3b.
Definition LPAREN : byte := x28.
Definition RPAREN : byte := x29.
Definition PLUS : byte := x2b.
Definition WORD : byte := x61.
Definition symbols : list byte := [LT; BAR; GT; AMP; SEMI; LPAREN; RPAREN].

Definition in_set (s : list byte) (c : byte) : bool := match strchr s c with Some _ => true | None => false end.
Definition is_ws (c : byte) : bool := in_set whitespace c.
Definition is_word (c : byte) : bool := negb (is_ws c) && negb (in_set symbols c).

(** [while(s < es && p( *s)) s++;] *)
Definition skip (p : byte → bool) (es s : nat) : ST sh nat :=
  loop (S es) (λ s,
    if (s <? es)%nat then
      let! c := char_at s in
      if p c then ret (inl (S s)) else ret (inr s)
    else ret (inr s)) s.

(** [int gettoken(char **ps, char *es, char **q, char **eq)] *)
Definition gettoken (es : nat) : ST sh (byte * nat * nat) :=
  let! s := gets pos in
  let! q := skip is_ws es s in
  let! c := char_at q in
  let! (r, s) :=
    (if beq c NUL then ret (c, q)
     else if in_set [BAR; LPAREN; RPAREN; SEMI; AMP; LT] c then ret (c, S q)
     else if beq c GT then
       let! d := char_at (S q) in
       if beq d GT then ret (PLUS, S (S q)) else ret (c, S q)
     else
       let! s := skip is_word es q in
       ret (WORD, s)) in
  let eq := s in
  let! s := skip is_ws es s in
  do! set_pos s in
  ret (r, q, eq).

(** [int peek(char **ps, char *es, char *toks)] *)
Definition peek (es : nat) (toks : list byte) : ST sh bool :=
  let! s := gets pos in
  let! s := skip is_ws es s in
  do! set_pos s in
  let! c := char_at s in
  ret (negb (beq c NUL) && in_set toks c).

(** ** The parser *)

(** One turn of the loop of [parseredirs]. *)
Definition redirs_step (es : nat) (cmd : nat) : ST sh (nat + (nat + string)) :=
  let! b := peek es [LT; GT] in
  if b then
    let! (tok, _, _) := gettoken es in
    let! (r, q, eq) := gettoken es in
    if negb (beq r WORD) then ret (inr (inr "missing file for redirection"%string)) else
    if beq tok LT then let! cmd := redircmd cmd q eq O_RDONLY 0 in ret (inl cmd)
    else if beq tok GT || beq tok PLUS then
      let! cmd := redircmd cmd q eq (Z.lor O_WRONLY O_CREATE) 1 in ret (inl cmd)
    else ret (inl cmd)
  else ret (inr (inl cmd)).

(** [struct cmd* parseredirs(struct cmd *cmd, char **ps, char *es)] *)
Definition parseredirs (es : nat) (cmd : nat) : parser nat := loop (S es) (redirs_step es) cmd.

(** [struct cmd* parseblock(char **ps, char *es)] *)
Definition parseblock (parseline : parser nat) (es : nat) : parser nat :=
  let! b := peek es [LPAREN] in
  if negb b then panic "parseblock"%string else
  do! gettoken es in
  let? cmd := parseline in
  let! b := peek es [RPAREN] in
  if negb b then panic "syntax - missing )"%string else
  do! gettoken es in
  parseredirs es cmd.

(** The word from [q] to [eq] becomes argument [argc] of the command [cmd]. *)
Definition add_arg (es cmd q eq : nat) (l : nat * nat) : ST sh (nat * nat + (nat * nat + string)) :=
  let (ret_, argc) := l in
  do! set_arg cmd argc (Some q) (Some eq) in
  let argc := S argc in
  if (MAXARGS <=? argc)%nat then ret (inr (inr "too many args"%string)) else
  let! r := parseredirs es ret_ in
  match r with
  | inl ret_ => ret (inl (ret_, argc))
  | inr e => ret (inr (inr e))
  end.

(** One turn of the loop of [parseexec] over the arguments of the command [cmd]. *)
Definition args_step (es cmd : nat) (l : nat * nat) : ST sh (nat * nat + (nat * nat + string)) :=
  let! b := peek es [BAR; RPAREN; AMP; SEMI] in
  if b then ret (inr (inl l)) else
  let! (tok, q, eq) := gettoken es in
  if beq tok NUL then ret (inr (inl l))
  else if negb (beq tok WORD) then ret (inr (inr "syntax"%string))
  else add_arg es cmd q eq l.

(** [struct cmd* parseexec(char **ps, char *es)] *)
Definition parseexec (parseline : parser nat) (es : nat) : parser nat :=
  let! b := peek es [LPAREN] in
  if b then parseblock parseline es else
  let! cmd := execcmd in
  let? ret_ := parseredirs es cmd in
  let? (ret_, argc) := loop (S es) (args_step es cmd) (ret_, O) in
  do! set_arg cmd argc None None in
  ret (inl ret_).

(** [struct cmd* parsepipe(char **ps, char *es)] *)
Fixpoint parsepipe (fuel : nat) (parseexec : parser nat) (es : nat) : parser nat :=
  match fuel with
  | O => fault
  | S fuel =>
      let? cmd := parseexec in
      let! b := peek es [BAR] in
      if b then
        do! gettoken es in
        let? rest := parsepipe fuel parseexec es in
        total (pipecmd cmd rest)
      else ret (inl cmd)
  end.

(** One turn of the loop of [parseline]. *)
Definition back_step (es cmd : nat) : ST sh (nat + nat) :=
  let! b := peek es [AMP] in
  if b then do! gettoken es in let! cmd := backcmd cmd in ret (inl cmd)
  else ret (inr cmd).

(** [struct cmd* parseline(char **ps, char *es)] *)
Fixpoint parseline (fuel : nat) (es : nat) : parser nat :=
  match fuel with
  | O => fault
  | S fuel =>
      let? cmd := parsepipe (S fuel) (parseexec (parseline fuel es) es) es in
      let! cmd := loop (S es) (back_step es) cmd in
      let! b := peek es [SEMI] in
      if b then
        do! gettoken es in
        let? rest := parseline fuel es in
        total (listcmd cmd rest)
      else ret (inl cmd)
  end.

(** The loop of [nulterminate] over the arguments. *)
Definition nul_args (argv eargv : list (option nat)) : ST sh unit :=
  loop (S MAXARGS) (λ i,
    let! a := of_opt (argv !! i) in
    match a with
    | None => ret (inr tt)
    | Some _ =>
        let! e := of_opt (eargv !! i) in
        let! e := of_opt e in
        do! put_char e NUL in
        ret (inl (S i))
    end) O.

(** [struct cmd* nulterminate(struct cmd *cmd)] *)
Fixpoint nulterminate (fuel : nat) (cmd : nat) : ST sh unit :=
  match fuel with
  | O => fault
  | S fuel =>
      let! n := get_cmd cmd in
      match n with
      | EXEC argv eargv => nul_args argv eargv
      | REDIR c _ efile _ _ => do! nulterminate fuel c in put_char efile NUL
      | PIPE l r => do! nulterminate fuel l in nulterminate fuel r
      | LIST l r => do! nulterminate fuel l in nulterminate fuel r
      | BACK c => nulterminate fuel c
      end
  end.

(** [uint strlen(const char *s)] of ulib.c. *)
Fixpoint strlen (t : list byte) : nat :=
  match t with
  | [] => O
  | c :: t => if beq c NUL then O else S (strlen t)
  end.

(** [struct cmd* parsecmd(char *s)] for the line at the start of [text]. *)
Definition parsecmd : parser nat :=
  let! t := gets text in
  let es := strlen t in
  do! set_pos O in
  let? cmd := parseline (es + 2) es in
  do! peek es [] in
  let! s := gets pos in
  if negb (s =? es)%nat then panic "syntax"%string else
  let! ns := gets cmds in
  do! nulterminate (List.length ns) cmd in
  ret (inl cmd).

End Sh.
