(* ===== verification/ShGrammar.v ===== *)
(** ShGrammar: the language of the shell: commands, the grammar of token lists,
    and a parser of token lists that decides it. *)
From S2P Require Import Prelude Memory Grep Sh.
From Stdlib Require Import Strings.Byte.
From stdpp Require Import list.
Local Open Scope Z_scope.

Module ShGrammar.
Import Grep Sh.

(** * Commands and tokens, over a type [W] of words *)
Inductive cmd (W : Type) :=
| Exec (args : list W)
| Redir (c : cmd W) (file : W) (mode fd : Z)
| Pipe (l r : cmd W)
| List (l r : cmd W)
| Back (c : cmd W).
Arguments Exec {W}. Arguments Redir {W}. Arguments Pipe {W}. Arguments List {W}. Arguments Back {W}.

Inductive tok (W : Type) := Sym (c : byte) | Word (w : W).
Arguments Sym {W}. Arguments Word {W}.

(** A redirection: file, mode and descriptor. *)
Definition redir (W : Type) : Type := W * Z * Z.
Definition wrap {W} (rs : list (redir W)) (c : cmd W) : cmd W :=
  foldl (λ c r, Redir c r.1.1 r.1.2 r.2) c rs.

Lemma wrap_app {W} rs rs' (c : cmd W) : wrap (rs ++ rs') c = wrap rs' (wrap rs c).
Proof. apply foldl_app. Qed.

(** [<], [>], [>>] *)
Definition redir_mode (c : byte) : option (Z * Z) :=
  if beq c LT then Some (O_RDONLY, 0)
  else if beq c GT || beq c PLUS then Some (Z.lor O_WRONLY O_CREATE, 1)
  else None.

Section Grammar.
Context {W : Type}.
Implicit Types (t r ts : list (tok W)) (c : cmd W).

(** * The grammar
<<
  redirs ::= { ('<' | '>' | '>>') word }
  exec   ::= redirs { word redirs }          (at most 9 words)
           | '(' line ')' redirs
  pipe   ::= exec [ '|' pipe ]
  line   ::= pipe { '&' } [ ';' line ]
>> *)
Inductive g_redirs : list (tok W) → list (redir W) → Prop :=
| g_redirs_nil : g_redirs [] []
| g_redirs_cons o m fd w t rs :
    redir_mode o = Some (m, fd) → g_redirs t rs → g_redirs (Sym o :: Word w :: t) ((w, m, fd) :: rs).

Inductive g_args : list (tok W) → list W → list (redir W) → Prop :=
| g_args_nil : g_args [] [] []
| g_args_cons w t1 rs1 t2 ws rs2 :
    g_redirs t1 rs1 → g_args t2 ws rs2 → g_args (Word w :: t1 ++ t2) (w :: ws) (rs1 ++ rs2).

Inductive g_backs : list (tok W) → cmd W → cmd W → Prop :=
| g_backs_nil c : g_backs [] c c
| g_backs_cons t c c' : g_backs t (Back c) c' → g_backs (Sym AMP :: t) c c'.

Inductive g_exec : list (tok W) → cmd W → Prop :=
| g_exec_args t1 rs1 t2 ws rs2 :
    g_redirs t1 rs1 → g_args t2 ws rs2 → (List.length ws < MAXARGS)%nat →
    g_exec (t1 ++ t2) (wrap (rs1 ++ rs2) (Exec ws))
| g_exec_block t c t' rs :
    g_line t c → g_redirs t' rs → g_exec (Sym LPAREN :: t ++ Sym RPAREN :: t') (wrap rs c)
with g_pipe : list (tok W) → cmd W → Prop :=
| g_pipe_one t c : g_exec t c → g_pipe t c
| g_pipe_more t1 c1 t2 c2 : g_exec t1 c1 → g_pipe t2 c2 → g_pipe (t1 ++ Sym BAR :: t2) (Pipe c1 c2)
with g_line : list (tok W) → cmd W → Prop :=
| g_line_one t1 t2 c c' : g_pipe t1 c → g_backs t2 c c' → g_line (t1 ++ t2) c'
| g_line_more t1 t2 t3 c c1 c2 :
    g_pipe t1 c → g_backs t2 c c1 → g_line t3 c2 → g_line (t1 ++ t2 ++ Sym SEMI :: t3) (List c1 c2).

Scheme g_exec_mind := Minimality for g_exec Sort Prop
with g_pipe_mind := Minimality for g_pipe Sort Prop
with g_line_mind := Minimality for g_line Sort Prop.
Combined Scheme g_mutind from g_exec_mind, g_pipe_mind, g_line_mind.

(** * A parser of token lists *)

(** A result with the tokens left, an error, or not enough fuel. *)
Inductive presult (A : Type) := POk (a : A) (r : list (tok W)) | PErr | PFuel.
Arguments POk {A}. Arguments PErr {A}. Arguments PFuel {A}.
Definition andthen {A B} (x : presult A) (k : A → list (tok W) → presult B) : presult B :=
  match x with POk a r => k a r | PErr => PErr | PFuel => PFuel end.

Fixpoint a_redirs (ts : list (tok W)) : presult (list (redir W)) :=
  match ts with
  | Sym o :: ts =>
      match redir_mode o with
      | Some (m, fd) =>
          match ts with
          | Word w :: ts => andthen (a_redirs ts) (λ rs r, POk ((w, m, fd) :: rs) r)
          | _ => PErr
          end
      | None => POk [] (Sym o :: ts)
      end
  | _ => POk [] ts
  end.

(** The symbols that end the arguments of a command. *)
Definition stop : list byte := [BAR; RPAREN; AMP; SEMI].

Fixpoint a_args (fuel argc : nat) (ts : list (tok W)) : presult (list W * list (redir W)) :=
  match fuel with
  | O => PFuel
  | S fuel =>
      match ts with
      | [] => POk ([], []) []
      | Sym o :: _ => if in_set stop o then POk ([], []) ts else PErr
      | Word w :: ts =>
          if (MAXARGS <=? S argc)%nat then PErr else
          andthen (a_redirs ts) (λ rs1 ts,
          andthen (a_args fuel (S argc) ts) (λ '(ws, rs2) r,
          POk (w :: ws, rs1 ++ rs2) r))
      end
  end.

(** Is the next token the symbol [o]? *)
Definition head_is (o : byte) (ts : list (tok W)) : bool :=
  match ts with Sym o' :: _ => beq o o' | _ => false end.

Definition a_exec (line : list (tok W) → presult (cmd W)) (n : nat) (ts : list (tok W)) : presult (cmd W) :=
  if head_is LPAREN ts then
    andthen (line (tail ts)) (λ c ts,
      if head_is RPAREN ts then andthen (a_redirs (tail ts)) (λ rs r, POk (wrap rs c) r) else PErr)
  else
    andthen (a_redirs ts) (λ rs1 ts,
    andthen (a_args n 0 ts) (λ '(ws, rs2) r, POk (wrap (rs1 ++ rs2) (Exec ws)) r)).

Fixpoint a_pipe (fuel : nat) (exec : list (tok W) → presult (cmd W)) (ts : list (tok W)) : presult (cmd W) :=
  match fuel with
  | O => PFuel
  | S fuel =>
      andthen (exec ts) (λ c ts,
        if head_is BAR ts then andthen (a_pipe fuel exec (tail ts)) (λ c2 r, POk (Pipe c c2) r) else POk c ts)
  end.

Fixpoint a_backs (c : cmd W) (ts : list (tok W)) : cmd W * list (tok W) :=
  match ts with
  | Sym o :: ts' => if beq AMP o then a_backs (Back c) ts' else (c, ts)
  | _ => (c, ts)
  end.

(** [m]: turns for the loop over the arguments. *)
Fixpoint a_line (m fuel : nat) (ts : list (tok W)) : presult (cmd W) :=
  match fuel with
  | O => PFuel
  | S fuel =>
      andthen (a_pipe (S fuel) (a_exec (a_line m fuel) m) ts) (λ c ts,
        let (c, ts) := a_backs c ts in
        if head_is SEMI ts then andthen (a_line m fuel (tail ts)) (λ c2 r, POk (List c c2) r) else POk c ts)
  end.

(** * Soundness *)
Lemma andthen_ok {A B} (x : presult A) (k : A → list (tok W) → presult B) b r :
  andthen x k = POk b r → ∃ a r', x = POk a r' ∧ k a r' = POk b r.
Proof. destruct x; [eauto|done..]. Qed.

Lemma beq_eq a b : beq a b = true ↔ a = b.
Proof. unfold beq. apply bool_decide_eq_true. Qed.

Lemma head_is_true o ts : head_is o ts = true → ts = Sym o :: tail ts.
Proof. destruct ts as [|[o'|w] ts]; [done| |done]. cbn. by intros ->%beq_eq. Qed.

Lemma a_redirs_sound ts rs r : a_redirs ts = POk rs r → ∃ t, ts = t ++ r ∧ g_redirs t rs.
Proof.
  revert rs. induction ts as [ts IH] using (induction_ltof1 _ (@List.length _)); unfold ltof in IH. intros rs.
  destruct ts as [|[o|w] ts]; cbn [a_redirs]; [|destruct (redir_mode o) as [[m fd]|] eqn:Em|].
  2:{ destruct ts as [|[o'|w] ts]; [done..|]. intros (rs' & r' & E & [= <- <-])%andthen_ok.
      destruct (IH ts ltac:(cbn; lia) _ E) as (t & -> & ?). exists (Sym o :: Word w :: t). split; [done|by constructor]. }
  all: intros [= <- <-]; exists []; split; [done|constructor].
Qed.

Lemma a_args_sound n argc ts ws rs r :
  a_args n argc ts = POk (ws, rs) r → ∃ t, ts = t ++ r ∧ g_args t ws rs ∧ (argc < MAXARGS → argc + List.length ws < MAXARGS)%nat.
Proof.
  revert argc ts ws rs. induction n as [|n IH]; intros argc ts ws rs; [done|]. cbn [a_args]. destruct ts as [|[o|w] ts].
  - intros [= <- <- <-]. exists []. split_and!; [done|constructor|cbn; lia].
  - destruct (in_set stop o); [|done]. intros [= <- <- <-]. exists []. split_and!; [done|constructor|cbn; lia].
  - destruct (Nat.leb_spec MAXARGS (S argc)); [done|]. intros (rs1 & r1 & E1 & ((ws2 & rs2) & r2 & E2 & [= <- <- <-])%andthen_ok)%andthen_ok.
    apply a_redirs_sound in E1 as (t1 & -> & ?). apply IH in E2 as (t2 & -> & ? & ?).
    exists (Word w :: t1 ++ t2). split_and!; [cbn; by rewrite <- app_assoc|by constructor|cbn; lia].
Qed.

Lemma a_backs_sound c ts c' r : a_backs c ts = (c', r) → ∃ t, ts = t ++ r ∧ g_backs t c c'.
Proof.
  revert c. induction ts as [|[o|w] ts IH]; intros c; cbn [a_backs]; [|destruct (beq AMP o) eqn:E|].
  2:{ apply beq_eq in E as <-. intros (t & -> & ?)%IH. exists (Sym AMP :: t). split; [done|by constructor]. }
  all: intros [= <- <-]; exists []; split; [done|constructor].
Qed.

Lemma a_exec_sound line n ts c r :
  (∀ ts c r, line ts = POk c r → ∃ t, ts = t ++ r ∧ g_line t c) →
  a_exec line n ts = POk c r → ∃ t, ts = t ++ r ∧ g_exec t c.
Proof.
  intros Hl. unfold a_exec. destruct (head_is LPAREN ts) eqn:E.
  - apply head_is_true in E as ->. cbn [tail]. intros (c1 & r1 & (t1 & -> & H1)%Hl & E)%andthen_ok.
    destruct (head_is RPAREN r1) eqn:E1; [|done]. apply head_is_true in E1 as ->. cbn [tail] in E.
    apply andthen_ok in E as (rs & r2 & (t2 & -> & H2)%a_redirs_sound & [= <- <-]).
    exists (Sym LPAREN :: t1 ++ Sym RPAREN :: t2). split; [cbn; by rewrite <- app_assoc|by constructor].
  - intros (rs1 & r1 & (t1 & -> & H1)%a_redirs_sound & ((ws & rs2) & r2 & (t2 & -> & H2 & H3)%a_args_sound & [= <- <-])%andthen_ok)%andthen_ok.
    exists (t1 ++ t2). split; [by rewrite <- app_assoc|]. constructor; [done..|]. unfold MAXARGS in *. lia.
Qed.

Lemma a_pipe_sound n exec ts c r :
  (∀ ts c r, exec ts = POk c r → ∃ t, ts = t ++ r ∧ g_exec t c) →
  a_pipe n exec ts = POk c r → ∃ t, ts = t ++ r ∧ g_pipe t c.
Proof.
  intros He. revert ts c r. induction n as [|n IH]; intros ts c r; [done|]. cbn [a_pipe].
  intros (c1 & r1 & (t1 & -> & H1)%He & E)%andthen_ok. destruct (head_is BAR r1) eqn:E1.
  - apply head_is_true in E1 as ->. cbn [tail] in E. apply andthen_ok in E as (c2 & r2 & (t2 & -> & H2)%IH & [= <- <-]).
    exists (t1 ++ Sym BAR :: t2). split; [cbn; by rewrite <- app_assoc|by constructor].
  - injection E as <- <-. exists t1. split; [done|by constructor].
Qed.

Lemma a_line_sound m n ts c r : a_line m n ts = POk c r → ∃ t, ts = t ++ r ∧ g_line t c.
Proof.
  revert ts c r. induction n as [|n IH]; intros ts c r; [done|]. cbn [a_line].
  intros (c1 & r1 & E1 & E)%andthen_ok. apply a_pipe_sound in E1 as (t1 & -> & H1); [|intros ???; by apply a_exec_sound].
  destruct (a_backs c1 r1) as [c2 r2] eqn:E2. apply a_backs_sound in E2 as (t2 & -> & H2).
  destruct (head_is SEMI r2) eqn:E3.
  - apply head_is_true in E3 as ->. cbn [tail] in E. apply andthen_ok in E as (c3 & r3 & (t3 & -> & H3)%IH & [= <- <-]).
    exists (t1 ++ t2 ++ Sym SEMI :: t3). split; [by rewrite <- !app_assoc|by econstructor].
  - injection E as <- <-. exists (t1 ++ t2). split; [by rewrite <- app_assoc|by econstructor].
Qed.

(** * Completeness *)

(** What can follow the arguments of a command, a pipeline, a line. *)
Definition after_args (r : list (tok W)) : Prop := match r with [] => True | Sym o :: _ => o ∈ stop | _ => False end.
Definition after_pipe (r : list (tok W)) : Prop := match r with [] => True | Sym o :: _ => o ∈ [RPAREN; AMP; SEMI] | _ => False end.
Definition after_line (r : list (tok W)) : Prop := match r with [] => True | Sym o :: _ => o = RPAREN | _ => False end.
Definition no_redir (r : list (tok W)) : Prop := match r with Sym o :: _ => redir_mode o = None | _ => True end.

Lemma after_line_pipe r : after_line r → after_pipe r.
Proof. destruct r as [|[o|w] r]; cbn; [done| |done]. intros ->. left. Qed.
Lemma after_pipe_args r : after_pipe r → after_args r.
Proof. destruct r as [|[o|w] r]; cbn; [done| |done]. intros. by right. Qed.
Lemma after_args_redir r : after_args r → no_redir r.
Proof. destruct r as [|[o|w] r]; cbn; [done| |done]. unfold stop. rewrite !elem_of_cons, elem_of_nil. naive_solver. Qed.
Lemma stop_in_set o : o ∈ stop → in_set stop o = true.
Proof. unfold stop. rewrite !elem_of_cons, elem_of_nil. naive_solver. Qed.

Lemma a_redirs_complete t rs r : g_redirs t rs → no_redir r → a_redirs (t ++ r) = POk rs r.
Proof.
  intros H Hr. induction H as [|o m fd w t rs Ho H IH]; cbn [app a_redirs].
  - destruct r as [|[o|w] r]; cbn in *; [done| |done]. by rewrite Hr.
  - by rewrite Ho, IH.
Qed.

Lemma g_args_redir t ws rs r : g_args t ws rs → after_args r → no_redir (t ++ r).
Proof. intros []; [apply after_args_redir|done]. Qed.

Lemma a_args_complete t ws rs r n argc :
  g_args t ws rs → after_args r → (argc + List.length ws < MAXARGS)%nat → (List.length (t ++ r) < n)%nat →
  a_args n argc (t ++ r) = POk (ws, rs) r.
Proof.
  intros H. revert n argc. induction H as [|w t1 rs1 t2 ws rs2 H1 H2 IH]; intros n argc Hr Hargc Hn; (destruct n as [|n]; [lia|]).
  - cbn [app a_args]. destruct r as [|[o|w] r]; cbn in *; [done| |done]. by rewrite stop_in_set.
  - cbn [app a_args List.length] in *. rewrite <- app_assoc in *. rewrite length_app in Hn. destruct (Nat.leb_spec MAXARGS (S argc)); [lia|].
    rewrite (a_redirs_complete _ _ _ H1) by by eapply g_args_redir. cbn [andthen]. rewrite IH by (done || lia). done.
Qed.

Lemma a_backs_complete t c c' r : g_backs t c c' → head_is AMP r = false → a_backs c (t ++ r) = (c', r).
Proof.
  intros H Hr. induction H as [c|t c c' H IH]; cbn [app a_backs].
  - destruct r as [|[o|w] r]; cbn [a_backs head_is] in *; [done| |done]. by rewrite Hr.
  - by rewrite IH.
Qed.

Lemma head_is_app o t r : (t = [] → head_is o r = false) → (∀ t', t ≠ Sym o :: t') → head_is o (t ++ r) = false.
Proof.
  intros Hr Ht. destruct t as [|[o'|w] t]; cbn; [auto| |done]. destruct (beq o o') eqn:E; [|done].
  apply beq_eq in E as ->. by destruct (Ht t).
Qed.

Lemma after_not o r (P : list (tok W) → Prop) : P r → (∀ r', ¬ P (Sym o :: r')) → head_is o r = false.
Proof. destruct (head_is o r) eqn:E; [|done]. apply head_is_true in E as ->. naive_solver. Qed.

Lemma not_after_args o r' : o ∉ stop → ¬ after_args (Sym o :: r').
Proof. done. Qed.

(** A command that is no block does not start with a parenthesis. *)
Lemma exec_no_paren t1 rs1 t2 ws rs2 r :
  g_redirs t1 rs1 → g_args t2 ws rs2 → after_args r → head_is LPAREN ((t1 ++ t2) ++ r) = false.
Proof.
  intros H1 H2 Hr. apply head_is_app.
  - intros _. eapply (after_not _ _ after_args); [done|]. intros r'. cbn. unfold stop. rewrite !elem_of_cons, elem_of_nil. naive_solver.
  - intros t' E. destruct H1 as [|o m fd w t rs Ho H1]; cbn in E.
    + destruct H2; done.
    + by injection E as -> _.
Qed.

Lemma complete :
  (∀ t c, g_exec t c → ∀ r m n, after_args r → (List.length (t ++ r) ≤ n)%nat → (List.length (t ++ r) < m)%nat →
     a_exec (a_line m n) m (t ++ r) = POk c r) ∧
  (∀ t c, g_pipe t c → ∀ r m n k, after_pipe r → (List.length (t ++ r) ≤ n)%nat → (List.length (t ++ r) < m)%nat → (List.length (t ++ r) < k)%nat →
     a_pipe k (a_exec (a_line m n) m) (t ++ r) = POk c r) ∧
  (∀ t c, g_line t c → ∀ r m n, after_line r → (List.length (t ++ r) < n)%nat → (List.length (t ++ r) < m)%nat →
     a_line m n (t ++ r) = POk c r).
Proof.
  apply g_mutind.
  - intros t1 rs1 t2 ws rs2 H1 H2 Hw r m n Hr Hn Hm. unfold a_exec. rewrite (exec_no_paren _ _ _ _ _ _ H1 H2 Hr), <- app_assoc.
    rewrite (a_redirs_complete _ _ _ H1) by by eapply g_args_redir. cbn [andthen]. rewrite !length_app in Hm.
    rewrite (a_args_complete _ _ _ _ _ _ H2) by (try done; rewrite ?length_app; lia). done.
  - intros t c t' rs _ IH H2 r m n Hr Hn Hm. unfold a_exec. cbn [app head_is tail]. rewrite (proj2 (beq_eq _ _)) by done.
    cbn [app List.length] in *. rewrite <- app_assoc in *. rewrite IH by (done || lia). cbn [andthen app head_is tail]. rewrite (proj2 (beq_eq _ _)) by done.
    by rewrite (a_redirs_complete _ _ _ H2) by by apply after_args_redir.
  - intros t c _ IH r m n k Hr Hn Hm Hk. destruct k as [|k]; [lia|]. cbn [a_pipe]. rewrite IH by (try done; by apply after_pipe_args). cbn [andthen].
    rewrite (after_not BAR r after_pipe); [done..|]. intros r'. cbn. rewrite !elem_of_cons, elem_of_nil. naive_solver.
  - intros t1 c1 t2 c2 _ IH1 _ IH2 r m n k Hr Hn Hm Hk. destruct k as [|k]; [lia|]. rewrite <- app_assoc in *. cbn [a_pipe app] in *.
    rewrite length_app in Hn, Hm, Hk. cbn [List.length] in *.
    rewrite IH1; [|left|rewrite length_app; cbn; lia..]. cbn [andthen head_is tail]. rewrite (proj2 (beq_eq _ _)) by done.
    rewrite IH2 by (try done; lia). done.
  - intros t1 t2 c c' _ IH H2 r m n Hr Hn Hm. destruct n as [|n]; [lia|]. cbn [a_line]. rewrite <- app_assoc in *.
    rewrite IH; [|destruct H2; [by apply after_line_pipe|cbn; right; left]|lia..]. cbn [andthen].
    rewrite (a_backs_complete _ _ _ _ H2) by by apply (after_not AMP r after_line).
    by rewrite (after_not SEMI r after_line).
  - intros t1 t2 t3 c c1 c2 _ IH H2 _ IH3 r m n Hr Hn Hm. destruct n as [|n]; [lia|]. cbn [a_line]. rewrite <- !app_assoc in *. cbn [app] in *.
    rewrite IH; [|destruct H2; cbn; [right; right; left|right; left]|lia..]. cbn [andthen].
    rewrite (a_backs_complete _ _ _ _ H2) by done. cbn [head_is tail]. rewrite (proj2 (beq_eq _ _)) by done.
    rewrite !length_app in Hn, Hm. cbn [List.length] in *. rewrite IH3 by (try done; lia). done.
Qed.

(** With enough turns the parser answers: it finds a command for the whole list
    exactly when the grammar has one. *)
Lemma a_line_iff ts c m n :
  (List.length ts < m)%nat → (List.length ts < n)%nat → a_line m n ts = POk c [] ↔ g_line ts c.
Proof.
  intros Hm Hn. split.
  - intros (t & -> & ?)%a_line_sound. by rewrite app_nil_r.
  - intros H. rewrite <- (app_nil_r ts). destruct complete as (_ & _ & Hc). apply Hc; rewrite ?app_nil_r; done.
Qed.

End Grammar.
End ShGrammar.
