(* ===== verification/ShLex.v ===== *)
(** ShLex: [gettoken] and [peek] on a line, against a lexer that turns the line
    into words and symbols. *)
From S2P Require Import Prelude Memory Grep Sh ShGrammar.
From Stdlib Require Import Strings.Byte.
From stdpp Require Import list.
Local Open Scope Z_scope.

Module ShLex.
Import Grep Sh ShGrammar.

(** * The tokens of a line *)

(** Symbols of one character. *)
Definition single : list byte := [BAR; LPAREN; RPAREN; SEMI; AMP; LT].

(** [w]: the characters of the word that is being read. *)
Definition flush (w : list byte) : list (tok (list byte)) := match w with [] => [] | _ => [Word w] end.
Fixpoint lex (w : list byte) (l : list byte) : list (tok (list byte)) :=
  match l with
  | [] => flush w
  | c :: l =>
      if is_ws c then flush w ++ lex [] l
      else if in_set single c then flush w ++ Sym c :: lex [] l
      else if beq c GT then
        flush w ++ match l with
                   | d :: l' => if beq d GT then Sym PLUS :: lex [] l' else Sym GT :: lex [] l
                   | [] => [Sym GT]
                   end
      else lex (w ++ [c]) l
  end.

(** Every character is white space, a symbol, or part of a word. *)
Lemma char_kind c : c ≠ NUL → is_ws c = false → in_set single c = false → beq c GT = false → is_word c = true.
Proof. destruct c; try (vm_compute; done). Qed.
Lemma word_char c : is_word c = true → c ≠ NUL → is_ws c = false ∧ in_set single c = false ∧ beq c GT = false.
Proof. destruct c; vm_compute; done. Qed.
Lemma single_symbol c : in_set single c = true → is_ws c = false ∧ beq c NUL = false ∧ is_word c = false ∧ c ≠ PLUS ∧ c ≠ GT.
Proof. destruct c; vm_compute; done. Qed.

(** The length of the longest prefix with a property. *)
Fixpoint span_len (p : byte → bool) (l : list byte) : nat :=
  match l with c :: l => if p c then S (span_len p l) else O | [] => O end.

Lemma span_len_le p l : (span_len p l ≤ length l)%nat.
Proof. induction l as [|c l IH]; cbn; [lia|]. destruct (p c); lia. Qed.
Lemma span_len_take p l : Forall (λ c, p c = true) (take (span_len p l) l).
Proof. induction l as [|c l IH]; cbn; [constructor|]. destruct (p c) eqn:E; by constructor. Qed.
Lemma span_len_stop p l c : l !! span_len p l = Some c → p c = false.
Proof. induction l as [|d l IH]; cbn; [done|]. destruct (p d) eqn:E; [done|]. cbn. by intros [= <-]. Qed.
Lemma span_len_idem p l : span_len p (drop (span_len p l) l) = O.
Proof. induction l as [|c l IH]; cbn; [done|]. destruct (p c) eqn:E; [done|]. cbn. by rewrite E. Qed.

Section Line.
Context (line rest : list byte).
Hypothesis line_chars : Forall (λ c, c ≠ NUL) line.
Abbreviation es := (length line).

Definition skipped (p : byte → bool) (s : nat) : nat := (s + span_len p (drop s line))%nat.

Lemma skipped_le p s : (s ≤ es → s ≤ skipped p s ≤ es)%nat.
Proof. unfold skipped. intros. pose proof (span_len_le p (drop s line)). rewrite length_drop in *. lia. Qed.

Lemma skipped_idem p s : skipped p (skipped p s) = skipped p s.
Proof. unfold skipped at 1 3. unfold skipped. rewrite <- drop_drop, span_len_idem. lia. Qed.

Lemma char_in h s : text h = line ++ NUL :: rest → (s < es)%nat → ∃ c, line !! s = Some c ∧ char_at s h = Ok c h ∧ c ≠ NUL.
Proof.
  intros Ht Hs. destruct (lookup_lt_is_Some_2 line s Hs) as [c Hc]. exists c. split; [done|]. split.
  - unfold char_at. erewrite bind_ok by done. rewrite Ht, (lookup_app_l_Some _ _ _ _ Hc). done.
  - by eapply (Forall_lookup_1 _ _ _ _ line_chars Hc).
Qed.
Lemma char_end h : text h = line ++ NUL :: rest → char_at es h = Ok NUL h.
Proof. intros Ht. unfold char_at. erewrite bind_ok by done. rewrite Ht, lookup_app_r, Nat.sub_diag by lia. done. Qed.

Lemma skip_ok p s h : text h = line ++ NUL :: rest → (s ≤ es)%nat → skip p es s h = Ok (skipped p s) h.
Proof.
  intros Ht Hs. unfold skip.
  assert (∀ k s, (es - s < k)%nat → (s ≤ es)%nat → loop k (λ s, if (s <? es)%nat then let! c := char_at s in if p c then ret (inl (S s)) else ret (inr s) else ret (inr s)) s h = Ok (skipped p s) h) as H; [|apply H; lia].
  clear s Hs. induction k as [|k IH]; intros s Hk Hs; [lia|]. unfold skipped. destruct (Nat.ltb_spec s es) as [Hlt|].
  - destruct (char_in h s Ht Hlt) as (c & Hc & Ec & _). rewrite (drop_S _ _ _ Hc). cbn [span_len]. destruct (p c) eqn:Ep.
    + rewrite (loop_next _ _ _ _ (S s) h); [rewrite IH by lia; unfold skipped; f_equal; lia|].
      rewrite (proj2 (Nat.ltb_lt s es)), (bind_ok _ _ _ _ _ Ec), Ep by done. done.
    + rewrite Nat.add_0_r. apply loop_exit. rewrite (proj2 (Nat.ltb_lt s es)), (bind_ok _ _ _ _ _ Ec), Ep by done. done.
  - assert (s = es) as -> by lia. rewrite drop_all. cbn [span_len]. rewrite Nat.add_0_r. apply loop_exit. by rewrite (proj2 (Nat.ltb_ge _ _)).
Qed.

(** ** Tokens at a position *)

(** The token that starts at [q], and its end. *)
Inductive token_at (q : nat) : tok (nat * nat) → nat → Prop :=
| at_single c : line !! q = Some c → in_set single c = true → token_at q (Sym c) (S q)
| at_append : line !! q = Some GT → line !! S q = Some GT → token_at q (Sym PLUS) (S (S q))
| at_gt : line !! q = Some GT → line !! S q ≠ Some GT → token_at q (Sym GT) (S q)
| at_word c : line !! q = Some c → is_word c = true → token_at q (Word (q, skipped is_word q)) (skipped is_word q).

(** The tokens from [s] on. *)
Inductive stream : nat → list (tok (nat * nat)) → Prop :=
| stream_nil s : (s ≤ es)%nat → skipped is_ws s = es → stream s []
| stream_cons s t e ts :
    (s ≤ es)%nat → token_at (skipped is_ws s) t e → stream (skipped is_ws e) ts → stream s (t :: ts).

Lemma stream_le s ts : stream s ts → (s ≤ es)%nat.
Proof. by destruct 1. Qed.

Lemma token_end q t e : token_at q t e → (q < e ≤ es)%nat.
Proof.
  destruct 1 as [c H _|H1 H2|H _|c H Hw]; try (apply lookup_lt_Some in H; lia); [apply lookup_lt_Some in H2; lia|].
  unfold skipped. rewrite (drop_S _ _ _ H). cbn [span_len]. rewrite Hw. apply lookup_lt_Some in H.
  pose proof (span_len_le is_word (drop (S q) line)). rewrite length_drop in *. lia.
Qed.

Lemma stream_length s ts : stream s ts → (length ts + s ≤ es)%nat.
Proof.
  induction 1 as [s Hs _|s t e ts Hs Ht _ IH]; cbn; [lia|]. apply token_end in Ht.
  pose proof (skipped_le is_ws s Hs). pose proof (skipped_le is_ws e ltac:(lia)). lia.
Qed.

Lemma stream_skip s ts : stream s ts → stream (skipped is_ws s) ts.
Proof.
  destruct 1 as [s Hs E|s t e ts Hs Ht Hts]; pose proof (skipped_le is_ws s Hs).
  - constructor; [lia|]. by rewrite skipped_idem.
  - econstructor; [lia|by rewrite skipped_idem|done].
Qed.

Lemma token_exists q : (q < es)%nat → skipped is_ws q = q → ∃ t e, token_at q t e.
Proof.
  intros Hq Hws. destruct (lookup_lt_is_Some_2 line q Hq) as [c Hc]. pose proof (Forall_lookup_1 _ _ _ _ line_chars Hc) as Hn.
  assert (is_ws c = false) as Hw.
  { apply (span_len_stop is_ws (drop q line)). rewrite lookup_drop. unfold skipped in Hws. rewrite Hws. done. }
  destruct (in_set single c) eqn:Es; [do 2 eexists; by apply (at_single q c)|].
  destruct (beq c GT) eqn:Eg; [|do 2 eexists; by apply (at_word q c), char_kind].
  apply bool_decide_eq_true in Eg as ->. destruct (decide (line !! S q = Some GT)); do 2 eexists; [by apply at_append|by apply at_gt].
Qed.

Lemma stream_exists s : (s ≤ es)%nat → ∃ ts, stream s ts.
Proof.
  remember (es - s)%nat as d eqn:Hd. revert s Hd. induction d as [d IH] using lt_wf_ind. intros s -> Hs.
  pose proof (skipped_le is_ws s Hs). destruct (decide (skipped is_ws s = es)) as [|Hne]; [exists []; by constructor|].
  destruct (token_exists (skipped is_ws s)) as (t & e & Ht); [lia|apply skipped_idem|]. pose proof (token_end _ _ _ Ht).
  pose proof (skipped_le is_ws e ltac:(lia)). destruct (IH (es - skipped is_ws e)%nat ltac:(lia) _ eq_refl ltac:(lia)) as [ts Hts].
  exists (t :: ts). by econstructor.
Qed.

(** ** What the two functions of the lexer do *)

(** The line is in memory, and the tokens [ts] are still to be read. *)
Definition ready (h : sh) (ts : list (tok (nat * nat))) : Prop :=
  text h = line ++ NUL :: rest ∧ stream (pos h) ts.
Definition at_pos (h : sh) (s : nat) : sh := ShState (text h) s (cmds h).

(** What [gettoken] answers. *)
Definition code (ts : list (tok (nat * nat))) : byte :=
  match ts with [] => NUL | Sym c :: _ => c | Word _ :: _ => WORD end.

(** The character [peek] looks at. *)
Definition peeked (ts : list (tok (nat * nat))) (toks : list byte) : bool :=
  match ts with Sym c :: _ => in_set toks (if beq c PLUS then GT else c) | _ => false end.

Lemma set_pos_ok h s : set_pos s h = Ok tt (at_pos h s).
Proof. done. Qed.

Lemma peek_ok h ts toks :
  ready h ts → (∀ c, in_set toks c = true → in_set symbols c = true) →
  ∃ s, peek es toks h = Ok (peeked ts toks) (at_pos h s) ∧ ready (at_pos h s) ts.
Proof.
  intros [Ht Hs] Htoks. exists (skipped is_ws (pos h)). split; [|split; [done|by apply stream_skip]].
  unfold peek. erewrite bind_ok by done. rewrite (bind_ok _ _ _ _ _ (skip_ok _ _ h Ht (stream_le _ _ Hs))).
  erewrite bind_ok by apply set_pos_ok. pose proof (char_in (at_pos h (skipped is_ws (pos h)))) as Hin. cbn [text at_pos] in Hin.
  inversion Hs as [s Hle Ee|s t e ts' Hle Hat _]; subst.
  - rewrite Ee. rewrite (bind_ok _ _ _ _ _ (char_end (at_pos h es) Ht)). done.
  - pose proof (token_end _ _ _ Hat) as He. destruct (Hin (skipped is_ws (pos h)) Ht ltac:(lia)) as (c & Hc & Ec & Hn). rewrite (bind_ok _ _ _ _ _ Ec).
    unfold ret. f_equal. assert (beq c NUL = false) as -> by (by apply bool_decide_eq_false). cbn [negb andb peeked].
    destruct Hat as [d Hd Hsd|Hd _|Hd _|d Hd Hw]; rewrite Hc in Hd; injection Hd as ->; [|done..|].
    + assert (beq d PLUS = false) as ->; [|done]. apply bool_decide_eq_false. by apply single_symbol in Hsd as (_ & _ & _ & ? & _).
    + destruct (in_set toks d) eqn:E; [|done]. apply Htoks in E. unfold is_word in Hw. rewrite E, andb_false_r in Hw. done.
Qed.

(** The scan of one token. *)
Definition scan (q : nat) : ST sh (byte * nat) :=
  let! c := char_at q in
  if beq c NUL then ret (c, q)
  else if in_set single c then ret (c, S q)
  else if beq c GT then
    let! d := char_at (S q) in
    if beq d GT then ret (PLUS, S (S q)) else ret (c, S q)
  else
    let! s := skip is_word es q in
    ret (WORD, s).

Lemma lex_scan_ok h q t e ts : text h = line ++ NUL :: rest → token_at q t e → scan q h = Ok (code (t :: ts), e) h.
Proof.
  intros Ht Hat. pose proof (token_end _ _ _ Hat) as He. destruct (char_in h q Ht ltac:(lia)) as (c & Hc & Ec & Hn).
  unfold scan. rewrite (bind_ok _ _ _ _ _ Ec). assert (beq c NUL = false) as -> by (by apply bool_decide_eq_false).
  destruct Hat as [d Hd Hsd|Hd Hd2|Hd Hd2|d Hd Hw]; rewrite Hc in Hd; injection Hd as ->.
  - by rewrite Hsd.
  - destruct (char_in h (S q) Ht ltac:(lia)) as (d & Hd & Ed & _). rewrite Hd in Hd2. injection Hd2 as ->. change (in_set single GT) with false. change (beq GT GT) with true. cbv iota. by rewrite (bind_ok _ _ _ _ _ Ed).
  - change (in_set single GT) with false. change (beq GT GT) with true. cbv iota. destruct (decide (S q < es)%nat) as [Hlt|].
    + destruct (char_in h (S q) Ht Hlt) as (d & Hd & Ed & _). rewrite (bind_ok _ _ _ _ _ Ed).
      assert (beq d GT = false) as ->; [|done]. apply bool_decide_eq_false. intros ->. done.
    + assert (S q = es) as E by lia. rewrite E, (bind_ok _ _ _ _ _ (char_end h Ht)). done.
  - destruct (word_char d Hw Hn) as (_ & -> & ->). by rewrite (bind_ok _ _ _ _ _ (skip_ok _ q h Ht ltac:(lia))).
Qed.

Lemma gettoken_scan h :
  text h = line ++ NUL :: rest → (pos h ≤ es)%nat →
  gettoken es h =
  (let q := skipped is_ws (pos h) in
   let! (r, eq) := scan q in
   let! s := skip is_ws es eq in
   do! set_pos s in ret (r, q, eq)) h.
Proof.
  intros Ht Hs. unfold gettoken. erewrite bind_ok by done. rewrite (bind_ok _ _ _ _ _ (skip_ok _ _ h Ht Hs)). cbv zeta.
  unfold scan, bind. by destruct (char_at _ h).
Qed.

(** The end of the token and the new position. *)
Lemma gettoken_ok h t ts :
  ready h (t :: ts) →
  ∃ q e s, gettoken es h = Ok (code (t :: ts), q, e) (at_pos h s) ∧ ready (at_pos h s) ts ∧ token_at q t e.
Proof.
  intros [Ht Hs]. inversion Hs as [|s t' e ts' Hle Hat Hst]; subst. exists (skipped is_ws (pos h)), e, (skipped is_ws e).
  pose proof (token_end _ _ _ Hat). split; [|done]. rewrite gettoken_scan by done. cbv zeta.
  rewrite (bind_ok _ _ _ _ _ (lex_scan_ok h _ _ _ ts Ht Hat)), (bind_ok _ _ _ _ _ (skip_ok is_ws e h Ht ltac:(lia))). done.
Qed.

Lemma gettoken_end h : ready h [] → ∃ q e s, gettoken es h = Ok (NUL, q, e) (at_pos h s) ∧ ready (at_pos h s) [].
Proof.
  intros [Ht Hs]. inversion Hs as [s Hle Ee|]; subst. exists es, es, es. split.
  - rewrite gettoken_scan by done. rewrite Ee. cbv zeta.
    rewrite (bind_ok _ _ h (NUL, es) h) by (unfold scan; by rewrite (bind_ok _ _ _ _ _ (char_end h Ht))).
    rewrite (bind_ok _ _ _ _ _ (skip_ok _ es h Ht ltac:(lia))). unfold skipped. rewrite drop_all. cbn [span_len]. rewrite Nat.add_0_r. done.
  - split; [done|]. constructor; [done|]. cbn [pos at_pos]. unfold skipped. rewrite drop_all. cbn. lia.
Qed.

(** ** The tokens as strings *)
Definition slice (w : nat * nat) : list byte := take (w.2 - w.1) (drop w.1 line).
Definition tok_map {V W} (f : V → W) (t : tok V) : tok W := match t with Sym c => Sym c | Word w => Word (f w) end.

Lemma lex_ws s : lex [] (drop (skipped is_ws s) line) = lex [] (drop s line).
Proof.
  unfold skipped. rewrite <- drop_drop. induction (drop s line) as [|c l IH]; [done|]. cbn [span_len].
  destruct (is_ws c) eqn:E; [|done]. cbn [drop lex]. rewrite E. done.
Qed.

Lemma lex_word w l :
  Forall (λ c, c ≠ NUL) l → lex w l = lex (w ++ take (span_len is_word l) l) (drop (span_len is_word l) l).
Proof.
  revert w. induction l as [|c l IH]; intros w Hl; [cbn; by rewrite app_nil_r|]. apply Forall_cons in Hl as [Hc Hl].
  cbn [span_len]. destruct (is_word c) eqn:E; [|cbn [take drop]; by rewrite app_nil_r].
  cbn [take drop]. cbn [lex]. destruct (word_char c E Hc) as (-> & -> & ->). rewrite (IH _ Hl), <- app_assoc. done.
Qed.

Lemma lex_flush w l : w ≠ [] → Forall (λ c, c ≠ NUL) l → span_len is_word l = O → lex w l = Word w :: lex [] l.
Proof.
  intros Hw Hl Hs. destruct w as [|a w]; [done|]. destruct l as [|c l]; [done|]. apply Forall_cons in Hl as [Hc _]. cbn [span_len] in Hs.
  destruct (is_word c) eqn:E; [done|]. cbn [lex flush]. destruct (is_ws c) eqn:E1; [done|]. destruct (in_set single c) eqn:E2; [done|].
  destruct (beq c GT) eqn:E3; [done|]. rewrite (char_kind c) in E by done. done.
Qed.

Lemma lex_token q t e : token_at q t e → lex [] (drop q line) = tok_map slice t :: lex [] (drop e line).
Proof.
  destruct 1 as [c H Hc|H1 H2|H1 H2|c H Hw].
  - rewrite (drop_S _ _ _ H). cbn [lex flush app]. destruct (single_symbol c Hc) as (-> & _). by rewrite Hc.
  - rewrite (drop_S _ _ _ H1), (drop_S _ _ _ H2). done.
  - rewrite (drop_S _ _ _ H1). cbn [lex flush app]. change (is_ws GT) with false. change (in_set single GT) with false. change (beq GT GT) with true. cbn [tok_map].
    destruct (drop (S q) line) as [|d l] eqn:E; [done|]. assert (line !! S q = Some d) as Hd by (rewrite <- (Nat.add_0_r (S q)), <- lookup_drop, E; done).
    assert (beq d GT = false) as ->; [|done]. apply bool_decide_eq_false. intros ->. done.
  - assert (Forall (λ c, c ≠ NUL) (drop q line)) as HF by by apply Forall_drop.
    rewrite lex_word by done. cbn [app]. rewrite lex_flush; [|rewrite (drop_S _ _ _ H); cbn; by rewrite Hw|by apply Forall_drop|apply span_len_idem].
    unfold skipped. rewrite drop_drop. cbn [tok_map]. unfold slice. cbn [fst snd]. do 3 f_equal. lia.
Qed.

Lemma stream_lex s ts : stream s ts → tok_map slice <$> ts = lex [] (drop s line).
Proof.
  induction 1 as [s Hs E|s t e ts Hs Ht _ IH].
  - rewrite <- lex_ws, E, drop_all. done.
  - cbn. rewrite IH, <- (lex_ws s), (lex_token _ _ _ Ht), <- (lex_ws e). done.
Qed.

End Line.
End ShLex.
