(* ===== verification/ShParse.v ===== *)
(** ShParse: the parser of the shell builds in memory the command that the parser
    of token lists (ShGrammar) finds, or panics when that one fails. *)
From S2P Require Import Prelude Memory Grep Sh ShGrammar ShLex.
From Stdlib Require Import Strings.Byte Strings.String.
From stdpp Require Import list.
Local Open Scope Z_scope.

Module ShParse.
Import Grep Sh ShGrammar ShLex.

Abbreviation span := (nat * nat)%type.

(** * Commands in memory *)

(** An array of [MAXARGS] pointers for the words [ws]. *)
Definition arr (f : span → nat) (ws : list span) : list (option nat) :=
  ((λ w, Some (f w)) <$> ws) ++ replicate (MAXARGS - List.length ws) None.

(** The command [c] is at [p]; its parts are at smaller positions. *)
Fixpoint repr (ns : list node) (c : cmd span) (p : nat) : Prop :=
  match c with
  | Exec ws => ns !! p = Some (EXEC (arr fst ws) (arr snd ws)) ∧ (List.length ws < MAXARGS)%nat
  | Redir c w m fd => ∃ q, ns !! p = Some (REDIR q w.1 w.2 m fd) ∧ (q < p)%nat ∧ repr ns c q
  | Pipe l r => ∃ q1 q2, ns !! p = Some (PIPE q1 q2) ∧ (q1 < p)%nat ∧ (q2 < p)%nat ∧ repr ns l q1 ∧ repr ns r q2
  | List l r => ∃ q1 q2, ns !! p = Some (LIST q1 q2) ∧ (q1 < p)%nat ∧ (q2 < p)%nat ∧ repr ns l q1 ∧ repr ns r q2
  | Back c => ∃ q, ns !! p = Some (BACK q) ∧ (q < p)%nat ∧ repr ns c q
  end.

(** The command at [p], wrapped in the redirections [rs], is at [p']. *)
Fixpoint wraps (ns : list node) (p : nat) (rs : list (redir span)) (p' : nat) : Prop :=
  match rs with
  | [] => p' = p
  | (w, m, fd) :: rs => ∃ q, ns !! q = Some (REDIR p w.1 w.2 m fd) ∧ (p < q)%nat ∧ wraps ns q rs p'
  end.

Lemma repr_app ns ns' c p : repr ns c p → repr (ns ++ ns') c p.
Proof.
  revert p. induction c as [ws|c IH w m fd|l IHl r IHr|l IHl r IHr|c IH]; intros p; cbn [repr].
  - intros [H ?]. split; [|done]. by apply lookup_app_l_Some.
  - intros (q & H & ? & ?). exists q. split; [by apply lookup_app_l_Some|auto].
  - intros (q1 & q2 & H & ? & ? & ? & ?). exists q1, q2. split; [by apply lookup_app_l_Some|auto].
  - intros (q1 & q2 & H & ? & ? & ? & ?). exists q1, q2. split; [by apply lookup_app_l_Some|auto].
  - intros (q & H & ? & ?). exists q. split; [by apply lookup_app_l_Some|auto].
Qed.

(** Commands only point to REDIR nodes through [wraps]; other nodes may change. *)
Definition keeps_redirs (ns ns' : list node) : Prop :=
  ∀ q c f e m fd, ns !! q = Some (REDIR c f e m fd) → ns' !! q = Some (REDIR c f e m fd).

Lemma wraps_mono ns ns' p rs p' : keeps_redirs ns ns' → wraps ns p rs p' → wraps ns' p rs p'.
Proof.
  intros H. revert p. induction rs as [|[[w m] fd] rs IH]; intros p; cbn [wraps]; [done|].
  intros (q & Hq & ? & ?). exists q. auto.
Qed.

Lemma keeps_redirs_app ns ns' : keeps_redirs ns (ns ++ ns').
Proof. intros q c f e m fd. apply lookup_app_l_Some. Qed.

Lemma keeps_redirs_trans ns1 ns2 ns3 : keeps_redirs ns1 ns2 → keeps_redirs ns2 ns3 → keeps_redirs ns1 ns3.
Proof. intros H1 H2 q c f e m fd Hq. by apply H2, H1. Qed.

Lemma keeps_redirs_insert ns e a v a' v' : ns !! e = Some (EXEC a v) → keeps_redirs ns (<[e := EXEC a' v']> ns).
Proof. intros He q c f g m fd Hq. rewrite list_lookup_insert_ne; [done|]. intros ->. congruence. Qed.

Lemma wraps_app ns p rs1 q rs2 p' : wraps ns p rs1 q → wraps ns q rs2 p' → wraps ns p (rs1 ++ rs2) p'.
Proof.
  revert p. induction rs1 as [|[[w m] fd] rs1 IH]; intros p; cbn [wraps app]; [by intros ->|].
  intros (q1 & ? & ? & ?) ?. exists q1. auto.
Qed.

Lemma wraps_repr ns c p rs p' : repr ns c p → wraps ns p rs p' → repr ns (wrap rs c) p'.
Proof.
  revert c p. induction rs as [|[[w m] fd] rs IH]; intros c p Hc; cbn [wraps]; [by intros ->|].
  intros (q & Hq & ? & H). apply (IH (Redir c w m fd) q); [|done]. cbn [repr]. eauto.
Qed.

(** ** Arrays of arguments *)
Lemma length_arr f ws : (List.length ws ≤ MAXARGS)%nat → List.length (arr f ws) = MAXARGS.
Proof. intros. unfold arr. rewrite length_app, length_fmap, length_replicate. lia. Qed.

Lemma arr_add f ws w : (List.length ws < MAXARGS)%nat → <[List.length ws := Some (f w)]> (arr f ws) = arr f (ws ++ [w]).
Proof.
  intros H. unfold arr. rewrite length_app. cbn [List.length].
  replace (MAXARGS - List.length ws)%nat with (S (MAXARGS - (List.length ws + 1))) by lia. cbn [replicate].
  rewrite fmap_app, <- app_assoc. replace (List.length ws) with (List.length ((λ w, Some (f w)) <$> ws) + 0)%nat at 1 by (rewrite length_fmap; lia).
  by rewrite insert_app_r.
Qed.

Lemma arr_stop f ws : (List.length ws < MAXARGS)%nat → arr f ws !! List.length ws = Some None.
Proof.
  intros H. unfold arr. rewrite lookup_app_r by (rewrite length_fmap; lia). rewrite length_fmap, Nat.sub_diag.
  apply lookup_replicate. split; [done|lia].
Qed.

Lemma arr_lookup f ws i w : ws !! i = Some w → arr f ws !! i = Some (Some (f w)).
Proof. intros H. unfold arr. apply lookup_app_l_Some. by rewrite list_lookup_fmap, H. Qed.

Section Line.
Context (line rest : list byte).
Hypothesis line_chars : Forall (λ c, c ≠ NUL) line.
Abbreviation es := (List.length line).
Abbreviation ready := (ready line rest).
Abbreviation tokens := (list (tok span)).

(** * Tokens *)
Lemma ready_sym h o ts :
  ready h (Sym o :: ts) → beq o WORD = false ∧ beq o NUL = false ∧
  ∃ q e s, gettoken es h = Ok (o, q, e) (at_pos h s) ∧ ready (at_pos h s) ts.
Proof.
  intros Hr. destruct (gettoken_ok line rest line_chars h _ _ Hr) as (q & e & s & E & Hr' & Hat).
  assert (beq o WORD = false ∧ beq o NUL = false) as [? ?]; [|split_and!; [done..|by exists q, e, s]].
  inversion Hat as [c _ Hc| | |]; subst; [|done..]. revert Hc. clear. destruct o; vm_compute; done.
Qed.

Lemma ready_word h w ts :
  ready h (Word w :: ts) → ∃ s, gettoken es h = Ok (WORD, w.1, w.2) (at_pos h s) ∧ ready (at_pos h s) ts.
Proof.
  intros Hr. destruct (gettoken_ok line rest line_chars h _ _ Hr) as (q & e & s & E & Hr' & Hat).
  exists s. inversion Hat; subst. done.
Qed.

Lemma ready_length h ts : ready h ts → (List.length ts ≤ es)%nat.
Proof. intros [_ Hs]. apply stream_length in Hs. lia. Qed.

Lemma peek_toks h ts toks :
  ready h ts → forallb (in_set symbols) toks = true →
  ∃ s, peek es toks h = Ok (peeked ts toks) (at_pos h s) ∧ ready (at_pos h s) ts.
Proof.
  intros Hr Ht. apply (peek_ok line rest line_chars h ts toks Hr). intros c Hc.
  rewrite forallb_forall in Ht. apply Ht. clear -Hc. unfold in_set in Hc.
  induction toks as [|d toks IH]; cbn [strchr] in Hc; [done|]. destruct (beq d NUL); [done|]. destruct (beq d c) eqn:E.
  - apply bool_decide_eq_true in E as ->. by left.
  - right. apply IH. by destruct (strchr toks c).
Qed.

(** * Redirections *)
Lemma redir_peek o : in_set [LT; GT] (if beq o PLUS then GT else o) = match redir_mode o with Some _ => true | None => false end.
Proof. destruct o; vm_compute; done. Qed.

Lemma new_cmd_ok n h : new_cmd n h = Ok (List.length (cmds h)) (ShState (text h) (pos h) (cmds h ++ [n])).
Proof. done. Qed.

(** The node of one redirection. *)
Lemma redir_node o m fd w p h :
  redir_mode o = Some (m, fd) →
  (if beq o LT then let! c := redircmd p w.1 w.2 O_RDONLY 0 in ret (inl c)
   else if beq o GT || beq o PLUS then let! c := redircmd p w.1 w.2 (Z.lor O_WRONLY O_CREATE) 1 in ret (inl c)
   else ret (inl p)) h =
  Ok (@inl nat (nat + string) (List.length (cmds h))) (ShState (text h) (pos h) (cmds h ++ [REDIR p w.1 w.2 m fd])).
Proof.
  unfold redir_mode. destruct (beq o LT); [by intros [= <- <-]|]. destruct (beq o GT || beq o PLUS); [by intros [= <- <-]|done].
Qed.

Lemma redirs_ok k p h ts :
  ready h ts → (List.length ts < k)%nat → (p < List.length (cmds h))%nat →
  match a_redirs ts with
  | POk _ rs r => ∃ p' h' ns, loop k (redirs_step es) p h = Ok (inl p') h' ∧ ready h' r ∧
      cmds h' = cmds h ++ ns ∧ wraps (cmds h') p rs p' ∧ (p' < List.length (cmds h'))%nat
  | PErr _ => ∃ m h', loop k (redirs_step es) p h = Ok (inr m) h'
  | PFuel _ => False
  end.
Proof.
  revert p h ts. induction k as [|k IH]; intros p h ts Hr Hk Hp; [lia|].
  destruct (peek_toks h ts [LT; GT] Hr eq_refl) as (s & Ep & Hr1).
  assert (peeked ts [LT; GT] = false → loop (S k) (redirs_step es) p h = Ok (inl p) (at_pos h s)) as Hexit.
  { intros Hf. apply loop_exit. unfold redirs_step. rewrite (bind_ok _ _ _ _ _ Ep), Hf. done. }
  destruct ts as [|[o|w] ts]; cbn [a_redirs].
  1, 3: exists p, (at_pos h s), []; rewrite app_nil_r; split_and!; [by apply Hexit|done..].
  cbn [peeked] in Ep, Hexit. rewrite redir_peek in Ep, Hexit. destruct (redir_mode o) as [[m fd]|] eqn:Em.
  2:{ exists p, (at_pos h s), []. rewrite app_nil_r. split_and!; [by apply Hexit|done..]. }
  destruct (ready_sym _ _ _ Hr1) as (_ & _ & q1 & e1 & s1 & E1 & Hr2).
  destruct ts as [|[c|w] ts].
  - destruct (gettoken_end line rest line_chars _ Hr2) as (q & e & s2 & E2 & _). do 2 eexists. apply loop_exit.
    unfold redirs_step. rewrite (bind_ok _ _ _ _ _ Ep), (bind_ok _ _ _ _ _ E1), (bind_ok _ _ _ _ _ E2). done.
  - destruct (ready_sym _ _ _ Hr2) as (Hc & _ & q & e & s2 & E2 & _). do 2 eexists. apply loop_exit.
    unfold redirs_step. rewrite (bind_ok _ _ _ _ _ Ep), (bind_ok _ _ _ _ _ E1), (bind_ok _ _ _ _ _ E2), Hc. done.
  - destruct (ready_word _ _ _ Hr2) as (s2 & E2 & Hr3). cbn [List.length] in Hk.
    set (h3 := ShState (text h) s2 (cmds h ++ [REDIR p w.1 w.2 m fd])).
    assert (redirs_step es p h = Ok (inl (List.length (cmds h))) h3) as Es.
    { unfold redirs_step. rewrite (bind_ok _ _ _ _ _ Ep), (bind_ok _ _ _ _ _ E1), (bind_ok _ _ _ _ _ E2).
      exact (redir_node o m fd w p (at_pos (at_pos (at_pos h s) s1) s2) Em). }
    rewrite (loop_next _ _ _ _ _ _ Es). specialize (IH (List.length (cmds h)) h3 ts Hr3 ltac:(lia)).
    cbn [cmds h3] in IH. rewrite length_app in IH. specialize (IH ltac:(cbn; lia)). destruct (a_redirs ts) as [rs r| |]; cbn [andthen]; [|done..].
    destruct IH as (p' & h' & ns & E & Hr' & Ec & Hw & Hl). exists p', h', ([REDIR p w.1 w.2 m fd] ++ ns).
    split_and!; [done|done|by rewrite Ec, <- app_assoc| |done]. cbn [wraps]. exists (List.length (cmds h)). split_and!; [|lia|done].
    rewrite Ec. apply lookup_app_l_Some. apply list_lookup_middle. done.
Qed.

(** * Arguments *)
Lemma stop_peek o : in_set [BAR; RPAREN; AMP; SEMI] (if beq o PLUS then GT else o) = in_set stop o.
Proof. destruct o; vm_compute; done. Qed.

Lemma set_arg_ok h e ws w :
  cmds h !! e = Some (EXEC (arr fst ws) (arr snd ws)) → (List.length ws < MAXARGS)%nat →
  set_arg e (List.length ws) (Some w.1) (Some w.2) h =
  Ok tt (ShState (text h) (pos h) (<[e := EXEC (arr fst (ws ++ [w])) (arr snd (ws ++ [w]))]> (cmds h))).
Proof.
  intros He Hl. unfold set_arg, get_cmd. rewrite (bind_ok _ _ h (EXEC (arr fst ws) (arr snd ws)) h).
  2:{ erewrite bind_ok by done. by rewrite He. }
  rewrite length_arr by lia. rewrite (proj2 (Nat.ltb_lt _ _)) by done. by rewrite !arr_add.
Qed.

Lemma set_arg_end h e ws :
  cmds h !! e = Some (EXEC (arr fst ws) (arr snd ws)) → (List.length ws < MAXARGS)%nat →
  set_arg e (List.length ws) None None h = Ok tt (ShState (text h) (pos h) (cmds h)).
Proof.
  intros He Hl. unfold set_arg, get_cmd. rewrite (bind_ok _ _ h (EXEC (arr fst ws) (arr snd ws)) h).
  2:{ erewrite bind_ok by done. by rewrite He. }
  rewrite length_arr by lia. rewrite (proj2 (Nat.ltb_lt _ _)) by done.
  unfold modify. rewrite (list_insert_id (arr fst ws)), (list_insert_id (arr snd ws)) by by apply arr_stop. by rewrite list_insert_id.
Qed.

Lemma add_arg_ok e ws0 w p h ts :
  ready h ts → cmds h !! e = Some (EXEC (arr fst ws0) (arr snd ws0)) → (List.length ws0 < MAXARGS)%nat →
  (p < List.length (cmds h))%nat →
  if (MAXARGS <=? S (List.length ws0))%nat
  then ∃ m h', add_arg es e w.1 w.2 (p, List.length ws0) h = Ok (inr (inr m)) h'
  else match a_redirs ts with
  | POk _ rs r => ∃ p' h' ns, add_arg es e w.1 w.2 (p, List.length ws0) h = Ok (inl (p', S (List.length ws0))) h' ∧ ready h' r ∧
      cmds h' = <[e := EXEC (arr fst (ws0 ++ [w])) (arr snd (ws0 ++ [w]))]> (cmds h) ++ ns ∧ wraps (cmds h') p rs p' ∧
      (p' < List.length (cmds h'))%nat
  | PErr _ => ∃ m h', add_arg es e w.1 w.2 (p, List.length ws0) h = Ok (inr (inr m)) h'
  | PFuel _ => False
  end.
Proof.
  intros Hr He Hw0 Hp. unfold add_arg. rewrite (bind_ok _ _ _ _ _ (set_arg_ok h e ws0 w He Hw0)). set (h3 := ShState _ _ _).
  destruct (Nat.leb_spec MAXARGS (S (List.length ws0))); [by do 2 eexists|].
  assert (List.length (cmds h3) = List.length (cmds h)) as El by (cbn; by rewrite length_insert).
  pose proof (redirs_ok (S es) p h3 ts Hr ltac:(apply ready_length in Hr; lia) ltac:(lia)) as HR. fold (parseredirs es p) in HR.
  destruct (a_redirs ts) as [rs r| |]; [| |done].
  - destruct HR as (p' & h' & ns & E & HR). exists p', h', ns. split; [|exact HR]. by rewrite (bind_ok _ _ _ _ _ E).
  - destruct HR as (m & h' & E). do 2 eexists. by rewrite (bind_ok _ _ _ _ _ E).
Qed.

(** The loop over the arguments: [ws0] are those it has found already. *)
Definition args_done (e : nat) (ws : list span) (p : nat) (rs : list (redir span)) (r : tokens) (h : sh) (p' : nat) (h' : sh) : Prop :=
  ready h' r ∧ (∃ ns, cmds h' = <[e := EXEC (arr fst ws) (arr snd ws)]> (cmds h) ++ ns) ∧ wraps (cmds h') p rs p' ∧
  (p' < List.length (cmds h'))%nat ∧ (List.length ws < MAXARGS)%nat.

Lemma args_ok k e ws0 p h ts :
  ready h ts → cmds h !! e = Some (EXEC (arr fst ws0) (arr snd ws0)) → (List.length ws0 < MAXARGS)%nat →
  (p < List.length (cmds h))%nat →
  match a_args k (List.length ws0) ts with
  | POk _ (ws, rs) r => ∃ p' h',
      loop k (args_step es e) (p, List.length ws0) h = Ok (inl (p', List.length (ws0 ++ ws))) h' ∧ args_done e (ws0 ++ ws) p rs r h p' h'
  | PErr _ => ∃ m h', loop k (args_step es e) (p, List.length ws0) h = Ok (inr m) h'
  | PFuel _ => True
  end.
Proof.
  revert ws0 p h ts. induction k as [|k IH]; intros ws0 p h ts Hr He Hw0 Hp; [done|].
  destruct (peek_toks h ts [BAR; RPAREN; AMP; SEMI] Hr eq_refl) as (s & Ep & Hr1). cbn [a_args].
  assert (∀ h', ready h' ts → cmds h' = cmds h → args_done e (ws0 ++ []) p [] ts h p h') as Hexit.
  { intros h' Hr' Ec. unfold args_done. rewrite !app_nil_r, list_insert_id by done. rewrite Ec. split_and!; [done|exists []; by rewrite app_nil_r|done..]. }
  destruct ts as [|[o|w] ts].
  - destruct (gettoken_end line rest line_chars _ Hr1) as (q & e' & s2 & E2 & Hr2). exists p. eexists. split; [|apply (Hexit _ Hr2); done].
    rewrite app_nil_r. apply loop_exit. unfold args_step. rewrite (bind_ok _ _ _ _ _ Ep). cbn [peeked]. by rewrite (bind_ok _ _ _ _ _ E2).
  - cbn [peeked] in Ep. rewrite stop_peek in Ep. destruct (in_set stop o) eqn:Es.
    + exists p. eexists. split; [|apply (Hexit _ Hr1); done]. rewrite app_nil_r. apply loop_exit. unfold args_step. by rewrite (bind_ok _ _ _ _ _ Ep).
    + destruct (ready_sym _ _ _ Hr1) as (H1 & H2 & q1 & e1 & s1 & E1 & Hr2). do 2 eexists. apply loop_exit.
      unfold args_step. rewrite (bind_ok _ _ _ _ _ Ep), (bind_ok _ _ _ _ _ E1), H1, H2. done.
  - destruct (ready_word _ _ _ Hr1) as (s2 & E2 & Hr2).
    assert (∀ r h4, add_arg es e w.1 w.2 (p, List.length ws0) (at_pos (at_pos h s) s2) = Ok r h4 → args_step es e (p, List.length ws0) h = Ok r h4) as Hstep.
    { intros r h4 E4. unfold args_step. rewrite (bind_ok _ _ _ _ _ Ep). cbn [peeked]. by rewrite (bind_ok _ _ _ _ _ E2). }
    pose proof (add_arg_ok e ws0 w p _ ts Hr2 He Hw0 Hp) as HA. cbn [at_pos cmds] in HA.
    destruct (MAXARGS <=? S (List.length ws0))%nat eqn:Emax; [destruct HA as (m & h' & E); do 2 eexists; by apply loop_exit, Hstep|].
    destruct (a_redirs ts) as [rs1 ts1| |]; cbn [andthen]; [|destruct HA as (m & h' & E); do 2 eexists; by apply loop_exit, Hstep|done].
    destruct HA as (p1 & h4 & ns1 & E4 & Hr4 & Ec4 & Hw4 & Hl4). rewrite (loop_next _ _ _ _ _ _ (Hstep _ _ E4)).
    assert (List.length (ws0 ++ [w]) = S (List.length ws0)) as Ew by (rewrite length_app; cbn; lia). apply Nat.leb_gt in Emax.
    assert (e < List.length (cmds h))%nat as Hel by by eapply lookup_lt_Some.
    assert (cmds h4 !! e = Some (EXEC (arr fst (ws0 ++ [w])) (arr snd (ws0 ++ [w])))) as He4.
    { rewrite Ec4. apply lookup_app_l_Some. by apply list_lookup_insert_eq. }
    specialize (IH (ws0 ++ [w]) p1 h4 ts1 Hr4 He4 ltac:(lia) Hl4). rewrite Ew in IH.
    destruct (a_args k (S (List.length ws0)) ts1) as [[ws rs] r| |]; cbn [andthen]; [|done..].
    destruct IH as (p' & h' & E & Hr' & (ns & Ec) & Hw & Hl). rewrite <- app_assoc in *. cbn [app] in *.
    exists p', h'. split; [done|]. split_and!; [done| | |apply Hl..].
    + exists (ns1 ++ ns). rewrite Ec, Ec4, insert_app_l by (rewrite length_insert; lia). by rewrite list_insert_insert_eq, <- app_assoc.
    + eapply wraps_app; [|done]. eapply wraps_mono; [|exact Hw4]. rewrite Ec. eapply keeps_redirs_trans; [|apply keeps_redirs_app]. by eapply keeps_redirs_insert.
Qed.

(** * The parser *)
Lemma pbind_ok {A B} (m : parser A) (k : A → parser B) h a h' : m h = Ok (inl a) h' → pbind m k h = k a h'.
Proof. intros E. unfold pbind. by rewrite (bind_ok _ _ _ _ _ E). Qed.
Lemma pbind_panic {A B} (m : parser A) (k : A → parser B) h e h' : m h = Ok (inr e) h' → pbind m k h = Ok (inr e) h'.
Proof. intros E. unfold pbind. by rewrite (bind_ok _ _ _ _ _ E). Qed.

(** [P] does in memory what [A] does with the tokens. *)
Definition answers (x : presult (W := span) (cmd span)) (P : parser nat) (h : sh) : Prop :=
  match x with
  | POk _ c r => ∃ p h' ns, P h = Ok (inl p) h' ∧ ready h' r ∧ cmds h' = cmds h ++ ns ∧ repr (cmds h') c p
  | PErr _ => ∃ m h', P h = Ok (inr m) h'
  | PFuel _ => True
  end.
Definition sim (P : parser nat) (A : tokens → presult (W := span) (cmd span)) : Prop :=
  ∀ h ts, ready h ts → answers (A ts) P h.

Lemma repr_lt ns c p : repr ns c p → (p < List.length ns)%nat.
Proof. destruct c; cbn [repr]; [intros [H _]|intros (? & H & _)|intros (? & ? & H & _)|intros (? & ? & H & _)|intros (? & H & _)]; by eapply lookup_lt_Some. Qed.

(** [peek] with one symbol. *)
Lemma peek_sym h ts o :
  ready h ts → o ∈ [LPAREN; RPAREN; BAR; AMP; SEMI] →
  ∃ s, peek es [o] h = Ok (head_is o ts) (at_pos h s) ∧ ready (at_pos h s) ts.
Proof.
  intros Hr Ho. assert (forallb (in_set symbols) [o] = true ∧ ∀ c, in_set [o] (if beq c PLUS then GT else c) = beq o c) as [H1 H2].
  { rewrite !elem_of_cons, elem_of_nil in Ho. destruct Ho as [->|[->|[->|[->|[->|[]]]]]]; (split; [done|]); intros c; destruct c; vm_compute; done. }
  destruct (peek_toks h ts [o] Hr H1) as (s & E & Hr'). exists s. split; [|done]. rewrite E. f_equal.
  destruct ts as [|[c|w] ts]; [done| |done]. apply H2.
Qed.

Lemma head_ready h o ts : ready h ts → head_is o ts = true → ∃ q e s, gettoken es h = Ok (o, q, e) (at_pos h s) ∧ ready (at_pos h s) (tail ts).
Proof. intros Hr E. apply head_is_true in E. rewrite E in Hr. destruct (ready_sym _ _ _ Hr) as (_ & _ & H). exact H. Qed.

Lemma block_sim line_ A h ts :
  sim line_ A → ready h ts → head_is LPAREN ts = true → answers (a_exec A (S es) ts) (parseblock line_ es) h.
Proof.
  intros Hl Hr Hh. unfold a_exec. rewrite Hh. destruct (peek_sym h ts LPAREN Hr ltac:(left)) as (s1 & E1 & Hr1). rewrite Hh in E1.
  destruct (head_ready _ _ _ Hr1 Hh) as (q2 & e2 & s2 & E2 & Hr2). specialize (Hl _ _ Hr2). unfold parseblock.
  destruct (A (tail ts)) as [c r| |]; cbn [andthen answers] in *; [| |done].
  2:{ destruct Hl as (m & h' & E). exists m, h'. rewrite (bind_ok _ _ _ _ _ E1). cbn [negb]. rewrite (bind_ok _ _ _ _ _ E2). by apply pbind_panic. }
  destruct Hl as (p & h3 & ns & E3 & Hr3 & Ec & Hp). destruct (peek_sym h3 r RPAREN Hr3 ltac:(right; left)) as (s4 & E4 & Hr4).
  destruct (head_is RPAREN r) eqn:Eh.
  2:{ do 2 eexists. rewrite (bind_ok _ _ _ _ _ E1). cbn [negb]. rewrite (bind_ok _ _ _ _ _ E2), (pbind_ok _ _ _ _ _ E3), (bind_ok _ _ _ _ _ E4). done. }
  destruct (head_ready _ _ _ Hr4 Eh) as (q5 & e5 & s5 & E5 & Hr5).
  pose proof (redirs_ok (S es) p _ _ Hr5 ltac:(apply ready_length in Hr5; lia) ltac:(by eapply repr_lt)) as HR. fold (parseredirs es p) in HR.
  destruct (a_redirs (tail r)) as [rs r'| |]; cbn [andthen answers]; [| |done].
  - destruct HR as (p' & h' & ns' & E & Hr' & Ec' & Hw & _). exists p', h', (ns ++ ns'). cbn [at_pos cmds] in Ec, Ec'. split_and!; [|done|by rewrite Ec', Ec, app_assoc|].
    + rewrite (bind_ok _ _ _ _ _ E1). cbn [negb]. rewrite (bind_ok _ _ _ _ _ E2), (pbind_ok _ _ _ _ _ E3), (bind_ok _ _ _ _ _ E4). cbn [negb]. by rewrite (bind_ok _ _ _ _ _ E5).
    + eapply wraps_repr; [|done]. rewrite Ec'. by apply repr_app.
  - destruct HR as (m & h' & E). exists m, h'. rewrite (bind_ok _ _ _ _ _ E1). cbn [negb].
    rewrite (bind_ok _ _ _ _ _ E2), (pbind_ok _ _ _ _ _ E3), (bind_ok _ _ _ _ _ E4). cbn [negb]. by rewrite (bind_ok _ _ _ _ _ E5).
Qed.

Lemma exec_sim line_ A : sim line_ A → sim (parseexec line_ es) (a_exec A (S es)).
Proof.
  intros Hl h ts Hr. destruct (peek_sym h ts LPAREN Hr ltac:(left)) as (s1 & E1 & Hr1). unfold parseexec.
  destruct (head_is LPAREN ts) eqn:Eh.
  { pose proof (block_sim _ _ _ _ Hl Hr1 Eh) as HB. unfold answers in *. destruct (a_exec A (S es) ts) as [c r| |]; [| |done].
    - destruct HB as (p & h' & ns & E & HB). exists p, h', ns. split; [|exact HB]. by rewrite (bind_ok _ _ _ _ _ E1).
    - destruct HB as (m & h' & E). exists m, h'. by rewrite (bind_ok _ _ _ _ _ E1). }
  unfold a_exec. rewrite Eh. set (e := List.length (cmds h)). set (x := EXEC (arr fst []) (arr snd [])).
  set (h2 := ShState (text h) s1 (cmds h ++ [x])). assert (ready h2 ts) as Hr2 by exact Hr1.
  assert (execcmd (at_pos h s1) = Ok e h2) as E2 by done.
  assert (e < List.length (cmds h2))%nat as Hel by (cbn; rewrite length_app; cbn; lia).
  pose proof (redirs_ok (S es) e h2 ts Hr2 ltac:(apply ready_length in Hr2; lia) Hel) as HR. fold (parseredirs es e) in HR.
  destruct (a_redirs ts) as [rs1 r1| |]; cbn [andthen]; [| |done].
  2:{ destruct HR as (m & h' & E). exists m, h'. rewrite (bind_ok _ _ _ _ _ E1), (bind_ok _ _ _ _ _ E2). by apply pbind_panic. }
  destruct HR as (p3 & h3 & ns3 & E3 & Hr3 & Ec3 & Hw3 & Hl3).
  assert (cmds h3 !! e = Some x) as He. { rewrite Ec3. apply lookup_app_l_Some. cbn. by apply list_lookup_middle. }
  pose proof (args_ok (S es) e [] p3 h3 r1 Hr3 He ltac:(cbn; unfold MAXARGS; lia) Hl3) as HA. cbn [List.length app] in HA.
  destruct (a_args (S es) 0 r1) as [[ws rs2] r| |]; cbn [andthen answers]; [| |done].
  - destruct HA as (p4 & h4 & E4 & Hr4 & (ns4 & Ec4) & Hw4 & _ & Hlen).
    assert (cmds h4 !! e = Some (EXEC (arr fst ws) (arr snd ws))) as He4.
    { rewrite Ec4. apply lookup_app_l_Some. apply list_lookup_insert_eq. by eapply lookup_lt_Some. }
    exists p4, h4, ([EXEC (arr fst ws) (arr snd ws)] ++ ns3 ++ ns4). split_and!; [|done| |].
    + rewrite (bind_ok _ _ _ _ _ E1), (bind_ok _ _ _ _ _ E2), (pbind_ok _ _ _ _ _ E3), (pbind_ok _ _ _ _ _ E4).
      rewrite (bind_ok _ _ _ _ _ (set_arg_end h4 e ws He4 Hlen)). by destruct h4.
    + rewrite Ec4, Ec3. cbn [cmds h2]. rewrite <- app_assoc. unfold e. rewrite insert_app_r_alt, Nat.sub_diag by lia. cbn. by rewrite <- app_assoc.
    + eapply (wraps_repr _ (Exec ws) e); [done|]. eapply wraps_app; [|exact Hw4]. eapply wraps_mono; [|exact Hw3].
      rewrite Ec4. eapply keeps_redirs_trans; [|apply keeps_redirs_app]. by eapply keeps_redirs_insert.
  - destruct HA as (m & h' & E). exists m, h'. rewrite (bind_ok _ _ _ _ _ E1), (bind_ok _ _ _ _ _ E2), (pbind_ok _ _ _ _ _ E3). by apply pbind_panic.
Qed.

Lemma pipe_sim k P A : sim P A → sim (parsepipe k P es) (a_pipe k A).
Proof.
  intros HP. induction k as [|k IH]; intros h ts Hr; [done|]. cbn [a_pipe parsepipe]. specialize (HP h ts Hr) as HA.
  destruct (A ts) as [c r| |]; cbn [andthen answers] in *; [| |done].
  2:{ destruct HA as (m & h' & E). exists m, h'. by apply pbind_panic. }
  destruct HA as (p & h1 & ns1 & E1 & Hr1 & Ec1 & Hp). destruct (peek_sym h1 r BAR Hr1 ltac:(right; right; left)) as (s2 & E2 & Hr2).
  destruct (head_is BAR r) eqn:Eh.
  - destruct (head_ready _ _ _ Hr2 Eh) as (q3 & e3 & s3 & E3 & Hr3). specialize (IH _ _ Hr3).
    destruct (a_pipe k A (tail r)) as [c2 r2| |]; cbn [andthen answers] in *; [| |done].
    + destruct IH as (p4 & h4 & ns4 & E4 & Hr4 & Ec4 & Hp4). cbn [at_pos cmds] in Ec4.
      exists (List.length (cmds h4)), (ShState (text h4) (pos h4) (cmds h4 ++ [PIPE p p4])), (ns1 ++ ns4 ++ [PIPE p p4]). split_and!.
      * rewrite (pbind_ok _ _ _ _ _ E1), (bind_ok _ _ _ _ _ E2), (bind_ok _ _ _ _ _ E3), (pbind_ok _ _ _ _ _ E4). done.
      * exact Hr4.
      * cbn [cmds]. by rewrite Ec4, Ec1, <- !app_assoc.
      * cbn [cmds repr]. exists p, p4. split_and!; [by apply list_lookup_middle| |by eapply repr_lt| |by apply repr_app].
        -- apply repr_lt in Hp. rewrite Ec4, length_app. lia.
        -- rewrite Ec4, <- app_assoc. by apply repr_app.
    + destruct IH as (m & h' & E). exists m, h'. rewrite (pbind_ok _ _ _ _ _ E1), (bind_ok _ _ _ _ _ E2), (bind_ok _ _ _ _ _ E3). by apply pbind_panic.
  - exists p, (at_pos h1 s2), ns1. split_and!; [|done..]. by rewrite (pbind_ok _ _ _ _ _ E1), (bind_ok _ _ _ _ _ E2).
Qed.

Lemma backs_ok k p c h ts :
  ready h ts → (List.length ts < k)%nat → repr (cmds h) c p →
  ∃ p' h' ns, loop k (back_step es) p h = Ok p' h' ∧ ready h' (a_backs c ts).2 ∧ cmds h' = cmds h ++ ns ∧ repr (cmds h') (a_backs c ts).1 p'.
Proof.
  revert p c h ts. induction k as [|k IH]; intros p c h ts Hr Hk Hp; [lia|].
  destruct (peek_sym h ts AMP Hr ltac:(right; right; right; left)) as (s1 & E1 & Hr1). destruct (head_is AMP ts) eqn:Eh.
  - destruct (head_ready _ _ _ Hr1 Eh) as (q2 & e2 & s2 & E2 & Hr2). apply head_is_true in Eh. rewrite Eh in Hk |- *. cbn [List.length] in Hk.
    set (h3 := ShState (text h) s2 (cmds h ++ [BACK p])).
    destruct (IH (List.length (cmds h)) (Back c) h3 (tail ts)) as (p' & h' & ns & E & Hr' & Ec & Hp'); [exact Hr2|lia| |].
    { cbn [repr h3 cmds]. exists p. split_and!; [by apply list_lookup_middle|by eapply repr_lt|by apply repr_app]. }
    exists p', h', ([BACK p] ++ ns). cbn [a_backs]. rewrite (proj2 (beq_eq AMP AMP)) by done. split_and!; [|done|rewrite Ec; unfold h3; cbn [cmds]; by rewrite <- app_assoc|done].
    rewrite (loop_next _ _ _ _ (List.length (cmds h)) h3); [done|]. unfold back_step.
    rewrite (bind_ok _ _ _ _ _ E1), (bind_ok _ _ _ _ _ E2). done.
  - exists p, (at_pos h s1), []. assert (a_backs c ts = (c, ts)) as ->.
    { destruct ts as [|[o|w] ts]; [done| |done]. cbn [a_backs head_is] in *. by rewrite Eh. }
    rewrite app_nil_r. split_and!; [|done..]. apply loop_exit. unfold back_step. by rewrite (bind_ok _ _ _ _ _ E1).
Qed.

Lemma line_sim n : sim (parseline n es) (a_line (S es) n).
Proof.
  induction n as [|n IH]; intros h ts Hr; [done|]. cbn [a_line].
  pose proof (pipe_sim (S n) _ _ (exec_sim _ _ IH) h ts Hr) as HA. change (parseline (S n) es) with
    (let? cmd := parsepipe (S n) (parseexec (parseline n es) es) es in
     let! cmd := loop (S es) (back_step es) cmd in
     let! b := peek es [SEMI] in
     if b then do! gettoken es in let? rest := parseline n es in Sh.total (listcmd cmd rest) else ret (inl cmd)).
  destruct (a_pipe (S n) _ ts) as [c r| |]; cbn [andthen answers] in *; [| |done].
  2:{ destruct HA as (m & h' & E). exists m, h'. by apply pbind_panic. }
  destruct HA as (p & h1 & ns1 & E1 & Hr1 & Ec1 & Hp). destruct (backs_ok (S es) p c h1 r Hr1 ltac:(apply ready_length in Hr1; lia) Hp) as (p2 & h2 & ns2 & E2 & Hr2 & Ec2 & Hp2).
  destruct (a_backs c r) as [c2 r2]. cbn [fst snd] in *.
  destruct (peek_sym h2 r2 SEMI Hr2 ltac:(right; right; right; right; left)) as (s3 & E3 & Hr3). destruct (head_is SEMI r2) eqn:Eh.
  - destruct (head_ready _ _ _ Hr3 Eh) as (q4 & e4 & s4 & E4 & Hr4). specialize (IH _ _ Hr4).
    destruct (a_line (S es) n (tail r2)) as [c5 r5| |]; cbn [andthen answers] in *; [| |done].
    + destruct IH as (p5 & h5 & ns5 & E5 & Hr5 & Ec5 & Hp5). cbn [at_pos cmds] in Ec5.
      exists (List.length (cmds h5)), (ShState (text h5) (pos h5) (cmds h5 ++ [LIST p2 p5])), (ns1 ++ ns2 ++ ns5 ++ [LIST p2 p5]). split_and!.
      * rewrite (pbind_ok _ _ _ _ _ E1), (bind_ok _ _ _ _ _ E2), (bind_ok _ _ _ _ _ E3), (bind_ok _ _ _ _ _ E4), (pbind_ok _ _ _ _ _ E5). done.
      * exact Hr5.
      * cbn [cmds]. by rewrite Ec5, Ec2, Ec1, <- !app_assoc.
      * cbn [cmds repr]. exists p2, p5. split_and!; [by apply list_lookup_middle| |by eapply repr_lt| |by apply repr_app].
        -- apply repr_lt in Hp2. rewrite Ec5, length_app. lia.
        -- rewrite Ec5, <- app_assoc. by apply repr_app.
    + destruct IH as (m & h' & E). exists m, h'. rewrite (pbind_ok _ _ _ _ _ E1), (bind_ok _ _ _ _ _ E2), (bind_ok _ _ _ _ _ E3), (bind_ok _ _ _ _ _ E4). by apply pbind_panic.
  - exists p2, (at_pos h2 s3), (ns1 ++ ns2). split_and!; [|done|cbn [at_pos cmds]; by rewrite Ec2, Ec1, <- app_assoc|done].
    by rewrite (pbind_ok _ _ _ _ _ E1), (bind_ok _ _ _ _ _ E2), (bind_ok _ _ _ _ _ E3).
Qed.

End Line.
End ShParse.
