(* ===== verification/ShSpec.v ===== *)
(** ShSpec: [parsecmd] accepts exactly the lines of the grammar, and leaves in
    memory the command of the grammar with its words as terminated strings. *)
From S2P Require Import Prelude Memory Grep Sh ShGrammar ShLex ShParse.
From Stdlib Require Import Strings.Byte Strings.String.
From stdpp Require Import list.
Local Open Scope Z_scope.

Module ShSpec.
Import Grep Sh ShGrammar ShLex ShParse.

(** * Tokens with other words *)
Fixpoint cmd_map {V W} (f : V → W) (c : cmd V) : cmd W :=
  match c with
  | Exec ws => Exec (f <$> ws)
  | Redir c w m fd => Redir (cmd_map f c) (f w) m fd
  | Pipe l r => Pipe (cmd_map f l) (cmd_map f r)
  | List l r => List (cmd_map f l) (cmd_map f r)
  | Back c => Back (cmd_map f c)
  end.

Section Map.
Context {V W : Type} (f : V → W).
Abbreviation tmap := (fmap (M := list) (tok_map f)).
Definition rmap (r : redir V) : redir W := (f r.1.1, r.1.2, r.2).
Definition pmap {A B} (g : A → B) (x : presult (W := V) A) : presult (W := W) B :=
  match x with POk _ a r => POk B (g a) (tmap r) | PErr _ => PErr B | PFuel _ => PFuel B end.

Lemma pmap_andthen {A A' B B'} (g : A → A') (g' : B → B') x k k' :
  (∀ a r, pmap g' (k a r) = k' (g a) (tmap r)) → pmap g' (andthen x k) = andthen (pmap g x) k'.
Proof. intros H. destruct x; [apply H|done..]. Qed.

Lemma wrap_map rs c : cmd_map f (wrap rs c) = wrap (rmap <$> rs) (cmd_map f c).
Proof. revert c. induction rs as [|[[w m] fd] rs IH]; intros c; [done|]. cbn. apply IH. Qed.

Lemma head_is_map o ts : head_is o (tmap ts) = head_is o ts.
Proof. by destruct ts as [|[]]. Qed.
Lemma tail_map ts : tail (tmap ts) = tmap (tail ts).
Proof. by destruct ts. Qed.

Lemma a_redirs_map ts : a_redirs (tmap ts) = pmap (fmap rmap) (a_redirs ts).
Proof.
  induction ts as [ts IH] using (induction_ltof1 _ (@List.length _)); unfold ltof in IH.
  destruct ts as [|[o|w] ts]; [done| |done]. cbn [fmap list_fmap tok_map a_redirs].
  destruct (redir_mode o) as [[m fd]|]; [|done]. destruct ts as [|[o'|w] ts]; [done..|]. cbn [fmap list_fmap tok_map].
  rewrite (IH ts) by (cbn; lia). symmetry. by apply pmap_andthen.
Qed.

Lemma a_args_map n argc ts :
  a_args n argc (tmap ts) = pmap (λ x, (f <$> x.1, rmap <$> x.2)) (a_args n argc ts).
Proof.
  revert argc ts. induction n as [|n IH]; intros argc ts; [done|]. destruct ts as [|[o|w] ts]; cbn [fmap list_fmap tok_map a_args]; [done|by destruct (in_set stop o)|].
  destruct (_ <=? _)%nat; [done|]. rewrite a_redirs_map. symmetry. apply pmap_andthen. intros rs1 r1. rewrite IH.
  apply pmap_andthen. intros [ws rs2] r2. cbn. by rewrite fmap_app.
Qed.

Lemma a_exec_map A A' n ts :
  (∀ ts, A' (tmap ts) = pmap (cmd_map f) (A ts)) → a_exec A' n (tmap ts) = pmap (cmd_map f) (a_exec A n ts).
Proof.
  intros HA. unfold a_exec. rewrite head_is_map. destruct (head_is LPAREN ts).
  - rewrite tail_map, HA. symmetry. apply pmap_andthen. intros c r. rewrite head_is_map. destruct (head_is RPAREN r); [|done].
    rewrite tail_map, a_redirs_map. apply pmap_andthen. intros rs r'. cbn. by rewrite wrap_map.
  - rewrite a_redirs_map. symmetry. apply pmap_andthen. intros rs1 r1. rewrite a_args_map. apply pmap_andthen. intros [ws rs2] r2.
    cbn. by rewrite wrap_map, fmap_app.
Qed.

Lemma a_pipe_map k A A' ts :
  (∀ ts, A' (tmap ts) = pmap (cmd_map f) (A ts)) → a_pipe k A' (tmap ts) = pmap (cmd_map f) (a_pipe k A ts).
Proof.
  intros HA. revert ts. induction k as [|k IH]; intros ts; [done|]. cbn [a_pipe]. rewrite HA. symmetry. apply pmap_andthen.
  intros c r. rewrite head_is_map. destruct (head_is BAR r); [|done]. rewrite tail_map, IH. by apply pmap_andthen.
Qed.

Lemma a_backs_map c ts : a_backs (cmd_map f c) (tmap ts) = (cmd_map f (a_backs c ts).1, tmap (a_backs c ts).2).
Proof.
  revert c. induction ts as [|[o|w] ts IH]; intros c; cbn [fmap list_fmap tok_map a_backs]; [done| |done].
  destruct (beq AMP o); [|done]. apply (IH (Back c)).
Qed.

Lemma a_line_map m n ts : a_line m n (tmap ts) = pmap (cmd_map f) (a_line m n ts).
Proof.
  revert ts. induction n as [|n IH]; intros ts; [done|]. cbn [a_line].
  rewrite (a_pipe_map _ (a_exec (a_line m n) m)) by by intros; apply a_exec_map. symmetry. apply pmap_andthen. intros c r.
  rewrite a_backs_map. destruct (a_backs c r) as [c' r']. cbn [fst snd]. rewrite head_is_map. destruct (head_is SEMI r'); [|done].
  rewrite tail_map, IH. by apply pmap_andthen.
Qed.
End Map.

(** * Enough turns *)
Section Fuel.
Context {W : Type}.
Abbreviation tokens := (list (tok W)).

Lemma andthen_fuel {A B} (x : presult (W := W) A) (k : A → tokens → presult (W := W) B) :
  x ≠ PFuel A → (∀ a r, x = POk A a r → k a r ≠ PFuel B) → andthen x k ≠ PFuel B.
Proof. destruct x; cbn; auto. Qed.

Lemma a_redirs_fuel (ts : tokens) : a_redirs ts ≠ PFuel _.
Proof.
  induction ts as [ts IH] using (induction_ltof1 _ (@List.length _)); unfold ltof in IH.
  destruct ts as [|[o|w] ts]; [done| |done]. cbn [a_redirs]. destruct (redir_mode o) as [[m fd]|]; [|done].
  destruct ts as [|[o'|w] ts]; [done..|]. apply andthen_fuel; [apply IH; cbn; lia|done].
Qed.

Lemma a_args_fuel n argc (ts : tokens) : (List.length ts < n)%nat → a_args n argc ts ≠ PFuel _.
Proof.
  revert argc ts. induction n as [|n IH]; intros argc ts Hn; [lia|]. destruct ts as [|[o|w] ts]; cbn [a_args List.length] in *; [done|by destruct (in_set stop o)|].
  destruct (_ <=? _)%nat; [done|]. apply andthen_fuel; [apply a_redirs_fuel|]. intros rs r (t & -> & _)%a_redirs_sound.
  rewrite length_app in Hn. apply andthen_fuel; [apply IH; lia|]. by intros [ws rs2] r'.
Qed.

Lemma a_exec_fuel m n (ts : tokens) :
  (∀ ts : tokens, (List.length ts < n)%nat → (List.length ts < m)%nat → a_line m n ts ≠ PFuel _) → (List.length ts ≤ n)%nat → (List.length ts < m)%nat →
  a_exec (a_line m n) m ts ≠ PFuel _.
Proof.
  intros HA Hn Hm. unfold a_exec. destruct (head_is LPAREN ts) eqn:E.
  - apply head_is_true in E. rewrite E in Hn, Hm. cbn [List.length] in Hn, Hm.
    apply andthen_fuel; [apply HA; lia|]. intros c r _.
    destruct (head_is RPAREN r); [|done]. apply andthen_fuel; [apply a_redirs_fuel|done].
  - apply andthen_fuel; [apply a_redirs_fuel|]. intros rs r (t & -> & _)%a_redirs_sound. rewrite length_app in Hm.
    apply andthen_fuel; [apply a_args_fuel; lia|]. by intros [ws rs2] r'.
Qed.

Lemma a_pipe_fuel m n k (ts : tokens) :
  (∀ ts : tokens, (List.length ts ≤ n)%nat → (List.length ts < m)%nat → a_exec (a_line m n) m ts ≠ PFuel _) →
  (List.length ts ≤ n)%nat → (List.length ts < m)%nat → (List.length ts < k)%nat →
  a_pipe k (a_exec (a_line m n) m) ts ≠ PFuel _.
Proof.
  intros HA. revert ts. induction k as [|k IH]; intros ts Hn Hm Hk; [lia|]. cbn [a_pipe]. apply andthen_fuel; [by apply HA|].
  intros c r (t & -> & _)%a_exec_sound; [|intros ???; apply a_line_sound]. rewrite length_app in *. destruct (head_is BAR r) eqn:E; [|done].
  apply head_is_true in E. rewrite E in Hn, Hm, Hk. cbn [List.length] in *. apply andthen_fuel; [apply IH; lia|done].
Qed.

Lemma a_line_fuel m n (ts : tokens) : (List.length ts < n)%nat → (List.length ts < m)%nat → a_line m n ts ≠ PFuel _.
Proof.
  revert ts. induction n as [|n IH]; intros ts Hn Hm; [lia|]. cbn [a_line].
  apply andthen_fuel; [apply a_pipe_fuel; [intros; by apply a_exec_fuel|lia..]|].
  intros c r (t & -> & _)%a_pipe_sound; [|intros ???; apply a_exec_sound; intros ???; apply a_line_sound]. rewrite length_app in *.
  destruct (a_backs c r) as [c' r'] eqn:Eb. apply a_backs_sound in Eb as (t2 & -> & _). rewrite length_app in *.
  destruct (head_is SEMI r') eqn:E; [|done]. apply head_is_true in E. rewrite E in Hn, Hm. cbn [List.length] in *.
  apply andthen_fuel; [apply IH; lia|done].
Qed.
End Fuel.

End ShSpec.
