(* ===== verification/ShStrings.v ===== *)
(** ShStrings: [nulterminate] ends every word of a command with a NUL and leaves
    the words as they are. *)
From S2P Require Import Prelude Memory Grep Sh ShGrammar ShLex ShParse ShSpec.
From Stdlib Require Import Strings.Byte.
From stdpp Require Import list.
Local Open Scope Z_scope.

Module ShStrings.
Import Grep Sh ShGrammar ShLex ShParse ShSpec.

(** The string at [q]. *)
Definition cstr (t : list byte) (q : nat) : list byte := take (strlen (drop q t)) (drop q t).

Fixpoint read_args (t : list byte) (argv : list (option nat)) : list (list byte) :=
  match argv with Some q :: argv => cstr t q :: read_args t argv | _ => [] end.

(** The command at [p], with its words as strings: what runcmd is given. *)
Fixpoint read_cmd (fuel : nat) (h : sh) (p : nat) : option (cmd (list byte)) :=
  match fuel with
  | O => None
  | S fuel =>
      n ← cmds h !! p;
      match n with
      | EXEC argv _ => Some (Exec (read_args (text h) argv))
      | REDIR q f _ m fd => c ← read_cmd fuel h q; Some (Redir c (cstr (text h) f) m fd)
      | PIPE q1 q2 => l ← read_cmd fuel h q1; r ← read_cmd fuel h q2; Some (Pipe l r)
      | LIST q1 q2 => l ← read_cmd fuel h q1; r ← read_cmd fuel h q2; Some (List l r)
      | BACK q => c ← read_cmd fuel h q; Some (Back c)
      end
  end.

(** * The words of a command *)
Fixpoint words {W} (c : cmd W) : list W :=
  match c with
  | Exec ws => ws
  | Redir c w _ _ => words c ++ [w]
  | Pipe l r | List l r => words l ++ words r
  | Back c => words c
  end.

Lemma cmd_map_ext {V W} (f g : V → W) c : (∀ w, w ∈ words c → f w = g w) → cmd_map f c = cmd_map g c.
Proof.
  induction c as [ws|c IH w m fd|l IHl r IHr|l IHl r IHr|c IH]; cbn [words cmd_map]; intros H.
  - f_equal. apply list_fmap_ext. intros i w Hw. apply H. by eapply list_elem_of_lookup_2.
  - rewrite IH by (intros; apply H, elem_of_app; by left). f_equal. apply H, elem_of_app. right. left.
  - rewrite IHl, IHr by (intros; apply H, elem_of_app; auto). done.
  - rewrite IHl, IHr by (intros; apply H, elem_of_app; auto). done.
  - by rewrite IH.
Qed.

Lemma words_wrap {W} (rs : list (redir W)) c w : w ∈ words (wrap rs c) → w ∈ words c ∨ ∃ r, r ∈ rs ∧ w = r.1.1.
Proof.
  revert c. induction rs as [|r rs IH]; intros c; [by left|]. intros [H|(r' & ? & ?)]%(IH (Redir c r.1.1 r.1.2 r.2)).
  - cbn [words] in H. rewrite elem_of_app, list_elem_of_singleton in H. destruct H; [by left|]. right. exists r. split; [left|done].
  - right. exists r'. split; [by right|done].
Qed.

Lemma g_redirs_words {W} (t : list (tok W)) rs r : g_redirs t rs → r ∈ rs → Word r.1.1 ∈ t.
Proof.
  induction 1 as [|o m fd w t rs _ _ IH]; [by intros ?%elem_of_nil|]. intros [->|Hr]%elem_of_cons; [right; left|].
  right. right. by apply IH.
Qed.

Lemma g_args_words {W} (t : list (tok W)) ws rs :
  g_args t ws rs → (∀ w, w ∈ ws → Word w ∈ t) ∧ (∀ r, r ∈ rs → Word r.1.1 ∈ t).
Proof.
  induction 1 as [|w t1 rs1 t2 ws rs2 H1 _ [IHw IHr]]; [by split; intros ? ?%elem_of_nil|]. split.
  - intros w' [->|Hw]%elem_of_cons; [left|]. right. rewrite elem_of_app. auto.
  - intros r [Hr|Hr]%elem_of_app; right; rewrite elem_of_app; [left; by eapply g_redirs_words|auto].
Qed.

(** Words come from the tokens. *)
Lemma g_line_words {W} (t : list (tok W)) c w : g_line t c → w ∈ words c → Word w ∈ t.
Proof.
  assert (∀ t c c', g_backs t c c' → words (W := W) c' = words c) as Hb by by induction 1.
  intros H. revert t c H w. refine (proj2 (proj2 (g_mutind (λ t c, ∀ w, w ∈ words c → Word w ∈ t) (λ t c, ∀ w, w ∈ words c → Word w ∈ t) (λ t c, ∀ w, w ∈ words c → Word w ∈ t) _ _ _ _ _ _))).
  - intros t1 rs1 t2 ws rs2 H1 H2 _ w [Hw|(r & Hr & ->)]%words_wrap; rewrite elem_of_app.
    + right. by apply (g_args_words _ _ _ H2).
    + apply elem_of_app in Hr as [Hr|Hr]; [left; by eapply g_redirs_words|right; by apply (g_args_words _ _ _ H2)].
  - intros t c t' rs _ IH H2 w [Hw|(r & Hr & ->)]%words_wrap; right; rewrite elem_of_app; [left; auto|].
    right. right. by eapply g_redirs_words.
  - done.
  - intros t1 c1 t2 c2 _ IH1 _ IH2 w. cbn [words]. rewrite !elem_of_app, elem_of_cons. intros [Hw|Hw]; auto.
  - intros t1 t2 c c' _ IH H2 w. rewrite (Hb _ _ _ H2), elem_of_app. auto.
  - intros t1 t2 t3 c c1 c2 _ IH H2 _ IH3 w. cbn [words]. rewrite (Hb _ _ _ H2), !elem_of_app, elem_of_cons. intros [Hw|Hw]; auto.
Qed.

(** * Terminating the words *)
Fixpoint ends (c : cmd span) : list nat :=
  match c with
  | Exec ws => ws.*2
  | Redir c w _ _ => ends c ++ [w.2]
  | Pipe l r | List l r => ends l ++ ends r
  | Back c => ends c
  end.
Definition nul_all (es : list nat) (t : list byte) : list byte := foldl (λ t e, <[e := NUL]> t) t es.

Lemma nul_all_app es1 es2 t : nul_all (es1 ++ es2) t = nul_all es2 (nul_all es1 t).
Proof. apply foldl_app. Qed.
Lemma length_nul_all es t : List.length (nul_all es t) = List.length t.
Proof. revert t. induction es as [|e es IH]; intros t; [done|]. cbn. fold (nul_all es (<[e := NUL]> t)). by rewrite IH, length_insert. Qed.

Lemma nul_all_other es t i : i ∉ es → nul_all es t !! i = t !! i.
Proof.
  revert t. induction es as [|e es IH]; intros t; [done|]. rewrite not_elem_of_cons. intros [? ?]. cbn. fold (nul_all es (<[e := NUL]> t)).
  rewrite IH by done. by rewrite list_lookup_insert_ne.
Qed.
Lemma nul_all_in es t i : i ∈ es → (i < List.length t)%nat → nul_all es t !! i = Some NUL.
Proof.
  revert t. induction es as [|e es IH]; intros t; [by intros ?%elem_of_nil|]. intros Hi Hl. cbn. fold (nul_all es (<[e := NUL]> t)).
  destruct (decide (i ∈ es)) as [|Hn]; [apply IH; [done|by rewrite length_insert]|]. rewrite nul_all_other by done.
  apply elem_of_cons in Hi as [->|]; [|done]. by apply list_lookup_insert_eq.
Qed.

Definition with_text (h : sh) (t : list byte) : sh := ShState t (pos h) (cmds h).

Lemma put_char_ok h e : (e < List.length (text h))%nat → put_char e NUL h = Ok tt (with_text h (<[e := NUL]> (text h))).
Proof.
  intros He. destruct (lookup_lt_is_Some_2 _ _ He) as [c Hc]. unfold put_char, char_at. rewrite (bind_ok _ _ h c h); [done|].
  erewrite bind_ok by done. by rewrite Hc.
Qed.

Lemma nul_args_ok ws h :
  (List.length ws < MAXARGS)%nat → Forall (λ e, e < List.length (text h))%nat ws.*2 →
  nul_args (arr fst ws) (arr snd ws) h = Ok tt (with_text h (nul_all ws.*2 (text h))).
Proof.
  intros Hl Hf. unfold nul_args. set (body := λ i : nat, _).
  assert (∀ ws1 ws0 k h, ws = ws0 ++ ws1 → (List.length ws1 < k)%nat → Forall (λ e, e < List.length (text h))%nat ws1.*2 →
    loop k body (List.length ws0) h = Ok tt (with_text h (nul_all ws1.*2 (text h)))) as H; [|by apply (H ws []); [|lia|]].
  clear h Hf. induction ws1 as [|w ws1 IH]; intros ws0 k h E Hk Hf; (destruct k as [|k]; [cbn in Hk; lia|]).
  - rewrite app_nil_r in E. subst ws0. destruct h as [t p c]. apply loop_exit. unfold body. rewrite arr_stop by done. done.
  - cbn [fmap list_fmap List.length] in *. apply Forall_cons in Hf as [He Hf].
    assert (ws !! List.length ws0 = Some w) as Hw by (rewrite E; by apply list_lookup_middle).
    rewrite (loop_next _ _ _ _ (List.length (ws0 ++ [w])) (with_text h (<[w.2 := NUL]> (text h)))).
    + rewrite (IH (ws0 ++ [w]) k) by (first [by rewrite <- app_assoc|lia|cbn [text with_text]; by rewrite length_insert]). done.
    + unfold body. rewrite (arr_lookup fst _ _ _ Hw). erewrite bind_ok by done. rewrite (arr_lookup snd _ _ _ Hw). erewrite bind_ok by done.
      erewrite bind_ok by done. rewrite (bind_ok _ _ _ _ _ (put_char_ok _ _ He)). rewrite length_app. cbn. unfold ret. do 2 f_equal. lia.
Qed.

Lemma get_cmd_ok h p n : cmds h !! p = Some n → get_cmd p h = Ok n h.
Proof. intros H. unfold get_cmd. erewrite bind_ok by done. by rewrite H. Qed.

Lemma nulterminate_ok c p fuel h :
  repr (cmds h) c p → (p < fuel)%nat → Forall (λ e, e < List.length (text h))%nat (ends c) →
  nulterminate fuel p h = Ok tt (with_text h (nul_all (ends c) (text h))).
Proof.
  revert p fuel h. induction c as [ws|c IH w m fd|l IHl r IHr|l IHl r IHr|c IH]; intros p fuel h Hr Hp Hf;
    (destruct fuel as [|fuel]; [lia|]); cbn [repr ends nulterminate] in *.
  - destruct Hr as [Hr Hl]. rewrite (bind_ok _ _ _ _ _ (get_cmd_ok _ _ _ Hr)). by apply nul_args_ok.
  - destruct Hr as (q & Hq & Hqp & Hr). rewrite (bind_ok _ _ _ _ _ (get_cmd_ok _ _ _ Hq)).
    apply Forall_app in Hf as [Hf Hw]. rewrite Forall_singleton in Hw. rewrite (bind_ok _ _ _ _ _ (IH q fuel h Hr ltac:(lia) Hf)), nul_all_app.
    rewrite put_char_ok; [done|]. cbn [text with_text]. by rewrite length_nul_all.
  - destruct Hr as (q1 & q2 & Hq & ? & ? & Hr1 & Hr2). rewrite (bind_ok _ _ _ _ _ (get_cmd_ok _ _ _ Hq)).
    apply Forall_app in Hf as [Hf1 Hf2]. rewrite (bind_ok _ _ _ _ _ (IHl q1 fuel h Hr1 ltac:(lia) Hf1)), nul_all_app.
    rewrite (IHr q2 fuel); [done|done|lia|]. cbn [text with_text]. by rewrite length_nul_all.
  - destruct Hr as (q1 & q2 & Hq & ? & ? & Hr1 & Hr2). rewrite (bind_ok _ _ _ _ _ (get_cmd_ok _ _ _ Hq)).
    apply Forall_app in Hf as [Hf1 Hf2]. rewrite (bind_ok _ _ _ _ _ (IHl q1 fuel h Hr1 ltac:(lia) Hf1)), nul_all_app.
    rewrite (IHr q2 fuel); [done|done|lia|]. cbn [text with_text]. by rewrite length_nul_all.
  - destruct Hr as (q & Hq & Hqp & Hr). rewrite (bind_ok _ _ _ _ _ (get_cmd_ok _ _ _ Hq)).
    by apply IH; [done|lia|].
Qed.

End ShStrings.
