(* ===== verification/ShCorrect.v ===== *)
(** ShCorrect: [parsecmd] as a whole: it accepts exactly the lines of the grammar,
    with the command of the grammar, and reads back what is printed. *)
From S2P Require Import Prelude Memory Grep Sh ShGrammar ShLex ShParse ShSpec ShStrings.
From Stdlib Require Import Strings.Byte Strings.String.
From stdpp Require Import list.
Local Open Scope Z_scope.

Module ShCorrect.
Import Grep Sh ShGrammar ShLex ShParse ShSpec ShStrings.

(** ** Reading a command *)
Lemma read_args_arr t ws : (List.length ws < MAXARGS)%nat → read_args t (arr fst ws) = (λ w, cstr t w.1) <$> ws.
Proof.
  intros Hl. unfold arr. assert (∃ k, MAXARGS - List.length ws = S k)%nat as [k ->] by (exists (MAXARGS - List.length ws - 1)%nat; lia).
  clear Hl. induction ws as [|w ws IH]; [done|]. cbn. f_equal. exact IH.
Qed.

Lemma read_cmd_ok h c p fuel :
  repr (cmds h) c p → (p < fuel)%nat → read_cmd fuel h p = Some (cmd_map (λ w, cstr (text h) w.1) c).
Proof.
  revert p fuel. induction c as [ws|c IH w m fd|l IHl r IHr|l IHl r IHr|c IH]; intros p fuel Hr Hp;
    (destruct fuel as [|fuel]; [lia|]); cbn [repr read_cmd cmd_map] in *.
  - destruct Hr as [-> Hl]. cbn. by rewrite read_args_arr.
  - destruct Hr as (q & -> & ? & Hr). cbn. by rewrite (IH q fuel Hr ltac:(lia)).
  - destruct Hr as (q1 & q2 & -> & ? & ? & H1 & H2). cbn. by rewrite (IHl q1 fuel H1 ltac:(lia)), (IHr q2 fuel H2 ltac:(lia)).
  - destruct Hr as (q1 & q2 & -> & ? & ? & H1 & H2). cbn. by rewrite (IHl q1 fuel H1 ltac:(lia)), (IHr q2 fuel H2 ltac:(lia)).
  - destruct Hr as (q & -> & ? & Hr). cbn. by rewrite (IH q fuel Hr ltac:(lia)).
Qed.

Lemma ends_words (c : cmd span) e : e ∈ ends c → ∃ w, w ∈ words c ∧ e = w.2.
Proof.
  induction c as [ws|c IH w m fd|l IHl r IHr|l IHl r IHr|c IH]; cbn [ends words]; rewrite ?elem_of_app.
  - intros (w & -> & ?)%list_elem_of_fmap. eauto.
  - intros [(w' & ? & ->)%IH| ->%list_elem_of_singleton]; eexists; (split; [|done]); rewrite elem_of_app, list_elem_of_singleton; auto.
  - intros [(w' & ? & ->)%IHl|(w' & ? & ->)%IHr]; eexists; (split; [|done]); rewrite elem_of_app; auto.
  - intros [(w' & ? & ->)%IHl|(w' & ? & ->)%IHr]; eexists; (split; [|done]); rewrite elem_of_app; auto.
  - done.
Qed.
Lemma words_ends (c : cmd span) w : w ∈ words c → w.2 ∈ ends c.
Proof.
  induction c as [ws|c IH w' m fd|l IHl r IHr|l IHl r IHr|c IH]; cbn [ends words]; rewrite ?elem_of_app, ?list_elem_of_singleton.
  - intros. rewrite list_elem_of_fmap. eauto.
  - intros [?| ->]; auto.
  - intros [?|?]; auto.
  - intros [?|?]; auto.
  - done.
Qed.

Lemma strlen_at l n :
  (∀ i, (i < n)%nat → ∃ c, l !! i = Some c ∧ c ≠ NUL) → l !! n = Some NUL → strlen l = n.
Proof.
  revert l. induction n as [|n IH]; intros l Hl Hn; (destruct l as [|c l]; [done|]); cbn [strlen].
  - injection Hn as ->. done.
  - destruct (Hl 0%nat ltac:(lia)) as (c' & [= <-] & Hc). assert (beq c NUL = false) as -> by by apply bool_decide_eq_false.
    f_equal. apply IH; [|done]. intros i Hi. apply (Hl (S i)). lia.
Qed.

Section Line.
Context (line rest : list byte).
Hypothesis line_chars : Forall (λ c, c ≠ NUL) line.
Abbreviation es := (List.length line).

Definition word_at (w : span) : Prop := token_at line w.1 (Word w) w.2.

Lemma stream_words s ts w : stream line s ts → Word w ∈ ts → word_at w.
Proof.
  induction 1 as [|s t e ts Hs Ht _ IH]; [by intros ?%elem_of_nil|]. intros [<-|Hw]%elem_of_cons; [|auto].
  inversion Ht; subst. exact Ht.
Qed.

(** The characters of a word, and the one after it. *)
Lemma word_chars w i : word_at w → (w.1 ≤ i < w.2)%nat → ∃ c, line !! i = Some c ∧ is_word c = true.
Proof.
  intros Hw Hi. pose proof (token_end _ _ _ _ Hw). destruct w as [q e]. inversion Hw as [| | |c Hc Hwc E1 E2]; subst. cbn [fst snd] in *.
  pose proof (span_len_take is_word (drop q line)) as HF. unfold skipped in *.
  destruct (lookup_lt_is_Some_2 line i) as [d Hd]; [lia|]. exists d. split; [done|].
  eapply (Forall_lookup_1 _ _ (i - q)%nat d HF). rewrite lookup_take_lt by lia. rewrite lookup_drop. by replace (q + (i - q))%nat with i by lia.
Qed.
Lemma word_end w c : word_at w → line !! w.2 = Some c → is_word c = false.
Proof.
  intros Hw. destruct w as [q e]. inversion Hw as [| | |c' Hc Hwc E1 E2]; subst. cbn [fst snd]. intros H.
  apply (span_len_stop is_word (drop q line)). rewrite lookup_drop. exact H.
Qed.

(** The ends of words are outside of all words. *)
Lemma word_end_outside w w' : word_at w → word_at w' → ¬ (w'.1 ≤ w.2 < w'.2)%nat.
Proof.
  intros Hw Hw' Hi. destruct (word_chars w' _ Hw' Hi) as (c & Hc & E). apply word_end in Hc; [congruence|done].
Qed.

Lemma cstr_word (c : cmd span) w :
  (∀ w, w ∈ words c → word_at w) → w ∈ words c → cstr (nul_all (ends c) (line ++ NUL :: rest)) w.1 = slice line w.
Proof.
  intros Hc Hw. pose proof (Hc w Hw) as Hww. pose proof (token_end _ _ _ _ Hww) as He. set (t := nul_all _ _).
  assert (∀ i, (w.1 ≤ i < w.2)%nat → t !! i = line !! i) as Ht.
  { intros i Hi. unfold t. rewrite nul_all_other; [by apply lookup_app_l; lia|]. intros (w' & Hw' & ->)%ends_words.
    by apply (word_end_outside w' w (Hc w' Hw') Hww). }
  assert (strlen (drop w.1 t) = (w.2 - w.1)%nat) as El.
  { apply strlen_at.
    - intros i Hi. rewrite lookup_drop, Ht by lia. destruct (word_chars w (w.1 + i) Hww ltac:(lia)) as (d & Hd & _).
      exists d. split; [done|]. by eapply (Forall_lookup_1 _ _ _ _ line_chars).
    - rewrite lookup_drop. replace (w.1 + (w.2 - w.1))%nat with w.2 by lia. apply nul_all_in; [by apply words_ends|].
      rewrite length_app. cbn. lia. }
  unfold cstr. rewrite El. unfold slice. apply list_eq. intros i. destruct (decide (i < w.2 - w.1)%nat).
  - rewrite !lookup_take_lt, !lookup_drop by lia. apply Ht. lia.
  - rewrite !lookup_take_ge by lia. done.
Qed.

Lemma strlen_line : strlen (line ++ NUL :: rest) = es.
Proof.
  apply strlen_at; [|by apply list_lookup_middle]. intros i Hi. destruct (lookup_lt_is_Some_2 line i Hi) as [c Hc].
  exists c. rewrite lookup_app_l by done. split; [done|]. by eapply (Forall_lookup_1 _ _ _ _ line_chars).
Qed.

(** The last [peek] of [parsecmd] comes to the end of the line when no token is left. *)
Lemma peek_end h ts : ready line rest h ts → ∃ s, peek es [] h = Ok false (at_pos h s) ∧ ready line rest (at_pos h s) ts ∧ (s = es ↔ ts = []).
Proof.
  intros [Ht Hs]. exists (skipped line is_ws (pos h)). split; [|split; [split; [done|by apply stream_skip]|]].
  - unfold peek. erewrite bind_ok by done. rewrite (bind_ok _ _ _ _ _ (skip_ok line rest line_chars is_ws (pos h) h Ht (stream_le _ _ _ Hs))).
    erewrite bind_ok by apply set_pos_ok. pose proof (skipped_le line is_ws (pos h) (stream_le _ _ _ Hs)).
    destruct (decide (skipped line is_ws (pos h) = es)) as [E|].
    + rewrite E. by rewrite (bind_ok _ _ _ _ _ (char_end line rest (at_pos h es) Ht)).
    + destruct (char_in line rest line_chars (at_pos h (skipped line is_ws (pos h))) (skipped line is_ws (pos h)) Ht ltac:(lia)) as (c & _ & E & _).
      rewrite (bind_ok _ _ _ _ _ E). unfold in_set. cbn [strchr]. by rewrite andb_false_r.
  - inversion Hs as [s Hle E|s t e ts' Hle Hat _]; subst; [done|]. apply token_end in Hat. split; [lia|done].
Qed.

Lemma parsecmd_spec h :
  text h = line ++ NUL :: rest →
  match parsecmd h with
  | Ok (inl p) h' => ∃ c, g_line (lex [] line) c ∧ read_cmd (List.length (cmds h')) h' p = Some c
  | Ok (inr _) _ => ∀ c, ¬ g_line (lex [] line) c
  | Fault => False
  end.
Proof.
  intros Ht. destruct (stream_exists line line_chars 0 ltac:(lia)) as [ts Hs]. pose proof (stream_lex line line_chars 0 ts Hs) as Hlex. change (drop 0 line) with line in Hlex.
  pose proof (stream_length _ _ _ Hs) as Hlen. assert (ready line rest (at_pos h 0) ts) as Hr by done.
  assert (∀ c, g_line (lex [] line) c ↔ ∃ c', a_line (S es) (es + 2) ts = POk _ c' [] ∧ c = cmd_map (slice line) c') as Hg.
  { intros c. rewrite <- Hlex, <- (a_line_iff _ c (S es) (es + 2)) by (rewrite length_fmap; lia). rewrite a_line_map.
    destruct (a_line (S es) (es + 2) ts) as [c' r| |]; cbn [pmap]; [|naive_solver..]. split.
    - intros [= <- ->%fmap_nil_inv]. eauto.
    - intros (? & [= -> ->] & ->). done. }
  unfold parsecmd. erewrite bind_ok by done. rewrite Ht, strlen_line. erewrite bind_ok by apply set_pos_ok.
  pose proof (line_sim line rest line_chars (es + 2) _ _ Hr) as HA. pose proof (a_line_fuel (S es) (es + 2) ts ltac:(lia) ltac:(lia)) as Hf.
  destruct (a_line (S es) (es + 2) ts) as [c r| |] eqn:Ea; cbn [answers] in HA; [| |done].
  2:{ destruct HA as (m & h' & E). rewrite (pbind_panic _ _ _ _ _ E). intros c (c' & ? & _)%Hg. done. }
  destruct HA as (p & h1 & ns & E1 & Hr1 & Ec & Hp). rewrite (pbind_ok _ _ _ _ _ E1).
  destruct (peek_end h1 r Hr1) as (s & E2 & Hr2 & Hend). rewrite (bind_ok _ _ _ _ _ E2). erewrite bind_ok by done. cbn [pos at_pos].
  destruct (Nat.eqb_spec s es) as [Es|Es]; cbn [negb].
  2:{ intros c0 (c' & [= _ ->] & _)%Hg. by apply Es, Hend. }
  apply Hend in Es as ->. erewrite bind_ok by done. cbn [cmds at_pos].
  assert (∀ w, w ∈ words c → word_at w) as Hw.
  { intros w Hw. eapply stream_words; [exact Hs|]. apply a_line_sound in Ea as (t & -> & Hgl). rewrite app_nil_r. by eapply g_line_words. }
  assert (text h1 = line ++ NUL :: rest) as Ht1 by apply Hr1.
  rewrite (bind_ok _ _ _ _ _ (nulterminate_ok c p (List.length (cmds h1)) (at_pos h1 s) Hp ltac:(by eapply repr_lt)
    ltac:(apply Forall_forall; intros e (w & Hin & ->)%ends_words; cbn [text at_pos]; rewrite Ht1, length_app; cbn; pose proof (token_end _ _ _ _ (Hw w Hin)); lia))).
  exists (cmd_map (slice line) c). split; [apply Hg; eauto|].
  rewrite (read_cmd_ok (with_text (at_pos h1 s) _) c p) by (try done; cbn; by eapply repr_lt). f_equal.
  apply cmd_map_ext. intros w Hin. cbn [text with_text at_pos]. rewrite Ht1. by apply cstr_word.
Qed.

(** C37: For a line without NUL, [parsecmd] returns a command exactly when the grammar has
    one for the tokens of the line; the command in memory is that command, with its
    words as strings; otherwise the shell panics.  It always ends. *)
Theorem parsecmd_correct h :
  text h = line ++ NUL :: rest →
  match parsecmd h with
  | Ok (inl p) h' => ∃ c, g_line (lex [] line) c ∧ read_cmd (List.length (cmds h')) h' p = Some c
  | Ok (inr _) _ => ∀ c, ¬ g_line (lex [] line) c
  | Fault => False
  end.
Proof. apply parsecmd_spec. Qed.

End Line.

(** * Printing *)
Definition paren (b : bool) {W} (t : list (tok W)) : list (tok W) := if b then Sym LPAREN :: t ++ [Sym RPAREN] else t.
Definition redir_sym (fd : Z) : byte := if fd =? 0 then LT else GT.

(** The tokens of a command; [b]: it must be a simple command or in parentheses. *)
Fixpoint toks {W} (b : bool) (c : cmd W) : list (tok W) :=
  match c with
  | Exec ws => Word <$> ws
  | Redir c w _ fd => toks true c ++ [Sym (redir_sym fd); Word w]
  | Pipe l r => paren b (toks true l ++ Sym BAR :: toks true r)
  | List l r => paren b (toks true l ++ Sym SEMI :: toks true r)
  | Back c => paren b (toks true c ++ [Sym AMP])
  end.

(** Commands that can be written: at most 9 words, and the modes that the parser uses. *)
Fixpoint writable {W} (c : cmd W) : Prop :=
  match c with
  | Exec ws => (List.length ws < MAXARGS)%nat
  | Redir c _ m fd => writable c ∧ (m = O_RDONLY ∧ fd = 0 ∨ m = Z.lor O_WRONLY O_CREATE ∧ fd = 1)
  | Pipe l r | List l r => writable l ∧ writable r
  | Back c => writable c
  end.

Section Print.
Context {W : Type}.

Lemma g_redirs_snoc (t : list (tok W)) rs o m fd w :
  g_redirs t rs → redir_mode o = Some (m, fd) → g_redirs (t ++ [Sym o; Word w]) (rs ++ [(w, m, fd)]).
Proof. intros H Ho. induction H; cbn; constructor; try done. constructor. Qed.

Lemma g_args_snoc (t : list (tok W)) ws rs o m fd w :
  g_args t ws rs → t ≠ [] → redir_mode o = Some (m, fd) → g_args (t ++ [Sym o; Word w]) ws (rs ++ [(w, m, fd)]).
Proof.
  intros H Ht Ho. induction H as [|w' t1 rs1 t2 ws rs2 H1 H2 IH]; [done|]. cbn [app]. destruct H2 as [|w2 t3 rs3 t4 ws' rs4 H3 H4].
  - rewrite !app_nil_r. rewrite <- (app_nil_r (t1 ++ _)), <- (app_nil_r (rs1 ++ _)). constructor; [by apply g_redirs_snoc|constructor].
  - rewrite <- (app_assoc t1), <- (app_assoc rs1). constructor; [done|]. by apply IH.
Qed.

Lemma g_exec_snoc (t : list (tok W)) c o m fd w :
  g_exec t c → redir_mode o = Some (m, fd) → g_exec (t ++ [Sym o; Word w]) (Redir c w m fd).
Proof.
  intros [t1 rs1 t2 ws rs2 H1 H2 Hl|t' c' t'' rs H1 H2] Ho.
  - change (Redir (wrap (rs1 ++ rs2) (Exec ws)) w m fd) with (wrap [(w, m, fd)] (wrap (rs1 ++ rs2) (Exec ws))).
    rewrite <- wrap_app, <- !app_assoc. destruct t2 as [|x t2].
    + inversion H2; subst. cbn [app].
      replace (t1 ++ [Sym o; Word w]) with ((t1 ++ [Sym o; Word w]) ++ []) by apply app_nil_r.
      replace (rs1 ++ [(w, m, fd)]) with ((rs1 ++ [(w, m, fd)]) ++ []) by apply app_nil_r.
      constructor; [by apply g_redirs_snoc|constructor|done].
    + constructor; [done|by apply g_args_snoc|done].
  - change (Redir (wrap rs c') w m fd) with (wrap [(w, m, fd)] (wrap rs c')). rewrite <- wrap_app. cbn [app]. rewrite <- app_assoc. cbn [app].
    constructor; [done|by apply g_redirs_snoc].
Qed.

Lemma g_args_words_only (ws : list W) : g_args (Word <$> ws) ws [].
Proof. induction ws as [|w ws IH]; [constructor|]. cbn [fmap list_fmap].
  exact (g_args_cons w [] [] (Word <$> ws) ws [] g_redirs_nil IH).
Qed.

Lemma line_of_exec (t : list (tok W)) c : g_exec t c → g_line t c.
Proof. intros H. rewrite <- (app_nil_r t). econstructor; [by constructor|constructor]. Qed.

Lemma exec_of_line (t : list (tok W)) c : g_line t c → g_exec (paren true t) c.
Proof. intros H. apply (g_exec_block t c [] []); [done|constructor]. Qed.

Lemma toks_ok (c : cmd W) : writable c → g_exec (toks true c) c ∧ g_line (toks false c) c.
Proof.
  assert (∀ t c, g_line t c → g_exec (paren true t) c ∧ g_line (W := W) (paren false t) c) as Hparen.
  { intros t c' H. split; [by apply exec_of_line|done]. }
  induction c as [ws|c IH w m fd|l IHl r IHr|l IHl r IHr|c IH]; cbn [toks writable]; intros Hw.
  - assert (g_exec (Word <$> ws) (Exec ws)) as H; [|split; [done|by apply line_of_exec]].
    exact (g_exec_args [] [] (Word <$> ws) ws [] g_redirs_nil (g_args_words_only ws) Hw).
  - destruct Hw as [Hc Hm]. destruct (IH Hc) as [He _].
    assert (g_exec (toks true c ++ [Sym (redir_sym fd); Word w]) (Redir c w m fd)) as H; [|split; [done|by apply line_of_exec]].
    apply g_exec_snoc; [done|]. by destruct Hm as [[-> ->]|[-> ->]].
  - destruct Hw as [Hl Hr]. destruct (IHl Hl) as [El _], (IHr Hr) as [Er _]. apply Hparen.
    rewrite <- (app_nil_r (_ ++ _ :: _)). econstructor; [|constructor]. constructor; [done|by constructor].
  - destruct Hw as [Hl Hr]. destruct (IHl Hl) as [El _], (IHr Hr) as [Er _]. apply Hparen.
    apply (g_line_more (toks true l) [] (toks true r) l l r); [by constructor|constructor|by apply line_of_exec].
  - destruct (IH Hw) as [Ec _]. apply Hparen. econstructor; [by constructor|]. constructor. constructor.
Qed.
End Print.

(** ** Characters *)
Definition show_tok (t : tok (list byte)) : list byte :=
  match t with Sym c => if beq c PLUS then [GT; GT] else [c] | Word w => w end.
Definition show (ts : list (tok (list byte))) : list byte := concat ((λ t, x20 :: show_tok t) <$> ts).

(** A word can be written when it has no white space, symbols or NUL. *)
Definition plain (w : list byte) : Prop := w ≠ [] ∧ Forall (λ c, is_word c = true ∧ c ≠ NUL) w.
Definition tok_ok (t : tok (list byte)) : Prop :=
  match t with Sym c => in_set single c = true ∨ c = GT ∨ c = PLUS | Word w => plain w end.

Lemma show_chars ts : Forall tok_ok ts → Forall (λ c, c ≠ NUL) (show ts).
Proof.
  unfold show. induction 1 as [|t ts Ht _ IH]; [constructor|]. cbn [fmap list_fmap concat]. apply Forall_app. split; [|done]. constructor; [done|].
  destruct t as [c|w]; cbn [tok_ok show_tok] in *.
  - destruct (beq c PLUS); repeat constructor; try done. destruct Ht as [H|[->| ->]]; [|done..].
    intros ->. by apply single_symbol in H as (_ & ? & _).
  - destruct Ht as [_ Ht]. eapply Forall_impl; [exact Ht|]. naive_solver.
Qed.

Lemma lex_space l : lex [] (x20 :: l) = lex [] l.
Proof. done. Qed.

Lemma show_stops ts : span_len is_word (show ts) = O.
Proof. by destruct ts. Qed.

Lemma lex_show ts : Forall tok_ok ts → lex [] (show ts) = ts.
Proof.
  induction 1 as [|t ts Ht Hts IH]; [done|]. change (show (t :: ts)) with (x20 :: show_tok t ++ show ts). rewrite lex_space.
  pose proof (show_chars ts Hts) as Hc. destruct t as [c|w]; cbn [tok_ok show_tok] in *.
  - destruct Ht as [H|[->| ->]].
    + destruct (single_symbol c H) as (Hw & _ & _ & Hp & _). assert (beq c PLUS = false) as -> by by apply bool_decide_eq_false.
      cbn [app lex flush]. by rewrite Hw, H, IH.
    + change (beq GT PLUS) with false. cbn [app lex flush]. change (is_ws GT) with false. change (in_set single GT) with false. change (beq GT GT) with true. cbv iota.
      destruct (show ts) as [|d l] eqn:E; [by rewrite <- IH|]. assert (d = x20) as -> by (destruct ts; [done|by injection E]). by rewrite IH.
    + change (beq PLUS PLUS) with true. cbn [app lex flush]. change (is_ws GT) with false. change (in_set single GT) with false. change (beq GT GT) with true. cbv iota. by rewrite IH.
  - destruct Ht as [Hne Ht]. assert (span_len is_word (w ++ show ts) = List.length w) as El.
    { clear Hne IH. induction Ht as [|c w [Hw _] _ IHw]; [apply show_stops|]. cbn [app span_len List.length]. by rewrite Hw, IHw. }
    assert (Forall (λ c, c ≠ NUL) (w ++ show ts)) as HF by (apply Forall_app; split; [eapply Forall_impl; [exact Ht|naive_solver]|done]).
    rewrite lex_word, El, take_app_length, drop_app_length by done. cbn [app]. rewrite lex_flush by (done || apply show_stops). by rewrite IH.
Qed.

Lemma toks_plain b (c : cmd (list byte)) : (∀ w, w ∈ words c → plain w) → Forall tok_ok (toks b c).
Proof.
  assert (∀ b t, Forall tok_ok t → Forall tok_ok (paren b t)) as Hp.
  { intros [] t H; [|done]. constructor; [by left|]. apply Forall_app. split; [done|]. constructor; [by left|constructor]. }
  revert b. induction c as [ws|c IH w m fd|l IHl r IHr|l IHl r IHr|c IH]; intros b; cbn [words toks]; intros Hw.
  - apply Forall_fmap, Forall_forall. intros w ?. by apply Hw.
  - apply Forall_app. split; [apply IH; intros; apply Hw, elem_of_app; by left|]. constructor; [|constructor; [|constructor]].
    + unfold redir_sym. destruct (fd =? 0); cbn [tok_ok]; auto.
    + apply Hw, elem_of_app. right. left.
  - apply Hp, Forall_app. split; [apply IHl; intros; apply Hw, elem_of_app; by left|]. constructor; [by left|]. apply IHr. intros; apply Hw, elem_of_app; by right.
  - apply Hp, Forall_app. split; [apply IHl; intros; apply Hw, elem_of_app; by left|]. constructor; [by left|]. apply IHr. intros; apply Hw, elem_of_app; by right.
  - apply Hp, Forall_app. split; [by apply IH|]. repeat constructor.
Qed.

(** The grammar has at most one command for a list of tokens. *)
Lemma g_line_unique {W} (ts : list (tok W)) c1 c2 : g_line ts c1 → g_line ts c2 → c1 = c2.
Proof.
  intros H1 H2. apply (a_line_iff ts c1 (S (List.length ts)) (S (List.length ts)) ltac:(lia) ltac:(lia)) in H1.
  apply (a_line_iff ts c2 (S (List.length ts)) (S (List.length ts)) ltac:(lia) ltac:(lia)) in H2. congruence.
Qed.

(** C38: A command that is printed and parsed is the same command. *)
Theorem print_parse_roundtrip (c : cmd (list byte)) rest h :
  writable c → (∀ w, w ∈ words c → plain w) → text h = show (toks false c) ++ NUL :: rest →
  ∃ p h', parsecmd h = Ok (inl p) h' ∧ read_cmd (List.length (cmds h')) h' p = Some c.
Proof.
  intros Hc Hw Ht. pose proof (toks_plain false c Hw) as Hok. pose proof (proj2 (toks_ok c Hc)) as Hg.
  pose proof (parsecmd_spec _ rest (show_chars _ Hok) h Ht) as HP. rewrite (lex_show _ Hok) in HP.
  destruct (parsecmd h) as [[p|m] h'|]; [|by destruct (HP c)|done]. destruct HP as (c' & Hg' & Hr).
  rewrite (g_line_unique _ _ _ Hg Hg'). by exists p, h'.
Qed.

(** * A line *)
Definition line0 : list byte := list_byte_of_string "ls -l >a | (wc; x&) >>c"%string.
Definition sh0 : sh := ShState (line0 ++ replicate 20 NUL) 0 [].
Definition word_of (s : string) : list byte := list_byte_of_string s.
Definition cmd0 : cmd (list byte) :=
  Pipe (Redir (Exec [word_of "ls"; word_of "-l"]) (word_of "a") 0x201 1)
       (Redir (List (Exec [word_of "wc"]) (Back (Exec [word_of "x"]))) (word_of "c") 0x201 1).

Lemma line0_chars : Forall (λ c, c ≠ NUL) line0.
Proof. apply (bool_decide_unpack _). vm_compute. exact I. Qed.

Lemma parsecmd_correct_witness : ∃ p h', parsecmd sh0 = Ok (inl p) h' ∧ ∃ c, g_line (lex [] line0) c ∧ read_cmd (List.length (cmds h')) h' p = Some c.
Proof.
  assert (match parsecmd sh0 with Ok (inl _) _ => true | _ => false end = true) as E by (vm_compute; reflexivity).
  pose proof (parsecmd_correct line0 (replicate 19 NUL) line0_chars sh0 eq_refl) as H.
  destruct (parsecmd sh0) as [[p|m] h'|]; [|discriminate E..]. by exists p, h'.
Defined.

Example parse_line0 : match parsecmd sh0 with Ok (inl p) h => read_cmd 20 h p | _ => None end = Some cmd0.
Proof. vm_compute. reflexivity. Qed.

Definition sh1 : sh := ShState (show (toks false cmd0) ++ [NUL]) 0 [].

Lemma print_parse_roundtrip_witness : ∃ p h', parsecmd sh1 = Ok (inl p) h' ∧ read_cmd (List.length (cmds h')) h' p = Some cmd0.
Proof.
  apply (print_parse_roundtrip cmd0 [] sh1).
  - unfold cmd0. cbn [writable List.length]. unfold MAXARGS. repeat split; first [lia|by right].
  - intros w Hw. cbn in Hw. rewrite !elem_of_cons, elem_of_nil in Hw.
    destruct Hw as [->|[->|[->|[->|[->|[->|[]]]]]]]; (split; [done|]); repeat (constructor; [done|]); constructor.
  - reflexivity.
Defined.

End ShCorrect.
