(* ===== verification/ShRun.v ===== *)
(** ShRun: how the shell runs a command (runcmd in p4/xv6-public/sh.c): the system
    calls it makes, and the programs it starts with their descriptors. *)
From S2P Require Import Prelude Memory Grep Sh ShGrammar.
From Stdlib Require Import Strings.Byte Strings.String.
From stdpp Require Import gmap.
Local Open Scope Z_scope.

Module ShRun.
Import Grep Sh ShGrammar.

(** The system calls of a process, up to its exit.  A call that can fail has the
    program for both cases. *)
Inductive prog :=
| Exit
| Execute (argv : list (list byte)) (failed : prog)
| Print (fd : nat) (failed_call : string) (name : list byte) (k : prog)
| Close (fd : nat) (k : prog)
| Open (file : list byte) (mode : Z) (k failed : prog)
| MkPipe (k : nat → nat → prog) (failed : prog)
| Dup (fd : nat) (k : prog)
| Fork (child parent failed : prog)
| Wait (k : prog).

(** [panic] *)
Definition panicked (s : string) : prog := Print 2 s [] Exit.
(** [fork1]: [child] when it answers 0. *)
Definition fork1 (child parent : prog) : prog := Fork child parent (panicked "fork"%string).

(** [void runcmd(struct cmd *cmd)] *)
Fixpoint runcmd (c : cmd (list byte)) : prog :=
  match c with
  | Exec [] => Exit
  | Exec (arg0 :: args) => Execute (arg0 :: args) (Print 2 "exec failed"%string arg0 Exit)
  | Redir c file mode fd =>
      Close (Z.to_nat fd)
        (Open file mode (runcmd c) (Print 2 "open failed"%string file Exit))
  | List l r => fork1 (runcmd l) (Wait (runcmd r))
  | Pipe l r =>
      MkPipe (λ p0 p1,
        fork1 (Close 1 (Dup p1 (Close p0 (Close p1 (runcmd l)))))
        (fork1 (Close 0 (Dup p0 (Close p0 (Close p1 (runcmd r)))))
        (Close p0 (Close p1 (Wait (Wait Exit))))))
        (panicked "pipe"%string)
  | Back c => fork1 (runcmd c) Exit
  end.

(** * What the calls do *)

(** What a descriptor stands for: a file with its mode, an end of a pipe, or
    something the process had from the start. *)
Inductive obj := File (name : list byte) (mode : Z) | ReadEnd (n : nat) | WriteEnd (n : nat) | Given (n : nat).
Abbreviation fds := (gmap nat obj).
Definition NOFILE : nat := 16.

(** The lowest free descriptor. *)
Definition lowest (t : fds) : option nat := list_find (λ i, t !! i = None) (seq 0 NOFILE) ≫= λ x, Some x.2.

(** What processes do that others can see: one becomes a program, waits for a child
    to end, or exits; each with its descriptors at that time and the number of its
    children that it has not waited for. *)
Inductive event :=
| Starts (argv : list (list byte)) (t : fds) (children : nat)
| Waits (t : fds) (children : nat)
| Exits (t : fds) (children : nat).

(** The events of a process and of its children when fork, exec and open of existing
    files succeed: those of a child come where the process forks it.  [n]: the pipes
    made before; [k]: the children of the process. *)
Fixpoint events (p : prog) (t : fds) (n k : nat) : list event * nat :=
  match p with
  | Exit => ([Exits t k], n)
  | Execute argv _ => ([Starts argv t k], n)
  | Print _ _ _ p => events p t n k
  | Close fd p => events p (delete fd t) n k
  | Open f m p failed => match lowest t with Some fd => events p (<[fd := File f m]> t) n k | None => events failed t n k end
  | MkPipe p failed =>
      match lowest t with
      | Some p0 =>
          match lowest (<[p0 := ReadEnd n]> t) with
          | Some p1 => events (p p0 p1) (<[p1 := WriteEnd n]> (<[p0 := ReadEnd n]> t)) (S n) k
          | None => events failed t n k
          end
      | None => events failed t n k
      end
  | Dup fd p =>
      match t !! fd, lowest t with
      | Some o, Some new => events p (<[new := o]> t) n k
      | _, _ => events p t n k
      end
  | Fork child parent _ =>
      let (a, n) := events child t n 0 in
      let (b, n) := events parent t n (S k) in (a ++ b, n)
  | Wait p => let (a, n) := events p t n (k - 1) in (Waits t k :: a, n)
  end.

(** * What a command means *)

(** The events of a command: a redirection replaces one descriptor; a pipe connects
    descriptor 1 of its left side to descriptor 0 of its right side, and the shell
    that made it waits for both and ends, with the descriptors it had before, none of
    the pipe among them; a list waits for its left side before its right side; a
    command in the background is not waited for. *)
Fixpoint plan (c : cmd (list byte)) (t : fds) (n k : nat) : list event * nat :=
  match c with
  | Exec [] => ([Exits t k], n)
  | Exec ws => ([Starts ws t k], n)
  | Redir c file mode fd => plan c (<[Z.to_nat fd := File file mode]> t) n k
  | Pipe l r =>
      let (a, n') := plan l (<[1%nat := WriteEnd n]> t) (S n) 0 in
      let (b, n') := plan r (<[0%nat := ReadEnd n]> t) n' 0 in
      (a ++ b ++ [Waits t (k + 2); Waits t (k + 1); Exits t k], n')
  | List l r =>
      let (a, n) := plan l t n 0 in
      let (b, n) := plan r t n k in (a ++ Waits t (k + 1) :: b, n)
  | Back c => let (a, n) := plan c t n 0 in (a ++ [Exits t (k + 1)], n)
  end.

(** Standard descriptors are open, and two more are free. *)
Definition usual (t : fds) : Prop :=
  is_Some (t !! 0%nat) ∧ is_Some (t !! 1%nat) ∧ is_Some (t !! 2%nat) ∧ t !! 3%nat = None ∧ t !! 4%nat = None.

(** Redirections of descriptors 0 and 1, as the parser makes them. *)
Fixpoint redirs_std (c : cmd (list byte)) : Prop :=
  match c with
  | Exec _ => True
  | Redir c _ _ fd => redirs_std c ∧ (fd = 0 ∨ fd = 1)
  | Pipe l r | List l r => redirs_std l ∧ redirs_std r
  | Back c => redirs_std c
  end.

Lemma lowest_first t k : (k < NOFILE)%nat → (∀ i, (i < k)%nat → is_Some (t !! i)) → t !! k = None → lowest t = Some k.
Proof.
  intros Hk Hs Hn. unfold lowest. rewrite (proj2 (list_find_Some _ _ k k)); [done|].
  split; [by apply lookup_seq|]. split; [done|]. intros j y [-> ?]%lookup_seq Hj Hnone. destruct (Hs (0 + j)%nat ltac:(lia)) as [o Ho]. congruence.
Qed.

Lemma usual_insert t i o : usual t → (i < 3)%nat → usual (<[i := o]> t).
Proof.
  intros (H0 & H1 & H2 & H3 & H4) Hi. unfold usual. rewrite !lookup_insert_is_Some', (lookup_insert_ne t i 3%nat), (lookup_insert_ne t i 4%nat) by lia.
  auto 6.
Qed.

Lemma events_dup fd p t n k o new :
  t !! fd = Some o → lowest t = Some new → events (Dup fd p) t n k = events p (<[new := o]> t) n k.
Proof. cbn [events]. by intros -> ->. Qed.

Lemma events_fork a b f t n k :
  events (Fork a b f) t n k = (let (x, n) := events a t n 0 in let (y, n) := events b t n (S k) in (x ++ y, n)).
Proof. done. Qed.

Lemma events_pipe p f t n k p0 p1 :
  lowest t = Some p0 → lowest (<[p0 := ReadEnd n]> t) = Some p1 →
  events (MkPipe p f) t n k = events (p p0 p1) (<[p1 := WriteEnd n]> (<[p0 := ReadEnd n]> t)) (S n) k.
Proof. cbn [events]. by intros -> ->. Qed.

(** After the close of a standard descriptor, it is the lowest free one. *)
Lemma lowest_closed t i : (i < 3)%nat → (∀ j, (j < i)%nat → is_Some (t !! j)) → lowest (delete i t) = Some i.
Proof.
  intros Hi Ht. apply lowest_first; [unfold NOFILE; lia| |apply lookup_delete_eq].
  intros j Hj. rewrite lookup_delete_ne by lia. by apply Ht.
Qed.

(** One side of a pipe: descriptor [i] becomes the end at [p], and the two
    descriptors of the pipe are closed. *)
Lemma events_side t i p q m k o r w :
  usual t → (i < 2)%nat → (p = 3 ∧ o = r ∨ p = 4 ∧ o = w)%nat →
  events (Close i (Dup p (Close 3 (Close 4 q)))) (<[4%nat := w]> (<[3%nat := r]> t)) m k = events q (<[i := o]> t) m k.
Proof.
  intros (H0 & H1 & H2 & H3 & H4) Hi Hp. set (t2 := <[4%nat := w]> (<[3%nat := r]> t)).
  assert (t2 !! p = Some o) as Hpo.
  { unfold t2. destruct Hp as [[-> ->]|[-> ->]]; [rewrite lookup_insert_ne by lia|]; apply lookup_insert_eq. }
  assert (∀ j, (j < 2)%nat → t2 !! j = t !! j) as Ht2 by (intros j Hj; unfold t2; rewrite !lookup_insert_ne by lia; done).
  change (events (Close i (Dup p (Close 3 (Close 4 q)))) t2 m k) with (events (Dup p (Close 3 (Close 4 q))) (delete i t2) m k).
  rewrite (events_dup p _ _ _ _ o i); [|rewrite lookup_delete_ne; [done|lia]|].
  2:{ apply lowest_closed; [lia|]. intros j Hj. rewrite Ht2 by lia. assert (j = 0%nat) as -> by lia. done. }
  cbn [events]. f_equal. apply map_eq. intros j. rewrite insert_delete_eq. unfold t2.
  destruct (decide (j = 4%nat)) as [->|]; [rewrite lookup_delete_eq, lookup_insert_ne by lia; done|]. rewrite lookup_delete_ne by done.
  destruct (decide (j = 3%nat)) as [->|]; [rewrite lookup_delete_eq, lookup_insert_ne by lia; done|]. rewrite lookup_delete_ne by done.
  destruct (decide (j = i)) as [->|]; [by rewrite !lookup_insert_eq|]. by rewrite !lookup_insert_ne by done.
Qed.

(** The shell that made the pipe closes both ends. *)
Lemma close_both t r w : usual t → delete 4%nat (delete 3%nat (<[4%nat := w]> (<[3%nat := r]> t))) = t.
Proof.
  intros (_ & _ & _ & H3 & H4). apply map_eq. intros j.
  destruct (decide (j = 4%nat)) as [->|]; [by rewrite lookup_delete_eq|]. rewrite lookup_delete_ne by done.
  destruct (decide (j = 3%nat)) as [->|]; [by rewrite lookup_delete_eq|]. by rewrite lookup_delete_ne, !lookup_insert_ne by done.
Qed.

(** C39: The shell runs a command as planned, when its fork, pipe and open calls succeed:
    it starts the programs of the command, each with exactly the descriptors that the
    command gives it, and waits for the parts of a pipe or a list.  No process but the
    two sides of a pipe has an end of it when it waits, exits or becomes a program. *)
Theorem runcmd_starts_plan c t n k : usual t → redirs_std c → events (runcmd c) t n k = plan c t n k.
Proof.
  revert t n k. induction c as [ws|c IH w m fd|l IHl r IHr|l IHl r IHr|c IH]; intros t n k Ht Hc; cbn [redirs_std plan runcmd] in *.
  - by destruct ws.
  - destruct Hc as [Hc Hfd]. assert (Z.to_nat fd < 2)%nat as Hi by lia. set (i := Z.to_nat fd) in *.
    cbn [events]. rewrite lowest_closed; [|lia|].
    + rewrite insert_delete_eq. apply IH; [by apply usual_insert; [|lia]|done].
    + intros j Hj. destruct Ht as (H0 & _). assert (j = 0%nat) as -> by lia. done.
  - destruct Hc as [Hl Hr]. pose proof Ht as (H0 & H1 & H2 & H3 & H4).
    assert (lowest t = Some 3%nat) as E1.
    { apply lowest_first; [unfold NOFILE; lia| |done]. intros i Hi. assert (i = 0 ∨ i = 1 ∨ i = 2)%nat as [->|[->| ->]] by lia; done. }
    assert (lowest (<[3%nat := ReadEnd n]> t) = Some 4%nat) as E2.
    { apply lowest_first; [unfold NOFILE; lia| |by rewrite lookup_insert_ne by lia].
      intros i Hi. rewrite lookup_insert_is_Some'. assert (i = 0 ∨ i = 1 ∨ i = 2 ∨ i = 3)%nat as [->|[->|[->| ->]]] by lia; auto. }
    rewrite (events_pipe _ _ _ _ _ _ _ E1 E2). unfold fork1. rewrite events_fork.
    rewrite (events_side t 1 4 (runcmd l) (S n) 0 (WriteEnd n)) by (done || lia || auto).
    rewrite (IHl (<[1%nat := WriteEnd n]> t)) by (done || (apply usual_insert; [done|lia])).
    destruct (plan l (<[1%nat := WriteEnd n]> t) (S n) 0) as [a n1].
    rewrite events_fork, (events_side t 0 3 (runcmd r) n1 0 (ReadEnd n)) by (done || lia || auto).
    rewrite (IHr (<[0%nat := ReadEnd n]> t)) by (done || (apply usual_insert; [done|lia])).
    destruct (plan r (<[0%nat := ReadEnd n]> t) n1 0) as [b n2]. cbn [events]. rewrite close_both by done. cbn [Nat.sub].
    rewrite !Nat.sub_0_r. do 3 f_equal. by replace (k + 2)%nat with (S (S k)) by lia; replace (k + 1)%nat with (S k) by lia.
  - destruct Hc as [Hl Hr]. cbn [fork1 events Nat.sub]. rewrite IHl by done. destruct (plan l t n 0) as [a n1]. rewrite Nat.sub_0_r, IHr by done.
    destruct (plan r t n1 k) as [b n2]. by rewrite Nat.add_1_r.
  - cbn [fork1 events]. rewrite IH by done. destruct (plan c t n 0) as [a n1]. by rewrite Nat.add_1_r.
Qed.

Definition std : fds := <[0%nat := Given 0]> (<[1%nat := Given 1]> {[2%nat := Given 2]}).
Definition a_pipeline : cmd (list byte) :=
  Pipe (Exec [list_byte_of_string "ls"%string]) (Redir (Exec [list_byte_of_string "wc"%string]) (list_byte_of_string "out"%string) 0x201 1).

Lemma runcmd_starts_plan_witness : events (runcmd a_pipeline) std 7 0 = plan a_pipeline std 7 0.
Proof.
  apply (runcmd_starts_plan a_pipeline std 7 0).
  - repeat split; vm_compute; eauto.
  - cbn. auto.
Defined.

Example pipeline_plan : (plan a_pipeline std 7 0).1 =
  [Starts [list_byte_of_string "ls"%string] (<[1%nat := WriteEnd 7]> std) 0;
   Starts [list_byte_of_string "wc"%string] (<[1%nat := File (list_byte_of_string "out"%string) 0x201]> (<[0%nat := ReadEnd 7]> std)) 0;
   Waits std 2; Waits std 1; Exits std 0].
Proof. reflexivity. Qed.

End ShRun.
