(* ===== verification/Bio.v ===== *)
(** Bio: the buffer cache of xv6 (p4/xv6-public/bio.c) with its sleep locks
    (sleeplock.c), on the disk in memory of memide.c.  One process runs: where
    the code would wait for another one the model faults. *)
From S2P Require Import Prelude Memory.
Local Open Scope Z_scope.

Module Bio.

Definition BSIZE : Z := 512.
Definition NBUF : Z := 30.
Definition B_VALID : Z := 0x2.
Definition B_DIRTY : Z := 0x4.

Abbreviation block := (list byte).

(** [struct buf], with its sleep lock ([locked], [pid]). *)
Record buf := Buf {
  flags : Z; dev : Z; blockno : Z; locked : Z; pid : Z; refcnt : Z; data : block
}.

(** The cache: the array of buffers, the list from [head.next] on (buffers by
    index) and the disk.  [writes] records the blocks written so far, which tells
    the contents of the disk after a crash. *)
Record bcache := Bc {
  bufs : list buf; lru : list nat; memdisk : list block; writes : list (Z * block)
}.

Definition set_bufs (l : list buf) (s : bcache) : bcache := Bc l (lru s) (memdisk s) (writes s).
Definition get_buf (i : nat) : ST bcache buf := λ s, of_opt (bufs s !! i) s.
Definition put_buf (i : nat) (b : buf) : ST bcache unit := modify (λ s, set_bufs (<[i := b]> (bufs s)) s).
Definition set_flags (b : buf) (fl : Z) : buf := Buf fl (dev b) (blockno b) (locked b) (pid b) (refcnt b) (data b).
Definition set_data (b : buf) (d : block) : buf := Buf (flags b) (dev b) (blockno b) (locked b) (pid b) (refcnt b) d.
Definition set_lock (b : buf) (l p : Z) : buf := Buf (flags b) (dev b) (blockno b) l p (refcnt b) (data b).
Definition set_refcnt (b : buf) (n : Z) : buf := Buf (flags b) (dev b) (blockno b) (locked b) (pid b) n (data b).

Definition has (e f : Z) : bool := negb (Z.land e f =? 0).

Section Bio.
(** The process that runs. *)
Context (me : Z).

(** ** Sleep locks *)
Definition initsleeplock (b : buf) : buf := set_lock b 0 0.
Definition acquiresleep (i : nat) : ST bcache unit :=
  let! b := get_buf i in
  if negb (locked b =? 0) then fault else put_buf i (set_lock b 1 me).
Definition releasesleep (i : nat) : ST bcache unit :=
  let! b := get_buf i in put_buf i (set_lock b 0 0).
Definition holdingsleep (b : buf) : bool := negb (locked b =? 0) && (pid b =? me).

(** ** The disk *)
Definition iderw (i : nat) : ST bcache unit :=
  let! b := get_buf i in
  if negb (holdingsleep b) then fault else
  if Z.land (flags b) (Z.lor B_VALID B_DIRTY) =? B_VALID then fault else
  if negb (dev b =? 1) then fault else
  let! disk := gets memdisk in
  if Z.of_nat (length disk) <=? blockno b then fault else
  if has (flags b) B_DIRTY then
    do! modify (λ s, Bc (bufs s) (lru s) (<[Z.to_nat (blockno b) := data b]> disk)
                        (writes s ++ [(blockno b, data b)])) in
    put_buf i (set_flags b (Z.lor (Z.ldiff (flags b) B_DIRTY) B_VALID))
  else
    let! d := of_opt (disk !! Z.to_nat (blockno b)) in
    put_buf i (set_data (set_flags b (Z.lor (flags b) B_VALID)) d).

(** ** The cache *)

(** The boot state: [binit] on zeroed memory, with the disk [disk]. *)
Definition zero_buf : buf := Buf 0 0 0 0 0 0 (replicate 512 x00).
Definition binit (disk : list block) : bcache :=
  let bs := replicate (Z.to_nat NBUF) zero_buf in
  foldl (λ s i, Bc (alter initsleeplock i (bufs s)) (i :: lru s) (memdisk s) (writes s))
    (Bc bs [] disk []) (seq 0 (Z.to_nat NBUF)).

Definition caches (s : bcache) (d b : Z) (i : nat) : bool :=
  match bufs s !! i with Some x => (dev x =? d) && (blockno x =? b) | None => false end.
Definition unused (s : bcache) (i : nat) : bool :=
  match bufs s !! i with Some x => (refcnt x =? 0) && negb (has (flags x) B_DIRTY) | None => false end.

Definition bget (d b : Z) : ST bcache nat :=
  let! s := gets id in
  match List.find (caches s d b) (lru s) with
  | Some i =>
      let! x := get_buf i in
      do! put_buf i (set_refcnt x (u32 (refcnt x + 1))) in
      do! acquiresleep i in ret i
  | None =>
      match List.find (unused s) (rev (lru s)) with
      | Some i =>
          let! x := get_buf i in
          do! put_buf i (Buf 0 d b (locked x) (pid x) 1 (data x)) in
          do! acquiresleep i in ret i
      | None => fault
      end
  end.

Definition bread (d b : Z) : ST bcache nat :=
  let! i := bget d b in
  let! x := get_buf i in
  do! (if negb (has (flags x) B_VALID) then iderw i else ret tt) in
  ret i.

Definition bwrite (i : nat) : ST bcache unit :=
  let! x := get_buf i in
  if negb (holdingsleep x) then fault else
  do! put_buf i (set_flags x (Z.lor (flags x) B_DIRTY)) in
  iderw i.

Definition brelse (i : nat) : ST bcache unit :=
  let! x := get_buf i in
  if negb (holdingsleep x) then fault else
  do! releasesleep i in
  let! x := get_buf i in
  let n := u32 (refcnt x - 1) in
  do! put_buf i (set_refcnt x n) in
  if n =? 0
  then modify (λ s, Bc (bufs s) (i :: filter (λ j, j ≠ i) (lru s)) (memdisk s) (writes s))
  else ret tt.

(** Reading and changing the data of a buffer. *)
Definition get_data (i : nat) : ST bcache block := let! x := get_buf i in ret (data x).
Definition put_data (i : nat) (d : block) : ST bcache unit :=
  let! x := get_buf i in put_buf i (set_data x d).

End Bio.

End Bio.
