(* ===== verification/BioInv.v ===== *)
(** BioInv: what the buffer cache guarantees: blocks are cached at most once, a
    free buffer that is not dirty agrees with the disk, and the operations act as
    reads and writes of an abstract cache. *)
From S2P Require Import Prelude Memory Bio.
From stdpp Require Import gmap.
Local Open Scope Z_scope.

Module BioInv.
Import Bio.

(** * What the cache guarantees *)

Definition dirty_buf (x : buf) : bool := has (flags x) B_DIRTY.
Definition held_buf (x : buf) : bool := negb (refcnt x =? 0).
Definition holds (x : buf) (b : Z) : Prop := dev x = 1 ∧ blockno x = b.

(** The contents of a block as a process sees it: what is cached, else what is
    on the disk. *)
Definition view (s : bcache) (b : Z) : option block :=
  match list_find (λ x, holds x b) (bufs s) with
  | Some (_, x) => Some (data x)
  | None => memdisk s !! Z.to_nat b
  end.

Section Cache.
Context (me : Z).

(** A buffer is free, or held by the running process.  A free one that is not
    dirty agrees with the disk. *)
Record buf_ok (disk : list block) (x : buf) : Prop := {
  bo_flags : flags x = 0 ∧ dev x = 0 ∨ (flags x = 2 ∨ flags x = 6) ∧ dev x = 1;
  bo_block : flags x ≠ 0 → 0 ≤ blockno x < Z.of_nat (length disk) ∧ length (data x) = 512%nat;
  bo_clean : flags x = 2 → refcnt x = 0 → disk !! Z.to_nat (blockno x) = Some (data x);
  bo_lock : refcnt x = 0 ∧ locked x = 0 ∨ refcnt x = 1 ∧ locked x = 1 ∧ pid x = me ∧ flags x ≠ 0
}.

Record cache_ok (s : bcache) : Prop := {
  co_len : length (bufs s) = Z.to_nat NBUF;
  co_lru : ∀ i, i ∈ lru s ↔ (i < Z.to_nat NBUF)%nat;
  co_buf : ∀ i x, bufs s !! i = Some x → buf_ok (memdisk s) x;
  co_uniq : ∀ i j x y b, bufs s !! i = Some x → bufs s !! j = Some y → holds x b → holds y b → i = j;
  co_disk : Forall (λ d, length d = 512%nat) (memdisk s)
}.

Definition nheld (s : bcache) : Z := count held_buf (bufs s).
Definition ndirty (s : bcache) : Z := count dirty_buf (bufs s).
Definition is_dirty (s : bcache) (b : Z) : Prop :=
  ∃ i x, bufs s !! i = Some x ∧ holds x b ∧ flags x = 6.
Definition held (s : bcache) (i : nat) (b : Z) (d : block) : Prop :=
  ∃ fl, bufs s !! i = Some (Buf fl 1 b 1 me 1 d).

Lemma dirty_buf_6 disk x : buf_ok disk x → dirty_buf x = bool_decide (flags x = 6).
Proof. unfold dirty_buf. intros [[[-> _]|[[-> | ->] _]] _ _ _]; reflexivity. Qed.

Lemma view_in s i x b : cache_ok s → bufs s !! i = Some x → holds x b → view s b = Some (data x).
Proof.
  intros Hok Hi Hx. unfold view. destruct (list_find _ (bufs s)) as [[j y]|] eqn:E.
  - apply list_find_Some in E as (Hj & Hy & _). rewrite (co_uniq _ Hok i j x y b) in Hi by done. congruence.
  - apply list_find_None in E. by eapply (Forall_lookup_1 _ _ _ _ E) in Hi.
Qed.

Lemma view_out s b : (∀ i x, bufs s !! i = Some x → ¬ holds x b) → view s b = memdisk s !! Z.to_nat b.
Proof.
  intros H. unfold view. destruct (list_find _ (bufs s)) as [[j y]|] eqn:E; [|done].
  apply list_find_Some in E as (Hj & Hy & _). by destruct (H j y).
Qed.

Lemma cached_dec s b : (∃ i x, bufs s !! i = Some x ∧ holds x b) ∨ ∀ i x, bufs s !! i = Some x → ¬ holds x b.
Proof.
  destruct (list_find (λ x, holds x b) (bufs s)) as [[j y]|] eqn:E.
  - apply list_find_Some in E as (Hj & Hy & _). left. eauto.
  - right. apply list_find_None in E. intros i x Hi. by eapply (Forall_lookup_1 _ _ _ _ E) in Hi.
Qed.

(** Storing a buffer. *)
Section Put.
Context (s : bcache) (Hok : cache_ok s) (i : nat) (x y : buf) (Hi : bufs s !! i = Some x).
Context (Hy : buf_ok (memdisk s) y).
Context (Hother : ∀ j z, j ≠ i → bufs s !! j = Some z → dev y = 1 → ¬ holds z (blockno y)).
Abbreviation s' := (set_bufs (<[i := y]> (bufs s)) s).

Lemma put_lookup j : bufs s' !! j = if decide (j = i) then Some y else bufs s !! j.
Proof.
  cbn. case_decide as D; [subst j|by apply list_lookup_insert_ne].
  apply list_lookup_insert_eq. by eapply lookup_lt_Some.
Qed.

Lemma put_cache_ok : cache_ok s'.
Proof.
  pose proof Hok as []. split; cbn [lru memdisk set_bufs]; try done.
  - cbn. by rewrite length_insert.
  - intros j z. rewrite put_lookup. case_decide; [by intros [= <-]|by apply co_buf0].
  - intros j k z w b. rewrite !put_lookup. do 2 case_decide; subst; try done.
    + intros [= <-] Hk [E <-] Hw. by destruct (Hother k w).
    + intros Hj [= <-] Hz [E <-]. by destruct (Hother j z).
    + apply co_uniq0.
Qed.

Lemma put_view b :
  dev y = 1 → (holds x b → b ≠ blockno y → memdisk s !! Z.to_nat b = Some (data x)) →
  view s' b = if decide (b = blockno y) then Some (data y) else view s b.
Proof.
  intros Ey Hx. pose proof put_cache_ok as Hok'. case_decide as D.
  - apply (view_in s' i); [done|by rewrite put_lookup, decide_True|by split].
  - destruct (cached_dec s b) as [(j & z & Hj & Hz)|Hno].
    + destruct (decide (j = i)) as [->|].
      * rewrite Hi in Hj. injection Hj as <-. rewrite (view_in s i x b), view_out; try done; [by apply Hx|].
        intros j z. rewrite put_lookup. case_decide; [intros [= <-] [_ ?]; congruence|].
        intros Hj Hz'. assert (j = i) by (by eapply (co_uniq s Hok j i z x b)). done.
      * rewrite (view_in s j z b), (view_in s' j z b); try done. by rewrite put_lookup, decide_False.
    + rewrite (view_out s b), (view_out s' b); try done. intros j z. rewrite put_lookup. case_decide; [|apply Hno].
      intros [= <-] [_ ?]. congruence.
Qed.

Lemma put_dirty b :
  is_dirty s' b ↔ holds y b ∧ flags y = 6 ∨ is_dirty s b ∧ (holds x b ∧ flags x = 6 → False) .
Proof.
  unfold is_dirty. split.
  - intros (j & z & Hj & Hz & Hf). rewrite put_lookup in Hj. case_decide; [left; by injection Hj as <-|].
    right. split; [eauto|]. intros [Hx _]. assert (j = i) by (by eapply (co_uniq s Hok j i z x b)). done.
  - intros [[Hb Hf]|[(j & z & Hj & Hz & Hf) Hx]].
    + exists i, y. by rewrite put_lookup, decide_True.
    + exists j, z. rewrite put_lookup. case_decide; [|done]. subst j. rewrite Hi in Hj. injection Hj as <-. by destruct Hx.
Qed.

Lemma put_nheld : nheld s' = nheld s - Z.b2z (held_buf x) + Z.b2z (held_buf y).
Proof. unfold nheld. cbn [bufs set_bufs]. by apply count_insert. Qed.
Lemma put_ndirty : ndirty s' = ndirty s - Z.b2z (dirty_buf x) + Z.b2z (dirty_buf y).
Proof. unfold ndirty. cbn [bufs set_bufs]. by apply count_insert. Qed.
End Put.

(** * The abstract cache

    what each block looks like, the disk, the blocks written so far, the dirty
    blocks and the buffers in use. *)
Record acache := AC {
  vw : Z → option block; dk : list block; ws : list (Z * block); dt : gset Z; hd : gmap nat (Z * block)
}.

Record abs (s : bcache) (A : acache) : Prop := {
  ab_ok : cache_ok s;
  ab_view : ∀ b, 0 ≤ b → view s b = vw A b;
  ab_disk : memdisk s = dk A;
  ab_writes : writes s = ws A;
  ab_dirty : ∀ b, is_dirty s b ↔ b ∈ dt A;
  ab_held : ∀ i b d, held s i b d ↔ hd A !! i = Some (b, d);
  ab_nheld : nheld s = Z.of_nat (size (hd A));
  ab_ndirty : ndirty s = Z.of_nat (size (dt A))
}.

Definition upd (f : Z → option block) (b : Z) (d : block) : Z → option block :=
  λ b', if decide (b' = b) then Some d else f b'.
Definition set_disk (dsk : list block) (b : Z) (d : block) : list block := <[Z.to_nat b := d]> dsk.

Lemma upd_same f b d b' : f b = Some d → upd f b d b' = f b'.
Proof. intros Hf. unfold upd. case_decide as D; [by rewrite D|done]. Qed.

(** The dirty blocks are the same when the buffer of [b] keeps its flag. *)
Lemma dirty_same (X : gset Z) b (fl : Z) b' :
  (fl = 6 ↔ b ∈ X) → b' ∈ (if decide (fl = 6) then {[b]} ∪ X else X ∖ {[b]}) ↔ b' ∈ X.
Proof. intros H. case_decide; destruct (decide (b' = b)) as [->|]; set_solver. Qed.

(** ** Finding a buffer *)

Lemma find_lru s P :
  cache_ok s → List.find P (lru s) = None → ∀ i, (i < Z.to_nat NBUF)%nat → P i = false.
Proof. intros Hok Hf i Hi. apply (List.find_none P (lru s) Hf). by apply list_elem_of_In, (co_lru _ Hok). Qed.

Lemma find_some_lru (P : nat → bool) l i : List.find P l = Some i → P i = true.
Proof. intros H. by apply List.find_some in H as [_ ?]. Qed.

Lemma buf_at s i : cache_ok s → (i < Z.to_nat NBUF)%nat → ∃ x, bufs s !! i = Some x.
Proof. intros Hok Hi. apply lookup_lt_is_Some_2. by rewrite (co_len _ Hok). Qed.

Lemma unused_iff s i x :
  cache_ok s → bufs s !! i = Some x → unused s i = true ↔ refcnt x = 0 ∧ flags x ≠ 6.
Proof.
  intros Hok Hi. unfold unused. rewrite Hi. fold (dirty_buf x). rewrite (dirty_buf_6 _ x (co_buf _ Hok i x Hi)).
  rewrite andb_true_iff, Z.eqb_eq, negb_true_iff, bool_decide_eq_false. done.
Qed.

Lemma exists_unused s :
  cache_ok s → nheld s + ndirty s < NBUF → ∃ i, (i < Z.to_nat NBUF)%nat ∧ unused s i = true.
Proof.
  intros Hok Hlt. pose proof (count_or held_buf dirty_buf (bufs s)) as Hle. fold (nheld s) (ndirty s) in Hle.
  destruct (list_find (λ x, held_buf x || dirty_buf x = false) (bufs s)) as [[i x]|] eqn:E.
  - apply list_find_Some in E as (Hi & Hf & _). exists i. split; [rewrite <- (co_len _ Hok); by eapply lookup_lt_Some|].
    unfold unused. rewrite Hi. unfold held_buf, dirty_buf in Hf. apply orb_false_iff in Hf as [Hf1 ->].
    apply negb_false_iff in Hf1. by rewrite Hf1.
  - apply list_find_None in E. rewrite count_all in Hle; [rewrite (co_len _ Hok) in Hle; unfold NBUF in *; lia|].
    intros x Hx. rewrite Forall_forall in E. apply E in Hx. by destruct (held_buf x || dirty_buf x).
Qed.

Lemma caches_iff s b i x : bufs s !! i = Some x → caches s 1 b i = true ↔ holds x b.
Proof. intros Hi. unfold caches. rewrite Hi, andb_true_iff, !Z.eqb_eq. done. Qed.

(** ** Running the primitive steps *)

Lemma get_buf_ok s i x : bufs s !! i = Some x → get_buf i s = Ok x s.
Proof. unfold get_buf. by intros ->. Qed.

Lemma put_put s i x y z :
  bufs s !! i = Some x →
  put_buf i z (set_bufs (<[i := y]> (bufs s)) s) = Ok tt (set_bufs (<[i := z]> (bufs s)) s).
Proof. intros Hi. unfold put_buf, modify, set_bufs. cbn. by rewrite list_insert_insert_eq. Qed.

Lemma get_put s i x y :
  bufs s !! i = Some x → get_buf i (set_bufs (<[i := y]> (bufs s)) s) = Ok y (set_bufs (<[i := y]> (bufs s)) s).
Proof. intros Hi. apply get_buf_ok. cbn. apply list_lookup_insert_eq. by eapply lookup_lt_Some. Qed.

Lemma lock_put s i x y :
  bufs s !! i = Some x → locked y = 0 →
  (do! put_buf i y in do! acquiresleep me i in ret i) s = Ok i (set_bufs (<[i := set_lock y 1 me]> (bufs s)) s).
Proof.
  intros Hi Hl. erewrite bind_ok by reflexivity. unfold acquiresleep.
  erewrite bind_ok; [reflexivity|]. rewrite (bind_ok _ _ _ _ _ (get_put s i x y Hi)), Hl. by eapply put_put.
Qed.

Lemma iderw_read s i x y d :
  bufs s !! i = Some x → flags y = 0 → dev y = 1 → locked y = 1 → pid y = me →
  0 ≤ blockno y < Z.of_nat (length (memdisk s)) → memdisk s !! Z.to_nat (blockno y) = Some d →
  iderw me i (set_bufs (<[i := y]> (bufs s)) s) = Ok tt (set_bufs (<[i := set_data (set_flags y 2) d]> (bufs s)) s).
Proof.
  intros Hi Hf Hd Hl Hp Hb Hdata. unfold iderw. rewrite (bind_ok _ _ _ _ _ (get_put s i x y Hi)).
  unfold holdingsleep. rewrite Hf, Hd, Hl, Hp, Z.eqb_refl. cbn [negb andb Z.eqb Pos.eqb Z.land Z.lor].
  change (Z.land 0 (Z.lor B_VALID B_DIRTY) =? B_VALID) with false. cbv match. erewrite bind_ok by reflexivity.
  cbn [memdisk set_bufs]. rewrite (proj2 (Z.leb_gt _ _)) by lia. change (has 0 B_DIRTY) with false. cbv match. rewrite Hdata. cbn [of_opt]. erewrite bind_ok by reflexivity. by eapply put_put.
Qed.

Definition fresh_flags (x : buf) (b : Z) : Z := if decide (holds x b) then flags x else 2.

(** [bread] of a block that no one holds: it takes the buffer that caches the
    block, else an unused one, and fills it from the disk. *)
Lemma bget_cached s b i x :
  cache_ok s → bufs s !! i = Some x → holds x b → refcnt x = 0 →
  bget me 1 b s = Ok i (set_bufs (<[i := set_lock (set_refcnt x 1) 1 me]> (bufs s)) s).
Proof.
  intros Hok Hi Hx H0. pose proof (co_buf _ Hok i x Hi) as []. unfold bget. erewrite bind_ok by reflexivity.
  change (id s) with s. destruct (List.find (caches s 1 b) (lru s)) as [j|] eqn:Ef.
  - assert (j = i) as ->.
    { apply find_some_lru in Ef. unfold caches in Ef. destruct (bufs s !! j) as [y|] eqn:Hj; [|done].
      apply andb_true_iff in Ef as [E1%Z.eqb_eq E2%Z.eqb_eq]. by eapply (co_uniq _ Hok j i y x b). }
    rewrite (bind_ok _ _ _ _ _ (get_buf_ok s i x Hi)).
    destruct bo_lock0 as [[_ Hl]|[? _]]; [|lia]. rewrite (lock_put s i x) by done. by rewrite H0.
  - assert (caches s 1 b i = false) as Hc.
    { apply (find_lru s _ Hok Ef). rewrite <- (co_len _ Hok). by eapply lookup_lt_Some. }
    rewrite (proj2 (caches_iff s b i x Hi) Hx) in Hc. done.
Qed.

Lemma bread_cached s b i x :
  cache_ok s → bufs s !! i = Some x → holds x b → refcnt x = 0 →
  bread me 1 b s = Ok i (set_bufs (<[i := Buf (flags x) 1 b 1 me 1 (data x)]> (bufs s)) s).
Proof.
  intros Hok Hi Hx H0. pose proof (co_buf _ Hok i x Hi) as []. unfold bread.
  rewrite (bind_ok _ _ _ _ _ (bget_cached s b i x Hok Hi Hx H0)), (bind_ok _ _ _ _ _ (get_put s i x _ Hi)).
  destruct Hx as [Hd Hb]. destruct x as [fl dv bn lk pd rc dd]. cbn in *. subst dv bn rc.
  destruct bo_flags0 as [[_ ?]|[[-> | ->] _]]; [lia|done|done].
Qed.

Lemma bget_uncached s b :
  cache_ok s → (∀ i x, bufs s !! i = Some x → ¬ holds x b) → nheld s + ndirty s < NBUF →
  ∃ i x, bufs s !! i = Some x ∧ refcnt x = 0 ∧ flags x ≠ 6 ∧
    bget me 1 b s = Ok i (set_bufs (<[i := Buf 0 1 b 1 me 1 (data x)]> (bufs s)) s).
Proof.
  intros Hok Hno Hroom. destruct (exists_unused s Hok Hroom) as (k & Hk & Hu).
  unfold bget. erewrite bind_ok by reflexivity. change (id s) with s.
  destruct (List.find (caches s 1 b) (lru s)) as [j|] eqn:Ef.
  { apply find_some_lru in Ef. unfold caches in Ef. destruct (bufs s !! j) as [y|] eqn:Hj; [|done].
    apply andb_true_iff in Ef as [E1%Z.eqb_eq E2%Z.eqb_eq]. by destruct (Hno j y Hj). }
  destruct (List.find (unused s) (rev (lru s))) as [i|] eqn:Eu.
  - apply find_some_lru in Eu. destruct (bufs s !! i) as [x|] eqn:Hi; [|unfold unused in Eu; by rewrite Hi in Eu].
    destruct (proj1 (unused_iff s i x Hok Hi) Eu) as [H0 Hf]. pose proof (co_buf _ Hok i x Hi) as [].
    destruct bo_lock0 as [[_ Hl]|[? _]]; [|lia]. exists i, x. split_and!; try done.
    by rewrite (bind_ok _ _ _ _ _ (get_buf_ok s i x Hi)), (lock_put s i x).
  - exfalso. pose proof (List.find_none (unused s) _ Eu k) as Hk'. rewrite Hk' in Hu; [done|].
    apply (proj1 (List.in_rev _ _)). by apply list_elem_of_In, (co_lru _ Hok).
Qed.

Lemma bread_uncached s b :
  cache_ok s → 0 ≤ b < Z.of_nat (length (memdisk s)) → (∀ i x, bufs s !! i = Some x → ¬ holds x b) →
  nheld s + ndirty s < NBUF →
  ∃ i x d, bufs s !! i = Some x ∧ refcnt x = 0 ∧ flags x ≠ 6 ∧ memdisk s !! Z.to_nat b = Some d ∧
    bread me 1 b s = Ok i (set_bufs (<[i := Buf 2 1 b 1 me 1 d]> (bufs s)) s).
Proof.
  intros Hok Hb Hno Hroom. destruct (bget_uncached s b Hok Hno Hroom) as (i & x & Hi & H0 & Hf & E).
  destruct (lookup_lt_is_Some_2 (memdisk s) (Z.to_nat b)) as [d Hd]; [lia|]. exists i, x, d. split_and!; try done.
  unfold bread. rewrite (bind_ok _ _ _ _ _ E), (bind_ok _ _ _ _ _ (get_put s i x _ Hi)).
  cbn [flags]. change (negb (has 0 B_VALID)) with true. cbv match.
  by rewrite (bind_ok _ _ _ _ _ (iderw_read s i x (Buf 0 1 b 1 me 1 (data x)) d Hi eq_refl eq_refl eq_refl eq_refl Hb Hd)).
Qed.

(** ** The steps on the abstract cache *)

Lemma view_disk s b x i :
  cache_ok s → bufs s !! i = Some x → holds x b → flags x = 2 → refcnt x = 0 → memdisk s !! Z.to_nat b = Some (data x).
Proof. intros Hok Hi [_ <-] Hf H0. by apply (bo_clean _ _ (co_buf _ Hok i x Hi)). Qed.

Lemma buf_held s i x : cache_ok s → bufs s !! i = Some x → refcnt x ≠ 0 → held s i (blockno x) (data x).
Proof.
  intros Hok Hi Hr. pose proof (co_buf _ Hok i x Hi) as []. exists (flags x). rewrite Hi.
  destruct bo_lock0 as [[? _]|(? & ? & ? & ?)]; [done|]. destruct bo_flags0 as [[? _]|[_ ?]]; [done|].
  destruct x; cbn in *; congruence.
Qed.

Lemma size_insert_dec (m : gmap nat (Z * block)) i v :
  Z.of_nat (size (<[i := v]> m)) = Z.of_nat (size m) - match m !! i with Some _ => 1 | None => 0 end + 1.
Proof. rewrite map_size_insert. destruct (m !! i) eqn:E; cbn; [|lia]. assert (size m ≠ 0%nat); [|lia]. intros ->%map_size_empty_inv. done. Qed.

Lemma size_delete_dec (m : gmap nat (Z * block)) i :
  Z.of_nat (size (delete i m)) = Z.of_nat (size m) - match m !! i with Some _ => 1 | None => 0 end.
Proof. rewrite map_size_delete. destruct (m !! i) eqn:E; cbn; [|lia]. assert (size m ≠ 0%nat); [|lia]. intros ->%map_size_empty_inv. done. Qed.

Lemma size_add (X : gset Z) b : Z.of_nat (size ({[b]} ∪ X)) = Z.of_nat (size X) + (if decide (b ∈ X) then 0 else 1).
Proof.
  case_decide; [by rewrite subseteq_union_1_L by set_solver; lia|].
  rewrite size_union, size_singleton by set_solver. lia.
Qed.

Lemma size_remove (X : gset Z) b : Z.of_nat (size (X ∖ {[b]})) = Z.of_nat (size X) - (if decide (b ∈ X) then 1 else 0).
Proof.
  case_decide.
  - rewrite size_difference, size_singleton by set_solver. assert (size X ≠ 0%nat); [|lia]. intros ?%size_empty_inv. set_solver.
  - by replace (X ∖ {[b]}) with X by set_solver; lia.
Qed.

Lemma held_at s A i x :
  abs s A → bufs s !! i = Some x → match hd A !! i with Some _ => 1 | None => 0 end = Z.b2z (held_buf x).
Proof.
  intros HA Hi. unfold held_buf. destruct (Z.eqb_spec (refcnt x) 0) as [E|E]; cbn.
  - destruct (hd A !! i) as [[b d]|] eqn:Eh; [|done]. apply (ab_held _ _ HA) in Eh as [fl Eh].
    rewrite Hi in Eh. injection Eh as ->. done.
  - by rewrite (proj1 (ab_held _ _ HA i (blockno x) (data x)) (buf_held s i x (ab_ok _ _ HA) Hi E)).
Qed.

(** Storing [y] in buffer [i]: what is seen, held and dirty afterwards. *)
Section PutAbs.
Context (s : bcache) (A : acache) (i : nat) (x y : buf) (HA : abs s A) (Hi : bufs s !! i = Some x).
Context (Hy : buf_ok (memdisk s) y) (Hfy : flags y ≠ 0).
Context (Hx : holds x (blockno y) ∨
              flags x ≠ 6 ∧ refcnt x = 0 ∧ ∀ j z, bufs s !! j = Some z → ¬ holds z (blockno y)).

Lemma put_dev : dev y = 1.
Proof. destruct Hy as [[[? _]|[_ ?]] _ _ _]; done. Qed.

Lemma put_other j z : j ≠ i → bufs s !! j = Some z → dev y = 1 → ¬ holds z (blockno y).
Proof.
  intros Hj Hz _ Hh. destruct Hx as [Hx'|(_ & _ & Hx')]; [|by eapply Hx'].
  by apply Hj, (co_uniq _ (ab_ok _ _ HA) j i z x (blockno y)).
Qed.

Lemma put_was_dirty b : holds x b ∧ flags x = 6 → b = blockno y.
Proof. intros [[_ <-] Hf]. by destruct Hx as [[_ ?]|[? _]]. Qed.

Lemma put_dirty_iff : is_dirty s (blockno y) ↔ flags x = 6.
Proof.
  split.
  - intros (j & z & Hj & Hz & Hf). destruct (decide (j = i)) as [->|]; [congruence|].
    destruct (put_other j z) as []; try done. apply put_dev.
  - intros Hf. exists i, x. destruct Hx as [?|[? _]]; [by split_and!|done].
Qed.

Lemma put_abs :
  abs (set_bufs (<[i := y]> (bufs s)) s)
    (AC (upd (vw A) (blockno y) (data y)) (dk A) (ws A)
        (if decide (flags y = 6) then {[blockno y]} ∪ dt A else dt A ∖ {[blockno y]})
        (if decide (refcnt y = 0) then delete i (hd A) else <[i := (blockno y, data y)]> (hd A))).
Proof.
  pose proof HA as [Hok Hv Hdk Hws Hdt Hhd Hnh Hnd]. pose proof put_dev as Ey. pose proof put_was_dirty as Hwas.
  pose proof (co_buf _ Hok i x Hi) as Hbx. split; cbn [vw dk ws dt hd]; try done.
  - apply (put_cache_ok s Hok i x y Hi Hy put_other).
  - intros b Hb. unfold upd. rewrite (put_view s Hok i x y Hi Hy put_other), Hv; try done.
    intros [Hxd <-] Hne. destruct Hx as [[_ ?]|(Hf & H0 & _)]; [done|].
    apply (bo_clean _ _ Hbx); [|done]. destruct (bo_flags _ _ Hbx) as [[_ ?]|[[?|?] _]]; congruence.
  - intros b. rewrite (put_dirty s Hok i x y Hi), Hdt. unfold holds at 1. case_decide as D.
    + rewrite elem_of_union, elem_of_singleton. specialize (Hwas b). destruct (decide (b = blockno y)); naive_solver.
    + rewrite elem_of_difference, elem_of_singleton. split; [|naive_solver]. intros [[_ ?]|[Hb Hn]]; [done|].
      split; [done|]. intros ->. apply Hn. apply Hdt, put_dirty_iff in Hb as Hf. split; [|done]. by destruct Hx as [?|[? _]].
  - intros j b d. unfold held. rewrite (put_lookup s i x y Hi). case_decide as D; [subst j|].
    + case_decide as D.
      * rewrite lookup_delete_eq. split; [|done]. intros [fl [= E]]. by rewrite E in D.
      * rewrite lookup_insert_eq. destruct (bo_lock _ _ Hy) as [[? _]|(? & ? & ? & _)]; [done|].
        split; [by intros [fl [= E]]; rewrite E|]. intros [= <- <-]. exists (flags y). by destruct y; cbn in *; subst.
    + rewrite (Hhd j b d). case_decide; by rewrite ?lookup_delete_ne, ?lookup_insert_ne by done.
  - rewrite (put_nheld s i x y Hi), Hnh, <- (held_at s A i x HA Hi). unfold held_buf. case_decide as D.
    + rewrite size_delete_dec, D. cbn. lia.
    + rewrite size_insert_dec, (proj2 (Z.eqb_neq _ _)) by done. cbn. lia.
  - rewrite (put_ndirty s i x y Hi), Hnd, (dirty_buf_6 _ x Hbx), (dirty_buf_6 _ y Hy).
    assert (blockno y ∈ dt A ↔ flags x = 6) as Hin by (rewrite <- Hdt; apply put_dirty_iff).
    case_decide as D; [rewrite size_add, (bool_decide_true (flags y = 6)) by done|rewrite size_remove, (bool_decide_false (flags y = 6)) by done];
      case_decide; case_bool_decide; cbn; tauto || lia.
Qed.
End PutAbs.

Lemma abs_ext s A v D :
  abs s A → (∀ b, 0 ≤ b → vw A b = v b) → (∀ b, b ∈ dt A ↔ b ∈ D) → abs s (AC v (dk A) (ws A) D (hd A)).
Proof.
  intros [] Hv HD. assert (dt A = D) as <- by set_solver. split; try done. intros b Hb. cbn. by rewrite <- Hv, ab_view0.
Qed.

Lemma held_buf_ok s A i b d :
  abs s A → hd A !! i = Some (b, d) →
  ∃ fl, bufs s !! i = Some (Buf fl 1 b 1 me 1 d) ∧ (fl = 2 ∨ fl = 6) ∧ (fl = 6 ↔ b ∈ dt A) ∧
        0 ≤ b < Z.of_nat (length (dk A)) ∧ length d = 512%nat ∧ vw A b = Some d.
Proof.
  intros HA Hd. apply (ab_held _ _ HA) in Hd as [fl Hi]. exists fl. split; [done|].
  pose proof (co_buf _ (ab_ok _ _ HA) i _ Hi) as []. cbn in *. destruct bo_flags0 as [[_ ?]|[Hf _]]; [done|].
  destruct bo_block0 as [? ?]; [lia|]. rewrite <- (ab_disk _ _ HA), <- (ab_dirty _ _ HA), <- (ab_view _ _ HA) by lia. split_and!; try lia; try done.
  - split; [intros ->; by exists i, (Buf 6 1 b 1 me 1 d)|]. intros (j & z & Hj & Hz & H6).
    assert (j = i) as -> by (by eapply (co_uniq _ (ab_ok _ _ HA) j i z _ b)). rewrite Hi in Hj. by injection Hj as <-.
  - by apply (view_in s i _ b (ab_ok _ _ HA) Hi).
Qed.

(** The buffer that [bread] returns, before and after. *)
Lemma bread_exists s A b :
  abs s A → 0 ≤ b < Z.of_nat (length (dk A)) → (∀ i d, hd A !! i ≠ Some (b, d)) →
  b ∈ dt A ∨ Z.of_nat (size (hd A)) + Z.of_nat (size (dt A)) < NBUF →
  ∃ i x d fl, bufs s !! i = Some x ∧ refcnt x = 0 ∧ vw A b = Some d ∧ length d = 512%nat ∧
    bread me 1 b s = Ok i (set_bufs (<[i := Buf fl 1 b 1 me 1 d]> (bufs s)) s) ∧ (fl = 2 ∨ fl = 6) ∧
    (holds x b ∧ fl = flags x ∨ fl = 2 ∧ flags x ≠ 6 ∧ ∀ j z, bufs s !! j = Some z → ¬ holds z b).
Proof.
  intros [Hok Hv Hdk Hws Hdt Hhd Hnh Hnd] Hb Hfree Hroom. rewrite <- Hdt, <- Hnh, <- Hnd in Hroom. rewrite <- Hdk in Hb.
  rewrite <- Hv by lia. destruct (cached_dec s b) as [(i & x & Hi & Hx)|Hno].
  - assert (refcnt x = 0) as H0.
    { destruct (decide (refcnt x = 0)) as [|Hr]; [done|]. destruct (Hfree i (data x)). apply Hhd.
      destruct Hx as [_ <-]. by apply buf_held. }
    pose proof (co_buf _ Hok i x Hi) as []. pose proof Hx as [Hx1 _]. destruct bo_flags0 as [[_ ?]|[? _]]; [lia|].
    exists i, x, (data x), (flags x). split_and!; try done; [by apply (view_in s i)|by apply bo_block0; lia|by apply bread_cached|by left].
  - destruct Hroom as [(i & x & Hi & Hx & _)|Hroom]; [by destruct (Hno i x)|].
    destruct (bread_uncached s b Hok Hb Hno Hroom) as (i & x & d & Hi & H0 & Hf & Hd & E).
    exists i, x, d, 2. split_and!; try done; [by rewrite view_out| |by left|by right].
    by eapply (Forall_lookup_1 _ _ _ _ (co_disk _ Hok)).
Qed.

Lemma bread_abs s A b :
  abs s A → 0 ≤ b < Z.of_nat (length (dk A)) → (∀ i d, hd A !! i ≠ Some (b, d)) →
  b ∈ dt A ∨ Z.of_nat (size (hd A)) + Z.of_nat (size (dt A)) < NBUF →
  ∃ i d s', bread me 1 b s = Ok i s' ∧ vw A b = Some d ∧ length d = 512%nat ∧ hd A !! i = None ∧
    abs s' (AC (vw A) (dk A) (ws A) (dt A) (<[i := (b, d)]> (hd A))).
Proof.
  intros HA Hb Hfree Hroom. destruct (bread_exists s A b HA Hb Hfree Hroom) as (i & x & d & fl & Hi & H0 & Hd & Hl & E & Hfl & Hcase).
  exists i, d, (set_bufs (<[i := Buf fl 1 b 1 me 1 d]> (bufs s)) s). split; [done|]. split; [done|]. split; [done|].
  pose proof (held_at s A i x HA Hi) as Hat. unfold held_buf in Hat.
  split; [destruct (hd A !! i); [by rewrite H0 in Hat|done]|].
  assert (holds x b ∨ flags x ≠ 6 ∧ refcnt x = 0 ∧ ∀ j z, bufs s !! j = Some z → ¬ holds z b) as Hx' by naive_solver.
  pose proof (put_dirty_iff s A i x (Buf fl 1 b 1 me 1 d) HA Hi) as Hput. cbn in Hput. rewrite (ab_dirty _ _ HA) in Hput.
  assert (buf_ok (memdisk s) (Buf fl 1 b 1 me 1 d)) as Hy.
  { rewrite (ab_disk _ _ HA). split; cbn; [by right|done|done|]. right. split_and!; (done || lia). }
  eapply (abs_ext _ (AC _ _ _ _ _)); [apply (put_abs s A i x (Buf fl 1 b 1 me 1 d) HA Hi Hy); [cbn; lia|exact Hx']| |]; cbn.
  - intros b' Hb'. by apply upd_same.
  - intros b'. specialize (Hput Hy ltac:(lia) Hx'). case_decide; destruct (decide (b' = b)) as [->|]; set_solver.
Qed.

Lemma get_data_abs s A i b d : abs s A → hd A !! i = Some (b, d) → get_data i s = Ok d s.
Proof.
  intros HA Hd. destruct (held_buf_ok s A i b d HA Hd) as (fl & Hi & _). unfold get_data.
  by rewrite (bind_ok _ _ _ _ _ (get_buf_ok s i _ Hi)).
Qed.

(** Changing a buffer that is held. *)
Lemma change_abs s A i b d fl fl' d' :
  abs s A → bufs s !! i = Some (Buf fl 1 b 1 me 1 d) → fl' = 2 ∨ fl' = 6 → length d' = 512%nat →
  abs (set_bufs (<[i := Buf fl' 1 b 1 me 1 d']> (bufs s)) s)
    (AC (upd (vw A) b d') (dk A) (ws A) (if decide (fl' = 6) then {[b]} ∪ dt A else dt A ∖ {[b]}) (<[i := (b, d')]> (hd A))).
Proof.
  intros HA Hi Hfl Hl. pose proof (ab_ok _ _ HA) as Hok. pose proof (co_buf _ Hok i _ Hi) as []. cbn in *.
  destruct bo_flags0 as [[_ ?]|[Hf _]]; [done|]. destruct bo_block0 as [? ?]; [lia|].
  apply (put_abs s A i _ (Buf fl' 1 b 1 me 1 d') HA Hi); [|cbn; lia|by left].
  split; cbn; [by right|done|done|]. right. split_and!; (done || lia).
Qed.

Lemma put_data_abs s A i b d d' :
  abs s A → hd A !! i = Some (b, d) → length d' = 512%nat →
  ∃ s', put_data i d' s = Ok tt s' ∧ abs s' (AC (upd (vw A) b d') (dk A) (ws A) (dt A) (<[i := (b, d')]> (hd A))).
Proof.
  intros HA Hd Hl. destruct (held_buf_ok s A i b d HA Hd) as (fl & Hi & Hfl & Hdt & _).
  eexists. split; [unfold put_data; by rewrite (bind_ok _ _ _ _ _ (get_buf_ok s i _ Hi))|].
  eapply (abs_ext _ (AC _ _ _ _ _)); [by apply (change_abs s A i b d fl fl d' HA Hi Hfl Hl)|done|]. cbn.
  intros b'. by apply dirty_same.
Qed.

Lemma mark_dirty_abs s A i b d :
  abs s A → hd A !! i = Some (b, d) →
  ∃ s', (let! x := get_buf i in put_buf i (set_flags x (Z.lor (flags x) B_DIRTY))) s = Ok tt s' ∧
        abs s' (AC (vw A) (dk A) (ws A) ({[b]} ∪ dt A) (hd A)).
Proof.
  intros HA Hd. destruct (held_buf_ok s A i b d HA Hd) as (fl & Hi & Hfl & Hdt & ? & Hl & Hv).
  eexists. split; [by rewrite (bind_ok _ _ _ _ _ (get_buf_ok s i _ Hi))|].
  replace (Z.lor _ B_DIRTY) with 6 by (by destruct Hfl as [-> | ->]).
  pose proof (abs_ext _ _ (vw A) ({[b]} ∪ dt A) (change_abs s A i b d fl 6 d HA Hi (or_intror eq_refl) Hl)) as Hext.
  cbn in Hext. rewrite (insert_id (hd A) i (b, d) Hd) in Hext. apply Hext; [|done].
  intros b' Hb'. by apply upd_same.
Qed.

(** The write to the disk of a block that is held. *)
Lemma disk_abs s A i b d :
  abs s A → hd A !! i = Some (b, d) →
  abs (Bc (bufs s) (lru s) (<[Z.to_nat b := d]> (memdisk s)) (writes s ++ [(b, d)]))
      (AC (vw A) (set_disk (dk A) b d) (ws A ++ [(b, d)]) (dt A) (hd A)).
Proof.
  intros HA Hd. destruct (held_buf_ok s A i b d HA Hd) as (fl & Hi & Hfl & _ & Hb & Hl & _).
  destruct HA as [Hok Hv Hdk Hws Hdt Hhd Hnh Hnd]. set (s' := Bc _ _ _ _).
  assert (∀ j x, bufs s !! j = Some x → refcnt x = 0 → holds x b → False) as Hnot.
  { intros j x Hj H0 Hx. assert (j = i) as -> by (by eapply (co_uniq _ Hok j i x _ b)). rewrite Hi in Hj. by injection Hj as <-. }
  split; cbn; try done; [|intros b' Hb'; rewrite <- Hv by done|unfold set_disk; by rewrite Hdk|by rewrite Hws].
  - pose proof Hok as []. split; cbn; try done; [|by apply Forall_insert].
    intros j x Hj. pose proof (co_buf0 j x Hj) as []. split; try done; [by rewrite length_insert|].
    intros Hf H0. destruct bo_flags0 as [[? _]|[_ Hdev]]; [lia|].
    rewrite list_lookup_insert_ne; [by apply bo_clean0|]. intros E. apply (Hnot j x Hj H0). split; [done|].
    destruct bo_block0; lia.
  - destruct (decide (b' = b)) as [->|].
    + rewrite (view_in s i _ b Hok Hi) by done. unfold view. cbn [bufs s'].
      destruct (list_find _ (bufs s)) as [[j y]|] eqn:Ef.
      * apply list_find_Some in Ef as (Hj & Hy & _). assert (j = i) as -> by (by eapply (co_uniq _ Hok j i y _ b)). congruence.
      * apply list_find_None in Ef. by eapply (Forall_lookup_1 _ _ _ _ Ef) in Hi as [].
    + unfold view. cbn [bufs memdisk s']. destruct (list_find _ (bufs s)) as [[j y]|]; [done|].
      apply list_lookup_insert_ne. lia.
Qed.

Lemma bwrite_abs s A i b d :
  abs s A → hd A !! i = Some (b, d) →
  ∃ s', bwrite me i s = Ok tt s' ∧
        abs s' (AC (vw A) (set_disk (dk A) b d) (ws A ++ [(b, d)]) (dt A ∖ {[b]}) (hd A)).
Proof.
  intros HA Hd. destruct (held_buf_ok s A i b d HA Hd) as (fl & Hi & Hfl & _ & Hb & Hl & Hv).
  pose proof (disk_abs s A i b d HA Hd) as HA1. set (s1 := Bc _ _ _ _) in HA1.
  exists (set_bufs (<[i := Buf 2 1 b 1 me 1 d]> (bufs s1)) s1). split.
  - unfold bwrite. rewrite (bind_ok _ _ _ _ _ (get_buf_ok s i _ Hi)). unfold holdingsleep at 1. cbn [locked pid]. rewrite Z.eqb_refl.
    cbn [negb andb Z.eqb]. erewrite bind_ok by reflexivity. replace (Z.lor _ B_DIRTY) with 6 by (by destruct Hfl as [-> | ->]).
    unfold iderw. rewrite (bind_ok _ _ _ _ _ (get_put s i _ (set_flags (Buf fl 1 b 1 me 1 d) 6) Hi)).
    unfold holdingsleep. cbn [locked pid flags dev blockno data set_flags]. rewrite Z.eqb_refl.
    change (Z.land 6 (Z.lor B_VALID B_DIRTY) =? B_VALID) with false. cbn [negb andb Z.eqb Pos.eqb].
    erewrite bind_ok by reflexivity. cbn [memdisk set_bufs]. rewrite (ab_disk _ _ HA), (proj2 (Z.leb_gt _ _)) by lia.
    change (has 6 B_DIRTY) with true. cbv match. erewrite bind_ok by reflexivity.
    unfold put_buf, modify, s1, set_bufs. cbn. by rewrite list_insert_insert_eq, (ab_disk _ _ HA).
  - pose proof (change_abs s1 _ i b d fl 2 d HA1 Hi (or_introl eq_refl) Hl) as Hext.
    eapply (abs_ext _ _ (vw A) (dt A ∖ {[b]})) in Hext; cbn; [|intros b' Hb'; by apply upd_same|done].
    cbn in Hext. by rewrite (insert_id (hd A) i (b, d) Hd) in Hext.
Qed.

(** Releasing a buffer that is dirty, or that agrees with the disk. *)
Lemma brelse_abs s A i b d :
  abs s A → hd A !! i = Some (b, d) → b ∈ dt A ∨ dk A !! Z.to_nat b = Some d →
  ∃ s', brelse me i s = Ok tt s' ∧ abs s' (AC (vw A) (dk A) (ws A) (dt A) (delete i (hd A))).
Proof.
  intros HA Hd Hclean. destruct (held_buf_ok s A i b d HA Hd) as (fl & Hi & Hfl & Hdt & Hb & Hl & Hv).
  set (s1 := set_bufs (<[i := Buf fl 1 b 0 0 0 d]> (bufs s)) s).
  assert (abs s1 (AC (vw A) (dk A) (ws A) (dt A) (delete i (hd A)))) as HA1.
  { assert (buf_ok (memdisk s) (Buf fl 1 b 0 0 0 d)) as Hy.
    { split; cbn; [by right|rewrite (ab_disk _ _ HA); done| |by left].
      intros -> _. destruct Hclean as [Hin|]; [by apply Hdt in Hin|by rewrite (ab_disk _ _ HA)]. }
    pose proof (put_abs s A i _ (Buf fl 1 b 0 0 0 d) HA Hi Hy ltac:(cbn; lia) (or_introl (conj eq_refl eq_refl))) as Hext.
    eapply (abs_ext _ _ (vw A) (dt A)) in Hext; cbn; [exact Hext|intros b' Hb'; by apply upd_same|].
    intros b'. by apply dirty_same. }
  exists (Bc (bufs s1) (i :: filter (λ j, j ≠ i) (lru s1)) (memdisk s1) (writes s1)). split.
  - unfold brelse. rewrite (bind_ok _ _ _ _ _ (get_buf_ok s i _ Hi)). unfold holdingsleep. cbn [locked pid]. rewrite Z.eqb_refl.
    cbn [negb andb Z.eqb]. unfold releasesleep. erewrite bind_ok by (rewrite (bind_ok _ _ _ _ _ (get_buf_ok s i _ Hi)); reflexivity).
    rewrite (bind_ok _ _ _ _ _ (get_put s i _ _ Hi)). erewrite bind_ok by (by eapply put_put). reflexivity.
  - destruct HA1 as [Hok1 ? ? ? ? ? ? ?]. split; try done. pose proof Hok1 as []. split; try done.
    cbn. intros j. rewrite <- co_lru0, elem_of_cons, list_elem_of_filter.
    destruct (decide (j = i)) as [->|]; [|naive_solver]. rewrite co_lru0. split; [|naive_solver].
    intros _. rewrite <- (co_len _ (ab_ok _ _ HA)). by eapply lookup_lt_Some.
Qed.

End Cache.
End BioInv.
