(* ===== verification/Log.v ===== *)
(** Log: the file-system log of xv6 (p4/xv6-public/log.c; [readsb] is in fs.c),
    on the buffer cache. *)
From S2P Require Import Prelude Memory Bio.
Local Open Scope Z_scope.

Module Log.
Import Bio.

Definition MAXOPBLOCKS : Z := 10.
Definition LOGSIZE : Z := MAXOPBLOCKS * 3.
Definition ROOTDEV : Z := 1.

(** [struct log], with its header [lh]. *)
Record log := Lg {
  start : Z; lsize : Z; outstanding : Z; committing : Z; ldev : Z; lh_n : Z; lh_block : list Z
}.
Record fsst := Fs { io : bcache; lg : log }.

Definition on_io {A} (f : ST bcache A) : ST fsst A := λ s,
  match f (io s) with Ok a c => Ok a (Fs c (lg s)) | Fault => Fault end.
Definition set_log (f : log → log) : ST fsst unit := modify (λ s, Fs (io s) (f (lg s))).
Definition set_n (n : Z) (l : log) : log := Lg (start l) (lsize l) (outstanding l) (committing l) (ldev l) n (lh_block l).
Definition set_block (b : list Z) (l : log) : log := Lg (start l) (lsize l) (outstanding l) (committing l) (ldev l) (lh_n l) b.
Definition set_outstanding (n : Z) (l : log) : log := Lg (start l) (lsize l) n (committing l) (ldev l) (lh_n l) (lh_block l).
Definition set_committing (n : Z) (l : log) : log := Lg (start l) (lsize l) (outstanding l) n (ldev l) (lh_n l) (lh_block l).

(** The [i]-th word of a block, as an [int]. *)
Definition word (d : block) (i : Z) : Z := wraps 32 (le_decode (take 4 (drop (Z.to_nat (4 * i)) d))).
Definition set_word (d : block) (i z : Z) : block :=
  take (Z.to_nat (4 * i)) d ++ le_encode 4 z ++ drop (Z.to_nat (4 * i) + 4) d.

(** [struct superblock] *)
Record superblock := Sb {
  sb_size : Z; nblocks : Z; ninodes : Z; nlog : Z; logstart : Z; inodestart : Z; bmapstart : Z
}.

Section Log.
Context (me : Z).

(** [bread(log.dev, b)]: device and block number become unsigned. *)
Definition bread_log (b : Z) : ST fsst nat :=
  let! l := gets lg in on_io (bread me (u32 (ldev l)) (u32 b)).

Definition readsb (dev : Z) : ST fsst superblock :=
  let! bp := on_io (bread me (u32 dev) 1) in
  let! d := on_io (get_data bp) in
  let w := λ i, u32 (word d i) in
  do! on_io (brelse me bp) in
  ret (Sb (w 0) (w 1) (w 2) (w 3) (w 4) (w 5) (w 6)).

(** One turn of the loop of [install_trans] and of [write_log]: [memmove] from
    block [src] to block [dst], and [dst] is written. *)
Definition install_block (tail : Z) : ST fsst (option unit) :=
  let! l := gets lg in
  let! lbuf := bread_log (start l + tail + 1) in
  let! b := of_opt (lh_block l !! Z.to_nat tail) in
  let! dbuf := bread_log b in
  let! d := on_io (get_data lbuf) in
  do! on_io (put_data dbuf d) in
  do! on_io (bwrite me dbuf) in
  do! on_io (brelse me lbuf) in
  do! on_io (brelse me dbuf) in
  ret None.
Definition install_trans : ST fsst unit :=
  let! l := gets lg in
  let! _ := for_range 0 (lh_n l) install_block in ret tt.

(** [log.lh.block[i] = lh->block[i]]; both arrays end before [LOGSIZE]. *)
Definition read_entry (d : block) (i : Z) : ST fsst (option unit) :=
  if LOGSIZE <=? i then fault else
  do! set_log (λ l, set_block (<[Z.to_nat i := word d (i + 1)]> (lh_block l)) l) in ret None.
Definition read_head : ST fsst unit :=
  let! l := gets lg in
  let! buf := bread_log (start l) in
  let! d := on_io (get_data buf) in
  let n := word d 0 in
  do! set_log (set_n n) in
  let! _ := for_range 0 n (read_entry d) in
  on_io (brelse me buf).

Definition write_entry (buf : nat) (i : Z) : ST fsst (option unit) :=
  let! l := gets lg in
  let! b := of_opt (lh_block l !! Z.to_nat i) in
  let! d := on_io (get_data buf) in
  do! on_io (put_data buf (set_word d (i + 1) b)) in ret None.
Definition write_head : ST fsst unit :=
  let! l := gets lg in
  let! buf := bread_log (start l) in
  let! d := on_io (get_data buf) in
  do! on_io (put_data buf (set_word d 0 (lh_n l))) in
  let! _ := for_range 0 (lh_n l) (write_entry buf) in
  do! on_io (bwrite me buf) in
  on_io (brelse me buf).

Definition recover_from_log : ST fsst unit :=
  do! read_head in
  do! install_trans in
  do! set_log (set_n 0) in
  write_head.

Definition initlog (dev : Z) : ST fsst unit :=
  let! sb := readsb dev in
  do! set_log (λ l, Lg (wraps 32 (logstart sb)) (wraps 32 (nlog sb)) (outstanding l) (committing l) dev (lh_n l) (lh_block l)) in
  recover_from_log.

(** One turn of the loop of [begin_op]; the answer is whether the operation may
    start, else the process sleeps. *)
Definition begin_op_turn : ST fsst bool :=
  let! l := gets lg in
  if negb (committing l =? 0) then ret false else
  if LOGSIZE <? lh_n l + (outstanding l + 1) * MAXOPBLOCKS then ret false else
  do! set_log (set_outstanding (outstanding l + 1)) in ret true.

Definition copy_to_log (tail : Z) : ST fsst (option unit) :=
  let! l := gets lg in
  let! to := bread_log (start l + tail + 1) in
  let! b := of_opt (lh_block l !! Z.to_nat tail) in
  let! from := bread_log b in
  let! d := on_io (get_data from) in
  do! on_io (put_data to d) in
  do! on_io (bwrite me to) in
  do! on_io (brelse me from) in
  do! on_io (brelse me to) in
  ret None.
Definition write_log : ST fsst unit :=
  let! l := gets lg in
  let! _ := for_range 0 (lh_n l) copy_to_log in ret tt.

Definition commit : ST fsst unit :=
  let! l := gets lg in
  if 0 <? lh_n l then
    do! write_log in
    do! write_head in
    do! install_trans in
    do! set_log (set_n 0) in
    write_head
  else ret tt.

Definition end_op : ST fsst unit :=
  do! set_log (λ l, set_outstanding (outstanding l - 1) l) in
  let! l := gets lg in
  if negb (committing l =? 0) then fault else
  if outstanding l =? 0 then
    do! set_log (set_committing 1) in
    do! commit in
    set_log (set_committing 0)
  else ret tt.

(** [log_write(b)]: the index that the loop finds is that of the first entry
    with this block number, else [n]. *)
Definition log_index (l : log) (b : Z) : nat :=
  match list_find (λ x, x = b) (take (Z.to_nat (lh_n l)) (lh_block l)) with
  | Some (i, _) => i
  | None => Z.to_nat (lh_n l)
  end.
Definition log_write (i : nat) : ST fsst unit :=
  let! l := gets lg in
  if (LOGSIZE <=? lh_n l) || (lsize l - 1 <=? lh_n l) then fault else
  if outstanding l <? 1 then fault else
  let! x := on_io (get_buf i) in
  let k := log_index l (wraps 32 (blockno x)) in
  do! set_log (set_block (<[k := wraps 32 (blockno x)]> (lh_block l))) in
  do! set_log (λ l', if Z.of_nat k =? lh_n l then set_n (lh_n l + 1) l' else l') in
  on_io (let! x := get_buf i in put_buf i (set_flags x (Z.lor (flags x) B_DIRTY))).

End Log.
End Log.
