(* ===== verification/LogInv.v ===== *)
(** LogInv: commit and recovery: whatever number of the disk writes of a commit
    has been done when the machine stops, recovery makes all of the transaction
    visible or nothing of it. *)
From S2P Require Import Prelude Memory Bio BioInv Log.
From stdpp Require Import gmap.
Local Open Scope Z_scope.

Module LogInv.
Import Bio BioInv Log.

(** * The log header *)

Lemma length_set_word d i z : 0 ≤ i < 128 → length d = 512%nat → length (set_word d i z) = 512%nat.
Proof. intros Hi Hl. unfold set_word. rewrite !length_app, length_take, length_le_encode, length_drop. lia. Qed.

Lemma word_set_eq d i z : 0 ≤ i < 128 → length d = 512%nat → word (set_word d i z) i = i32 z.
Proof.
  intros Hi Hl. unfold word, set_word. rewrite drop_app_length' by (rewrite length_take; lia).
  rewrite take_app_length' by (by rewrite length_le_encode). rewrite le_decode_encode.
  change (8 * Z.of_nat 4) with 32. unfold i32. by rewrite wraps_wrapu.
Qed.

Lemma word_set_ne d i j z : 0 ≤ i < 128 → 0 ≤ j < 128 → i ≠ j → length d = 512%nat → word (set_word d i z) j = word d j.
Proof.
  intros Hi Hj Hne Hl. unfold word. do 2 f_equal. apply list_eq. intros k.
  destruct (decide (k < 4)%nat); [|by rewrite !lookup_take_ge by lia].
  rewrite !lookup_take_lt, !lookup_drop by lia. unfold set_word.
  destruct (decide (j < i)).
  - rewrite lookup_app_l by (rewrite length_take; lia). by rewrite lookup_take_lt by lia.
  - rewrite lookup_app_r by (rewrite length_take; lia). rewrite length_take.
    rewrite lookup_app_r by (rewrite length_le_encode; lia). rewrite length_le_encode, lookup_drop. f_equal. lia.
Qed.

(** A header block that lists the blocks [bs]. *)
Definition header_is (d : block) (bs : list Z) : Prop :=
  length d = 512%nat ∧ word d 0 = Z.of_nat (length bs) ∧
  ∀ i b, bs !! i = Some b → word d (Z.of_nat i + 1) = b.

(** * Writes to the disk *)

Definition apply_writes (U : list (Z * block)) (d : list block) : list block :=
  foldl (λ d '(b, x), set_disk d b x) d U.
Definition upd_all (f : Z → option block) (U : list (Z * block)) : Z → option block :=
  foldl (λ f '(b, x), upd f b x) f U.

Lemma apply_app U V d : apply_writes (U ++ V) d = apply_writes V (apply_writes U d).
Proof. apply foldl_app. Qed.

Lemma length_apply U d : length (apply_writes U d) = length d.
Proof. revert d. induction U as [|[b x] U IH]; intros d; [done|]. cbn. unfold apply_writes in IH. rewrite IH; apply length_insert. Qed.

Lemma Forall_apply P U d : Forall P d → Forall (λ u, P u.2) U → Forall P (apply_writes U d).
Proof.
  revert d. induction U as [|[b x] U IH]; intros d Hd HU; [done|]. apply Forall_cons in HU as [? ?]. cbn. apply IH; [|done].
  by apply Forall_insert.
Qed.

Lemma apply_notin U d b :
  0 ≤ b → (∀ u, u ∈ U → 0 ≤ u.1 ∧ u.1 ≠ b) → apply_writes U d !! Z.to_nat b = d !! Z.to_nat b.
Proof.
  intros Hb. revert d. induction U as [|[c x] U IH]; intros d HU; [done|]. cbn. unfold apply_writes in IH.
  rewrite IH; [|intros; apply HU; by right]. destruct (HU (c, x) ltac:(left)) as [? ?]. cbn in *.
  apply list_lookup_insert_ne. lia.
Qed.

Lemma apply_in U d b x :
  NoDup U.*1 → (∀ u, u ∈ U → 0 ≤ u.1 < Z.of_nat (length d)) → (b, x) ∈ U → apply_writes U d !! Z.to_nat b = Some x.
Proof.
  revert d. induction U as [|[c y] U IH]; intros d Hnd HU Hin; [by apply elem_of_nil in Hin|].
  cbn in Hnd. apply NoDup_cons in Hnd as [Hc Hnd]. cbn. pose proof (HU (c, y) ltac:(left)) as Hrange. cbn in Hrange.
  apply elem_of_cons in Hin as [[= -> ->]|Hin].
  - fold (apply_writes U (set_disk d c y)). rewrite apply_notin; [|lia|].
    + apply list_lookup_insert_eq. lia.
    + intros u Hu. split; [by destruct (HU u ltac:(by right))|]. intros <-. apply Hc. apply list_elem_of_fmap. by exists u.
  - apply IH; [done| |done]. intros u Hu. unfold set_disk. rewrite length_insert. apply HU. by right.
Qed.

Lemma upd_all_notin U f b : b ∉ U.*1 → upd_all f U b = f b.
Proof.
  revert f. induction U as [|[c x] U IH]; intros f HU; [done|]. cbn in *. apply not_elem_of_cons in HU as [? ?].
  unfold upd_all in IH. rewrite IH by done. unfold upd. by rewrite decide_False.
Qed.

Lemma upd_all_in U f b x : NoDup U.*1 → (b, x) ∈ U → upd_all f U b = Some x.
Proof.
  revert f. induction U as [|[c y] U IH]; intros f Hnd Hin; [by apply elem_of_nil in Hin|].
  cbn in *. apply NoDup_cons in Hnd as [Hc Hnd]. apply elem_of_cons in Hin as [[= -> ->]|Hin].
  - fold (upd_all (upd f c y) U). rewrite upd_all_notin by done. unfold upd. by rewrite decide_True.
  - by apply IH.
Qed.

(** The abstract cache after the blocks of [U] have been read and written. *)
Definition after (A : acache) (U : list (Z * block)) : acache :=
  AC (upd_all (vw A) U) (apply_writes U (dk A)) (ws A ++ U) (dt A ∖ list_to_set U.*1) ∅.

Lemma after_snoc A U b d :
  AC (upd (vw (after A U)) b d) (set_disk (dk (after A U)) b d) (ws (after A U) ++ [(b, d)]) (dt (after A U) ∖ {[b]}) ∅ =
  after A (U ++ [(b, d)]).
Proof.
  unfold after. cbn. f_equal.
  - unfold upd_all. by rewrite foldl_app.
  - by rewrite apply_app.
  - by rewrite app_assoc.
  - rewrite fmap_app, list_to_set_app_L. cbn. set_solver.
Qed.

Lemma after_nil A : hd A = ∅ → after A [] = A.
Proof. destruct A as [v k w t h]. cbn. intros ->. unfold after. cbn. rewrite app_nil_r. f_equal. set_solver. Qed.

Lemma after_app A U V : after (after A U) V = after A (U ++ V).
Proof.
  unfold after. cbn. f_equal.
  - unfold upd_all. by rewrite foldl_app.
  - by rewrite apply_app.
  - by rewrite app_assoc.
  - rewrite fmap_app, list_to_set_app_L. set_solver.
Qed.

(** * Steps of the log code *)

#[local] Ltac ac := cbn [vw dk ws dt hd] in *.

Section Steps.
Context (me : Z).

(** The abstract cache and the log of a state; block numbers fit into an [int]. *)
Definition fsabs (s : fsst) (A : acache) (L : log) : Prop :=
  abs me (io s) A ∧ lg s = L ∧ Z.of_nat (length (dk A)) ≤ 2 ^ 31 ∧ ldev L = 1.

Lemma on_io_ok {R} (f : ST bcache R) s r c : f (io s) = Ok r c → on_io f s = Ok r (Fs c (lg s)).
Proof. unfold on_io. by intros ->. Qed.

Lemma bread_log_ok s A L b :
  fsabs s A L → 0 ≤ b < Z.of_nat (length (dk A)) → (∀ i d, hd A !! i ≠ Some (b, d)) →
  b ∈ dt A ∨ Z.of_nat (size (hd A)) + Z.of_nat (size (dt A)) < NBUF →
  ∃ i d s', bread_log me b s = Ok i s' ∧ vw A b = Some d ∧ length d = 512%nat ∧ hd A !! i = None ∧
    fsabs s' (AC (vw A) (dk A) (ws A) (dt A) (<[i := (b, d)]> (hd A))) L.
Proof.
  intros (HA & HL & Hlim & Hdev) Hb Hfree Hroom.
  destruct (bread_abs me (io s) A b HA Hb Hfree Hroom) as (i & d & c & E & Hd & Hl & Hi & HA').
  exists i, d, (Fs c (lg s)). split; [|done]. unfold bread_log. erewrite bind_ok by reflexivity.
  rewrite HL, Hdev, (u32_small 1), (u32_small b) by lia. rewrite <- HL. by apply on_io_ok.
Qed.

Lemma put_data_ok s A L i b d d' :
  fsabs s A L → hd A !! i = Some (b, d) → length d' = 512%nat →
  ∃ s', on_io (put_data i d') s = Ok tt s' ∧ fsabs s' (AC (upd (vw A) b d') (dk A) (ws A) (dt A) (<[i := (b, d')]> (hd A))) L.
Proof.
  intros (HA & HL & ?) Hi Hl. destruct (put_data_abs me (io s) A i b d d' HA Hi Hl) as (c & E & HA').
  eexists. by split; [by apply on_io_ok|].
Qed.

Lemma bwrite_ok s A L i b d :
  fsabs s A L → hd A !! i = Some (b, d) →
  ∃ s', on_io (bwrite me i) s = Ok tt s' ∧
        fsabs s' (AC (vw A) (set_disk (dk A) b d) (ws A ++ [(b, d)]) (dt A ∖ {[b]}) (hd A)) L.
Proof.
  intros (HA & HL & Hlim & ?) Hi. destruct (bwrite_abs me (io s) A i b d HA Hi) as (c & E & HA').
  eexists. split; [by apply on_io_ok|]. split_and!; try done. cbn. unfold set_disk. by rewrite length_insert.
Qed.

Lemma brelse_ok s A L i b d :
  fsabs s A L → hd A !! i = Some (b, d) → b ∈ dt A ∨ dk A !! Z.to_nat b = Some d →
  ∃ s', on_io (brelse me i) s = Ok tt s' ∧ fsabs s' (AC (vw A) (dk A) (ws A) (dt A) (delete i (hd A))) L.
Proof.
  intros (HA & HL & ?) Hi Hc. destruct (brelse_abs me (io s) A i b d HA Hi Hc) as (c & E & HA').
  eexists. by split; [by apply on_io_ok|].
Qed.

Lemma get_data_ok s A L i b d : fsabs s A L → hd A !! i = Some (b, d) → on_io (get_data i) s = Ok d s.
Proof.
  intros (HA & HL & ?) Hi. rewrite (on_io_ok _ _ _ _ (get_data_abs me (io s) A i b d HA Hi)). by destruct s.
Qed.

Lemma lg_ok s A L : fsabs s A L → gets lg s = Ok L s.
Proof. by intros (_ & <- & _). Qed.

(** A block that is neither dirty nor in a buffer in use looks as it is on the
    disk. *)
Lemma unheld_view s A L b :
  fsabs s A L → (∀ i d, hd A !! i ≠ Some (b, d)) → 0 ≤ b < Z.of_nat (length (dk A)) → b ∉ dt A →
  vw A b = dk A !! Z.to_nat b.
Proof.
  intros (HA & _) Hhd Hb Hdt. pose proof (ab_ok _ _ _ HA) as Hok. rewrite <- (ab_view _ _ _ HA), <- (ab_disk _ _ _ HA) by lia.
  destruct (cached_dec (io s) b) as [(i & x & Hi & Hx)|Hno]; [|by apply view_out].
  rewrite (view_in me (io s) i x b Hok Hi Hx). symmetry. pose proof (co_buf _ _ Hok i x Hi) as []. pose proof Hx as [Hdev <-].
  destruct bo_flags0 as [[_ ?]|[[Hf|Hf] _]]; [lia| |].
  - apply bo_clean0; [done|]. destruct (decide (refcnt x = 0)) as [|Hr]; [done|].
    pose proof (buf_held me (io s) i x Hok Hi Hr) as Hh. apply (ab_held _ _ _ HA) in Hh. by destruct (Hhd i (data x)).
  - destruct Hdt. apply (ab_dirty _ _ _ HA). by exists i, x.
Qed.

Lemma clean_view s A L b :
  fsabs s A L → hd A = ∅ → 0 ≤ b < Z.of_nat (length (dk A)) → b ∉ dt A → vw A b = dk A !! Z.to_nat b.
Proof. intros HA Hhd. eapply unheld_view; [done|]. by rewrite Hhd. Qed.

(** ** Copying a block *)

Lemma after_hd A U : hd (after A U) = ∅.
Proof. done. Qed.

(** [install_block]: block [b] becomes what log block [src] is. *)
Lemma install_block_ok s A L tail b :
  fsabs s A L → hd A = ∅ → lh_block L !! Z.to_nat tail = Some b →
  let src := start L + tail + 1 in
  0 ≤ src < Z.of_nat (length (dk A)) → 0 ≤ b < Z.of_nat (length (dk A)) → src ≠ b → src ∉ dt A →
  Z.of_nat (size (dt A)) < NBUF → b ∈ dt A ∨ Z.of_nat (size (dt A)) + 1 < NBUF →
  ∃ d s', vw A src = Some d ∧ length d = 512%nat ∧ install_block me tail s = Ok None s' ∧ fsabs s' (after A [(b, d)]) L.
Proof.
  intros HA Hhd Hb src Hsrc Hrange Hne Hcl Hroom1 Hroom2. unfold install_block.
  rewrite (bind_ok _ _ _ _ _ (lg_ok s A L HA)). fold src.
  destruct (bread_log_ok s A L src HA Hsrc) as (i & d & s1 & E1 & Hd & Hl & Hi & HA1);
    [by rewrite Hhd|right; rewrite Hhd, map_size_empty; lia|].
  pose proof (clean_view s A L src HA Hhd Hsrc Hcl) as Hdisk. rewrite Hd in Hdisk.
  rewrite (bind_ok _ _ _ _ _ E1), Hb. cbn [of_opt]. erewrite bind_ok by reflexivity. rewrite Hhd in HA1.
  destruct (bread_log_ok s1 _ L b HA1) as (j & d0 & s2 & E2 & Hd0 & Hl0 & Hj & HA2); ac; [done| | |].
  { intros k d' E. apply lookup_insert_Some in E as [[_ [= ? ?]]|[_ ?]]; [done|by apply lookup_empty_Some in H]. }
  { destruct Hroom2; [by left|right]. rewrite map_size_insert, lookup_empty, map_size_empty. cbn. lia. }
  assert (i ≠ j) as Hij by (intros ->; by rewrite lookup_insert_eq in Hj).
  rewrite (bind_ok _ _ _ _ _ E2). rewrite (bind_ok _ _ _ _ _ (get_data_ok s2 _ L i src d HA2 ltac:(ac; by rewrite lookup_insert_ne, lookup_insert_eq))).
  destruct (put_data_ok s2 _ L j b d0 d HA2 (lookup_insert_eq _ _ _) Hl) as (s3 & E3 & HA3). rewrite (bind_ok _ _ _ _ _ E3).
  ac. rewrite insert_insert_eq in HA3.
  destruct (bwrite_ok s3 _ L j b d HA3 (lookup_insert_eq _ _ _)) as (s4 & E4 & HA4). rewrite (bind_ok _ _ _ _ _ E4). ac.
  destruct (brelse_ok s4 _ L i src d HA4) as (s5 & E5 & HA5); ac; [by rewrite lookup_insert_ne, lookup_insert_eq| |].
  { right. unfold set_disk. rewrite list_lookup_insert_ne by lia. done. }
  rewrite (bind_ok _ _ _ _ _ E5). rewrite delete_insert_ne, delete_insert_eq, delete_empty in HA5 by done.
  destruct (brelse_ok s5 _ L j b d HA5) as (s6 & E6 & HA6); ac; [by rewrite lookup_insert_eq| |].
  { right. unfold set_disk. apply list_lookup_insert_eq. lia. }
  rewrite (bind_ok _ _ _ _ _ E6). exists d, s6. split_and!; try done. rewrite delete_insert_eq, delete_empty in HA6.
  unfold after. cbn. by replace (dt A ∖ ({[b]} ∪ ∅)) with (dt A ∖ {[b]}) by set_solver.
Qed.

(** [copy_to_log]: a log block becomes what block [b] is. *)
Lemma copy_to_log_ok s A L tail b :
  fsabs s A L → hd A = ∅ → lh_block L !! Z.to_nat tail = Some b →
  let dst := start L + tail + 1 in
  0 ≤ dst < Z.of_nat (length (dk A)) → 0 ≤ b < Z.of_nat (length (dk A)) → dst ≠ b → b ∈ dt A →
  Z.of_nat (size (dt A)) < NBUF →
  ∃ d s', vw A b = Some d ∧ length d = 512%nat ∧ copy_to_log me tail s = Ok None s' ∧ fsabs s' (after A [(dst, d)]) L.
Proof.
  intros HA Hhd Hb dst Hdst Hrange Hne Hbd Hroom. unfold copy_to_log.
  rewrite (bind_ok _ _ _ _ _ (lg_ok s A L HA)). fold dst.
  destruct (bread_log_ok s A L dst HA Hdst) as (i & d0 & s1 & E1 & Hd0 & Hl0 & Hi & HA1);
    [by rewrite Hhd|right; rewrite Hhd, map_size_empty; lia|].
  rewrite (bind_ok _ _ _ _ _ E1), Hb. cbn [of_opt]. erewrite bind_ok by reflexivity. rewrite Hhd in HA1.
  destruct (bread_log_ok s1 _ L b HA1) as (j & d & s2 & E2 & Hd & Hl & Hj & HA2); ac; [done| |by left|].
  { intros k d' E. apply lookup_insert_Some in E as [[_ [= ? ?]]|[_ ?]]; [done|by apply lookup_empty_Some in H]. }
  assert (i ≠ j) as Hij by (intros ->; by rewrite lookup_insert_eq in Hj).
  rewrite (bind_ok _ _ _ _ _ E2). rewrite (bind_ok _ _ _ _ _ (get_data_ok s2 _ L j b d HA2 (lookup_insert_eq _ _ _))).
  destruct (put_data_ok s2 _ L i dst d0 d HA2) as (s3 & E3 & HA3); [ac; by rewrite lookup_insert_ne, lookup_insert_eq|done|].
  rewrite (bind_ok _ _ _ _ _ E3). ac.
  destruct (bwrite_ok s3 _ L i dst d HA3 (lookup_insert_eq _ _ _)) as (s4 & E4 & HA4). rewrite (bind_ok _ _ _ _ _ E4). ac.
  destruct (brelse_ok s4 _ L j b d HA4) as (s5 & E5 & HA5); ac; [by rewrite lookup_insert_ne, lookup_insert_eq| |].
  { left. set_solver. }
  rewrite (bind_ok _ _ _ _ _ E5).
  rewrite delete_insert_ne, delete_insert_eq, delete_insert_ne, delete_empty, insert_insert_eq in HA5 by done.
  destruct (brelse_ok s5 _ L i dst d HA5) as (s6 & E6 & HA6); ac; [by rewrite lookup_insert_eq| |].
  { right. unfold set_disk. apply list_lookup_insert_eq. lia. }
  rewrite (bind_ok _ _ _ _ _ E6). exists d, s6. split_and!; try done. rewrite delete_insert_eq, delete_empty in HA6.
  unfold after. cbn. by replace (dt A ∖ ({[dst]} ∪ ∅)) with (dt A ∖ {[dst]}) by set_solver.
Qed.

(** ** The header *)

Lemma write_entries s A L i b d n :
  fsabs s A L → hd A = {[ i := (b, d) ]} → length d = 512%nat → (n ≤ 127)%nat → (n ≤ length (lh_block L))%nat →
  Forall (λ x, - 2 ^ 31 ≤ x < 2 ^ 31) (lh_block L) →
  ∃ d' s', for_range 0 (Z.of_nat n) (write_entry i) s = Ok None s' ∧ length d' = 512%nat ∧ word d' 0 = word d 0 ∧
    (∀ j x, (j < n)%nat → lh_block L !! j = Some x → word d' (Z.of_nat j + 1) = x) ∧
    fsabs s' (AC (upd (vw A) b d') (dk A) (ws A) (dt A) {[ i := (b, d') ]}) L.
Proof.
  intros HA Hhd Hl Hn Hlen Hint.
  assert (wp (for_range 0 (Z.of_nat n) (write_entry i)) (λ r s', r = None ∧ ∃ d', length d' = 512%nat ∧ word d' 0 = word d 0 ∧
    (∀ j x, (j < n)%nat → lh_block L !! j = Some x → word d' (Z.of_nat j + 1) = x) ∧
    fsabs s' (AC (upd (vw A) b d') (dk A) (ws A) (dt A) {[ i := (b, d') ]}) L) s) as Hw.
  { apply (wp_for_range _ (λ k s', ∃ d', length d' = 512%nat ∧ word d' 0 = word d 0 ∧
      (∀ j x, Z.of_nat j < k → lh_block L !! j = Some x → word d' (Z.of_nat j + 1) = x) ∧
      fsabs s' (AC (upd (vw A) b d') (dk A) (ws A) (dt A) {[ i := (b, d') ]}) L)); [lia| | |].
    - exists d. split_and!; [done|done|lia|]. destruct HA as (HA & ?). split; [|done]. rewrite <- Hhd.
      assert (hd A !! i = Some (b, d)) as Hi by (rewrite Hhd; apply lookup_singleton_eq).
      destruct (held_buf_ok me (io s) A i b d HA Hi) as (_ & _ & _ & _ & _ & _ & Hv).
      apply abs_ext; [done| |done]. intros b' _. symmetry. by apply upd_same.
    - intros k s1 Hk (d1 & Hl1 & H0 & Hw & HA1). destruct (lookup_lt_is_Some_2 (lh_block L) (Z.to_nat k)) as [x Hx]; [lia|].
      unfold write_entry. unfold wp. rewrite (bind_ok _ _ _ _ _ (lg_ok s1 _ L HA1)), Hx. cbn [of_opt]. erewrite bind_ok by reflexivity.
      rewrite (bind_ok _ _ _ _ _ (get_data_ok s1 _ L i b d1 HA1 (lookup_singleton_eq _ _))).
      destruct (put_data_ok s1 _ L i b d1 (set_word d1 (k + 1) x) HA1 (lookup_singleton_eq _ _)) as (s2 & E2 & HA2);
        [apply length_set_word; lia|].
      rewrite (bind_ok _ _ _ _ _ E2). cbn. ac. exists (set_word d1 (k + 1) x). split_and!.
      + apply length_set_word; lia.
      + rewrite word_set_ne; (done || lia).
      + intros j y Hj Hy. destruct (decide (Z.of_nat j = k)) as [E|].
        * replace (Z.of_nat j) with k by lia. rewrite word_set_eq by (done || lia). replace (Z.to_nat k) with j in Hx by lia.
          rewrite Hy in Hx. injection Hx as <-. eapply (Forall_lookup_1 _ _ _ _ Hint) in Hy. by apply i32_small.
        * rewrite word_set_ne by (done || lia). apply Hw; [lia|done].
      + rewrite insert_singleton_eq in HA2. destruct HA2 as (HA2 & ? & ? & ?). split; [|done].
        eapply (abs_ext me _ (AC _ _ _ _ _)); [exact HA2| |done]. intros b' _. cbn. unfold upd. by case_decide.
    - intros s1 (d1 & Hl1 & H0 & Hw & HA1). split; [done|]. exists d1. split_and!; try done. intros j x Hj. apply Hw. lia. }
  apply wp_ok in Hw as (r & s' & E & -> & d' & ? & ? & ? & ?). by exists d', s'.
Qed.

Lemma write_head_ok s A L bs :
  fsabs s A L → hd A = ∅ → 0 ≤ start L < Z.of_nat (length (dk A)) → Z.of_nat (size (dt A)) < NBUF →
  lh_n L = Z.of_nat (length bs) → take (length bs) (lh_block L) = bs → (length bs ≤ 30)%nat →
  Forall (λ x, - 2 ^ 31 ≤ x < 2 ^ 31) (lh_block L) →
  ∃ d s', write_head me s = Ok tt s' ∧ header_is d bs ∧ fsabs s' (after A [(start L, d)]) L.
Proof.
  intros HA Hhd Hst Hroom Hn Hbs Hlen Hint. unfold write_head. rewrite (bind_ok _ _ _ _ _ (lg_ok s A L HA)).
  destruct (bread_log_ok s A L (start L) HA Hst) as (i & d0 & s1 & E1 & Hd0 & Hl0 & Hi & HA1);
    [by rewrite Hhd|right; rewrite Hhd, map_size_empty; lia|].
  rewrite (bind_ok _ _ _ _ _ E1). rewrite Hhd, insert_empty in HA1.
  rewrite (bind_ok _ _ _ _ _ (get_data_ok s1 _ L i _ d0 HA1 (lookup_singleton_eq _ _))).
  destruct (put_data_ok s1 _ L i _ d0 (set_word d0 0 (lh_n L)) HA1 (lookup_singleton_eq _ _)) as (s2 & E2 & HA2);
    [apply length_set_word; lia|]. rewrite (bind_ok _ _ _ _ _ E2). ac. rewrite insert_singleton_eq in HA2.
  destruct (write_entries s2 _ L i (start L) (set_word d0 0 (lh_n L)) (length bs) HA2 eq_refl) as (d & s3 & E3 & Hl & H0 & Hw & HA3);
    [apply length_set_word; lia|lia|rewrite <- Hbs at 1; rewrite length_take; lia|done|].
  rewrite Hn, (bind_ok _ _ _ _ _ E3). ac.
  destruct (bwrite_ok s3 _ L i _ d HA3 (lookup_singleton_eq _ _)) as (s4 & E4 & HA4). rewrite (bind_ok _ _ _ _ _ E4). ac.
  destruct (brelse_ok s4 _ L i _ d HA4 (lookup_singleton_eq _ _)) as (s5 & E5 & HA5); ac.
  { right. unfold set_disk. apply list_lookup_insert_eq. lia. }
  exists d, s5. split; [done|]. split.
  - split; [done|]. split; [by rewrite H0, word_set_eq, Hn, i32_small by lia|]. intros j b Hj.
    apply Hw; [by eapply lookup_lt_Some|]. rewrite <- Hbs in Hj. by apply lookup_take_Some in Hj as [? _].
  - rewrite delete_singleton_eq in HA5. destruct HA5 as (HA5 & ? & ? & ?). split; [|done]. unfold after. cbn.
    eapply (abs_ext me _ (AC _ _ _ _ _)); [exact HA5| |cbn; set_solver]. intros b' _. cbn. unfold upd. by case_decide.
Qed.

Lemma set_log_ok s A L f :
  fsabs s A L → ldev (f L) = 1 → ∃ s', set_log f s = Ok tt s' ∧ fsabs s' A (f L).
Proof. intros (HA & HL & ? & ?) Hf. eexists. split; [done|]. split_and!; try done. cbn. by rewrite HL. Qed.

Definition int_blocks (bl : list Z) : Prop :=
  length bl = Z.to_nat LOGSIZE ∧ Forall (λ x, - 2 ^ 31 ≤ x < 2 ^ 31) bl.

Lemma read_entries s A L d n :
  fsabs s A L → int_blocks (lh_block L) → (n ≤ 30)%nat →
  ∃ bl s', for_range 0 (Z.of_nat n) (read_entry d) s = Ok None s' ∧ int_blocks bl ∧
    (∀ j, (j < n)%nat → bl !! j = Some (word d (Z.of_nat j + 1))) ∧ fsabs s' A (set_block bl L).
Proof.
  intros HA Hint Hn.
  assert (wp (for_range 0 (Z.of_nat n) (read_entry d)) (λ r s', r = None ∧ ∃ bl, int_blocks bl ∧
    (∀ j, (j < n)%nat → bl !! j = Some (word d (Z.of_nat j + 1))) ∧ fsabs s' A (set_block bl L)) s) as Hw.
  { apply (wp_for_range _ (λ k s', ∃ bl, int_blocks bl ∧
      (∀ j, Z.of_nat j < k → bl !! j = Some (word d (Z.of_nat j + 1))) ∧ fsabs s' A (set_block bl L))); [lia| | |].
    - exists (lh_block L). split_and!; [done|lia|]. by destruct L.
    - intros k s1 Hk (bl & [Hl Hb] & Hw & HA1). unfold read_entry, LOGSIZE, MAXOPBLOCKS in *. rewrite (proj2 (Z.leb_gt _ _)) by lia.
      set (bl' := <[Z.to_nat k := word d (k + 1)]> bl). unfold wp.
      destruct (set_log_ok s1 A _ (λ l, set_block (<[Z.to_nat k := word d (k + 1)]> (lh_block l)) l) HA1) as (s2 & E2 & HA2);
        [by destruct HA as (_ & _ & _ & ?)|].
      rewrite (bind_ok _ _ _ _ _ E2). cbn. exists bl'. split_and!; [split| |done].
      + unfold bl'. by rewrite length_insert.
      + apply Forall_insert; [done|]. apply (wraps_range 32). lia.
      + intros j Hj. unfold bl'. destruct (decide (Z.of_nat j = k)) as [E|].
        * replace (Z.to_nat k) with j by lia. rewrite list_lookup_insert_eq by lia. by rewrite E.
        * rewrite list_lookup_insert_ne by lia. apply Hw. lia.
    - intros s1 (bl & ? & Hw & ?). split; [done|]. exists bl. split_and!; try done. intros j Hj. apply Hw. lia. }
  apply wp_ok in Hw as (r & s' & E & -> & bl & ? & ? & ?). by exists bl, s'.
Qed.

Lemma read_head_ok s A L d bs :
  fsabs s A L → hd A = ∅ → 0 ≤ start L < Z.of_nat (length (dk A)) → Z.of_nat (size (dt A)) < NBUF →
  int_blocks (lh_block L) → vw A (start L) = Some d → header_is d bs → (length bs ≤ 30)%nat →
  ∃ bl s', read_head me s = Ok tt s' ∧ int_blocks bl ∧ take (length bs) bl = bs ∧
    fsabs s' A (set_block bl (set_n (Z.of_nat (length bs)) L)).
Proof.
  intros HA Hhd Hst Hroom Hint Hd (Hl & Hw0 & Hw) Hlen. unfold read_head. rewrite (bind_ok _ _ _ _ _ (lg_ok s A L HA)).
  destruct (bread_log_ok s A L (start L) HA Hst) as (i & d0 & s1 & E1 & Hd0 & Hl0 & Hi & HA1);
    [by rewrite Hhd|right; rewrite Hhd, map_size_empty; lia|].
  rewrite Hd in Hd0. injection Hd0 as <-.
  rewrite (bind_ok _ _ _ _ _ E1). rewrite (bind_ok _ _ _ _ _ (get_data_ok s1 _ L i _ d HA1 (lookup_insert_eq _ _ _))).
  destruct (set_log_ok s1 _ L (set_n (word d 0)) HA1) as (s2 & E2 & HA2); [by destruct HA as (_ & _ & _ & ?)|].
  rewrite (bind_ok _ _ _ _ _ E2), Hw0. rewrite Hw0 in HA2.
  destruct (read_entries s2 _ _ d (length bs) HA2 Hint Hlen) as (bl & s3 & E3 & Hbl & Hent & HA3). rewrite (bind_ok _ _ _ _ _ E3).
  destruct (brelse_ok s3 _ _ i (start L) d HA3 (lookup_insert_eq _ _ _)) as (s4 & E4 & HA4); ac.
  { destruct (decide (start L ∈ dt A)) as [|Hni]; [by left|right]. by rewrite <- Hd, (clean_view s A L). }
  exists bl, s4. split_and!; try done.
  - apply list_eq. intros j. destruct (decide (j < length bs)%nat) as [Hj|Hj].
    + rewrite lookup_take_lt, Hent by done. destruct (lookup_lt_is_Some_2 bs j Hj) as [b Hb]. rewrite Hb. f_equal. by apply Hw.
    + rewrite lookup_take_ge, lookup_ge_None_2 by lia. done.
  - rewrite delete_insert_id in HA4 by done. by destruct A.
Qed.

(** ** The loops *)

(** The header in memory lists the blocks of the transaction [U], which are not
    blocks of the log; the log has room for it on the disk of [N] blocks. *)
Record transaction (L : log) (N : Z) (U : list (Z * block)) : Prop := {
  tr_area : 0 ≤ start L ∧ start L + Z.of_nat (length U) < N;
  tr_home : ∀ u, u ∈ U → 0 ≤ u.1 < N ∧ (u.1 < start L ∨ start L + Z.of_nat (length U) < u.1);
  tr_n : lh_n L = Z.of_nat (length U);
  tr_blocks : take (length U) (lh_block L) = U.*1;
  tr_len : (length U ≤ 30)%nat;
  tr_int : int_blocks (lh_block L)
}.

(** The log blocks of a transaction. *)
Definition log_blocks (L : log) (U : list (Z * block)) : list (Z * block) :=
  imap (λ i u, (start L + Z.of_nat i + 1, u.2)) U.

Lemma log_blocks_lookup L U i b d :
  log_blocks L U !! i = Some (b, d) ↔ b = start L + Z.of_nat i + 1 ∧ ∃ c, U !! i = Some (c, d).
Proof.
  unfold log_blocks. rewrite list_lookup_imap. destruct (U !! i) as [[c d']|]; cbn; naive_solver.
Qed.

Lemma log_blocks_in L U b d : (b, d) ∈ log_blocks L U → start L < b ≤ start L + Z.of_nat (length U).
Proof. intros (i & (-> & c & Hi)%log_blocks_lookup)%list_elem_of_lookup. apply lookup_lt_Some in Hi. lia. Qed.

Lemma log_blocks_keys L U b : b ∈ (log_blocks L U).*1 → start L < b ≤ start L + Z.of_nat (length U).
Proof. intros ([c d] & -> & H)%list_elem_of_fmap. by eapply log_blocks_in. Qed.

Lemma length_log_blocks L U : length (log_blocks L U) = length U.
Proof. apply length_imap. Qed.

Lemma tr_block L N U i b d : transaction L N U → U !! i = Some (b, d) → lh_block L !! i = Some b.
Proof.
  intros Htr Hi. assert (U.*1 !! i = Some b) as Hb by (by rewrite list_lookup_fmap, Hi).
  rewrite <- (tr_blocks _ _ _ Htr) in Hb. by apply lookup_take_Some in Hb as [? _].
Qed.

Lemma keys_take (U : list (Z * block)) k b : b ∈ (take k U).*1 → ∃ j d, (j < k)%nat ∧ U !! j = Some (b, d).
Proof.
  intros ([c d] & -> & (j & Hj)%list_elem_of_lookup)%list_elem_of_fmap. apply lookup_take_Some in Hj as [? ?]. by exists j, d.
Qed.

Lemma size_after A U : Z.of_nat (size (dt (after A U))) ≤ Z.of_nat (size (dt A)).
Proof. cbn. apply inj_le. apply subseteq_size. set_solver. Qed.

Lemma install_trans_ok s A L U :
  fsabs s A L → hd A = ∅ → transaction L (Z.of_nat (length (dk A))) U →
  (∀ i b d, U !! i = Some (b, d) → vw A (start L + Z.of_nat i + 1) = Some d) →
  (∀ t, start L < t ≤ start L + Z.of_nat (length U) → t ∉ dt A) →
  Z.of_nat (size (dt A)) < NBUF →
  (NoDup U.*1 ∧ ∀ u, u ∈ U → u.1 ∈ dt A) ∨ Z.of_nat (size (dt A)) + 1 < NBUF →
  ∃ s', install_trans me s = Ok tt s' ∧ fsabs s' (after A U) L.
Proof.
  intros HA Hhd Htr Hlog Hcl Hroom Hroom2.
  assert (wp (for_range 0 (lh_n L) (install_block me)) (λ r s', r = None ∧ fsabs s' (after A U) L) s) as Hw.
  { rewrite (tr_n _ _ _ Htr). apply (wp_for_range _ (λ k s', fsabs s' (after A (take (Z.to_nat k) U)) L)); [lia|by rewrite after_nil| |].
    2:{ intros s'. rewrite Nat2Z.id, firstn_all. done. }
    intros k s1 Hk HA1. destruct (lookup_lt_is_Some_2 U (Z.to_nat k)) as [[b d] Hu]; [lia|].
    pose proof (tr_area _ _ _ Htr). destruct (tr_home _ _ _ Htr (b, d)) as [? Hb]; [by eapply list_elem_of_lookup_2|]. cbn in *.
    pose proof (size_after A (take (Z.to_nat k) U)) as Hsz.
    assert (start L + k + 1 ∉ (take (Z.to_nat k) U).*1) as Hnk.
    { intros (j & d' & Hj & Hjj)%keys_take. destruct (tr_home _ _ _ Htr (start L + k + 1, d')) as [? Hb']; [by eapply list_elem_of_lookup_2|]. cbn in *. lia. }
    destruct (install_block_ok s1 _ L k b HA1) as (d' & s2 & Hd' & _ & E & HA2); cbn [after hd]; try done.
    - by eapply tr_block.
    - cbn. rewrite length_apply. lia.
    - cbn. by rewrite length_apply.
    - lia.
    - cbn. intros [? _]%elem_of_difference. eapply Hcl; [|done]. lia.
    - lia.
    - destruct Hroom2 as [[Hnd Hdt]|]; [left|right; lia]. cbn. apply elem_of_difference. split; [by apply (Hdt (b, d)), (list_elem_of_lookup_2 _ _ _ Hu)|].
      rewrite elem_of_list_to_set. intros (j & d' & Hj & Hjj)%keys_take.
      assert (j = Z.to_nat k); [|lia]. apply (NoDup_lookup _ _ _ b Hnd); by rewrite list_lookup_fmap, ?Hu, ?Hjj.
    - unfold wp. rewrite E. cbn. cbn in Hd'. rewrite upd_all_notin in Hd' by done. replace k with (Z.of_nat (Z.to_nat k)) in Hd' by lia.
      rewrite (Hlog _ _ _ Hu) in Hd'. injection Hd' as <-. replace (Z.to_nat (k + 1)) with (S (Z.to_nat k)) by lia.
      rewrite (take_S_r _ _ _ Hu), <- after_app. done. }
  apply wp_ok in Hw as (r & s' & E & -> & HA'). exists s'. split; [|done]. unfold install_trans.
  rewrite (bind_ok _ _ _ _ _ (lg_ok s A L HA)). by rewrite (bind_ok _ _ _ _ _ E).
Qed.

Lemma write_log_ok s A L U :
  fsabs s A L → hd A = ∅ → transaction L (Z.of_nat (length (dk A))) U →
  (∀ u, u ∈ U → vw A u.1 = Some u.2 ∧ u.1 ∈ dt A) → Z.of_nat (size (dt A)) < NBUF →
  ∃ s', write_log me s = Ok tt s' ∧ fsabs s' (after A (log_blocks L U)) L.
Proof.
  intros HA Hhd Htr HU Hroom.
  assert (wp (for_range 0 (lh_n L) (copy_to_log me)) (λ r s', r = None ∧ fsabs s' (after A (log_blocks L U)) L) s) as Hw.
  { rewrite (tr_n _ _ _ Htr).
    apply (wp_for_range _ (λ k s', fsabs s' (after A (take (Z.to_nat k) (log_blocks L U))) L)); [lia|by rewrite after_nil| |].
    2:{ intros s'. rewrite Nat2Z.id, <- (length_log_blocks L U), firstn_all. done. }
    intros k s1 Hk HA1. destruct (lookup_lt_is_Some_2 U (Z.to_nat k)) as [[b d] Hu]; [lia|].
    pose proof (tr_area _ _ _ Htr). pose proof (list_elem_of_lookup_2 _ _ _ Hu) as Hin.
    destruct (tr_home _ _ _ Htr (b, d) Hin) as [? Hb]. destruct (HU _ Hin) as [Hv Hd]. cbn in *.
    pose proof (size_after A (take (Z.to_nat k) (log_blocks L U))) as Hsz.
    assert (b ∉ (take (Z.to_nat k) (log_blocks L U)).*1) as Hnb.
    { intros (j & d' & Hj & Hjj)%keys_take. apply list_elem_of_lookup_2, log_blocks_in in Hjj. lia. }
    assert (log_blocks L U !! Z.to_nat k = Some (start L + k + 1, d)) as Hlk.
    { apply log_blocks_lookup. split; [lia|eauto]. }
    destruct (copy_to_log_ok s1 _ L k b HA1) as (d' & s2 & Hd' & _ & E & HA2); cbn [after hd]; try done.
    - by eapply tr_block.
    - cbn. rewrite length_apply. lia.
    - cbn. by rewrite length_apply.
    - lia.
    - cbn. apply elem_of_difference. split; [done|]. by rewrite elem_of_list_to_set.
    - lia.
    - unfold wp. rewrite E. cbn. cbn in Hd'. rewrite upd_all_notin, Hv in Hd' by done. injection Hd' as <-.
      replace (Z.to_nat (k + 1)) with (S (Z.to_nat k)) by lia. rewrite (take_S_r _ _ _ Hlk), <- after_app. done. }
  apply wp_ok in Hw as (r & s' & E & -> & HA'). exists s'. split; [|done]. unfold write_log.
  rewrite (bind_ok _ _ _ _ _ (lg_ok s A L HA)). by rewrite (bind_ok _ _ _ _ _ E).
Qed.

(** ** Adding a block to the transaction *)

Definition logged (L : log) (b : Z) : log :=
  let k := log_index L b in
  let L' := set_block (<[k := b]> (lh_block L)) L in
  if Z.of_nat k =? lh_n L then set_n (lh_n L + 1) L' else L'.

Lemma log_write_ok s A L i b d :
  fsabs s A L → hd A !! i = Some (b, d) → lh_n L < LOGSIZE → lh_n L < lsize L - 1 → 1 ≤ outstanding L →
  ∃ s', log_write i s = Ok tt s' ∧ fsabs s' (AC (vw A) (dk A) (ws A) ({[b]} ∪ dt A) (hd A)) (logged L b).
Proof.
  intros HA Hi Hn Hsz Hout. pose proof HA as (HA0 & HL & Hlim & Hdev).
  destruct (held_buf_ok me (io s) A i b d HA0 Hi) as (fl & Hbi & _ & _ & Hb & _ & _).
  destruct (mark_dirty_abs me (io s) A i b d HA0 Hi) as (c & Ec & HAc).
  unfold log_write. rewrite (bind_ok _ _ _ _ _ (lg_ok s A L HA)).
  rewrite (proj2 (Z.leb_gt LOGSIZE _)), (proj2 (Z.leb_gt (lsize L - 1) _)), (proj2 (Z.ltb_ge _ _)) by lia. cbn [orb].
  erewrite bind_ok by (apply on_io_ok, get_buf_ok, Hbi). cbn [blockno].
  change (wraps 32 b) with (i32 b). rewrite (i32_small b) by lia. erewrite bind_ok by reflexivity. erewrite bind_ok by reflexivity.
  exists (Fs c (logged L b)). split.
  - cbn [io lg]. rewrite (on_io_ok _ (Fs (io s) _) _ _ Ec). cbn [lg]. rewrite HL. reflexivity.
  - split; [done|]. split; [done|]. split; [done|]. unfold logged. destruct (_ =? _); done.
Qed.

End Steps.

End LogInv.
