(* ===== verification/LogCrash.v ===== *)
(** LogCrash: the file-system log makes a transaction atomic with respect to
    crashes. *)
From S2P Require Import Prelude Memory Bio BioInv Log LogInv.
From stdpp Require Import gmap.
Local Open Scope Z_scope.

Module LogCrash.
Import Bio BioInv Log LogInv.

Section Crash.
Context (me : Z).

(** ** Recovery *)

Lemma recover_ok s A L d U :
  fsabs me s A L → hd A = ∅ → dt A = ∅ → int_blocks (lh_block L) → vw A (start L) = Some d → header_is d U.*1 →
  (length U ≤ 30)%nat → 0 ≤ start L → start L + Z.of_nat (length U) < Z.of_nat (length (dk A)) →
  (∀ u, u ∈ U → 0 ≤ u.1 < Z.of_nat (length (dk A)) ∧ (u.1 < start L ∨ start L + Z.of_nat (length U) < u.1)) →
  (∀ i b x, U !! i = Some (b, x) → vw A (start L + Z.of_nat i + 1) = Some x) →
  ∃ h s' L', recover_from_log me s = Ok tt s' ∧ header_is h [] ∧ fsabs me s' (after A (U ++ [(start L, h)])) L'.
Proof.
  intros HA Hhd Hdt Hint Hd Hh Hlen H0 Harea Hhome Hlog. unfold recover_from_log.
  assert (Z.of_nat (size (dt A)) = 0) as Hsz by (by rewrite Hdt).
  destruct (read_head_ok me s A L d U.*1 HA Hhd) as (bl & s1 & E1 & Hbl & Htake & HA1); try done;
    [lia|unfold NBUF; lia|by rewrite length_fmap|].
  rewrite (bind_ok _ _ _ _ _ E1). rewrite length_fmap in *. set (L1 := set_block bl (set_n (Z.of_nat (length U)) L)) in *.
  assert (transaction L1 (Z.of_nat (length (dk A))) U) as Htr by (by split).
  destruct (install_trans_ok me s1 A L1 U HA1 Hhd Htr Hlog) as (s2 & E2 & HA2);
    [by rewrite Hdt; set_solver|unfold NBUF; lia|right; unfold NBUF; lia|].
  rewrite (bind_ok _ _ _ _ _ E2).
  destruct (set_log_ok me s2 _ L1 (set_n 0) HA2) as (s3 & E3 & HA3); [by destruct HA as (_ & _ & _ & ?)|].
  rewrite (bind_ok _ _ _ _ _ E3). pose proof (size_after A U) as Hsa.
  destruct (write_head_ok me s3 _ (set_n 0 L1) [] HA3 eq_refl) as (h & s4 & E4 & Hh0 & HA4);
    [cbn; rewrite length_apply; lia|unfold NBUF; lia|done|done|cbn; lia|by destruct Hbl|].
  exists h, s4, (set_n 0 L1). split_and!; try done. by rewrite <- after_app.
Qed.

(** ** Commit *)

Lemma commit_ok s A L U :
  fsabs me s A L → hd A = ∅ → transaction L (Z.of_nat (length (dk A))) U → (0 < length U)%nat → NoDup U.*1 →
  (∀ u, u ∈ U → vw A u.1 = Some u.2 ∧ u.1 ∈ dt A) →
  (∀ t, start L ≤ t ≤ start L + Z.of_nat (length U) → t ∉ dt A) → Z.of_nat (size (dt A)) < NBUF →
  ∃ h1 h2 s', commit me s = Ok tt s' ∧ header_is h1 U.*1 ∧ header_is h2 [] ∧
    fsabs me s' (after A (log_blocks L U ++ [(start L, h1)] ++ U ++ [(start L, h2)])) (set_n 0 L).
Proof.
  intros HA Hhd Htr Hpos Hnd HU Hcl Hroom. pose proof Htr as [Harea Hhome Hn Hbl Hlen Hint].
  unfold commit. rewrite (bind_ok _ _ _ _ _ (lg_ok me s A L HA)). rewrite (proj2 (Z.ltb_lt _ _)) by lia.
  destruct (write_log_ok me s A L U HA Hhd Htr HU Hroom) as (s1 & E1 & HA1). rewrite (bind_ok _ _ _ _ _ E1).
  set (A1 := after A (log_blocks L U)) in *. pose proof (size_after A (log_blocks L U)) as Hs1. fold A1 in Hs1.
  assert (length (dk A1) = length (dk A)) as Hl1 by apply length_apply.
  assert (length U.*1 = length U) as HlU by apply length_fmap.
  destruct (write_head_ok me s1 A1 L U.*1 HA1 eq_refl) as (h1 & s2 & E2 & Hh1 & HA2); rewrite ?HlU; [lia|lia|done|done|done|by destruct Hint|].
  rewrite (bind_ok _ _ _ _ _ E2). set (A2 := after A1 [(start L, h1)]) in *.
  assert (length (dk A2) = length (dk A)) as Hl2 by (rewrite <- Hl1; apply length_apply).
  pose proof (size_after A1 [(start L, h1)]) as Hs2. fold A2 in Hs2.
  destruct (install_trans_ok me s2 A2 L U HA2 eq_refl) as (s3 & E3 & HA3); [by rewrite Hl2| | |lia| |].
  - intros i b d Hi. cbn. unfold upd. rewrite decide_False by lia. apply upd_all_in.
    + apply NoDup_alt. intros j k c. rewrite !list_lookup_fmap. intros Hj Hk.
      destruct (log_blocks L U !! j) as [[? ?]|] eqn:Ej, (log_blocks L U !! k) as [[? ?]|] eqn:Ek; try done.
      apply log_blocks_lookup in Ej as [-> _], Ek as [-> _]. cbn in *. injection Hj as <-. injection Hk as Hk. lia.
    + eapply list_elem_of_lookup_2, log_blocks_lookup. split; [done|]. by exists b.
  - intros t Ht. cbn. intros Hin. assert (t ∈ dt A) by set_solver. eapply Hcl; [|done]. lia.
  - left. split; [done|]. intros u Hu. cbn. destruct (HU u Hu) as [_ ?], (Hhome u Hu) as [_ ?].
    rewrite union_empty_r_L, !elem_of_difference, elem_of_singleton, elem_of_list_to_set.
    split; [split; [done|]|lia]. intros Hk%log_blocks_keys. lia.
  - rewrite (bind_ok _ _ _ _ _ E3).
    destruct (set_log_ok me s3 _ L (set_n 0) HA3) as (s4 & E4 & HA4); [by destruct HA as (_ & _ & _ & ?)|].
    rewrite (bind_ok _ _ _ _ _ E4). pose proof (size_after A2 U) as Hs3.
    destruct (write_head_ok me s4 _ (set_n 0 L) [] HA4 eq_refl) as (h2 & s5 & E5 & Hh2 & HA5);
      [cbn [start set_n]; change (dk (after A2 U)) with (apply_writes U (dk A2)); rewrite length_apply; lia|lia|done|done|cbn; lia|by destruct Hint|].
    exists h1, h2, s5. split_and!; try done. by rewrite app_assoc, <- !after_app.
Qed.

(** ** The machine after a crash *)

(** The log in memory before [initlog] has looked at the disk: [start] and
    [size] are those of the super block. *)
Definition boot_log (L : log) : log := Lg (start L) (lsize L) 0 0 1 0 (replicate (Z.to_nat LOGSIZE) 0).
Definition boot (L : log) (disk : list block) : fsst := Fs (binit disk) (boot_log L).

Lemma binit_eq disk : binit disk = Bc (replicate 30 zero_buf) (rev (seq 0 30)) disk [].
Proof. reflexivity. Qed.

Lemma binit_bufs disk i x : bufs (binit disk) !! i = Some x → x = zero_buf.
Proof. rewrite binit_eq. cbn [bufs]. by intros [-> _]%lookup_replicate_1. Qed.

Lemma binit_abs disk :
  Forall (λ d, length d = 512%nat) disk → abs me (binit disk) (AC (λ b, disk !! Z.to_nat b) disk [] ∅ ∅).
Proof.
  intros Hd. split; cbn [vw dk ws dt hd]; try done.
  - split; try done.
    + intros i. rewrite binit_eq. cbn [lru]. rewrite list_elem_of_In, <- in_rev, <- list_elem_of_In, elem_of_seq. unfold NBUF. lia.
    + intros i x ->%binit_bufs. split; try done; by left.
    + intros i j x y b ->%binit_bufs _ [? _]. done.
  - intros b. split; [|set_solver]. by intros (i & x & ->%binit_bufs & [? _] & _).
  - intros i b d. rewrite lookup_empty. split; [|done]. intros [fl E]. apply binit_bufs in E. done.
Qed.

Lemma boot_abs L disk :
  Forall (λ d, length d = 512%nat) disk → Z.of_nat (length disk) ≤ 2 ^ 31 →
  fsabs me (boot L disk) (AC (λ b, disk !! Z.to_nat b) disk [] ∅ ∅) (boot_log L).
Proof. intros Hd Hl. split; [by apply binit_abs|done]. Qed.

Lemma view_length s A L b d : fsabs me s A L → 0 ≤ b → vw A b = Some d → length d = 512%nat.
Proof.
  intros [HA _] Hb Hv. pose proof (ab_ok _ _ _ HA) as Hok. rewrite <- (ab_view _ _ _ HA) in Hv by done.
  destruct (cached_dec (io s) b) as [(i & x & Hi & Hx)|Hno].
  - rewrite (view_in me (io s) i x b Hok Hi Hx) in Hv. injection Hv as <-.
    pose proof (co_buf _ _ Hok i x Hi) as []. destruct Hx as [Hdev _]. destruct bo_flags0 as [[_ ?]|[? _]]; [lia|]. by apply bo_block0; lia.
  - rewrite view_out in Hv by done. by eapply (Forall_lookup_1 _ _ _ _ (co_disk _ _ Hok)).
Qed.

Lemma boot_ints L : int_blocks (lh_block (boot_log L)).
Proof. split; [done|]. apply Forall_replicate. lia. Qed.

(** Recovery of a disk whose header lists no block. *)
Lemma recover_empty L disk h :
  Forall (λ d, length d = 512%nat) disk → Z.of_nat (length disk) ≤ 2 ^ 31 → 0 ≤ start L < Z.of_nat (length disk) →
  disk !! Z.to_nat (start L) = Some h → header_is h [] →
  ∃ h' s', recover_from_log me (boot L disk) = Ok tt s' ∧ header_is h' [] ∧
           memdisk (io s') = apply_writes [(start L, h')] disk.
Proof.
  intros Hd Hl Hst Hh Hhdr.
  destruct (recover_ok (boot L disk) _ _ h [] (boot_abs L disk Hd Hl)) as (h' & s' & L' & E & Hh' & HA');
    try done; try apply boot_ints; cbn [dk start boot_log length]; try lia; try (by intros ? ?%elem_of_nil).
  exists h', s'. split_and!; try done. destruct HA' as [HA' _]. by rewrite (ab_disk _ _ _ HA').
Qed.

(** Recovery of a disk whose header lists the blocks of a transaction. *)
Lemma recover_full L disk h U :
  Forall (λ d, length d = 512%nat) disk → Z.of_nat (length disk) ≤ 2 ^ 31 → transaction L (Z.of_nat (length disk)) U →
  disk !! Z.to_nat (start L) = Some h → header_is h U.*1 →
  (∀ i b x, U !! i = Some (b, x) → disk !! Z.to_nat (start L + Z.of_nat i + 1) = Some x) →
  ∃ h' s', recover_from_log me (boot L disk) = Ok tt s' ∧ header_is h' [] ∧
           memdisk (io s') = apply_writes (U ++ [(start L, h')]) disk.
Proof.
  intros Hd Hl [Harea Hhome Hn Hbl Hlen Hint] Hh Hhdr Hlog.
  destruct (recover_ok (boot L disk) _ _ h U (boot_abs L disk Hd Hl)) as (h' & s' & L' & E & Hh' & HA');
    try done; try apply boot_ints; cbn [dk start boot_log length]; try lia.
  exists h', s'. split_and!; try done. destruct HA' as [HA' _]. by rewrite (ab_disk _ _ _ HA').
Qed.

(** * Atomicity *)

(** A block outside the log area that the transaction uses. *)
Definition home (L : log) (U : list (Z * block)) (b : Z) : Prop :=
  0 ≤ b ∧ (b < start L ∨ start L + Z.of_nat (length U) < b).
(** The contents of the blocks after the transaction [U]. *)
Definition with_transaction (U : list (Z * block)) (disk : list block) (b : Z) : option block :=
  apply_writes U disk !! Z.to_nat b.

Lemma home_notin_log L U b u : home L U b → u ∈ log_blocks L U → 0 ≤ start L → 0 ≤ u.1 ∧ u.1 ≠ b.
Proof. destruct u as [c d]. intros [? ?] Hu%log_blocks_in ?. cbn. lia. Qed.

Section Prefix.
(** A disk [d0] whose log is empty, the transaction [U], and the header blocks
    [h1] and [h2] that the commit writes. *)
Context (L : log) (U : list (Z * block)) (d0 : list block) (h0 h1 h2 : block).
Context (Htr : transaction L (Z.of_nat (length d0)) U) (Hnd : NoDup U.*1).
Context (Hd0 : Forall (λ d, length d = 512%nat) d0) (Hlim : Z.of_nat (length d0) ≤ 2 ^ 31).
Context (HU : Forall (λ u, length u.2 = 512%nat) U).
Context (Hh0 : d0 !! Z.to_nat (start L) = Some h0) (E0 : header_is h0 []).
Context (E1 : header_is h1 U.*1) (E2 : header_is h2 []).

Definition commit_writes : list (Z * block) := log_blocks L U ++ [(start L, h1)] ++ U ++ [(start L, h2)].

Lemma tr_home_in u : u ∈ U → home L U u.1.
Proof. intros Hu. destruct (tr_home _ _ _ Htr u Hu). split; [lia|done]. Qed.

Lemma commit_writes_ok : Forall (λ u, length u.2 = 512%nat) commit_writes.
Proof.
  unfold commit_writes. rewrite !Forall_app. destruct E1 as [? _], E2 as [? _]. split_and!; try done; try by repeat constructor.
  apply Forall_forall. intros [b d] (i & (-> & c & Hi)%log_blocks_lookup)%list_elem_of_lookup.
  by apply (Forall_lookup_1 _ _ _ _ HU Hi).
Qed.

Lemma prefix_disk k :
  let d := apply_writes (take k commit_writes) d0 in
  Forall (λ d, length d = 512%nat) d ∧ length d = length d0.
Proof.
  cbv zeta. split; [|apply length_apply]. apply Forall_apply; [done|]. apply Forall_take, commit_writes_ok.
Qed.

Lemma header_notin d b h : home L U b → apply_writes [(start L, h)] d !! Z.to_nat b = d !! Z.to_nat b.
Proof.
  intros [? ?]. apply apply_notin; [done|]. intros u ->%list_elem_of_singleton. pose proof (tr_area _ _ _ Htr). cbn. lia.
Qed.

Lemma log_notin d V b : V ⊆ log_blocks L U → home L U b ∨ b = start L → apply_writes V d !! Z.to_nat b = d !! Z.to_nat b.
Proof.
  intros HV Hb. pose proof (tr_area _ _ _ Htr). apply apply_notin; [destruct Hb as [[? _]| ->]; lia|].
  intros [c x] Hu%HV%log_blocks_in. cbn. destruct Hb as [[? ?]| ->]; lia.
Qed.

Lemma U_notin d V t : V ⊆ U → start L ≤ t ≤ start L + Z.of_nat (length U) → apply_writes V d !! Z.to_nat t = d !! Z.to_nat t.
Proof.
  intros HV Ht. pose proof (tr_area _ _ _ Htr). apply apply_notin; [lia|].
  intros u Hu%HV%tr_home_in. unfold home in Hu. lia.
Qed.

(** The transaction gives the same home blocks on disks that differ at most at
    blocks it writes. *)
Lemma apply_home d d' b :
  length d = length d0 → length d' = length d0 → home L U b → (b ∉ U.*1 → d !! Z.to_nat b = d' !! Z.to_nat b) →
  apply_writes U d !! Z.to_nat b = apply_writes U d' !! Z.to_nat b.
Proof.
  intros Hl Hl' [Hb _] Hsame. destruct (decide (b ∈ U.*1)) as [Hin|Hni].
  - apply list_elem_of_fmap in Hin as ([c x] & -> & Hin). cbn.
    rewrite (apply_in U d c x), (apply_in U d' c x); try done; intros u Hu; destruct (tr_home _ _ _ Htr u Hu); lia.
  - rewrite !apply_notin; [by apply Hsame|done| |done|]; intros u Hu; (split; [by destruct (tr_home_in u Hu)|]);
      intros <-; apply Hni, list_elem_of_fmap; by exists u.
Qed.

(** Before the header is written. *)
Lemma crash_before k :
  (k ≤ length U)%nat →
  ∃ s', recover_from_log me (boot L (apply_writes (take k commit_writes) d0)) = Ok tt s' ∧
        ∀ b, home L U b → memdisk (io s') !! Z.to_nat b = d0 !! Z.to_nat b.
Proof.
  intros Hk. destruct (prefix_disk k) as [HF Hlen]. revert HF Hlen. pose proof (tr_area _ _ _ Htr).
  unfold commit_writes. rewrite take_app_le by (rewrite length_log_blocks; lia). intros HF Hlen.
  assert (take k (log_blocks L U) ⊆ log_blocks L U) as Hsub by (intros u; apply elem_of_take_1 || intros (? & ? & ?)%elem_of_take; by eapply list_elem_of_lookup_2).
  destruct (recover_empty L (apply_writes (take k (log_blocks L U)) d0) h0) as (h' & s' & E & _ & Es'); try done;
    [by rewrite Hlen|rewrite Hlen; lia|by rewrite log_notin by auto|].
  exists s'. split; [done|]. intros b Hb. by rewrite Es', header_notin, log_notin by auto.
Qed.

(** Between the two headers. *)
Lemma crash_between j :
  (j ≤ length U)%nat →
  let d := apply_writes (take j U) (apply_writes (log_blocks L U ++ [(start L, h1)]) d0) in
  Forall (λ d, length d = 512%nat) d → length d = length d0 →
  ∃ s', recover_from_log me (boot L d) = Ok tt s' ∧
        ∀ b, home L U b → memdisk (io s') !! Z.to_nat b = with_transaction U d0 b.
Proof.
  intros Hj d HF Hlen. pose proof (tr_area _ _ _ Htr).
  assert (take j U ⊆ U) as Hsub by (intros u (? & ? & ?)%elem_of_take; by eapply list_elem_of_lookup_2).
  assert (∀ b, home L U b → b ∉ U.*1 → d !! Z.to_nat b = d0 !! Z.to_nat b) as Hd.
  { intros b Hb Hni. unfold d. rewrite apply_notin, apply_app, header_notin, log_notin; auto; [by destruct Hb|].
    intros u Hu%Hsub. split; [by destruct (tr_home_in u Hu)|]. intros <-. apply Hni, list_elem_of_fmap. by exists u. }
  destruct (recover_full L d h1 U) as (h' & s' & E & _ & Es'); try done.
  - by rewrite Hlen.
  - by rewrite Hlen.
  - unfold d. rewrite U_notin, apply_app by (done || lia). cbn. unfold set_disk.
    apply list_lookup_insert_eq. rewrite length_apply. lia.
  - intros i b x Hi. pose proof (lookup_lt_Some _ _ _ Hi). unfold d. rewrite U_notin, apply_app by (done || lia).
    rewrite apply_notin; [|lia|intros u ->%list_elem_of_singleton; cbn; lia]. apply apply_in.
    + apply NoDup_alt. intros a c z. rewrite !list_lookup_fmap. intros Ha Hc.
      destruct (log_blocks L U !! a) as [[? ?]|] eqn:Ea, (log_blocks L U !! c) as [[? ?]|] eqn:Ec; try done.
      apply log_blocks_lookup in Ea as [-> _], Ec as [-> _]. cbn in *. injection Ha as <-. injection Hc as Hc. lia.
    + intros [c y] Hu%log_blocks_in. cbn. lia.
    + eapply list_elem_of_lookup_2, log_blocks_lookup. split; [done|]. by exists b.
  - exists s'. split; [done|]. intros b Hb. rewrite Es', apply_app, header_notin by done.
    apply apply_home; auto.
Qed.

(** After the second header. *)
Lemma crash_after :
  let d := apply_writes commit_writes d0 in
  Forall (λ d, length d = 512%nat) d → length d = length d0 →
  (∀ b, home L U b → d !! Z.to_nat b = with_transaction U d0 b) ∧
  ∃ s', recover_from_log me (boot L d) = Ok tt s' ∧
        ∀ b, home L U b → memdisk (io s') !! Z.to_nat b = with_transaction U d0 b.
Proof.
  intros d HF Hlen. pose proof (tr_area _ _ _ Htr). unfold d, commit_writes in *. rewrite !apply_app in *.
  assert (∀ b, home L U b → apply_writes [(start L, h2)] (apply_writes U (apply_writes [(start L, h1)] (apply_writes (log_blocks L U) d0))) !! Z.to_nat b
    = with_transaction U d0 b) as Hd.
  { intros b Hb. rewrite header_notin by done. apply apply_home; [by rewrite !length_apply|done|done|].
    intros _. by rewrite header_notin, log_notin by auto. }
  split; [done|].
  destruct (recover_empty L (apply_writes [(start L, h2)] (apply_writes U (apply_writes [(start L, h1)] (apply_writes (log_blocks L U) d0)))) h2) as (h' & s' & E & _ & Es'); try done;
    [by rewrite Hlen|rewrite Hlen; lia| |].
  - cbn. unfold set_disk at 1. apply list_lookup_insert_eq. rewrite length_apply. unfold set_disk. rewrite length_insert, length_apply. lia.
  - exists s'. split; [done|]. intros b Hb. rewrite Es', header_notin by done. by apply Hd.
Qed.
End Prefix.

(** Recovery after [k] of the disk writes [W] of a commit, on the disk [d] as it was
    before: nothing of the transaction until the header has been written, then all
    of it. *)
Definition crash_safe (L : log) (U : list (Z * block)) (d : list block) (W : list (Z * block)) : Prop :=
  ∀ k, ∃ s'', recover_from_log me (boot L (apply_writes (take k W) d)) = Ok tt s'' ∧
    ∀ b, home L U b → memdisk (io s'') !! Z.to_nat b =
      if decide (k ≤ length U)%nat then d !! Z.to_nat b else with_transaction U d b.

Lemma commit_crash s A L U h0 :
  fsabs me s A L → hd A = ∅ → transaction L (Z.of_nat (length (dk A))) U → (0 < length U)%nat → NoDup U.*1 →
  (∀ u, u ∈ U → vw A u.1 = Some u.2 ∧ u.1 ∈ dt A) →
  (∀ t, start L ≤ t ≤ start L + Z.of_nat (length U) → t ∉ dt A) → Z.of_nat (size (dt A)) < NBUF →
  dk A !! Z.to_nat (start L) = Some h0 → header_is h0 [] →
  ∃ s' W, commit me s = Ok tt s' ∧ writes (io s') = writes (io s) ++ W ∧ lh_n (lg s') = 0 ∧
    memdisk (io s') = apply_writes W (dk A) ∧
    (∀ b, home L U b → memdisk (io s') !! Z.to_nat b = with_transaction U (dk A) b) ∧
    crash_safe L U (dk A) W.
Proof.
  intros HA Hhd Htr Hpos Hnd HU Hcl Hroom Hh0 E0.
  destruct (commit_ok s A L U HA Hhd Htr Hpos Hnd HU Hcl Hroom) as (h1 & h2 & s' & E & E1 & E2 & HA').
  pose proof HA as (HA0 & HL & Hlim & _). pose proof (co_disk _ _ (ab_ok _ _ _ HA0)) as Hd0. rewrite (ab_disk _ _ _ HA0) in Hd0.
  assert (Forall (λ u, length u.2 = 512%nat) U) as HU2.
  { apply Forall_forall. intros u Hu. destruct (HU u Hu) as [Hv _]. eapply view_length; [exact HA| |exact Hv].
    by destruct (tr_home _ _ _ Htr u Hu) as [[? ?] _]. }
  set (W := commit_writes L U h1 h2). exists s', W. destruct HA' as (HA' & HL' & _ & _).
  assert (∀ k, Forall (λ d, length d = 512%nat) (apply_writes (take k W) (dk A)) ∧
               length (apply_writes (take k W) (dk A)) = length (dk A)) as Hpre by (intros k; by eapply prefix_disk).
  pose proof (crash_after L U (dk A) h1 h2 Htr Hnd Hlim E2) as Hafter. cbv zeta in Hafter. fold W in Hafter.
  destruct (Hpre (length W)) as [HFW HlW]. rewrite firstn_all in HFW, HlW. destruct (Hafter HFW HlW) as [Hfin Hrec].
  assert (memdisk (io s') = apply_writes W (dk A)) as Hmem by apply (ab_disk _ _ _ HA').
  split; [done|]. split; [rewrite (ab_writes _ _ _ HA'), (ab_writes _ _ _ HA0); done|]. split; [by rewrite HL'|].
  split; [done|]. split; [by rewrite Hmem|]. intros k. case_decide as Hk.
  - by eapply crash_before.
  - destruct (decide (k ≤ length W)%nat); [|by rewrite firstn_all2 by lia].
    assert (length W = length U + 1 + length U + 1)%nat as HWl.
    { unfold W, commit_writes. rewrite !length_app, length_log_blocks. cbn. lia. }
    destruct (decide (k = length W)) as [->|]; [by rewrite firstn_all|].
    destruct (Hpre k) as [HFk Hlk]. replace (apply_writes (take k W) (dk A))
      with (apply_writes (take (k - length U - 1) U) (apply_writes (log_blocks L U ++ [(start L, h1)]) (dk A))) in *.
    + apply (crash_between L U (dk A) h1 Htr Hnd Hlim E1); [lia|done|done].
    + rewrite <- apply_app. f_equal. unfold W, commit_writes. rewrite app_assoc, take_app_ge by (rewrite length_app, length_log_blocks; cbn; lia).
      f_equal. rewrite length_app, length_log_blocks. cbn. rewrite take_app_le by lia. f_equal. lia.
Qed.

(** C2: [commit] of a transaction [U] whose blocks are pinned in the cache, no buffer
    being in use and the log on the disk being empty: it returns and every block
    outside the log area has its new contents on the disk.  If the machine stops
    after any number [k] of the disk writes of the commit, recovery on the disk as
    it is then returns and leaves either every such block as before the commit
    (when the header had not been written) or every such block as after it. *)
Theorem commit_atomic s A L U h0 :
  fsabs me s A L → hd A = ∅ → transaction L (Z.of_nat (length (dk A))) U → (0 < length U)%nat → NoDup U.*1 →
  (∀ u, u ∈ U → vw A u.1 = Some u.2 ∧ u.1 ∈ dt A) →
  (∀ t, start L ≤ t ≤ start L + Z.of_nat (length U) → t ∉ dt A) → Z.of_nat (size (dt A)) < NBUF →
  dk A !! Z.to_nat (start L) = Some h0 → header_is h0 [] →
  ∃ s' W, commit me s = Ok tt s' ∧ writes (io s') = writes (io s) ++ W ∧ lh_n (lg s') = 0 ∧
    memdisk (io s') = apply_writes W (dk A) ∧
    (∀ b, home L U b → memdisk (io s') !! Z.to_nat b = with_transaction U (dk A) b) ∧
    ∀ k, ∃ s'', recover_from_log me (boot L (apply_writes (take k W) (dk A))) = Ok tt s'' ∧
      ∀ b, home L U b → memdisk (io s'') !! Z.to_nat b =
        if decide (k ≤ length U)%nat then dk A !! Z.to_nat b else with_transaction U (dk A) b.
Proof. apply commit_crash. Qed.

End Crash.
End LogCrash.
