(* ===== verification/LogSpace.v ===== *)
(** LogSpace: the reservation of log space by [begin_op], and what happens to a
    transaction that fills the whole buffer cache. *)
From stdpp Require Import gmap.
From S2P Require Import Prelude Memory Bio Log BioInv LogInv LogCrash.
Local Open Scope Z_scope.

Module LogSpace.
Import Bio Log.

(** * Operations that leave the log in memory alone *)

Abbreviation keeps_log := (preserves lg).

Lemma keeps_on_io {A} (f : ST bcache A) : keeps_log (on_io f).
Proof. intros s a s'. unfold on_io. destruct (f (io s)); [|done]. by intros [= <- <-]. Qed.
#[local] Hint Resolve keeps_on_io : preserves.

Section Space.
Context (me : Z).

Lemma keeps_bread_log b : keeps_log (bread_log me b).
Proof. unfold bread_log. preserves. Qed.
#[local] Hint Resolve keeps_bread_log : preserves.

Lemma keeps_write_log : keeps_log (write_log me).
Proof. unfold write_log, copy_to_log. preserves. Qed.
Lemma keeps_install_trans : keeps_log (install_trans me).
Proof. unfold install_trans, install_block. preserves. Qed.
Lemma keeps_write_head : keeps_log (write_head me).
Proof. unfold write_head, write_entry. preserves. Qed.

Lemma commit_log s s' : commit me s = Ok tt s' → lg s' = if 0 <? lh_n (lg s) then set_n 0 (lg s) else lg s.
Proof.
  unfold commit. intros (l & s1 & [= <- <-] & E)%bind_inv. destruct (0 <? lh_n (lg s)); [|by injection E as <-].
  apply bind_inv in E as ([] & s1 & E1%keeps_write_log & E). apply bind_inv in E as ([] & s2 & E2%keeps_write_head & E).
  apply bind_inv in E as ([] & s3 & E3%keeps_install_trans & E). apply bind_inv in E as ([] & s4 & [= <-] & E).
  apply keeps_write_head in E. cbn in E. congruence.
Qed.

(** * The system of running operations *)

(** [ws] counts the [log_write]s of each operation between its [begin_op] and its
    [end_op]; an operation makes at most [MAXOPBLOCKS] of them. *)
Inductive op_step : fsst * list Z → fsst * list Z → Prop :=
| op_begin s s' ws :
    begin_op_turn s = Ok true s' → op_step (s, ws) (s', ws ++ [0])
| op_write s s' ws j w i :
    ws !! j = Some w → w < MAXOPBLOCKS → log_write i s = Ok tt s' → op_step (s, ws) (s', <[j := w + 1]> ws)
| op_end s s' ws1 w ws2 :
    end_op me s = Ok tt s' → op_step (s, ws1 ++ w :: ws2) (s', ws1 ++ ws2)
| op_cache {A} (f : ST bcache A) s a s' ws :
    on_io f s = Ok a s' → op_step (s, ws) (s', ws).

(** States reached from one with an empty log of the size that mkfs gives it
    (p4/xv6-public/mkfs.c, [nlog = LOGSIZE]) and no operation running. *)
Inductive op_reach : fsst * list Z → Prop :=
| reach_start s : lh_n (lg s) = 0 → outstanding (lg s) = 0 → committing (lg s) = 0 → lsize (lg s) = LOGSIZE → op_reach (s, [])
| reach_step x y : op_reach x → op_step x y → op_reach y.

(** The blocks that the running operations may still add. *)
Definition reserved (ws : list Z) : Z := foldr (λ w n, MAXOPBLOCKS - w + n) 0 ws.

Lemma reserved_app ws1 ws2 : reserved (ws1 ++ ws2) = reserved ws1 + reserved ws2.
Proof. induction ws1 as [|w ws1 IH]; cbn; [done|]. unfold reserved in *. lia. Qed.

Lemma reserved_insert ws j w v : ws !! j = Some w → reserved (<[j := v]> ws) = reserved ws + w - v.
Proof.
  intros H. rewrite insert_take_drop by (by eapply lookup_lt_Some). rewrite <- (take_drop_middle ws j w H) at 3.
  rewrite !reserved_app. cbn. fold (reserved (drop (S j) ws)). lia.
Qed.

Record space_inv (l : log) (ws : list Z) : Prop := {
  si_space : lh_n l + reserved ws ≤ LOGSIZE;
  si_n : 0 ≤ lh_n l;
  si_ws : Forall (λ w, 0 ≤ w ≤ MAXOPBLOCKS) ws;
  si_out : outstanding l = Z.of_nat (length ws);
  si_com : committing l = 0;
  si_size : lsize l = LOGSIZE
}.

Lemma reserved_le ws : Forall (λ w, 0 ≤ w ≤ MAXOPBLOCKS) ws → 0 ≤ reserved ws ≤ MAXOPBLOCKS * Z.of_nat (length ws).
Proof. unfold MAXOPBLOCKS. induction 1 as [|w ws ? _ IH]; cbn [reserved foldr length]; [lia|]. unfold reserved, MAXOPBLOCKS in *. lia. Qed.

Lemma log_write_log i s s' :
  log_write i s = Ok tt s' → ∃ bl n, lg s' = set_block bl (set_n n (lg s)) ∧ lh_n (lg s) ≤ n ≤ lh_n (lg s) + 1.
Proof.
  unfold log_write. intros (l & s1 & [= <- <-] & E)%bind_inv. destruct (_ || _); [done|]. destruct (_ <? 1); [done|].
  apply bind_inv in E as (x & s1 & E1%keeps_on_io & E). apply bind_inv in E as ([] & s2 & [= <-] & E).
  apply bind_inv in E as ([] & s3 & [= <-] & E). apply keeps_on_io in E. cbn [lg] in E. rewrite E, E1. clear E E1.
  exists (<[log_index (lg s) (wraps 32 (blockno x)) := wraps 32 (blockno x)]> (lh_block (lg s))).
  destruct (_ =? _); [exists (lh_n (lg s) + 1)|exists (lh_n (lg s))]; (split; [by destruct (lg s)|lia]).
Qed.

Lemma end_op_log s s' :
  end_op me s = Ok tt s' →
  ∃ n, lg s' = set_n n (set_outstanding (outstanding (lg s) - 1) (lg s)) ∧ (n = 0 ∨ n = lh_n (lg s)) ∧ committing (lg s) = 0.
Proof.
  unfold end_op. intros ([] & s1 & [= <-] & E)%bind_inv. apply bind_inv in E as (l & s1 & [= <- <-] & E). cbn [lg] in E.
  destruct (committing _ =? 0) eqn:Ec; [|done]. cbn [negb] in E. apply Z.eqb_eq in Ec.
  destruct (outstanding _ =? 0).
  - apply bind_inv in E as ([] & s1 & [= <-] & E). apply bind_inv in E as ([] & s2 & E1%commit_log & E). injection E as <-.
    cbn in *. rewrite E1. destruct (lg s) as [a b c d e n bl]. cbn in *. rewrite Ec. destruct (0 <? n); eexists; split; eauto.
  - injection E as <-. cbn in *. destruct (lg s) as [a b c d e n bl]. eexists; split; eauto.
Qed.

Lemma space_step s ws s' ws' : space_inv (lg s) ws → op_step (s, ws) (s', ws') → space_inv (lg s') ws'.
Proof.
  intros [Hs Hn Hw Ho Hc Hz] Hst. pose proof (reserved_le ws Hw) as Hr. inversion Hst as [? ? ? Hb|? ? ? j w i Hj Hlt Hl|? ? ws1 w ws2 He|? f ? a ? ? Hf]; subst; clear Hst.
  - unfold begin_op_turn in Hb. apply bind_inv in Hb as (l & s1 & [= <- <-] & E). rewrite Hc in E. cbn [negb Z.eqb] in E.
    destruct (Z.ltb_spec LOGSIZE (lh_n (lg s) + (outstanding (lg s) + 1) * MAXOPBLOCKS)); [done|]. injection E as <-. cbn.
    split; cbn; try done; [|by apply Forall_app; repeat constructor; cbn; unfold MAXOPBLOCKS|rewrite length_app, Ho; cbn; lia].
    rewrite reserved_app. cbn. unfold MAXOPBLOCKS in *. lia.
  - apply log_write_log in Hl as (bl & n & -> & Hnn). split; cbn; try done; [|lia| |by rewrite length_insert].
    + rewrite (reserved_insert _ _ _ _ Hj). lia.
    + apply Forall_insert; [done|]. eapply (Forall_lookup_1 _ _ _ _ Hw) in Hj. lia.
  - apply end_op_log in He as (n & -> & Hnn & _). rewrite reserved_app in Hs. cbn in Hs. apply Forall_app in Hw as [Hw1 Hw2].
    apply Forall_cons in Hw2 as [? Hw2]. fold (reserved ws2) in Hs.
    split; cbn; try done; [rewrite reserved_app; lia|lia|by apply Forall_app|]. rewrite Ho, !length_app. cbn. lia.
  - apply keeps_on_io in Hf. by rewrite Hf.
Qed.

Lemma space_reach s ws : op_reach (s, ws) → space_inv (lg s) ws.
Proof.
  intros Hr. remember (s, ws) as x eqn:E. revert s ws E. induction Hr as [s0 ? ? ? ?|[s1 ws1] y Hr IH Hst]; intros s ws E.
  - injection E as -> <-. split; cbn; try done; unfold LOGSIZE, MAXOPBLOCKS in *; lia.
  - subst y. by eapply space_step; [apply IH|].
Qed.

Lemma reserved_full ws j w : Forall (λ w, 0 ≤ w ≤ MAXOPBLOCKS) ws → ws !! j = Some w →
  let ws' := <[j := MAXOPBLOCKS]> ws in Forall (λ w, 0 ≤ w ≤ MAXOPBLOCKS) ws' ∧ reserved ws' = reserved ws - (MAXOPBLOCKS - w).
Proof.
  intros Hws Hj. split; [apply Forall_insert; [done|unfold MAXOPBLOCKS; lia]|]. rewrite (reserved_insert _ _ _ _ Hj). lia.
Qed.

(** When the last reserved block is asked for, every other operation has made all its
    writes. *)
Lemma last_reserved ws j w : Forall (λ w, 0 ≤ w ≤ MAXOPBLOCKS) ws → ws !! j = Some w → w < MAXOPBLOCKS → reserved ws ≤ 1 →
  w = MAXOPBLOCKS - 1 ∧ ∀ j' w', j' ≠ j → ws !! j' = Some w' → w' = MAXOPBLOCKS.
Proof.
  intros Hws Hj Hw Hr. destruct (reserved_full ws j w Hws Hj) as [Hws' Hr']. pose proof (reserved_le _ Hws').
  split; [lia|]. intros j' w' Hne Hj'. destruct (reserved_full (<[j := MAXOPBLOCKS]> ws) j' w' Hws') as [Hws2 Hr2];
    [by rewrite list_lookup_insert_ne|]. pose proof (reserved_le _ Hws2). eapply (Forall_lookup_1 _ _ _ _ Hws) in Hj'. lia.
Qed.

(** Below the two limits, within an operation, [log_write] succeeds. *)
Lemma log_write_fits s i x : lh_n (lg s) < LOGSIZE → lh_n (lg s) < lsize (lg s) - 1 → 1 ≤ outstanding (lg s) → bufs (io s) !! i = Some x →
  ∃ s', log_write i s = Ok tt s' ∧ lh_n (lg s) ≤ lh_n (lg s') ≤ lh_n (lg s) + 1 ∧
        flags <$> bufs (io s') !! i = Some (Z.lor (flags x) B_DIRTY).
Proof.
  intros Hn Hz Hout Hi. unfold log_write. unfold bind at 1. cbn [gets].
  rewrite (proj2 (Z.leb_gt LOGSIZE _)), (proj2 (Z.leb_gt (lsize _ - 1) _)), (proj2 (Z.ltb_ge _ _)) by lia. cbn [orb].
  erewrite bind_ok by (unfold on_io, get_buf; rewrite Hi; reflexivity).
  erewrite bind_ok by reflexivity. erewrite bind_ok by reflexivity. unfold on_io, get_buf, bind. cbn [io]. rewrite Hi. cbn.
  eexists. split; [reflexivity|]. cbn. split; [destruct (_ =? _); cbn; lia|].
  rewrite list_lookup_insert_eq by (by eapply lookup_lt_Some). done.
Qed.

(** C22: The room that [begin_op] reserves, on a log of the size that mkfs writes: in
    every state that operations reach, one of them that has made fewer than
    [MAXOPBLOCKS] writes passes both checks of [log_write] and its block becomes
    dirty, unless the header lists [LOGSIZE - 1] blocks.  Then [log_write] panics
    ("too big a transaction"); this takes that the operation is at its last write
    and every other one that runs has made all its writes. *)
Theorem log_has_room s ws j w i x :
  op_reach (s, ws) → ws !! j = Some w → w < MAXOPBLOCKS → bufs (io s) !! i = Some x →
  if decide (lh_n (lg s) = LOGSIZE - 1)
  then log_write i s = Fault ∧ w = MAXOPBLOCKS - 1 ∧ ∀ j' w', j' ≠ j → ws !! j' = Some w' → w' = MAXOPBLOCKS
  else ∃ s', log_write i s = Ok tt s' ∧ lh_n (lg s) ≤ lh_n (lg s') ≤ lh_n (lg s) + 1 ∧
             flags <$> bufs (io s') !! i = Some (Z.lor (flags x) B_DIRTY).
Proof.
  intros Hr%space_reach Hj Hw Hi. destruct Hr as [Hs Hn Hws Ho Hc Hz]. case_decide as Hlast.
  - split; [|apply (last_reserved ws); [done..|lia]].
    unfold log_write, bind at 1. cbn [gets]. rewrite Hz, Hlast, Z.leb_refl, orb_true_r. done.
  - destruct (reserved_full ws j w Hws Hj) as [Hws' Hr']. pose proof (reserved_le _ Hws').
    apply log_write_fits; [lia|lia| |done]. rewrite Ho. apply lookup_lt_Some in Hj. lia.
Qed.

(** A transaction that has made every buffer dirty cannot be committed: the log
    block does not find a buffer ([bget: no buffers]). *)
Theorem commit_full_cache_panics s :
  0 < lh_n (lg s) →
  (∀ i x, bufs (io s) !! i = Some x → has (flags x) B_DIRTY = true ∧ blockno x ≠ u32 (start (lg s) + 1)) →
  commit me s = Fault.
Proof.
  intros Hn Hd. unfold commit. unfold bind at 1. cbn [gets]. rewrite (proj2 (Z.ltb_lt _ _)) by done.
  assert (bread_log me (start (lg s) + 0 + 1) s = Fault) as Hb.
  { unfold bread_log, bind at 1. cbn [gets]. unfold on_io, bread, bind at 1, bget, bind at 1. cbn [gets]. rewrite Z.add_0_r.
    change (id (io s)) with (io s).
    destruct (List.find (caches _ _ _) _) as [i|] eqn:E1.
    - apply List.find_some in E1 as [_ E1]. unfold caches in E1. destruct (bufs (io s) !! i) as [x|] eqn:Hi; [|done].
      apply andb_true_iff in E1 as [_ E1%Z.eqb_eq]. by destruct (Hd i x Hi).
    - destruct (List.find (unused _) _) as [i|] eqn:E2; [|done]. apply List.find_some in E2 as [_ E2].
      unfold unused in E2. destruct (bufs (io s) !! i) as [x|] eqn:Hi; [|done]. destruct (Hd i x Hi) as [Hx _].
      rewrite Hx, andb_false_r in E2. done. }
  unfold bind at 1. unfold write_log, bind at 1. cbn [gets]. unfold for_range.
  replace (Z.to_nat (lh_n (lg s) - 0)) with (S (Z.to_nat (lh_n (lg s) - 1))) by lia. cbn [for_from].
  unfold bind at 1 2. unfold copy_to_log, bind at 1. cbn [gets]. unfold bind at 1. by rewrite Hb.
Qed.

End Space.
End LogSpace.

(** LogExamples: the theorems on the log at concrete states: a transaction that
    changes one block of a small disk. *)
Module LogExamples.
Import Bio BioInv Log LogInv LogCrash LogSpace.

Definition zeros : block := replicate 512 x00.
Definition disk0 : list block := replicate 64 zeros.
Definition log0 (n : Z) : log := Lg 2 30 n 0 1 0 (replicate 30 0).
Definition pid0 : Z := 7.
Definition state0 (n : Z) : fsst := Fs (binit disk0) (log0 n).
Definition data1 : block := set_word zeros 0 42.

(** An operation that changes block 40. *)
Definition change_block_40 : ST fsst unit :=
  let! i := bread_log pid0 40 in
  do! on_io (put_data i data1) in
  do! log_write i in
  on_io (brelse pid0 i).
Definition state1 : fsst := match change_block_40 (state0 1) with Ok _ s => s | Fault => state0 1 end.

Definition acache0 : acache := AC (λ b, disk0 !! Z.to_nat b) disk0 [] ∅ ∅.
Definition acache1 : acache := AC (upd (vw acache0) 40 data1) disk0 [] ({[40]} ∪ ∅) ∅.

Lemma blocks0 : Forall (λ d : block, length d = 512%nat) disk0.
Proof. by apply Forall_replicate. Qed.

Lemma fsabs_state0 n : fsabs pid0 (state0 n) acache0 (log0 n).
Proof. split; [apply binit_abs, blocks0|]. split; [done|]. split; [by vm_compute|done]. Qed.

Lemma fsabs_state1 : fsabs pid0 state1 acache1 (logged (log0 1) 40).
Proof.
  destruct (bread_log_ok pid0 (state0 1) acache0 (log0 1) 40 (fsabs_state0 1)) as (i & d & s1 & E1 & Hd & Hl & Hi & HA1);
    [by split; vm_compute|by intros i d|by right; vm_compute|].
  destruct (put_data_ok pid0 s1 _ _ i 40 d data1 HA1 (lookup_insert_eq _ _ _) eq_refl) as (s2 & E2 & HA2).
  cbn [vw dk ws dt hd] in HA2. rewrite insert_insert_eq in HA2.
  destruct (log_write_ok pid0 s2 _ _ i 40 data1 HA2 (lookup_insert_eq _ _ _)) as (s3 & E3 & HA3); [done..|].
  cbn [vw dk ws dt hd] in HA3.
  destruct (brelse_ok pid0 s3 _ _ i 40 data1 HA3 (lookup_insert_eq _ _ _)) as (s4 & E4 & HA4); [left; set_solver|].
  unfold acache0 in HA4. cbn [vw dk ws dt hd] in HA4. rewrite delete_insert_eq, delete_empty in HA4.
  assert (state1 = s4) as ->; [|exact HA4].
  unfold state1, change_block_40. by rewrite (bind_ok _ _ _ _ _ E1), (bind_ok _ _ _ _ _ E2), (bind_ok _ _ _ _ _ E3), E4.
Qed.

Definition U1 : list (Z * block) := [(40, data1)].

Lemma transaction1 : transaction (logged (log0 1) 40) (Z.of_nat (length (dk acache1))) U1.
Proof.
  split; [by split; vm_compute| |done|done|cbn; lia|split; [done|]].
  - intros u ->%list_elem_of_singleton. split; [by split; vm_compute|right; by vm_compute].
  - apply Forall_insert; [|lia]. apply Forall_replicate. lia.
Qed.

Lemma header0 : header_is zeros [].
Proof. split; [done|]. split; [by vm_compute|]. by intros i b. Qed.

Lemma commit_atomic_witness :
  ∃ s' W, commit pid0 state1 = Ok tt s' ∧ writes (io s') = writes (io state1) ++ W ∧ lh_n (lg s') = 0 ∧
    memdisk (io s') = apply_writes W disk0 ∧
    (∀ b, home (logged (log0 1) 40) U1 b → memdisk (io s') !! Z.to_nat b = with_transaction U1 disk0 b) ∧
    ∀ k, ∃ s'', recover_from_log pid0 (boot (logged (log0 1) 40) (apply_writes (take k W) disk0)) = Ok tt s'' ∧
      ∀ b, home (logged (log0 1) 40) U1 b → memdisk (io s'') !! Z.to_nat b =
        if decide (k ≤ length U1)%nat then disk0 !! Z.to_nat b else with_transaction U1 disk0 b.
Proof.
  apply (commit_atomic pid0 state1 acache1 (logged (log0 1) 40) U1 zeros fsabs_state1 eq_refl transaction1).
  - cbn. lia.
  - repeat constructor. apply not_elem_of_nil.
  - intros u ->%list_elem_of_singleton. split; [done|]. cbn. set_solver.
  - cbn [start logged log0 U1 length dt acache1]. intros t Ht Hin. assert (t = 40) by set_solver. change (start (logged (log0 1) 40)) with 2 in Ht. lia.
  - reflexivity.
  - reflexivity.
  - apply header0.
Defined.

(** [initlog] on this disk finds the log through the super block. *)
Example initlog_empty :
  match initlog pid0 1 (Fs (binit (<[1%nat := set_word (set_word zeros 3 30) 4 2]> disk0)) (Lg 0 0 0 0 0 0 (replicate 30 0))) with
  | Ok _ s => (start (lg s), lsize (lg s), lh_n (lg s)) = (2, 30, 0)
  | Fault => False
  end.
Proof. vm_compute. reflexivity. Qed.

(** An operation has begun, and writes its first block. *)
Definition begun : fsst := match begin_op_turn (state0 0) with Ok _ s => s | Fault => state0 0 end.

Lemma log_has_room_witness :
  op_reach pid0 (begun, [0]) ∧
  ∃ s', log_write 3 begun = Ok tt s' ∧ lh_n (lg begun) ≤ lh_n (lg s') ≤ lh_n (lg begun) + 1 ∧
        flags <$> bufs (io s') !! 3%nat = Some (Z.lor (flags zero_buf) B_DIRTY).
Proof.
  assert (op_reach pid0 (begun, [0])) as Hr.
  { apply (reach_step pid0 (state0 0, [])); [by apply reach_start|]. by apply (op_begin pid0 (state0 0) begun []). }
  split; [exact Hr|]. apply (log_has_room pid0 begun [0] 0 0 3 zero_buf Hr); reflexivity.
Defined.

(** Three operations that use all they have reserved: the thirtieth block does not
    go in. *)
Definition step_to {A} (f : ST fsst A) (s : fsst) : fsst := match f s with Ok _ s' => s' | Fault => s end.
Definition three_begun : fsst := step_to begin_op_turn (step_to begin_op_turn (step_to begin_op_turn (state0 0))).
(** An operation changes block [b]. *)
Definition write_one (b : Z) : ST fsst unit :=
  let! i := on_io (bread pid0 1 b) in do! log_write i in on_io (brelse pid0 i).
(** The first [k] of the writes, to the blocks from 32 on, and how many of them each
    operation has made. *)
Definition writes_of (k : nat) : fsst := foldl (λ s i, step_to (write_one (32 + Z.of_nat i)) s) three_begun (seq 0 k).
Definition shares (k : nat) : list Z := [Z.of_nat (Nat.min k 10); Z.of_nat (Nat.min (k - 10) 10); Z.of_nat (k - 20)].

Lemma three_reached : op_reach pid0 (three_begun, shares 0).
Proof.
  pose (s1 := step_to begin_op_turn (state0 0)). pose (s2 := step_to begin_op_turn s1).
  apply (reach_step pid0 (s2, [0; 0])); [|by apply (op_begin pid0 s2 three_begun [0; 0])].
  apply (reach_step pid0 (s1, [0])); [|by apply (op_begin pid0 s1 s2 [0])].
  apply (reach_step pid0 (state0 0, [])); [by apply reach_start|by apply (op_begin pid0 (state0 0) s1 [])].
Qed.

Lemma write_one_reached b s s' ws j w : write_one b s = Ok tt s' → ws !! j = Some w → w < MAXOPBLOCKS →
  op_reach pid0 (s, ws) → op_reach pid0 (s', <[j := w + 1]> ws).
Proof.
  unfold write_one. intros (i & s1 & E1 & E)%bind_inv Hj Hw Hr. apply bind_inv in E as ([] & s2 & E2 & E3).
  eapply reach_step; [|by apply (op_cache pid0 _ _ _ _ _ E3)]. eapply reach_step; [|by apply (op_write pid0 _ _ _ _ _ _ Hj Hw E2)].
  eapply reach_step; [exact Hr|by apply (op_cache pid0 _ _ _ _ _ E1)].
Qed.

Lemma writes_succeed k : (k < 29)%nat → write_one (32 + Z.of_nat k) (writes_of k) = Ok tt (writes_of (S k)).
Proof.
  intros Hk. unfold writes_of. rewrite seq_S, foldl_app. cbn [foldl]. fold (writes_of k). rewrite Nat.add_0_l.
  assert (forallb (λ k, match write_one (32 + Z.of_nat k) (writes_of k) with Ok _ _ => true | Fault => false end) (seq 0 29) = true) as H by by vm_compute.
  rewrite forallb_forall in H. specialize (H k ltac:(apply in_seq; lia)). unfold step_to. by destruct (write_one _ (writes_of k)) as [[] s|].
Qed.

Lemma writes_reached k : (k ≤ 29)%nat → op_reach pid0 (writes_of k, shares k).
Proof.
  induction k as [|k IH]; intros Hk; [exact three_reached|].
  pose (j := if (k <? 10)%nat then 0%nat else if (k <? 20)%nat then 1%nat else 2%nat).
  assert (∃ w, shares k !! j = Some w ∧ w < MAXOPBLOCKS ∧ shares (S k) = <[j := w + 1]> (shares k)) as (w & Hj & Hw & ->).
  { unfold shares, j, MAXOPBLOCKS. destruct (Nat.ltb_spec k 10); [|destruct (Nat.ltb_spec k 20)]; cbn -[Nat.min Nat.sub];
      (eexists; split; [reflexivity|]; split; [lia|]; by repeat (apply (f_equal2 (@cons Z)); [lia|])). }
  eapply write_one_reached; [by apply writes_succeed; lia|done..|apply IH; lia].
Qed.

(** The panic that [begin_op] is meant to exclude happens: [begin_op] counts on
    [LOGSIZE] blocks, but the log that mkfs makes holds [LOGSIZE - 1] besides its
    header. *)
Theorem log_write_panics_within_reservation :
  ∃ s ws w i, op_reach pid0 (s, ws) ∧ ws !! 2%nat = Some w ∧ w < MAXOPBLOCKS ∧ is_Some (bufs (io s) !! i) ∧ log_write i s = Fault.
Proof.
  exists (step_to (on_io (bread pid0 1 61)) (writes_of 29)), (shares 29), 9.
  assert (match on_io (bread pid0 1 61) (writes_of 29) with
          | Ok i s => match bufs (io s) !! i, log_write i s with Some _, Fault => true | _, _ => false end
          | Fault => false end = true) as H by by vm_compute.
  unfold step_to. destruct (on_io (bread pid0 1 61) (writes_of 29)) as [i s|] eqn:E; [|done]. exists i.
  assert (is_Some (bufs (io s) !! i) ∧ log_write i s = Fault) as [Hi Hf] by (destruct (bufs (io s) !! i), (log_write i s); by try split).
  split; [|by split_and!]. eapply reach_step; [by apply writes_reached|by apply (op_cache pid0 _ _ _ _ _ E)].
Qed.

(** A cache whose buffers all hold dirty blocks. *)
Definition full_state : fsst :=
  Fs (Bc ((λ i, Buf 6 1 (40 + Z.of_nat i) 0 0 0 zeros) <$> seq 0 30) (seq 0 30) disk0 [])
     (Lg 2 30 3 0 1 30 ((λ i, 40 + Z.of_nat i) <$> seq 0 30)).

Lemma commit_full_cache_panics_witness : 0 < lh_n (lg full_state) ∧ commit pid0 full_state = Fault.
Proof.
  split; [reflexivity|]. apply (commit_full_cache_panics pid0 full_state); [reflexivity|].
  intros i x Hi. cbn [bufs io full_state] in Hi. rewrite list_lookup_fmap in Hi.
  destruct (seq 0 30 !! i) as [j|]; [|done]. injection Hi as <-. split; [reflexivity|]. cbn [blockno lg start full_state].
  change (u32 (2 + 1)) with 3. lia.
Defined.

End LogExamples.
