(* ===== verification/Fsys.v ===== *)
(** Fsys: the inode layer of the xv6 file system (p4/xv6-public/fs.c): block and
    inode allocation, the inode cache, file contents, directories and paths. *)
From Stdlib Require Import Strings.Byte.
From S2P Require Import Prelude Memory Bio Log.
Local Open Scope Z_scope.

Module Fsys.
Import Bio Log.

Definition ROOTINO : Z := 1.
Definition NDIRECT : Z := 12.
Definition NINDIRECT : Z := BSIZE / 4.
Definition MAXFILE : Z := NDIRECT + NINDIRECT.
Definition IPB : Z := BSIZE / 64.
Definition BPB : Z := BSIZE * 8.
Definition DIRSIZ : Z := 14.
Definition NINODE : Z := 50.
Definition NDEV : Z := 10.
Definition T_DIR : Z := 1.
Definition T_DEV : Z := 3.
Definition sizeof_dirent : Z := 16.

(** [struct inode] in memory, with its sleep lock. *)
Record inode := Inode {
  i_dev : Z; i_inum : Z; i_ref : Z; i_locked : Z; i_pid : Z; i_valid : Z;
  i_type : Z; i_major : Z; i_minor : Z; i_nlink : Z; i_size : Z; i_addrs : list Z
}.

(** The state: log and buffers, the super block, the inode cache.  A pointer to
    an inode is its index. *)
Record fsys := Fsys { base : fsst; sb : superblock; icache : list inode }.

Definition on_base {A} (f : ST fsst A) : ST fsys A := λ s,
  match f (base s) with Ok a b => Ok a (Fsys b (sb s) (icache s)) | Fault => Fault end.
Definition get_inode (ip : nat) : ST fsys inode := λ s, of_opt (icache s !! ip) s.
Definition put_inode (ip : nat) (x : inode) : ST fsys unit :=
  modify (λ s, Fsys (base s) (sb s) (<[ip := x]> (icache s))).

(** ** Fields of blocks *)
Definition sub_bytes (d : block) (o n : Z) : list byte := take (Z.to_nat n) (drop (Z.to_nat o) d).
Definition put_bytes (d : block) (o : Z) (bs : list byte) : block :=
  take (Z.to_nat o) d ++ bs ++ drop (Z.to_nat o + length bs) d.
Definition get_short (d : block) (o : Z) : Z := wraps 16 (le_decode (sub_bytes d o 2)).
Definition get_uint (d : block) (o : Z) : Z := le_decode (sub_bytes d o 4).
Definition get_byte (d : block) (o : Z) : Z := le_decode (sub_bytes d o 1).

Definition BBLOCK (b : Z) (s : superblock) : Z := u32 (b / BPB + bmapstart s).
Definition IBLOCK (i : Z) (s : superblock) : Z := u32 (i / IPB + inodestart s).

(** [struct dinode] at [o]. *)
Definition dinode_bytes (x : inode) : list byte :=
  le_encode 2 (i_type x) ++ le_encode 2 (i_major x) ++ le_encode 2 (i_minor x) ++ le_encode 2 (i_nlink x) ++
  le_encode 4 (i_size x) ++ concat (le_encode 4 <$> i_addrs x).
Definition load_dinode (d : block) (o : Z) (x : inode) : inode :=
  Inode (i_dev x) (i_inum x) (i_ref x) (i_locked x) (i_pid x) (i_valid x)
    (get_short d o) (get_short d (o + 2)) (get_short d (o + 4)) (get_short d (o + 6)) (get_uint d (o + 8))
    ((λ i, get_uint d (o + 12 + 4 * Z.of_nat i)) <$> seq 0 13).

Definition set_i_ref (n : Z) (x : inode) : inode :=
  Inode (i_dev x) (i_inum x) n (i_locked x) (i_pid x) (i_valid x) (i_type x) (i_major x) (i_minor x) (i_nlink x) (i_size x) (i_addrs x).
Definition set_i_lock (l p : Z) (x : inode) : inode :=
  Inode (i_dev x) (i_inum x) (i_ref x) l p (i_valid x) (i_type x) (i_major x) (i_minor x) (i_nlink x) (i_size x) (i_addrs x).
Definition set_i_valid (n : Z) (x : inode) : inode :=
  Inode (i_dev x) (i_inum x) (i_ref x) (i_locked x) (i_pid x) n (i_type x) (i_major x) (i_minor x) (i_nlink x) (i_size x) (i_addrs x).
Definition set_i_type (n : Z) (x : inode) : inode :=
  Inode (i_dev x) (i_inum x) (i_ref x) (i_locked x) (i_pid x) (i_valid x) n (i_major x) (i_minor x) (i_nlink x) (i_size x) (i_addrs x).
Definition set_i_size (n : Z) (x : inode) : inode :=
  Inode (i_dev x) (i_inum x) (i_ref x) (i_locked x) (i_pid x) (i_valid x) (i_type x) (i_major x) (i_minor x) (i_nlink x) n (i_addrs x).
Definition set_i_addr (k : Z) (a : Z) (x : inode) : inode :=
  Inode (i_dev x) (i_inum x) (i_ref x) (i_locked x) (i_pid x) (i_valid x) (i_type x) (i_major x) (i_minor x) (i_nlink x) (i_size x)
    (<[Z.to_nat k := a]> (i_addrs x)).

(** ** Strings *)

(** The character at the head; a string that has ended reads as NUL. *)
Definition head_or_nul (s : list byte) : byte := default x00 (head s).

(** [int strncmp(const char *p, const char *q, uint n)] (string.c) *)
Fixpoint strncmp (p q : list byte) (n : nat) : Z :=
  match n with
  | O => 0
  | S n' =>
      let a := head_or_nul p in
      let b := head_or_nul q in
      if bool_decide (a ≠ x00) && bool_decide (a = b) then strncmp (tail p) (tail q) n'
      else Z_of_byte a - Z_of_byte b
  end.
Definition namecmp (s t : list byte) : Z := strncmp s t (Z.to_nat DIRSIZ).

(** [strncpy(s, t, n)] (string.c): what is stored in [s]. *)
Fixpoint strncpy (t : list byte) (n : nat) : list byte :=
  match n with
  | O => []
  | S n' =>
      let c := head_or_nul t in
      if bool_decide (c = x00) then replicate n x00 else c :: strncpy (tail t) n'
  end.

Definition SLASH : byte := x2f.
Fixpoint skip_slashes (s : list byte) : list byte :=
  match s with
  | c :: s' => if bool_decide (c = SLASH) then skip_slashes s' else s
  | [] => []
  end.
Fixpoint span_elem (s : list byte) : list byte * list byte :=
  match s with
  | c :: s' => if bool_decide (c = SLASH) then ([], s) else let (e, r) := span_elem s' in (c :: e, r)
  | [] => ([], [])
  end.
(** [char* skipelem(char *path, char *name)]: the rest of the path and the name,
    cut to [DIRSIZ] characters. *)
Definition skipelem (path : list byte) : option (list byte * list byte) :=
  match skip_slashes path with
  | [] => None
  | path =>
      let (e, r) := span_elem path in
      Some (skip_slashes r, if DIRSIZ <=? Z.of_nat (length e) then take (Z.to_nat DIRSIZ) e else e)
  end.

(** The drivers behind device files, by major number (console.c). *)
Class Devices := {
  devsw_read : Z → option (nat → Z → ST fsys (Z * list byte));
  devsw_write : Z → option (nat → list byte → ST fsys Z)
}.

Section Fsys.
Context (me : Z) `{Devices}.

Definition read_block (dev b : Z) : ST fsys nat := on_base (on_io (bread me (u32 dev) (u32 b))).
Definition release_block (bp : nat) : ST fsys unit := on_base (on_io (brelse me bp)).
Definition bdata (bp : nat) : ST fsys block := on_base (on_io (get_data bp)).
Definition set_bdata (bp : nat) (d : block) : ST fsys unit := on_base (on_io (put_data bp d)).
Definition log_block (bp : nat) : ST fsys unit := on_base (log_write bp).

(** ** Blocks *)
Definition bzero (dev bno : Z) : ST fsys unit :=
  let! bp := read_block dev bno in
  do! set_bdata bp (replicate (Z.to_nat BSIZE) x00) in
  do! log_block bp in
  release_block bp.

(** The test and the change of bit [bi] of a bitmap block. *)
Definition bit_free (d : block) (bi : Z) : bool :=
  Z.land (get_byte d (bi / 8)) (Z.shiftl 1 (bi mod 8)) =? 0.
Definition set_bit (d : block) (bi : Z) : block :=
  put_bytes d (bi / 8) (le_encode 1 (Z.lor (get_byte d (bi / 8)) (Z.shiftl 1 (bi mod 8)))).
Definition clear_bit (d : block) (bi : Z) : block :=
  put_bytes d (bi / 8) (le_encode 1 (Z.ldiff (get_byte d (bi / 8)) (Z.shiftl 1 (bi mod 8)))).

(** One bitmap block of [balloc]. *)
Definition balloc_step (dev b : Z) : ST fsys (Z + Z) :=
  let! s := gets sb in
  if negb (b <? sb_size s) then fault else
  let! bp := read_block dev (BBLOCK b s) in
  let! r := for_range 0 (Z.min BPB (sb_size s - b)) (λ bi,
    let! d := bdata bp in
    if bit_free d bi then
      do! set_bdata bp (set_bit d bi) in
      do! log_block bp in
      do! release_block bp in
      do! bzero dev (b + bi) in
      ret (Some (b + bi))
    else ret None) in
  match r with
  | Some a => ret (inr a)
  | None => do! release_block bp in ret (inl (b + BPB))
  end.
Definition balloc (dev : Z) : ST fsys Z :=
  let! s := gets sb in
  loop (S (S (Z.to_nat (sb_size s / BPB)))) (balloc_step dev) 0.

Definition bfree (dev b : Z) : ST fsys unit :=
  let! s := gets sb in
  let! bp := read_block dev (BBLOCK b s) in
  let bi := b mod BPB in
  let! d := bdata bp in
  if bit_free d bi then fault else
  do! set_bdata bp (clear_bit d bi) in
  do! log_block bp in
  release_block bp.

(** ** Inodes *)
Definition iinit (dev : Z) : ST fsys unit :=
  do! modify (λ s, Fsys (base s) (sb s) (set_i_lock 0 0 <$> icache s)) in
  let! s := on_base (readsb me dev) in
  modify (λ t, Fsys (base t) s (icache t)).

Definition iget (dev inum : Z) : ST fsys nat :=
  let! ic := gets icache in
  match list_find (λ x, 0 < i_ref x ∧ i_dev x = dev ∧ i_inum x = inum) ic with
  | Some (ip, x) => do! put_inode ip (set_i_ref (i_ref x + 1) x) in ret ip
  | None =>
      match list_find (λ x, i_ref x = 0) ic with
      | Some (ip, x) =>
          do! put_inode ip (Inode dev inum 1 (i_locked x) (i_pid x) 0 (i_type x) (i_major x) (i_minor x)
                              (i_nlink x) (i_size x) (i_addrs x)) in
          ret ip
      | None => fault
      end
  end.

Definition ialloc_step (dev type inum : Z) : ST fsys (option nat) :=
  let! s := gets sb in
  let! bp := read_block dev (IBLOCK inum s) in
  let! d := bdata bp in
  let o := inum mod IPB * 64 in
  if get_short d o =? 0 then
    do! set_bdata bp (put_bytes d o (le_encode 2 type ++ replicate 62 x00)) in
    do! log_block bp in
    do! release_block bp in
    let! ip := iget dev inum in ret (Some ip)
  else do! release_block bp in ret None.
Definition ialloc (dev type : Z) : ST fsys nat :=
  let! s := gets sb in
  let! r := for_range 1 (ninodes s) (ialloc_step dev type) in
  of_opt r.

Definition iupdate (ip : nat) : ST fsys unit :=
  let! s := gets sb in
  let! x := get_inode ip in
  let! bp := read_block (i_dev x) (IBLOCK (i_inum x) s) in
  let! d := bdata bp in
  do! set_bdata bp (put_bytes d (i_inum x mod IPB * 64) (dinode_bytes x)) in
  do! log_block bp in
  release_block bp.

Definition idup (ip : nat) : ST fsys nat :=
  let! x := get_inode ip in
  do! put_inode ip (set_i_ref (i_ref x + 1) x) in ret ip.

Definition acquire_inode (ip : nat) : ST fsys unit :=
  let! x := get_inode ip in
  if negb (i_locked x =? 0) then fault else put_inode ip (set_i_lock 1 me x).
Definition release_inode (ip : nat) : ST fsys unit :=
  let! x := get_inode ip in put_inode ip (set_i_lock 0 0 x).

Definition ilock (ip : nat) : ST fsys unit :=
  let! x := get_inode ip in
  if i_ref x <? 1 then fault else
  do! acquire_inode ip in
  let! x := get_inode ip in
  if i_valid x =? 0 then
    let! s := gets sb in
    let! bp := read_block (i_dev x) (IBLOCK (i_inum x) s) in
    let! d := bdata bp in
    let x := load_dinode d (i_inum x mod IPB * 64) x in
    do! put_inode ip x in
    do! release_block bp in
    do! put_inode ip (set_i_valid 1 x) in
    if i_type x =? 0 then fault else ret tt
  else ret tt.

Definition iunlock (ip : nat) : ST fsys unit :=
  let! x := get_inode ip in
  if negb (negb (i_locked x =? 0) && (i_pid x =? me)) || (i_ref x <? 1) then fault else
  release_inode ip.

(** ** Contents *)

(** [static uint bmap(struct inode *ip, uint bn)] *)
Definition bmap (ip : nat) (bn : Z) : ST fsys Z :=
  let! x := get_inode ip in
  if bn <? NDIRECT then
    let! a := of_opt (i_addrs x !! Z.to_nat bn) in
    if a =? 0 then
      let! a := balloc (i_dev x) in
      let! x := get_inode ip in
      do! put_inode ip (set_i_addr bn a x) in ret a
    else ret a
  else
  let bn := bn - NDIRECT in
  if bn <? NINDIRECT then
    let! a := of_opt (i_addrs x !! Z.to_nat NDIRECT) in
    let! a := (if a =? 0 then
                 let! a := balloc (i_dev x) in
                 let! x := get_inode ip in
                 do! put_inode ip (set_i_addr NDIRECT a x) in ret a
               else ret a) in
    let! bp := read_block (i_dev x) a in
    let! d := bdata bp in
    let a := get_uint d (4 * bn) in
    let! a := (if a =? 0 then
                 let! a := balloc (i_dev x) in
                 let! d := bdata bp in
                 do! set_bdata bp (put_bytes d (4 * bn) (le_encode 4 a)) in
                 do! log_block bp in ret a
               else ret a) in
    do! release_block bp in
    ret a
  else fault.

(** [static void itrunc(struct inode *ip)] *)
Definition itrunc (ip : nat) : ST fsys unit :=
  let! _ := for_range 0 NDIRECT (λ i,
    let! x := get_inode ip in
    let! a := of_opt (i_addrs x !! Z.to_nat i) in
    do! (if a =? 0 then ret tt else
         do! bfree (i_dev x) a in
         let! x := get_inode ip in put_inode ip (set_i_addr i 0 x)) in
    ret (@None unit)) in
  let! x := get_inode ip in
  let! a := of_opt (i_addrs x !! Z.to_nat NDIRECT) in
  do! (if a =? 0 then ret tt else
       let! bp := read_block (i_dev x) a in
       let! _ := for_range 0 NINDIRECT (λ j,
         let! d := bdata bp in
         let b := get_uint d (4 * j) in
         do! (if b =? 0 then ret tt else bfree (i_dev x) b) in ret (@None unit)) in
       do! release_block bp in
       do! bfree (i_dev x) a in
       let! x := get_inode ip in put_inode ip (set_i_addr NDIRECT 0 x)) in
  let! x := get_inode ip in
  do! put_inode ip (set_i_size 0 x) in
  iupdate ip.

Definition iput (ip : nat) : ST fsys unit :=
  do! acquire_inode ip in
  let! x := get_inode ip in
  do! (if negb (i_valid x =? 0) && (i_nlink x =? 0) then
         if i_ref x =? 1 then
           do! itrunc ip in
           let! x := get_inode ip in
           do! put_inode ip (set_i_type 0 x) in
           do! iupdate ip in
           let! x := get_inode ip in
           put_inode ip (set_i_valid 0 x)
         else ret tt
       else ret tt) in
  do! release_inode ip in
  let! x := get_inode ip in
  put_inode ip (set_i_ref (i_ref x - 1) x).

Definition iunlockput (ip : nat) : ST fsys unit := do! iunlock ip in iput ip.

(** [struct stat] *)
Record stat := Stat { st_type : Z; st_dev : Z; st_ino : Z; st_nlink : Z; st_size : Z }.
Definition stati (ip : nat) : ST fsys stat :=
  let! x := get_inode ip in
  ret (Stat (i_type x) (wraps 32 (i_dev x)) (i_inum x) (i_nlink x) (i_size x)).

(** [int readi(struct inode *ip, char *dst, uint off, uint n)]: the result and
    the bytes stored. *)
Record rw := Rw { r_off : Z; r_tot : Z; r_bytes : list byte }.
Definition readi_step (ip : nat) (n : Z) (l : rw) : ST fsys (rw + (Z * list byte)) :=
  if negb (r_tot l <? n) then ret (inr (n, r_bytes l)) else
  let! x := get_inode ip in
  let! a := bmap ip (r_off l / BSIZE) in
  let! bp := read_block (i_dev x) a in
  let m := Z.min (n - r_tot l) (BSIZE - r_off l mod BSIZE) in
  let! d := bdata bp in
  let bytes := sub_bytes d (r_off l mod BSIZE) m in
  do! release_block bp in
  ret (inl (Rw (r_off l + m) (r_tot l + m) (r_bytes l ++ bytes))).
Definition readi (ip : nat) (off n : Z) : ST fsys (Z * list byte) :=
  let! x := get_inode ip in
  if i_type x =? T_DEV then
    if (i_major x <? 0) || (NDEV <=? i_major x) then ret (-1, []) else
    match devsw_read (i_major x) with
    | None => ret (-1, [])
    | Some f => f ip n
    end
  else
  if (i_size x <? off) || (u32 (off + n) <? off) then ret (-1, []) else
  let n := if i_size x <? u32 (off + n) then u32 (i_size x - off) else n in
  loop (S (Z.to_nat n)) (readi_step ip n) (Rw off 0 []).

(** [int writei(struct inode *ip, char *src, uint off, uint n)]; [src] has [n]
    bytes. *)
Definition writei_step (ip : nat) (src : list byte) (n : Z) (l : Z * Z) : ST fsys ((Z * Z) + Z) :=
  let (off, tot) := l in
  if negb (tot <? n) then ret (inr off) else
  let! x := get_inode ip in
  let! a := bmap ip (off / BSIZE) in
  let! bp := read_block (i_dev x) a in
  let m := Z.min (n - tot) (BSIZE - off mod BSIZE) in
  let! d := bdata bp in
  do! set_bdata bp (put_bytes d (off mod BSIZE) (sub_bytes src tot m)) in
  do! log_block bp in
  do! release_block bp in
  ret (inl (off + m, tot + m)).
Definition writei (ip : nat) (src : list byte) (off : Z) : ST fsys Z :=
  let n := Z.of_nat (length src) in
  let! x := get_inode ip in
  if i_type x =? T_DEV then
    if (i_major x <? 0) || (NDEV <=? i_major x) then ret (-1) else
    match devsw_write (i_major x) with
    | None => ret (-1)
    | Some f => f ip src
    end
  else
  if (i_size x <? off) || (u32 (off + n) <? off) then ret (-1) else
  if MAXFILE * BSIZE <? u32 (off + n) then ret (-1) else
  let! off := loop (S (Z.to_nat n)) (writei_step ip src n) (off, 0) in
  let! x := get_inode ip in
  do! (if (0 <? n) && (i_size x <? off) then
         do! put_inode ip (set_i_size off x) in iupdate ip
       else ret tt) in
  ret n.

(** ** Directories *)

(** [struct inode* dirlookup(struct inode *dp, char *name, uint *poff)]: the
    inode and the offset of the entry. *)
Definition dirlookup_step (dp : nat) (name : list byte) (off : Z) : ST fsys (Z + option (nat * Z)) :=
  let! x := get_inode dp in
  if negb (off <? i_size x) then ret (inr None) else
  let! (r, de) := readi dp off sizeof_dirent in
  if negb (r =? sizeof_dirent) then fault else
  let inum := le_decode (take 2 de) in
  if inum =? 0 then ret (inl (off + sizeof_dirent)) else
  if namecmp name (drop 2 de) =? 0 then
    let! ip := iget (i_dev x) inum in ret (inr (Some (ip, off)))
  else ret (inl (off + sizeof_dirent)).
Definition dirlookup (dp : nat) (name : list byte) : ST fsys (option (nat * Z)) :=
  let! x := get_inode dp in
  if negb (i_type x =? T_DIR) then fault else
  loop (S (S (Z.to_nat (i_size x / sizeof_dirent)))) (dirlookup_step dp name) 0.

Definition dirlink_step (dp : nat) (off : Z) : ST fsys (Z + Z) :=
  let! x := get_inode dp in
  if negb (off <? i_size x) then ret (inr off) else
  let! (r, de) := readi dp off sizeof_dirent in
  if negb (r =? sizeof_dirent) then fault else
  if le_decode (take 2 de) =? 0 then ret (inr off) else ret (inl (off + sizeof_dirent)).
Definition dirlink (dp : nat) (name : list byte) (inum : Z) : ST fsys Z :=
  let! r := dirlookup dp name in
  match r with
  | Some (ip, _) => do! iput ip in ret (-1)
  | None =>
      let! x := get_inode dp in
      let! off := loop (S (S (Z.to_nat (i_size x / sizeof_dirent)))) (dirlink_step dp) 0 in
      let! r := writei dp (le_encode 2 inum ++ strncpy name (Z.to_nat DIRSIZ)) off in
      if negb (r =? sizeof_dirent) then fault else ret 0
  end.

(** ** Paths *)

(** One turn of the loop of [namex]; the answer is the inode and the last name. *)
Definition namex_step (nameiparent : bool) (l : nat * list byte * list byte) :
    ST fsys ((nat * list byte * list byte) + option (nat * list byte)) :=
  let '(ip, path, name) := l in
  match skipelem path with
  | None =>
      if nameiparent then do! iput ip in ret (inr None) else ret (inr (Some (ip, name)))
  | Some (path, name) =>
      do! ilock ip in
      let! x := get_inode ip in
      if negb (i_type x =? T_DIR) then do! iunlockput ip in ret (inr None) else
      if nameiparent && bool_decide (path = []) then do! iunlock ip in ret (inr (Some (ip, name))) else
      let! r := dirlookup ip name in
      match r with
      | None => do! iunlockput ip in ret (inr None)
      | Some (next, _) => do! iunlockput ip in ret (inl (next, path, name))
      end
  end.
(** [cwd]: the working directory of the process. *)
Definition namex (cwd : nat) (path : list byte) (nameiparent : bool) : ST fsys (option (nat * list byte)) :=
  let! ip := (if bool_decide (head path = Some SLASH) then iget ROOTDEV ROOTINO else idup cwd) in
  loop (S (length path)) (namex_step nameiparent) (ip, path, []).
Definition namei (cwd : nat) (path : list byte) : ST fsys (option nat) :=
  let! r := namex cwd path false in ret (fst <$> r).
Definition nameiparent (cwd : nat) (path : list byte) : ST fsys (option (nat * list byte)) := namex cwd path true.

End Fsys.
End Fsys.
