(* ===== verification/FsysInv.v ===== *)
(** FsysInv: the blocks of the file system as the inode layer sees them: bytes
    and bits of a block, and the operations on buffers as reads and writes of the
    abstract cache. *)
From Stdlib Require Import Strings.Byte.
From S2P Require Import Prelude Memory Bio BioInv Log LogInv Fsys.
From stdpp Require Import gmap.
Local Open Scope Z_scope.

Module FsysInv.
Ltac Zify.zify_post_hook ::= Z.to_euclidean_division_equations.
Import Bio BioInv Log LogInv Fsys.

(** A step whose outcome is known. *)
Lemma wp_bind_ok {St A B} (m : ST St A) (k : A → ST St B) Q s a s' : m s = Ok a s' → wp (k a) Q s' → wp (bind m k) Q s.
Proof. intros E H. unfold wp. by rewrite (bind_ok _ _ _ _ _ E). Qed.

(** * Bytes of a block *)
Section Bytes.
Context (d : block) (Hd : length d = 512%nat).

Lemma length_sub_bytes o n : 0 ≤ o → 0 ≤ n → o + n ≤ 512 → length (sub_bytes d o n) = Z.to_nat n.
Proof. intros. unfold sub_bytes. rewrite length_take, length_drop. lia. Qed.

Lemma lookup_sub_bytes o n k : (k < Z.to_nat n)%nat → sub_bytes d o n !! k = d !! (Z.to_nat o + k)%nat.
Proof. intros. unfold sub_bytes. rewrite lookup_take_lt by done. apply lookup_drop. Qed.

Lemma length_put_bytes o bs : 0 ≤ o → o + Z.of_nat (length bs) ≤ 512 → length (put_bytes d o bs) = 512%nat.
Proof. intros. unfold put_bytes. rewrite !length_app, length_take, length_drop. lia. Qed.

Lemma lookup_put_bytes o bs k : 0 ≤ o → o + Z.of_nat (length bs) ≤ 512 →
  put_bytes d o bs !! k =
    if decide (Z.to_nat o ≤ k < Z.to_nat o + length bs)%nat then bs !! (k - Z.to_nat o)%nat else d !! k.
Proof.
  intros. unfold put_bytes. destruct (decide (k < Z.to_nat o)%nat).
  { rewrite lookup_app_l by (rewrite length_take; lia). rewrite lookup_take_lt by done. by rewrite decide_False by lia. }
  rewrite lookup_app_r by (rewrite length_take; lia). rewrite length_take, Nat.min_l by lia. case_decide.
  - by rewrite lookup_app_l by lia.
  - rewrite lookup_app_r, lookup_drop by lia. f_equal. lia.
Qed.

Lemma sub_put_eq o bs :
  0 ≤ o → o + Z.of_nat (length bs) ≤ 512 → sub_bytes (put_bytes d o bs) o (Z.of_nat (length bs)) = bs.
Proof.
  intros. unfold sub_bytes, put_bytes. rewrite Nat2Z.id, drop_app_length' by (rewrite length_take; lia).
  by rewrite take_app_length.
Qed.

Lemma sub_put_ne o bs o' n : 0 ≤ o → o + Z.of_nat (length bs) ≤ 512 → 0 ≤ o' → 0 ≤ n →
  o' + n ≤ o ∨ o + Z.of_nat (length bs) ≤ o' → sub_bytes (put_bytes d o bs) o' n = sub_bytes d o' n.
Proof.
  intros. apply list_eq. intros k. destruct (decide (k < Z.to_nat n)%nat).
  - unfold sub_bytes. rewrite !lookup_take_lt, !lookup_drop, lookup_put_bytes by done. by rewrite decide_False by lia.
  - unfold sub_bytes. by rewrite !lookup_take_ge by lia.
Qed.

(** ** Bits *)

Lemma land_bit x c : 0 ≤ c → (Z.land x (Z.shiftl 1 c) =? 0) = negb (Z.testbit x c).
Proof.
  intros Hc. destruct (Z.testbit x c) eqn:E; cbn; [apply Z.eqb_neq|apply Z.eqb_eq].
  - intros H0. assert (Z.testbit (Z.land x (Z.shiftl 1 c)) c = false) as H by (by rewrite H0, Z.bits_0).
    rewrite Z.land_spec, E, shiftl_1_testbit, bool_decide_true in H by done. done.
  - apply Z.bits_inj'. intros k Hk. rewrite Z.land_spec, shiftl_1_testbit, Z.bits_0 by done.
    case_bool_decide; [by subst; rewrite E|apply andb_false_r].
Qed.

Lemma bit_free_testbit bi : bit_free d bi = negb (Z.testbit (get_byte d (bi / 8)) (bi mod 8)).
Proof. unfold bit_free. apply land_bit. lia. Qed.

Lemma get_byte_put o z o' : 0 ≤ o < 512 → 0 ≤ o' < 512 →
  get_byte (put_bytes d o (le_encode 1 z)) o' = if decide (o' = o) then wrapu 8 z else get_byte d o'.
Proof.
  intros. unfold get_byte. case_decide as E.
  - subst. pose proof (sub_put_eq o (le_encode 1 z)) as H1. rewrite length_le_encode in H1.
    change (Z.of_nat 1) with 1 in H1. rewrite H1, le_decode_encode by lia. done.
  - by rewrite sub_put_ne by (rewrite ?length_le_encode; lia).
Qed.

Lemma testbit_byte z k : 0 ≤ k < 8 → Z.testbit (wrapu 8 z) k = Z.testbit z k.
Proof. intros. unfold wrapu. apply Z.mod_pow2_bits_low. lia. Qed.

Lemma bit_byte_eq i j : 0 ≤ i → 0 ≤ j → j / 8 = i / 8 → bool_decide (j mod 8 = i mod 8) = (j =? i).
Proof.
  intros. apply eq_true_iff_eq. rewrite bool_decide_eq_true, Z.eqb_eq.
  pose proof (Z.div_mod i 8). pose proof (Z.div_mod j 8). split; [lia|by intros ->].
Qed.

Lemma bit_free_put z i j : 0 ≤ i < BPB → 0 ≤ j < BPB →
  bit_free (put_bytes d (i / 8) (le_encode 1 z)) j =
    if decide (j / 8 = i / 8) then negb (Z.testbit z (j mod 8)) else bit_free d j.
Proof.
  unfold BPB, BSIZE. intros. rewrite bit_free_testbit. fold (bit_free d j).
  unfold bit_free at 1. rewrite !land_bit by lia. rewrite !get_byte_put by lia.
  case_decide; [by rewrite testbit_byte by lia|done].
Qed.

Lemma bit_free_set i j : 0 ≤ i < BPB → 0 ≤ j < BPB → bit_free (set_bit d i) j = bit_free d j && negb (j =? i).
Proof.
  intros. unfold set_bit. rewrite bit_free_put by done. rewrite bit_free_testbit. case_decide as E.
  - rewrite Z.lor_spec, shiftl_1_testbit, bit_byte_eq, E by lia. by rewrite negb_orb.
  - rewrite (proj2 (Z.eqb_neq j i)), andb_true_r by congruence. done.
Qed.

Lemma bit_free_clear i j : 0 ≤ i < BPB → 0 ≤ j < BPB → bit_free (clear_bit d i) j = bit_free d j || (j =? i).
Proof.
  intros. unfold clear_bit. rewrite bit_free_put by done. rewrite bit_free_testbit. case_decide as E.
  - rewrite Z.ldiff_spec, shiftl_1_testbit, bit_byte_eq, E by lia. by rewrite negb_andb, negb_involutive.
  - rewrite (proj2 (Z.eqb_neq j i)), orb_false_r by congruence. done.
Qed.

Lemma length_set_bit i : 0 ≤ i < BPB → length (set_bit d i) = 512%nat.
Proof. unfold BPB, BSIZE. intros. apply length_put_bytes; rewrite ?length_le_encode; lia. Qed.
Lemma length_clear_bit i : 0 ≤ i < BPB → length (clear_bit d i) = 512%nat.
Proof. unfold BPB, BSIZE. intros. apply length_put_bytes; rewrite ?length_le_encode; lia. Qed.
End Bytes.

(** * The operations on buffers *)
Section Steps.
Context (me : Z) (S : superblock).

(** The abstract cache, the log and the inode cache of a state. *)
Definition fabs (C : list inode) (A : acache) (L : log) (s : fsys) : Prop :=
  fsabs me (base s) A L ∧ sb s = S ∧ icache s = C.

Definition unheld (A : acache) (b : Z) : Prop := ∀ i d, hd A !! i ≠ Some (b, d).
Definition set_hd (h : gmap nat (Z * block)) (A : acache) : acache := AC (vw A) (dk A) (ws A) (dt A) h.
(** There is a buffer for block [b]. *)
Definition room (A : acache) (b : Z) : Prop :=
  b ∈ dt A ∨ Z.of_nat (size (hd A)) + Z.of_nat (size (dt A)) < NBUF.

Lemma on_base_ok {R} C A L s (f : ST fsst R) r b :
  fabs C A L s → f (base s) = Ok r b → on_base f s = Ok r (Fsys b S C).
Proof. intros (_ & <- & <-). unfold on_base. by intros ->. Qed.

Lemma sb_ok C A L s : fabs C A L s → gets sb s = Ok S s.
Proof. by intros (_ & <- & _). Qed.

Lemma get_inode_ok C A L s ip x : fabs C A L s → C !! ip = Some x → get_inode ip s = Ok x s.
Proof. intros (_ & _ & <-) Hx. unfold get_inode. by rewrite Hx. Qed.

Lemma put_inode_ok C A L s ip x :
  fabs C A L s → ∃ s', put_inode ip x s = Ok tt s' ∧ fabs (<[ip := x]> C) A L s'.
Proof. intros (HA & HS & <-). eexists. by split. Qed.

Lemma read_block_ok C A L s b :
  fabs C A L s → 0 ≤ b < Z.of_nat (length (dk A)) → unheld A b → room A b →
  ∃ i d s', read_block me 1 b s = Ok i s' ∧ vw A b = Some d ∧ length d = 512%nat ∧ hd A !! i = None ∧
    (b ∈ dt A ∨ dk A !! Z.to_nat b = Some d) ∧ fabs C (set_hd (<[i := (b, d)]> (hd A)) A) L s'.
Proof.
  intros HF Hb Hfree Hroom. pose proof HF as (HA & HS & HC). pose proof HA as (HA0 & HL & Hlim & Hdev).
  destruct (bread_abs me (io (base s)) A b HA0 Hb Hfree Hroom) as (i & d & c & E & Hd & Hl & Hi & HA').
  exists i, d, (Fsys (Fs c (lg (base s))) S C). split.
  { eapply on_base_ok; [done|]. rewrite (u32_small 1), (u32_small b) by lia. by apply on_io_ok. }
  split_and!; try done.
  destruct (decide (b ∈ dt A)) as [|Hn]; [by left|right]. rewrite <- Hd. symmetry. by eapply unheld_view.
Qed.

Lemma bdata_ok C A L s i b d : fabs C A L s → hd A !! i = Some (b, d) → bdata i s = Ok d s.
Proof.
  intros HF Hi. pose proof HF as (HA & HS & HC). unfold bdata.
  rewrite (on_base_ok C A L s _ d (base s) HF (get_data_ok me _ A L i b d HA Hi)). by destruct s; cbn in *; subst.
Qed.

Lemma set_bdata_ok C A L s i b d d' :
  fabs C A L s → hd A !! i = Some (b, d) → length d' = 512%nat →
  ∃ s', set_bdata i d' s = Ok tt s' ∧ fabs C (AC (upd (vw A) b d') (dk A) (ws A) (dt A) (<[i := (b, d')]> (hd A))) L s'.
Proof.
  intros HF Hi Hl. pose proof HF as (HA & HS & HC). destruct (put_data_ok me _ A L i b d d' HA Hi Hl) as (s' & E & HA').
  exists (Fsys s' S C). split; [by eapply on_base_ok|done].
Qed.

Lemma log_block_ok C A L s i b d :
  fabs C A L s → hd A !! i = Some (b, d) → lh_n L < LOGSIZE → lh_n L < lsize L - 1 → 1 ≤ outstanding L →
  ∃ s', log_block i s = Ok tt s' ∧ fabs C (AC (vw A) (dk A) (ws A) ({[b]} ∪ dt A) (hd A)) (logged L b) s'.
Proof.
  intros HF Hi H1 H2 H3. pose proof HF as (HA & HS & HC). destruct (log_write_ok me _ A L i b d HA Hi H1 H2 H3) as (s' & E & HA').
  exists (Fsys s' S C). split; [by eapply on_base_ok|done].
Qed.

Lemma release_ok C A L s i b d :
  fabs C A L s → hd A !! i = Some (b, d) → b ∈ dt A ∨ dk A !! Z.to_nat b = Some d →
  ∃ s', release_block me i s = Ok tt s' ∧ fabs C (set_hd (delete i (hd A)) A) L s'.
Proof.
  intros HF Hi Hc. pose proof HF as (HA & HS & HC). destruct (brelse_ok me _ A L i b d HA Hi Hc) as (s' & E & HA').
  exists (Fsys s' S C). split; [by eapply on_base_ok|done].
Qed.

(** ** Changing a block within a transaction *)

(** Block [b] becomes [d]. *)
Definition write_to (b : Z) (d : block) (A : acache) : acache :=
  AC (upd (vw A) b d) (dk A) (ws A) ({[b]} ∪ dt A) (hd A).

(** There is room for [n] more blocks in the transaction. *)
Definition can_log (L : log) (n : Z) : Prop :=
  lh_n L + n ≤ LOGSIZE ∧ lh_n L + n ≤ lsize L - 1 ∧ 1 ≤ outstanding L.

Lemma can_log_logged L b n : can_log L (n + 1) → can_log (logged L b) n.
Proof. unfold can_log, logged. destruct (_ =? _); cbn; lia. Qed.

(** The end of an operation on one block: the data, the log and [brelse]. *)
Lemma change_block_ok C A L s i b d d' :
  fabs C (set_hd (<[i := (b, d)]> (hd A)) A) L s → hd A !! i = None → length d' = 512%nat → can_log L 1 →
  ∃ s', (do! set_bdata i d' in do! log_block i in release_block me i) s = Ok tt s' ∧
        fabs C (write_to b d' A) (logged L b) s'.
Proof.
  intros HF Hi Hl (H1 & H2 & H3).
  destruct (set_bdata_ok C _ L s i b d d' HF (lookup_insert_eq _ _ _) Hl) as (s1 & E1 & HF1).
  cbn [set_hd vw dk ws dt hd] in HF1. rewrite insert_insert_eq in HF1.
  destruct (log_block_ok C _ L s1 i b d' HF1 (lookup_insert_eq _ _ _)) as (s2 & E2 & HF2); [lia..|].
  destruct (release_ok C _ _ s2 i b d' HF2 (lookup_insert_eq _ _ _)) as (s3 & E3 & HF3); [left; cbn; set_solver|].
  exists s3. rewrite (bind_ok _ _ _ _ _ E1), (bind_ok _ _ _ _ _ E2), E3. split; [done|].
  cbn [set_hd vw dk ws dt hd] in HF3. rewrite delete_insert_id in HF3 by done. done.
Qed.

(** [bread], a change of the whole block, [log_write], [brelse]. *)
Lemma modify_block_ok C A L s b (f : block → block) :
  fabs C A L s → 0 ≤ b < Z.of_nat (length (dk A)) → unheld A b → room A b → can_log L 1 →
  (∀ d, length d = 512%nat → length (f d) = 512%nat) →
  ∃ d s', (let! bp := read_block me 1 b in let! d := bdata bp in
           do! set_bdata bp (f d) in do! log_block bp in release_block me bp) s = Ok tt s' ∧
    vw A b = Some d ∧ length d = 512%nat ∧ fabs C (write_to b (f d) A) (logged L b) s'.
Proof.
  intros HF Hb Hun Hroom HL Hf.
  destruct (read_block_ok C A L s b HF Hb Hun Hroom) as (i & d & s1 & E1 & Hd & Hl & Hi & _ & HF1).
  destruct (change_block_ok C A L s1 i b d (f d) HF1 Hi (Hf d Hl) HL) as (s2 & E2 & HF2).
  exists d, s2. split; [|done]. rewrite (bind_ok _ _ _ _ _ E1).
  rewrite (bind_ok _ _ _ _ _ (bdata_ok C _ L s1 i b d HF1 (lookup_insert_eq _ _ _))). done.
Qed.

(** [bread], a look at the data, [brelse]. *)
Lemma look_block_ok {R} C A L s b (k : block → R) :
  fabs C A L s → 0 ≤ b < Z.of_nat (length (dk A)) → unheld A b → room A b →
  ∃ d s', (let! bp := read_block me 1 b in let! d := bdata bp in
           do! release_block me bp in ret (k d)) s = Ok (k d) s' ∧
    vw A b = Some d ∧ length d = 512%nat ∧ fabs C A L s'.
Proof.
  intros HF Hb Hun Hroom.
  destruct (read_block_ok C A L s b HF Hb Hun Hroom) as (i & d & s1 & E1 & Hd & Hl & Hi & Hc & HF1).
  destruct (release_ok C _ L s1 i b d HF1 (lookup_insert_eq _ _ _) Hc) as (s2 & E2 & HF2).
  exists d, s2. split_and!; try done.
  - rewrite (bind_ok _ _ _ _ _ E1). rewrite (bind_ok _ _ _ _ _ (bdata_ok C _ L s1 i b d HF1 (lookup_insert_eq _ _ _))).
    by rewrite (bind_ok _ _ _ _ _ E2).
  - cbn [set_hd vw dk ws dt hd] in HF2. rewrite delete_insert_id in HF2 by done. by destruct A.
Qed.

End Steps.

End FsysInv.
