(* ===== verification/FsysTx.v ===== *)
(** FsysTx: the transaction of a running operation: the blocks that the log header
    in memory lists are exactly the dirty ones, and [end_op] makes all of them
    durable at once. *)
From S2P Require Import Prelude Memory Bio BioInv Log LogInv LogCrash Fsys FsysInv.
From stdpp Require Import gmap.
Local Open Scope Z_scope.

Module FsysTx.
Import Bio BioInv Log LogInv LogCrash Fsys FsysInv.

(** The blocks that the header in memory lists. *)
Definition listed (L : log) : list Z := take (Z.to_nat (lh_n L)) (lh_block L).

(** A block that is not of the log area: the header and the [lsize - 1] blocks behind
    it, as [mkfs] lays them out. *)
Definition outside_log (L : log) (N b : Z) : Prop := 0 ≤ b < N ∧ (b < start L ∨ start L + lsize L ≤ b).

(** One operation runs, and has dirtied exactly the blocks listed. *)
Record in_tx (A : acache) (L : log) : Prop := {
  tx_open : outstanding L = 1 ∧ committing L = 0;
  tx_n : 0 ≤ lh_n L < LOGSIZE ∧ lh_n L < lsize L;
  tx_int : int_blocks (lh_block L);
  tx_nodup : NoDup (listed L);
  tx_dirty : ∀ b, b ∈ dt A ↔ b ∈ listed L;
  tx_home : ∀ b, b ∈ listed L → outside_log L (Z.of_nat (length (dk A))) b;
  tx_area : 0 ≤ start L ∧ start L + lsize L ≤ Z.of_nat (length (dk A))
}.

Lemma length_listed A L : in_tx A L → length (listed L) = Z.to_nat (lh_n L).
Proof. intros []. destruct tx_int0 as [Hl _]. unfold listed, LOGSIZE, MAXOPBLOCKS in *. rewrite length_take. lia. Qed.

(** Adding a block to the header. *)
Lemma listed_logged A L b : in_tx A L →
  listed (logged L b) = (if decide (b ∈ listed L) then listed L else listed L ++ [b]) ∧
  lh_n (logged L b) = lh_n L + (if decide (b ∈ listed L) then 0 else 1) ∧
  ∃ k, lh_block (logged L b) = <[k := b]> (lh_block L).
Proof.
  intros Htx. pose proof (length_listed A L Htx) as Hlen. destruct Htx, tx_int0 as [Hl _].
  unfold logged, log_index. fold (listed L). destruct (list_find (λ x, x = b) (listed L)) as [[k y]|] eqn:E.
  - apply list_find_Some in E as (Hk & -> & _). pose proof (lookup_lt_Some _ _ _ Hk) as Hlt.
    rewrite (proj2 (Z.eqb_neq _ _)) by lia. rewrite !decide_True by (by eapply list_elem_of_lookup_2). split; [|split; [cbn; lia|by exists k]].
    unfold listed in *. cbn. rewrite list_insert_id; [done|]. by apply lookup_take_Some in Hk as [? _].
  - apply list_find_None in E. assert (b ∉ listed L) as Hb by (intros Hin; rewrite Forall_forall in E; by apply (E b)).
    rewrite Z2Nat.id, Z.eqb_refl by lia. rewrite !decide_False by done. split; [|split; [cbn; lia|by exists (Z.to_nat (lh_n L))]].
    unfold listed in *. cbn. replace (Z.to_nat (lh_n L + 1)) with (S (Z.to_nat (lh_n L))) by lia. unfold LOGSIZE, MAXOPBLOCKS in *.
    rewrite (take_S_r _ _ b) by (apply list_lookup_insert_eq; lia). f_equal. apply take_insert_ge. lia.
Qed.

Lemma in_tx_write A L b d :
  in_tx A L → lh_n L + 1 < LOGSIZE → lh_n L + 1 < lsize L → - 2 ^ 31 ≤ b < 2 ^ 31 → outside_log L (Z.of_nat (length (dk A))) b →
  in_tx (write_to b d A) (logged L b).
Proof.
  intros Htx Hn Hz Hb Hout. destruct (listed_logged A L b Htx) as (Hls & Hln & k & Hbl). destruct Htx.
  assert (start (logged L b) = start L ∧ lsize (logged L b) = lsize L ∧ outstanding (logged L b) = outstanding L ∧
    committing (logged L b) = committing L) as (Es & Ez & Eo & Ec)
    by (unfold logged; by destruct (_ =? _)).
  split; rewrite ?Hls, ?Hln, ?Es, ?Ez, ?Eo, ?Ec; try done.
  - case_decide; lia.
  - rewrite Hbl. destruct tx_int0 as [? ?]. split; [by rewrite length_insert|]. by apply Forall_insert.
  - case_decide; [done|]. apply NoDup_app. split_and!; [done| |apply NoDup_singleton]. intros y Hy ->%list_elem_of_singleton. done.
  - intros b'. cbn. rewrite elem_of_union, elem_of_singleton, tx_dirty0. case_decide; [naive_solver|].
    rewrite elem_of_app, list_elem_of_singleton. naive_solver.
  - intros b'. unfold outside_log. rewrite Es, Ez. case_decide; [apply tx_home0|]. rewrite elem_of_app, list_elem_of_singleton.
    intros [?| ->]; [by apply tx_home0|done].
Qed.

(** ** The end of the operation *)

(** The transaction: the blocks listed, with their contents. *)
Definition tx_blocks (A : acache) (L : log) : list (Z * block) := (λ b, (b, default [] (vw A b))) <$> listed L.

Lemma tx_keys A L : (tx_blocks A L).*1 = listed L.
Proof. unfold tx_blocks. rewrite <- list_fmap_compose. apply list_fmap_id. Qed.

Lemma tx_size A L : in_tx A L → Z.of_nat (size (dt A)) = lh_n L.
Proof.
  intros Htx. assert (dt A = list_to_set (listed L)) as ->.
  { apply set_eq. intros b. rewrite elem_of_list_to_set. apply (tx_dirty _ _ Htx). }
  rewrite size_list_to_set by apply (tx_nodup _ _ Htx). rewrite (length_listed A) by done. destruct (tx_n _ _ Htx). lia.
Qed.

Section EndOp.
Context (me : Z).

Lemma view_some s A L b : fsabs me s A L → 0 ≤ b < Z.of_nat (length (dk A)) → is_Some (vw A b).
Proof.
  intros (HA & _) Hb. rewrite <- (ab_view _ _ _ HA) by lia. rewrite <- (ab_disk _ _ _ HA) in Hb.
  destruct (cached_dec (io s) b) as [(i & x & Hi & Hx)|Hno].
  - rewrite (view_in me (io s) i x b (ab_ok _ _ _ HA) Hi Hx). by eexists.
  - rewrite (view_out _ _ Hno). apply lookup_lt_is_Some. lia.
Qed.

Lemma tx_transaction s A L : fsabs me s A L → in_tx A L → transaction L (Z.of_nat (length (dk A))) (tx_blocks A L).
Proof.
  intros HA Htx. pose proof (length_listed A L Htx) as Hlen. assert (length (tx_blocks A L) = length (listed L)) as HlU by apply length_fmap.
  destruct Htx. unfold LOGSIZE, MAXOPBLOCKS in *. split; rewrite ?HlU, ?tx_keys.
  - lia.
  - intros u Hu. assert (u.1 ∈ listed L) as Hin by (rewrite <- (tx_keys A L); by apply list_elem_of_fmap_2).
    destruct (tx_home0 _ Hin) as [? Hout]. unfold LOGSIZE, MAXOPBLOCKS in *. split; [done|lia].
  - lia.
  - unfold listed in *. by rewrite Hlen.
  - lia.
  - done.
Qed.

(** What a block outside the log is once the transaction is on the disk. *)
Lemma tx_result s A L b : fsabs me s A L → hd A = ∅ → in_tx A L → outside_log L (Z.of_nat (length (dk A))) b →
  with_transaction (tx_blocks A L) (dk A) b = vw A b.
Proof.
  intros HA Hhd Htx [Hb _]. unfold with_transaction. destruct (decide (b ∈ listed L)) as [Hin|Hin].
  - destruct (view_some s A L b HA Hb) as [d Hd]. rewrite (apply_in _ _ b d); [done|rewrite tx_keys; apply Htx| |].
    + intros u Hu. assert (u.1 ∈ listed L) as Hu' by (rewrite <- (tx_keys A L); by apply list_elem_of_fmap_2).
      by destruct (tx_home _ _ Htx _ Hu').
    + apply list_elem_of_fmap. exists b. by rewrite Hd.
  - rewrite apply_notin; [|lia|].
    + symmetry. eapply (clean_view me s A L); [done..|]. by rewrite (tx_dirty _ _ Htx).
    + intros u Hu. assert (u.1 ∈ listed L) as Hu' by (rewrite <- (tx_keys A L); by apply list_elem_of_fmap_2).
      destruct (tx_home _ _ Htx _ Hu') as [? _]. split; [lia|]. by intros <-.
Qed.

(** The disk after recovery shows the operation as a whole or not at all. *)
Definition all_or_nothing (A : acache) (L : log) (W : list (Z * block)) : Prop :=
  ∀ k, ∃ s'', recover_from_log me (boot L (apply_writes (take k W) (dk A))) = Ok tt s'' ∧
    ((∀ b, outside_log L (Z.of_nat (length (dk A))) b → memdisk (io s'') !! Z.to_nat b = dk A !! Z.to_nat b) ∨
     (∀ b, outside_log L (Z.of_nat (length (dk A))) b → memdisk (io s'') !! Z.to_nat b = vw A b)).

Lemma end_op_ok s A L h0 :
  fsabs me s A L → hd A = ∅ → in_tx A L → dk A !! Z.to_nat (start L) = Some h0 → header_is h0 [] →
  ∃ s' W, end_op me s = Ok tt s' ∧ writes (io s') = ws A ++ W ∧
    (∀ b, outside_log L (Z.of_nat (length (dk A))) b → memdisk (io s') !! Z.to_nat b = vw A b) ∧
    all_or_nothing A L W.
Proof.
  intros HA Hhd Htx Hh0 E0. pose proof (tx_size A L Htx) as Hsz. pose proof (tx_n _ _ Htx) as Hn. destruct (tx_open _ _ Htx) as [Ho Hc].
  pose proof (tx_area _ _ Htx) as Harea. unfold LOGSIZE, MAXOPBLOCKS in Hn, Harea.
  set (L1 := set_committing 1 (set_outstanding 0 L)). set (s1 := Fs (io s) L1).
  assert (fsabs me s1 A L1) as HA1 by (by destruct HA as (? & ? & ? & ?)).
  unfold end_op. pose proof HA as (_ & HL & _). erewrite bind_ok by reflexivity. cbn [io lg]. rewrite HL, Ho.
  erewrite bind_ok by reflexivity. cbn [lg outstanding committing set_outstanding]. rewrite Hc. change (1 - 1) with 0. cbn [negb Z.eqb].
  erewrite bind_ok by reflexivity. cbn [io lg]. fold L1. fold s1.
  assert (∀ b, outside_log L (Z.of_nat (length (dk A))) b → with_transaction (tx_blocks A L) (dk A) b = vw A b) as Hres
    by (intros b Hb; by eapply tx_result).
  destruct (decide (lh_n L = 0)) as [H0|Hpos].
  - assert (commit me s1 = Ok tt s1) as E1. { unfold commit. erewrite bind_ok by reflexivity. cbn [lg s1 L1 lh_n set_committing set_outstanding]. by rewrite H0. }
    rewrite (bind_ok _ _ _ _ _ E1). eexists _, []. split; [reflexivity|]. cbn [io]. split; [rewrite app_nil_r; apply (ab_writes _ _ _ (proj1 HA))|].
    assert (∀ b, outside_log L (Z.of_nat (length (dk A))) b → dk A !! Z.to_nat b = vw A b) as Hclean.
    { intros b Hb. rewrite <- (Hres b Hb). unfold with_transaction, tx_blocks, listed. by rewrite H0. }
    split; [intros b Hb; rewrite <- Hclean by done; cbn; by rewrite (ab_disk _ _ _ (proj1 HA))|].
    intros k. rewrite take_nil. cbn [apply_writes foldl].
    destruct (recover_empty me L (dk A) h0) as (h' & s' & E & _ & Es'); try done; try lia.
    { rewrite <- (ab_disk _ _ _ (proj1 HA)). apply (co_disk _ _ (ab_ok _ _ _ (proj1 HA))). }
    { destruct HA as (_ & _ & ? & _). lia. }
    exists s'. split; [done|]. left. intros b [Hb Hout]. rewrite Es'. apply apply_notin; [lia|]. intros u ->%list_elem_of_singleton. cbn. unfold LOGSIZE, MAXOPBLOCKS in *. lia.
  - assert (length (tx_blocks A L) = Z.to_nat (lh_n L)) as HlU by (unfold tx_blocks; rewrite length_fmap; by eapply length_listed).
    destruct (commit_crash me s1 A L1 (tx_blocks A L) h0 HA1 Hhd) as (s2 & W & E2 & HW & _ & _ & Hdone & Hrec); try done.
    + destruct (tx_transaction s A L HA Htx). by split.
    + lia.
    + rewrite tx_keys. apply Htx.
    + intros u Hu. apply list_elem_of_fmap in Hu as (b & -> & Hb). cbn. split; [|by apply (tx_dirty _ _ Htx)].
      destruct (tx_home _ _ Htx b Hb) as [Hr _]. by destruct (view_some s A L b HA Hr) as [d ->].
    + intros t Ht. cbn [start L1 set_committing set_outstanding] in Ht. rewrite (tx_dirty _ _ Htx). intros Hin.
      destruct (tx_home _ _ Htx t Hin) as [_ Hout]. unfold LOGSIZE, MAXOPBLOCKS in *. lia.
    + unfold NBUF. lia.
    + rewrite (bind_ok _ _ _ _ _ E2).
      assert (∀ b, outside_log L (Z.of_nat (length (dk A))) b → home L1 (tx_blocks A L) b) as Hhome.
      { intros b [Hb Hout]. split; [lia|]. unfold LOGSIZE, MAXOPBLOCKS in *. cbn. lia. }
      eexists _, W. split; [reflexivity|]. cbn [io]. split; [rewrite HW; by rewrite <- (ab_writes _ _ _ (proj1 HA))|].
      split; [intros b Hb; rewrite Hdone by auto; auto|].
      intros k. destruct (Hrec k) as (s'' & E'' & Hs''). exists s''. split; [exact E''|].
      case_decide; [left|right]; intros b Hb; rewrite Hs'' by auto; auto.
Qed.

End EndOp.
End FsysTx.

(** FsysWrote: what a sequence of changes of blocks within a transaction keeps: the
    blocks that are not of the set, the disk, the buffers in use and the log area;
    and what it takes of the room in the log and in the buffer cache. *)
Module FsysWrote.
Import Bio BioInv Log LogInv Fsys FsysInv FsysTx.

(** [n] changes of blocks of the set [P]. *)
Inductive wrote (P : Z → Prop) (A : acache) (L : log) : Z → acache → log → Prop :=
| wrote_none : wrote P A L 0 A L
| wrote_more n A' L' b d : wrote P A L n A' L' → P b → wrote P A L (n + 1) (write_to b d A') (logged L' b).

Section Wrote.
Context (P : Z → Prop) (A : acache) (L : log).

Lemma wrote_one b d : P b → wrote P A L 1 (write_to b d A) (logged L b).
Proof. intros Hb. apply (wrote_more P A L 0); [constructor|done]. Qed.

Lemma wrote_trans n A1 L1 m A2 L2 : wrote P A L n A1 L1 → wrote P A1 L1 m A2 L2 → wrote P A L (n + m) A2 L2.
Proof.
  intros H1. induction 1 as [|m A' L' b d _ IH Hb]; [by rewrite Z.add_0_r|].
  rewrite Z.add_assoc. by constructor.
Qed.

Lemma wrote_mono (Q : Z → Prop) n A' L' : (∀ b, P b → Q b) → wrote P A L n A' L' → wrote Q A L n A' L'.
Proof. intros HPQ. induction 1; constructor; auto. Qed.

Lemma wrote_hd h n A' L' : wrote P A L n A' L' → wrote P (set_hd h A) L n (set_hd h A') L'.
Proof. induction 1 as [|n A' L' b d _ IH Hb]; [constructor|]. by apply (wrote_more _ _ _ n (set_hd h A')). Qed.

Lemma wrote_nonneg n A' L' : wrote P A L n A' L' → 0 ≤ n.
Proof. induction 1; lia. Qed.

Lemma wrote_frame n A' L' : wrote P A L n A' L' →
  dk A' = dk A ∧ hd A' = hd A ∧ ws A' = ws A ∧
  start L' = start L ∧ lsize L' = lsize L ∧ outstanding L' = outstanding L.
Proof. induction 1 as [|n A' L' b d _ IH _]; [done|]. unfold logged. by destruct (_ =? _). Qed.

Lemma wrote_other n A' L' b : wrote P A L n A' L' → ¬ P b → vw A' b = vw A b.
Proof.
  intros H Hb. induction H as [|n A' L' b' d _ IH Hb']; [done|]. cbn. unfold upd. by rewrite decide_False by (by intros ->).
Qed.

Lemma wrote_dirty n A' L' b : wrote P A L n A' L' → b ∈ dt A' → b ∈ dt A ∨ P b.
Proof.
  induction 1 as [|n A' L' b' d _ IH Hb']; [by left|]. cbn. rewrite elem_of_union, elem_of_singleton. intros [->|?]; auto.
Qed.

(** The room that is left. *)
Lemma wrote_can_log n A' L' k : wrote P A L n A' L' → can_log L (n + k) → can_log L' k.
Proof.
  intros H. revert k. induction H as [|n A' L' b d _ IH _]; intros k Hk; [done|].
  apply can_log_logged, IH. by replace (n + (k + 1)) with (n + 1 + k) by lia.
Qed.

Lemma wrote_size n A' L' : wrote P A L n A' L' → Z.of_nat (size (dt A')) ≤ Z.of_nat (size (dt A)) + n.
Proof. induction 1 as [|n A' L' b d _ IH _]; [lia|]. cbn. rewrite size_add. case_decide; lia. Qed.

Lemma wrote_lh_n n A' L' : wrote P A L n A' L' → lh_n L' ≤ lh_n L + n.
Proof. induction 1 as [|n A' L' b d _ IH _]; [lia|]. unfold logged. destruct (_ =? _); cbn; lia. Qed.

(** A transaction stays one. *)
Lemma wrote_tx n A' L' :
  wrote P A L n A' L' → in_tx A L → (∀ b, P b → outside_log L (Z.of_nat (length (dk A))) b) →
  Z.of_nat (length (dk A)) ≤ 2 ^ 31 → lh_n L + n < LOGSIZE → lh_n L + n < lsize L → in_tx A' L'.
Proof.
  intros H Htx HP HN. induction H as [|n A' L' b d H IH Hb]; intros Hn Hz; [done|].
  pose proof (wrote_lh_n _ _ _ H). destruct (wrote_frame _ _ _ H) as (Hdk & _ & _ & Hst & Hlz & _).
  destruct (HP b Hb) as [Hr Hout]. apply in_tx_write; [apply IH; lia|lia|lia|lia|]. unfold outside_log. by rewrite Hdk, Hst, Hlz.
Qed.

End Wrote.
End FsysWrote.
