(* ===== verification/FsysAlloc.v ===== *)
(** FsysAlloc: the free block bitmap (p4/xv6-public/fs.c): [balloc] takes the
    first free block and zeroes it, [bfree] gives a block back. *)
From S2P Require Import Prelude Memory Bio BioInv Log LogInv Fsys FsysInv.
From stdpp Require Import gmap.
Local Open Scope Z_scope.

Module FsysAlloc.
Import Bio BioInv Log LogInv Fsys FsysInv.

(** Whether the bitmap says that block [b] is free. *)
Definition is_free (v : Z → option block) (S : superblock) (b : Z) : bool :=
  match v (BBLOCK b S) with Some d => bit_free d (b mod BPB) | None => false end.

(** A file system of [sb_size S] blocks on a disk of [N] blocks. *)
Record layout (S : superblock) (N : Z) : Prop := {
  ly_size : 0 < sb_size S ≤ N;
  ly_disk : N ≤ 2 ^ 31;
  ly_bmap : 0 ≤ bmapstart S ∧ bmapstart S + (sb_size S - 1) / BPB < N
}.

(** The blocks that [balloc] may have to read are not in use by this process, and
    the bitmap marks its own blocks. *)
Record alloc_ready (S : superblock) (A : acache) : Prop := {
  ar_unheld : ∀ c, 0 ≤ c < sb_size S → unheld A (BBLOCK c S);
  ar_free : ∀ a, 0 ≤ a < sb_size S → is_free (vw A) S a = true → unheld A a;
  ar_bitmap : ∀ c, 0 ≤ c < sb_size S → is_free (vw A) S (BBLOCK c S) = false;
  ar_room : Z.of_nat (size (hd A)) + Z.of_nat (size (dt A)) + 1 < NBUF
}.

Definition zero_block : block := replicate (Z.to_nat BSIZE) x00.

Lemma BPB_val : BPB = 4096.
Proof. done. Qed.

Lemma BBLOCK_val S N c : layout S N → 0 ≤ c < sb_size S →
  BBLOCK c S = c / BPB + bmapstart S ∧ 0 ≤ BBLOCK c S < N.
Proof.
  intros [] Hc. unfold BBLOCK. rewrite BPB_val in *.
  assert (c / 4096 ≤ (sb_size S - 1) / 4096) by (apply Z.div_le_mono; lia).
  assert (0 ≤ c / 4096) by (apply Z.div_pos; lia). rewrite u32_small; lia.
Qed.

Lemma BBLOCK_same S N c c' : layout S N → 0 ≤ c < sb_size S → 0 ≤ c' < sb_size S →
  BBLOCK c S = BBLOCK c' S ↔ c / BPB = c' / BPB.
Proof. intros HL Hc Hc'. destruct (BBLOCK_val S N c HL Hc) as [-> _], (BBLOCK_val S N c' HL Hc') as [-> _]. lia. Qed.

(** Marking a block in the bitmap changes the answer for this block only. *)
Lemma is_free_mark S N v a d f : layout S N → 0 ≤ a < sb_size S → v (BBLOCK a S) = Some d → length d = 512%nat →
  ∀ c, 0 ≤ c < sb_size S →
    is_free (upd v (BBLOCK a S) f) S c =
      if decide (c / BPB = a / BPB) then bit_free f (c mod BPB) else is_free v S c.
Proof.
  intros HL Ha Hd Hl c Hc. unfold is_free, upd. destruct (decide (c / BPB = a / BPB)) as [E|E].
  - by rewrite decide_True by (by eapply BBLOCK_same).
  - rewrite decide_False; [done|]. intros E'. apply E. by eapply BBLOCK_same.
Qed.

Lemma mod_BPB_eq c a : c / BPB = a / BPB → (c mod BPB =? a mod BPB) = (c =? a).
Proof.
  intros E. apply eq_true_iff_eq. rewrite !Z.eqb_eq. rewrite BPB_val in *.
  pose proof (Z.div_mod c 4096). pose proof (Z.div_mod a 4096). split; [lia|by intros ->].
Qed.

Section Alloc.
Context (me : Z) (S : superblock).

Lemma bzero_ok C A L s b :
  fabs me S C A L s → 0 ≤ b < Z.of_nat (length (dk A)) → unheld A b → room A b → can_log L 1 →
  ∃ s', bzero me 1 b s = Ok tt s' ∧ fabs me S C (write_to b zero_block A) (logged L b) s'.
Proof.
  intros HF Hb Hun Hroom HL. destruct (read_block_ok me S C A L s b HF Hb Hun Hroom) as (i & d & s1 & E1 & _ & _ & Hi & _ & HF1).
  destruct (change_block_ok me S C A L s1 i b d zero_block HF1 Hi eq_refl HL) as (s2 & E2 & HF2).
  exists s2. split; [|done]. unfold bzero. rewrite (bind_ok _ _ _ _ _ E1). exact E2.
Qed.

(** The state after block [a], whose bitmap block is [d], is taken. *)
Definition taken (a : Z) (d : block) (A : acache) : acache :=
  write_to a zero_block (write_to (BBLOCK a S) (set_bit d (a mod BPB)) A).
Definition log_taken (a : Z) (L : log) : log := logged (logged L (BBLOCK a S)) a.

Lemma take_ok C A L s bp b bi d :
  let a := b + bi in
  fabs me S C (set_hd (<[bp := (BBLOCK b S, d)]> (hd A)) A) L s → hd A !! bp = None →
  layout S (Z.of_nat (length (dk A))) → alloc_ready S A → can_log L 2 → 0 ≤ b → b mod BPB = 0 →
  0 ≤ bi < Z.min BPB (sb_size S - b) → vw A (BBLOCK b S) = Some d → length d = 512%nat → bit_free d bi = true →
  ∃ s', (do! set_bdata bp (set_bit d bi) in do! log_block bp in do! release_block me bp in
         do! bzero me 1 a in ret (Some a)) s = Ok (Some a) s' ∧
        BBLOCK a S = BBLOCK b S ∧ a mod BPB = bi ∧ fabs me S C (taken a d A) (log_taken a L) s'.
Proof.
  intros a HF Hi Hly Har HL Hb Hmod Hbi Hd Hl Hfree. rewrite BPB_val in *.
  assert (a / 4096 = b / 4096 ∧ a mod 4096 = bi) as [Ha Ham] by (unfold a; lia).
  assert (BBLOCK a S = BBLOCK b S) as Hbb by (eapply BBLOCK_same; [done|lia..|done]).
  assert (is_free (vw A) S a = true) as Hfa by (unfold is_free; by rewrite Hbb, Hd, BPB_val, Ham).
  destruct (change_block_ok me S C A L s bp (BBLOCK b S) d (set_bit d bi) HF Hi) as (s1 & E1 & HF1);
    [apply length_set_bit; [done|rewrite BPB_val; lia]|unfold can_log in *; lia|].
  destruct (bzero_ok C _ _ s1 a HF1) as (s2 & E2 & HF2).
  - cbn. pose proof (ly_size _ _ Hly). lia.
  - intros i d' Hi'. eapply (ar_free _ _ Har a); [lia|done|exact Hi'].
  - right. cbn. rewrite size_add. pose proof (ar_room _ _ Har). case_decide; lia.
  - apply can_log_logged. exact HL.
  - exists s2. unfold taken, log_taken. rewrite Hbb, BPB_val, Ham. split; [|done]. unfold bind in E1 |- *.
    destruct (set_bdata bp _ s) as [[] s'|]; [|done]. destruct (log_block bp s') as [[] s''|]; [|done]. by rewrite E1, E2.
Qed.

(** One bitmap block. *)
Lemma balloc_step_ok C A L s b :
  fabs me S C A L s → layout S (Z.of_nat (length (dk A))) → alloc_ready S A → can_log L 2 →
  0 ≤ b < sb_size S → b mod BPB = 0 →
  let m := Z.min BPB (sb_size S - b) in
  wp (balloc_step me 1 b) (λ r s', match r with
    | inr a => is_first (is_free (vw A) S) b (b + m) (Some a) ∧ ∃ d, vw A (BBLOCK a S) = Some d ∧ length d = 512%nat ∧
               fabs me S C (taken a d A) (log_taken a L) s'
    | inl b' => b' = b + BPB ∧ is_first (is_free (vw A) S) b (b + m) None ∧ fabs me S C A L s'
    end) s.
Proof.
  intros HF Hly Har HL Hb Hmod m. unfold balloc_step.
  eapply wp_bind_ok; [exact (sb_ok me S C A L s HF)|]. rewrite (proj2 (Z.ltb_lt _ _)) by lia. cbn [negb].
  destruct (BBLOCK_val S _ b Hly Hb) as [_ Hbb].
  destruct (read_block_ok me S C A L s _ HF Hbb (ar_unheld _ _ Har b Hb)) as (bp & d & s1 & E1 & Hd & Hl & Hi & Hc & HF1).
  { right. pose proof (ar_room _ _ Har). lia. }
  eapply wp_bind_ok; [exact E1|].
  assert (∀ j, 0 ≤ j < m → is_free (vw A) S (b + j) = bit_free d j) as Hbit.
  { intros j Hj. unfold is_free, m in *. rewrite BPB_val in *.
    rewrite (proj2 (BBLOCK_same S _ (b + j) b Hly ltac:(lia) ltac:(lia))) by (rewrite BPB_val; lia). rewrite Hd. f_equal. lia. }
  apply wp_bind. apply (wp_for_range _ (λ j s', (∀ i, 0 ≤ i < j → bit_free d i = false) ∧
     fabs me S C (set_hd (<[bp := (BBLOCK b S, d)]> (hd A)) A) L s')); [unfold m; rewrite BPB_val in *; lia|split; [lia|done]| |].
  - intros j s2 Hj [Hno HF2]. unfold wp. rewrite (bind_ok _ _ _ _ _ (bdata_ok me S C _ L s2 bp _ d HF2 (lookup_insert_eq _ _ _))).
    destruct (bit_free d j) eqn:Hf; cbn [ret].
    + destruct (take_ok C A L s2 bp b j d HF2 Hi Hly Har HL ltac:(lia) Hmod Hj Hd Hl Hf) as (s3 & E3 & Hbb' & _ & HF3).
      rewrite E3. cbn. split; [split_and!; [lia|lia|by rewrite Hbit|]|exists d; split_and!; [by rewrite Hbb'|done|done]].
      intros i Hi'. replace i with (b + (i - b)) by lia. rewrite Hbit by lia. apply Hno. lia.
    + split; [|done]. intros i Hi'. destruct (decide (i = j)) as [->|]; [done|]. apply Hno. lia.
  - intros s2 [Hno HF2]. unfold wp.
    destruct (release_ok me S C _ L s2 bp _ d HF2 (lookup_insert_eq _ _ _) Hc) as (s3 & E3 & HF3).
    rewrite (bind_ok _ _ _ _ _ E3). cbn. split; [done|]. split.
    + intros i Hi'. replace i with (b + (i - b)) by lia. rewrite Hbit by lia. apply Hno. lia.
    + cbn [set_hd vw dk ws dt hd] in HF3. rewrite delete_insert_id in HF3 by done. by destruct A.
Qed.

Lemma balloc_step_end C A L s b :
  fabs me S C A L s → sb_size S ≤ b → balloc_step me 1 b s = Fault.
Proof.
  intros HF Hb. unfold balloc_step. rewrite (bind_ok _ _ _ _ _ (sb_ok me S C A L s HF)).
  by rewrite (proj2 (Z.ltb_ge _ _)) by lia.
Qed.

(** The loop over the bitmap blocks, from block [b] on. *)
Lemma balloc_loop_ok C A L s n b :
  fabs me S C A L s → layout S (Z.of_nat (length (dk A))) → alloc_ready S A → can_log L 2 →
  0 ≤ b → b mod BPB = 0 → (∀ c, 0 ≤ c < b → c < sb_size S → is_free (vw A) S c = false) →
  sb_size S - b < BPB * (Z.of_nat n - 1) →
  match first_in (is_free (vw A) S) 0 (sb_size S) with
  | Some a => ∃ d s', loop n (balloc_step me 1) b s = Ok a s' ∧ vw A (BBLOCK a S) = Some d ∧ length d = 512%nat ∧
                      fabs me S C (taken a d A) (log_taken a L) s'
  | None => loop n (balloc_step me 1) b s = Fault
  end.
Proof.
  intros HF Hly Har HL. revert b s HF. induction n as [|n IH]; intros b s HF Hb Hmod Hno Hn; rewrite BPB_val in *.
  all: pose proof (first_in_spec (is_free (vw A) S) 0 (sb_size S)) as Hfirst.
  all: destruct (decide (b < sb_size S)); [|
    destruct (first_in _ _ _) as [a|]; [destruct Hfirst as (? & Ha & _); by rewrite Hno in Ha by lia|] ].
  - lia.
  - done.
  - pose proof (balloc_step_ok C A L s b HF Hly Har HL ltac:(lia) Hmod) as Hstep.
    apply wp_ok in Hstep as ([b'|a] & s1 & E1 & Hstep).
    + destruct Hstep as (-> & Hnone & HF1). rewrite (loop_next _ _ _ _ _ _ E1).
      apply IH; try done; rewrite BPB_val in *; [lia|lia| |lia]. intros c Hc Hc'.
      destruct (decide (c < b)); [apply Hno; lia|apply Hnone; lia].
    + destruct Hstep as ((? & Ha & Hlt) & d & Hd & Hl & HF1). rewrite BPB_val in *.
      assert (first_in (is_free (vw A) S) 0 (sb_size S) = Some a) as ->.
      { eapply is_first_unique; [exact Hfirst|]. split_and!; [lia|lia|done|]. intros i Hi.
        destruct (decide (i < b)); [apply Hno; lia|apply Hlt; lia]. }
      exists d, s1. split; [by apply loop_exit|done].
  - cbn [loop]. unfold bind. by rewrite (balloc_step_end C A L s b HF) by lia.
Qed.

(** What the bitmap and the blocks are once [a] is taken. *)
Lemma taken_free A a d c :
  layout S (Z.of_nat (length (dk A))) → alloc_ready S A → 0 ≤ a < sb_size S → is_free (vw A) S a = true →
  vw A (BBLOCK a S) = Some d → length d = 512%nat → 0 ≤ c < sb_size S →
  is_free (vw (taken a d A)) S c = is_free (vw A) S c && negb (c =? a).
Proof.
  intros Hly Har Ha Hfa Hd Hl Hc. cbn [taken write_to vw].
  assert (BBLOCK c S ≠ a) as Hne by (intros E; by rewrite <- E, (ar_bitmap _ _ Har) in Hfa by done).
  transitivity (is_free (upd (vw A) (BBLOCK a S) (set_bit d (a mod BPB))) S c).
  { unfold is_free, upd at 1. by rewrite decide_False. }
  rewrite (is_free_mark S _ (vw A) a d _ Hly Ha Hd Hl c Hc).
  assert (∀ z, 0 ≤ z mod BPB < BPB) as HB by (intros; apply Z.mod_pos_bound; done).
  case_decide as E.
  - rewrite bit_free_set, mod_BPB_eq by done. unfold is_free.
    by rewrite (proj2 (BBLOCK_same S _ c a Hly Hc Ha) E), Hd.
  - rewrite (proj2 (Z.eqb_neq c a)), andb_true_r by congruence. done.
Qed.

(** [balloc], with the state it leaves. *)
Lemma balloc_ok C A L s :
  fabs me S C A L s → layout S (Z.of_nat (length (dk A))) → alloc_ready S A → can_log L 2 →
  match first_in (is_free (vw A) S) 0 (sb_size S) with
  | Some a => ∃ d s', balloc me 1 s = Ok a s' ∧ vw A (BBLOCK a S) = Some d ∧ length d = 512%nat ∧
                      fabs me S C (taken a d A) (log_taken a L) s'
  | None => balloc me 1 s = Fault
  end.
Proof.
  intros HF Hly Har HL. pose proof (ly_size _ _ Hly).
  pose proof (balloc_loop_ok C A L s (Datatypes.S (Datatypes.S (Z.to_nat (sb_size S / BPB)))) 0 HF Hly Har HL) as Hloop.
  specialize (Hloop ltac:(lia) eq_refl ltac:(lia)). rewrite BPB_val in Hloop. specialize (Hloop ltac:(lia)).
  unfold balloc. by rewrite (bind_ok _ _ _ _ _ (sb_ok me S C A L s HF)), BPB_val.
Qed.

(** C31: [balloc] returns the first block that the bitmap calls free, marks it as used
    and fills it with zeros, in the current transaction; all other blocks and all
    other bits stay as they are.  With no free block it panics. *)
Theorem balloc_correct C A L s :
  fabs me S C A L s → layout S (Z.of_nat (length (dk A))) → alloc_ready S A → can_log L 2 →
  match first_in (is_free (vw A) S) 0 (sb_size S) with
  | Some a => ∃ A' s', balloc me 1 s = Ok a s' ∧ fabs me S C A' (log_taken a L) s' ∧
      vw A' a = Some zero_block ∧
      (∀ c, 0 ≤ c < sb_size S → is_free (vw A') S c = is_free (vw A) S c && negb (c =? a)) ∧
      (∀ b, b ≠ a → b ≠ BBLOCK a S → vw A' b = vw A b) ∧
      dk A' = dk A ∧ hd A' = hd A ∧ dt A' = {[a; BBLOCK a S]} ∪ dt A
  | None => balloc me 1 s = Fault
  end.
Proof.
  intros HF Hly Har HL. pose proof (balloc_ok C A L s HF Hly Har HL) as Hb.
  pose proof (first_in_spec (is_free (vw A) S) 0 (sb_size S)) as Hfirst.
  destruct (first_in _ _ _) as [a|]; [|done]. destruct Hb as (d & s' & E & Hd & Hl & HF').
  destruct Hfirst as (Ha & Hfa & _). exists (taken a d A), s'. split_and!; try done.
  - cbn. unfold upd. by rewrite decide_True.
  - intros c Hc. by apply taken_free.
  - intros b Hb1 Hb2. cbn. unfold upd. by rewrite !decide_False.
  - cbn. set_solver.
Qed.

(** The state after block [b], whose bitmap block is [d], is given back. *)
Definition given_back (b : Z) (d : block) (A : acache) : acache :=
  write_to (BBLOCK b S) (clear_bit d (b mod BPB)) A.

Lemma given_back_free A b d c :
  layout S (Z.of_nat (length (dk A))) → 0 ≤ b < sb_size S → vw A (BBLOCK b S) = Some d → length d = 512%nat → 0 ≤ c < sb_size S →
  is_free (vw (given_back b d A)) S c = is_free (vw A) S c || (c =? b).
Proof.
  intros Hly Hb Hd Hl Hc. assert (∀ z, 0 ≤ z mod BPB < BPB) as HB by (intros; apply Z.mod_pos_bound; done).
  cbn [given_back write_to vw]. rewrite (is_free_mark S _ (vw A) b d _ Hly Hb Hd Hl c Hc). case_decide as E.
  - rewrite bit_free_clear, mod_BPB_eq by done. unfold is_free. by rewrite (proj2 (BBLOCK_same S _ c b Hly Hc Hb) E), Hd.
  - rewrite (proj2 (Z.eqb_neq c b)), orb_false_r by congruence. done.
Qed.

(** [bfree], with the state it leaves. *)
Lemma bfree_ok C A L s b :
  fabs me S C A L s → layout S (Z.of_nat (length (dk A))) → can_log L 1 → 0 ≤ b < sb_size S →
  unheld A (BBLOCK b S) → room A (BBLOCK b S) →
  if is_free (vw A) S b then bfree me 1 b s = Fault
  else ∃ d s', bfree me 1 b s = Ok tt s' ∧ vw A (BBLOCK b S) = Some d ∧ length d = 512%nat ∧
      fabs me S C (given_back b d A) (logged L (BBLOCK b S)) s'.
Proof.
  intros HF Hly HL Hb Hun Hroom. destruct (BBLOCK_val S _ b Hly Hb) as [_ Hbb].
  destruct (read_block_ok me S C A L s _ HF Hbb Hun Hroom) as (bp & d & s1 & E1 & Hd & Hl & Hi & Hc & HF1).
  unfold bfree. rewrite (bind_ok _ _ _ _ _ (sb_ok me S C A L s HF)), (bind_ok _ _ _ _ _ E1).
  rewrite (bind_ok _ _ _ _ _ (bdata_ok me S C _ L s1 bp _ d HF1 (lookup_insert_eq _ _ _))).
  unfold is_free at 1. rewrite Hd. destruct (bit_free d (b mod BPB)) eqn:Hf; [done|].
  destruct (change_block_ok me S C A L s1 bp _ d (clear_bit d (b mod BPB)) HF1 Hi) as (s2 & E2 & HF2);
    [apply length_clear_bit; [done|apply Z.mod_pos_bound; done]|done|]. by exists d, s2.
Qed.

(** [bfree] clears the bit of the block and changes nothing else; it panics on a
    block that is free already. *)
Theorem bfree_correct C A L s b :
  fabs me S C A L s → layout S (Z.of_nat (length (dk A))) → can_log L 1 → 0 ≤ b < sb_size S →
  unheld A (BBLOCK b S) → room A (BBLOCK b S) →
  if is_free (vw A) S b then bfree me 1 b s = Fault
  else ∃ A' s', bfree me 1 b s = Ok tt s' ∧ fabs me S C A' (logged L (BBLOCK b S)) s' ∧
      (∀ c, 0 ≤ c < sb_size S → is_free (vw A') S c = is_free (vw A) S c || (c =? b)) ∧
      (∀ c, c ≠ BBLOCK b S → vw A' c = vw A c) ∧ dk A' = dk A ∧ hd A' = hd A.
Proof.
  intros HF Hly HL Hb Hun Hroom. pose proof (bfree_ok C A L s b HF Hly HL Hb Hun Hroom) as Hok.
  destruct (is_free (vw A) S b); [done|]. destruct Hok as (d & s' & E & Hd & Hl & HF').
  exists (given_back b d A), s'. split_and!; try done.
  - intros c Hc. by apply given_back_free.
  - intros c Hc. cbn. unfold upd. by rewrite decide_False.
Qed.

End Alloc.
End FsysAlloc.
