(* ===== verification/FsysFile.v ===== *)
(** FsysFile: reading the contents of a file through its inode
    (p4/xv6-public/fs.c: [bmap] and [readi]). *)
From Stdlib Require Import Strings.Byte.
From S2P Require Import Prelude Memory Bio BioInv Log LogInv Fsys FsysInv.
From stdpp Require Import gmap.
Local Open Scope Z_scope.

Module FsysFile.
Import Bio BioInv Log LogInv Fsys FsysInv.

(** The disk block of the [bn]-th block of a file, and the byte at offset [o]. *)
Definition file_addr (v : Z → option block) (x : inode) (bn : Z) : option Z :=
  if bn <? NDIRECT then i_addrs x !! Z.to_nat bn
  else a ← i_addrs x !! Z.to_nat NDIRECT; d ← v a; Some (get_uint d (4 * (bn - NDIRECT))).
Definition file_byte (v : Z → option block) (x : inode) (o : Z) : option byte :=
  a ← file_addr v x (o / BSIZE); d ← v a; d !! Z.to_nat (o mod BSIZE).

(** A block that this process can read. *)
Definition readable (A : acache) (a : Z) : Prop := 0 < a < Z.of_nat (length (dk A)) ∧ unheld A a.

(** A file all of whose blocks are allocated. *)
Record file_ready (A : acache) (x : inode) : Prop := {
  fr_type : i_type x ≠ T_DEV;
  fr_dev : i_dev x = 1;
  fr_size : 0 ≤ i_size x ≤ MAXFILE * BSIZE;
  fr_blocks : ∀ bn, 0 ≤ bn → bn * BSIZE < i_size x → ∃ a, file_addr (vw A) x bn = Some a ∧ readable A a;
  fr_indirect : NDIRECT * BSIZE < i_size x → ∃ a, i_addrs x !! Z.to_nat NDIRECT = Some a ∧ readable A a;
  fr_room : Z.of_nat (size (hd A)) + Z.of_nat (size (dt A)) < NBUF
}.

Section File.
Context (me : Z) (S : superblock) `{Devices}.
Context (C : list inode) (A : acache) (L : log).

Lemma bmap_ok s ip x bn :
  fabs me S C A L s → C !! ip = Some x → file_ready A x → 0 ≤ bn → bn * BSIZE < i_size x →
  ∃ a s', bmap me ip bn s = Ok a s' ∧ file_addr (vw A) x bn = Some a ∧ readable A a ∧ fabs me S C A L s'.
Proof.
  intros HF Hx [] Hbn Hlt. destruct (fr_blocks0 bn Hbn Hlt) as (a & Ha & [Hr Hun]). unfold bmap.
  rewrite (bind_ok _ _ _ _ _ (get_inode_ok me S C A L s ip x HF Hx)). unfold file_addr in *.
  destruct (Z.ltb_spec bn NDIRECT) as [Hd|Hd].
  - exists a, s. rewrite Ha. cbn [of_opt]. erewrite bind_ok by reflexivity. rewrite (proj2 (Z.eqb_neq a 0)) by lia. done.
  - unfold NDIRECT, NINDIRECT, MAXFILE, BSIZE in *. rewrite (proj2 (Z.ltb_lt (bn - 12) _)) by (unfold NINDIRECT, BSIZE, NDIRECT in *; lia).
    destruct fr_indirect0 as (ia & Hia & [Hir Hiun]); [lia|]. rewrite Hia in Ha |- *. cbn [mbind option_bind] in Ha.
    cbn [of_opt]. erewrite bind_ok by reflexivity. rewrite (proj2 (Z.eqb_neq ia 0)) by lia. erewrite bind_ok by reflexivity.
    rewrite fr_dev0. destruct (read_block_ok me S C A L s ia HF ltac:(lia) Hiun ltac:(by right)) as (i & d & s1 & E1 & Hv & Hl & Hi & Hc & HF1).
    rewrite (bind_ok _ _ _ _ _ E1). rewrite (bind_ok _ _ _ _ _ (bdata_ok me S C _ L s1 i ia d HF1 (lookup_insert_eq _ _ _))).
    rewrite Hv in Ha. cbn in Ha. injection Ha as Ha. change (Z.of_nat (Z.to_nat 12)) with 12 in *. rewrite Ha.
    rewrite (proj2 (Z.eqb_neq a 0)) by lia. erewrite bind_ok by reflexivity.
    destruct (release_ok me S C _ L s1 i ia d HF1 (lookup_insert_eq _ _ _) Hc) as (s2 & E2 & HF2).
    rewrite (bind_ok _ _ _ _ _ E2). exists a, s2. split_and!; try done.
    + cbn. by rewrite Hv, <- Ha.
    + cbn [set_hd vw dk ws dt hd] in HF2. rewrite delete_insert_id in HF2 by done. by destruct A.
Qed.

(** What the loop of [readi] has read. *)
Record read_so_far (x : inode) (off m : Z) (l : rw) : Prop := {
  rs_tot : 0 ≤ r_tot l ≤ m;
  rs_off : r_off l = off + r_tot l;
  rs_len : Z.of_nat (length (r_bytes l)) = r_tot l;
  rs_bytes : ∀ k, 0 ≤ k < r_tot l → r_bytes l !! Z.to_nat k = file_byte (vw A) x (off + k)
}.

Lemma readi_step_ok s ip x off m l :
  fabs me S C A L s → C !! ip = Some x → file_ready A x → 0 ≤ off → off + m ≤ i_size x → read_so_far x off m l →
  wp (readi_step me ip m l) (λ r s', fabs me S C A L s' ∧ match r with
     | inl l' => read_so_far x off m l' ∧ r_tot l < r_tot l' ∧ r_tot l < m
     | inr (n, bytes) => n = m ∧ r_bytes l = bytes ∧ r_tot l = m
     end) s.
Proof.
  intros HF Hx Hfr Hoff Hm []. unfold readi_step. destruct (Z.ltb_spec (r_tot l) m) as [Hlt|Hge]; cbn [negb];
    [|by split_and!; [done..|lia]].
  eapply wp_bind_ok; [exact (get_inode_ok me S C A L s ip x HF Hx)|].
  destruct (bmap_ok s ip x (r_off l / BSIZE) HF Hx Hfr) as (a & s1 & E1 & Ha & [Hr Hun] & HF1); [unfold BSIZE; lia..|].
  eapply wp_bind_ok; [exact E1|]. rewrite (fr_dev _ _ Hfr).
  destruct (read_block_ok me S C A L s1 a HF1 ltac:(lia) Hun) as (i & d & s2 & E2 & Hv & Hl & Hi & Hc & HF2); [right; apply Hfr|].
  eapply wp_bind_ok; [exact E2|].
  eapply wp_bind_ok; [exact (bdata_ok me S C _ L s2 i a d HF2 (lookup_insert_eq _ _ _))|].
  destruct (release_ok me S C _ L s2 i a d HF2 (lookup_insert_eq _ _ _) Hc) as (s3 & E3 & HF3).
  eapply wp_bind_ok; [exact E3|]. cbn [wp ret]. split.
  { cbn [set_hd vw dk ws dt hd] in HF3. rewrite delete_insert_id in HF3 by done. by destruct A. }
  unfold BSIZE in *. set (c := Z.min (m - r_tot l) (512 - r_off l mod 512)).
  assert (0 < c ∧ c ≤ m - r_tot l ∧ r_off l mod 512 + c ≤ 512 ∧ 0 ≤ r_off l mod 512) as (? & ? & ? & ?) by lia.
  pose proof (length_sub_bytes d Hl (r_off l mod 512) c) as Hlen.
  split; [|cbn; lia]. split; cbn; [lia|lia|rewrite length_app; lia|].
  intros k Hk. destruct (decide (k < r_tot l)).
  - rewrite lookup_app_l by lia. apply rs_bytes0. lia.
  - rewrite lookup_app_r by lia. rewrite lookup_sub_bytes by lia. unfold file_byte, BSIZE.
    assert ((off + k) / 512 = r_off l / 512 ∧ (off + k) mod 512 = r_off l mod 512 + (k - r_tot l)) as [-> ->] by (subst c; lia).
    rewrite Ha. cbn. rewrite Hv. cbn. f_equal. lia.
Qed.

(** A read that starts within the file. *)
Lemma readi_ok s ip x off n :
  fabs me S C A L s → C !! ip = Some x → file_ready A x → 0 ≤ off ≤ i_size x → 0 ≤ n → off + n < 2 ^ 32 →
  ∃ bytes s', readi me ip off n s = Ok (Z.min n (i_size x - off), bytes) s' ∧ fabs me S C A L s' ∧
    Z.of_nat (length bytes) = Z.min n (i_size x - off) ∧
    ∀ k, 0 ≤ k < Z.min n (i_size x - off) → bytes !! Z.to_nat k = file_byte (vw A) x (off + k).
Proof.
  intros HF Hx Hfr Hoff Hn Hsum. pose proof (fr_size _ _ Hfr) as Hsz. unfold readi.
  rewrite (bind_ok _ _ _ _ _ (get_inode_ok me S C A L s ip x HF Hx)), (proj2 (Z.eqb_neq _ _) (fr_type _ _ Hfr)).
  unfold MAXFILE, NDIRECT, NINDIRECT, BSIZE in Hsz. rewrite (u32_small (off + n)), (u32_small (i_size x - off)) by lia.
  rewrite (proj2 (Z.ltb_ge (i_size x) off)), (proj2 (Z.ltb_ge (off + n) off)) by lia. cbn [orb].
  assert ((if i_size x <? off + n then i_size x - off else n) = Z.min n (i_size x - off)) as ->
    by (destruct (Z.ltb_spec (i_size x) (off + n)); lia).
  set (m := Z.min n (i_size x - off)).
  assert (wp (loop (Datatypes.S (Z.to_nat m)) (readi_step me ip m) (Rw off 0 [])) (λ r s', fabs me S C A L s' ∧ r.1 = m ∧
     Z.of_nat (length r.2) = m ∧ ∀ k, 0 ≤ k < m → r.2 !! Z.to_nat k = file_byte (vw A) x (off + k)) s) as Hw.
  { apply (wp_loop _ (λ l s', fabs me S C A L s' ∧ read_so_far x off m l) (λ l, Z.to_nat (m - r_tot l))).
    - split; [done|]. split; cbn; lia.
    - cbn. lia.
    - intros l s1 [HF1 Hl]. eapply wp_mono; [by apply (readi_step_ok s1 ip x off m l); subst m; (done || lia)|].
      intros [l'|[m' bytes]] s2 [HF2 Hr].
      + destruct Hr as (? & ? & ?). split; [done|lia].
      + destruct Hr as (-> & <- & Ht). destruct Hl. rewrite Ht in *. done. }
  apply wp_ok in Hw as ([m' bytes] & s' & E & HF' & Hm & ? & ?). cbn in *. rewrite Hm in E. by exists bytes, s'.
Qed.

(** [readi] in all cases. *)
Lemma readi_total_ok s ip x off n :
  fabs me S C A L s → C !! ip = Some x → file_ready A x → 0 ≤ off < 2 ^ 32 → 0 ≤ n < 2 ^ 32 →
  if (i_size x <? off) || (2 ^ 32 <=? off + n) then readi me ip off n s = Ok (-1, []) s
  else ∃ bytes s', readi me ip off n s = Ok (Z.min n (i_size x - off), bytes) s' ∧ fabs me S C A L s' ∧
       Z.of_nat (length bytes) = Z.min n (i_size x - off) ∧
       ∀ k, 0 ≤ k < Z.min n (i_size x - off) → bytes !! Z.to_nat k = file_byte (vw A) x (off + k).
Proof.
  intros HF Hx Hfr Hoff Hn. destruct (Z.ltb_spec (i_size x) off) as [Hpast|Hin]; [|destruct (Z.leb_spec (2 ^ 32) (off + n)) as [Hov|]];
    cbn [orb]; [| |by apply readi_ok; lia || done].
  all: unfold readi; rewrite (bind_ok _ _ _ _ _ (get_inode_ok me S C A L s ip x HF Hx)), (proj2 (Z.eqb_neq _ _) (fr_type _ _ Hfr)).
  - by rewrite (proj2 (Z.ltb_lt (i_size x) off) Hpast).
  - rewrite (proj2 (Z.ltb_lt (u32 (off + n)) off)) by (unfold u32, wrapu; lia). by rewrite orb_true_r.
Qed.

(** C26: [readi] returns the bytes of the file from [off] on, at most [n] and not past
    the end; an offset past the end or a sum that overflows gives -1.  The contents
    of the disk and of the log do not change. *)
Theorem readi_correct s ip x off n :
  fabs me S C A L s → C !! ip = Some x → file_ready A x → 0 ≤ off < 2 ^ 32 → 0 ≤ n < 2 ^ 32 →
  if (i_size x <? off) || (2 ^ 32 <=? off + n) then readi me ip off n s = Ok (-1, []) s
  else ∃ bytes s', readi me ip off n s = Ok (Z.min n (i_size x - off), bytes) s' ∧ fabs me S C A L s' ∧
       Z.of_nat (length bytes) = Z.min n (i_size x - off) ∧
       ∀ k, 0 ≤ k < Z.min n (i_size x - off) → bytes !! Z.to_nat k = file_byte (vw A) x (off + k).
Proof. exact (readi_total_ok s ip x off n). Qed.

End File.
End FsysFile.
