(* ===== verification/FsysTree.v ===== *)
(** FsysTree: the blocks of a file as a tree (the addresses of the inode and the
    indirect block, p4/xv6-public/fs.c: [bmap]) next to the bitmap: which blocks a
    file owns, and how the tree grows when blocks are allocated for it. *)
From Stdlib Require Import Strings.Byte.
From S2P Require Import Prelude Memory Bio BioInv Log LogInv Fsys FsysInv FsysAlloc FsysFile.
From stdpp Require Import gmap.
Local Open Scope Z_scope.

Module FsysTree.
Import Bio BioInv Log LogInv Fsys FsysInv FsysAlloc FsysFile.

(** ** Nodes *)

(** A node of a file is the number of a block of the file, or [INDIRECT] for the
    block of addresses; its address is 0 while it is not allocated. *)
Definition INDIRECT : Z := -1.
Definition is_node (n : Z) : Prop := INDIRECT ≤ n < MAXFILE.
Definition addr_at (x : inode) (k : Z) : Z := default 0 (i_addrs x !! Z.to_nat k).
Definition node_addr (v : Z → option block) (x : inode) (n : Z) : Z :=
  if n =? INDIRECT then addr_at x NDIRECT
  else if n <? NDIRECT then addr_at x n
  else if addr_at x NDIRECT =? 0 then 0
  else get_uint (default [] (v (addr_at x NDIRECT))) (4 * (n - NDIRECT)).

Definition is_bitmap (S : superblock) (b : Z) : Prop := ∃ c, 0 ≤ c < sb_size S ∧ BBLOCK c S = b.

(** A block in use that is not of the bitmap. *)
Definition allocated (S : superblock) (v : Z → option block) (a : Z) : Prop :=
  0 < a < sb_size S ∧ is_free v S a = false ∧ ¬ is_bitmap S a.

(** The file owns the blocks of its nodes, each for one node. *)
Record tree (S : superblock) (v : Z → option block) (x : inode) : Prop := {
  tr_len : length (i_addrs x) = 13%nat;
  tr_own : ∀ n, is_node n → node_addr v x n ≠ 0 → allocated S v (node_addr v x n);
  tr_inj : ∀ n n', is_node n → is_node n' → node_addr v x n ≠ 0 → node_addr v x n = node_addr v x n' → n = n'
}.

(** The boot block and the bitmap are marked as used. *)
Record space (S : superblock) (N : Z) (v : Z → option block) : Prop := {
  sp_layout : layout S N;
  sp_boot : is_free v S 0 = false;
  sp_bitmap : ∀ c, is_bitmap S c → 0 ≤ c < sb_size S ∧ is_free v S c = false
}.

(** The number of free blocks, and of the nodes of [ks] that are not allocated. *)
Definition free_set (v : Z → option block) (S : superblock) : gset Z :=
  list_to_set (filter (λ c, is_free v S c = true) (seqZ 0 (sb_size S))).
Definition free_blocks (v : Z → option block) (S : superblock) : Z := Z.of_nat (size (free_set v S)).
Definition missing_set (ks : gset Z) (v : Z → option block) (x : inode) : gset Z := filter (λ n, node_addr v x n = 0) ks.
Definition missing (ks : gset Z) (v : Z → option block) (x : inode) : Z := Z.of_nat (size (missing_set ks v x)).

Lemma elem_free_set v S c : c ∈ free_set v S ↔ 0 ≤ c < sb_size S ∧ is_free v S c = true.
Proof. unfold free_set. rewrite elem_of_list_to_set, list_elem_of_filter, elem_of_seqZ. rewrite Z.add_0_l. tauto. Qed.

Lemma free_blocks_some v S : 0 < free_blocks v S → ∃ a, first_in (is_free v S) 0 (sb_size S) = Some a.
Proof.
  intros Hpos. pose proof (first_in_spec (is_free v S) 0 (sb_size S)) as Hf. destruct (first_in _ _ _) as [a|]; [by exists a|].
  exfalso. assert (free_set v S = ∅) as E; [|unfold free_blocks in Hpos; rewrite E, size_empty in Hpos; lia].
  apply set_eq. intros c. rewrite elem_free_set. split; [|set_solver]. intros [Hc Hfree]. by rewrite (Hf c Hc) in Hfree.
Qed.

Lemma free_blocks_ext v v' S : (∀ c, 0 ≤ c < sb_size S → is_free v' S c = is_free v S c) → free_blocks v' S = free_blocks v S.
Proof.
  intros H. unfold free_blocks. do 2 f_equal. apply set_eq. intros c. rewrite !elem_free_set.
  split; intros [Hc Hf]; (split; [done|]); by rewrite H in *.
Qed.

Lemma size_take_out (X Y : gset Z) a : a ∈ X → Y ⊆ X ∖ {[a]} → (size Y + 1 ≤ size X)%nat.
Proof.
  intros Ha HY%subseteq_size. rewrite size_difference, size_singleton in HY by set_solver.
  assert (size X ≠ 0)%nat by (intros E%size_empty_inv; set_solver). lia.
Qed.

Lemma size_back_in (X Y : gset Z) a : X ⊆ {[a]} ∪ Y → (size X ≤ size Y + 1)%nat.
Proof. intros HX%subseteq_size. pose proof (size_add Y a). case_decide; lia. Qed.

Lemma size_list_le (l : list Z) : (size (list_to_set l : gset Z) ≤ length l)%nat.
Proof.
  induction l as [|b l IH]; [done|]. cbn [list_to_set length]. pose proof (size_add (list_to_set l) b). case_decide; lia.
Qed.

(** The blocks of a bitmap of at most four blocks. *)
Lemma bitmap_list S b N : layout S N → sb_size S ≤ 4 * BPB → is_bitmap S b → b ∈ seqZ (bmapstart S) 4.
Proof.
  intros Hly Hsz (c & Hc & <-). destruct (BBLOCK_val S N c Hly Hc) as [-> _]. rewrite BPB_val in *. apply elem_of_seqZ.
  assert (0 ≤ c / 4096 < 4) by (split; [apply Z.div_pos|apply Z.div_lt_upper_bound]; lia). lia.
Qed.

(** ** What allocation does to the blocks *)

(** Block [a] has been allocated. *)
Record alloc_effect (S : superblock) (v : Z → option block) (a : Z) (v' : Z → option block) : Prop := {
  al_was : 0 < a < sb_size S ∧ is_free v S a = true;
  al_not_bitmap : ¬ is_bitmap S a;
  al_zero : v' a = Some zero_block;
  al_free : ∀ c, 0 ≤ c < sb_size S → is_free v' S c = is_free v S c && negb (c =? a);
  al_other : ∀ b, b ≠ a → ¬ is_bitmap S b → v' b = v b
}.

(** The file has got new blocks, and they were free; all of them have been taken
    from the bitmap and nothing else. *)
Record grows (ks : gset Z) (S : superblock) (v : Z → option block) (x : inode) (v' : Z → option block) (x' : inode) : Prop := {
  gr_keep : ∀ n, is_node n → node_addr v x n ≠ 0 → node_addr v' x' n = node_addr v x n;
  gr_new : ∀ n, is_node n → node_addr v' x' n ≠ 0 →
    node_addr v x n ≠ 0 ∨ (0 < node_addr v' x' n < sb_size S ∧ is_free v S (node_addr v' x' n) = true);
  gr_free : ∀ c, 0 < c < sb_size S →
    is_free v' S c = true ↔ is_free v S c = true ∧ ∀ n, is_node n → node_addr v' x' n ≠ c;
  gr_enough : missing ks v x ≤ free_blocks v S → missing ks v' x' ≤ free_blocks v' S
}.

Section Grows.
Context (ks : gset Z) (S : superblock).

Lemma allocated_ext v v' a :
  (∀ c, 0 ≤ c < sb_size S → is_free v S c = false → is_free v' S c = false) → allocated S v a → allocated S v' a.
Proof. intros H (Ha & Hf & Hb). split; [done|]. split; [|done]. apply H; [lia|done]. Qed.

(** Nothing happens to the tree or to the bitmap. *)
Lemma grows_ext v x v' x' : tree S v x →
  (∀ n, is_node n → node_addr v' x' n = node_addr v x n) → (∀ c, 0 ≤ c < sb_size S → is_free v' S c = is_free v S c) →
  (∀ n, n ∈ ks → is_node n) → length (i_addrs x') = 13%nat → tree S v' x' ∧ grows ks S v x v' x'.
Proof.
  intros [Hl Hown Hinj] Hn Hf Hks Hl'. split; split.
  - done.
  - intros n Hi. rewrite Hn by done. intros Hne. eapply allocated_ext; [|by apply Hown]. intros c Hc. by rewrite Hf.
  - intros n n' Hi Hi'. rewrite !Hn by done. by apply Hinj.
  - intros n Hi _. by apply Hn.
  - intros n Hi. rewrite Hn by done. by left.
  - intros c Hc. rewrite Hf by lia. split; [|tauto]. intros Hfree. split; [done|]. intros n Hi. rewrite Hn by done. intros E.
    destruct (Hown n Hi) as (_ & Hused & _); [lia|]. congruence.
  - assert (missing_set ks v' x' = missing_set ks v x) as E.
    { apply set_eq. intros n. unfold missing_set. rewrite !elem_of_filter.
      split; intros [H0 Hi]; (split; [|done]); rewrite Hn in * by auto; done. }
    unfold missing. rewrite E. by rewrite (free_blocks_ext v v') by done.
Qed.

Lemma grows_trans v x v1 x1 v2 x2 : tree S v1 x1 → tree S v2 x2 → grows ks S v x v1 x1 → grows ks S v1 x1 v2 x2 → grows ks S v x v2 x2.
Proof.
  intros Ht1 Ht2 H1 H2. split.
  - intros n Hi Hne. rewrite (gr_keep _ _ _ _ _ _ H2), (gr_keep _ _ _ _ _ _ H1) by (rewrite ?(gr_keep _ _ _ _ _ _ H1) by done; done). done.
  - intros n Hi Hne. destruct (gr_new _ _ _ _ _ _ H2 n Hi Hne) as [H|[Hr Hf]].
    + rewrite (gr_keep _ _ _ _ _ _ H2 n Hi H). by apply (gr_new _ _ _ _ _ _ H1).
    + right. split; [done|]. by apply (gr_free _ _ _ _ _ _ H1).
  - intros c Hc. rewrite (gr_free _ _ _ _ _ _ H2), (gr_free _ _ _ _ _ _ H1) by done. split; [tauto|].
    intros [Hf Hn]. split; [|done]. split; [done|]. intros n Hi E. apply (Hn n Hi). rewrite (gr_keep _ _ _ _ _ _ H2); [done|done|lia].
  - intros H. by apply (gr_enough _ _ _ _ _ _ H2), (gr_enough _ _ _ _ _ _ H1).
Qed.

(** A block is allocated and becomes node [k]. *)
Lemma grows_link v x a v1 k v2 x2 :
  tree S v x → alloc_effect S v a v1 → (∀ c, 0 ≤ c < sb_size S → is_free v2 S c = is_free v1 S c) →
  (∀ n, n ∈ ks → is_node n) → k ∈ ks → node_addr v x k = 0 → length (i_addrs x2) = 13%nat →
  (∀ n, is_node n → node_addr v2 x2 n = if decide (n = k) then a else node_addr v x n) →
  tree S v2 x2 ∧ grows ks S v x v2 x2.
Proof.
  intros [Hl Hown Hinj] [(Ha & Hwas) Hnb _ Hfr _] Hf2 Hks Hk H0 Hl2 Hn.
  assert (∀ c, 0 ≤ c < sb_size S → is_free v2 S c = is_free v S c && negb (c =? a)) as Hf by (intros c Hc; by rewrite Hf2, Hfr).
  assert (∀ n, is_node n → node_addr v x n ≠ a) as Hnot.
  { intros n Hi E. destruct (Hown n Hi) as (_ & Hu & _); [lia|]. congruence. }
  split; split.
  - done.
  - intros n Hi. rewrite Hn by done. case_decide.
    + intros _. split; [done|]. split; [|done]. rewrite Hf by lia. by rewrite Z.eqb_refl, andb_false_r.
    + intros Hne. eapply allocated_ext; [|by apply Hown]. intros c Hc E. by rewrite Hf, E.
  - intros n n' Hi Hi'. rewrite !Hn by done. case_decide; case_decide; [by subst| |by intros _ E; edestruct (Hnot n)|by apply Hinj].
    intros _ E. by edestruct (Hnot n').
  - intros n Hi Hne. rewrite Hn by done. case_decide; [by subst|done].
  - intros n Hi. rewrite Hn by done. case_decide; [by right|by left].
  - intros c Hc. rewrite Hf by lia. rewrite andb_true_iff, negb_true_iff, Z.eqb_neq. split.
    + intros [Hfc Hca]. split; [done|]. intros n Hi. rewrite Hn by done. case_decide; [done|]. intros E.
      destruct (Hown n Hi) as (_ & Hu & _); [lia|]. congruence.
    + intros [Hfc Hno]. split; [done|]. intros ->. apply (Hno k (Hks k Hk)). by rewrite Hn, decide_True by auto.
  - intros Henough. unfold missing, free_blocks in *.
    assert (size (missing_set ks v2 x2) + 1 ≤ size (missing_set ks v x))%nat.
    { apply (size_take_out _ _ k).
      - unfold missing_set. by rewrite elem_of_filter.
      - intros n. unfold missing_set. rewrite elem_of_difference, !elem_of_filter, elem_of_singleton. intros [E Hi].
        rewrite Hn in E by auto. case_decide; [lia|done]. }
    assert (size (free_set v S) ≤ size (free_set v2 S) + 1)%nat; [|lia].
    apply (size_back_in _ _ a). intros c. rewrite elem_of_union, elem_of_singleton, !elem_free_set. intros [Hc E].
    destruct (decide (c = a)) as [|Hne]; [by left|right]. split; [done|]. rewrite Hf, E by done. by rewrite (proj2 (Z.eqb_neq _ _) Hne).
Qed.

End Grows.
End FsysTree.
