(* ===== verification/FsysGrow.v ===== *)
(** FsysGrow: [bmap] where the file has no block yet (p4/xv6-public/fs.c): blocks
    are allocated and linked into the inode or the indirect block. *)
From Stdlib Require Import Strings.Byte.
From S2P Require Import Prelude Memory Bio BioInv Log LogInv Fsys FsysInv FsysTx FsysAlloc FsysFile FsysTree.
From stdpp Require Import gmap.
Local Open Scope Z_scope.

Module FsysGrow.
Import Bio BioInv Log LogInv Fsys FsysInv FsysTx FsysAlloc FsysWrote FsysFile FsysTree.

(** ** The nodes after a change of one address *)
Section Nodes.
Context (v : Z → option block) (x : inode) (Hlen : length (i_addrs x) = 13%nat).

Lemma addr_at_set k a j : 0 ≤ k < 13 → 0 ≤ j → addr_at (set_i_addr k a x) j = if decide (j = k) then a else addr_at x j.
Proof.
  intros Hk Hj. unfold addr_at. cbn. case_decide; [subst; by rewrite list_lookup_insert_eq by lia|].
  by rewrite list_lookup_insert_ne by lia.
Qed.

Lemma node_addr_ext v' n : (addr_at x NDIRECT ≠ 0 → v' (addr_at x NDIRECT) = v (addr_at x NDIRECT)) → node_addr v' x n = node_addr v x n.
Proof. intros H. unfold node_addr. destruct (n =? INDIRECT), (n <? NDIRECT); try done. destruct (Z.eqb_spec (addr_at x NDIRECT) 0); [done|]. by rewrite H. Qed.

Lemma node_addr_direct k a n : 0 ≤ k < NDIRECT → is_node n →
  node_addr v (set_i_addr k a x) n = if decide (n = k) then a else node_addr v x n.
Proof.
  unfold node_addr, is_node, INDIRECT, NDIRECT, MAXFILE. intros Hk Hn. rewrite !(addr_at_set k a 12), decide_False by lia.
  destruct (Z.eqb_spec n (-1)); [by rewrite decide_False by lia|]. destruct (Z.ltb_spec n 12); [by rewrite addr_at_set by lia|].
  by rewrite decide_False by lia.
Qed.

Lemma get_uint_zero o : 0 ≤ o → o + 4 ≤ 512 → get_uint zero_block o = 0.
Proof.
  intros. unfold get_uint. assert (sub_bytes zero_block o 4 = replicate 4 x00) as ->; [|done].
  apply list_eq. intros k. destruct (decide (k < 4)%nat).
  - rewrite lookup_sub_bytes by lia. unfold zero_block, BSIZE. by rewrite !lookup_replicate_2 by lia.
  - unfold sub_bytes. by rewrite lookup_take_ge, lookup_ge_None_2 by (rewrite ?length_replicate; lia).
Qed.

Lemma node_addr_indirect a n : addr_at x NDIRECT = 0 → a ≠ 0 → v a = Some zero_block → is_node n →
  node_addr v (set_i_addr NDIRECT a x) n = if decide (n = INDIRECT) then a else node_addr v x n.
Proof.
  unfold node_addr, is_node, INDIRECT, MAXFILE, NINDIRECT, BSIZE, NDIRECT. intros H0 Ha Hz Hn.
  rewrite !(addr_at_set 12 a 12), decide_True, H0 by lia.
  destruct (Z.eqb_spec n (-1)); [by rewrite decide_True by lia|]. rewrite (decide_False (P := n = -1)) by lia.
  destruct (Z.ltb_spec n 12); [by rewrite addr_at_set, decide_False by lia|].
  rewrite (proj2 (Z.eqb_neq _ _) Ha), Hz. cbn [default id]. by rewrite get_uint_zero by lia.
Qed.

Lemma node_addr_entry d k a n : addr_at x NDIRECT ≠ 0 → v (addr_at x NDIRECT) = Some d → length d = 512%nat →
  NDIRECT ≤ k < MAXFILE → 0 ≤ a < 2 ^ 32 → is_node n →
  node_addr (upd v (addr_at x NDIRECT) (put_bytes d (4 * (k - NDIRECT)) (le_encode 4 a))) x n =
    if decide (n = k) then a else node_addr v x n.
Proof.
  unfold node_addr, is_node, INDIRECT, MAXFILE, NINDIRECT, BSIZE, NDIRECT. intros Ha Hv Hd Hk Hr Hn.
  destruct (Z.eqb_spec n (-1)); [by rewrite decide_False by lia|]. destruct (Z.ltb_spec n 12); [by rewrite decide_False by lia|].
  rewrite (proj2 (Z.eqb_neq _ _) Ha), Hv. unfold upd. rewrite decide_True by done. cbn [default id]. unfold get_uint. case_decide as E.
  - subst n. pose proof (sub_put_eq d Hd (4 * (k - 12)) (le_encode 4 a)) as Hs. rewrite length_le_encode in Hs. change (Z.of_nat 4) with 4 in Hs.
    rewrite Hs, le_decode_encode by lia. change (8 * Z.of_nat 4) with 32. by rewrite wrapu_small by lia.
  - by rewrite sub_put_ne by (rewrite ?length_le_encode; lia).
Qed.
End Nodes.

(** ** Allocation *)
Section Effect.
Context (S : superblock) (v : Z → option block) (a : Z) (v' : Z → option block) (He : alloc_effect S v a v').

Lemma effect_allocated b : allocated S v b → allocated S v' b.
Proof. apply allocated_ext. intros c Hc Hf. by rewrite (al_free _ _ _ _ He), Hf. Qed.

Lemma effect_new : allocated S v' a.
Proof.
  destruct He as [[Ha _] Hnb _ Hf _]. split; [done|]. split; [|done]. rewrite Hf by lia. by rewrite Z.eqb_refl, andb_false_r.
Qed.

Lemma effect_fresh b : allocated S v b → b ≠ a.
Proof. intros (_ & Hu & _) ->. destruct He as [[_ Hf] _ _ _ _]. congruence. Qed.

Lemma effect_same b : allocated S v b → v' b = v b.
Proof. intros Hb. apply (al_other _ _ _ _ He); [by apply effect_fresh|apply Hb]. Qed.

Lemma space_ext N v1 v2 : (∀ c, 0 ≤ c < sb_size S → is_free v1 S c = false → is_free v2 S c = false) → space S N v1 → space S N v2.
Proof.
  intros H [Hly H0 Hb]. pose proof (ly_size _ _ Hly). split; [done|apply H; [lia|done]|].
  intros c Hc. destruct (Hb c Hc) as [Hr Hf]. split; [done|by apply H].
Qed.

Lemma effect_space N : space S N v → space S N v'.
Proof. apply space_ext. intros c Hc Hf. by rewrite (al_free _ _ _ _ He), Hf. Qed.
End Effect.

Section Alloc.
Context (me : Z) (S : superblock).

(** The buffers in use are of blocks in use. *)
Definition held_ok (A : acache) : Prop := ∀ i b d, hd A !! i = Some (b, d) → allocated S (vw A) b.
Definition bitmap_or (a : Z) (b : Z) : Prop := b = a ∨ is_bitmap S b.

Lemma alloc_ok C A L s :
  fabs me S C A L s → space S (Z.of_nat (length (dk A))) (vw A) → held_ok A → can_log L 2 →
  Z.of_nat (size (hd A)) + Z.of_nat (size (dt A)) + 1 < NBUF → 0 < free_blocks (vw A) S →
  ∃ a A' L' s', balloc me 1 s = Ok a s' ∧ fabs me S C A' L' s' ∧
    alloc_effect S (vw A) a (vw A') ∧ wrote (bitmap_or a) A L 2 A' L'.
Proof.
  intros HF [Hly H0 Hb] Hheld HL Hroom [a Hfirst]%free_blocks_some.
  assert (alloc_ready S A) as Har.
  { split; [| | |done].
    - intros c Hc i d (_ & _ & Hno)%Hheld. apply Hno. by exists c.
    - intros c Hc Hf i d (_ & Hu & _)%Hheld. congruence.
    - intros c Hc. apply Hb. by exists c. }
  pose proof (balloc_ok me S C A L s HF Hly Har HL) as Hbal. rewrite Hfirst in Hbal. destruct Hbal as (d & s' & E & Hd & Hl & HF').
  pose proof (first_in_spec (is_free (vw A) S) 0 (sb_size S)) as Hspec. rewrite Hfirst in Hspec. destruct Hspec as (Ha & Hfa & _).
  assert (a ≠ 0) as Hne by congruence.
  exists a, (taken S a d A), (log_taken S a L), s'. split_and!; [done|done| |].
  - split; [split; [lia|done]| |cbn; unfold upd; by rewrite decide_True| |].
    + intros Hbm. destruct (Hb a Hbm). congruence.
    + intros c Hc. by apply taken_free.
    + intros b Hb1 Hb2. cbn. unfold upd. rewrite !decide_False; [done| |done]. intros ->. apply Hb2. by exists a.
  - apply (wrote_more _ _ _ 1 (write_to (BBLOCK a S) (set_bit d (a mod BPB)) A) (logged L (BBLOCK a S)) a zero_block); [|by left].
    apply wrote_one. right. by exists a.
Qed.

End Alloc.

(** ** The file grows *)

(** The inode with other addresses. *)
Definition with_addrs (l : list Z) (x : inode) : inode :=
  Inode (i_dev x) (i_inum x) (i_ref x) (i_locked x) (i_pid x) (i_valid x) (i_type x) (i_major x) (i_minor x) (i_nlink x) (i_size x) l.

(** The blocks that writing to the file may change: the bitmap, free blocks and the
    blocks of the file. *)
Definition file_space (S : superblock) (v : Z → option block) (x : inode) (b : Z) : Prop :=
  is_bitmap S b ∨ (0 < b < sb_size S ∧ is_free v S b = true) ∨ (b ≠ 0 ∧ ∃ n, is_node n ∧ node_addr v x n = b).

(** A file in a file system. *)
Record fstate (S : superblock) (A : acache) (x : inode) : Prop := {
  fs_dev : i_dev x = 1;
  fs_space : space S (Z.of_nat (length (dk A))) (vw A);
  fs_tree : tree S (vw A) x
}.

(** The blocks that using the nodes [ks] makes dirty. *)
Definition node_block (ks : gset Z) (S : superblock) (v : Z → option block) (x : inode) (b : Z) : Prop :=
  is_bitmap S b ∨ (b ≠ 0 ∧ ∃ k, k ∈ ks ∧ node_addr v x k = b).

(** The file has got new blocks by [n] changes of blocks; its data stay. *)
Record extends (ks : gset Z) (S : superblock) (A : acache) (L : log) (x : inode) (n : Z) (A' : acache) (L' : log) (x' : inode) : Prop := {
  ex_grows : grows ks S (vw A) x (vw A') x';
  ex_wrote : wrote (file_space S (vw A) x) A L n A' L';
  ex_data : ∀ k, 0 ≤ k < MAXFILE → node_addr (vw A) x k ≠ 0 → vw A' (node_addr (vw A) x k) = vw A (node_addr (vw A) x k);
  ex_inode : x' = with_addrs (i_addrs x') x;
  ex_dirty : ∀ b, b ∈ dt A' → b ∈ dt A ∨ node_block ks S (vw A') x' b
}.

Section Extend.
Context (me : Z) (ks : gset Z) (S : superblock) (Hks : ∀ n, n ∈ ks → is_node n).

Lemma file_space_back v x v' x' b : grows ks S v x v' x' → file_space S v' x' b → file_space S v x b.
Proof.
  intros Hg [Hb|[[Hb Hf]|(Hb & n & Hn & <-)]]; [by left|right; left; split; [done|by apply (gr_free _ _ _ _ _ _ Hg)]|].
  right. destruct (gr_new _ _ _ _ _ _ Hg n Hn Hb) as [Hold|Hnew]; [right|by left]. split; [done|]. exists n.
  split; [done|]. by rewrite (gr_keep _ _ _ _ _ _ Hg).
Qed.

Lemma node_block_keep v x v' x' b : grows ks S v x v' x' → node_block ks S v x b → node_block ks S v' x' b.
Proof.
  intros Hg [Hb|(Hb & k & Hk & <-)]; [by left|right]. split; [done|]. exists k. split; [done|].
  by apply (gr_keep _ _ _ _ _ _ Hg); [apply Hks|].
Qed.

Lemma extends_refl A L x : fstate S A x → extends ks S A L x 0 A L x.
Proof.
  intros [_ _ Ht]. split; [|constructor|done|by destruct x|by left]. eapply grows_ext; [exact Ht|done..|apply Ht].
Qed.

Lemma extends_trans A L x n A1 L1 x1 m A2 L2 x2 :
  fstate S A1 x1 → fstate S A2 x2 → extends ks S A L x n A1 L1 x1 → extends ks S A1 L1 x1 m A2 L2 x2 → extends ks S A L x (n + m) A2 L2 x2.
Proof.
  intros H1 H2 [Hg Hw Hd Hi Hdt] [Hg' Hw' Hd' Hi' Hdt']. split.
  - eapply grows_trans; [apply H1|apply H2|done|done].
  - eapply wrote_trans; [exact Hw|]. eapply wrote_mono; [|exact Hw']. intros b. by apply file_space_back.
  - intros k Hk Hne. rewrite <- Hd by done. assert (is_node k) as Hn by (unfold is_node, INDIRECT; lia).
    rewrite <- (gr_keep _ _ _ _ _ _ Hg k Hn Hne). apply Hd'; [done|]. by rewrite (gr_keep _ _ _ _ _ _ Hg k Hn Hne).
  - rewrite Hi' at 1. rewrite Hi at 1. done.
  - intros b [Hb|Hb]%Hdt'; [|by right]. apply Hdt in Hb as [Hb|Hb]; [by left|right]. by eapply node_block_keep.
Qed.

(** A block is allocated and linked as node [k]. *)
Lemma extends_link A L x a A1 L1 m A2 L2 k x2 :
  fstate S A x → alloc_effect S (vw A) a (vw A1) → wrote (bitmap_or S a) A L 2 A1 L1 →
  wrote (λ b, b = addr_at x NDIRECT ∧ b ≠ 0 ∧ INDIRECT ∈ ks) A1 L1 m A2 L2 → (∀ c, 0 ≤ c < sb_size S → is_free (vw A2) S c = is_free (vw A1) S c) →
  k ∈ ks → node_addr (vw A) x k = 0 → length (i_addrs x2) = 13%nat → x2 = with_addrs (i_addrs x2) x →
  (∀ n, is_node n → node_addr (vw A2) x2 n = if decide (n = k) then a else node_addr (vw A) x n) →
  fstate S A2 x2 ∧ extends ks S A L x (2 + m) A2 L2 x2 ∧ node_addr (vw A2) x2 k = a ∧ a ≠ 0.
Proof.
  intros [Hdev Hsp Ht] He Hw1 Hw2 Hf Hk H0 Hl Hx Hn. destruct (al_was _ _ _ _ He) as [Ha Hfree].
  destruct (grows_link ks S (vw A) x a (vw A1) k (vw A2) x2 Ht He Hf Hks Hk H0 Hl Hn) as [Ht2 Hg].
  split; [|split; [split|split]]; try done.
  - split; [by rewrite Hx| |done]. destruct (wrote_frame _ _ _ _ _ _ Hw1) as (Hd1 & _), (wrote_frame _ _ _ _ _ _ Hw2) as (Hd2 & _).
    rewrite Hd2, Hd1. eapply space_ext; [|by apply (effect_space S (vw A) a)]. intros c Hc E. by rewrite Hf.
  - eapply wrote_trans; [eapply wrote_mono; [|exact Hw1]|eapply wrote_mono; [|exact Hw2]].
    + intros b [->|Hb]; [right; by left|by left].
    + intros b (-> & Hne & _). right. right. split; [done|]. by exists INDIRECT.
  - intros n Hin Hne. assert (is_node n) as Hnode by (unfold is_node, INDIRECT; lia).
    rewrite (wrote_other _ _ _ _ _ _ _ Hw2).
    + apply (effect_same S (vw A) a (vw A1) He). by apply (tr_own _ _ _ Ht).
    + intros (E & Hne' & _). assert (n = INDIRECT) as ->; [|unfold INDIRECT in *; lia].
      by apply (tr_inj _ _ _ Ht).
  - intros b Hb. apply (wrote_dirty _ _ _ _ _ _ _ Hw2) in Hb as [Hb|(-> & Hne & Hi)]; [apply (wrote_dirty _ _ _ _ _ _ _ Hw1) in Hb as [Hb|[->|Hb]]|].
    + by left.
    + right. right. split; [lia|]. exists k. split; [done|]. by rewrite Hn, decide_True by auto.
    + right. by left.
    + right. right. split; [done|]. exists INDIRECT. split; [done|]. rewrite (gr_keep _ _ _ _ _ _ Hg); done.
  - by rewrite Hn, decide_True by auto.
  - lia.
Qed.

(** No buffer is in use, and there is room for the blocks of [ks] and for [k]
    changes of blocks. *)
Record enough (A : acache) (L : log) (x : inode) (k : Z) : Prop := {
  en_hd : hd A = ∅;
  en_free : missing ks (vw A) x ≤ free_blocks (vw A) S;
  en_log : can_log L k;
  en_room : Z.of_nat (size (dt A)) + k < NBUF
}.

Lemma extends_enough A L x n A' L' x' k : extends ks S A L x n A' L' x' → enough A L x (n + k) → enough A' L' x' k.
Proof.
  intros [Hg Hw _ _ _] []. destruct (wrote_frame _ _ _ _ _ _ Hw) as (_ & Hh & _). pose proof (wrote_size _ _ _ _ _ _ Hw).
  split; [congruence|by apply (gr_enough _ _ _ _ _ _ Hg)|by eapply wrote_can_log|lia].
Qed.

Lemma enough_less A L x k k' : enough A L x k → k' ≤ k → enough A L x k'.
Proof. intros [? ? (? & ? & ?) ?] Hk. split; [done|done| |lia]. unfold can_log. lia. Qed.

Lemma missing_pos v x k : k ∈ ks → node_addr v x k = 0 → 1 ≤ missing ks v x.
Proof.
  intros Hk H0. unfold missing. assert (size (missing_set ks v x) ≠ 0)%nat; [|lia]. intros E%size_empty_inv.
  assert (k ∈ missing_set ks v x) as Hin by (unfold missing_set; by rewrite elem_of_filter). set_solver.
Qed.

Lemma lookup_addr x k : length (i_addrs x) = 13%nat → 0 ≤ k < 13 → i_addrs x !! Z.to_nat k = Some (addr_at x k).
Proof.
  intros Hl Hk. unfold addr_at. destruct (lookup_lt_is_Some_2 (i_addrs x) (Z.to_nat k)) as [a ->]; [lia|done].
Qed.

(** The node of an address of the inode. *)
Definition slot_node (k : Z) : Z := if k =? NDIRECT then INDIRECT else k.

(** The part of [bmap] that looks at address [k] of the inode. *)
Definition bmap_slot (ip : nat) (x : inode) (k : Z) : ST fsys Z :=
  let a := addr_at x k in
  if a =? 0 then
    let! a := balloc me (i_dev x) in
    let! x := get_inode ip in
    do! put_inode ip (set_i_addr k a x) in ret a
  else ret a.

Lemma bmap_slot_ok C A L s ip x k :
  fabs me S C A L s → C !! ip = Some x → fstate S A x → 0 ≤ k < 13 → slot_node k ∈ ks → enough A L x 2 →
  ∃ a x' A' L' s' n, bmap_slot ip x k s = Ok a s' ∧ fabs me S (<[ip := x']> C) A' L' s' ∧
    fstate S A' x' ∧ extends ks S A L x n A' L' x' ∧ n ≤ 2 ∧ node_addr (vw A') x' (slot_node k) = a ∧ a ≠ 0 ∧
    (node_addr (vw A) x (slot_node k) ≠ 0 → A' = A ∧ L' = L ∧ x' = x ∧ n = 0).
Proof.
  intros HF Hx Hfs Hk Hin []. pose proof (tr_len _ _ _ (fs_tree _ _ _ Hfs)) as Hl.
  assert (node_addr (vw A) x (slot_node k) = addr_at x k) as Enode.
  { unfold slot_node, node_addr, INDIRECT, NDIRECT in *. destruct (Z.eqb_spec k 12) as [->|]; [done|].
    by rewrite (proj2 (Z.eqb_neq k (-1))), (proj2 (Z.ltb_lt k 12)) by lia. }
  unfold bmap_slot. destruct (Z.eqb_spec (addr_at x k) 0) as [H0|H0].
  - pose proof (missing_pos (vw A) x _ Hin ltac:(by rewrite Enode)).
    destruct (alloc_ok me S C A L s HF (fs_space _ _ _ Hfs)) as (a & A1 & L1 & s1 & E1 & HF1 & He & Hw).
    { intros i b d. by rewrite en_hd0, lookup_empty. } { done. } { rewrite en_hd0, map_size_empty. lia. } { lia. }
    rewrite (fs_dev _ _ _ Hfs), (bind_ok _ _ _ _ _ E1), (bind_ok _ _ _ _ _ (get_inode_ok me S C A1 L1 s1 ip x HF1 Hx)).
    destruct (put_inode_ok me S C A1 L1 s1 ip (set_i_addr k a x) HF1) as (s2 & E2 & HF2). rewrite (bind_ok _ _ _ _ _ E2).
    assert (length (i_addrs (set_i_addr k a x)) = 13%nat) as Hl2 by (cbn; by rewrite length_insert).
    destruct (extends_link A L x a A1 L1 0 A1 L1 (slot_node k) (set_i_addr k a x)) as (Hfs2 & Hex & Ha & Hne); try done.
    + constructor.
    + by rewrite Enode.
    + intros n Hn. assert (node_addr (vw A1) x n = node_addr (vw A) x n) as Eold.
      { apply node_addr_ext. intros Hne. eapply effect_same; [exact He|]. by apply (tr_own _ _ _ (fs_tree _ _ _ Hfs) INDIRECT). }
      rewrite <- Eold. unfold slot_node in *. destruct (Z.eqb_spec k NDIRECT) as [->|Hk'].
      * apply node_addr_indirect; [done|done| |apply He|done]. destruct (al_was _ _ _ _ He). lia.
      * apply node_addr_direct; [done| |done]. unfold NDIRECT in *. lia.
    + exists a, (set_i_addr k a x), A1, L1, s2, (2 + 0). split_and!; try done. rewrite Enode. done.
  - exists (addr_at x k), x, A, L, s, 0. rewrite list_insert_id by done. split_and!; try done. by apply extends_refl.
Qed.

(** The part of [bmap] that looks at entry [j] of the indirect block. *)
Definition bmap_entry (x : inode) (a j : Z) : ST fsys Z :=
  let! bp := read_block me (i_dev x) a in
  let! d := bdata bp in
  let e := get_uint d (4 * j) in
  let! e := (if e =? 0 then
               let! e := balloc me (i_dev x) in
               let! d := bdata bp in
               do! set_bdata bp (put_bytes d (4 * j) (le_encode 4 e)) in
               do! log_block bp in ret e
             else ret e) in
  do! release_block me bp in
  ret e.

(** A new entry is stored in the indirect block, which is in use. *)
Lemma store_entry_ok {R} C A L s bp ia d d' (r : R) :
  fabs me S C (set_hd {[bp := (ia, d)]} A) L s → hd A = ∅ → length d' = 512%nat → can_log L 1 →
  ∃ s1 s2, (do! set_bdata bp d' in do! log_block bp in ret r) s = Ok r s1 ∧ release_block me bp s1 = Ok tt s2 ∧
    fabs me S C (write_to ia d' A) (logged L ia) s2.
Proof.
  intros HF Hh Hl HL. destruct (change_block_ok me S C A L s bp ia d d') as (s2 & E & HF2); [by rewrite Hh|by rewrite Hh|done|done|].
  unfold bind in E |- *. destruct (set_bdata bp d' s) as [[] s'|]; [|done]. destruct (log_block bp s') as [[] s1|]; [|done]. by exists s1, s2.
Qed.

Lemma bmap_entry_ok C A L s x k :
  fabs me S C A L s → fstate S A x → addr_at x NDIRECT ≠ 0 → NDIRECT ≤ k < MAXFILE → k ∈ ks → INDIRECT ∈ ks →
  enough A L x 3 →
  ∃ e A' L' s' n, bmap_entry x (addr_at x NDIRECT) (k - NDIRECT) s = Ok e s' ∧ fabs me S C A' L' s' ∧
    fstate S A' x ∧ extends ks S A L x n A' L' x ∧ n ≤ 3 ∧ node_addr (vw A') x k = e ∧ e ≠ 0 ∧
    (node_addr (vw A) x k ≠ 0 → A' = A ∧ L' = L ∧ n = 0).
Proof.
  intros HF Hfs Hia Hk Hin Hind []. pose proof Hfs as [Hdev Hsp Ht]. set (ia := addr_at x NDIRECT) in *.
  assert (is_node k) as Hnode by (unfold is_node, INDIRECT, NDIRECT in *; lia).
  pose proof (tr_own _ _ _ Ht INDIRECT ltac:(done) Hia) as Hown. change (node_addr (vw A) x INDIRECT) with ia in Hown.
  pose proof (ly_size _ _ (sp_layout _ _ _ Hsp)). assert (0 < ia < sb_size S) as Hr by apply Hown.
  unfold bmap_entry. rewrite Hdev.
  destruct (read_block_ok me S C A L s ia HF) as (bp & d & s1 & E1 & Hd & Hl & _ & Hcl & HF1); [lia| |right; rewrite en_hd0, map_size_empty; lia|].
  { intros i d. by rewrite en_hd0, lookup_empty. }
  rewrite (bind_ok _ _ _ _ _ E1), (bind_ok _ _ _ _ _ (bdata_ok me S C _ L s1 bp ia d HF1 (lookup_insert_eq _ _ _))).
  assert (get_uint d (4 * (k - NDIRECT)) = node_addr (vw A) x k) as Ee.
  { unfold node_addr, NDIRECT, INDIRECT in *. rewrite (proj2 (Z.eqb_neq k (-1))), (proj2 (Z.ltb_ge k 12)) by lia.
    fold ia. by rewrite (proj2 (Z.eqb_neq _ _) Hia), Hd. }
  rewrite Ee. rewrite en_hd0 in HF1. rewrite insert_empty in HF1.
  destruct (Z.eqb_spec (node_addr (vw A) x k) 0) as [H0|H0].
  - pose proof (missing_pos (vw A) x k Hin H0).
    destruct (alloc_ok me S C _ L s1 HF1) as (a & A1 & L1 & s2 & E2 & HF2 & He & Hw); [done| | | |cbn; lia|].
    { intros i b d' Hs. cbn in Hs. apply lookup_singleton_Some in Hs as [_ [= <- <-]]. exact Hown. }
    { unfold can_log in *. lia. } { cbn. rewrite map_size_singleton. lia. }
    destruct (wrote_frame _ _ _ _ _ _ Hw) as (Hdk & Hh1 & _). apply (wrote_hd _ _ _ ∅) in Hw.
    assert (set_hd ∅ (set_hd {[bp := (ia, d)]} A) = A) as EA by (destruct A; cbn in *; by subst). rewrite EA in Hw.
    set (A2 := set_hd ∅ A1) in *. assert (set_hd {[bp := (ia, d)]} A2 = A1) as EA1 by (destruct A1; cbn in *; by subst).
    rewrite <- EA1 in HF2. rewrite bind_assoc, (bind_ok _ _ _ _ _ E2), bind_assoc.
    rewrite (bind_ok _ _ _ _ _ (bdata_ok me S C _ L1 s2 bp ia d HF2 (lookup_singleton_eq _ _))).
    set (d' := put_bytes d (4 * (k - NDIRECT)) (le_encode 4 a)).
    assert (length d' = 512%nat) as Hl'.
    { unfold d', MAXFILE, NINDIRECT, NDIRECT, BSIZE in *. apply length_put_bytes; rewrite ?length_le_encode; [done|lia..]. }
    destruct (store_entry_ok C A2 L1 s2 bp ia d d' a HF2) as (s3 & s4 & E3 & E4 & HF4); [done|done|eapply wrote_can_log; [exact Hw|unfold can_log in *; lia]|].
    rewrite (bind_ok _ _ _ _ _ E3), (bind_ok _ _ _ _ _ E4).
    assert (alloc_effect S (vw A) a (vw A2)) as He2 by exact He. destruct (al_was _ _ _ _ He) as [Ha _].
    pose proof (ly_disk _ _ (sp_layout _ _ _ Hsp)).
    assert (vw A2 ia = Some d) as Hd2 by (rewrite <- Hd; by apply (effect_same S (vw A) a)).
    destruct (extends_link A L x a A2 L1 1 (write_to ia d' A2) (logged L1 ia) k x) as (Hfs2 & Hex & Hka & Hne); try done.
    + apply wrote_one. done.
    + intros c Hc. unfold is_free. cbn. unfold upd. rewrite decide_False; [done|]. intros E. apply Hown. by exists c.
    + apply Ht.
    + by destruct x.
    + intros n Hn. cbn [write_to vw].
      assert (node_addr (vw A2) x n = node_addr (vw A) x n) as <- by (apply node_addr_ext; intros _; fold ia; congruence).
      apply node_addr_entry; [apply Ht|done|done|done|done|lia|done].
    + exists a, (write_to ia d' A2), (logged L1 ia), s4, (2 + 1). by split_and!.
  - destruct (release_ok me S C _ L s1 bp ia d HF1 (lookup_singleton_eq _ _) Hcl) as (s2 & E2 & HF2).
    rewrite bind_ret_l, (bind_ok _ _ _ _ _ E2). exists (node_addr (vw A) x k), A, L, s2, 0. split_and!; try done; [|by apply extends_refl].
    cbn [set_hd vw dk ws dt hd] in HF2. rewrite delete_singleton_eq, <- en_hd0 in HF2. by destruct A.
Qed.

End Extend.
End FsysGrow.
