(* ===== verification/FsysWrite.v ===== *)
(** FsysWrite: overwriting the contents of a file (p4/xv6-public/fs.c: [writei])
    within a transaction, and reading back what was written. *)
From Stdlib Require Import Strings.Byte.
From S2P Require Import Prelude Memory Bio BioInv Log LogInv Fsys FsysInv FsysTx FsysFile.
From stdpp Require Import gmap.
Local Open Scope Z_scope.

Module FsysWrite.
Import Bio BioInv Log LogInv Fsys FsysInv FsysTx FsysFile.

(** Block [b] holds contents of the file. *)
Definition data_block (v : Z → option block) (x : inode) (b : Z) : Prop :=
  ∃ bn, 0 ≤ bn ∧ bn * BSIZE < i_size x ∧ file_addr v x bn = Some b.

(** No block of the file is used twice. *)
Record file_distinct (v : Z → option block) (x : inode) : Prop := {
  fd_blocks : ∀ bn bn' a, 0 ≤ bn → 0 ≤ bn' → bn * BSIZE < i_size x → bn' * BSIZE < i_size x →
    file_addr v x bn = Some a → file_addr v x bn' = Some a → bn = bn';
  fd_indirect : ∀ a, NDIRECT * BSIZE < i_size x → i_addrs x !! Z.to_nat NDIRECT = Some a → ¬ data_block v x a
}.

(** The number of blocks that [n] bytes at [off] touch. *)
Definition blocks_touched (off n : Z) : Z := if n <=? 0 then 0 else (off + n - 1) / BSIZE - off / BSIZE + 1.

Lemma touched_next off n c :
  0 ≤ off → 0 < n → c = Z.min n (BSIZE - off mod BSIZE) → blocks_touched (off + c) (n - c) + 1 ≤ blocks_touched off n.
Proof.
  unfold blocks_touched, BSIZE. intros Hoff Hn ->. rewrite (proj2 (Z.leb_gt n 0)) by lia.
  destruct (Z.leb_spec (n - Z.min n (512 - off mod 512)) 0); [lia|].
  rewrite Z.min_r in * by lia. replace (off + (512 - off mod 512) + (n - (512 - off mod 512)) - 1) with (off + n - 1) by lia. lia.
Qed.

Lemma touched_pos off n : 0 ≤ off → 0 < n → 1 ≤ blocks_touched off n.
Proof. unfold blocks_touched, BSIZE. intros. rewrite (proj2 (Z.leb_gt n 0)) by lia. lia. Qed.

Lemma touched_nonneg off n : 0 ≤ off → 0 ≤ blocks_touched off n.
Proof. unfold blocks_touched, BSIZE. intros. destruct (Z.leb_spec n 0); lia. Qed.

(** ** Writing into one block of the file *)
Section Block.
Context (v : Z → option block) (x : inode) (bn a : Z) (d d' : block).
Context (Hx : i_size x ≤ MAXFILE * BSIZE) (Hd : file_distinct v x).
Context (Hbn : 0 ≤ bn) (Hlt : bn * BSIZE < i_size x) (Ha : file_addr v x bn = Some a) (Hv : v a = Some d).

Lemma addr_write bn' : 0 ≤ bn' → bn' * BSIZE < i_size x → file_addr (upd v a d') x bn' = file_addr v x bn'.
Proof.
  intros H0 H1. unfold file_addr. destruct (Z.ltb_spec bn' NDIRECT); [done|].
  destruct (i_addrs x !! Z.to_nat NDIRECT) as [ia|] eqn:Hia; [|done]. cbn. unfold upd. rewrite decide_False; [done|].
  intros ->. eapply (fd_indirect _ _ Hd a); [unfold BSIZE in *; lia|done|]. exists bn. done.
Qed.

Lemma byte_write o : 0 ≤ o < i_size x →
  file_byte (upd v a d') x o = if decide (o / BSIZE = bn) then d' !! Z.to_nat (o mod BSIZE) else file_byte v x o.
Proof.
  intros Ho. unfold file_byte. rewrite addr_write by (unfold BSIZE; lia). case_decide as E.
  - rewrite E, Ha. cbn. unfold upd. by rewrite decide_True.
  - destruct (file_addr v x (o / BSIZE)) as [b|] eqn:Hb; [|done]. cbn. unfold upd. rewrite decide_False; [done|].
    intros ->. apply E. eapply (fd_blocks _ _ Hd); [| | | |exact Hb|exact Ha]; unfold BSIZE in *; lia.
Qed.

Lemma data_block_write b : data_block (upd v a d') x b ↔ data_block v x b.
Proof. unfold data_block. split; intros (bn' & ? & ? & E); exists bn'; (split_and!; [done..|]); by rewrite addr_write in *. Qed.

Lemma distinct_write : file_distinct (upd v a d') x.
Proof.
  split.
  - intros bn1 bn2 a' ? ? ? ?. rewrite !addr_write by done. by apply (fd_blocks _ _ Hd).
  - intros a' ? ?. rewrite data_block_write. by apply (fd_indirect _ _ Hd).
Qed.
End Block.

Lemma readable_write A b d a : readable A a → readable (write_to b d A) a.
Proof. done. Qed.

Lemma ready_write A x bn a d' :
  file_ready A x → file_distinct (vw A) x → 0 ≤ bn → bn * BSIZE < i_size x → file_addr (vw A) x bn = Some a →
  Z.of_nat (size (hd A)) + Z.of_nat (size ({[a]} ∪ dt A)) < NBUF → file_ready (write_to a d' A) x.
Proof.
  intros [] Hd Hbn Hlt Ha Hroom. split; try done. intros bn' H0 H1.
  destruct (fr_blocks0 bn' H0 H1) as (b & Hb & Hr). exists b. split; [|done].
  cbn. erewrite addr_write; [done..|exact Hbn|exact Hlt|exact Ha|done|done].
Qed.

Section Write.
Context (me : Z) (S : superblock) `{Devices}.
Context (C : list inode) (x : inode) (A0 : acache) (L0 : log) (src : list byte) (off n : Z).

(** What the loop of [writei] has written: [tot] bytes. *)
Record written (tot : Z) (A : acache) (L : log) : Prop := {
  wr_tot : 0 ≤ tot ≤ n;
  wr_ready : file_ready A x;
  wr_distinct : file_distinct (vw A) x;
  wr_bytes : ∀ o, 0 ≤ o < i_size x →
    file_byte (vw A) x o = if decide (off ≤ o < off + tot) then src !! Z.to_nat (o - off) else file_byte (vw A0) x o;
  wr_data : ∀ b, data_block (vw A) x b ↔ data_block (vw A0) x b;
  wr_other : ∀ b, ¬ data_block (vw A0) x b → vw A b = vw A0 b;
  wr_log : can_log L (blocks_touched (off + tot) (n - tot));
  wr_room : Z.of_nat (size (hd A)) + Z.of_nat (size (dt A)) + blocks_touched (off + tot) (n - tot) < NBUF;
  wr_disk : dk A = dk A0 ∧ hd A = hd A0 ∧ ws A = ws A0;
  wr_start : start L = start L0 ∧ lsize L = lsize L0;
  wr_tx : in_tx A0 L0 → (∀ b, data_block (vw A0) x b → outside_log L0 (Z.of_nat (length (dk A0))) b) →
          lh_n L0 + blocks_touched off n < LOGSIZE → lh_n L0 + blocks_touched off n < lsize L0 → Z.of_nat (length (dk A0)) ≤ 2 ^ 31 →
          in_tx A L ∧ lh_n L + blocks_touched (off + tot) (n - tot) ≤ lh_n L0 + blocks_touched off n
}.

Lemma writei_step_ok s ip A L tot :
  fabs me S C A L s → C !! ip = Some x → 0 ≤ off → off + n ≤ i_size x → Z.of_nat (length src) = n →
  written tot A L → tot < n →
  ∃ c A' L' s', writei_step me ip src n (off + tot, tot) s = Ok (inl (off + (tot + c), tot + c)) s' ∧ 0 < c ∧
    fabs me S C A' L' s' ∧ written (tot + c) A' L'.
Proof.
  intros HF Hx Hoff Hn Hsrc [] Hlt. unfold writei_step. rewrite (proj2 (Z.ltb_lt _ _)) by done. cbn [negb].
  rewrite (bind_ok _ _ _ _ _ (get_inode_ok me S C A L s ip x HF Hx)).
  destruct (bmap_ok me S C A L s ip x ((off + tot) / BSIZE) HF Hx wr_ready0) as (a & s1 & E1 & Ha & [Hr Hun] & HF1); [unfold BSIZE; lia..|].
  rewrite (bind_ok _ _ _ _ _ E1), (fr_dev _ _ wr_ready0).
  set (c := Z.min (n - tot) (BSIZE - (off + tot) mod BSIZE)).
  pose proof (touched_next (off + tot) (n - tot) c ltac:(lia) ltac:(lia) eq_refl) as Htouch.
  pose proof (touched_nonneg (off + tot + c) (n - tot - c)) as Hnn. pose proof (fr_room _ _ wr_ready0).
  assert (blocks_touched (off + (tot + c)) (n - (tot + c)) = blocks_touched (off + tot + c) (n - tot - c)) as Eb by (f_equal; lia).
  assert (0 < c ∧ c ≤ n - tot ∧ (off + tot) mod BSIZE + c ≤ 512 ∧ 0 ≤ (off + tot) mod BSIZE) as (Hc0 & Hc1 & Hc2 & Hc3)
    by (subst c; unfold BSIZE; lia).
  destruct (modify_block_ok me S C A L s1 a (λ d, put_bytes d ((off + tot) mod BSIZE) (sub_bytes src tot c)) HF1)
    as (d & s2 & E2 & Hv & Hl & HF2).
  { lia. } { done. } { by right. } { unfold can_log in *; lia. }
  { intros d Hl. apply length_put_bytes; [done|done|]. unfold sub_bytes. rewrite length_take, length_drop. lia. }
  assert (length (sub_bytes src tot c) = Z.to_nat c) as Hlen by (unfold sub_bytes; rewrite length_take, length_drop; lia).
  set (d' := put_bytes d _ _) in HF2. fold c.
  exists c, (write_to a d' A), (logged L a), s2. split_and!.
  - unfold bind in E2 |- *. destruct (read_block me 1 a s1) as [bp s3|]; [|done]. destruct (bdata bp s3) as [d1 s4|]; [|done].
    destruct (set_bdata bp _ s4) as [[] s5|]; [|done]. destruct (log_block bp s5) as [[] s6|]; [|done]. rewrite E2. cbn. do 3 f_equal. lia.
  - done.
  - exact HF2.
  - assert (Z.of_nat (size ({[a]} ∪ dt A)) ≤ Z.of_nat (size (dt A)) + 1) as Hsz by (rewrite size_add; case_decide; lia).
    assert (0 ≤ (off + tot) / BSIZE ∧ (off + tot) / BSIZE * BSIZE < i_size x) as [Hb0 Hb1] by (unfold BSIZE; lia).
    split; cbn [write_to vw dk ws dt hd].
    + lia.
    + eapply ready_write; [done..|exact Hb0|exact Hb1|exact Ha|lia].
    + eapply distinct_write; [done..|exact Hb0|exact Hb1|exact Ha].
    + intros o Ho. rewrite (byte_write (vw A) x _ a d' wr_distinct0 Hb0 Hb1 Ha o Ho), wr_bytes0 by done.
      unfold BSIZE in *. case_decide as E.
      * subst d'. rewrite lookup_put_bytes by lia. destruct (decide (off + tot ≤ o < off + tot + c)).
        -- rewrite decide_True by lia. rewrite lookup_sub_bytes by lia. rewrite decide_True by lia. f_equal. lia.
        -- rewrite decide_False by lia.
           transitivity (file_byte (vw A) x o); [unfold file_byte, BSIZE; rewrite E, Ha; cbn; by rewrite Hv|].
           rewrite wr_bytes0 by done. destruct (decide (off ≤ o < off + tot)); [by rewrite decide_True by lia|by rewrite decide_False by lia].
      * destruct (decide (off ≤ o < off + tot)); [by rewrite decide_True by lia|].
        rewrite decide_False; [done|]. intros ?. apply E. lia.
    + intros b. by rewrite (data_block_write (vw A) x _ a d' wr_distinct0 Hb0 Hb1 Ha).
    + intros b Hb. unfold upd. rewrite decide_False; [by apply wr_other0|]. intros ->. apply Hb, wr_data0. by exists ((off + tot) / BSIZE).
    + rewrite Eb. apply can_log_logged. unfold can_log in *. lia.
    + rewrite Eb. lia.
    + done.
    + unfold logged. by destruct (_ =? _).
    + intros H1 H2 H3 H3' H4. destruct (wr_tx0 H1 H2 H3 H3' H4) as [Htx Hle]. destruct wr_disk0 as (Hdk & _ & _), wr_start0 as [Hst Hlz].
      assert (outside_log L (Z.of_nat (length (dk A))) a) as Hout.
      { unfold outside_log. rewrite Hst, Hlz, Hdk. apply H2, wr_data0. by exists ((off + tot) / BSIZE). }
      split; [apply in_tx_write; [done|lia|lia| |done]; destruct Hout; rewrite Hdk in *; lia|].
      destruct (listed_logged A L a Htx) as (_ & -> & _). rewrite Eb. case_decide; lia.
Qed.

(** [writei] within the size of a file. *)
Lemma writei_ok s ip :
  fabs me S C A0 L0 s → C !! ip = Some x → file_ready A0 x → file_distinct (vw A0) x →
  0 ≤ off → off + n ≤ i_size x → Z.of_nat (length src) = n → can_log L0 (blocks_touched off n) →
  Z.of_nat (size (hd A0)) + Z.of_nat (size (dt A0)) + blocks_touched off n < NBUF →
  ∃ A' L' s', writei me ip src off s = Ok n s' ∧ fabs me S C A' L' s' ∧ written n A' L'.
Proof.
  intros HF Hx Hfr Hfd Hoff Hn Hsrc HL Hroom. pose proof (fr_size _ _ Hfr) as Hsz. unfold writei. rewrite Hsrc.
  rewrite (bind_ok _ _ _ _ _ (get_inode_ok me S C A0 L0 s ip x HF Hx)), (proj2 (Z.eqb_neq _ _) (fr_type _ _ Hfr)).
  unfold MAXFILE, NDIRECT, NINDIRECT, BSIZE in Hsz.
  rewrite (proj2 (Z.ltb_ge (i_size x) off)), (u32_small (off + n)), (proj2 (Z.ltb_ge (off + n) off)) by lia. cbn [orb].
  rewrite (proj2 (Z.ltb_ge (MAXFILE * BSIZE) (off + n))) by (unfold MAXFILE, NDIRECT, NINDIRECT, BSIZE; lia).
  assert (wp (loop (Datatypes.S (Z.to_nat n)) (writei_step me ip src n) (off, 0)) (λ r s', r = off + n ∧ ∃ A L',
     fabs me S C A L' s' ∧ written n A L') s) as Hw.
  { apply (wp_loop _ (λ l s', l.1 = off + l.2 ∧ ∃ A L', fabs me S C A L' s' ∧ written l.2 A L') (λ l, Z.to_nat (n - l.2))).
    - split; [cbn; lia|]. exists A0, L0. split; [done|]. cbn. split; rewrite ?Z.add_0_r, ?Z.sub_0_r; try done; [lia|].
      intros o Ho. by rewrite decide_False by lia.
    - cbn. lia.
    - intros [o tot] s1 (Ho & A & L1 & HF1 & Hwr). cbn [fst snd] in *. subst o.
      destruct (decide (tot < n)) as [Hlt|Hge].
      + destruct (writei_step_ok s1 ip A L1 tot HF1 Hx Hoff Hn Hsrc Hwr Hlt) as (c & A2 & L2 & s2 & E2 & Hc & HF2 & Hwr2).
        unfold wp. rewrite E2. cbn [fst snd]. split; [split; [done|by exists A2, L2]|lia].
      + assert (tot = n) as -> by (destruct Hwr; lia). unfold writei_step, wp. rewrite Z.ltb_irrefl. cbn.
        split; [done|]. by exists A, L1. }
  apply wp_ok in Hw as (r & s1 & E1 & -> & A' & L' & HF' & Hwr). rewrite (bind_ok _ _ _ _ _ E1).
  rewrite (bind_ok _ _ _ _ _ (get_inode_ok me S C A' L' s1 ip x HF' Hx)). rewrite (proj2 (Z.ltb_ge (i_size x) _)) by lia.
  rewrite andb_false_r. erewrite bind_ok by reflexivity. by exists A', L', s1.
Qed.

(** [writei] within the size of a file stores the bytes of the buffer there, in
    the current transaction, and keeps the rest of the file and every block that
    is not of the file. *)
Theorem writei_overwrites s ip :
  fabs me S C A0 L0 s → C !! ip = Some x → file_ready A0 x → file_distinct (vw A0) x →
  0 ≤ off → off + n ≤ i_size x → Z.of_nat (length src) = n → can_log L0 (blocks_touched off n) →
  Z.of_nat (size (hd A0)) + Z.of_nat (size (dt A0)) + blocks_touched off n < NBUF →
  ∃ A' L' s', writei me ip src off s = Ok n s' ∧ fabs me S C A' L' s' ∧ file_ready A' x ∧
    (∀ o, 0 ≤ o < i_size x →
       file_byte (vw A') x o = if decide (off ≤ o < off + n) then src !! Z.to_nat (o - off) else file_byte (vw A0) x o) ∧
    (∀ b, ¬ data_block (vw A0) x b → vw A' b = vw A0 b) ∧ dk A' = dk A0 ∧ hd A' = hd A0.
Proof.
  intros HF Hx Hfr Hfd Hoff Hn Hsrc HL Hroom.
  destruct (writei_ok s ip HF Hx Hfr Hfd Hoff Hn Hsrc HL Hroom) as (A' & L' & s' & E & HF' & []).
  exists A', L', s'. destruct wr_disk0 as (? & ? & _). split_and!; done.
Qed.

(** Reading back the range gives what was written. *)
Theorem writei_readi_roundtrip s ip :
  fabs me S C A0 L0 s → C !! ip = Some x → file_ready A0 x → file_distinct (vw A0) x →
  0 ≤ off → off + n ≤ i_size x → Z.of_nat (length src) = n → can_log L0 (blocks_touched off n) →
  Z.of_nat (size (hd A0)) + Z.of_nat (size (dt A0)) + blocks_touched off n < NBUF →
  ∃ s', (let! _ := writei me ip src off in readi me ip off n) s = Ok (n, src) s'.
Proof.
  intros HF Hx Hfr Hfd Hoff Hn Hsrc HL Hroom. pose proof (fr_size _ _ Hfr) as Hsz. unfold MAXFILE, NDIRECT, NINDIRECT, BSIZE in Hsz.
  destruct (writei_ok s ip HF Hx Hfr Hfd Hoff Hn Hsrc HL Hroom) as (A' & L' & s1 & E1 & HF1 & [_ Hfr1 _ Hb _ _ _ _ _ _ _]).
  rewrite (bind_ok _ _ _ _ _ E1).
  pose proof (readi_ok me S C A' L' s1 ip x off n HF1 Hx Hfr1 ltac:(lia) ltac:(lia) ltac:(lia)) as Hr.
  rewrite Z.min_l in Hr by lia. destruct Hr as (bytes & s2 & E2 & _ & Hlen & Hbytes). exists s2. rewrite E2. do 2 f_equal.
  apply list_eq. intros k. destruct (decide (Z.of_nat k < n)).
  - specialize (Hbytes (Z.of_nat k) ltac:(lia)). rewrite Nat2Z.id in Hbytes. rewrite Hbytes, Hb by lia.
    rewrite decide_True by lia. f_equal. lia.
  - rewrite !lookup_ge_None_2 by lia. done.
Qed.

End Write.
End FsysWrite.
