(* ===== verification/FsysExtend.v ===== *)
(** FsysExtend: [writei] (p4/xv6-public/fs.c) in general: it overwrites, allocates
    blocks and makes the file longer, all within the current transaction. *)
From Stdlib Require Import Strings.Byte.
From S2P Require Import Prelude Memory Bio BioInv Log LogInv Fsys FsysInv FsysTx FsysAlloc FsysFile FsysTree FsysGrow FsysWrite.
From stdpp Require Import gmap.
Local Open Scope Z_scope.

Module FsysExtend.
Import Bio BioInv Log LogInv Fsys FsysInv FsysTx FsysAlloc FsysWrote FsysFile FsysTree FsysGrow FsysWrite.

Section Bmap.
Context (me : Z) (ks : gset Z) (S : superblock) (Hks : ∀ n, n ∈ ks → is_node n).

(** [bmap] finds the block, or allocates it, and the indirect block if needed. *)
Lemma bmap_grow C A L s ip x bn :
  fabs me S C A L s → C !! ip = Some x → fstate S A x → 0 ≤ bn < MAXFILE → bn ∈ ks → (NDIRECT ≤ bn → INDIRECT ∈ ks) →
  enough ks S A L x 5 →
  ∃ a x' A' L' s' n, bmap me ip bn s = Ok a s' ∧ fabs me S (<[ip := x']> C) A' L' s' ∧ fstate S A' x' ∧
    extends ks S A L x n A' L' x' ∧ n ≤ 5 ∧ node_addr (vw A') x' bn = a ∧ a ≠ 0 ∧
    (node_addr (vw A) x bn ≠ 0 → A' = A ∧ x' = x ∧ n = 0).
Proof.
  intros HF Hx Hfs Hbn Hin Hind Hen. pose proof (tr_len _ _ _ (fs_tree _ _ _ Hfs)) as Hl.
  unfold bmap. rewrite (bind_ok _ _ _ _ _ (get_inode_ok me S C A L s ip x HF Hx)). destruct (Z.ltb_spec bn NDIRECT) as [Hd|Hd].
  - rewrite (lookup_addr x bn) by (done || (unfold NDIRECT in *; lia)). cbn [of_opt]. rewrite bind_ret_l. fold (bmap_slot me ip x bn).
    assert (slot_node bn = bn) as Hsl by (unfold slot_node; by rewrite (proj2 (Z.eqb_neq _ _)) by lia).
    destruct (bmap_slot_ok me ks S Hks C A L s ip x bn HF Hx Hfs) as (a & x' & A' & L' & s' & n & E & HF' & Hfs' & Hex & Hn & Ha & Hne & Hsame);
      [unfold NDIRECT in *; lia|by rewrite Hsl|eapply enough_less; [done|lia]|].
    rewrite Hsl in *. exists a, x', A', L', s', n. split_and!; try done; [lia|]. intros H0. by destruct (Hsame H0) as (? & ? & ? & ?).
  - unfold MAXFILE in Hbn. rewrite (proj2 (Z.ltb_lt (bn - NDIRECT) NINDIRECT)) by lia.
    rewrite (lookup_addr x NDIRECT) by done. cbn [of_opt]. rewrite bind_ret_l. fold (bmap_slot me ip x NDIRECT).
    destruct (bmap_slot_ok me ks S Hks C A L s ip x NDIRECT HF Hx Hfs) as (ia & x1 & A1 & L1 & s1 & n & E1 & HF1 & Hfs1 & Hex1 & Hn1 & Ha1 & Hne1 & Hsame1);
      [done|by apply Hind|eapply enough_less; [done|lia]|].
    change (node_addr (vw A1) x1 (slot_node NDIRECT)) with (addr_at x1 NDIRECT) in Ha1. subst ia.
    destruct (bmap_entry_ok me ks S Hks (<[ip := x1]> C) A1 L1 s1 x1 bn HF1 Hfs1 Hne1) as (a & A2 & L2 & s2 & m & E2 & HF2 & Hfs2 & Hex2 & Hn2 & Ha2 & Hne2 & Hsame2);
      [unfold MAXFILE; lia|done|by apply Hind|eapply (extends_enough ks); [exact Hex1|]; eapply enough_less; [done|lia]|].
    exists a, x1, A2, L2, s2, (n + m). split_and!; try done; [| |lia|].
    + rewrite (bind_ok _ _ _ _ _ E1). unfold bmap_entry in E2. rewrite (fs_dev _ _ _ Hfs1) in E2. rewrite (fs_dev _ _ _ Hfs). exact E2.
    + eapply (extends_trans ks S Hks); [exact Hfs1|exact Hfs2|exact Hex1|exact Hex2].
    + intros H0. assert (addr_at x NDIRECT ≠ 0) as Hia.
      { intros E0. apply H0. unfold node_addr, INDIRECT, NDIRECT in *. rewrite (proj2 (Z.eqb_neq bn (-1))), (proj2 (Z.ltb_ge bn 12)) by lia.
        by rewrite E0. }
      destruct (Hsame1 Hia) as (-> & -> & -> & ->). by destruct (Hsame2 H0) as (-> & -> & ->).
Qed.
End Bmap.

(** ** Contents *)
Section Contents.
Context (me : Z) (S : superblock).

(** The first [e] bytes of the file have blocks. *)
Definition covered (v : Z → option block) (x : inode) (e : Z) : Prop := ∀ bn, 0 ≤ bn → bn * BSIZE < e → node_addr v x bn ≠ 0.

Lemma file_addr_node C A L s x bn :
  fabs me S C A L s → fstate S A x → 0 ≤ bn < MAXFILE → node_addr (vw A) x bn ≠ 0 →
  file_addr (vw A) x bn = Some (node_addr (vw A) x bn).
Proof.
  intros HF [_ Hsp Ht] Hbn Hne. pose proof (tr_len _ _ _ Ht) as Hl. pose proof (ly_size _ _ (sp_layout _ _ _ Hsp)).
  unfold MAXFILE, NINDIRECT, NDIRECT, BSIZE in Hbn. unfold file_addr. destruct (Z.ltb_spec bn NDIRECT) as [Hd|Hd].
  - rewrite lookup_addr by (done || (unfold NDIRECT in *; lia)). unfold node_addr, INDIRECT.
    by rewrite (proj2 (Z.eqb_neq bn (-1))), (proj2 (Z.ltb_lt bn NDIRECT)) by lia.
  - unfold node_addr, INDIRECT, NDIRECT in *. rewrite (lookup_addr x 12) by done. cbn [mbind option_bind].
    rewrite (proj2 (Z.eqb_neq bn (-1))), (proj2 (Z.ltb_ge bn 12)) in * by lia.
    destruct (Z.eqb_spec (addr_at x 12) 0) as [E|Hia]; [done|].
    destruct (tr_own _ _ _ Ht INDIRECT ltac:(done) Hia) as (Hr & _). change (node_addr (vw A) x INDIRECT) with (addr_at x 12) in Hr.
    destruct (view_some me (base s) A L (addr_at x 12) (proj1 HF)) as [d Hd']; [lia|]. by rewrite Hd'.
Qed.

Lemma file_byte_node C A L s x o :
  fabs me S C A L s → fstate S A x → 0 ≤ o < MAXFILE * BSIZE → node_addr (vw A) x (o / BSIZE) ≠ 0 →
  file_byte (vw A) x o = d ← vw A (node_addr (vw A) x (o / BSIZE)); d !! Z.to_nat (o mod BSIZE).
Proof.
  intros HF Hfs Ho Hne. unfold file_byte. rewrite (file_addr_node C A L s) by (done || (unfold BSIZE in *; lia)). done.
Qed.

(** A change of the data of block [bn] of the file. *)
Lemma write_node A x bn d :
  fstate S A x → 0 ≤ bn < MAXFILE → node_addr (vw A) x bn ≠ 0 →
  let a := node_addr (vw A) x bn in
  (∀ n, is_node n → node_addr (vw (write_to a d A)) x n = node_addr (vw A) x n) ∧
  (∀ c, 0 ≤ c < sb_size S → is_free (vw (write_to a d A)) S c = is_free (vw A) S c).
Proof.
  intros [_ _ Ht] Hbn Hne a. assert (is_node bn) as Hn by (unfold is_node, INDIRECT; lia).
  destruct (tr_own _ _ _ Ht bn Hn Hne) as (_ & _ & Hnb). split.
  - intros n _. apply node_addr_ext. intros Hia. cbn. unfold upd. rewrite decide_False; [done|]. intros E.
    assert (INDIRECT = bn) as E'; [|unfold INDIRECT in *; lia]. by apply (tr_inj _ _ _ Ht).
  - intros c Hc. unfold is_free. cbn. unfold upd. rewrite decide_False; [done|]. intros E. apply Hnb. by exists c.
Qed.

Lemma write_node_fstate ks A x bn d :
  fstate S A x → 0 ≤ bn < MAXFILE → node_addr (vw A) x bn ≠ 0 → (∀ n, n ∈ ks → is_node n) →
  let a := node_addr (vw A) x bn in
  fstate S (write_to a d A) x ∧ grows ks S (vw A) x (vw (write_to a d A)) x.
Proof.
  intros Hfs Hbn Hne Hks a. destruct (write_node A x bn d Hfs Hbn Hne) as [Hn Hf]. destruct Hfs as [Hdev Hsp Ht].
  destruct (grows_ext ks S (vw A) x (vw (write_to a d A)) x Ht Hn Hf Hks (tr_len _ _ _ Ht)) as [Ht2 Hg]. split; [|done].
  split; [done| |done]. eapply space_ext; [|exact Hsp]. intros c Hc E. by rewrite Hf.
Qed.

Lemma byte_after_write ks C A L s x C1 A1 L1 s1 x1 m C2 L2 s2 bn d o :
  let a := node_addr (vw A1) x1 bn in
  fabs me S C A L s → fstate S A x → fabs me S C1 A1 L1 s1 → fstate S A1 x1 → extends ks S A L x m A1 L1 x1 →
  fabs me S C2 (write_to a d A1) L2 s2 → (∀ n, n ∈ ks → is_node n) → 0 ≤ bn < MAXFILE → a ≠ 0 → 0 ≤ o < MAXFILE * BSIZE →
  (o / BSIZE = bn → file_byte (vw (write_to a d A1)) x1 o = d !! Z.to_nat (o mod BSIZE)) ∧
  (o / BSIZE ≠ bn → node_addr (vw A) x (o / BSIZE) ≠ 0 → file_byte (vw (write_to a d A1)) x1 o = file_byte (vw A) x o).
Proof.
  intros a HF Hfs HF1 Hfs1 [Hg _ Hdata _ _] HF2 Hks Hbn Ha Ho.
  destruct (write_node A1 x1 bn d Hfs1 Hbn Ha) as [Hn _]. destruct (write_node_fstate ks A1 x1 bn d Hfs1 Hbn Ha Hks) as [Hfs2 _].
  fold a in Hn, Hfs2. assert (0 ≤ o / BSIZE < MAXFILE) as Hr by (unfold BSIZE in *; lia).
  assert (is_node (o / BSIZE) ∧ is_node bn) as [Hno Hnb] by (unfold is_node, INDIRECT; lia). split.
  - intros E. rewrite (file_byte_node C2 _ L2 s2), Hn, E by (done || (rewrite Hn, E by (by rewrite ?E); done)).
    fold a. cbn. unfold upd. by rewrite decide_True.
  - intros E Hne. pose proof (gr_keep _ _ _ _ _ _ Hg _ Hno Hne) as Hk.
    rewrite (file_byte_node C2 _ L2 s2), Hn, Hk by (done || (rewrite Hn, Hk by done; done)). rewrite (file_byte_node C A L s) by done.
    cbn [write_to vw]. unfold upd. rewrite decide_False; [by rewrite Hdata|].
    intros E2. apply E. apply (tr_inj _ _ _ (fs_tree _ _ _ Hfs1)); [done|done| |]; rewrite Hk; [done|exact E2].
Qed.
End Contents.

(** ** The loop of [writei] *)
Section Write.
Context (me : Z) (S : superblock) `{Devices}.
Context (C : list inode) (x : inode) (A0 : acache) (L0 : log) (ip : nat) (src : list byte) (off n : Z).

(** The nodes that writing [n] bytes at [off] needs. *)
Definition nodes_of : gset Z :=
  let bns := seqZ (off / BSIZE) (blocks_touched off n) in
  list_to_set (if NDIRECT <? off / BSIZE + blocks_touched off n then INDIRECT :: bns else bns).

(** The file after [tot] bytes. *)
Record progress (tot : Z) (A : acache) (L : log) (x' : inode) : Prop := {
  pg_tot : 0 ≤ tot ≤ n;
  pg_state : fstate S A x';
  pg_inode : x' = with_addrs (i_addrs x') x ∧ (off + tot ≤ i_size x → x' = x);
  pg_grows : grows nodes_of S (vw A0) x (vw A) x';
  pg_cover : covered (vw A) x' (Z.max (i_size x) (off + tot));
  pg_bytes : ∀ o, 0 ≤ o < Z.max (i_size x) (off + tot) →
    file_byte (vw A) x' o = if decide (off ≤ o < off + tot) then src !! Z.to_nat (o - off) else file_byte (vw A0) x o;
  pg_wrote : ∃ m, wrote (file_space S (vw A0) x) A0 L0 m A L ∧
    m + 6 * blocks_touched (off + tot) (n - tot) ≤ 6 * blocks_touched off n;
  pg_dirty : ∀ b, b ∈ dt A → b ∈ dt A0 ∨ node_block nodes_of S (vw A) x' b;
  pg_enough : enough nodes_of S A L x' (6 * blocks_touched (off + tot) (n - tot) + 1)
}.

Lemma nodes_of_node b : 0 ≤ off → off + n ≤ MAXFILE * BSIZE → b ∈ nodes_of → is_node b.
Proof.
  unfold nodes_of, is_node, INDIRECT, MAXFILE, NINDIRECT, NDIRECT, blocks_touched, BSIZE. intros Hoff Hn.
  rewrite elem_of_list_to_set. intros Hin. destruct (n <=? 0) eqn:En.
  - rewrite seqZ_nil in Hin by lia. destruct (12 <? _); [|by apply elem_of_nil in Hin]. apply list_elem_of_singleton in Hin as ->. lia.
  - apply Z.leb_gt in En. destruct (12 <? _); [apply elem_of_cons in Hin as [->|Hin]; [lia|]|]; apply elem_of_seqZ in Hin; lia.
Qed.

Lemma nodes_of_block tot : 0 ≤ off → 0 ≤ tot < n → (off + tot) / BSIZE ∈ nodes_of.
Proof.
  intros Hoff Ht. unfold nodes_of. rewrite elem_of_list_to_set.
  assert ((off + tot) / BSIZE ∈ seqZ (off / BSIZE) (blocks_touched off n)) as Hin.
  { apply elem_of_seqZ. unfold blocks_touched, BSIZE. rewrite (proj2 (Z.leb_gt n 0)) by lia. lia. }
  destruct (_ <? _); [by right|done].
Qed.

Lemma nodes_of_indirect tot : 0 ≤ off → 0 ≤ tot < n → NDIRECT ≤ (off + tot) / BSIZE → INDIRECT ∈ nodes_of.
Proof.
  intros Hoff Ht Hi. unfold nodes_of. rewrite elem_of_list_to_set.
  rewrite (proj2 (Z.ltb_lt _ _)); [by left|]. unfold blocks_touched, BSIZE, NDIRECT in *. rewrite (proj2 (Z.leb_gt n 0)) by lia. lia.
Qed.

Context (Hip : (ip < length C)%nat) (Hoff : 0 ≤ off ≤ i_size x) (Hsize : i_size x ≤ MAXFILE * BSIZE).
Context (Hend : off + n ≤ MAXFILE * BSIZE) (Hsrc : Z.of_nat (length src) = n).

(** The part of a block that a turn of the loop writes. *)
Section Part.
Context (tot : Z) (Htot : 0 ≤ tot < n).
Let c := Z.min (n - tot) (BSIZE - (off + tot) mod BSIZE).

Lemma part_block : 0 ≤ (off + tot) / BSIZE < MAXFILE ∧ is_node ((off + tot) / BSIZE).
Proof. assert (0 ≤ (off + tot) / BSIZE < MAXFILE) by (unfold BSIZE in *; lia). unfold is_node, INDIRECT. lia. Qed.

Lemma part_count : 0 < c ∧ c ≤ n - tot ∧ (off + tot) mod BSIZE + c ≤ 512 ∧ 0 ≤ (off + tot) mod BSIZE.
Proof. subst c. unfold BSIZE. lia. Qed.

Lemma part_length : Z.of_nat (length (sub_bytes src tot c)) = c.
Proof.
  pose proof part_count as (H1 & H2 & _). clear -H1 H2 Htot Hsrc. clearbody c. unfold sub_bytes. rewrite length_take, length_drop. lia.
Qed.
End Part.

(** One turn of the loop: the block has been found or allocated, and is changed. *)
Section Turn.
Context (s s1 s2 : fsys) (A A1 : acache) (L L1 L2 : log) (tot m : Z) (x' x1 : inode) (d : block).
Let bn := (off + tot) / BSIZE.
Let c := Z.min (n - tot) (BSIZE - (off + tot) mod BSIZE).
Let a := node_addr (vw A1) x1 bn.
Let d' := put_bytes d ((off + tot) mod BSIZE) (sub_bytes src tot c).
Context (Hlt : tot < n) (Hpg : progress tot A L x').
Context (HF : fabs me S (<[ip := x']> C) A L s) (HF1 : fabs me S (<[ip := x1]> C) A1 L1 s1).
Context (HF2 : fabs me S (<[ip := x1]> C) (write_to a d' A1) L2 s2).
Context (Hst1 : fstate S A1 x1) (Hex : extends nodes_of S A L x' m A1 L1 x1) (Ha : a ≠ 0).
Context (Hsame : node_addr (vw A) x' bn ≠ 0 → A1 = A ∧ x1 = x' ∧ m = 0) (Hv : vw A1 a = Some d) (Hl : length d = 512%nat).

Lemma turn_tot : 0 ≤ tot < n.
Proof. split; [apply (pg_tot _ _ _ _ Hpg)|done]. Qed.
Lemma turn_block : 0 ≤ bn < MAXFILE ∧ is_node bn.
Proof. exact (part_block tot turn_tot). Qed.
Lemma turn_count : 0 < c ∧ c ≤ n - tot ∧ (off + tot) mod BSIZE + c ≤ 512 ∧ 0 ≤ (off + tot) mod BSIZE.
Proof. exact (part_count tot turn_tot). Qed.
Lemma turn_length : Z.of_nat (length (sub_bytes src tot c)) = c.
Proof. exact (part_length tot turn_tot). Qed.

Lemma turn_nodes : ∀ k, k ∈ nodes_of → is_node k.
Proof. exact (λ k, nodes_of_node k (proj1 Hoff) Hend). Qed.

(** A byte of another block was there before. *)
Lemma turn_old o : 0 ≤ o < Z.max (i_size x) (off + (tot + c)) → o / BSIZE ≠ bn →
  node_addr (vw A) x' (o / BSIZE) ≠ 0 ∧ o < Z.max (i_size x) (off + tot).
Proof.
  intros Ho Hob. pose proof turn_count. assert (o < Z.max (i_size x) (off + tot)) as Ho2.
  { destruct (Z.lt_ge_cases o (Z.max (i_size x) (off + tot))); [done|]. exfalso. apply Hob. subst bn. unfold BSIZE in *. lia. }
  split; [|done]. apply (pg_cover _ _ _ _ Hpg); unfold BSIZE in *; lia.
Qed.

Lemma turn_state : fstate S (write_to a d' A1) x1 ∧ grows nodes_of S (vw A0) x (vw (write_to a d' A1)) x1.
Proof.
  destruct turn_block as [Hbn _]. destruct (write_node_fstate S nodes_of A1 x1 bn d' Hst1 Hbn Ha turn_nodes) as [Hst2 Hg2].
  split; [done|]. eapply grows_trans; [apply (pg_state _ _ _ _ Hpg)|apply Hst2|apply Hpg|].
  eapply grows_trans; [apply Hst1|apply Hst2|apply Hex|exact Hg2].
Qed.

Lemma turn_inode : x1 = with_addrs (i_addrs x1) x ∧ (off + (tot + c) ≤ i_size x → x1 = x).
Proof.
  destruct Hpg as [_ _ [Hi1 Hi2] _ Hcov _ _ _ _]. pose proof turn_count. pose proof turn_block. split.
  - rewrite (ex_inode _ _ _ _ _ _ _ _ _ Hex) at 1. by rewrite Hi1.
  - intros Hsz. rewrite <- Hi2 by lia. apply Hsame, Hcov; [lia|]. subst bn. unfold BSIZE in *. lia.
Qed.

Lemma turn_cover : covered (vw (write_to a d' A1)) x1 (Z.max (i_size x) (off + (tot + c))).
Proof.
  intros b Hb0 Hb1. destruct turn_block as [Hbn _]. destruct (write_node S A1 x1 bn d' Hst1 Hbn Ha) as [Hnode _].
  assert (b < MAXFILE) as Hb by (pose proof turn_count; unfold BSIZE in *; lia). fold a in Hnode.
  rewrite Hnode by (unfold is_node, INDIRECT; lia). destruct (decide (b = bn)) as [->|Hne]; [done|].
  destruct (turn_old (b * BSIZE)) as [Hold _]; [unfold BSIZE in *; lia|by rewrite Z.div_mul|]. rewrite Z.div_mul in Hold by done.
  by rewrite (gr_keep _ _ _ _ _ _ (ex_grows _ _ _ _ _ _ _ _ _ Hex)) by (unfold is_node, INDIRECT; lia || done).
Qed.

(** The rest of the block is as it was. *)
Lemma turn_rest o : 0 ≤ o < Z.max (i_size x) (off + tot) → o / BSIZE = bn →
  d !! Z.to_nat (o mod BSIZE) = if decide (off ≤ o < off + tot) then src !! Z.to_nat (o - off) else file_byte (vw A0) x o.
Proof.
  intros Ho E. destruct turn_block as [Hbn _]. assert (node_addr (vw A) x' bn ≠ 0) as Hne.
  { rewrite <- E. apply (pg_cover _ _ _ _ Hpg); unfold BSIZE in *; lia. }
  destruct (Hsame Hne) as (EA & Ex & _). rewrite <- (pg_bytes _ _ _ _ Hpg o Ho).
  rewrite (file_byte_node me S _ A L s x' o HF (pg_state _ _ _ _ Hpg)); [| |by rewrite E].
  - rewrite E. subst a. rewrite EA, Ex in Hv. by rewrite Hv.
  - split; [lia|]. assert (o / BSIZE < MAXFILE) by (rewrite E; apply Hbn). unfold BSIZE in *. lia.
Qed.

Lemma turn_bytes o : 0 ≤ o < Z.max (i_size x) (off + (tot + c)) →
  file_byte (vw (write_to a d' A1)) x1 o =
    if decide (off ≤ o < off + (tot + c)) then src !! Z.to_nat (o - off) else file_byte (vw A0) x o.
Proof.
  intros Ho. destruct turn_block as [Hbn _]. pose proof turn_count as (Hc0 & Hc1 & Hc2 & Hc3). pose proof (pg_tot _ _ _ _ Hpg) as Htot.
  assert (0 ≤ o < MAXFILE * BSIZE) as Hor by (unfold BSIZE in *; lia). pose proof turn_length as Hlen.
  destruct (byte_after_write me S nodes_of _ A L s x' _ A1 L1 s1 x1 m _ L2 s2 bn d' o HF (pg_state _ _ _ _ Hpg) HF1 Hst1 Hex HF2 turn_nodes Hbn Ha Hor) as [Hin Hout].
  fold a in Hin, Hout. assert (off + tot = bn * BSIZE + (off + tot) mod BSIZE) as Ht by (pose proof (Z.div_mod (off + tot) BSIZE ltac:(done)); subst bn; lia).
  pose proof (Z.div_mod o BSIZE ltac:(done)) as Eo. pose proof (Z.mod_pos_bound o BSIZE ltac:(done)) as Hq.
  destruct (decide (o / BSIZE = bn)) as [E|E].
  - rewrite Hin by done. pose proof (turn_rest o) as Hrest. rewrite E in Eo. subst d'.
    rewrite (lookup_put_bytes d Hl); [|done|by rewrite Hlen]. clear Hin Hout HF HF1 HF2 Hex Hsame Hst1 Hpg. clearbody c bn a.
    unfold BSIZE in *. set (p := (off + tot) mod 512) in *. set (q := o mod 512) in *. clearbody p q.
    destruct (decide (off + tot ≤ o < off + tot + c)) as [Hr|Hr].
    + rewrite !decide_True by lia. rewrite lookup_sub_bytes by lia. f_equal. lia.
    + rewrite decide_False by lia. rewrite Hrest by lia. destruct (decide (off ≤ o < off + tot)); [by rewrite decide_True by lia|by rewrite decide_False by lia].
  - destruct (turn_old o Ho E) as [Hne Ho2]. rewrite Hout, (pg_bytes _ _ _ _ Hpg) by (done || lia).
    assert (¬ (off + tot ≤ o < off + tot + c)) as Hr.
    { intros Hr. apply E. clear -Hr Hc2 Hc3 Ht Eo Hq. clearbody c bn. unfold BSIZE in *. set (p := (off + tot) mod 512) in *. set (q := o mod 512) in *.
      clearbody p q. lia. }
    clear -Hr Htot Hc0. destruct (decide (off ≤ o < off + tot)); [by rewrite decide_True by lia|by rewrite decide_False by lia].
Qed.

(** The turn as a whole. *)
Lemma turn_progress : L2 = logged L1 a → m ≤ 5 → progress (tot + c) (write_to a d' A1) L2 x1.
Proof.
  intros HL2 Hm. destruct turn_state as [Hst2 Hg2]. pose proof turn_count as (Hc0 & Hc1 & _ & _).
  destruct turn_block as [Hbn _]. destruct (write_node_fstate S nodes_of A1 x1 bn d' Hst1 Hbn Ha turn_nodes) as [_ Hg1]. fold a in Hg1.
  destruct Hpg as [Htot Hst Hi Hg Hcov Hbytes (m0 & Hw0 & Hm0) Hdt Hen].
  pose proof (touched_next (off + tot) (n - tot) c ltac:(clear -Hoff Htot; lia) ltac:(clear -Hlt; lia) eq_refl) as Htouch.
  replace (off + tot + c) with (off + (tot + c)) in Htouch by lia. replace (n - tot - c) with (n - (tot + c)) in Htouch by lia.
  set (T := blocks_touched (off + tot) (n - tot)) in *. set (T' := blocks_touched (off + (tot + c)) (n - (tot + c))) in *.
  assert (enough nodes_of S A1 L1 x1 (6 * T' + 1 + 1)) as [Hh1 Hfree1 Hlog1 Hroom1].
  { eapply extends_enough; [exact Hex|]. eapply enough_less; [exact Hen|]. clear -Hm Htouch. clearbody T T'. lia. }
  split; [clear -Htot Hc0 Hc1; clearbody c; lia|exact Hst2|apply turn_inode|exact Hg2|apply turn_cover|apply turn_bytes| | |].
  - exists (m0 + m + 1). subst L2. split; [|fold T'; clear -Hm0 Htouch Hm; clearbody T T'; lia]. constructor.
    + eapply wrote_trans; [exact Hw0|]. eapply wrote_mono; [|apply Hex]. intros b. by apply (file_space_back nodes_of).
    + eapply (file_space_back nodes_of); [exact Hg|]. eapply (file_space_back nodes_of); [apply Hex|]. right. right.
      split; [done|]. exists bn. split; [apply turn_block|done].
  - intros b. cbn [write_to dt]. rewrite elem_of_union, elem_of_singleton. intros [->|Hb].
    + right. right. split; [done|]. exists bn. split; [apply nodes_of_block; [apply Hoff|apply turn_tot]|].
      by apply (gr_keep _ _ _ _ _ _ Hg1); [apply turn_block|].
    + apply (ex_dirty _ _ _ _ _ _ _ _ _ Hex) in Hb as [Hb|Hb]; [apply Hdt in Hb as [Hb|Hb]|]; [by left|right..].
      * eapply (node_block_keep nodes_of S turn_nodes); [exact Hg1|]. eapply (node_block_keep nodes_of S turn_nodes); [apply Hex|done].
      * eapply (node_block_keep nodes_of S turn_nodes); [exact Hg1|done].
  - fold T'. subst L2. split; [done|by apply (gr_enough _ _ _ _ _ _ Hg1)|by apply can_log_logged|].
    cbn [write_to dt]. pose proof (size_add (dt A1) a) as Hsz. clear -Hroom1 Hsz. clearbody T'. case_decide; lia.
Qed.

End Turn.

(** One turn of the loop. *)
Lemma writei_step_grow s A L tot x' :
  fabs me S (<[ip := x']> C) A L s → progress tot A L x' → tot < n →
  ∃ c A' L' x'' s', writei_step me ip src n (off + tot, tot) s = Ok (inl (off + (tot + c), tot + c)) s' ∧ 0 < c ∧
    fabs me S (<[ip := x'']> C) A' L' s' ∧ progress (tot + c) A' L' x''.
Proof.
  intros HF Hpg Hlt. pose proof Hpg as [Htot Hst _ _ _ _ _ _ Hen].
  assert ((<[ip := x']> C) !! ip = Some x') as Hx' by (by apply list_lookup_insert_eq).
  destruct (part_block tot ltac:(lia)) as [Hbn Hnb]. pose proof (part_count tot ltac:(lia)) as (Hc0 & Hc1 & Hc2 & Hc3).
  assert (∀ k, k ∈ nodes_of → is_node k) as Hks by (intros k; apply nodes_of_node; lia).
  pose proof (touched_pos (off + tot) (n - tot) ltac:(lia) ltac:(lia)) as Htouch.
  unfold writei_step. rewrite (proj2 (Z.ltb_lt _ _)) by done. cbn [negb].
  rewrite (bind_ok _ _ _ _ _ (get_inode_ok me S _ A L s ip x' HF Hx')).
  destruct (bmap_grow me nodes_of S Hks _ A L s ip x' ((off + tot) / BSIZE) HF Hx' Hst Hbn) as
    (a & x1 & A1 & L1 & s1 & m & E1 & HF1 & Hst1 & Hex & Hm1 & Ha & Hne & Hsame).
  { apply nodes_of_block; lia. } { apply nodes_of_indirect; lia. } { eapply enough_less; [exact Hen|lia]. }
  rewrite list_insert_insert_eq in HF1. rewrite (bind_ok _ _ _ _ _ E1), (fs_dev _ _ _ Hst). subst a.
  assert (enough nodes_of S A1 L1 x1 1) as [Hh1 _ Hlog1 Hroom1] by (eapply extends_enough; [exact Hex|]; eapply enough_less; [exact Hen|lia]).
  destruct (tr_own _ _ _ (fs_tree _ _ _ Hst1) _ Hnb Hne) as (Har & _). pose proof (ly_size _ _ (sp_layout _ _ _ (fs_space _ _ _ Hst1))).
  pose proof (part_length tot ltac:(lia)) as Hlen. set (c := Z.min (n - tot) (BSIZE - (off + tot) mod BSIZE)) in *.
  destruct (modify_block_ok me S _ A1 L1 s1 (node_addr (vw A1) x1 ((off + tot) / BSIZE))
    (λ d, put_bytes d ((off + tot) mod BSIZE) (sub_bytes src tot c)) HF1) as (d & s2 & E2 & Hv & Hl & HF2).
  { lia. } { intros i d. by rewrite Hh1, lookup_empty. } { right. rewrite Hh1, map_size_empty. clear -Hroom1. lia. } { done. }
  { intros d Hl. apply length_put_bytes; [done|done|]. rewrite Hlen. done. }
  eexists c, _, _, x1, s2. split; [|split; [exact Hc0|split; [exact HF2|]]].
  - fold c. unfold bind in E2 |- *. destruct (read_block me 1 _ s1) as [bp s3|]; [|done]. destruct (bdata bp s3) as [d1 s4|]; [|done].
    destruct (set_bdata bp _ s4) as [[] s5|]; [|done]. destruct (log_block bp s5) as [[] s6|]; [|done]. rewrite E2. cbn. do 3 f_equal. lia.
  - by eapply (turn_progress s s1 s2 A A1 L L1 _ tot m x' x1 d).
Qed.

End Write.
End FsysExtend.
