(* ===== verification/FsysWritei.v ===== *)
(** FsysWritei: what a file is, and that [writei] (p4/xv6-public/fs.c) keeps it one:
    the contents, the size, the addresses, the bitmap and the copy of the inode on
    the disk agree again when it returns. *)
From Stdlib Require Import Strings.Byte.
From S2P Require Import Prelude Memory Bio BioInv Log LogInv Fsys FsysInv FsysTx FsysAlloc FsysFile FsysTree FsysGrow FsysWrite FsysExtend.
From stdpp Require Import gmap.
Local Open Scope Z_scope.

Module FsysWritei.
Import Bio BioInv Log LogInv Fsys FsysInv FsysTx FsysAlloc FsysWrote FsysFile FsysTree FsysGrow FsysWrite FsysExtend.

(** The block of the inode, and the place in it. *)
Definition home (S : superblock) (x : inode) : Z := IBLOCK (i_inum x) S.
Definition place (x : inode) : Z := i_inum x mod IPB * 64.

(** The copy of the inode on the disk is that in memory. *)
Definition stored (S : superblock) (v : Z → option block) (x : inode) : Prop :=
  ∃ d, v (home S x) = Some d ∧ length d = 512%nat ∧ sub_bytes d (place x) 64 = dinode_bytes x.

(** A file: its blocks are its own, all bytes up to its size have blocks, and its
    inode is on the disk, in a block that is no data block. *)
Record file_ok (S : superblock) (A : acache) (x : inode) : Prop := {
  fo_type : i_type x ≠ T_DEV;
  fo_state : fstate S A x;
  fo_size : 0 ≤ i_size x ≤ MAXFILE * BSIZE;
  fo_cover : covered (vw A) x (i_size x);
  fo_home : allocated S (vw A) (home S x) ∧ ∀ n, is_node n → node_addr (vw A) x n ≠ home S x;
  fo_stored : stored S (vw A) x
}.

Lemma file_ok_lock S A x l p : file_ok S A x → file_ok S A (set_i_lock l p x).
Proof. intros [? [? ? []] ? ? ? ?]. split; [done|split; [done|done|by split]|done..]. Qed.

Section Writei.
Context (me : Z) (S : superblock).

Lemma length_dinode x : length (i_addrs x) = 13%nat → length (dinode_bytes x) = 64%nat.
Proof.
  intros Hl. unfold dinode_bytes. rewrite !length_app, !length_le_encode.
  assert (length (concat (le_encode 4 <$> i_addrs x)) = 4 * length (i_addrs x))%nat as ->; [|by rewrite Hl].
  clear Hl. induction (i_addrs x) as [|a l IH]; [done|]. cbn [fmap list_fmap concat]. rewrite length_app, length_le_encode, IH. cbn. lia.
Qed.

Lemma place_range x : 0 ≤ place x ∧ place x + 64 ≤ 512.
Proof. unfold place, IPB, BSIZE. change (512 / 64) with 8. lia. Qed.

(** The inode goes to its place in the block. *)
Definition store_inode (x : inode) (d : block) : block := put_bytes d (place x) (dinode_bytes x).

Lemma iupdate_ok C A L s ip x :
  fabs me S C A L s → C !! ip = Some x → i_dev x = 1 → length (i_addrs x) = 13%nat →
  0 ≤ home S x < Z.of_nat (length (dk A)) → unheld A (home S x) → room A (home S x) → can_log L 1 →
  ∃ d s', iupdate me ip s = Ok tt s' ∧ vw A (home S x) = Some d ∧ length d = 512%nat ∧
    fabs me S C (write_to (home S x) (store_inode x d) A) (logged L (home S x)) s'.
Proof.
  intros HF Hx Hdev Hl Hr Hun Hroom HL. pose proof (length_dinode x Hl). pose proof (place_range x).
  destruct (modify_block_ok me S C A L s (home S x) (store_inode x) HF Hr Hun Hroom HL) as (d & s' & E & Hd & Hld & HF').
  { intros d Hd. apply length_put_bytes; [done|lia|lia]. }
  exists d, s'. split; [|done]. unfold iupdate.
  rewrite (bind_ok _ _ _ _ _ (sb_ok me S C A L s HF)), (bind_ok _ _ _ _ _ (get_inode_ok me S C A L s ip x HF Hx)), Hdev. exact E.
Qed.

Lemma stored_store A x d : length (i_addrs x) = 13%nat → length d = 512%nat → stored S (vw (write_to (home S x) (store_inode x d) A)) x.
Proof.
  intros Hl Hd. pose proof (length_dinode x Hl) as Hld. pose proof (place_range x). exists (store_inode x d). split_and!.
  - cbn. unfold upd. by rewrite decide_True.
  - apply length_put_bytes; [done|lia|lia].
  - unfold store_inode. pose proof (sub_put_eq d Hd (place x) (dinode_bytes x)) as E. rewrite Hld in E. apply E; lia.
Qed.

(** Changing the block of the inode keeps the file. *)
Lemma home_fstate ks A x d :
  fstate S A x → allocated S (vw A) (home S x) → (∀ n, is_node n → node_addr (vw A) x n ≠ home S x) → (∀ n, n ∈ ks → is_node n) →
  let A' := write_to (home S x) d A in
  fstate S A' x ∧ grows ks S (vw A) x (vw A') x ∧ (∀ n, is_node n → node_addr (vw A') x n = node_addr (vw A) x n) ∧
  ∀ o, file_addr (vw A') x (o / BSIZE) = file_addr (vw A) x (o / BSIZE).
Proof.
  intros [Hdev Hsp Ht] Hal Hno Hks A'. pose proof (tr_len _ _ _ Ht) as Hl.
  assert (∀ b, b ≠ home S x → vw A' b = vw A b) as Hv by (intros b Hb; cbn; unfold upd; by rewrite decide_False).
  assert (vw A' (addr_at x NDIRECT) = vw A (addr_at x NDIRECT)) as Hi by (apply Hv, (Hno INDIRECT); done).
  assert (∀ n, is_node n → node_addr (vw A') x n = node_addr (vw A) x n) as Hn by (intros n _; by apply node_addr_ext).
  assert (∀ c, 0 ≤ c < sb_size S → is_free (vw A') S c = is_free (vw A) S c) as Hf.
  { intros c Hc. unfold is_free. rewrite Hv; [done|]. intros E. apply Hal. by exists c. }
  destruct (grows_ext ks S (vw A) x (vw A') x Ht Hn Hf Hks Hl) as [Ht2 Hg]. split_and!; try done.
  - split; [done| |done]. eapply space_ext; [|exact Hsp]. intros c Hc E. by rewrite Hf.
  - intros o. unfold file_addr. destruct (_ <? _); [done|]. rewrite lookup_addr by done. cbn [mbind option_bind]. by rewrite Hi.
Qed.

(** The block of the inode while the file grows. *)
Lemma home_grows ks A x A' x' :
  fstate S A' x' → grows ks S (vw A) x (vw A') x' → i_inum x' = i_inum x →
  (allocated S (vw A) (home S x) ∧ ∀ n, is_node n → node_addr (vw A) x n ≠ home S x) →
  allocated S (vw A') (home S x') ∧ ∀ n, is_node n → node_addr (vw A') x' n ≠ home S x'.
Proof.
  intros [_ Hsp _] Hg Hi [Hal Hno]. assert (home S x' = home S x) as -> by (unfold home; by rewrite Hi). split.
  - eapply allocated_ext; [|exact Hal]. intros c Hc Hf. destruct (decide (c = 0)) as [->|]; [apply Hsp|].
    apply not_true_is_false. intros Ht. apply (gr_free _ _ _ _ _ _ Hg) in Ht as [Ht _]; [congruence|lia].
  - intros n Hn E. assert (node_addr (vw A') x' n ≠ 0) as Hne by (rewrite E; destruct Hal; lia).
    destruct (gr_new _ _ _ _ _ _ Hg n Hn Hne) as [Hold|[_ Hf]].
    + apply (Hno n Hn). by rewrite <- (gr_keep _ _ _ _ _ _ Hg).
    + rewrite E in Hf. destruct Hal as (_ & Hu & _). congruence.
Qed.

Lemma home_space A x : allocated S (vw A) (home S x) → (∀ n, is_node n → node_addr (vw A) x n ≠ home S x) → ¬ file_space S (vw A) x (home S x).
Proof. intros (_ & Hu & Hb) Hno [?|[[_ Hf]|(_ & n & Hn & E)]]; [done|congruence|by apply (Hno n)]. Qed.

Context `{Devices}.
Context (C : list inode) (x : inode) (A : acache) (L : log) (ip : nat) (src : list byte) (off : Z).
Let n := Z.of_nat (length src).

(** What [writei] has done to the file, by [m] changes of blocks. *)
Record after_write (m : Z) (A' : acache) (L' : log) (x' : inode) : Prop := {
  aw_ok : file_ok S A' x';
  aw_inode : x' = with_addrs (i_addrs x') (set_i_size (Z.max (i_size x) (off + n)) x);
  aw_bytes : ∀ o, 0 ≤ o < i_size x' →
    file_byte (vw A') x' o = if decide (off ≤ o < off + n) then src !! Z.to_nat (o - off) else file_byte (vw A) x o;
  aw_blocks : grows (nodes_of off n) S (vw A) x (vw A') x';
  aw_wrote : wrote (λ b, file_space S (vw A) x b ∨ b = home S x) A L m A' L' ∧ m ≤ 6 * blocks_touched off n + 1;
  aw_dirty : ∀ b, b ∈ dt A' → b ∈ dt A ∨ node_block (nodes_of off n) S (vw A') x' b ∨ b = home S x
}.

Context (Hx : C !! ip = Some x) (Hfo : file_ok S A x) (Hoff : 0 ≤ off ≤ i_size x) (Hend : off + n ≤ MAXFILE * BSIZE).

(** The loop of [writei]. *)
Lemma writei_loop s :
  fabs me S C A L s → enough (nodes_of off n) S A L x (6 * blocks_touched off n + 2) →
  ∃ A' L' x' s', loop (Datatypes.S (Z.to_nat n)) (writei_step me ip src n) (off, 0) s = Ok (off + n) s' ∧
    fabs me S (<[ip := x']> C) A' L' s' ∧ progress S x A L src off n n A' L' x'.
Proof.
  intros HF Hen. pose proof (fo_size _ _ _ Hfo) as Hsz. assert (ip < length C)%nat as Hip by (by eapply lookup_lt_Some).
  assert (wp (loop (Datatypes.S (Z.to_nat n)) (writei_step me ip src n) (off, 0)) (λ r s', r = off + n ∧ ∃ A' L' x',
     fabs me S (<[ip := x']> C) A' L' s' ∧ progress S x A L src off n n A' L' x') s) as Hw.
  { apply (wp_loop _ (λ l s', l.1 = off + l.2 ∧ ∃ A' L' x', fabs me S (<[ip := x']> C) A' L' s' ∧ progress S x A L src off n l.2 A' L' x')
      (λ l, Z.to_nat (n - l.2))).
    - split; [cbn; lia|]. exists A, L, x. rewrite list_insert_id by done. split; [done|]. cbn.
      split; rewrite ?Z.add_0_r, ?Z.sub_0_r; [lia|apply Hfo|by destruct x|eapply (ex_grows _ _ A L), extends_refl; [|apply Hfo]| | | |by left|].
      + intros k. apply nodes_of_node; lia.
      + rewrite Z.max_l by lia. apply Hfo.
      + intros o _. by rewrite decide_False by lia.
      + exists 0. split; [constructor|lia].
      + eapply enough_less; [done|lia].
    - cbn. lia.
    - intros [o tot] s1 (Ho & A1 & L1 & x1 & HF1 & Hpg). cbn [fst snd] in *. subst o. destruct (decide (tot < n)) as [Hlt|Hge].
      + destruct (writei_step_grow me S C x A L ip src off n Hip Hoff (proj2 Hsz) Hend eq_refl s1 A1 L1 tot x1 HF1 Hpg Hlt)
          as (c & A2 & L2 & x2 & s2 & E2 & Hc & HF2 & Hpg2).
        unfold wp. rewrite E2. cbn [fst snd]. split; [split; [done|by exists A2, L2, x2]|lia].
      + assert (tot = n) as -> by (destruct Hpg; lia). unfold writei_step, wp. rewrite Z.ltb_irrefl. cbn.
        split; [done|]. by exists A1, L1, x1. }
  apply wp_ok in Hw as (r & s1 & E1 & -> & A' & L' & x' & HF' & Hpg). by exists A', L', x', s1.
Qed.

(** The file when nothing is left to write; within the old size the inode is as it
    was. *)
Lemma progress_home A' L' x' : progress S x A L src off n n A' L' x' →
  (allocated S (vw A') (home S x') ∧ ∀ k, is_node k → node_addr (vw A') x' k ≠ home S x') ∧ vw A' (home S x') = vw A (home S x) ∧
  i_type x' = i_type x ∧ i_size x' = i_size x ∧ home S x' = home S x.
Proof.
  intros [_ Hst [Hi _] Hg _ _ (m & Hw & _) _ _]. assert (i_inum x' = i_inum x) as Hnum by (by rewrite Hi).
  assert (home S x' = home S x) as E by (unfold home; by rewrite Hnum). pose proof (fo_home _ _ _ Hfo) as Hh.
  split_and!; [by eapply home_grows|by eapply home_grows| |by rewrite Hi|by rewrite Hi|done].
  rewrite E. eapply wrote_other; [exact Hw|]. by apply home_space; apply Hh.
Qed.

Lemma after_inside A' L' x' : progress S x A L src off n n A' L' x' → off + n ≤ i_size x → ∃ m, after_write m A' L' x'.
Proof.
  intros Hpg Hin. destruct (progress_home A' L' x' Hpg) as (Hh & Hv & _). destruct Hpg as [_ Hst [_ Heq] Hg Hcov Hb (m & Hw & Hm) Hdt _].
  assert (x' = x) as -> by (by apply Heq). rewrite Z.max_l in Hcov, Hb by lia. exists m.
  assert (Z.max (i_size x) (off + n) = i_size x) as Emax by lia.
  split; [split; [apply Hfo|done|apply Hfo|done|done|]|by rewrite Emax; destruct x|done|done| |].
  - unfold stored. rewrite Hv. apply Hfo.
  - pose proof (touched_nonneg (off + n) (n - n) ltac:(lia)). split; [|lia]. eapply wrote_mono; [|exact Hw]. by left.
  - intros b [?|?]%Hdt; auto.
Qed.

(** The end of [writei] on a file that has got longer. *)
Lemma after_longer A' L' x' s : progress S x A L src off n n A' L' x' → i_size x < off + n →
  fabs me S (<[ip := x']> C) A' L' s →
  ∃ s' A2 L2 m, (do! put_inode ip (set_i_size (off + n) x') in iupdate me ip) s = Ok tt s' ∧
    fabs me S (<[ip := set_i_size (off + n) x']> C) A2 L2 s' ∧ after_write m A2 L2 (set_i_size (off + n) x').
Proof.
  intros Hpg Hout HF. destruct (progress_home A' L' x' Hpg) as (Hh & Hv & Hty & Hsz & Eh). set (x2 := set_i_size (off + n) x').
  destruct Hpg as [_ Hst [Hi _] Hg Hcov Hb (m & Hw & Hm) Hdt [Hhd _ Hlog Hroom]]. pose proof (touched_nonneg (off + n) (n - n) ltac:(lia)) as Htn.
  assert (fstate S A' x2) as Hst2 by (destruct Hst as [? ? []]; split; [done|done|by split]).
  assert (allocated S (vw A') (home S x2) ∧ ∀ k, is_node k → node_addr (vw A') x2 k ≠ home S x2) as [Hal Hno] by exact Hh.
  destruct (put_inode_ok me S _ A' L' s ip x2 HF) as (s1 & E1 & HF1). rewrite list_insert_insert_eq in HF1.
  pose proof (ly_size _ _ (sp_layout _ _ _ (fs_space _ _ _ Hst2))). pose proof (tr_len _ _ _ (fs_tree _ _ _ Hst2)) as Hl2.
  destruct (iupdate_ok _ A' L' s1 ip x2 HF1) as (d & s2 & E2 & Hd & Hld & HF2); [|apply Hst2|done| | | |unfold can_log in *; lia|].
  { apply list_lookup_insert_eq. by eapply lookup_lt_Some. } { destruct Hal. lia. } { intros i b. by rewrite Hhd, lookup_empty. }
  { right. rewrite Hhd, map_size_empty. lia. }
  destruct (home_fstate (nodes_of off n) A' x2 (store_inode x2 d) Hst2 Hal Hno) as (Hst3 & Hg3 & Hn3 & Hf3).
  { intros k. apply nodes_of_node; lia. }
  eexists s2, _, _, (m + 1). split; [by rewrite (bind_ok _ _ _ _ _ E1)|]. split; [exact HF2|]. rewrite Z.max_r in Hcov, Hb by lia.
  assert (Z.max (i_size x) (off + n) = off + n) as Emax by lia. split.
  - split; [change (i_type x' ≠ T_DEV); rewrite Hty; apply Hfo|done|cbn; lia| | |by apply stored_store].
    + intros bn Hb0 Hb1. rewrite Hn3; [by apply Hcov|]. unfold is_node, INDIRECT. cbn in Hb1. unfold BSIZE in *. lia.
    + eapply home_grows; [exact Hst3|exact Hg3|done|by split].
  - rewrite Emax. subst x2. by rewrite Hi.
  - intros o Ho. rewrite <- Hb by exact Ho. unfold file_byte. rewrite Hf3. change (file_addr (vw A') x2) with (file_addr (vw A') x').
    destruct (file_addr (vw A') x' (o / BSIZE)) as [b|] eqn:Eb; [|done]. cbn. unfold upd. rewrite decide_False; [done|].
    intros ->. assert (0 ≤ o / BSIZE < MAXFILE) as Hr by (cbn in Ho; unfold BSIZE in *; lia).
    assert (node_addr (vw A') x' (o / BSIZE) ≠ 0) as Hne by (apply Hcov; cbn in Ho; unfold BSIZE in *; lia).
    rewrite (file_addr_node me S _ A' L' s x' _ HF Hst Hr Hne) in Eb. injection Eb as Eb.
    apply (Hno (o / BSIZE)); [unfold is_node, INDIRECT; lia|]. exact Eb.
  - eapply grows_trans; [apply Hst|apply Hst3|exact Hg|]. destruct Hg3 as [Hk3 Hw3 Hr3 Hen3]. by split.
  - split; [|lia]. constructor; [|by right]. eapply wrote_mono; [|exact Hw]. by left.
  - intros b. cbn [write_to dt]. rewrite elem_of_union, elem_of_singleton. intros [->|[Hdb|[Hdb|(Hdb & k & Hk & E)]]%Hdt]; auto; right; left; [by left|right].
    split; [done|]. exists k. split; [done|]. rewrite Hn3; [exact E|]. eapply nodes_of_node; [..|exact Hk]; lia.
Qed.

(** [writei] at an offset within the file. *)
Lemma writei_after s :
  fabs me S C A L s → enough (nodes_of off n) S A L x (6 * blocks_touched off n + 2) →
  ∃ A' L' x' s' m, writei me ip src off s = Ok n s' ∧ fabs me S (<[ip := x']> C) A' L' s' ∧ after_write m A' L' x'.
Proof.
  intros HF Hen. pose proof (fo_size _ _ _ Hfo) as Hsz. destruct (writei_loop s HF Hen) as (A1 & L1 & x1 & s1 & E1 & HF1 & Hpg).
  unfold writei. fold n. rewrite (bind_ok _ _ _ _ _ (get_inode_ok me S C A L s ip x HF Hx)), (proj2 (Z.eqb_neq _ _) (fo_type _ _ _ Hfo)).
  unfold MAXFILE, NINDIRECT, NDIRECT, BSIZE in Hsz, Hend. rewrite (u32_small (off + n)) by lia.
  rewrite (proj2 (Z.ltb_ge (i_size x) off)), (proj2 (Z.ltb_ge (off + n) off)) by lia. cbn [orb].
  rewrite (proj2 (Z.ltb_ge (MAXFILE * BSIZE) (off + n))) by (unfold MAXFILE, NINDIRECT, NDIRECT, BSIZE; lia).
  rewrite (bind_ok _ _ _ _ _ E1). assert ((<[ip := x1]> C) !! ip = Some x1) as Hx1 by (apply list_lookup_insert_eq; by eapply lookup_lt_Some).
  rewrite (bind_ok _ _ _ _ _ (get_inode_ok me S _ A1 L1 s1 ip x1 HF1 Hx1)).
  destruct (progress_home A1 L1 x1 Hpg) as (_ & _ & _ & -> & _). destruct (decide (off + n ≤ i_size x)) as [Hin|Hout].
  - destruct (after_inside A1 L1 x1 Hpg Hin) as [m Haw]. rewrite (proj2 (Z.ltb_ge (i_size x) _)), andb_false_r by lia.
    exists A1, L1, x1, s1, m. done.
  - destruct (after_longer A1 L1 x1 s1 Hpg ltac:(lia) HF1) as (s2 & A2 & L2 & m & E2 & HF2 & Haw).
    rewrite (proj2 (Z.ltb_lt 0 n)), (proj2 (Z.ltb_lt (i_size x) _)) by lia. cbn [andb]. rewrite (bind_ok _ _ _ _ _ E2).
    by exists A2, L2, (set_i_size (off + n) x1), s2, m.
Qed.

End Writei.

(** C27: [writei] with enough free blocks for the range stores the bytes of the buffer,
    in the current transaction: the file is the old one with the bytes replaced or
    appended, its blocks are the old ones and free ones, the bitmap and the copy of
    the inode on the disk agree with it, and no other block changes.  A range that
    starts past the end or would make the file too long gives -1 and no effect. *)
Theorem writei_correct me S `{Devices} C x A L ip src off s :
  let n := Z.of_nat (length src) in
  fabs me S C A L s → C !! ip = Some x → file_ok S A x → 0 ≤ off < 2 ^ 32 → n < 2 ^ 32 →
  if (i_size x <? off) || (MAXFILE * BSIZE <? off + n) then writei me ip src off s = Ok (-1) s
  else enough (nodes_of off n) S A L x (6 * blocks_touched off n + 2) →
    ∃ A' L' x' s' m, writei me ip src off s = Ok n s' ∧ fabs me S (<[ip := x']> C) A' L' s' ∧
      after_write S x A L src off m A' L' x' ∧
      ∀ b, ¬ file_space S (vw A) x b → b ≠ home S x → vw A' b = vw A b.
Proof.
  intros n HF Hx Hfo Hoff Hn. pose proof (fo_size _ _ _ Hfo) as Hsz. destruct (Z.ltb_spec (i_size x) off) as [Hpast|Hin].
  { unfold writei. rewrite (bind_ok _ _ _ _ _ (get_inode_ok me S C A L s ip x HF Hx)), (proj2 (Z.eqb_neq _ _) (fo_type _ _ _ Hfo)).
    by rewrite (proj2 (Z.ltb_lt (i_size x) off)). }
  destruct (Z.ltb_spec (MAXFILE * BSIZE) (off + n)) as [Hlong|Hfit]; cbn [orb].
  { unfold writei. fold n. rewrite (bind_ok _ _ _ _ _ (get_inode_ok me S C A L s ip x HF Hx)), (proj2 (Z.eqb_neq _ _) (fo_type _ _ _ Hfo)).
    rewrite (proj2 (Z.ltb_ge (i_size x) off)) by done. destruct (decide (off + n < 2 ^ 32)).
    - rewrite u32_small, (proj2 (Z.ltb_ge (off + n) off)), (proj2 (Z.ltb_lt _ _)) by lia. done.
    - rewrite (proj2 (Z.ltb_lt (u32 (off + n)) off)) by (unfold u32, wrapu; lia). done. }
  intros Hen. destruct (writei_after me S C x A L ip src off Hx Hfo ltac:(lia) Hfit s HF Hen) as (A' & L' & x' & s' & m & E & HF' & Haw).
  exists A', L', x', s', m. split_and!; try done. intros b Hb Hh.
  eapply wrote_other; [apply (aw_wrote _ _ _ _ _ _ _ _ _ _ Haw)|]. by intros [?|?].
Qed.

(** ** Reading a file *)

Lemma file_ok_ready me S C A L s x : fabs me S C A L s → file_ok S A x → hd A = ∅ → Z.of_nat (size (dt A)) < NBUF → file_ready A x.
Proof.
  intros HF [Hty Hst Hsz Hcov _ _] Hhd Hroom. pose proof (ly_size _ _ (sp_layout _ _ _ (fs_space _ _ _ Hst))).
  assert (∀ k, is_node k → node_addr (vw A) x k ≠ 0 → readable A (node_addr (vw A) x k)) as Hrd.
  { intros k Hk Hne. destruct (tr_own _ _ _ (fs_tree _ _ _ Hst) k Hk Hne) as (Hr & _).
    split; [lia|]. intros i d. by rewrite Hhd, lookup_empty. }
  split; [done|apply Hst|done| | |by rewrite Hhd, map_size_empty].
  - intros bn Hb0 Hb1. assert (0 ≤ bn < MAXFILE) as Hr by (unfold BSIZE in *; lia). pose proof (Hcov bn Hb0 Hb1) as Hne.
    exists (node_addr (vw A) x bn). split; [by eapply file_addr_node|]. apply Hrd; [unfold is_node, INDIRECT; lia|done].
  - intros Hlong. pose proof (tr_len _ _ _ (fs_tree _ _ _ Hst)) as Hl. exists (addr_at x NDIRECT). split; [by apply lookup_addr|].
    apply (Hrd INDIRECT); [done|]. intros E. apply (Hcov NDIRECT); [done|done|]. change (node_addr (vw A) x INDIRECT) with (addr_at x NDIRECT) in E.
    unfold node_addr, INDIRECT. change (NDIRECT =? -1) with false. change (NDIRECT <? NDIRECT) with false. by rewrite E.
Qed.

(** What [writei] has stored, [readi] gives back. *)
Theorem writei_then_readi me S `{Devices} C x A L ip src off s :
  let n := Z.of_nat (length src) in
  fabs me S C A L s → C !! ip = Some x → file_ok S A x → 0 ≤ off ≤ i_size x → off + n ≤ MAXFILE * BSIZE →
  enough (nodes_of off n) S A L x (6 * blocks_touched off n + 2) →
  ∃ s', (let! _ := writei me ip src off in readi me ip off n) s = Ok (n, src) s'.
Proof.
  intros n HF Hx Hfo Hoff Hend Hen. destruct (writei_after me S C x A L ip src off Hx Hfo Hoff Hend s HF Hen) as (A' & L' & x' & s1 & m & E1 & HF1 & Haw).
  pose proof Haw as [Hok Hi Hb _ [Hw Hm] _]. fold n in Hi, Hb, Hm, E1. rewrite (bind_ok _ _ _ _ _ E1).
  assert (i_size x' = Z.max (i_size x) (off + n)) as Hsz by (by rewrite Hi).
  destruct (wrote_frame _ _ _ _ _ _ Hw) as (_ & Hhd & _). pose proof (wrote_size _ _ _ _ _ _ Hw). destruct Hen as [Hh _ _ Hroom]. fold n in Hroom.
  assert (file_ready A' x') as Hfr by (apply (file_ok_ready me S (<[ip := x']> C) A' L' s1); [done|done|congruence|lia]).
  assert ((<[ip := x']> C) !! ip = Some x') as Hx' by (apply list_lookup_insert_eq; by eapply lookup_lt_Some).
  unfold MAXFILE, NINDIRECT, NDIRECT, BSIZE in Hend.
  destruct (readi_ok me S _ A' L' s1 ip x' off n HF1 Hx' Hfr) as (bytes & s2 & E2 & _ & Hlen & Hbytes); [lia..|].
  rewrite Z.min_l in E2, Hlen, Hbytes by lia. exists s2. rewrite E2. do 2 f_equal. apply list_eq. intros k. destruct (decide (Z.of_nat k < n)).
  - specialize (Hbytes (Z.of_nat k) ltac:(lia)). rewrite Nat2Z.id in Hbytes. rewrite Hbytes, Hb by lia. rewrite decide_True by lia. f_equal. lia.
  - rewrite !lookup_ge_None_2 by lia. done.
Qed.

End FsysWritei.
