(* ===== verification/FsysInode.v ===== *)
(** FsysInode: the inode cache (p4/xv6-public/fs.c: [iget], [idup]) as a map from
    device and inode number to the cached inode. *)
From S2P Require Import Prelude Memory Bio BioInv Log LogInv Fsys FsysInv.
From stdpp Require Import gmap.
Local Open Scope Z_scope.

Module FsysInode.
Import Bio BioInv Log LogInv Fsys FsysInv.

(** An entry in use for inode [inum] of device [dev]. *)
Definition live (dev inum : Z) (x : inode) : Prop := 0 < i_ref x ∧ i_dev x = dev ∧ i_inum x = inum.
#[export] Instance live_dec dev inum x : Decision (live dev inum x) := _.

(** No inode has two entries. *)
Record icache_ok (C : list inode) : Prop := {
  ic_ref : ∀ i x, C !! i = Some x → 0 ≤ i_ref x;
  ic_uniq : ∀ i j x y, C !! i = Some x → C !! j = Some y → 0 < i_ref x → live (i_dev x) (i_inum x) y → i = j
}.

(** The cache as a map. *)
Definition cached (C : list inode) (dev inum : Z) : option (nat * inode) := list_find (live dev inum) C.
Definition refs (C : list inode) (dev inum : Z) : Z :=
  match cached C dev inum with Some (_, x) => i_ref x | None => 0 end.

Lemma cached_Some C dev inum ip x :
  icache_ok C → cached C dev inum = Some (ip, x) ↔ C !! ip = Some x ∧ live dev inum x.
Proof.
  intros [_ Hu]. unfold cached. rewrite list_find_Some. split; [by intros (? & ? & _)|].
  intros [Hx Hl]. split_and!; [done..|]. intros j y Hy Hj Hly. assert (j = ip); [|lia].
  destruct Hly as (? & ? & ?). eapply Hu; [exact Hy|exact Hx|done|]. congruence.
Qed.

Lemma cached_None C dev inum : cached C dev inum = None ↔ ∀ i x, C !! i = Some x → ¬ live dev inum x.
Proof. unfold cached. rewrite list_find_None, Forall_lookup. done. Qed.

Lemma cached_ext C C' dev inum :
  icache_ok C → icache_ok C' →
  (∀ i x, C !! i = Some x ∧ live dev inum x ↔ C' !! i = Some x ∧ live dev inum x) →
  cached C dev inum = cached C' dev inum.
Proof.
  intros Hok Hok' Hiff. destruct (cached C' dev inum) as [[ip x]|] eqn:E.
  - apply cached_Some; [done|]. apply Hiff. by apply cached_Some.
  - apply cached_None. intros i x Hi Hl. rewrite cached_None in E. destruct (proj1 (Hiff i x)) as [? ?]; [done|]. by eapply E.
Qed.

(** An entry for [(dev, inum)] replaces a free entry, or the entry that was there
    for the same inode. *)
Section Enter.
Context (C : list inode) (Hok : icache_ok C) (ip : nat) (x y : inode) (dev inum : Z).
Context (Hx : C !! ip = Some x) (Hy : live dev inum y).
Context (Hold : live dev inum x ∨ i_ref x = 0 ∧ cached C dev inum = None).

Lemma enter_lookup j z : <[ip := y]> C !! j = Some z ↔ j = ip ∧ z = y ∨ j ≠ ip ∧ C !! j = Some z.
Proof.
  destruct (decide (j = ip)) as [->|Hne].
  - rewrite list_lookup_insert_eq by (by eapply lookup_lt_Some). naive_solver.
  - rewrite list_lookup_insert_ne by done. naive_solver.
Qed.

Lemma enter_other j z : j ≠ ip → C !! j = Some z → ¬ live dev inum z.
Proof.
  intros Hne Hz Hl. destruct Hold as [(? & Hd & Hi)|[_ Hn]].
  - destruct Hne. symmetry. eapply (ic_uniq C Hok); [exact Hx|exact Hz|done|]. by rewrite Hd, Hi.
  - rewrite cached_None in Hn. by eapply Hn.
Qed.

Lemma enter_ok : icache_ok (<[ip := y]> C).
Proof.
  destruct Hok as [Hr Hu]. pose proof Hy as (Hy1 & Hy2 & Hy3). split.
  - intros j z [[-> ->]|[_ Hz]]%enter_lookup; [lia|by eapply Hr].
  - intros j k z w [[-> ->]|[Hj Hz]]%enter_lookup [[-> ->]|[Hk Hw]]%enter_lookup Hpos Hl; [done| | |by eapply Hu].
    + destruct (enter_other k w Hk Hw). by rewrite <- Hy2, <- Hy3.
    + destruct (enter_other j z Hj Hz). destruct Hl as (_ & Hl2 & Hl3). split_and!; congruence.
Qed.

Lemma enter_cached : cached (<[ip := y]> C) dev inum = Some (ip, y).
Proof. apply cached_Some; [apply enter_ok|]. split; [|done]. apply list_lookup_insert_eq. by eapply lookup_lt_Some. Qed.

Lemma enter_cached_ne dev' inum' : (dev', inum') ≠ (dev, inum) → cached (<[ip := y]> C) dev' inum' = cached C dev' inum'.
Proof.
  intros Hne. apply cached_ext; [apply enter_ok|done|]. pose proof Hy as (_ & Hy2 & Hy3).
  intros j z. rewrite enter_lookup. split.
  - intros [[[-> ->]|[_ Hz]] Hl]; [|done]. destruct Hl as (_ & ? & ?). congruence.
  - intros [Hz Hl]. split; [|done]. right. split; [|done]. intros ->. rewrite Hx in Hz. injection Hz as <-.
    destruct Hl as (? & ? & ?). destruct Hold as [(_ & ? & ?)|[? _]]; [congruence|lia].
Qed.
End Enter.

(** Entry [ip] got one more reference: it was in use for the inode, or free. *)
Definition took (C : list inode) (dev inum : Z) (ip : nat) (x : inode) (C' : list inode) : Prop :=
  ∃ y, C !! ip = Some y ∧ C' = <[ip := x]> C ∧ i_locked x = i_locked y ∧ live dev inum x ∧
    (live dev inum y ∧ x = set_i_ref (i_ref y + 1) y ∨ i_ref y = 0 ∧ i_ref x = 1 ∧ i_valid x = 0).

Section Inode.
Context (me : Z) (S : superblock).

(** [iget] when there is an entry to use. *)
Lemma iget_ok C A L s dev inum :
  fabs me S C A L s → icache_ok C → ¬ (cached C dev inum = None ∧ Forall (λ x, i_ref x ≠ 0) C) →
  ∃ ip x s' C', iget dev inum s = Ok ip s' ∧ fabs me S C' A L s' ∧ icache_ok C' ∧
    cached C' dev inum = Some (ip, x) ∧ i_ref x = refs C dev inum + 1 ∧
    match cached C dev inum with
    | Some (jp, y) => jp = ip ∧ x = set_i_ref (i_ref y + 1) y
    | None => i_valid x = 0 ∧ (∃ y, C !! ip = Some y ∧ i_ref y = 0)
    end ∧
    (∀ dev' inum', (dev', inum') ≠ (dev, inum) → cached C' dev' inum' = cached C dev' inum') ∧ took C dev inum ip x C'.
Proof.
  intros HF Hok Hroom. unfold iget. pose proof HF as (_ & _ & HC).
  assert (gets icache s = Ok C s) as Hg by (unfold gets; by rewrite HC).
  rewrite (bind_ok _ _ _ _ _ Hg). cbn beta. unfold refs.
  change (list_find (λ x, 0 < i_ref x ∧ i_dev x = dev ∧ i_inum x = inum) C) with (cached C dev inum).
  destruct (cached C dev inum) as [[ip y]|] eqn:Ec.
  - pose proof Ec as [Hy Hl]%cached_Some; [|done].
    destruct (put_inode_ok me S C A L s ip (set_i_ref (i_ref y + 1) y) HF) as (s' & E & HF').
    rewrite (bind_ok _ _ _ _ _ E). exists ip, (set_i_ref (i_ref y + 1) y), s', (<[ip := set_i_ref (i_ref y + 1) y]> C).
    assert (live dev inum (set_i_ref (i_ref y + 1) y)) as Hl' by (destruct Hl as (? & ? & ?); split_and!; cbn; (lia || done)).
    split_and!; try done; [by apply (enter_ok C Hok ip y _ dev inum); auto|by apply (enter_cached C Hok ip y); auto| |].
    + intros. by apply (enter_cached_ne C Hok ip y _ dev inum); auto.
    + exists y. split_and!; try done. by left.
  - destruct (list_find (λ x, i_ref x = 0) C) as [[ip y]|] eqn:Ef.
    2:{ destruct Hroom. split; [done|]. by apply list_find_None in Ef. }
    apply list_find_Some in Ef as (Hy & H0 & _).
    set (x := Inode _ _ _ _ _ _ _ _ _ _ _ _). destruct (put_inode_ok me S C A L s ip x HF) as (s' & E & HF').
    rewrite (bind_ok _ _ _ _ _ E). exists ip, x, s', (<[ip := x]> C). assert (live dev inum x) as Hl by by split_and!.
    split_and!; try done; [by apply (enter_ok C Hok ip y _ dev inum); auto|by apply (enter_cached C Hok ip y); auto|by exists y| |].
    + intros. by apply (enter_cached_ne C Hok ip y _ dev inum); auto.
    + exists y. split_and!; try done. by right.
Qed.

(** [iget] answers with the one entry of the inode, whose count grows by one; an
    inode that was not cached starts with count 1 and must be read again; the other
    inodes keep their entries.  It panics when every entry is in use. *)
Theorem iget_correct C A L s dev inum :
  fabs me S C A L s → icache_ok C →
  if bool_decide (cached C dev inum = None ∧ Forall (λ x, i_ref x ≠ 0) C) then iget dev inum s = Fault
  else ∃ ip x s' C', iget dev inum s = Ok ip s' ∧ fabs me S C' A L s' ∧ icache_ok C' ∧
    cached C' dev inum = Some (ip, x) ∧ i_ref x = refs C dev inum + 1 ∧
    match cached C dev inum with
    | Some (jp, y) => jp = ip ∧ x = set_i_ref (i_ref y + 1) y
    | None => i_valid x = 0 ∧ (∃ y, C !! ip = Some y ∧ i_ref y = 0)
    end ∧
    ∀ dev' inum', (dev', inum') ≠ (dev, inum) → cached C' dev' inum' = cached C dev' inum'.
Proof.
  intros HF Hok. case_bool_decide as Hfull.
  2:{ destruct (iget_ok C A L s dev inum HF Hok Hfull) as (ip & x & s' & C' & ? & ? & ? & ? & ? & ? & ? & _). by exists ip, x, s', C'. } destruct Hfull as [Hc Hall]. unfold iget.
  pose proof HF as (_ & _ & HC). assert (gets icache s = Ok C s) as Hg by (unfold gets; by rewrite HC).
  rewrite (bind_ok _ _ _ _ _ Hg). cbn beta.
  change (list_find (λ x, 0 < i_ref x ∧ i_dev x = dev ∧ i_inum x = inum) C) with (cached C dev inum). rewrite Hc.
  by rewrite (proj2 (list_find_None (λ x, i_ref x = 0) C) Hall).
Qed.

End Inode.
End FsysInode.
