(* ===== verification/FsysDir.v ===== *)
(** FsysDir: directories (p4/xv6-public/fs.c: [namecmp], [dirlookup]): the search
    finds the first entry with the name, and only then takes a reference. *)
From Stdlib Require Import Strings.Byte.
From S2P Require Import Prelude Memory Bio BioInv Log LogInv Fsys FsysInv FsysFile FsysInode.
From stdpp Require Import gmap.
Local Open Scope Z_scope.

Module FsysDir.
Import Bio BioInv Log LogInv Fsys FsysInv FsysFile FsysInode.

(** ** Names *)

(** The text in an array of at most [n] characters. *)
Fixpoint text (n : nat) (s : list byte) : list byte :=
  match n, s with
  | S n', c :: s' => if bool_decide (c = x00) then [] else c :: text n' s'
  | _, _ => []
  end.

Lemma Z_of_byte_inj a b : Z_of_byte a = Z_of_byte b → a = b.
Proof. intros E. by rewrite <- (byte_of_Z_of_byte a), <- (byte_of_Z_of_byte b), E. Qed.

Lemma text_cons n s : text (Datatypes.S n) s =
  if bool_decide (head_or_nul s = x00) then [] else head_or_nul s :: text n (tail s).
Proof. by destruct s. Qed.

Lemma strncmp_zero n p q : strncmp p q n = 0 ↔ text n p = text n q.
Proof.
  revert p q. induction n as [|n IH]; intros p q; [done|]. rewrite !text_cons. cbn [strncmp].
  set (a := head_or_nul p). set (b := head_or_nul q).
  case_bool_decide as Ha; cbn [andb].
  - case_bool_decide as Hab.
    + rewrite <- Hab, bool_decide_false by done. rewrite IH. split; [by intros ->|by intros [= ->]].
    + split; [intros E; destruct Hab; apply Z_of_byte_inj; lia|].
      rewrite (bool_decide_false (a = x00)) by done. case_bool_decide; [done|]. by intros [= ? _].
  - rewrite Ha, (bool_decide_true (x00 = x00)) by done. case_bool_decide as Hb.
    + by rewrite Hb.
    + split; [|done]. intros E. destruct Hb. symmetry. apply Z_of_byte_inj. lia.
Qed.

(** The name of a directory entry and of a component, as [namecmp] sees it. *)
Definition fname (s : list byte) : list byte := text (Z.to_nat DIRSIZ) s.

Lemma namecmp_zero s t : namecmp s t = 0 ↔ fname s = fname t.
Proof. apply strncmp_zero. Qed.

(** What [strncpy] stores is the name again. *)
Lemma text_zeros n m : text n (replicate m x00) = [].
Proof. destruct n; [done|]. by destruct m. Qed.

Lemma fname_strncpy t : fname (strncpy t (Z.to_nat DIRSIZ)) = fname t.
Proof.
  unfold fname. generalize (Z.to_nat DIRSIZ) as n. intros n. revert t. induction n as [|n IH]; intros t; [done|].
  cbn [strncpy]. rewrite (text_cons n t). destruct (bool_decide (head_or_nul t = x00)) eqn:Hc; [apply text_zeros|].
  rewrite text_cons. change (head_or_nul (head_or_nul t :: strncpy (tail t) n)) with (head_or_nul t). cbn [tail]. rewrite Hc. by rewrite IH.
Qed.

(** ** The entries of a directory *)

Definition entry_bytes (v : Z → option block) (x : inode) (k : Z) : list byte :=
  omap (λ i, file_byte v x (k * sizeof_dirent + Z.of_nat i)) (seq 0 (Z.to_nat sizeof_dirent)).
Definition entry_inum (v : Z → option block) (x : inode) (k : Z) : Z := le_decode (take 2 (entry_bytes v x k)).
Definition entry_name (v : Z → option block) (x : inode) (k : Z) : list byte := fname (drop 2 (entry_bytes v x k)).
(** Entry [k] is in use and has the name. *)
Definition entry_is (v : Z → option block) (x : inode) (name : list byte) (k : Z) : bool :=
  negb (entry_inum v x k =? 0) && bool_decide (entry_name v x k = fname name).

Lemma omap_seq_lookup (f : nat → option byte) n (l : list byte) : ∀ o,
  length l = n → (∀ i, (i < n)%nat → l !! i = f (o + i)%nat) → omap f (seq o n) = l.
Proof.
  revert l. induction n as [|n IH]; intros l o Hl Hf; [by destruct l|]. destruct l as [|c l]; [done|].
  cbn. pose proof (Hf 0%nat ltac:(lia)) as H0. cbn in H0. rewrite Nat.add_0_r in H0. rewrite <- H0.
  f_equal. apply IH; [by injection Hl|]. intros i Hi. rewrite Nat.add_succ_comm. apply (Hf (Datatypes.S i)). lia.
Qed.

Section Dir.
Context (me : Z) (S : superblock) `{Devices}.
Context (A : acache) (L : log).

Lemma read_entry_ok C s dp x k :
  fabs me S C A L s → C !! dp = Some x → file_ready A x → 0 ≤ k → k * sizeof_dirent + sizeof_dirent ≤ i_size x →
  ∃ s', readi me dp (k * sizeof_dirent) sizeof_dirent s = Ok (sizeof_dirent, entry_bytes (vw A) x k) s' ∧ fabs me S C A L s'.
Proof.
  intros HF Hx Hfr Hk Hsz. pose proof (fr_size _ _ Hfr) as Hs. unfold MAXFILE, NDIRECT, NINDIRECT, BSIZE, sizeof_dirent in *.
  pose proof (readi_ok me S C A L s dp x (k * 16) 16 HF Hx Hfr ltac:(lia) ltac:(lia) ltac:(lia)) as Hr.
  replace (Z.min 16 (i_size x - k * 16)) with 16 in Hr by lia. destruct Hr as (bytes & s' & E & HF' & Hl & Hb).
  exists s'. split; [|done]. rewrite E. do 2 f_equal. symmetry. unfold entry_bytes, sizeof_dirent. apply omap_seq_lookup; [lia|].
  intros i Hi. specialize (Hb (Z.of_nat i) ltac:(lia)). rewrite Nat2Z.id in Hb. exact Hb.
Qed.

(** [dirlookup], whether it finds the name or not. *)
Lemma dirlookup_ok C s dp x name :
  fabs me S C A L s → icache_ok C → C !! dp = Some x → file_ready A x → i_type x = T_DIR →
  i_size x mod sizeof_dirent = 0 → Exists (λ y, i_ref y = 0) C →
  match first_in (entry_is (vw A) x name) 0 (i_size x / sizeof_dirent) with
  | Some k => ∃ ip y s' C', dirlookup me dp name s = Ok (Some (ip, k * sizeof_dirent)) s' ∧
      fabs me S C' A L s' ∧ icache_ok C' ∧
      cached C' (i_dev x) (entry_inum (vw A) x k) = Some (ip, y) ∧
      i_ref y = refs C (i_dev x) (entry_inum (vw A) x k) + 1 ∧
      (∀ dev inum, (dev, inum) ≠ (i_dev x, entry_inum (vw A) x k) → cached C' dev inum = cached C dev inum) ∧
      took C (i_dev x) (entry_inum (vw A) x k) ip y C' ∧ 0 ≤ k < i_size x / sizeof_dirent ∧ entry_inum (vw A) x k ≠ 0
  | None => ∃ s', dirlookup me dp name s = Ok None s' ∧ fabs me S C A L s'
  end.
Proof.
  intros HF Hok Hx Hfr Htype Hmod Hfreeslot. pose proof (fr_size _ _ Hfr) as Hs. unfold MAXFILE, NDIRECT, NINDIRECT, BSIZE, sizeof_dirent in *.
  set (n := i_size x / 16) in *. set (p := entry_is (vw A) x name).
  assert (wp (dirlookup me dp name) (λ r s', match r with
    | Some (ip, off) => ∃ k y C', is_first p 0 n (Some k) ∧ off = k * 16 ∧
      fabs me S C' A L s' ∧ icache_ok C' ∧ cached C' (i_dev x) (entry_inum (vw A) x k) = Some (ip, y) ∧
      i_ref y = refs C (i_dev x) (entry_inum (vw A) x k) + 1 ∧
      (∀ dev inum, (dev, inum) ≠ (i_dev x, entry_inum (vw A) x k) → cached C' dev inum = cached C dev inum) ∧
      took C (i_dev x) (entry_inum (vw A) x k) ip y C' ∧ 0 ≤ k < n ∧ entry_inum (vw A) x k ≠ 0
    | None => is_first p 0 n None ∧ fabs me S C A L s' end) s) as Hw.
  { unfold dirlookup. eapply wp_bind_ok; [exact (get_inode_ok me S C A L s dp x HF Hx)|]. rewrite Htype. cbn [negb Z.eqb T_DIR Pos.eqb].
    apply (wp_loop _ (λ off s', (∃ k, off = k * 16 ∧ 0 ≤ k ≤ n ∧ ∀ i, 0 ≤ i < k → p i = false) ∧ fabs me S C A L s') (λ off, Z.to_nat (n - off / 16))).
    - split; [exists 0; split_and!; lia|done].
    - unfold sizeof_dirent. fold n. change (0 / 16) with 0. lia.
    - intros off s1 [(k & -> & Hk & Hno) HF1]. unfold dirlookup_step.
      eapply wp_bind_ok; [exact (get_inode_ok me S C A L s1 dp x HF1 Hx)|].
      destruct (Z.ltb_spec (k * 16) (i_size x)) as [Hlt|Hge]; cbn [negb].
      2:{ split; [|done]. intros i Hi. apply Hno. lia. }
      destruct (read_entry_ok C s1 dp x k HF1 Hx Hfr ltac:(lia)) as (s2 & E2 & HF2); [unfold sizeof_dirent in *; lia|].
      eapply wp_bind_ok; [exact E2|]. cbn [sizeof_dirent negb Z.eqb Pos.eqb]. fold (entry_inum (vw A) x k).
      assert (p k = false → wp (@ret fsys (Z + option (nat * Z)) (inl (k * 16 + 16))) (λ r s', match r with
        | inl off' => ((∃ k, off' = k * 16 ∧ 0 ≤ k ≤ n ∧ ∀ i, 0 ≤ i < k → p i = false) ∧ fabs me S C A L s') ∧ (Z.to_nat (n - off' / 16) < Z.to_nat (n - k * 16 / 16))%nat
        | inr _ => False end) s2) as Hnext.
      { intros Hp. split; [split; [exists (k + 1)|done]|lia]. split_and!; [lia..|]. intros i Hi.
        destruct (decide (i = k)) as [->|]; [done|]. apply Hno. lia. }
      assert (p k = negb (entry_inum (vw A) x k =? 0) && (namecmp name (drop 2 (entry_bytes (vw A) x k)) =? 0)) as Hpk.
      { unfold p, entry_is. f_equal. apply eq_true_iff_eq. rewrite bool_decide_eq_true, Z.eqb_eq, namecmp_zero.
        unfold entry_name. split; by intros ->. }
      destruct (entry_inum (vw A) x k =? 0) eqn:E0; cbn [negb andb] in Hpk.
      { eapply wp_mono; [by apply Hnext|]. by intros [?|?]. }
      destruct (namecmp _ _ =? 0); [|eapply wp_mono; [by apply Hnext|by intros [?|?]]].
      destruct (iget_ok me S C A L s2 (i_dev x) (entry_inum (vw A) x k) HF2 Hok)
        as (ip & y & s3 & C' & E3 & HF3 & Hok3 & Hc3 & Hr3 & _ & Ho3 & Ht3).
      { intros [_ Hall]. apply Exists_exists in Hfreeslot as (y & Hy & H0). rewrite Forall_forall in Hall. by apply (Hall y Hy). } eapply wp_bind_ok; [exact E3|].
      apply Z.eqb_neq in E0. exists k, y, C'. split; [|split_and!; (done || lia)]. split_and!; [lia|lia|done|intros; apply Hno; lia]. }
  apply wp_ok in Hw as (r & s' & E & Hr). pose proof (first_in_spec p 0 n) as Hfirst.
  destruct r as [[ip off]|].
  - destruct Hr as (k & y & C' & Hk & -> & Hrest). rewrite (is_first_unique _ _ _ _ _ Hfirst Hk). exists ip, y, s', C'. done.
  - destruct Hr as [Hnone HF']. rewrite (is_first_unique _ _ _ _ _ Hfirst Hnone). by exists s'.
Qed.

(** C23: [dirlookup] answers with a reference to the inode of the first entry that is
    in use and has the name, and with the offset of this entry; when there is none
    it answers so and no count changes. *)
Theorem dirlookup_correct C s dp x name :
  fabs me S C A L s → icache_ok C → C !! dp = Some x → file_ready A x → i_type x = T_DIR →
  i_size x mod sizeof_dirent = 0 → Exists (λ y, i_ref y = 0) C →
  match first_in (entry_is (vw A) x name) 0 (i_size x / sizeof_dirent) with
  | Some k => ∃ ip y s' C', dirlookup me dp name s = Ok (Some (ip, k * sizeof_dirent)) s' ∧
      fabs me S C' A L s' ∧ icache_ok C' ∧
      cached C' (i_dev x) (entry_inum (vw A) x k) = Some (ip, y) ∧
      i_ref y = refs C (i_dev x) (entry_inum (vw A) x k) + 1 ∧
      ∀ dev inum, (dev, inum) ≠ (i_dev x, entry_inum (vw A) x k) → cached C' dev inum = cached C dev inum
  | None => ∃ s', dirlookup me dp name s = Ok None s' ∧ fabs me S C A L s'
  end.
Proof.
  intros HF Hok Hx Hfr Hty Hmod Hslot. pose proof (dirlookup_ok C s dp x name HF Hok Hx Hfr Hty Hmod Hslot) as Hr. destruct (first_in _ _ _); [|done].
  destruct Hr as (ip & y & s' & C' & ? & ? & ? & ? & ? & ? & _). by exists ip, y, s', C'.
Qed.

End Dir.
End FsysDir.
