(* ===== verification/FsysPath.v ===== *)
(** FsysPath: how [namex] (p4/xv6-public/fs.c) reads a path: the names it looks
    up are the components of the path, cut to [DIRSIZ] characters. *)
From Stdlib Require Import Strings.Byte.
From S2P Require Import Prelude Memory CLib Bio Log Fsys.
Local Open Scope Z_scope.

Module FsysPath.
Import CLib Bio Log Fsys.

(** The components of a path, and the name a component is stored under. *)
Definition cut (t : list byte) : list byte := take (Z.to_nat DIRSIZ) t.
Definition components (path : list byte) : list (list byte) := cut <$> tokens SLASH path.

Lemma skip_slashes_delims s : skip_slashes s = skip_delims SLASH s.
Proof. done. Qed.

Lemma span_elem_token s t r :
  span_elem s = (t, r) → span_token SLASH s = (t, tail r) ∧ (r = [] ∨ ∃ r', r = SLASH :: r').
Proof.
  revert t r. induction s as [|c s IH]; intros t r; cbn [span_elem span_token]; [intros [= <- <-]; auto|].
  case_bool_decide as Hc; [intros [= <- <-]; subst; eauto|].
  destruct (span_elem s) as [t' r'] eqn:E. intros [= <- <-]. destruct (IH _ _ eq_refl) as [-> ?]. eauto.
Qed.

Lemma tokens_skip s : tokens SLASH (skip_slashes s) = tokens SLASH s.
Proof.
  induction s as [|c s IH]; [done|]. cbn [skip_slashes]. case_bool_decide as Hc; [|done].
  rewrite IH, Hc, !(tokens_unfold _ s), (tokens_unfold _ (_ :: _)). by rewrite strtok_delim.
Qed.

Lemma tokens_skip_tail r : r = [] ∨ (∃ r', r = SLASH :: r') → tokens SLASH (skip_slashes r) = tokens SLASH (tail r).
Proof.
  intros [->|[r' ->]]; [done|]. rewrite tokens_skip, (tokens_unfold _ (_ :: _)), strtok_delim. by rewrite <- tokens_unfold.
Qed.

Lemma tokens_nil s : tokens SLASH s = [] ↔ skip_slashes s = [].
Proof.
  rewrite tokens_unfold. unfold strtok. rewrite <- skip_slashes_delims. destruct (skip_slashes s); [done|].
  by destruct (span_token _ _).
Qed.

Lemma skip_idem s : skip_slashes (skip_slashes s) = skip_slashes s.
Proof. induction s as [|c s IH]; [done|]. cbn. destruct (bool_decide (c = SLASH)) eqn:E; [done|]. cbn. by rewrite E. Qed.

(** One call of [skipelem] takes the first component off. *)
Lemma skipelem_components path :
  match skipelem path with
  | None => components path = []
  | Some (rest, name) => components path = name :: components rest ∧ (rest = [] ↔ components rest = []) ∧
                         (length rest < length path)%nat
  end.
Proof.
  unfold skipelem. pose proof (skip_delims_length SLASH path) as Hlen. rewrite <- skip_slashes_delims in Hlen.
  destruct (skip_slashes path) as [|c s] eqn:Es.
  { unfold components. by rewrite (proj2 (tokens_nil path) Es). }
  destruct (span_elem (c :: s)) as [e r] eqn:E. apply span_elem_token in E as [Et Hr].
  assert (c ≠ SLASH) as Hc by by eapply skip_delims_head.
  pose proof (strtok_token SLASH c s _ _ Hc Et) as Hst. pose proof (strtok_some _ _ _ _ Hst) as (He & _ & Hl).
  assert ((if DIRSIZ <=? Z.of_nat (length e) then take (Z.to_nat DIRSIZ) e else e) = cut e) as ->.
  { unfold cut. destruct (Z.leb_spec DIRSIZ (Z.of_nat (length e))); [done|]. symmetry. apply take_ge. lia. }
  split; [|split].
  - unfold components. rewrite <- tokens_skip, Es, tokens_unfold, Hst, fmap_cons. by rewrite tokens_skip_tail.
  - unfold components. split; [by intros ->|]. intros Hn%fmap_nil_inv. apply tokens_nil in Hn. by rewrite skip_idem in Hn.
  - assert (0 < length e)%nat by (destruct e; [done|cbn; lia]).
    cbn [length] in *. destruct Hr as [->|[r' ->]]; cbn in *; [lia|]. rewrite bool_decide_true by done.
    pose proof (skip_delims_length SLASH r') as Hr'. rewrite <- skip_slashes_delims in Hr'. lia.
Qed.

Section Path.
Context (me : Z) `{Devices}.

(** The walk along a list of names. *)
Fixpoint walk (parent : bool) (ip : nat) (name : list byte) (names : list (list byte)) :
    ST fsys (option (nat * list byte)) :=
  match names with
  | [] => if parent then do! iput me ip in ret None else ret (Some (ip, name))
  | e :: names' =>
      do! ilock me ip in
      let! x := get_inode ip in
      if negb (i_type x =? T_DIR) then do! iunlockput me ip in ret None else
      if parent && bool_decide (names' = []) then do! iunlock me ip in ret (Some (ip, e)) else
      let! r := dirlookup me ip e in
      match r with
      | None => do! iunlockput me ip in ret None
      | Some (next, _) => do! iunlockput me ip in walk parent next e names'
      end
  end.

Lemma loop_walk parent n ip path name s :
  (length path < n)%nat → loop n (namex_step me parent) (ip, path, name) s = walk parent ip name (components path) s.
Proof.
  revert ip path name s. induction n as [|n IH]; intros ip path name s Hn; [lia|].
  cbn [loop]. unfold namex_step at 1. pose proof (skipelem_components path) as Hsk.
  destruct (skipelem path) as [[rest e]|].
  - destruct Hsk as (-> & Hnil & Hlt). cbn [walk]. rewrite (bool_decide_ext _ _ Hnil).
    unfold bind. destruct (ilock me ip s) as [[] s1|]; [|done]. destruct (get_inode ip s1) as [x s2|]; [|done].
    destruct (negb (i_type x =? T_DIR)); [by destruct (iunlockput me ip s2)|].
    destruct (parent && _); [by destruct (iunlock me ip s2)|].
    destruct (dirlookup me ip e s2) as [[[next o]|] s3|]; [| |done].
    + destruct (iunlockput me ip s3) as [[] s4|]; [|done]. cbn. apply IH. lia.
    + by destruct (iunlockput me ip s3).
  - rewrite Hsk. cbn [walk]. destruct parent; [|done]. unfold bind. by destruct (iput me ip s).
Qed.

(** The walk ends at the last name of the path. *)
Lemma walk_last parent ip name names s q nm s' :
  walk parent ip name names s = Ok (Some (q, nm)) s' → nm = default name (last names) ∧ (parent = true → names ≠ []).
Proof.
  revert ip name s. induction names as [|e names IH]; intros ip name s; cbn [walk].
  { destruct parent; [|by intros [= <- <-]]. by intros (? & ? & ? & [=])%bind_inv. }
  intros (? & s1 & _ & (x & s2 & _ & E)%bind_inv)%bind_inv.
  destruct (negb _); [by apply bind_inv in E as (? & ? & ? & [=])|].
  destruct (parent && bool_decide (names = [])) eqn:Hp.
  { apply andb_true_iff in Hp as [_ ->%bool_decide_eq_true]. by apply bind_inv in E as (? & ? & _ & [= <- <- <-]). }
  apply bind_inv in E as ([[next o]|] & s3 & _ & (? & s4 & _ & E)%bind_inv); [|done].
  destruct (IH _ _ _ E) as [-> _]. split; [|done]. rewrite last_cons. by destruct (last names).
Qed.

(** [namex] ends, and does what the walk along the components of the path
    does. *)
Theorem namex_walks_components cwd path parent s :
  namex me cwd path parent s =
    (let! ip := (if bool_decide (head path = Some SLASH) then iget ROOTDEV ROOTINO else idup cwd) in
     walk parent ip [] (components path)) s.
Proof.
  unfold namex, bind. case_bool_decide;
    [destruct (iget _ _ s) as [ip s1|]|destruct (idup _ s) as [ip s1|]]; try done; apply loop_walk; lia.
Qed.

(** [nameiparent] answers with the last component of the path. *)
Theorem nameiparent_last_component cwd path s ip name s' :
  nameiparent me cwd path s = Ok (Some (ip, name)) s' → last (components path) = Some name.
Proof.
  unfold nameiparent, namex. intros (ip0 & s1 & _ & E)%bind_inv. rewrite loop_walk in E by lia.
  destruct (walk_last _ _ _ _ _ _ _ _ E) as [-> Hne]. specialize (Hne eq_refl).
  destruct (last (components path)) eqn:El; [done|]. by apply last_None in El.
Qed.

End Path.
End FsysPath.
