(* ===== verification/FsysTrunc.v ===== *)
(** FsysTrunc: [itrunc] (p4/xv6-public/fs.c) gives back all blocks of a file, and no
    others.  It frees up to 141 blocks in one transaction; the log has room for it
    because only the blocks of the bitmap are written. *)
From Stdlib Require Import Strings.Byte.
From S2P Require Import Prelude Memory Bio BioInv Log LogInv Fsys FsysInv FsysTx FsysAlloc FsysFile FsysTree FsysGrow FsysExtend FsysWritei.
From stdpp Require Import gmap.
Local Open Scope Z_scope.

Module FsysTrunc.
Import Bio BioInv Log LogInv Fsys FsysInv FsysTx FsysAlloc FsysWrote FsysFile FsysTree FsysGrow FsysExtend FsysWritei.

(** ** The addresses of the inode, the first [j] of them cleared *)
Section Zeroed.
Context (x : inode) (Hl : length (i_addrs x) = 13%nat).

Definition zeroed (j : Z) : inode := with_addrs (replicate (Z.to_nat j) 0 ++ drop (Z.to_nat j) (i_addrs x)) x.

Lemma zeroed_0 : zeroed 0 = x.
Proof. unfold zeroed, with_addrs. cbn. rewrite drop_0. by destruct x. Qed.

Lemma zeroed_at j : 0 ≤ j < 13 → i_addrs (zeroed j) !! Z.to_nat j = Some (addr_at x j).
Proof.
  intros Hj. cbn. rewrite lookup_app_r by (rewrite length_replicate; lia). rewrite length_replicate, lookup_drop.
  replace (Z.to_nat j + (Z.to_nat j - Z.to_nat j))%nat with (Z.to_nat j) by lia. by apply lookup_addr.
Qed.

Lemma zeroed_next j : 0 ≤ j < 13 → set_i_addr j 0 (zeroed j) = zeroed (j + 1).
Proof.
  intros Hj. unfold zeroed, set_i_addr, with_addrs. cbn. f_equal.
  rewrite insert_app_r_alt by (rewrite length_replicate; lia). rewrite length_replicate, Nat.sub_diag.
  replace (Z.to_nat (j + 1)) with (S (Z.to_nat j)) by lia. rewrite replicate_S_end, <- app_assoc. f_equal.
  rewrite (drop_S (i_addrs x) (addr_at x j)) by (by apply lookup_addr). done.
Qed.

Lemma zeroed_skip j : 0 ≤ j < 13 → addr_at x j = 0 → zeroed (j + 1) = zeroed j.
Proof.
  intros Hj H0. rewrite <- zeroed_next by done. unfold set_i_addr. pose proof (zeroed_at j Hj) as Ha. rewrite H0 in Ha.
  rewrite list_insert_id by done. done.
Qed.

Lemma zeroed_all v n : is_node n → node_addr v (zeroed 13) n = 0.
Proof.
  intros Hn. assert (∀ k, addr_at (zeroed 13) k = 0) as H0.
  { intros k. unfold addr_at. cbn. rewrite drop_ge, app_nil_r by (rewrite Hl; lia).
    destruct (replicate _ 0 !! Z.to_nat k) eqn:E; [|done]. by apply lookup_replicate_1 in E as [-> _]. }
  unfold node_addr. rewrite !H0. by destruct (n =? INDIRECT), (n <? NDIRECT).
Qed.
End Zeroed.

(** ** Sets of nodes *)

Definition upto (j : Z) : gset Z := list_to_set (seqZ 0 j).
Lemma elem_upto k j : k ∈ upto j ↔ 0 ≤ k < j.
Proof. unfold upto. rewrite elem_of_list_to_set, elem_of_seqZ. by rewrite Z.add_0_l. Qed.
Lemma upto_next j : 0 ≤ j → {[j]} ∪ upto j = upto (j + 1).
Proof. intros Hj. apply set_eq. intros k. rewrite elem_of_union, elem_of_singleton, !elem_upto. lia. Qed.
Lemma upto_node k j : k ∈ upto j → j ≤ MAXFILE → is_node k.
Proof. rewrite elem_upto. unfold is_node, INDIRECT. lia. Qed.

Definition all_nodes : gset Z := {[INDIRECT]} ∪ upto MAXFILE.
Lemma elem_all_nodes k : k ∈ all_nodes ↔ is_node k.
Proof. unfold all_nodes, is_node. rewrite elem_of_union, elem_of_singleton, elem_upto. unfold INDIRECT. change MAXFILE with 140. lia. Qed.

(** ** Giving back the nodes of [F] *)
Section Freeing.
Context (me : Z) (S : superblock) (x : inode) (A0 : acache) (L0 : log).
Context (Hst : fstate S A0 x) (Hbm : sb_size S ≤ 4 * BPB).

Record freeing (F : gset Z) (h : gmap nat (Z * block)) (A : acache) (L : log) : Prop := {
  fg_free : ∀ c, 0 < c < sb_size S →
    is_free (vw A) S c = true ↔ is_free (vw A0) S c = true ∨ ∃ k, k ∈ F ∧ node_addr (vw A0) x k = c;
  fg_boot : is_free (vw A) S 0 = false;
  fg_keep : ∀ b, ¬ is_bitmap S b → vw A b = vw A0 b;
  fg_tx : in_tx A L;
  fg_dirty : ∀ b, b ∈ dt A → b ∈ dt A0 ∨ is_bitmap S b;
  fg_dirty0 : dt A0 ⊆ dt A;
  fg_disk : dk A = dk A0 ∧ hd A = h ∧ ws A = ws A0;
  fg_log : start L = start L0 ∧ lsize L = lsize L0
}.

Lemma freeing_hd F h h' A L : freeing F h A L → freeing F h' (set_hd h' A) L.
Proof. intros [? ? ? [] ? ? (? & ? & ?) ?]. split; done. Qed.

Lemma freeing_skip F h A L k : freeing F h A L → node_addr (vw A0) x k = 0 → freeing ({[k]} ∪ F) h A L.
Proof.
  intros [Hf ? ? ? ? ? ? ?] H0. split; try done. intros c Hc. rewrite Hf by done. split; intros [?|(k' & Hk' & E)]; auto; right.
  - exists k'. split; [set_solver|done].
  - exists k'. split; [|done]. apply elem_of_union in Hk' as [->%elem_of_singleton|]; [lia|done].
Qed.

Lemma freeing_more F F' h A L :
  freeing F h A L → F ⊆ F' → (∀ k, k ∈ F' → k ∉ F → node_addr (vw A0) x k = 0) → freeing F' h A L.
Proof.
  intros [Hf ? ? ? ? ? ? ?] Hsub H0. split; try done. intros c Hc. rewrite Hf by done. split; intros [?|(k & Hk & E)]; auto; right.
  - exists k. split; [by apply Hsub|done].
  - exists k. split; [|done]. destruct (decide (k ∈ F)) as [|Hn]; [done|]. specialize (H0 k Hk Hn). lia.
Qed.

(** The room of the transaction: at most four blocks more than before. *)
Context (Htx0 : in_tx A0 L0) (Hlog : lh_n L0 + 6 < LOGSIZE ∧ lh_n L0 + 6 < lsize L0) .
Context (Hhome : ∀ b, is_bitmap S b → outside_log L0 (Z.of_nat (length (dk A0))) b).
Context (HN : Z.of_nat (length (dk A0)) ≤ 2 ^ 31).

Lemma freeing_count F h A L : freeing F h A L → lh_n L ≤ lh_n L0 + 4 ∧ Z.of_nat (size (dt A)) = lh_n L.
Proof.
  intros Hf. pose proof (tx_size A L (fg_tx _ _ _ _ Hf)) as E. pose proof (tx_size A0 L0 Htx0) as E0.
  assert (size (dt A) ≤ size (dt A0 ∪ list_to_set (seqZ (bmapstart S) 4)))%nat as Hle.
  { apply subseteq_size. intros b Hb. apply (fg_dirty _ _ _ _ Hf) in Hb as [Hb|Hb]; [set_solver|]. apply elem_of_union_r, elem_of_list_to_set.
    eapply bitmap_list; [apply (fs_space _ _ _ Hst)|done|done]. }
  pose proof (size_union_alt (dt A0) (list_to_set (seqZ (bmapstart S) 4) : gset Z)) as Hu.
  pose proof (subseteq_size (list_to_set (seqZ (bmapstart S) 4) ∖ dt A0 : gset Z) (list_to_set (seqZ (bmapstart S) 4)) ltac:(set_solver)) as Hd.
  pose proof (size_list_le (seqZ (bmapstart S) 4)) as Hs. rewrite length_seqZ in Hs. lia.
Qed.

Lemma freeing_can_log F h A L k : freeing F h A L → k ≤ 2 → can_log L k.
Proof.
  intros Hf Hk. destruct (freeing_count F h A L Hf) as [? _]. destruct (tx_open _ _ (fg_tx _ _ _ _ Hf)) as [Ho _], (fg_log _ _ _ _ Hf) as [_ Hl].
  unfold can_log. lia.
Qed.
(** One block is given back. *)
Lemma free_step C A L s F h k :
  fabs me S C A L s → freeing F h A L → (∀ j, j ∈ F → is_node j) → is_node k → k ∉ F → node_addr (vw A0) x k ≠ 0 →
  (∀ i b d, h !! i = Some (b, d) → ¬ is_bitmap S b) → Z.of_nat (size h) + lh_n L0 + 6 < NBUF →
  ∃ A' L' s', bfree me 1 (node_addr (vw A0) x k) s = Ok tt s' ∧ fabs me S C A' L' s' ∧ freeing ({[k]} ∪ F) h A' L'.
Proof.
  intros HF Hf HFn Hk Hnk Hne Hh Hroom. set (a := node_addr (vw A0) x k) in *. pose proof (fs_space _ _ _ Hst) as Hsp.
  pose proof (sp_layout _ _ _ Hsp) as Hly. destruct (tr_own _ _ _ (fs_tree _ _ _ Hst) k Hk Hne) as (Ha & Hu & Hnb). fold a in Ha, Hu, Hnb.
  destruct (freeing_count F h A L Hf) as [Hn Hsz]. destruct (fg_disk _ _ _ _ Hf) as (Hdk & Hhd & Hws), (fg_log _ _ _ _ Hf) as [Hls Hll].
  assert (is_free (vw A) S a = false) as Hnf.
  { apply not_true_is_false. intros E. apply (fg_free _ _ _ _ Hf) in E as [E|(j & Hj & E)]; [congruence| |done].
    assert (k = j) as ->; [|done]. apply (tr_inj _ _ _ (fs_tree _ _ _ Hst)); auto. }
  assert (is_bitmap S (BBLOCK a S)) as Hbb by (exists a; split; [lia|done]).
  pose proof (bfree_ok me S C A L s a HF) as Hok. rewrite Hnf, Hdk in Hok.
  destruct Hok as (d & s' & E & Hd & Hl & HF'); [done|by eapply freeing_can_log; [|lia]|lia| | |].
  { intros i d. rewrite Hhd. intros Hi. by apply (Hh i _ d Hi). } { right. rewrite Hhd. lia. }
  exists (given_back S a d A), (logged L (BBLOCK a S)), s'. split_and!; [done|done|].
  assert (∀ c, 0 ≤ c < sb_size S → is_free (vw (given_back S a d A)) S c = is_free (vw A) S c || (c =? a)) as Hfree
    by (intros c Hc; apply given_back_free; [by rewrite Hdk|lia|done..]).
  split.
  - intros c Hc. rewrite Hfree, orb_true_iff, Z.eqb_eq, (fg_free _ _ _ _ Hf) by lia. split.
    + intros [[?|(j & Hj & Ej)]| ->]; [by left|right; exists j; split; [set_solver|done]|right; exists k; split; [set_solver|done]].
    + intros [?|(j & [->%elem_of_singleton|Hj]%elem_of_union & Ej)]; [by left; left|by right|left; right; by exists j].
  - rewrite Hfree by lia. rewrite (fg_boot _ _ _ _ Hf). apply Z.eqb_neq. lia.
  - intros b Hb. cbn. unfold upd. rewrite decide_False; [by apply (fg_keep _ _ _ _ Hf)|]. by intros ->.
  - pose proof (Hhome _ Hbb) as [Hr Hout]. apply in_tx_write; [apply Hf|lia|lia|lia|]. unfold outside_log. by rewrite Hdk, Hls, Hll.
  - intros b. cbn. rewrite elem_of_union, elem_of_singleton. intros [->|Hb]; [by right|by apply (fg_dirty _ _ _ _ Hf)].
  - cbn. pose proof (fg_dirty0 _ _ _ _ Hf). set_solver.
  - done.
  - unfold logged. by destruct (_ =? _).
Qed.

(** Node [k], if it is allocated, is given back. *)
Lemma free_node C A L s F h k :
  fabs me S C A L s → freeing F h A L → (∀ j, j ∈ F → is_node j) → is_node k → k ∉ F →
  (∀ i b d, h !! i = Some (b, d) → ¬ is_bitmap S b) → Z.of_nat (size h) + lh_n L0 + 6 < NBUF →
  let a := node_addr (vw A0) x k in
  ∃ A' L' s', (if a =? 0 then ret tt else bfree me 1 a) s = Ok tt s' ∧ fabs me S C A' L' s' ∧ freeing ({[k]} ∪ F) h A' L'.
Proof.
  intros HF Hf HFn Hk Hnk Hh Hroom a. destruct (Z.eqb_spec a 0) as [E|E].
  - exists A, L, s. split_and!; [done|done|by apply freeing_skip].
  - by eapply free_step.
Qed.

Context (C : list inode) (ip : nat) (Hx : C !! ip = Some x) (Hh0 : hd A0 = ∅) (Hroom : lh_n L0 + 8 < NBUF).

Lemma freeing_start : is_free (vw A0) S 0 = false → freeing ∅ ∅ A0 L0.
Proof. intros H0. split; try done; [|by left]. intros c Hc. split; [by left|]. intros [?|(k & Hk & _)]; [done|set_solver]. Qed.

(** The blocks whose addresses are in the inode. *)
Lemma trunc_direct s : fabs me S C A0 L0 s →
  wp (for_range 0 NDIRECT (λ i,
    let! x := get_inode ip in
    let! a := of_opt (i_addrs x !! Z.to_nat i) in
    do! (if a =? 0 then ret tt else
         do! bfree me (i_dev x) a in
         let! x := get_inode ip in put_inode ip (set_i_addr i 0 x)) in
    ret (@None unit)))
   (λ _ s', ∃ A L, fabs me S (<[ip := zeroed x 12]> C) A L s' ∧ freeing (upto 12) ∅ A L) s.
Proof.
  intros HF. pose proof (tr_len _ _ _ (fs_tree _ _ _ Hst)) as Hl. assert (ip < length C)%nat as Hip by (by eapply lookup_lt_Some).
  apply (wp_for_range _ (λ j s', ∃ A L, fabs me S (<[ip := zeroed x j]> C) A L s' ∧ freeing (upto j) ∅ A L)); [done| | |by intros s' ?].
  - exists A0, L0. rewrite zeroed_0, list_insert_id by done. split; [done|]. apply freeing_start, Hst.
  - change NDIRECT with 12. intros j s1 Hj (A & L & HF1 & Hf).
    assert ((<[ip := zeroed x j]> C) !! ip = Some (zeroed x j)) as Hx1 by (by apply list_lookup_insert_eq).
    eapply wp_bind_ok; [exact (get_inode_ok me S _ A L s1 ip _ HF1 Hx1)|].
    rewrite (zeroed_at x Hl j) by lia. cbn [of_opt]. eapply wp_bind_ok; [reflexivity|].
    assert (node_addr (vw A0) x j = addr_at x j) as En.
    { unfold node_addr, INDIRECT. by rewrite (proj2 (Z.eqb_neq j (-1))), (proj2 (Z.ltb_lt j NDIRECT)) by (unfold NDIRECT; lia). }
    destruct (free_node _ A L s1 (upto j) ∅ j HF1 Hf) as (A1 & L1 & s2 & E1 & HF2 & Hf2).
    { intros k Hk. eapply upto_node; [exact Hk|]. change MAXFILE with 140. lia. } { unfold is_node, INDIRECT. change MAXFILE with 140. lia. }
    { rewrite elem_upto. lia. } { done. } { rewrite map_size_empty. lia. }
    rewrite En in E1. rewrite upto_next in Hf2 by lia. destruct (Z.eqb_spec (addr_at x j) 0) as [H0|H0].
    + eapply wp_bind_ok; [reflexivity|]. cbn [wp ret]. injection E1 as <-. exists A1, L1. rewrite zeroed_skip by (done || lia). by split.
    + change (i_dev (zeroed x j)) with (i_dev x). rewrite (fs_dev _ _ _ Hst).
      eapply wp_bind_ok; [rewrite (bind_ok _ _ _ _ _ E1), (bind_ok _ _ _ _ _ (get_inode_ok me S _ A1 L1 s2 ip _ HF2 Hx1)); reflexivity|].
      cbn [wp ret]. rewrite zeroed_next by (done || lia).
      destruct (put_inode_ok me S _ A1 L1 s2 ip (zeroed x (j + 1)) HF2) as (s3 & E3 & HF3). injection E3 as <-.
      exists A1, L1. rewrite list_insert_insert_eq in HF3. by split.
Qed.

(** The blocks whose addresses are in the indirect block, which is in use. *)
Lemma trunc_entries C1 A L s bp d :
  let ia := addr_at x NDIRECT in
  let h := {[bp := (ia, d)]} : gmap nat (Z * block) in
  ia ≠ 0 → vw A0 ia = Some d → fabs me S C1 A L s → freeing (upto 12) h A L →
  wp (for_range 0 NINDIRECT (λ j,
    let! d := bdata bp in
    let b := get_uint d (4 * j) in
    do! (if b =? 0 then ret tt else bfree me 1 b) in ret (@None unit)))
   (λ _ s', ∃ A L, fabs me S C1 A L s' ∧ freeing (upto 140) h A L) s.
Proof.
  intros ia h Hia Hd HF Hf. destruct (tr_own _ _ _ (fs_tree _ _ _ Hst) INDIRECT ltac:(done) Hia) as (_ & _ & Hnb).
  change (node_addr (vw A0) x INDIRECT) with ia in Hnb. change NINDIRECT with 128.
  apply (wp_for_range _ (λ j s', ∃ A L, fabs me S C1 A L s' ∧ freeing (upto (12 + j)) h A L)); [done|by exists A, L| |by intros s' ?].
  intros j s1 Hj (A1 & L1 & HF1 & Hf1). destruct (fg_disk _ _ _ _ Hf1) as (_ & Hh1 & _).
  eapply wp_bind_ok; [apply (bdata_ok me S C1 A1 L1 s1 bp ia d HF1); rewrite Hh1; apply lookup_singleton_eq|].
  assert (get_uint d (4 * j) = node_addr (vw A0) x (12 + j)) as ->.
  { unfold node_addr, INDIRECT. rewrite (proj2 (Z.eqb_neq (12 + j) (-1))), (proj2 (Z.ltb_ge (12 + j) NDIRECT)) by (unfold NDIRECT; lia).
    fold ia. rewrite (proj2 (Z.eqb_neq _ _) Hia), Hd. cbn. do 2 f_equal. unfold NDIRECT. lia. }
  destruct (free_node C1 A1 L1 s1 (upto (12 + j)) h (12 + j) HF1 Hf1) as (A2 & L2 & s2 & E2 & HF2 & Hf2).
  { intros k Hk. eapply upto_node; [exact Hk|]. change MAXFILE with 140. lia. } { unfold is_node, INDIRECT. change MAXFILE with 140. lia. }
  { rewrite elem_upto. lia. } { intros i b d' [_ [= <- <-]]%lookup_singleton_Some. done. } { unfold h. rewrite map_size_singleton. lia. }
  eapply wp_bind_ok; [exact E2|]. cbn [wp ret]. exists A2, L2. rewrite upto_next in Hf2 by lia. by rewrite Z.add_assoc.
Qed.

(** The indirect block and what it lists. *)
Lemma trunc_indirect C1 A L s :
  addr_at x NDIRECT ≠ 0 → fabs me S C1 A L s → freeing (upto 12) ∅ A L →
  ∃ A' L' s', (let! bp := read_block me 1 (addr_at x NDIRECT) in
     let! _ := for_range 0 NINDIRECT (λ j,
       let! d := bdata bp in
       let b := get_uint d (4 * j) in
       do! (if b =? 0 then ret tt else bfree me 1 b) in ret (@None unit)) in
     do! release_block me bp in
     bfree me 1 (addr_at x NDIRECT)) s = Ok tt s' ∧ fabs me S C1 A' L' s' ∧ freeing ({[INDIRECT]} ∪ upto 140) ∅ A' L'.
Proof.
  intros Hia HF Hf. set (ia := addr_at x NDIRECT) in *. destruct (tr_own _ _ _ (fs_tree _ _ _ Hst) INDIRECT ltac:(done) Hia) as (Hr & _ & Hnb).
  change (node_addr (vw A0) x INDIRECT) with ia in Hnb, Hr. pose proof (ly_size _ _ (sp_layout _ _ _ (fs_space _ _ _ Hst))).
  destruct (fg_disk _ _ _ _ Hf) as (Hdk & Hh & _), (freeing_count _ _ _ _ Hf) as [Hn Hsz].
  destruct (read_block_ok me S C1 A L s ia HF) as (bp & d & s1 & E1 & Hd & _ & _ & Hcl & HF1); [rewrite Hdk; lia| |right; rewrite Hh, map_size_empty; lia|].
  { intros i d. by rewrite Hh, lookup_empty. }
  rewrite Hh, insert_empty in HF1. rewrite (fg_keep _ _ _ _ Hf _ Hnb) in Hd. rewrite (bind_ok _ _ _ _ _ E1).
  pose proof (trunc_entries C1 _ L s1 bp d Hia Hd HF1 (freeing_hd _ _ _ _ _ Hf)) as Hw.
  apply wp_ok in Hw as (r & s2 & E2 & A2 & L2 & HF2 & Hf2). rewrite (bind_ok _ _ _ _ _ E2).
  destruct (fg_disk _ _ _ _ Hf2) as (Hdk2 & Hh2 & _).
  destruct (release_ok me S C1 A2 L2 s2 bp ia d HF2) as (s3 & E3 & HF3); [rewrite Hh2; apply lookup_singleton_eq| |].
  { rewrite Hdk2, <- Hdk. destruct Hcl as [Hc|Hc]; [left|by right]. apply (fg_dirty0 _ _ _ _ Hf2).
    by apply (fg_dirty _ _ _ _ Hf) in Hc as [?|?]. }
  rewrite Hh2, delete_singleton_eq in HF3. rewrite (bind_ok _ _ _ _ _ E3).
  destruct (free_step C1 _ L2 s3 (upto 140) ∅ INDIRECT HF3 (freeing_hd _ _ _ _ _ Hf2)) as (A4 & L4 & s4 & E4 & HF4 & Hf4).
  { intros k Hk. eapply upto_node; [exact Hk|]. change MAXFILE with 140. lia. } { done. } { rewrite elem_upto. unfold INDIRECT. lia. } { done. } { done. } { rewrite map_size_empty. lia. }
  by exists A4, L4, s4.
Qed.

(** [itrunc] up to the size. *)
Lemma trunc_rest A L s :
  fabs me S (<[ip := zeroed x 12]> C) A L s → freeing (upto 12) ∅ A L →
  ∃ A' L' s', (let! x := get_inode ip in
    let! a := of_opt (i_addrs x !! Z.to_nat NDIRECT) in
    if a =? 0 then ret tt else
      let! bp := read_block me (i_dev x) a in
      let! _ := for_range 0 NINDIRECT (λ j,
        let! d := bdata bp in
        let b := get_uint d (4 * j) in
        do! (if b =? 0 then ret tt else bfree me (i_dev x) b) in ret (@None unit)) in
      do! release_block me bp in
      do! bfree me (i_dev x) a in
      let! x := get_inode ip in put_inode ip (set_i_addr NDIRECT 0 x)) s = Ok tt s' ∧
    fabs me S (<[ip := zeroed x 13]> C) A' L' s' ∧ freeing all_nodes ∅ A' L'.
Proof.
  intros HF Hf. pose proof (tr_len _ _ _ (fs_tree _ _ _ Hst)) as Hl. assert (ip < length C)%nat as Hip by (by eapply lookup_lt_Some).
  assert ((<[ip := zeroed x 12]> C) !! ip = Some (zeroed x 12)) as Hx1 by (by apply list_lookup_insert_eq).
  rewrite (bind_ok _ _ _ _ _ (get_inode_ok me S _ A L s ip _ HF Hx1)).
  change NDIRECT with 12 at 1. rewrite (zeroed_at x Hl 12) by lia. cbn [of_opt]. rewrite bind_ret_l.
  change (i_dev (zeroed x 12)) with (i_dev x). rewrite (fs_dev _ _ _ Hst). destruct (Z.eqb_spec (addr_at x 12) 0) as [H0|Hia].
  - pose proof (zeroed_skip x Hl 12 ltac:(lia) H0) as Ez. change (12 + 1) with 13 in Ez.
    exists A, L, s. rewrite Ez. split_and!; [done|done|]. eapply freeing_more; [exact Hf| |].
    + intros k. rewrite elem_upto, elem_all_nodes. unfold is_node, INDIRECT. change MAXFILE with 140. lia.
    + intros k Hn Hk. rewrite elem_upto in Hk. rewrite elem_all_nodes in Hn. unfold is_node, node_addr, INDIRECT, NDIRECT in *.
      destruct (Z.eqb_spec k (-1)); [done|]. destruct (Z.ltb_spec k 12); [lia|by rewrite H0].
  - destruct (trunc_indirect _ A L s Hia HF Hf) as (A1 & L1 & s1 & E1 & HF1 & Hf1). change (addr_at x NDIRECT) with (addr_at x 12) in E1.
    destruct (put_inode_ok me S _ A1 L1 s1 ip (set_i_addr NDIRECT 0 (zeroed x 12)) HF1) as (s2 & E2 & HF2).
    exists A1, L1, s2. split_and!.
    + unfold bind in E1 |- *. destruct (read_block me 1 (addr_at x 12) s) as [bp s3|]; [|done]. destruct (for_range _ _ _ s3) as [r s4|]; [|done].
      destruct (release_block me bp s4) as [[] s5|]; [|done]. rewrite E1. rewrite (get_inode_ok me S _ A1 L1 s1 ip _ HF1 Hx1). exact E2.
    + rewrite list_insert_insert_eq in HF2. change NDIRECT with 12 in HF2. by rewrite zeroed_next in HF2.
    + exact Hf1.
Qed.

End Freeing.
Section Trunc.
Context (me : Z) (S : superblock) (x : inode) (A0 : acache) (L0 : log).

(** The file system once all blocks of the file are free. *)
Lemma freed_space A L : fstate S A0 x → freeing S x A0 L0 all_nodes ∅ A L → space S (Z.of_nat (length (dk A))) (vw A).
Proof.
  intros [_ Hsp Ht] Hf. destruct (fg_disk _ _ _ _ _ _ _ _ Hf) as (Hdk & _). rewrite Hdk. split; [apply Hsp|apply Hf|].
  intros c Hc. destruct (sp_bitmap _ _ _ Hsp c Hc) as [Hr Hu]. split; [done|]. destruct (decide (c = 0)) as [->|]; [apply Hf|].
  apply not_true_is_false. intros E. apply (fg_free _ _ _ _ _ _ _ _ Hf) in E as [E|(k & Hk & E)]; [congruence| |lia].
  apply elem_all_nodes in Hk. destruct (tr_own _ _ _ Ht k Hk) as (_ & _ & Hnb); [lia|]. apply Hnb. by rewrite E.
Qed.

Lemma freed_file A L : file_ok S A0 x → freeing S x A0 L0 all_nodes ∅ A L →
  let x' := set_i_size 0 (zeroed x 13) in
  fstate S A x' ∧ allocated S (vw A) (home S x') ∧ ∀ n, is_node n → node_addr (vw A) x' n = 0.
Proof.
  intros Hfo Hf x'. pose proof (fo_state _ _ _ Hfo) as Hst. pose proof (tr_len _ _ _ (fs_tree _ _ _ Hst)) as Hl.
  assert (∀ n, is_node n → node_addr (vw A) x' n = 0) as H0 by (intros n Hn; exact (zeroed_all x Hl (vw A) n Hn)).
  split_and!; [|change (home S x') with (home S x)|done].
  - split; [apply Hst|by apply (freed_space A L)|]. split; [cbn; rewrite drop_ge by lia; done| |]; intros n; intros; exfalso; auto.
  - destruct (fo_home _ _ _ Hfo) as [(Hr & Hu & Hnb) Hno]. split; [done|]. split; [|done]. apply not_true_is_false. intros E.
    apply (fg_free _ _ _ _ _ _ _ _ Hf) in E as [E|(k & Hk & E)]; [congruence| |done]. apply elem_all_nodes in Hk. by apply (Hno k).
Qed.

(** The end of [itrunc]: the size, and the copy of the inode on the disk. *)
Lemma trunc_store C ip A L s :
  let x' := set_i_size 0 (zeroed x 13) in
  (ip < length C)%nat → file_ok S A0 x → sb_size S ≤ 4 * BPB → freeing S x A0 L0 all_nodes ∅ A L → outside_log L0 (Z.of_nat (length (dk A0))) (home S x) →
  Z.of_nat (length (dk A0)) ≤ 2 ^ 31 → lh_n L + 1 < LOGSIZE → lh_n L + 1 < lsize L → fabs me S (<[ip := zeroed x 13]> C) A L s →
  ∃ A' L' s', (let! x := get_inode ip in do! put_inode ip (set_i_size 0 x) in iupdate me ip) s = Ok tt s' ∧
    fabs me S (<[ip := x']> C) A' L' s' ∧ file_ok S A' x' ∧ in_tx A' L' ∧ lh_n L' ≤ lh_n L + 1 ∧
    (dk A' = dk A ∧ hd A' = hd A ∧ start L' = start L ∧ lsize L' = lsize L) ∧
    (∀ c, 0 ≤ c < sb_size S → is_free (vw A') S c = is_free (vw A) S c) ∧ (∀ b, b ≠ home S x → vw A' b = vw A b).
Proof.
  intros x' Hip Hfo Hbm Hf Hout HN Hn1 Hn2 HF. pose proof (fo_state _ _ _ Hfo) as Hst. pose proof (tr_len _ _ _ (fs_tree _ _ _ Hst)) as Hl.
  destruct (freed_file A L Hfo Hf) as (Hst2 & Hal & H0). fold x' in Hst2, Hal, H0. destruct (fg_disk _ _ _ _ _ _ _ _ Hf) as (Hdk & Hhd & _).
  destruct (fg_log _ _ _ _ _ _ _ _ Hf) as [Hls Hll]. pose proof (fg_tx _ _ _ _ _ _ _ _ Hf) as Htx. pose proof (tx_size A L Htx) as Hsz.
  assert ((<[ip := zeroed x 13]> C) !! ip = Some (zeroed x 13)) as Hx1 by (by apply list_lookup_insert_eq).
  rewrite (bind_ok _ _ _ _ _ (get_inode_ok me S _ A L s ip _ HF Hx1)).
  destruct (put_inode_ok me S _ A L s ip x' HF) as (s1 & E1 & HF1). rewrite (bind_ok _ _ _ _ _ E1). rewrite list_insert_insert_eq in HF1.
  destruct Hout as [Hr Ho]. unfold LOGSIZE, MAXOPBLOCKS in Hn1.
  destruct (iupdate_ok me S _ A L s1 ip x' HF1) as (d & s2 & E2 & _ & Hld & HF2);
    [by apply list_lookup_insert_eq|apply Hst2|apply Hst2|change (home S x') with (home S x); by rewrite Hdk| | | |].
  { intros i b. by rewrite Hhd, lookup_empty. } { right. rewrite Hhd, map_size_empty. unfold NBUF. lia. }
  { destruct (tx_open _ _ Htx) as [Hop _]. unfold can_log, LOGSIZE, MAXOPBLOCKS. lia. }
  assert (∀ n, is_node n → node_addr (vw A) x' n ≠ home S x') as Hno by (intros n Hn; rewrite H0 by done; destruct Hal; lia).
  destruct (home_fstate S ∅ A x' (store_inode x' d) Hst2 Hal Hno) as (Hst3 & Hg3 & Hn3 & _); [set_solver|].
  assert (∀ c, 0 ≤ c < sb_size S → is_free (vw (write_to (home S x') (store_inode x' d) A)) S c = is_free (vw A) S c) as Hfr.
  { intros c Hc. unfold is_free. cbn. unfold upd. rewrite decide_False; [done|]. intros E. apply Hal. by exists c. }
  eexists _, _, s2. split; [exact E2|]. split; [exact HF2|]. split; [|split; [|split; [|split; [|split] ] ] ].
  - split; [apply Hfo|exact Hst3|by split|intros bn Hb0 Hb1; cbn in Hb1; unfold BSIZE in *; lia| |by apply stored_store; [apply Hst2|]].
    eapply home_grows; [exact Hst3|exact Hg3|done|by split].
  - apply in_tx_write; [done|unfold LOGSIZE, MAXOPBLOCKS; lia|lia|change (home S x') with (home S x); lia|]. unfold outside_log. by rewrite Hdk, Hls, Hll.
  - unfold logged. destruct (_ =? _); cbn; lia.
  - unfold logged. by destruct (_ =? _).
  - exact Hfr.
  - intros b Hb. cbn. unfold upd. by rewrite decide_False.
Qed.

(** [itrunc], within a transaction with room for six more blocks, empties a file:
    its size is 0, none of its nodes is allocated, its inode on the disk says so, and
    exactly its blocks (all data blocks and the indirect block) have become free. *)
Theorem itrunc_correct C s ip :
  fabs me S C A0 L0 s → C !! ip = Some x → file_ok S A0 x → in_tx A0 L0 → hd A0 = ∅ → sb_size S ≤ 4 * BPB →
  lh_n L0 + 8 < LOGSIZE ∧ lh_n L0 + 8 < lsize L0 →
  (∀ b, is_bitmap S b ∨ b = home S x → outside_log L0 (Z.of_nat (length (dk A0))) b) →
  ∃ A' L' s', itrunc me ip s = Ok tt s' ∧
    let x' := set_i_size 0 (with_addrs (replicate 13 0) x) in
    fabs me S (<[ip := x']> C) A' L' s' ∧ file_ok S A' x' ∧ in_tx A' L' ∧ lh_n L' ≤ lh_n L0 + 5 ∧
    (dk A' = dk A0 ∧ hd A' = ∅ ∧ start L' = start L0 ∧ lsize L' = lsize L0) ∧
    (∀ c, 0 < c < sb_size S →
      is_free (vw A') S c = true ↔ is_free (vw A0) S c = true ∨ ∃ k, is_node k ∧ node_addr (vw A0) x k = c) ∧
    (∀ b, ¬ is_bitmap S b → b ≠ home S x → vw A' b = vw A0 b).
Proof.
  intros HF Hx Hfo Htx Hh Hbm Hlog Hout. pose proof (fo_state _ _ _ Hfo) as Hst. pose proof (tr_len _ _ _ (fs_tree _ _ _ Hst)) as Hl.
  assert (∀ b, is_bitmap S b → outside_log L0 (Z.of_nat (length (dk A0))) b) as Hob by auto.
  pose proof HF as ((_ & _ & HN & _) & _ & _). unfold LOGSIZE, MAXOPBLOCKS in Hlog.
  pose proof (trunc_direct me S x A0 L0 Hst Hbm Htx ltac:(unfold LOGSIZE, MAXOPBLOCKS; lia) Hob HN C ip Hx Hh ltac:(unfold NBUF; lia) s HF) as Hw.
  apply wp_ok in Hw as (r & s1 & E1 & A1 & L1 & HF1 & Hf1).
  destruct (trunc_rest me S x A0 L0 Hst Hbm Htx ltac:(unfold LOGSIZE, MAXOPBLOCKS; lia) Hob HN C ip Hx ltac:(unfold NBUF; lia) A1 L1 s1 HF1 Hf1)
    as (A2 & L2 & s2 & E2 & HF2 & Hf2).
  assert (ip < length C)%nat as Hip by (by eapply lookup_lt_Some).
  destruct (freeing_count S x A0 L0 Hst Hbm Htx ltac:(unfold LOGSIZE, MAXOPBLOCKS; lia) Hob HN _ _ _ _ Hf2) as [Hn _]. destruct (fg_log _ _ _ _ _ _ _ _ Hf2) as [Hss Hls], (fg_disk _ _ _ _ _ _ _ _ Hf2) as (Hdk2 & Hhd2 & _).
  destruct (trunc_store C ip A2 L2 s2 Hip Hfo Hbm Hf2) as (A3 & L3 & s3 & E3 & HF3 & Hfo3 & Htx3 & Hn3 & (Hdk3 & Hhd3 & Hst3 & Hls3) & Hfree & Hv3);
    [auto|done|unfold LOGSIZE, MAXOPBLOCKS; lia|lia|done|].
  assert (set_i_size 0 (zeroed x 13) = set_i_size 0 (with_addrs (replicate 13 0) x)) as Ex
    by (unfold zeroed; rewrite drop_ge, app_nil_r by (rewrite Hl; done); done). rewrite Ex in *.
  exists A3, L3, s3. split; [|split_and!; [done|done|done|lia|congruence..| |]].
  - unfold itrunc. rewrite (bind_ok _ _ _ _ _ E1).
    assert ((<[ip := zeroed x 12]> C) !! ip = Some (zeroed x 12)) as Hx1 by (by apply list_lookup_insert_eq).
    rewrite (bind_ok _ _ _ _ _ (get_inode_ok me S _ A1 L1 s1 ip _ HF1 Hx1)). rewrite (bind_ok _ _ _ _ _ (get_inode_ok me S _ A1 L1 s1 ip _ HF1 Hx1)) in E2.
    assert (i_addrs (zeroed x 12) !! Z.to_nat NDIRECT = Some (addr_at x 12)) as Ha by (apply (zeroed_at x Hl 12); lia).
    rewrite Ha in E2 |- *. cbn [of_opt] in E2 |- *. rewrite bind_ret_l. rewrite bind_ret_l in E2. by rewrite (bind_ok _ _ _ _ _ E2).
  - intros c Hc. rewrite Hfree, (fg_free _ _ _ _ _ _ _ _ Hf2) by lia. by setoid_rewrite elem_all_nodes.
  - intros b Hb Hb'. rewrite Hv3 by done. by apply (fg_keep _ _ _ _ _ _ _ _ Hf2).
Qed.

End Trunc.
End FsysTrunc.

(** FsysIput: [iput] (p4/xv6-public/fs.c) drops a reference to an inode; with the
    last reference to a file that no directory names, the file goes. *)
Module FsysIput.
Import Bio BioInv Log LogInv Fsys FsysInv FsysTx FsysAlloc FsysWrote FsysFile FsysTree FsysGrow FsysExtend FsysWritei FsysTrunc.

(** The cache entry of a file that is gone. *)
Definition dead (x : inode) : inode :=
  Inode (i_dev x) (i_inum x) 0 0 0 0 0 (i_major x) (i_minor x) (i_nlink x) 0 (replicate 13 0).

(** The last reference to a file without a name. *)
Definition last_ref (x : inode) : bool := negb (i_valid x =? 0) && (i_nlink x =? 0) && (i_ref x =? 1).

Section Iput.
Context (me : Z) (S : superblock).

(** The type of an empty file becomes 0, on the disk too. *)
Lemma clear_type_ok C A L s ip x :
  fabs me S C A L s → C !! ip = Some x → file_ok S A x → (∀ n, is_node n → node_addr (vw A) x n = 0) → in_tx A L → hd A = ∅ →
  lh_n L + 1 < LOGSIZE → lh_n L + 1 < lsize L → outside_log L (Z.of_nat (length (dk A))) (home S x) →
  ∃ A' L' s', (let! x := get_inode ip in do! put_inode ip (set_i_type 0 x) in iupdate me ip) s = Ok tt s' ∧
    fabs me S (<[ip := set_i_type 0 x]> C) A' L' s' ∧ stored S (vw A') (set_i_type 0 x) ∧ in_tx A' L' ∧
    (∀ c, 0 ≤ c < sb_size S → is_free (vw A') S c = is_free (vw A) S c) ∧ (∀ b, b ≠ home S x → vw A' b = vw A b).
Proof.
  intros HF Hx Hfo H0 Htx Hhd Hn1 Hn2 Hout. pose proof (fo_state _ _ _ Hfo) as Hst. pose proof (tr_len _ _ _ (fs_tree _ _ _ Hst)) as Hl.
  pose proof (tx_size A L Htx) as Hsz. pose proof HF as ((_ & _ & HN & _) & _ & _). unfold LOGSIZE, MAXOPBLOCKS in Hn1. destruct (fo_home _ _ _ Hfo) as [Hal _].
  rewrite (bind_ok _ _ _ _ _ (get_inode_ok me S _ A L s ip _ HF Hx)). set (x' := set_i_type 0 x).
  destruct (put_inode_ok me S _ A L s ip x' HF) as (s1 & E1 & HF1). rewrite (bind_ok _ _ _ _ _ E1). pose proof Hout as [Hr Ho].
  destruct (iupdate_ok me S _ A L s1 ip x' HF1) as (d & s2 & E2 & _ & Hld & HF2); [|apply Hst|done|done| | | |].
  { apply list_lookup_insert_eq. by eapply lookup_lt_Some. } { intros i b. by rewrite Hhd, lookup_empty. }
  { right. rewrite Hhd, map_size_empty. unfold NBUF. lia. }
  { destruct (tx_open _ _ Htx) as [Hop _]. unfold can_log, LOGSIZE, MAXOPBLOCKS. lia. }
  eexists _, _, s2. split; [exact E2|]. split; [exact HF2|]. split_and!.
  - by apply stored_store.
  - apply in_tx_write; [done|unfold LOGSIZE, MAXOPBLOCKS; lia|lia|change (home S x') with (home S x); lia|exact Hout].
  - intros c Hc. unfold is_free. cbn. unfold upd. rewrite decide_False; [done|]. intros E. apply Hal. by exists c.
  - intros b Hb. cbn. unfold upd. by rewrite decide_False.
Qed.

Lemma acquire_inode_ok C A L s ip x : fabs me S C A L s → C !! ip = Some x → i_locked x = 0 →
  ∃ s', acquire_inode me ip s = Ok tt s' ∧ fabs me S (<[ip := set_i_lock 1 me x]> C) A L s'.
Proof.
  intros HF Hx Hlock. unfold acquire_inode. rewrite (bind_ok _ _ _ _ _ (get_inode_ok me S C A L s ip x HF Hx)), Hlock.
  by apply put_inode_ok.
Qed.

(** The end of [iput]: the lock and the count. *)
Lemma drop_ref_ok C A L s ip x : fabs me S C A L s → C !! ip = Some x →
  ∃ s', (do! release_inode ip in let! x := get_inode ip in put_inode ip (set_i_ref (i_ref x - 1) x)) s = Ok tt s' ∧
    fabs me S (<[ip := set_i_ref (i_ref x - 1) (set_i_lock 0 0 x)]> C) A L s'.
Proof.
  intros HF Hx. pose proof (lookup_lt_Some _ _ _ Hx) as Hip.
  destruct (put_inode_ok me S C A L s ip (set_i_lock 0 0 x) HF) as (s1 & E1 & HF1).
  assert (release_inode ip s = Ok tt s1) as E by (unfold release_inode; by rewrite (bind_ok _ _ _ _ _ (get_inode_ok me S C A L s ip x HF Hx))).
  rewrite (bind_ok _ _ _ _ _ E). assert (<[ip := set_i_lock 0 0 x]> C !! ip = Some (set_i_lock 0 0 x)) as Hx1 by (by apply list_lookup_insert_eq).
  rewrite (bind_ok _ _ _ _ _ (get_inode_ok me S _ A L s1 ip _ HF1 Hx1)).
  destruct (put_inode_ok me S _ A L s1 ip (set_i_ref (i_ref x - 1) (set_i_lock 0 0 x)) HF1) as (s2 & E2 & HF2).
  rewrite list_insert_insert_eq in HF2. by exists s2.
Qed.

(** The file of a last reference goes. *)
Lemma iput_last_ok C A L s ip x :
  fabs me S C A L s → C !! ip = Some x → i_locked x = 0 → last_ref x = true → file_ok S A x → in_tx A L → hd A = ∅ → sb_size S ≤ 4 * BPB →
  lh_n L + 8 < LOGSIZE ∧ lh_n L + 8 < lsize L → (∀ b, is_bitmap S b ∨ b = home S x → outside_log L (Z.of_nat (length (dk A))) b) →
  ∃ A' L' s', iput me ip s = Ok tt s' ∧ fabs me S (<[ip := dead x]> C) A' L' s' ∧ stored S (vw A') (dead x) ∧ in_tx A' L' ∧
    (∀ c, 0 < c < sb_size S →
      is_free (vw A') S c = true ↔ is_free (vw A) S c = true ∨ ∃ k, is_node k ∧ node_addr (vw A) x k = c) ∧
    (∀ b, ¬ is_bitmap S b → b ≠ home S x → vw A' b = vw A b).
Proof.
  intros HF Hx Hlock Hlast Hfo Htx Hhd Hbm Hlog Hout. unfold LOGSIZE, MAXOPBLOCKS in Hlog. pose proof (lookup_lt_Some _ _ _ Hx) as Hip.
  unfold last_ref in Hlast. rewrite !andb_true_iff, negb_true_iff, !Z.eqb_eq in Hlast. destruct Hlast as [[Hv Hnl] Href].
  destruct (acquire_inode_ok C A L s ip x HF Hx Hlock) as (s1 & E1 & HF1). set (x1 := set_i_lock 1 me x) in *.
  assert (∀ (y : inode), (<[ip := y]> C) !! ip = Some y) as Hat by (intros; by apply list_lookup_insert_eq).
  destruct (itrunc_correct me S x1 A L (<[ip := x1]> C) s1 ip HF1 (Hat _) (file_ok_lock S A x 1 me Hfo) Htx Hhd Hbm)
    as (A2 & L2 & s2 & E2 & HF2 & Hfo2 & Htx2 & Hn2 & (Hdk2 & Hhd2 & Hst2 & Hls2) & Hfree2 & Hv2); [unfold LOGSIZE, MAXOPBLOCKS; lia|exact Hout|].
  rewrite list_insert_insert_eq in HF2. set (x2 := set_i_size 0 _) in *.
  destruct (clear_type_ok _ A2 L2 s2 ip x2 HF2 (Hat _) Hfo2) as (A3 & L3 & s3 & E3 & HF3 & Hsto & Htx3 & Hfree3 & Hv3);
    [|done|done|unfold LOGSIZE, MAXOPBLOCKS; lia|lia|rewrite Hdk2; unfold outside_log; rewrite Hst2, Hls2; apply Hout; by right|].
  { intros n Hn. assert (length (i_addrs x1) = 13%nat) as Hl by apply (fs_tree _ _ _ (fo_state _ _ _ Hfo)).
    rewrite <- (zeroed_all x1 Hl (vw A2) n Hn). unfold zeroed. by rewrite drop_ge, app_nil_r by (by rewrite Hl). }
  rewrite list_insert_insert_eq in HF3. set (x3 := set_i_type 0 x2) in *.
  destruct (put_inode_ok me S _ A3 L3 s3 ip (set_i_valid 0 x3) HF3) as (s4 & E4 & HF4). rewrite list_insert_insert_eq in HF4.
  destruct (drop_ref_ok _ A3 L3 s4 ip (set_i_valid 0 x3) HF4 (Hat _)) as (s5 & E5 & HF5). rewrite list_insert_insert_eq in HF5.
  assert (set_i_ref (i_ref (set_i_valid 0 x3) - 1) (set_i_lock 0 0 (set_i_valid 0 x3)) = dead x) as Ed.
  { unfold dead, x3, x2, x1. cbn. by rewrite Href. }
  rewrite Ed in HF5. exists A3, L3, s5. split_and!; [|done|exact Hsto|done| |].
  - unfold iput. rewrite (bind_ok _ _ _ _ _ E1), (bind_ok _ _ _ _ _ (get_inode_ok me S _ A L s1 ip _ HF1 (Hat _))).
    change (i_valid x1) with (i_valid x). change (i_nlink x1) with (i_nlink x). change (i_ref x1) with (i_ref x).
    rewrite (proj2 (Z.eqb_neq _ _)), Hnl, Href by (by apply Z.eqb_neq). cbn [negb andb Z.eqb Pos.eqb].
    rewrite bind_assoc, (bind_ok _ _ _ _ _ E2). rewrite (bind_ok _ _ _ _ _ (get_inode_ok me S _ A2 L2 s2 ip _ HF2 (Hat _))) in E3.
    rewrite bind_assoc, (bind_ok _ _ _ _ _ (get_inode_ok me S _ A2 L2 s2 ip _ HF2 (Hat _))).
    unfold bind in E3, E5 |- *. destruct (put_inode ip (set_i_type 0 x2) s2) as [[] s6|]; [|done]. rewrite E3.
    rewrite (get_inode_ok me S _ A3 L3 s3 ip _ HF3 (Hat _)), E4. exact E5.
  - intros c Hc. rewrite Hfree3 by lia. by apply Hfree2.
  - intros b Hb Hb'. rewrite Hv3 by done. by apply Hv2.
Qed.

(** [iput] of a reference that is not the last, or of a file that has a name. *)
Lemma iput_more_ok C A L s ip x :
  fabs me S C A L s → C !! ip = Some x → i_locked x = 0 → last_ref x = false →
  ∃ s', iput me ip s = Ok tt s' ∧ fabs me S (<[ip := set_i_ref (i_ref x - 1) (set_i_lock 0 0 x)]> C) A L s'.
Proof.
  intros HF Hx Hlock Hlast.
  pose proof (lookup_lt_Some _ _ _ Hx) as Hip. assert (∀ (y : inode), (<[ip := y]> C) !! ip = Some y) as Hat by (intros; by apply list_lookup_insert_eq).
  destruct (acquire_inode_ok C A L s ip x HF Hx Hlock) as (s1 & E1 & HF1).
  destruct (drop_ref_ok _ A L s1 ip _ HF1 (Hat _)) as (s2 & E2 & HF2). rewrite list_insert_insert_eq in HF2.
  exists s2. split; [|exact HF2]. unfold iput. rewrite (bind_ok _ _ _ _ _ E1), (bind_ok _ _ _ _ _ (get_inode_ok me S _ A L s1 ip _ HF1 (Hat _))).
  unfold last_ref in Hlast. cbn [i_valid i_nlink i_ref set_i_lock]. destruct (negb (i_valid x =? 0) && (i_nlink x =? 0)); cbn [andb] in Hlast; [rewrite Hlast|]; exact E2.
Qed.

(** C32: [iput] drops one reference and nothing else, unless it is the last one of an
    inode without links: then, within a transaction with room for it, all blocks of
    the file become free, the inode on the disk has type 0, so that [ialloc] can use
    it again, and the entry of the cache is unused and must be read again. *)
Theorem iput_correct C A L s ip x :
  fabs me S C A L s → C !! ip = Some x → i_locked x = 0 →
  if last_ref x then
    file_ok S A x → in_tx A L → hd A = ∅ → sb_size S ≤ 4 * BPB → lh_n L + 8 < LOGSIZE ∧ lh_n L + 8 < lsize L →
    (∀ b, is_bitmap S b ∨ b = home S x → outside_log L (Z.of_nat (length (dk A))) b) →
    ∃ A' L' s', iput me ip s = Ok tt s' ∧ fabs me S (<[ip := dead x]> C) A' L' s' ∧ stored S (vw A') (dead x) ∧ in_tx A' L' ∧
      (∀ c, 0 < c < sb_size S →
        is_free (vw A') S c = true ↔ is_free (vw A) S c = true ∨ ∃ k, is_node k ∧ node_addr (vw A) x k = c) ∧
      (∀ b, ¬ is_bitmap S b → b ≠ home S x → vw A' b = vw A b)
  else ∃ s', iput me ip s = Ok tt s' ∧ fabs me S (<[ip := set_i_ref (i_ref x - 1) (set_i_lock 0 0 x)]> C) A L s'.
Proof.
  intros HF Hx Hlock. destruct (last_ref x) eqn:Hlast; [by apply iput_last_ok|by apply iput_more_ok].
Qed.

End Iput.
End FsysIput.
