(* ===== verification/FsysNamei.v ===== *)
(** FsysNamei: what a path names (p4/xv6-public/fs.c: [ilock], [iunlockput],
    [namei]).  On a consistent disk [namei] ends and answers with a reference to the
    inode that the directories on the disk give to the path; all other reference
    counts are as before. *)
From Stdlib Require Import Strings.Byte.
From S2P Require Import Prelude Memory Bio BioInv Log LogInv Fsys FsysInv FsysFile FsysInode FsysDir FsysPath FsysTrunc.
From stdpp Require Import gmap.
Local Open Scope Z_scope.

Module FsysNamei.
Import Bio BioInv Log LogInv Fsys FsysInv FsysFile FsysInode FsysDir FsysPath FsysTrunc.FsysIput.

(** * The tree on the disk *)

(** The part of an inode that is on the disk. *)
Definition core (x : inode) : inode := set_i_ref 0 (set_i_lock 0 0 (set_i_valid 1 x)).

(** Directories are read through [core] fields only. *)
Lemma entry_inum_core v x k : entry_inum v (core x) k = entry_inum v x k.
Proof. unfold entry_inum, entry_bytes, file_byte, file_addr. reflexivity. Qed.
Lemma entry_is_core v x e : entry_is v (core x) e = entry_is v x e.
Proof. unfold entry_is, entry_name, entry_inum, entry_bytes, file_byte, file_addr. reflexivity. Qed.

Section Disk.
Context (S : superblock) (A : acache).

Definition disk_inode (inum : Z) : option inode :=
  if decide (0 < inum < ninodes S)
  then d ← vw A (IBLOCK inum S); Some (load_dinode d (inum mod IPB * 64) (Inode 1 inum 0 0 0 1 0 0 0 0 0 []))
  else None.
Definition used (inum : Z) : Prop := ∃ z, disk_inode inum = Some z ∧ i_type z ≠ 0.

(** A consistent tree: inodes in use have a name and well-formed contents, and the
    entries of directories are inodes in use. *)
Record tree_ok : Prop := {
  tk_root : used ROOTINO;
  tk_block : ∀ inum, used inum → 0 ≤ IBLOCK inum S < Z.of_nat (length (dk A)) ∧ unheld A (IBLOCK inum S);
  tk_room : Z.of_nat (size (hd A)) + Z.of_nat (size (dt A)) < NBUF;
  tk_name : ∀ inum z, disk_inode inum = Some z → i_type z ≠ 0 → i_nlink z ≠ 0;
  tk_file : ∀ inum z, disk_inode inum = Some z → i_type z ≠ 0 → i_type z ≠ T_DEV → file_ready A z;
  tk_dir : ∀ inum z, disk_inode inum = Some z → i_type z = T_DIR →
    i_size z mod sizeof_dirent = 0 ∧
    ∀ k, 0 ≤ k < i_size z / sizeof_dirent → entry_inum (vw A) z k ≠ 0 → used (entry_inum (vw A) z k)
}.

(** The inode that a list of names leads to. *)
Fixpoint resolve (inum : Z) (names : list (list byte)) {struct names} : option Z :=
  match names with
  | [] => Some inum
  | e :: names =>
      z ← disk_inode inum;
      if decide (i_type z = T_DIR) then
        k ← first_in (entry_is (vw A) z e) 0 (i_size z / sizeof_dirent);
        resolve (entry_inum (vw A) z k) names
      else None
  end.

(** * The inode cache *)

(** An entry in use agrees with the disk once it has been read. *)
Definition entry_ok (x : inode) : Prop :=
  i_dev x = 1 ∧ used (i_inum x) ∧ (i_valid x = 0 ∨ disk_inode (i_inum x) = Some (core x)).

(** [held]: the entry that this process has locked. *)
Record cache_ok (C : list inode) (held : option nat) : Prop := {
  co_ic : icache_ok C;
  co_lock : ∀ i x, C !! i = Some x → i_locked x ≠ 0 → held = Some i;
  co_entry : ∀ i x, C !! i = Some x → 0 < i_ref x → entry_ok x
}.

(** The references of [C0], and one more for each element of [hs]. *)
Definition extra (i : nat) (hs : list nat) : Z := Z.of_nat (length (filter (λ j, j = i) hs)).
Definition like (C0 C : list inode) (hs : list nat) : Prop :=
  length C = length C0 ∧
  ∀ i x0 x, C0 !! i = Some x0 → C !! i = Some x →
    i_ref x = i_ref x0 + extra i hs ∧ (0 < i_ref x0 → i_dev x = i_dev x0 ∧ i_inum x = i_inum x0).

Lemma like_refl C : like C C [].
Proof. split; [done|]. intros i x0 x Hx0 Hx. rewrite Hx in Hx0. injection Hx0 as <-. unfold extra. cbn. split; [lia|done]. Qed.

Lemma extra_cons i j hs : extra i (j :: hs) = (if decide (j = i) then 1 else 0) + extra i hs.
Proof. unfold extra. rewrite filter_cons. case_decide; cbn [length]; lia. Qed.
Lemma extra_nonneg i hs : 0 ≤ extra i hs.
Proof. unfold extra. lia. Qed.

(** Changing one entry. *)
Lemma like_update C0 C hs hs' ip x y :
  like C0 C hs → C !! ip = Some x → (∀ i, i ≠ ip → extra i hs' = extra i hs) → i_ref y = i_ref x + extra ip hs' - extra ip hs →
  (∀ x0, C0 !! ip = Some x0 → 0 < i_ref x0 → i_dev y = i_dev x ∧ i_inum y = i_inum x) → like C0 (<[ip := y]> C) hs'.
Proof.
  intros [Hl Hk] Hx Hother Href Hkey. split; [by rewrite length_insert|]. intros i x0 z Hx0 Hz. destruct (decide (i = ip)) as [->|Hne].
  - rewrite list_lookup_insert_eq in Hz by (by eapply lookup_lt_Some). injection Hz as <-. destruct (Hk ip x0 x Hx0 Hx) as [Hr Hd].
    split; [lia|]. intros Hp. destruct (Hkey x0 Hx0 Hp) as [-> ->]. by apply Hd.
  - rewrite list_lookup_insert_ne in Hz by done. rewrite Hother by done. by apply Hk.
Qed.

Lemma like_took C0 C hs dev inum ip y C' :
  icache_ok C0 → like C0 C hs → took C dev inum ip y C' → like C0 C' (ip :: hs).
Proof.
  intros Hok0 Hlk (x & Hx & -> & _ & Hlive & Hcase). pose proof (extra_nonneg ip hs).
  apply (like_update C0 C hs (ip :: hs) ip x y Hlk Hx).
  - intros i Hi. rewrite extra_cons, decide_False by done. lia.
  - rewrite extra_cons, decide_True by done. destruct Hcase as [[_ ->]|(-> & -> & _)]; cbn; lia.
  - intros x0 Hx0 Hp. destruct Hcase as [[(_ & ? & ?) _]|(H0 & _)]; [destruct Hlive as (_ & ? & ?); split; congruence|].
    destruct (proj2 Hlk ip x0 x Hx0 Hx) as [Hr _]. lia.
Qed.

(** Dropping the reference at [ip] again. *)
Lemma like_drop C0 C hs ip x y :
  like C0 C (ip :: hs) → C !! ip = Some x → i_ref y = i_ref x - 1 → i_dev y = i_dev x → i_inum y = i_inum x → like C0 (<[ip := y]> C) hs.
Proof.
  intros Hlk Hx Hr Hd Hi. apply (like_update C0 C (ip :: hs) hs ip x y Hlk Hx).
  - intros i Hi'. rewrite extra_cons, decide_False by done. lia.
  - rewrite extra_cons, decide_True by done. lia.
  - by split.
Qed.

Lemma like_same C0 C hs ip x y :
  like C0 C hs → C !! ip = Some x → i_ref y = i_ref x → i_dev y = i_dev x → i_inum y = i_inum x → like C0 (<[ip := y]> C) hs.
Proof. intros Hlk Hx Hr Hd Hi. apply (like_update C0 C hs hs ip x y Hlk Hx); [done|lia|by split]. Qed.

(** Of two free entries one is free as long as only one more reference is out. *)
Lemma like_free C0 C ip a b x y : like C0 C [ip] → a ≠ b → C0 !! a = Some x → C0 !! b = Some y → i_ref x = 0 → i_ref y = 0 →
  Exists (λ z, i_ref z = 0) C.
Proof.
  intros [Hl Hk] Hab Ha Hb Hx Hy.
  assert (∀ i z, C0 !! i = Some z → i_ref z = 0 → i ≠ ip → Exists (λ z, i_ref z = 0) C) as Hex.
  { intros i z Hz H0 Hne. destruct (lookup_lt_is_Some_2 C i) as [w Hw]; [rewrite Hl; by eapply lookup_lt_Some|].
    apply Exists_exists. exists w. split; [by eapply list_elem_of_lookup_2|]. destruct (Hk i z w Hz Hw) as [-> _]. rewrite extra_cons, decide_False by done. unfold extra. cbn. lia. }
  destruct (decide (a = ip)) as [->|]; [by eapply (Hex b)|by eapply (Hex a)].
Qed.

Lemma cached_at C ip x dev inum : icache_ok C → C !! ip = Some x → live dev inum x → cached C dev inum = Some (ip, x).
Proof. intros Hok Hx Hl. by apply cached_Some. Qed.

End Disk.
Section Namei.
Context (me : Z) (S : superblock) `{Devices} (A : acache) (L : log) (Htree : tree_ok S A).

Lemma icache_update C ip x y :
  icache_ok C → C !! ip = Some x → 0 ≤ i_ref y → (0 < i_ref y → 0 < i_ref x) → i_dev y = i_dev x → i_inum y = i_inum x → icache_ok (<[ip := y]> C).
Proof.
  intros [Hr Hu] Hx Hy Hxy Hd Hi.
  assert (∀ j z, <[ip := y]> C !! j = Some z → ∃ w, C !! j = Some w ∧ (0 < i_ref z → 0 < i_ref w) ∧ i_dev z = i_dev w ∧ i_inum z = i_inum w ∧ 0 ≤ i_ref z) as Hb.
  { intros j z Hz. destruct (decide (j = ip)) as [->|Hne].
    - rewrite list_lookup_insert_eq in Hz by (by eapply lookup_lt_Some). injection Hz as <-. by exists x.
    - rewrite list_lookup_insert_ne in Hz by done. exists z. split_and!; try done. by eapply Hr. }
  split; [by intros j z (? & _ & _ & _ & _ & ?)%Hb|].
  intros j k z w (z0 & Hz & Hz1 & Hzd & Hzi & _)%Hb (w0 & Hw & Hw1 & Hwd & Hwi & _)%Hb Hp (? & ? & ?).
  eapply Hu; [exact Hz|exact Hw|auto|]. split; [auto|]. split; congruence.
Qed.

(** Changing the entry that this process holds, or takes, or lets go. *)
Lemma cache_update C h h' ip x y :
  cache_ok S A C h → C !! ip = Some x → 0 ≤ i_ref y → (0 < i_ref y → 0 < i_ref x ∧ entry_ok S A y) → i_dev y = i_dev x → i_inum y = i_inum x →
  (∀ i, i ≠ ip → h = Some i → h' = Some i) → (i_locked y ≠ 0 → h' = Some ip) → cache_ok S A (<[ip := y]> C) h'.
Proof.
  intros [Hic Hlk Hen] Hx Hr Hy Hd Hi Hh Hl. split; [eapply icache_update; try done; intros; by apply Hy| |];
    intros i z Hz Hz'; (destruct (decide (i = ip)) as [->|Hne];
    [rewrite list_lookup_insert_eq in Hz by (by eapply lookup_lt_Some); injection Hz as <-|rewrite list_lookup_insert_ne in Hz by done]).
  - by apply Hl.
  - apply Hh; [done|]. by eapply Hlk.
  - by apply Hy.
  - by eapply Hen.
Qed.

(** An inode that this process has locked. *)
Definition held_inode (C : list inode) (ip : nat) (inum : Z) (x : inode) : Prop :=
  C !! ip = Some x ∧ live 1 inum x ∧ i_locked x = 1 ∧ i_pid x = me ∧ i_valid x ≠ 0 ∧ disk_inode S A inum = Some (core x) ∧ i_type x ≠ 0.

Lemma used_read inum d : used S A inum → vw A (IBLOCK inum S) = Some d →
  disk_inode S A inum = Some (load_dinode d (inum mod IPB * 64) (Inode 1 inum 0 0 0 1 0 0 0 0 0 [])) ∧ get_short d (inum mod IPB * 64) ≠ 0.
Proof. intros (z & Hz & Ht) Hd. unfold disk_inode in *. case_decide; [|done]. rewrite Hd in *. cbn [mbind option_bind] in *. injection Hz as <-. done. Qed.

Lemma ilock_ok C s ip inum x :
  fabs me S C A L s → cache_ok S A C None → C !! ip = Some x → live 1 inum x →
  ∃ s' y, ilock me ip s = Ok tt s' ∧ fabs me S (<[ip := y]> C) A L s' ∧ cache_ok S A (<[ip := y]> C) (Some ip) ∧
    held_inode (<[ip := y]> C) ip inum y ∧ i_ref y = i_ref x.
Proof.
  intros HF Hco Hx (Href & Hdev & Hinum). destruct (co_entry _ _ _ _ Hco ip x Hx Href) as (_ & Hu & Hval). rewrite Hinum in Hu, Hval.
  assert (i_locked x = 0) as Hlock by (destruct (decide (i_locked x = 0)) as [|Hn]; [done|by pose proof (co_lock _ _ _ _ Hco ip x Hx Hn)]).
  pose proof (lookup_lt_Some _ _ _ Hx) as Hlt. set (x1 := set_i_lock 1 me x).
  assert (∀ y : inode, <[ip := y]> C !! ip = Some y) as Hat by (intros; by apply list_lookup_insert_eq).
  destruct (acquire_inode_ok me S C A L s ip x HF Hx Hlock) as (s1 & E1 & HF1).
  assert (∀ y, i_ref y = i_ref x → i_dev y = 1 → i_inum y = inum → disk_inode S A inum = Some (core y) → cache_ok S A (<[ip := y]> C) (Some ip)) as Hcok.
  { intros y Hyr Hyd Hyi Hyc. apply (cache_update C None (Some ip) ip x y); try done; try congruence.
    intros _. split; [done|]. split; [done|]. rewrite Hyi. split; [done|by right]. }
  unfold ilock. rewrite (bind_ok _ _ _ _ _ (get_inode_ok me S C A L s ip x HF Hx)), (proj2 (Z.ltb_ge _ _)) by lia.
  rewrite (bind_ok _ _ _ _ _ E1), (bind_ok _ _ _ _ _ (get_inode_ok me S _ A L s1 ip x1 HF1 (Hat _))).
  change (i_valid x1) with (i_valid x). destruct (Z.eqb_spec (i_valid x) 0) as [Hv|Hv].
  - destruct (tk_block _ _ Htree inum Hu) as [Hb Hun]. rewrite (bind_ok _ _ _ _ _ (sb_ok me S _ A L s1 HF1)).
    change (i_dev x1) with (i_dev x). change (i_inum x1) with (i_inum x). rewrite Hdev, Hinum.
    destruct (read_block_ok me S _ A L s1 (IBLOCK inum S) HF1 Hb Hun ltac:(right; apply Htree)) as (i & d & s2 & E2 & Hd & Hl & Hi & Hc & HF2).
    rewrite (bind_ok _ _ _ _ _ E2), (bind_ok _ _ _ _ _ (bdata_ok me S _ _ L s2 i _ d HF2 (lookup_insert_eq _ _ _))).
    destruct (used_read inum d Hu Hd) as [Hdi Hty]. set (x2 := load_dinode d (inum mod IPB * 64) x1).
    destruct (put_inode_ok me S _ _ L s2 ip x2 HF2) as (s3 & E3 & HF3). rewrite list_insert_insert_eq in HF3. rewrite (bind_ok _ _ _ _ _ E3).
    destruct (release_ok me S _ _ L s3 i _ d HF3 (lookup_insert_eq _ _ _) Hc) as (s4 & E4 & HF4). rewrite (bind_ok _ _ _ _ _ E4).
    destruct (put_inode_ok me S _ _ L s4 ip (set_i_valid 1 x2) HF4) as (s5 & E5 & HF5). rewrite list_insert_insert_eq in HF5. rewrite (bind_ok _ _ _ _ _ E5).
    change (i_type x2) with (get_short d (inum mod IPB * 64)). rewrite (proj2 (Z.eqb_neq _ _) Hty).
    assert (disk_inode S A inum = Some (core (set_i_valid 1 x2))) as Hcore.
    { rewrite Hdi. unfold x2, x1, core, load_dinode, set_i_valid, set_i_lock, set_i_ref. cbn. by rewrite Hdev, Hinum. }
    exists s5, (set_i_valid 1 x2). split; [done|]. split.
    { cbn [set_hd vw dk ws dt hd] in HF5. rewrite delete_insert_id in HF5 by done. by destruct A. }
    split; [by apply Hcok|]. split; [|done]. split; [apply Hat|]. by split_and!.
  - destruct Hval as [?|Hcore]; [done|]. exists s1, x1. split; [done|]. split; [done|]. split; [by apply Hcok|]. split; [|done].
    split; [apply Hat|]. split; [by split_and!|]. split; [done|]. split; [done|]. split; [done|]. split; [done|].
    destruct Hu as (z & Hz & Ht). rewrite Hcore in Hz. by injection Hz as <-.
Qed.

Lemma iunlockput_ok C s ip inum x :
  fabs me S C A L s → cache_ok S A C (Some ip) → held_inode C ip inum x →
  let y := set_i_ref (i_ref x - 1) (set_i_lock 0 0 x) in
  ∃ s', iunlockput me ip s = Ok tt s' ∧ fabs me S (<[ip := y]> C) A L s' ∧ cache_ok S A (<[ip := y]> C) None.
Proof.
  intros HF Hco (Hx & (Href & Hdev & Hinum) & Hl & Hp & Hv & Hd & Ht) y.
  pose proof (lookup_lt_Some _ _ _ Hx) as Hlt. assert (∀ z : inode, <[ip := z]> C !! ip = Some z) as Hat by (intros; by apply list_lookup_insert_eq).
  destruct (put_inode_ok me S C A L s ip (set_i_lock 0 0 x) HF) as (s1 & E1 & HF1).
  assert (iunlock me ip s = Ok tt s1) as E.
  { unfold iunlock. rewrite (bind_ok _ _ _ _ _ (get_inode_ok me S C A L s ip x HF Hx)), Hl, Hp, Z.eqb_refl, (proj2 (Z.ltb_ge _ _)) by lia. cbn [negb andb orb Z.eqb].
    unfold release_inode. by rewrite (bind_ok _ _ _ _ _ (get_inode_ok me S C A L s ip x HF Hx)). }
  destruct (iput_more_ok me S _ A L s1 ip _ HF1 (Hat _) eq_refl) as (s2 & E2 & HF2).
  { unfold last_ref. cbn [i_valid i_nlink i_ref set_i_lock]. pose proof (tk_name _ _ Htree inum _ Hd Ht) as Hn.
    change (i_nlink (core x)) with (i_nlink x) in Hn. by rewrite (proj2 (Z.eqb_neq _ _) Hn), andb_false_r. }
  rewrite list_insert_insert_eq in HF2. exists s2. split; [unfold iunlockput; by rewrite (bind_ok _ _ _ _ _ E)|]. split; [done|].
  apply (cache_update C (Some ip) None ip x y); try done; [cbn; lia| |by intros i ? [= ->]].
  intros _. split; [done|]. split; [done|]. change (i_inum y) with (i_inum x). rewrite Hinum. split; [by exists (core x)|by right].
Qed.

(** A reference taken keeps the cache in order. *)
Lemma took_ok C h inum ip y C' : cache_ok S A C h → icache_ok C' → used S A inum → took C 1 inum ip y C' → cache_ok S A C' h.
Proof.
  intros [_ Hlk Hen] Hic Hu (x & Hx & -> & Hl & (Hr & Hd & Hi) & Hcase). split; [done| |]; intros i z Hz Hz';
    (destruct (decide (i = ip)) as [->|Hne]; [rewrite list_lookup_insert_eq in Hz by (by eapply lookup_lt_Some); injection Hz as <-|rewrite list_lookup_insert_ne in Hz by done]).
  - apply (Hlk ip x Hx). congruence.
  - by eapply Hlk.
  - split; [done|]. rewrite Hi. split; [done|]. destruct Hcase as [[(? & ? & Hi') ->]|(_ & _ & ->)]; [|by left].
    destruct (Hen ip x Hx) as (_ & _ & [?|Hc]); [done|by left|right]. rewrite <- Hi'. exact Hc.
  - by eapply Hen.
Qed.

Lemma ready_core x : file_ready A (core x) → file_ready A x.
Proof. intros []. by split. Qed.

Lemma like_swap C0 C i j : like C0 C [i; j] → like C0 C [j; i].
Proof. intros [Hl Hk]. split; [done|]. intros k x0 x H0 Hx. rewrite !extra_cons. destruct (Hk k x0 x H0 Hx) as [Hr ?]. rewrite !extra_cons in Hr. split; [lia|done]. Qed.

(** ** The walk *)

(** The two ends of a walk: no inode, or one more reference to inode [inum]. *)
Definition no_inode (C0 : list inode) (s' : fsys) : Prop :=
  ∃ C', fabs me S C' A L s' ∧ cache_ok S A C' None ∧ like C0 C' [].
Definition new_ref (C0 : list inode) (inum : Z) (ip : nat) (s' : fsys) : Prop :=
  ∃ C' x, fabs me S C' A L s' ∧ cache_ok S A C' None ∧ like C0 C' [ip] ∧ C' !! ip = Some x ∧ live 1 inum x ∧ used S A inum.

Context (C0 : list inode) (Hic0 : icache_ok C0).
Context (a b : nat) (fa fb : inode) (Hab : a ≠ b) (Ha : C0 !! a = Some fa) (Hb : C0 !! b = Some fb) (Hfa : i_ref fa = 0) (Hfb : i_ref fb = 0).

Lemma put_back_ok C s ip inum x : fabs me S C A L s → cache_ok S A C (Some ip) → held_inode C ip inum x → like C0 C [ip] →
  ∃ s', iunlockput me ip s = Ok tt s' ∧ no_inode C0 s'.
Proof.
  intros HF Hco Hh Hlk. destruct (iunlockput_ok C s ip inum x HF Hco Hh) as (s' & E & HF' & Hco'). exists s'. split; [done|].
  eexists. split; [exact HF'|]. split; [done|]. by apply (like_drop C0 C [] ip x); [|apply Hh|..].
Qed.

(** From a locked directory to the inode of an entry. *)
Lemma step_down_ok C s ip inum x e :
  fabs me S C A L s → cache_ok S A C (Some ip) → held_inode C ip inum x → like C0 C [ip] → i_type x = T_DIR →
  match first_in (entry_is (vw A) x e) 0 (i_size x / sizeof_dirent) with
  | Some k => ∃ next o s1 s', dirlookup me ip e s = Ok (Some (next, o)) s1 ∧ iunlockput me ip s1 = Ok tt s' ∧
      new_ref C0 (entry_inum (vw A) x k) next s'
  | None => ∃ s1 s', dirlookup me ip e s = Ok None s1 ∧ iunlockput me ip s1 = Ok tt s' ∧ no_inode C0 s'
  end.
Proof.
  intros HF Hco Hh Hlk Hty. pose proof Hh as (Hx & Hl & Hlock & Hpid & Hv & Hd & _).
  destruct (tk_dir _ _ Htree inum (core x) Hd Hty) as [Hmod Hent].
  assert (file_ready A x) as Hfr by (apply ready_core; apply (tk_file _ _ Htree inum (core x) Hd); change (i_type (core x)) with (i_type x); rewrite Hty; done).
  assert (i_dev x = 1) as Hdev by apply Hl.
  pose proof (dirlookup_ok me S A L C s ip x e HF (co_ic _ _ _ _ Hco) Hx Hfr Hty Hmod (like_free C0 C ip a b fa fb Hlk Hab Ha Hb Hfa Hfb)) as Hr.
  destruct (first_in _ _ _) as [k|].
  2:{ destruct Hr as (s1 & E1 & HF1). destruct (put_back_ok C s1 ip inum x HF1 Hco Hh Hlk) as (s' & E' & Hno). by exists s1, s'. }
  destruct Hr as (next & y & s1 & C1 & E1 & HF1 & Hic1 & _ & _ & _ & Ht & Hk & Hne). rewrite Hdev in Ht.
  specialize (Hent k). rewrite entry_inum_core in Hent. pose proof (Hent Hk Hne) as Hu. set (j := entry_inum (vw A) x k) in *.
  pose proof (took_ok C (Some ip) j next y C1 Hco Hic1 Hu Ht) as Hco1. pose proof (like_took C0 C [ip] 1 j next y C1 Hic0 Hlk Ht) as Hlk1.
  destruct Ht as (x0 & Hx0 & -> & Hly & Hlive & Hcase). pose proof (lookup_lt_Some _ _ _ Hx0) as Hlt.
  assert (∃ x1, held_inode (<[next := y]> C) ip inum x1 ∧ (next = ip → x1 = y ∧ 1 < i_ref y)) as (x1 & Hh1 & Hsame).
  { destruct (decide (next = ip)) as [->|Hn].
    - rewrite Hx in Hx0. injection Hx0 as <-. destruct Hl as (Href & _ & Hinum).
      destruct Hcase as [[(_ & _ & Hj) ->]|(H0 & _)]; [|lia]. exists (set_i_ref (i_ref x + 1) x). cbn [i_ref set_i_ref]. split; [|split; [done|lia]].
      split; [by apply list_lookup_insert_eq|]. split; [split_and!; cbn; (lia || congruence)|].
      split; [done|]. split; [done|]. split; [done|]. split; [exact Hd|]. change (i_type x ≠ 0). by rewrite Hty.
    - exists x. split; [|done]. split; [by rewrite list_lookup_insert_ne|exact (proj2 Hh)]. }
  destruct (iunlockput_ok _ s1 ip inum x1 HF1 Hco1 Hh1) as (s' & E' & HF' & Hco').
  exists next, (k * sizeof_dirent), s1, s'. split; [done|]. split; [done|]. pose proof Hh1 as (Hx1 & _).
  assert (like C0 (<[ip := set_i_ref (i_ref x1 - 1) (set_i_lock 0 0 x1)]> (<[next := y]> C)) [next]) as Hlk' by (apply (like_drop C0 _ [next] ip x1); [by apply like_swap|done..]).
  destruct (decide (next = ip)) as [->|Hn].
  - destruct (Hsame eq_refl) as [-> Hr2]. eexists _, _. split; [exact HF'|]. split; [done|]. split; [done|]. split; [apply list_lookup_insert_eq; by rewrite length_insert|].
    split; [|done]. destruct Hlive as (? & ? & ?). split_and!; cbn; (lia || done).
  - eexists _, y. split; [exact HF'|]. split; [done|]. split; [done|]. split; [rewrite list_lookup_insert_ne by done; by apply list_lookup_insert_eq|done].
Qed.

Lemma walk_ok names : ∀ ip inum name s, new_ref C0 inum ip s →
  match resolve S A inum names with
  | None => ∃ s', walk me false ip name names s = Ok None s' ∧ no_inode C0 s'
  | Some j => ∃ jp nm s', walk me false ip name names s = Ok (Some (jp, nm)) s' ∧ new_ref C0 j jp s'
  end.
Proof.
  induction names as [|e names IH]; intros ip inum name s Hnew; cbn [resolve walk]; [by exists ip, name, s|].
  destruct Hnew as (C & x & HF & Hco & Hlk & Hx & Hl & Hu).
  destruct (ilock_ok C s ip inum x HF Hco Hx Hl) as (s1 & y & E1 & HF1 & Hco1 & Hh1 & Hr1). pose proof Hh1 as (Hy & Hly & _ & _ & _ & Hd & _).
  assert (like C0 (<[ip := y]> C) [ip]) as Hlk1.
  { destruct Hl as (_ & ? & ?), Hly as (_ & ? & ?). apply (like_same C0 C [ip] ip x y Hlk Hx); congruence. }
  rewrite (bind_ok _ _ _ _ _ E1), (bind_ok _ _ _ _ _ (get_inode_ok me S _ A L s1 ip y HF1 Hy)), Hd. cbn [mbind option_bind].
  change (i_type (core y)) with (i_type y). destruct (Z.eqb_spec (i_type y) T_DIR) as [Ht|Ht]; cbn [negb].
  2:{ rewrite decide_False by done. destruct (put_back_ok _ s1 ip inum y HF1 Hco1 Hh1 Hlk1) as (s' & E' & Hno). rewrite (bind_ok _ _ _ _ _ E'). by exists s'. }
  rewrite decide_True by done. cbn [andb].
  pose proof (step_down_ok _ s1 ip inum y e HF1 Hco1 Hh1 Hlk1 Ht) as Hst.
  rewrite entry_is_core. change (i_size (core y)) with (i_size y).
  destruct (first_in _ _ _) as [k|]; cbn [mbind option_bind]; rewrite ?entry_inum_core.
  - destruct Hst as (next & o & s2 & s3 & E2 & E3 & Hnew3). rewrite (bind_ok _ _ _ _ _ E2), (bind_ok _ _ _ _ _ E3). by apply IH.
  - destruct Hst as (s2 & s3 & E2 & E3 & Hno). rewrite (bind_ok _ _ _ _ _ E2), (bind_ok _ _ _ _ _ E3). by exists s3.
Qed.

End Namei.

Definition free_entries (C : list inode) : list inode := filter (λ x, i_ref x = 0) C.
Lemma two_free (C : list inode) : (2 ≤ length (free_entries C))%nat →
  ∃ (a b : nat) x y, a ≠ b ∧ C !! a = Some x ∧ C !! b = Some y ∧ i_ref x = 0 ∧ i_ref y = 0.
Proof.
  assert (∀ C : list inode, (1 ≤ length (free_entries C))%nat → ∃ (a : nat) x, C !! a = Some x ∧ i_ref x = 0) as H1.
  { clear C. intros C H. destruct (free_entries C) as [|x l] eqn:E; [cbn in H; lia|].
    assert (x ∈ free_entries C) as [H0 [a Ha]%list_elem_of_lookup]%list_elem_of_filter by (rewrite E; left). by exists a, x. }
  induction C as [|c C IH]; [cbn; lia|]. unfold free_entries in *. rewrite filter_cons. case_decide as D.
  - cbn [length]. intros H. destruct (H1 C) as (a & x & Ha & Hx); [lia|]. by exists 0%nat, (S a), c, x.
  - intros H. destruct (IH H) as (a & b & x & y & ? & ? & ? & ? & ?). exists (S a), (S b), x, y. split_and!; try done. lia.
Qed.

Section Correct.
Context (me : Z) (S : superblock) `{Devices} (A : acache) (L : log).

Lemma start_ok C s cwd xc path :
  tree_ok S A → fabs me S C A L s → cache_ok S A C None → C !! cwd = Some xc → 0 < i_ref xc → Exists (λ x, i_ref x = 0) C →
  ∃ ip s', (if bool_decide (head path = Some SLASH) then iget ROOTDEV ROOTINO else idup cwd) s = Ok ip s' ∧
    new_ref me S A L C (if bool_decide (head path = Some SLASH) then ROOTINO else i_inum xc) ip s'.
Proof.
  intros Htree HF Hco Hc Hr Hfree. pose proof (co_ic _ _ _ _ Hco) as Hic.
  assert (∀ inum ip y C' s', fabs me S C' A L s' → icache_ok C' → used S A inum → took C 1 inum ip y C' → new_ref me S A L C inum ip s') as Hnew.
  { intros inum ip y C' s' HF' Hic' Hu Ht. exists C', y. split; [done|]. split; [by eapply took_ok|]. split; [by eapply like_took; [|apply like_refl|]|].
    destruct Ht as (x & Hx & -> & _ & Hl & _). split; [apply list_lookup_insert_eq; by eapply lookup_lt_Some|done]. }
  case_bool_decide.
  - destruct (iget_ok me S C A L s ROOTDEV ROOTINO HF Hic) as (ip & x & s' & C' & E & HF' & Hic' & _ & _ & _ & _ & Ht).
    { intros [_ Hall]. apply Exists_exists in Hfree as (y & Hy & Hy0). rewrite Forall_forall in Hall. by apply (Hall y). }
    exists ip, s'. split; [done|]. eapply Hnew; [done|done|apply Htree|exact Ht].
  - destruct (co_entry _ _ _ _ Hco cwd xc Hc Hr) as (Hd & Hu & _). set (y := set_i_ref (i_ref xc + 1) xc).
    destruct (put_inode_ok me S C A L s cwd y HF) as (s' & E & HF').
    assert (took C 1 (i_inum xc) cwd y (<[cwd := y]> C)) as Ht.
    { exists xc. split_and!; try done; [split_and!; cbn; (lia || done)|]. left. split; [by split_and!|done]. }
    exists cwd, s'. split; [unfold idup; by rewrite (bind_ok _ _ _ _ _ (get_inode_ok me S C A L s cwd xc HF Hc)), (bind_ok _ _ _ _ _ E)|].
    eapply Hnew; [done| |exact Hu|exact Ht]. apply (icache_update C cwd xc y); try done; cbn; pose proof (ic_ref C Hic cwd xc Hc); lia.
Qed.

Lemma namei_ok C s cwd xc path :
  tree_ok S A → fabs me S C A L s → cache_ok S A C None → C !! cwd = Some xc → 0 < i_ref xc → (2 ≤ length (free_entries C))%nat →
  match resolve S A (if bool_decide (head path = Some SLASH) then ROOTINO else i_inum xc) (components path) with
  | None => ∃ s', namei me cwd path s = Ok None s' ∧ no_inode me S A L C s'
  | Some j => ∃ ip s', namei me cwd path s = Ok (Some ip) s' ∧ new_ref me S A L C j ip s'
  end.
Proof.
  intros Htree HF Hco Hc Hr Hfree. destruct (two_free C Hfree) as (a & b & x & y & Hab & Ha & Hb & Hx & Hy).
  destruct (start_ok C s cwd xc path Htree HF Hco Hc Hr) as (ip & s1 & E1 & Hnew1).
  { apply Exists_exists. exists x. split; [by eapply list_elem_of_lookup_2|done]. }
  pose proof (walk_ok me S A L Htree C (co_ic _ _ _ _ Hco) a b x y Hab Ha Hb Hx Hy (components path) ip _ [] s1 Hnew1) as Hw.
  assert (namex me cwd path false s = walk me false ip [] (components path) s1) as En.
  { unfold namex. rewrite (bind_ok _ _ _ _ _ E1). apply loop_walk. lia. }
  unfold namei. destruct (resolve _ _ _ _) as [j|].
  - destruct Hw as (jp & nm & s' & E & Hj). exists jp, s'. rewrite <- En in E. by rewrite (bind_ok _ _ _ _ _ E).
  - destruct Hw as (s' & E & Hj). exists s'. rewrite <- En in E. by rewrite (bind_ok _ _ _ _ _ E).
Qed.

(** C24: [namei] ends for every path.  On a consistent disk it finds the inode that the
    directories on the disk give to the components of the path, from the root or from
    the working directory on, or says that there is none.  The entry of the inode
    cache that it answers with is for this inode and has one more reference; every
    other count is as before, no inode stays locked, and the cache agrees with the
    disk. *)
Theorem namei_correct C s cwd xc path :
  tree_ok S A → fabs me S C A L s → cache_ok S A C None → C !! cwd = Some xc → 0 < i_ref xc → (2 ≤ length (free_entries C))%nat →
  match resolve S A (if bool_decide (head path = Some SLASH) then ROOTINO else i_inum xc) (components path) with
  | None => ∃ s', namei me cwd path s = Ok None s' ∧ no_inode me S A L C s'
  | Some j => ∃ ip s', namei me cwd path s = Ok (Some ip) s' ∧ new_ref me S A L C j ip s'
  end.
Proof. apply namei_ok. Qed.
End Correct.
End FsysNamei.
