(* ===== verification/FsysDirlink.v ===== *)
(** FsysDirlink: [dirlink] (p4/xv6-public/fs.c) adds an entry to a directory. *)
From Stdlib Require Import Strings.Byte.
From S2P Require Import Prelude Memory Bio BioInv Log LogInv Fsys FsysInv FsysTx FsysAlloc FsysFile FsysTree FsysGrow FsysWrite FsysExtend FsysWritei FsysInode FsysDir FsysTrunc FsysNamei.
From stdpp Require Import gmap.
Local Open Scope Z_scope.

Module FsysDirlink.
Import Bio BioInv Log LogInv Fsys FsysInv FsysTx FsysAlloc FsysWrote FsysFile FsysTree FsysGrow FsysWrite FsysExtend FsysWritei FsysInode FsysDir FsysTrunc.FsysIput.

Lemma length_strncpy t n : length (strncpy t n) = n.
Proof. revert t. induction n as [|n IH]; intros t; [done|]. cbn [strncpy]. case_bool_decide; [apply length_replicate|]. cbn. by rewrite IH. Qed.

(** The bytes of an entry. *)
Definition dirent_bytes (inum : Z) (name : list byte) : list byte := le_encode 2 inum ++ strncpy name (Z.to_nat DIRSIZ).

Lemma length_dirent inum name : length (dirent_bytes inum name) = 16%nat.
Proof. unfold dirent_bytes. by rewrite length_app, length_le_encode, length_strncpy. Qed.

(** The first unused entry, or the one behind the last. *)
Definition free_entry (v : Z → option block) (x : inode) : Z :=
  default (i_size x / sizeof_dirent) (first_in (λ k, entry_inum v x k =? 0) 0 (i_size x / sizeof_dirent)).

Section Entries.
Context (v : Z → option block) (x : inode) (v' : Z → option block) (x' : inode) (k0 inum : Z) (name : list byte).
Context (Hk0 : 0 ≤ k0) (Hinum : 0 ≤ inum < 2 ^ 16).
Context (Hb : ∀ o, 0 ≤ o < i_size x' → file_byte v' x' o =
  if decide (k0 * 16 ≤ o < k0 * 16 + 16) then dirent_bytes inum name !! Z.to_nat (o - k0 * 16) else file_byte v x o).

Lemma entry_bytes_same k : 0 ≤ k → k * 16 + 16 ≤ i_size x' → k ≠ k0 → entry_bytes v' x' k = entry_bytes v x k.
Proof.
  intros Hk Hsz Hne. unfold entry_bytes, sizeof_dirent. change (Z.to_nat 16) with 16%nat.
  assert (∀ n o, (o + n ≤ 16)%nat → omap (λ i, file_byte v' x' (k * 16 + Z.of_nat i)) (seq o n) = omap (λ i, file_byte v x (k * 16 + Z.of_nat i)) (seq o n)) as H;
    [|by apply H].
  induction n as [|n IH]; intros o Ho; [done|]. cbn. rewrite Hb by lia. rewrite decide_False by lia. rewrite IH by lia. done.
Qed.

Lemma entry_bytes_new : k0 * 16 + 16 ≤ i_size x' → entry_bytes v' x' k0 = dirent_bytes inum name.
Proof.
  intros Hsz. unfold entry_bytes, sizeof_dirent. apply omap_seq_lookup; [apply length_dirent|]. intros i Hi.
  change (Z.to_nat 16) with 16%nat in Hi. rewrite Hb by lia. rewrite decide_True by lia. f_equal. lia.
Qed.

(** The entries of the directory as a function of the name. *)
Lemma entry_is_linked nm k : 0 ≤ k → k * 16 + 16 ≤ i_size x' →
  entry_is v' x' nm k = if decide (k = k0) then negb (inum =? 0) && bool_decide (fname name = fname nm) else entry_is v x nm k.
Proof.
  intros Hk Hsz. unfold entry_is, entry_inum, entry_name. case_decide as E.
  - subst k. rewrite entry_bytes_new by done. unfold dirent_bytes.
    rewrite take_app_length', drop_app_length' by (by rewrite length_le_encode). rewrite le_decode_encode, fname_strncpy.
    change (8 * Z.of_nat 2) with 16. by rewrite wrapu_small by lia.
  - by rewrite entry_bytes_same.
Qed.
End Entries.

Section Dirlink.
Context (me : Z) (S : superblock) `{Devices}.

(** The loop of [dirlink] finds the place. *)
Lemma dirlink_loop C A L s dp x :
  fabs me S C A L s → C !! dp = Some x → file_ready A x → i_size x mod sizeof_dirent = 0 →
  ∃ s', loop (Datatypes.S (Datatypes.S (Z.to_nat (i_size x / sizeof_dirent)))) (dirlink_step me dp) 0 s = Ok (free_entry (vw A) x * sizeof_dirent) s' ∧
    fabs me S C A L s'.
Proof.
  intros HF Hx Hfr Hmod. pose proof (fr_size _ _ Hfr) as Hs. unfold free_entry, sizeof_dirent in *. set (n := i_size x / 16) in *.
  set (p := λ k, entry_inum (vw A) x k =? 0). pose proof (first_in_spec p 0 n) as Hfirst.
  assert (wp (loop (Datatypes.S (Datatypes.S (Z.to_nat n))) (dirlink_step me dp) 0) (λ off s', off = default n (first_in p 0 n) * 16 ∧ fabs me S C A L s') s) as Hw.
  2:{ apply wp_ok in Hw as (off & s' & E & -> & HF'). by exists s'. }
  apply (wp_loop _ (λ off s', (∃ k, off = k * 16 ∧ 0 ≤ k ≤ n ∧ ∀ i, 0 ≤ i < k → p i = false) ∧ fabs me S C A L s') (λ off, Z.to_nat (n - off / 16))).
  - split; [exists 0; split_and!; lia|done].
  - change (0 / 16) with 0. lia.
  - intros off s1 [(k & -> & Hk & Hno) HF1]. unfold dirlink_step.
    eapply wp_bind_ok; [exact (get_inode_ok me S C A L s1 dp x HF1 Hx)|].
    destruct (Z.ltb_spec (k * 16) (i_size x)) as [Hlt|Hge]; cbn [negb].
    2:{ split; [|done]. assert (k = n) as -> by lia. rewrite <- (first_in_eq p 0 n None); [done|]. intros i Hi. by apply Hno. }
    destruct (read_entry_ok me S A L C s1 dp x k HF1 Hx Hfr ltac:(lia)) as (s2 & E2 & HF2); [unfold sizeof_dirent in *; lia|].
    eapply wp_bind_ok; [exact E2|]. cbn [sizeof_dirent negb Z.eqb Pos.eqb]. fold (entry_inum (vw A) x k). fold (p k).
    destruct (p k) eqn:Hp; cbn [wp ret].
    + split; [|done]. rewrite <- (first_in_eq p 0 n (Some k)); [done|]. split_and!; [lia|lia|done|]. intros i Hi. apply Hno. lia.
    + change sizeof_dirent with 16. split; [split; [|done]|lia]. exists (k + 1). split_and!; [lia..|]. intros i Hi. destruct (decide (i = k)) as [->|]; [done|]. apply Hno. lia.
Qed.

(** The entry is written at its place. *)
Lemma dirlink_write C A L s dp x name inum :
  let k0 := free_entry (vw A) x in
  fabs me S C A L s → C !! dp = Some x → file_ok S A x → i_size x mod sizeof_dirent = 0 → 0 ≤ inum < 2 ^ 16 →
  k0 * sizeof_dirent + sizeof_dirent ≤ MAXFILE * BSIZE →
  enough (nodes_of (k0 * sizeof_dirent) sizeof_dirent) S A L x (6 * blocks_touched (k0 * sizeof_dirent) sizeof_dirent + 2) →
  ∃ A' L' x' s' m, writei me dp (dirent_bytes inum name) (k0 * sizeof_dirent) s = Ok sizeof_dirent s' ∧ fabs me S (<[dp := x']> C) A' L' s' ∧
    after_write S x A L (dirent_bytes inum name) (k0 * sizeof_dirent) m A' L' x' ∧
    i_size x' = Z.max (i_size x) (k0 * sizeof_dirent + sizeof_dirent) ∧
    ∀ nm k, 0 ≤ k → k * sizeof_dirent + sizeof_dirent ≤ i_size x' →
      entry_is (vw A') x' nm k = if decide (k = k0) then negb (inum =? 0) && bool_decide (fname name = fname nm) else entry_is (vw A) x nm k.
Proof.
  intros k0 HF Hx Hfo Hmod Hinum Hend Hen. pose proof (fo_size _ _ _ Hfo) as Hs.
  assert (0 ≤ k0 ∧ k0 * 16 ≤ i_size x) as [Hk0 Hk1].
  { unfold k0, free_entry, sizeof_dirent in *. pose proof (first_in_spec (λ k, entry_inum (vw A) x k =? 0) 0 (i_size x / 16)) as Hf.
    destruct (first_in _ _ _) as [k|]; cbn; [destruct Hf as (? & _); lia|lia]. }
  unfold sizeof_dirent in *. pose proof (length_dirent inum name) as Hl.
  destruct (writei_after me S C x A L dp (dirent_bytes inum name) (k0 * 16) Hx Hfo ltac:(lia) ltac:(rewrite Hl; exact Hend) s HF) as (A' & L' & x' & s' & m & E & HF' & Haw);
    [by rewrite Hl|]. rewrite Hl in E. change (Z.of_nat 16) with 16 in E.
  pose proof (aw_inode _ _ _ _ _ _ _ _ _ _ Haw) as Hi. rewrite Hl in Hi. change (Z.of_nat 16) with 16 in Hi.
  exists A', L', x', s', m. split_and!; [done|done|done|by rewrite Hi|].
  intros nm k Hk Hsz. apply entry_is_linked; [done|done| |done|done].
  intros o Ho. rewrite (aw_bytes _ _ _ _ _ _ _ _ _ _ Haw o Ho), Hl. done.
Qed.

(** The name is there: the reference that [dirlookup] took is given back. *)
Lemma dirlink_exists_ok C A L s dp x name inum k :
  fabs me S C A L s → icache_ok C → C !! dp = Some x → file_ready A x → i_type x = T_DIR → i_size x mod sizeof_dirent = 0 →
  Exists (λ y, i_ref y = 0) C → 0 < i_ref x → i_locked x ≠ 0 → (∀ i y, C !! i = Some y → i_locked y ≠ 0 → i = dp) →
  first_in (entry_is (vw A) x name) 0 (i_size x / sizeof_dirent) = Some k →
  if decide (entry_inum (vw A) x k = i_inum x) then dirlink me dp name inum s = Fault
  else ∃ s' C', dirlink me dp name inum s = Ok (-1) s' ∧ fabs me S C' A L s' ∧ icache_ok C' ∧ FsysNamei.like C C' [].
Proof.
  intros HF Hok Hx Hfr Hty Hmod Hslot Href Hlock Honly Hk.
  pose proof (dirlookup_ok me S A L C s dp x name HF Hok Hx Hfr Hty Hmod Hslot) as Hlook. rewrite Hk in Hlook.
  destruct Hlook as (ip & y & s1 & C1 & E1 & HF1 & Hok1 & _ & Hr & _ & Ht & _). unfold dirlink. rewrite (bind_ok _ _ _ _ _ E1).
  pose proof (FsysNamei.like_took C C [] _ _ ip y C1 Hok (FsysNamei.like_refl C) Ht) as Hlk.
  destruct Ht as (y0 & Hy0 & -> & Hly & Hlive & Hcase). pose proof (lookup_lt_Some _ _ _ Hy0) as Hlt.
  assert (<[ip := y]> C !! ip = Some y) as Hy by (by apply list_lookup_insert_eq). case_decide as Hself.
  - assert (ip = dp) as ->.
    { destruct Hcase as [[(? & ? & ?) _]|(_ & Hr1 & _)].
      - symmetry. eapply (ic_uniq C Hok dp ip x y0 Hx Hy0 Href). split_and!; congruence.
      - exfalso. unfold refs in Hr. rewrite (FsysNamei.cached_at C dp x) in Hr by (done || by split_and!). lia. }
    rewrite Hx in Hy0. injection Hy0 as <-. unfold iput. rewrite !bind_assoc. unfold acquire_inode, bind at 1 2.
    rewrite (get_inode_ok me S _ A L s1 dp y HF1 Hy), (proj2 (Z.eqb_neq _ _)) by congruence. done.
  - assert (i_locked y = 0) as Hl0.
    { rewrite Hly. destruct (decide (i_locked y0 = 0)) as [|Hn]; [done|]. pose proof (Honly ip y0 Hy0 Hn) as ->. rewrite Hx in Hy0. injection Hy0 as <-.
      destruct Hcase as [[(_ & _ & ?) _]|(? & _)]; [congruence|lia]. }
    assert (last_ref y = false) as Hlast.
    { unfold last_ref. destruct Hcase as [[(? & _) ->]|(_ & _ & ->)]; [|done]. cbn [i_ref set_i_ref]. rewrite (proj2 (Z.eqb_neq _ 1)) by lia. apply andb_false_r. }
    destruct (iput_more_ok me S _ A L s1 ip y HF1 Hy Hl0 Hlast) as (s2 & E2 & HF2). rewrite (bind_ok _ _ _ _ _ E2). eexists s2, _.
    split; [reflexivity|]. split; [exact HF2|]. split.
    + eapply FsysNamei.icache_update; [exact Hok1|exact Hy|..]; cbn; destruct Hlive as (? & ? & ?); (lia || done).
    + by apply (FsysNamei.like_drop C _ [] ip y).
Qed.

(** C25: [dirlink] of a name that the directory does not have stores the entry in the
    first unused place, or behind the last entry; then the directory has exactly one
    name more, for [inum], and is a consistent file again.  Of a name that is there,
    when the caller holds the lock of the directory and no other, it answers -1,
    writes nothing, and every cache entry has the references it had before; but when
    the name leads to the directory itself (".") it never returns: [iput] sleeps on
    the lock that its caller holds. *)
Theorem dirlink_correct C A L s dp x name inum :
  let k0 := free_entry (vw A) x in
  fabs me S C A L s → icache_ok C → C !! dp = Some x → file_ok S A x → i_type x = T_DIR → i_size x mod sizeof_dirent = 0 →
  Exists (λ y, i_ref y = 0) C → 0 ≤ inum < 2 ^ 16 → k0 * sizeof_dirent + sizeof_dirent ≤ MAXFILE * BSIZE →
  enough (nodes_of (k0 * sizeof_dirent) sizeof_dirent) S A L x (6 * blocks_touched (k0 * sizeof_dirent) sizeof_dirent + 2) →
  match first_in (entry_is (vw A) x name) 0 (i_size x / sizeof_dirent) with
  | Some k => 0 < i_ref x → i_locked x ≠ 0 → (∀ i y, C !! i = Some y → i_locked y ≠ 0 → i = dp) →
      if decide (entry_inum (vw A) x k = i_inum x) then dirlink me dp name inum s = Fault
      else ∃ s' C', dirlink me dp name inum s = Ok (-1) s' ∧ fabs me S C' A L s' ∧ icache_ok C' ∧ FsysNamei.like C C' []
  | None => ∃ A' L' x' s' m, dirlink me dp name inum s = Ok 0 s' ∧ fabs me S (<[dp := x']> C) A' L' s' ∧
      after_write S x A L (dirent_bytes inum name) (k0 * sizeof_dirent) m A' L' x' ∧
      i_size x' = Z.max (i_size x) (k0 * sizeof_dirent + sizeof_dirent) ∧
      ∀ nm k, 0 ≤ k → k * sizeof_dirent + sizeof_dirent ≤ i_size x' →
        entry_is (vw A') x' nm k = if decide (k = k0) then negb (inum =? 0) && bool_decide (fname name = fname nm) else entry_is (vw A) x nm k
  end.
Proof.
  intros k0 HF Hok Hx Hfo Hty Hmod Hslot Hinum Hend Hen. pose proof Hen as [Hhd _ _ Hroom].
  pose proof (touched_nonneg (k0 * sizeof_dirent) sizeof_dirent) as Htn.
  assert (0 ≤ k0 * sizeof_dirent) as Hk0.
  { unfold k0, free_entry, sizeof_dirent in *. pose proof (first_in_spec (λ k, entry_inum (vw A) x k =? 0) 0 (i_size x / 16)) as Hf.
    pose proof (fo_size _ _ _ Hfo). destruct (first_in _ _ _) as [k|]; cbn; [destruct Hf as (? & _); lia|lia]. }
  specialize (Htn Hk0). assert (file_ready A x) as Hfr by (by apply (file_ok_ready me S C A L s); [..|lia]).
  pose proof (dirlookup_ok me S A L C s dp x name HF Hok Hx Hfr Hty Hmod Hslot) as Hlook.
  destruct (first_in (entry_is (vw A) x name) _ _) as [k|] eqn:Hk; [intros; by apply dirlink_exists_ok|unfold dirlink].
  - destruct Hlook as (s1 & E1 & HF1). rewrite (bind_ok _ _ _ _ _ E1), (bind_ok _ _ _ _ _ (get_inode_ok me S C A L s1 dp x HF1 Hx)).
    destruct (dirlink_loop C A L s1 dp x HF1 Hx Hfr Hmod) as (s2 & E2 & HF2). rewrite (bind_ok _ _ _ _ _ E2). fold k0. fold (dirent_bytes inum name).
    destruct (dirlink_write C A L s2 dp x name inum HF2 Hx Hfo Hmod Hinum Hend Hen) as (A' & L' & x' & s3 & m & E3 & HF3 & Haw & Hsz & Hent).
    fold k0 in E3. rewrite (bind_ok _ _ _ _ _ E3). cbn [sizeof_dirent negb Z.eqb Pos.eqb]. by exists A', L', x', s3, m.
Qed.

End Dirlink.
End FsysDirlink.
