(* ===== verification/FsysExamples.v ===== *)
(** FsysExamples: the theorems on the inode layer on a small disk, laid out
    as p4/xv6-public/mkfs.c does for 64 blocks and 8 inodes: 30 blocks of log at
    block 2, inodes at blocks 32 and 33, the bitmap at block 34, and the root
    directory with three entries at block 35. *)
From Stdlib Require Import Strings.Byte.
From S2P Require Import Prelude Memory CLib Bio BioInv Log LogInv LogCrash Fsys FsysInv FsysAlloc FsysFile FsysWrite FsysInode FsysDir FsysPath FsysTx FsysTree FsysGrow FsysExtend FsysWritei FsysTrunc FsysNamei FsysDirlink.
From stdpp Require Import gmap.
Local Open Scope Z_scope.

Module FsysExamples.
Import CLib Bio BioInv Log LogInv LogCrash Fsys FsysInv FsysAlloc FsysFile FsysWrite FsysInode FsysDir FsysPath.

Definition zeros : block := replicate 512 x00.
Definition S0 : superblock := Sb 64 29 8 30 2 32 34.
Definition bitmap0 : block := foldl set_bit zeros (Z.of_nat <$> seq 0 36).
Definition dirent (inum : Z) (name : list byte) : list byte := le_encode 2 inum ++ strncpy name 14.
Definition dir0 : block := put_bytes zeros 0 (dirent 1 [x2e] ++ dirent 1 [x2e; x2e] ++ dirent 2 [x61]).
Definition disk0 : list block := <[34%nat := bitmap0]> (<[35%nat := dir0]> (replicate 64 zeros)).
Definition log0 : log := Lg 2 30 1 0 1 0 (replicate 30 0).
Definition root : inode := Inode 1 1 1 0 0 1 T_DIR 0 0 1 48 (35 :: replicate 12 0).
Definition unused_inode : inode := Inode 0 0 0 0 0 0 0 0 0 0 0 (replicate 13 0).
Definition icache0 : list inode := root :: replicate 49 unused_inode.
Definition state0 : fsys := Fsys (Fs (binit disk0) log0) S0 icache0.
Definition A0 : acache := AC (λ b, disk0 !! Z.to_nat b) disk0 [] ∅ ∅.
Definition no_devices : Devices := {| devsw_read := λ _, None; devsw_write := λ _, None |}.
Definition pid0 : Z := 7.

Lemma fs_blocks0 : Forall (λ d : block, length d = 512%nat) disk0.
Proof. repeat apply Forall_insert; [by apply Forall_replicate|by vm_compute..]. Qed.

Lemma fabs0 : fabs pid0 S0 icache0 A0 log0 state0.
Proof. split; [|done]. split; [apply binit_abs, fs_blocks0|]. split; [done|]. split; [by vm_compute|done]. Qed.

Lemma layout0 : layout S0 (Z.of_nat (length (dk A0))).
Proof. split; vm_compute; split_and?; congruence. Qed.

Lemma unheld0 b : unheld A0 b.
Proof. by intros i d. Qed.

Lemma BBLOCK0 c : 0 ≤ c < sb_size S0 → BBLOCK c S0 = 34.
Proof. intros Hc. unfold BBLOCK, BPB, BSIZE. cbn in Hc. rewrite Z.div_small by lia. done. Qed.

Lemma alloc_ready0 : alloc_ready S0 A0.
Proof.
  split; [intros; apply unheld0|intros; apply unheld0| |by vm_compute].
  intros c Hc. rewrite (BBLOCK0 c Hc). by vm_compute.
Qed.

Lemma can_log0 n : n ≤ 2 → can_log log0 n.
Proof. unfold can_log, log0, LOGSIZE, MAXOPBLOCKS. cbn [lh_n lsize outstanding]. lia. Qed.

Lemma balloc_correct_witness : ∃ A' s', balloc pid0 1 state0 = Ok 36 s' ∧ fabs pid0 S0 icache0 A' (log_taken S0 36 log0) s' ∧
  vw A' 36 = Some zero_block ∧
  (∀ c, 0 ≤ c < sb_size S0 → is_free (vw A') S0 c = is_free (vw A0) S0 c && negb (c =? 36)) ∧
  (∀ b, b ≠ 36 → b ≠ BBLOCK 36 S0 → vw A' b = vw A0 b) ∧
  dk A' = dk A0 ∧ hd A' = hd A0 ∧ dt A' = {[36; BBLOCK 36 S0]} ∪ dt A0.
Proof.
  assert (first_in (is_free (vw A0) S0) 0 (sb_size S0) = Some 36) as E by by vm_compute.
  pose proof (balloc_correct pid0 S0 icache0 A0 log0 state0 fabs0 layout0 alloc_ready0 (can_log0 2 ltac:(lia))) as H.
  rewrite E in H. exact H.
Defined.

Lemma bfree_correct_witness : ∃ A' s', bfree pid0 1 35 state0 = Ok tt s' ∧
  fabs pid0 S0 icache0 A' (logged log0 (BBLOCK 35 S0)) s' ∧
  (∀ c, 0 ≤ c < sb_size S0 → is_free (vw A') S0 c = is_free (vw A0) S0 c || (c =? 35)) ∧
  (∀ c, c ≠ BBLOCK 35 S0 → vw A' c = vw A0 c) ∧ dk A' = dk A0 ∧ hd A' = hd A0.
Proof.
  assert (is_free (vw A0) S0 35 = false) as E by by vm_compute.
  pose proof (bfree_correct pid0 S0 icache0 A0 log0 state0 35 fabs0 layout0 (can_log0 1 ltac:(lia)) ltac:(by vm_compute)
    (unheld0 _) ltac:(right; by vm_compute)) as H.
  rewrite E in H. exact H.
Defined.

Lemma root_ready : file_ready A0 root.
Proof.
  split; [done|done|by vm_compute| | |by vm_compute].
  - intros bn H0 Hlt. cbn in Hlt. unfold BSIZE in Hlt. assert (bn = 0) as -> by lia. exists 35. split; [done|].
    split; [by vm_compute|apply unheld0].
  - by vm_compute.
Qed.

Lemma icache_ok0 : icache_ok icache0.
Proof.
  split.
  - intros i x Hi%list_elem_of_lookup_2. apply elem_of_cons in Hi as [->|[-> _]%elem_of_replicate]; by vm_compute.
  - assert (∀ i x, icache0 !! i = Some x → 0 < i_ref x → i = 0%nat) as H0.
    { intros [|i] x Hi Hx; [done|]. cbn in Hi. apply (lookup_replicate_1 49) in Hi as [-> _]. done. }
    intros i j x y Hi Hj Hx [Hy _]. by rewrite (H0 i x Hi Hx), (H0 j y Hj Hy).
Qed.

(** The second entry of the root directory. *)
Lemma readi_correct_witness : ∃ bytes s', @readi pid0 no_devices 0 16 1000 state0 = Ok (32, bytes) s' ∧
  fabs pid0 S0 icache0 A0 log0 s' ∧ Z.of_nat (length bytes) = 32 ∧
  ∀ k, 0 ≤ k < 32 → bytes !! Z.to_nat k = file_byte (vw A0) root (16 + k).
Proof. apply (@readi_correct pid0 S0 no_devices icache0 A0 log0 state0 0 root 16 1000 fabs0 eq_refl root_ready); lia. Defined.

Lemma iget_correct_witness : ∃ ip x s' C', iget 1 2 state0 = Ok ip s' ∧ fabs pid0 S0 C' A0 log0 s' ∧ icache_ok C' ∧
  cached C' 1 2 = Some (ip, x) ∧ i_ref x = 1 ∧ (i_valid x = 0 ∧ ∃ y, icache0 !! ip = Some y ∧ i_ref y = 0) ∧
  ∀ dev' inum', (dev', inum') ≠ (1, 2) → cached C' dev' inum' = cached icache0 dev' inum'.
Proof.
  pose proof (iget_correct pid0 S0 icache0 A0 log0 state0 1 2 fabs0 icache_ok0) as H.
  rewrite bool_decide_false in H; [exact H|].
  intros [_ Hall]. by apply (Forall_lookup_1 _ _ 1%nat unused_inode Hall).
Defined.

Lemma dirlookup_correct_witness : ∃ ip y s' C', @dirlookup pid0 no_devices 0 [x61] state0 = Ok (Some (ip, 32)) s' ∧
  fabs pid0 S0 C' A0 log0 s' ∧ icache_ok C' ∧ cached C' 1 2 = Some (ip, y) ∧ i_ref y = 1 ∧
  ∀ dev inum, (dev, inum) ≠ (1, 2) → cached C' dev inum = cached icache0 dev inum.
Proof.
  pose proof (@dirlookup_correct pid0 S0 no_devices A0 log0 icache0 state0 0 root [x61] fabs0 icache_ok0 eq_refl root_ready eq_refl eq_refl) as H.
  assert (first_in (entry_is (vw A0) root [x61]) 0 (i_size root / sizeof_dirent) = Some 2) as E by by vm_compute.
  rewrite E in H. apply H. right. left. done.
Defined.

Lemma root_distinct : file_distinct (vw A0) root.
Proof.
  split; [|by vm_compute]. intros bn bn' a H0 H1 H2 H3 _ _. cbn in H2, H3. unfold BSIZE in *. lia.
Qed.

(** Four bytes in the middle of the root directory. *)
Lemma writei_overwrites_witness : ∃ A' L' s', @writei pid0 no_devices 0 [x61; x62; x63; x64] 16 state0 = Ok 4 s' ∧
  fabs pid0 S0 icache0 A' L' s' ∧ file_ready A' root ∧
  (∀ o, 0 ≤ o < 48 → file_byte (vw A') root o =
     if decide (16 ≤ o < 16 + 4) then [x61; x62; x63; x64] !! Z.to_nat (o - 16) else file_byte (vw A0) root o) ∧
  (∀ b, ¬ data_block (vw A0) root b → vw A' b = vw A0 b) ∧ dk A' = dk A0 ∧ hd A' = hd A0.
Proof.
  apply (@writei_overwrites pid0 S0 no_devices icache0 root A0 log0 [x61; x62; x63; x64] 16 4 state0 0 fabs0 eq_refl root_ready root_distinct);
    [lia|cbn; lia|done|change (blocks_touched 16 4) with 1; apply can_log0; lia|by vm_compute].
Defined.

(** [nameiparent("/a")] gives the root directory and the name [a]. *)
Lemma nameiparent_last_component_witness :
  (∃ ip s', @nameiparent pid0 no_devices 0 [x2f; x61] state0 = Ok (Some (ip, [x61])) s') ∧
  last (components [x2f; x61]) = Some [x61].
Proof.
  destruct (@nameiparent pid0 no_devices 0 [x2f; x61] state0) as [[[ip name]|] s'|] eqn:E; [|vm_compute in E; discriminate..].
  pose proof (@nameiparent_last_component pid0 no_devices 0 [x2f; x61] state0 ip name s' E) as H.
  split; [|by vm_compute]. exists ip, s'. do 2 f_equal. f_equal. vm_compute in H. congruence.
Defined.

End FsysExamples.

(** FsysGrowExamples: a file of twelve full blocks but two bytes grows by four bytes,
    into the indirect block, is truncated and goes; the root directory gets a new
    entry (p4/xv6-public/fs.c). *)
Module FsysGrowExamples.
Import Bio BioInv Log LogInv LogCrash Fsys FsysInv FsysTx FsysAlloc FsysWrote FsysFile FsysTree FsysGrow FsysWrite FsysExtend FsysWritei FsysTrunc FsysIput FsysInode FsysDir FsysDirlink FsysExamples.

(** Blocks 35 to 46 are the file, from 47 on they are free.  The file is open and has
    no name any more. *)
Definition file3 : inode := Inode 1 2 1 0 0 1 2 0 0 0 6142 (seqZ 35 12 ++ [0]).
Definition bitmap3 : block := foldl set_bit zeros (Z.of_nat <$> seq 0 47).
Definition disk3 : list block := <[32%nat := put_bytes zeros 128 (dinode_bytes file3)]> (<[34%nat := bitmap3]> (replicate 64 zeros)).
Definition icache3 : list inode := file3 :: replicate 49 unused_inode.
Definition A3 : acache := AC (λ b, disk3 !! Z.to_nat b) disk3 [] ∅ ∅.
Definition state3 (l : log) : fsys := Fsys (Fs (binit disk3) l) S0 icache3.
Definition src3 : list byte := [x61; x62; x63; x64].

Lemma fabs3 l : ldev l = 1 → fabs pid0 S0 icache3 A3 l (state3 l).
Proof.
  intros Hd. split; [|done]. split; [apply binit_abs; repeat apply Forall_insert; [by apply Forall_replicate|by vm_compute..]|].
  split; [done|]. split; [by vm_compute|done].
Qed.

Lemma bitmap0_is b : is_bitmap S0 b ↔ b = 34.
Proof. split; [intros (c & Hc & <-); by apply BBLOCK0|intros ->; exists 0; by split]. Qed.

Lemma free3 b : 0 ≤ b < 64 → is_free (vw A3) S0 b = (47 <=? b).
Proof.
  intros Hb. assert (forallb (λ b, eqb (is_free (vw A3) S0 b) (47 <=? b)) (seqZ 0 64) = true) as H by by vm_compute.
  rewrite forallb_forall in H. apply eqb_prop, H, list_elem_of_In, elem_of_seqZ. lia.
Qed.

Lemma node3 n : is_node n → node_addr (vw A3) file3 n = if (0 <=? n) && (n <? 12) then 35 + n else 0.
Proof.
  unfold is_node, INDIRECT. intros Hn.
  assert (forallb (λ n, node_addr (vw A3) file3 n =? if (0 <=? n) && (n <? 12) then 35 + n else 0) (seqZ (-1) 141) = true) as H by by vm_compute.
  rewrite forallb_forall in H. apply Z.eqb_eq, H, list_elem_of_In, elem_of_seqZ. change MAXFILE with 140 in Hn. lia.
Qed.

Lemma node3_range n : is_node n → node_addr (vw A3) file3 n ≠ 0 → 0 ≤ n < 12 ∧ node_addr (vw A3) file3 n = 35 + n.
Proof. intros Hn. rewrite (node3 n Hn). destruct (Z.leb_spec 0 n), (Z.ltb_spec n 12); cbn; lia. Qed.

Lemma fstate3 : fstate S0 A3 file3.
Proof.
  split; [done| |].
  - split; [split; vm_compute; split_and?; congruence|by vm_compute|]. intros c ->%bitmap0_is. by vm_compute.
  - split; [done| |].
    + intros n Hn Hne. destruct (node3_range n Hn Hne) as [Hr ->]. split; [cbn; lia|]. rewrite free3 by lia. split; [by apply Z.leb_gt; lia|].
      rewrite bitmap0_is. lia.
    + intros n n' Hn Hn' Hne E. destruct (node3_range n Hn Hne), (node3_range n' Hn'); [by rewrite <- E|]. lia.
Qed.

Lemma file_ok3 : file_ok S0 A3 file3.
Proof.
  split; [done|apply fstate3|by vm_compute| | |].
  - intros bn H0 H1. cbn in H1. unfold BSIZE in H1. rewrite node3 by (unfold is_node, INDIRECT; change MAXFILE with 140; lia).
    rewrite (proj2 (Z.leb_le 0 bn)), (proj2 (Z.ltb_lt bn 12)) by lia. cbn. lia.
  - change (home S0 file3) with 32. split.
    + split; [done|]. split; [by vm_compute|]. by rewrite bitmap0_is.
    + intros n Hn E. destruct (node3_range n Hn) as [Hr E']; [by rewrite E|]. lia.
  - exists (put_bytes zeros 128 (dinode_bytes file3)). split_and!; by vm_compute.
Qed.

Lemma free_enough3 : missing (nodes_of 6142 4) (vw A3) file3 ≤ free_blocks (vw A3) S0.
Proof. by vm_compute. Qed.

Lemma space3 l b : start l = 2 → lsize l = 30 → file_space S0 (vw A3) file3 b ∨ b = home S0 file3 → outside_log l 64 b.
Proof.
  intros Hst Hz Hb. assert (32 ≤ b < 64); [|unfold outside_log; rewrite Hst, Hz; lia].
  destruct Hb as [[->%bitmap0_is|[[Hr Hf]|(Hne & n & Hn & <-)]]| ->]; [done| | |done].
  - cbn in Hr. rewrite free3 in Hf by lia. apply Z.leb_le in Hf. lia.
  - destruct (node3_range n Hn Hne). lia.
Qed.

Lemma enough3 : enough (nodes_of 6142 4) S0 A3 log0 file3 (6 * blocks_touched 6142 4 + 2).
Proof.
  change (6 * blocks_touched 6142 4 + 2) with 14. split; [done|apply free_enough3| |by vm_compute].
  unfold can_log, log0, LOGSIZE, MAXOPBLOCKS. cbn [lh_n lsize outstanding]. lia.
Qed.

(** Four bytes at the end of the file. *)
Lemma writei_correct_witness : ∃ A' L' x' s' m, @writei pid0 no_devices 0 src3 6142 (state3 log0) = Ok 4 s' ∧
  fabs pid0 S0 (<[0%nat := x']> icache3) A' L' s' ∧ after_write S0 file3 A3 log0 src3 6142 m A' L' x' ∧
  ∀ b, ¬ file_space S0 (vw A3) file3 b → b ≠ home S0 file3 → vw A' b = vw A3 b.
Proof.
  apply (@writei_correct pid0 S0 no_devices icache3 file3 A3 log0 0 src3 6142 (state3 log0)); [by apply fabs3|done|apply file_ok3|by split|done|apply enough3].
Defined.

(** What the model computes: the new size, the new addresses and the two bytes behind
    the old blocks. *)
Example append_runs :
  match @writei pid0 no_devices 0 src3 6142 (state3 log0) with
  | Ok r s => match icache s !! 0%nat with
              | Some x => (r, i_size x, drop 11 (i_addrs x)) = (4, 6146, [46; 47])
              | None => False
              end
  | Fault => False
  end.
Proof. vm_compute. done. Qed.

(** The same file is truncated. *)
Lemma in_tx3 : in_tx A3 log0.
Proof.
  split; [done|done|split; [done|by apply Forall_replicate; lia]|by apply NoDup_nil_2|set_solver|by intros b ?%elem_of_nil|by vm_compute].
Qed.

Lemma itrunc_correct_witness : ∃ A' L' s', itrunc pid0 0 (state3 log0) = Ok tt s' ∧
  let x' := set_i_size 0 (with_addrs (replicate 13 0) file3) in
  fabs pid0 S0 (<[0%nat := x']> icache3) A' L' s' ∧ file_ok S0 A' x' ∧ in_tx A' L' ∧ lh_n L' ≤ 5 ∧
  (dk A' = disk3 ∧ hd A' = ∅ ∧ start L' = 2 ∧ lsize L' = 30) ∧
  (∀ c, 0 < c < 64 → is_free (vw A') S0 c = true ↔ is_free (vw A3) S0 c = true ∨ ∃ k, is_node k ∧ node_addr (vw A3) file3 k = c) ∧
  (∀ b, ¬ is_bitmap S0 b → b ≠ home S0 file3 → vw A' b = vw A3 b).
Proof.
  apply (itrunc_correct pid0 S0 file3 A3 log0 icache3 (state3 log0) 0); [by apply fabs3|done|apply file_ok3|apply in_tx3|done|by vm_compute|by split|].
  intros b [Hb|Hb]; apply space3; [done|done|left; by left|done|done|by right].
Defined.

Lemma iput_correct_witness : ∃ A' L' s', iput pid0 0 (state3 log0) = Ok tt s' ∧
  fabs pid0 S0 (<[0%nat := dead file3]> icache3) A' L' s' ∧ stored S0 (vw A') (dead file3) ∧ in_tx A' L' ∧
  (∀ c, 0 < c < 64 → is_free (vw A') S0 c = true ↔ is_free (vw A3) S0 c = true ∨ ∃ k, is_node k ∧ node_addr (vw A3) file3 k = c) ∧
  (∀ b, ¬ is_bitmap S0 b → b ≠ home S0 file3 → vw A' b = vw A3 b).
Proof.
  apply (iput_correct pid0 S0 icache3 A3 log0 (state3 log0) 0 file3 (fabs3 log0 eq_refl) eq_refl eq_refl);
    [apply file_ok3|apply in_tx3|done|by vm_compute|by split|].
  intros b [Hb|Hb]; apply space3; [done|done|left; by left|done|done|by right].
Defined.

(** Growing into the indirect block and truncating gives all blocks back. *)
Example grow_and_truncate :
  match (do! (let! _ := @writei pid0 no_devices 0 src3 6142 in ret tt) in itrunc pid0 0) (state3 log0) with
  | Ok _ s => match view (io (base s)) 34 with
              | Some d => (λ i, bit_free d (Z.of_nat i)) <$> seq 33 16 = [false; false] ++ replicate 14 true
              | None => False
              end
  | Fault => False
  end.
Proof. vm_compute. done. Qed.

(** ** A new entry in the root directory *)

Definition disk4 : list block := <[32%nat := put_bytes zeros 64 (dinode_bytes root)]> disk0.
Definition A4 : acache := AC (λ b, disk4 !! Z.to_nat b) disk4 [] ∅ ∅.
Definition state4 : fsys := Fsys (Fs (binit disk4) log0) S0 icache0.

Lemma fabs4 : fabs pid0 S0 icache0 A4 log0 state4.
Proof.
  split; [|done]. split; [apply binit_abs, Forall_insert; [apply fs_blocks0|by vm_compute]|].
  split; [done|]. split; [by vm_compute|done].
Qed.

Lemma node4 n : is_node n → node_addr (vw A4) root n = if n =? 0 then 35 else 0.
Proof.
  unfold is_node, INDIRECT. intros Hn.
  assert (forallb (λ n, node_addr (vw A4) root n =? if n =? 0 then 35 else 0) (seqZ (-1) 141) = true) as H by by vm_compute.
  rewrite forallb_forall in H. apply Z.eqb_eq, H, list_elem_of_In, elem_of_seqZ. change MAXFILE with 140 in Hn. lia.
Qed.

Lemma node4_zero n : is_node n → node_addr (vw A4) root n ≠ 0 → n = 0 ∧ node_addr (vw A4) root n = 35.
Proof. intros Hn. rewrite (node4 n Hn). by destruct (Z.eqb_spec n 0). Qed.

Lemma file_ok4 : file_ok S0 A4 root.
Proof.
  split; [done| |by vm_compute| | |].
  - split; [done| |split; [done| |]].
    + split; [split; vm_compute; split_and?; congruence|by vm_compute|]. intros c ->%bitmap0_is. by vm_compute.
    + intros n Hn Hne. destruct (node4_zero n Hn Hne) as [_ ->]. split; [done|]. split; [by vm_compute|]. by rewrite bitmap0_is.
    + intros n n' Hn Hn' Hne E. destruct (node4_zero n Hn Hne), (node4_zero n' Hn'); [by rewrite <- E|]. lia.
  - intros bn H0 H1. cbn in H1. unfold BSIZE in H1. by rewrite (node4 bn) by (unfold is_node, INDIRECT; change MAXFILE with 140; lia); rewrite (proj2 (Z.eqb_eq bn 0)) by lia.
  - change (home S0 root) with 32. split.
    + split; [done|]. split; [by vm_compute|]. by rewrite bitmap0_is.
    + intros n Hn E. destruct (node4_zero n Hn) as [_ E']; [by rewrite E|]. lia.
  - exists (put_bytes zeros 64 (dinode_bytes root)). split_and!; by vm_compute.
Qed.

(** The same with the lock of the root directory taken. *)
Definition icacheL : list inode := set_i_lock 1 pid0 root :: replicate 49 unused_inode.
Definition stateL : fsys := Fsys (Fs (binit disk4) log0) S0 icacheL.

Lemma fabsL : fabs pid0 S0 icacheL A4 log0 stateL.
Proof. destruct fabs4 as (H & _). by split. Qed.

Lemma icache_okL : icache_ok icacheL.
Proof. by apply (FsysNamei.FsysNamei.icache_update icache0 0 root (set_i_lock 1 pid0 root) icache_ok0). Qed.

Lemma only_lockL i y : icacheL !! i = Some y → i_locked y ≠ 0 → i = 0%nat.
Proof. destruct i as [|i]; [done|]. intros Hi. apply (lookup_replicate_1 49) in Hi as [-> _]. done. Qed.

Lemma enough4 x : x = root ∨ x = set_i_lock 1 pid0 root →
  enough (nodes_of (free_entry (vw A4) x * sizeof_dirent) sizeof_dirent) S0 A4 log0 x
    (6 * blocks_touched (free_entry (vw A4) x * sizeof_dirent) sizeof_dirent + 2).
Proof.
  intros Hx. assert (free_entry (vw A4) x = 3) as -> by (destruct Hx as [->| ->]; by vm_compute).
  change (6 * blocks_touched (3 * sizeof_dirent) sizeof_dirent + 2) with 8.
  split; [done|destruct Hx as [->| ->]; by vm_compute| |by vm_compute]. unfold can_log, log0, LOGSIZE, MAXOPBLOCKS. cbn [lh_n lsize outstanding]. lia.
Qed.

(** "b" for inode 3 is the fourth entry; "a" is there already. *)
Lemma dirlink_correct_witness : (∃ A' L' x' s' m, @dirlink pid0 no_devices 0 [x62] 3 state4 = Ok 0 s' ∧
  fabs pid0 S0 (<[0%nat := x']> icache0) A' L' s' ∧ after_write S0 root A4 log0 (dirent_bytes 3 [x62]) 48 m A' L' x' ∧ i_size x' = 64 ∧
  ∀ nm k, 0 ≤ k → k * 16 + 16 ≤ i_size x' →
    entry_is (vw A') x' nm k = if decide (k = 3) then bool_decide (fname [x62] = fname nm) else entry_is (vw A4) root nm k) ∧
  (∃ s' C', @dirlink pid0 no_devices 0 [x61] 3 stateL = Ok (-1) s' ∧ fabs pid0 S0 C' A4 log0 s' ∧ FsysNamei.FsysNamei.like icacheL C' []).
Proof.
  assert (free_entry (vw A4) root = 3) as E3 by by vm_compute. split.
  - pose proof (@dirlink_correct pid0 S0 no_devices icache0 A4 log0 state4 0 root [x62] 3 fabs4 icache_ok0 eq_refl file_ok4 eq_refl eq_refl) as H.
    assert (first_in (entry_is (vw A4) root [x62]) 0 (i_size root / sizeof_dirent) = None) as E by by vm_compute.
    pose proof (enough4 root (or_introl eq_refl)) as Hen. rewrite E, E3 in H. rewrite E3 in Hen.
    apply H; [right; by left|done|by vm_compute|exact Hen].
  - pose proof (@dirlink_correct pid0 S0 no_devices icacheL A4 log0 stateL 0 (set_i_lock 1 pid0 root) [x61] 3 fabsL icache_okL eq_refl
      (file_ok_lock S0 A4 root 1 pid0 file_ok4) eq_refl eq_refl) as H.
    assert (first_in (entry_is (vw A4) (set_i_lock 1 pid0 root) [x61]) 0 (i_size (set_i_lock 1 pid0 root) / sizeof_dirent) = Some 2) as E by by vm_compute.
    rewrite E in H. assert (entry_inum (vw A4) (set_i_lock 1 pid0 root) 2 = 2) as E2 by by vm_compute. rewrite E2 in H. rewrite decide_False in H by done.
    destruct H as (s' & C' & Es & HF & _ & Hlk); [right; by left|done|by vm_compute|apply enough4; by right|done|done|exact only_lockL|].
    by exists s', C'.
Defined.

End FsysGrowExamples.
