(* ===== verification/Pipe.v ===== *)
(** Pipe: the pipes of xv6 (p4/xv6-public/pipe.c) as a transition system.  Any
    number of processes read and write; what a call does between two points at
    which it holds no lock is one transition. *)
From Stdlib Require Import Strings.Byte.
From S2P Require Import Prelude.
From stdpp Require Import gmap relations.
Local Open Scope Z_scope.

Module Pipe.
Ltac Zify.zify_post_hook ::= Z.to_euclidean_division_equations.

Definition PIPESIZE : Z := 512.

(** [struct pipe]; the counters are of type [uint] and wrap around. *)
Record pipe := MkPipe { data : list byte; nread : Z; nwrite : Z; readopen : bool; writeopen : bool }.

(** What [pipealloc] stores into a new page. *)
Definition pipealloc (page : list byte) : pipe := MkPipe page 0 0 true true.

(** [p->nwrite == p->nread + PIPESIZE] and [p->nread == p->nwrite] *)
Definition full (p : pipe) : bool := nwrite p =? u32 (nread p + PIPESIZE).
Definition empty (p : pipe) : bool := nread p =? nwrite p.

(** [p->data[p->nwrite++ % PIPESIZE] = b] *)
Definition push (p : pipe) (b : byte) : pipe :=
  MkPipe (<[Z.to_nat (nwrite p mod PIPESIZE) := b]> (data p)) (nread p) (u32 (nwrite p + 1)) (readopen p) (writeopen p).
Definition next_byte (p : pipe) : byte := nth (Z.to_nat (nread p mod PIPESIZE)) (data p) x00.
Definition pop (p : pipe) : pipe := MkPipe (data p) (u32 (nread p + 1)) (nwrite p) (readopen p) (writeopen p).

(** The loops that copy: what is written until the pipe is full, what is read
    until it is empty. *)
Fixpoint fill (p : pipe) (bs : list byte) : pipe * list byte :=
  match bs with
  | [] => (p, [])
  | b :: bs' => if full p then (p, bs) else fill (push p b) bs'
  end.
Fixpoint drain (p : pipe) (n : nat) : pipe * list byte :=
  match n with
  | O => (p, [])
  | S n' => if empty p then (p, []) else let (p', bs) := drain (pop p) n' in (p', next_byte p :: bs)
  end.

(** The channels that processes sleep on: the addresses of the two counters. *)
Inductive chan := NREAD | NWRITE.
#[export] Instance chan_eq : EqDecision chan.
Proof. solve_decision. Defined.

(** How a call goes on: it returns a value, or sleeps. *)
Inductive outcome (R : Type) := Return (r : R) | Sleep (c : chan).
Arguments Return {R} r.
Arguments Sleep {R} c.

(** [int pipewrite(struct pipe *p, char *addr, int n)] from a point where it holds
    the lock and the bytes [bs] of its [n] bytes remain: the pipe, the bytes that
    remain, how it goes on, and the channels it wakes. *)
Definition pipewrite (killed : bool) (n : Z) (p : pipe) (bs : list byte) :
    pipe * list byte * outcome Z * list chan :=
  let (p', rest) := fill p bs in
  match rest with
  | [] => (p', [], Return n, [NREAD])
  | _ => if negb (readopen p') || killed then (p', rest, Return (-1), [])
         else (p', rest, Sleep NWRITE, [NREAD])
  end.

(** [int piperead(struct pipe *p, char *addr, int n)]: the pipe, the bytes stored,
    how it goes on (with the value returned), the channels it wakes. *)
Definition piperead (killed : bool) (n : Z) (p : pipe) : pipe * list byte * outcome Z * list chan :=
  if empty p && writeopen p then
    if killed then (p, [], Return (-1), []) else (p, [], Sleep NREAD, [])
  else
    let (p', bs) := drain p (Z.to_nat n) in
    (p', bs, Return (Z.of_nat (length bs)), [NWRITE]).

(** [void pipeclose(struct pipe *p, int writable)]: the pipe, the channel woken and
    whether the page is freed. *)
Definition pipeclose (p : pipe) (writable : bool) : pipe * list chan * bool :=
  let p' := if writable then MkPipe (data p) (nread p) (nwrite p) (readopen p) false
            else MkPipe (data p) (nread p) (nwrite p) false (writeopen p) in
  (p', [if writable then NREAD else NWRITE], negb (readopen p') && negb (writeopen p')).

(** * The system *)

(** A call in progress. *)
Inductive call := Reading (n : Z) | Writing (n : Z) (rest : list byte).
Record thread := Th { running : option call; asleep : option chan; killed : bool }.

(** The pipe, the processes, and all bytes written and read so far, oldest
    first. *)
Record sys := Sys { the_pipe : pipe; threads : list thread; sent : list byte; received : list byte }.

Definition wake (cs : list chan) (t : thread) : thread :=
  match asleep t with
  | Some c => if bool_decide (c ∈ cs) then Th (running t) None (killed t) else t
  | None => t
  end.

Definition after {R} (c : call) (o : outcome R) (k : bool) : thread :=
  match o with Return _ => Th None None k | Sleep ch => Th (Some c) (Some ch) k end.

(** Whether a process is within a call on this end of the pipe. *)
Definition uses (writable : bool) (t : thread) : bool :=
  match running t with
  | Some (Reading _) => negb writable
  | Some (Writing _ _) => writable
  | None => false
  end.

Inductive step : sys → sys → Prop :=
| start_read p ts i k n sd rc : ts !! i = Some (Th None None k) → 0 ≤ n → readopen p = true →
    step (Sys p ts sd rc) (Sys p (<[i := Th (Some (Reading n)) None k]> ts) sd rc)
| start_write p ts i k bs sd rc : ts !! i = Some (Th None None k) → writeopen p = true →
    step (Sys p ts sd rc) (Sys p (<[i := Th (Some (Writing (Z.of_nat (length bs)) bs)) None k]> ts) sd rc)
| run_read p ts i k n p' bs o cs sd rc : ts !! i = Some (Th (Some (Reading n)) None k) →
    piperead k n p = (p', bs, o, cs) →
    step (Sys p ts sd rc) (Sys p' (wake cs <$> <[i := after (Reading n) o k]> ts) sd (rc ++ bs))
| run_write p ts i k n bs p' rest o cs sd rc : ts !! i = Some (Th (Some (Writing n bs)) None k) →
    pipewrite k n p bs = (p', rest, o, cs) →
    step (Sys p ts sd rc)
         (Sys p' (wake cs <$> <[i := after (Writing n rest) o k]> ts) (sd ++ take (length bs - length rest) bs) rc)
| close p ts w p' cs fr sd rc : Forall (λ t, uses w t = false) ts → pipeclose p w = (p', cs, fr) →
    step (Sys p ts sd rc) (Sys p' (wake cs <$> ts) sd rc)
| kill p ts i t sd rc : ts !! i = Some t →
    step (Sys p ts sd rc) (Sys p (<[i := Th (running t) None true]> ts) sd rc).

(** Processes that make no call yet, on a new pipe. *)
Definition initial (s : sys) : Prop :=
  ∃ page ts, length page = Z.to_nat PIPESIZE ∧ Forall (λ t, running t = None ∧ asleep t = None) ts ∧
             s = Sys (pipealloc page) ts [] [].
Definition reachable (s : sys) : Prop := ∃ s0, initial s0 ∧ rtc step s0 s.

(** * The contents of a pipe *)

Definition fill_count (p : pipe) : Z := u32 (nwrite p - nread p).
Definition contents (p : pipe) : list byte :=
  (λ i, nth (Z.to_nat ((nread p + Z.of_nat i) mod PIPESIZE)) (data p) x00) <$> seq 0 (Z.to_nat (fill_count p)).

Record pipe_ok (p : pipe) : Prop := {
  po_data : length (data p) = 512%nat;
  po_read : 0 ≤ nread p < 2 ^ 32;
  po_write : 0 ≤ nwrite p < 2 ^ 32;
  po_count : 0 ≤ fill_count p ≤ PIPESIZE
}.

Lemma length_contents p : length (contents p) = Z.to_nat (fill_count p).
Proof. unfold contents. by rewrite length_fmap, length_seq. Qed.

Lemma full_iff p : pipe_ok p → full p = (fill_count p =? PIPESIZE).
Proof.
  intros []. unfold full, fill_count, PIPESIZE, u32, wrapu in *. apply eq_true_iff_eq. rewrite !Z.eqb_eq. lia.
Qed.

Lemma empty_iff p : pipe_ok p → empty p = (fill_count p =? 0).
Proof. intros []. unfold empty, fill_count, u32, wrapu in *. apply eq_true_iff_eq. rewrite !Z.eqb_eq. lia. Qed.

Lemma push_ok p b : pipe_ok p → full p = false → pipe_ok (push p b) ∧ contents (push p b) = contents p ++ [b].
Proof.
  intros Hp Hf. rewrite full_iff in Hf by done. apply Z.eqb_neq in Hf. destruct Hp.
  assert (fill_count (push p b) = fill_count p + 1) as Hc.
  { unfold fill_count, push, PIPESIZE, u32, wrapu in *. cbn [nread nwrite]. lia. }
  split; [split; cbn; rewrite ?length_insert, ?Hc; unfold PIPESIZE, u32, wrapu in *; (done || lia)|].
  unfold contents at 1. rewrite Hc. replace (Z.to_nat (fill_count p + 1)) with (Z.to_nat (fill_count p) + 1)%nat by lia.
  rewrite seq_app, fmap_app. f_equal.
  - apply list_eq. intros i. unfold contents. rewrite !list_lookup_fmap. destruct (decide (i < Z.to_nat (fill_count p))%nat) as [Hi|Hi].
    + rewrite lookup_seq_lt by done. cbn. f_equal. rewrite !nth_lookup, list_lookup_insert_ne; [done|].
      unfold fill_count, PIPESIZE, u32, wrapu in *. lia.
    + by rewrite !lookup_seq_ge by lia.
  - cbn. f_equal. assert (nwrite p mod PIPESIZE = (nread p + fill_count p) mod PIPESIZE) as -> by
      (unfold fill_count, PIPESIZE, u32, wrapu in *; lia).
    rewrite Z2Nat.id by lia. rewrite nth_lookup, list_lookup_insert_eq; [done|]. unfold PIPESIZE. lia.
Qed.

Lemma pop_ok p : pipe_ok p → empty p = false → pipe_ok (pop p) ∧ contents p = next_byte p :: contents (pop p).
Proof.
  intros Hp He. rewrite empty_iff in He by done. apply Z.eqb_neq in He. destruct Hp.
  assert (fill_count (pop p) = fill_count p - 1) as Hc by (unfold fill_count, pop, PIPESIZE, u32, wrapu in *; cbn; lia).
  split; [split; cbn; rewrite ?Hc; unfold PIPESIZE, u32, wrapu in *; (done || lia)|].
  unfold contents. rewrite Hc. replace (Z.to_nat (fill_count p)) with (Datatypes.S (Z.to_nat (fill_count p - 1))) by lia.
  cbn [seq fmap list_fmap]. f_equal; [unfold next_byte; by rewrite Z.add_0_r|].
  rewrite <- fmap_S_seq, <- list_fmap_compose. apply list_fmap_ext. intros i j Hj. cbn [compose pop data nread].
  do 2 f_equal. unfold PIPESIZE, u32, wrapu. lia.
Qed.

Definition same_ends (p p' : pipe) : Prop := readopen p' = readopen p ∧ writeopen p' = writeopen p.

(** Writing appends a prefix of the bytes, all of them or until the pipe is
    full. *)
Lemma fill_ok p bs p' rest : pipe_ok p → fill p bs = (p', rest) →
  pipe_ok p' ∧ same_ends p p' ∧ (∃ w, bs = w ++ rest ∧ contents p' = contents p ++ w) ∧ (rest ≠ [] → full p' = true).
Proof.
  revert p. induction bs as [|b bs IH]; intros p Hp; cbn [fill].
  { intros [= <- <-]. split; [done|]; split; [done|]; split; [exists []; by rewrite !app_nil_r|done]. }
  destruct (full p) eqn:Hf; [intros [= <- <-]; split; [done|]; split; [done|]; split; [exists []; by rewrite !app_nil_r|done]|].
  intros E. destruct (push_ok p b Hp Hf) as [Hp1 Hc1]. destruct (IH _ Hp1 E) as (? & ? & (w & -> & Hw) & ?).
  split; [done|]. split; [done|]. split; [|done]. exists (b :: w). split; [done|]. by rewrite Hw, Hc1, <- app_assoc.
Qed.

Lemma fill_full p bs p' rest : full p = true → fill p bs = (p', rest) → p' = p ∧ rest = bs.
Proof. intros Hf. destruct bs as [|b bs]; cbn [fill]; [|rewrite Hf]; by intros [= <- <-]. Qed.

(** Reading takes a prefix of the contents, [n] bytes or until the pipe is
    empty. *)
Lemma drain_ok p n p' bs : pipe_ok p → drain p n = (p', bs) →
  pipe_ok p' ∧ same_ends p p' ∧ contents p = bs ++ contents p' ∧ length bs = Nat.min n (length (contents p)).
Proof.
  revert p p' bs. induction n as [|n IH]; intros p p' bs Hp; cbn [drain]; [by intros [= <- <-]|].
  destruct (empty p) eqn:He.
  { intros [= <- <-]. split; [done|]. split; [done|]. split; [done|]. rewrite length_contents. rewrite empty_iff in He by done. apply Z.eqb_eq in He. by rewrite He. }
  destruct (drain (pop p) n) as [p1 bs1] eqn:E. intros [= <- <-]. destruct (pop_ok p Hp He) as [Hp1 Hc1].
  destruct (IH _ _ _ Hp1 E) as (? & ? & Hc & Hl). split; [done|]. split; [done|]. split; [by rewrite Hc1, Hc|]. rewrite Hc1. cbn. by rewrite Hl.
Qed.

Lemma piperead_ok k n p p' bs o cs : pipe_ok p → piperead k n p = (p', bs, o, cs) →
  pipe_ok p' ∧ same_ends p p' ∧ contents p = bs ++ contents p'.
Proof.
  intros Hp. unfold piperead. destruct (empty p && writeopen p); [by destruct k; intros [= <- <- <- <-]|].
  destruct (drain p (Z.to_nat n)) as [p1 bs1] eqn:E. intros [= <- <- <- <-].
  by destruct (drain_ok _ _ _ _ Hp E) as (? & ? & ? & _).
Qed.

Lemma pipewrite_ok k n p bs p' rest o cs : pipe_ok p → pipewrite k n p bs = (p', rest, o, cs) →
  pipe_ok p' ∧ same_ends p p' ∧ (∃ w, bs = w ++ rest ∧ contents p' = contents p ++ w) ∧ (rest ≠ [] → full p' = true) ∧ fill p bs = (p', rest).
Proof.
  intros Hp. unfold pipewrite. destruct (fill p bs) as [p1 r] eqn:E. pose proof (fill_ok _ _ _ _ Hp E) as (? & ? & ? & ?).
  destruct r as [|b r]; [|destruct (negb (readopen p1) || k)]; intros [= <- <- <- <-]; done.
Qed.

(** * First in, first out *)

Definition fifo (s : sys) : Prop := pipe_ok (the_pipe s) ∧ sent s = received s ++ contents (the_pipe s).

Lemma fifo_step s s' : fifo s → step s s' → fifo s'.
Proof.
  intros [Hp Hs] Hst. destruct Hst as [| |p ts i k n p' bs o cs sd rc _ E|p ts i k n bs p' rest o cs sd rc _ E|p ts w p' cs fr sd rc _ E|];
    cbn in *; [done..| | | |done].
  - destruct (piperead_ok _ _ _ _ _ _ _ Hp E) as (? & _ & Hc). split; [done|]. cbn. by rewrite Hs, Hc, app_assoc.
  - destruct (pipewrite_ok _ _ _ _ _ _ _ _ Hp E) as (? & _ & (w & -> & Hc) & _ & _). split; [done|]. cbn.
    replace (length (w ++ rest) - length rest)%nat with (length w) by (rewrite length_app; lia).
    by rewrite take_app_length, Hc, Hs, app_assoc.
  - unfold pipeclose in E. destruct w; injection E as <- <- <-; (split; [by destruct Hp|done]).
Qed.

Lemma rtc_invariant (I : sys → Prop) : (∀ s s', I s → step s s' → I s') → ∀ s s', rtc step s s' → I s → I s'.
Proof. intros H s s'. induction 1; eauto. Qed.

Lemma fifo_initial s : initial s → fifo s.
Proof. intros (page & ts & Hl & _ & ->). split; [split; cbn; (done || lia)|done]. Qed.

(** C29: The bytes come out of the pipe in the order in which they went in, none is
    lost and none is read twice, and the pipe never holds more than [PIPESIZE],
    however often the counters wrap around. *)
Theorem pipe_fifo s : reachable s →
  sent s = received s ++ contents (the_pipe s) ∧ Z.of_nat (length (contents (the_pipe s))) ≤ PIPESIZE.
Proof.
  intros (s0 & H0 & Hr). destruct (rtc_invariant fifo fifo_step s0 s Hr (fifo_initial s0 H0)) as [[] ?].
  split; [done|]. rewrite length_contents. lia.
Qed.

(** * Sleeping *)

(** A process sleeps for a reason that still holds. *)
Definition sleeps_well (p : pipe) (t : thread) : Prop :=
  match asleep t with
  | Some NREAD => uses false t = true ∧ empty p = true ∧ writeopen p = true
  | Some NWRITE => uses true t = true ∧ full p = true ∧ readopen p = true
  | None => True
  end.
Definition holds_end (p : pipe) (t : thread) : Prop :=
  (uses false t = true → readopen p = true) ∧ (uses true t = true → writeopen p = true).

Record sleepers_ok (s : sys) : Prop := {
  so_ends : Forall (holds_end (the_pipe s)) (threads s);
  so_sleep : Exists (λ t, killed t = true) (threads s) ∨ Forall (sleeps_well (the_pipe s)) (threads s)
}.

Lemma wake_uses cs w t : uses w (wake cs t) = uses w t.
Proof. unfold wake. destruct (asleep t); [|done]. by case_bool_decide. Qed.
Lemma wake_killed cs t : killed (wake cs t) = killed t.
Proof. unfold wake. destruct (asleep t); [|done]. by case_bool_decide. Qed.
Lemma wake_ends p cs t : holds_end p t → holds_end p (wake cs t).
Proof. unfold holds_end. by rewrite !wake_uses. Qed.
Lemma after_ends {R} p c (o : outcome R) k : holds_end p (Th (Some c) None k) → holds_end p (after c o k).
Proof. by destruct o. Qed.
Lemma ends_same p p' t : same_ends p p' → holds_end p t → holds_end p' t.
Proof. intros [E1 E2]. unfold holds_end. by rewrite E1, E2. Qed.

(** Those that are not woken sleep well for the new pipe, those that are woken do
    not sleep. *)
Lemma wake_sleeps p p' cs t :
  sleeps_well p t →
  (NREAD ∉ cs → uses false t = true → empty p = true → writeopen p = true → empty p' = true ∧ writeopen p' = true) →
  (NWRITE ∉ cs → uses true t = true → full p = true → readopen p = true → full p' = true ∧ readopen p' = true) →
  sleeps_well p' (wake cs t).
Proof.
  intros Ht Hr Hw. unfold sleeps_well in *. rewrite !wake_uses. unfold wake. destruct (asleep t) as [[]|] eqn:E; [| |by rewrite E].
  - case_bool_decide as Hc; cbn; [done|]. rewrite E. destruct Ht as (? & ? & ?). split; [done|]. by apply Hr.
  - case_bool_decide as Hc; cbn; [done|]. rewrite E. destruct Ht as (? & ? & ?). split; [done|]. by apply Hw.
Qed.

Lemma killed_insert ts i t0 t : ts !! i = Some t0 → (killed t0 = true → killed t = true) →
  Exists (λ t, killed t = true) ts → Exists (λ t, killed t = true) (<[i := t]> ts).
Proof.
  intros Hi Hk. rewrite !Exists_exists. intros (u & (j & Hj)%list_elem_of_lookup & Hu). destruct (decide (j = i)) as [->|].
  - exists t. split; [|apply Hk; congruence]. apply (list_elem_of_lookup_2 _ i). apply list_lookup_insert_eq. by eapply lookup_lt_Some.
  - exists u. split; [|done]. apply (list_elem_of_lookup_2 _ j). by rewrite list_lookup_insert_ne.
Qed.

Lemma killed_wake cs ts : Exists (λ t, killed t = true) (wake cs <$> ts) ↔ Exists (λ t, killed t = true) ts.
Proof.
  rewrite !Exists_exists. split.
  - intros (? & (t & -> & Ht)%list_elem_of_fmap & Hk). exists t. by rewrite wake_killed in Hk.
  - intros (t & Ht & Hk). exists (wake cs t). by rewrite wake_killed, list_elem_of_fmap; eauto.
Qed.

Lemma insert_wake_sleeps p p' cs ts i t :
  Forall (holds_end p) ts → Forall (sleeps_well p) ts → sleeps_well p' t →
  (NREAD ∉ cs → readopen p = true → empty p = true → writeopen p = true → empty p' = true ∧ writeopen p' = true) →
  (NWRITE ∉ cs → writeopen p = true → full p = true → readopen p = true → full p' = true ∧ readopen p' = true) →
  Forall (sleeps_well p') (wake cs <$> <[i := t]> ts).
Proof.
  intros He Hs Ht Hr Hw. apply Forall_fmap, Forall_insert; [|by apply (wake_sleeps p')].
  rewrite Forall_forall in He. apply (Forall_impl (λ u, sleeps_well p u ∧ holds_end p u)).
  - rewrite Forall_forall in Hs. apply Forall_forall. eauto.
  - intros u [Hu [Hu1 Hu2]]. apply (wake_sleeps p p'); [done| |]; auto.
Qed.

Lemma insert_ends p p' cs ts i t :
  Forall (holds_end p) ts → same_ends p p' → holds_end p' t → Forall (holds_end p') (wake cs <$> <[i := t]> ts).
Proof.
  intros He Hse Ht. apply Forall_fmap, Forall_insert; [|by apply wake_ends].
  eapply Forall_impl; [done|]. intros u Hu. apply wake_ends. by eapply ends_same.
Qed.

Lemma run_read_sleepers p ts i n p' bs o cs k :
  pipe_ok p → ts !! i = Some (Th (Some (Reading n)) None k) → piperead k n p = (p', bs, o, cs) →
  sleepers_ok (Sys p ts [] []) →
  Forall (holds_end p') (wake cs <$> <[i := after (Reading n) o k]> ts) ∧
  (Exists (λ t, killed t = true) (wake cs <$> <[i := after (Reading n) o k]> ts) ∨
   Forall (sleeps_well p') (wake cs <$> <[i := after (Reading n) o k]> ts)).
Proof.
  intros Hp Hi E [He Hs]. cbn in *. destruct (piperead_ok _ _ _ _ _ _ _ Hp E) as (_ & Hse & _). split.
  { eapply insert_ends; [done..|]. apply after_ends. eapply ends_same; [done|]. by apply (Forall_lookup_1 _ _ _ _ He Hi). }
  destruct k.
  { left. apply killed_wake, Exists_exists. eexists. split; [eapply list_elem_of_lookup_2, list_lookup_insert_eq; by eapply lookup_lt_Some|].
    by destruct o. }
  destruct Hs as [Hs|Hs]; [left; apply killed_wake; by eapply killed_insert|right]. unfold piperead in E.
  destruct (empty p && writeopen p) eqn:Hew.
  - injection E as <- <- <- <-. apply andb_true_iff in Hew as [? ?]. by apply (insert_wake_sleeps p).
  - destruct (drain p (Z.to_nat n)) as [p1 bs1]. injection E as <- <- <- <-. apply (insert_wake_sleeps p); try done.
    + intros _ _ H1 H2. by rewrite H1, H2 in Hew.
    + intros H1. destruct H1. by left.
Qed.

Lemma run_write_sleepers p ts i n bs p' rest o cs k :
  pipe_ok p → ts !! i = Some (Th (Some (Writing n bs)) None k) → pipewrite k n p bs = (p', rest, o, cs) →
  sleepers_ok (Sys p ts [] []) →
  Forall (holds_end p') (wake cs <$> <[i := after (Writing n rest) o k]> ts) ∧
  (Exists (λ t, killed t = true) (wake cs <$> <[i := after (Writing n rest) o k]> ts) ∨
   Forall (sleeps_well p') (wake cs <$> <[i := after (Writing n rest) o k]> ts)).
Proof.
  intros Hp Hi E [He Hs]. cbn in *. destruct (pipewrite_ok _ _ _ _ _ _ _ _ Hp E) as (_ & Hse & _ & Hfull & Efill). split.
  { eapply insert_ends; [done..|]. apply after_ends. eapply ends_same; [done|]. by apply (Forall_lookup_1 _ _ _ _ He Hi). }
  destruct k.
  { left. apply killed_wake, Exists_exists. eexists. split; [eapply list_elem_of_lookup_2, list_lookup_insert_eq; by eapply lookup_lt_Some|].
    by destruct o. }
  destruct Hs as [Hs|Hs]; [left; apply killed_wake; by eapply killed_insert|right].
  unfold pipewrite in E. rewrite Efill in E. destruct Hse as [Hro Hwo]. destruct rest as [|b rest].
  - injection E as <- <-. apply (insert_wake_sleeps p); try done.
    + intros H1. destruct H1. by left.
    + intros _ _ H1 H2. by destruct (fill_full _ _ _ _ H1 Efill) as [-> _].
  - specialize (Hfull ltac:(done)). rewrite orb_false_r in E. destruct (readopen p') eqn:Er; injection E as <- <-.
    + apply (insert_wake_sleeps p); try done. intros H1. destruct H1. by left.
    + apply (insert_wake_sleeps p); try done; intros; congruence.
Qed.

Lemma close_sleepers p ts w p' cs fr :
  Forall (λ t, uses w t = false) ts → pipeclose p w = (p', cs, fr) → sleepers_ok (Sys p ts [] []) →
  Forall (holds_end p') (wake cs <$> ts) ∧
  (Exists (λ t, killed t = true) (wake cs <$> ts) ∨ Forall (sleeps_well p') (wake cs <$> ts)).
Proof.
  intros Hg E [He Hs]. cbn in *. unfold pipeclose in E. rewrite Forall_forall in He, Hg. split.
  - apply Forall_fmap, Forall_forall. intros u Hu. apply wake_ends. pose proof (Hg u Hu) as Hgu. destruct (He u Hu) as [H1 H2].
    destruct w; injection E as <- <- _; (split; [|]); cbn; try done; by rewrite Hgu.
  - rewrite killed_wake. destruct Hs as [Hs|Hs]; [by left|right]. rewrite Forall_forall in Hs.
    apply Forall_fmap, Forall_forall. intros u Hu. pose proof (Hg u Hu) as Hgu.
    destruct w; injection E as <- <- _; (apply (wake_sleeps p); [by apply Hs| |]); cbn; intros Hc; rewrite ?Hgu; try done; destruct Hc; by left.
Qed.

Lemma sleepers_step s s' : pipe_ok (the_pipe s) → sleepers_ok s → step s s' → sleepers_ok s'.
Proof.
  intros Hp Hs Hst. assert (sleepers_ok (Sys (the_pipe s) (threads s) [] [])) as Hs0 by (by destruct Hs).
  assert (∀ p ts i k c, ts !! i = Some (Th None None k) → holds_end p (Th (Some c) None k) →
    Forall (holds_end p) ts → Exists (λ t, killed t = true) ts ∨ Forall (sleeps_well p) ts →
    ∀ sd rc, sleepers_ok (Sys p (<[i := Th (Some c) None k]> ts) sd rc)) as Hstart.
  { intros p ts i k c Hi Hc He Hk sd rc. split; cbn; [by apply Forall_insert|].
    destruct Hk; [left; by eapply killed_insert|right; by apply Forall_insert]. }
  destruct Hst as [p ts i k n sd rc Hi _ Ho|p ts i k bs sd rc Hi Ho|p ts i k n p' bs o cs sd rc Hi E
    |p ts i k n bs p' rest o cs sd rc Hi E|p ts w p' cs fr sd rc Hg E|p ts i t sd rc Hi]; cbn in *.
  - apply Hstart; [done|by split|by destruct Hs..].
  - apply Hstart; [done|by split|by destruct Hs..].
  - destruct (run_read_sleepers p ts i n p' bs o cs k Hp Hi E Hs0). by split.
  - destruct (run_write_sleepers p ts i n bs p' rest o cs k Hp Hi E Hs0). by split.
  - destruct (close_sleepers p ts w p' cs fr Hg E Hs0). by split.
  - destruct Hs as [He _]. cbn in *. split; cbn.
    + apply Forall_insert; [done|]. apply (Forall_lookup_1 _ _ _ _ He Hi).
    + left. apply Exists_exists. eexists. split; [eapply list_elem_of_lookup_2, list_lookup_insert_eq; by eapply lookup_lt_Some|done].
Qed.

(** C30: No wake-up is lost as long as no process is killed: a process that sleeps in
    a read sleeps on an empty pipe that somebody may still write, one that sleeps
    in a write sleeps on a full pipe that somebody may still read. *)
Theorem pipe_no_lost_wakeup s i t c :
  reachable s → Forall (λ t, killed t = false) (threads s) → threads s !! i = Some t → asleep t = Some c →
  match c with
  | NREAD => contents (the_pipe s) = [] ∧ writeopen (the_pipe s) = true
  | NWRITE => Z.of_nat (length (contents (the_pipe s))) = PIPESIZE ∧ readopen (the_pipe s) = true
  end.
Proof.
  intros (s0 & H0 & Hr) Hk Hi Hc.
  assert (fifo s ∧ sleepers_ok s) as [[Hp _] [_ Hs]].
  { eapply (rtc_invariant (λ s, fifo s ∧ sleepers_ok s)); [|done|].
    - intros s1 s2 [H1 H2] Hst. split; [by eapply fifo_step|]. eapply sleepers_step; [apply H1|done..].
    - split; [by apply fifo_initial|]. destruct H0 as (page & ts & _ & Hts & ->). split; cbn.
      + eapply Forall_impl; [done|]. intros u [Hu _]. unfold holds_end, uses. by rewrite Hu.
      + right. eapply Forall_impl; [done|]. intros u [_ Hu]. unfold sleeps_well. by rewrite Hu. }
  destruct Hs as [Hs|Hs].
  { apply Exists_exists in Hs as (u & Hu & Hku). rewrite Forall_forall in Hk. by rewrite (Hk u Hu) in Hku. }
  pose proof (Forall_lookup_1 _ _ _ _ Hs Hi) as Ht. unfold sleeps_well in Ht. rewrite Hc in Ht. destruct c, Ht as (_ & Hf & ?); (split; [|done]).
  - rewrite empty_iff in Hf by done. apply Z.eqb_eq in Hf. apply length_zero_iff_nil. rewrite length_contents. lia.
  - rewrite full_iff in Hf by done. apply Z.eqb_eq in Hf. rewrite length_contents, Hf. done.
Qed.

(** A killed writer gives up on a full pipe without waking the readers: a reader
    that went to sleep on the empty pipe goes on sleeping although the pipe is
    full. *)
Theorem killed_writer_strands_reader :
  ∃ s, reachable s ∧ length (contents (the_pipe s)) = 512%nat ∧ writeopen (the_pipe s) = true ∧
       threads s = [Th (Some (Reading 1)) (Some NREAD) false; Th None None true].
Proof.
  set (page := replicate 512 x00). set (bs := replicate 513 x61).
  set (p' := fst (fill (pipealloc page) bs)). exists (Sys p' [Th (Some (Reading 1)) (Some NREAD) false; Th None None true] (replicate 512 x61) []).
  split; [|by vm_compute]. exists (Sys (pipealloc page) [Th None None false; Th None None false] [] []).
  split; [exists page, [Th None None false; Th None None false]; split_and!; [done|by repeat constructor|done]|].
  eapply rtc_l; [apply (start_read _ _ 0 false 1); [done|lia|done]|].
  eapply rtc_l; [eapply (run_read _ _ 0); [done|reflexivity]|].
  eapply rtc_l; [apply (start_write _ _ 1 false bs); done|].
  eapply rtc_l; [eapply (kill _ _ 1); done|].
  eapply rtc_l; [eapply (run_write _ _ 1); [done|vm_compute; reflexivity]|].
  apply rtc_refl.
Qed.

(** ** A run *)

Definition page0 : list byte := replicate 512 x00.
Definition idle : thread := Th None None false.

(** A reader sleeps on the empty pipe. *)
Definition asleep_state : sys := Sys (pipealloc page0) [Th (Some (Reading 4)) (Some NREAD) false; idle] [] [].

Lemma asleep_reachable : reachable asleep_state.
Proof.
  exists (Sys (pipealloc page0) [idle; idle] [] []). split; [exists page0, [idle; idle]; split_and!; [done|by repeat constructor|done]|].
  eapply rtc_l; [apply (start_read _ _ 0 false 4); [done|lia|done]|].
  eapply rtc_l; [eapply (run_read _ _ 0); [done|reflexivity]|]. apply rtc_refl.
Qed.

(** A writer writes two bytes, which wakes the reader, who takes them. *)
Definition read_state : sys :=
  Sys (MkPipe ([x61; x62] ++ replicate 510 x00) 2 2 true true) [idle; idle] [x61; x62] [x61; x62].

Lemma read_reachable : reachable read_state.
Proof.
  destruct asleep_reachable as (s0 & H0 & Hr). exists s0. split; [done|]. eapply rtc_trans; [exact Hr|].
  eapply rtc_l; [apply (start_write _ _ 1 false [x61; x62]); done|].
  eapply rtc_l; [eapply (run_write _ _ 1); [done|vm_compute; reflexivity]|].
  eapply rtc_l; [eapply (run_read _ _ 0); [done|vm_compute; reflexivity]|]. apply rtc_refl.
Qed.

Lemma pipe_fifo_witness : reachable read_state ∧
  sent read_state = received read_state ++ contents (the_pipe read_state) ∧
  Z.of_nat (length (contents (the_pipe read_state))) ≤ PIPESIZE.
Proof. split; [apply read_reachable|]. apply (pipe_fifo read_state), read_reachable. Defined.

Lemma pipe_no_lost_wakeup_witness : contents (the_pipe asleep_state) = [] ∧ writeopen (the_pipe asleep_state) = true.
Proof.
  apply (pipe_no_lost_wakeup asleep_state 0 (Th (Some (Reading 4)) (Some NREAD) false) NREAD asleep_reachable); [by repeat constructor|done|done].
Defined.

End Pipe.
