(* ===== verification/Syscall.v ===== *)
(** Syscall: how the kernel fetches the arguments of system calls from the memory
    of the calling process (p4/xv6-public/syscall.c). *)
From Stdlib Require Import Strings.Byte.
From S2P Require Import Prelude Memory.
Local Open Scope Z_scope.

Module Syscall.

(** The calling process: its memory, of which the first [sz] bytes are its own,
    its stack pointer, its working directory (an inode), its open files (entries
    of the file table) and whether it has been killed. *)
Record uproc := U {
  umem : mem; sz : Z; esp : Z; cwd : nat; ofile : list (option nat); killed : bool
}.
Definition set_umem (m : mem) (u : uproc) : uproc := U m (sz u) (esp u) (cwd u) (ofile u) (killed u).

#[export] Program Instance uproc_mem : HasMem uproc := {| the_mem := umem; with_mem := set_umem |}.
Next Obligation. done. Qed.
Next Obligation. done. Qed.
Next Obligation. by intros []. Qed.

(** [int fetchint(uint addr, int *ip)]: the integer, unless the call answers -1. *)
Definition fetchint (addr : Z) : ST uproc (option Z) :=
  let! s := gets sz in
  if (s <=? addr) || (s <? u32 (addr + 4)) then ret None else
  let! v := load_sint 4 addr in ret (Some v).

(** [int fetchstr(uint addr, char **pp)]: the length of the string at [addr]. *)
Definition fetchstr_step (addr s : Z) : ST uproc (Z + option Z) :=
  let! ep := gets sz in
  if negb (s <? ep) then ret (inr None) else
  let! c := load_uint 1 s in
  if c =? 0 then ret (inr (Some (s - addr))) else ret (inl (s + 1)).
Definition fetchstr (addr : Z) : ST uproc (option Z) :=
  let! ep := gets sz in
  if ep <=? addr then ret None else
  loop (S (Z.to_nat (ep - addr))) (fetchstr_step addr) addr.

(** [int argint(int n, int *ip)] *)
Definition argint (n : Z) : ST uproc (option Z) :=
  let! sp := gets esp in fetchint (u32 (sp + 4 + 4 * n)).

(** [int argptr(int n, char **pp, int size)]: the pointer. *)
Definition argptr (n size : Z) : ST uproc (option Z) :=
  let! i := argint n in
  match i with
  | None => ret None
  | Some i =>
      let! s := gets sz in
      if (size <? 0) || (s <=? u32 i) || (s <? u32 (u32 i + size)) then ret None else ret (Some (u32 i))
  end.

(** [int argstr(int n, char **pp)]: the pointer and the length. *)
Definition argstr (n : Z) : ST uproc (option (Z * Z)) :=
  let! addr := argint n in
  match addr with
  | None => ret None
  | Some addr =>
      let! len := fetchstr (u32 addr) in
      ret ((λ l, (u32 addr, l)) <$> len)
  end.

(** * What is fetched *)

(** User memory ends below the kernel. *)
Definition KERNBASE : Z := 0x80000000.
Record user_ok (u : uproc) : Prop := {
  uo_sz : 0 ≤ sz u ≤ KERNBASE;
  uo_mem : sz u ≤ msize (umem u);
  uo_esp : 0 ≤ esp u < 2 ^ 32
}.

Section Fetch.
Context (u : uproc) (Hu : user_ok u).

(** The integer at [addr], when all of it belongs to the process. *)
Definition int_at (addr : Z) : option Z :=
  if decide (0 ≤ addr ∧ addr + 4 ≤ sz u) then Some (sint_at (umem u) addr 4) else None.

Lemma fetchint_ok addr : 0 ≤ addr < 2 ^ 32 → fetchint addr u = Ok (int_at addr) u.
Proof.
  intros Ha. destruct Hu. unfold KERNBASE in *. unfold fetchint, int_at. erewrite bind_ok by reflexivity.
  destruct (Z.leb_spec (sz u) addr); cbn [orb]; [by rewrite decide_False by lia|].
  rewrite u32_small by lia. destruct (Z.ltb_spec (sz u) (addr + 4)); [by rewrite decide_False by lia|].
  rewrite decide_True by lia. rewrite (bind_ok _ _ _ _ _ (load_sint_ok 4 addr u ltac:(apply in_range_iff; cbn; lia))). done.
Qed.

(** Argument [n] is above the stack pointer. *)
Definition arg_addr (n : Z) : Z := u32 (esp u + 4 + 4 * n).

Lemma argint_ok n : argint n u = Ok (int_at (arg_addr n)) u.
Proof.
  unfold argint. erewrite bind_ok by reflexivity. apply fetchint_ok. apply (wrapu_range 32). lia.
Qed.

(** The length of the string at [addr]: up to the first NUL before the end. *)
Definition string_len (addr : Z) : option Z :=
  (λ j, j - addr) <$> first_in (λ a, uint_at (umem u) a 1 =? 0) addr (sz u).

Lemma fetchstr_ok addr : 0 ≤ addr → fetchstr addr u = Ok (string_len addr) u.
Proof.
  intros Ha. destruct Hu. unfold fetchstr, string_len. erewrite bind_ok by reflexivity. set (p := λ a, uint_at (umem u) a 1 =? 0).
  destruct (Z.leb_spec (sz u) addr) as [Hge|Hlt].
  { rewrite <- (first_in_eq p addr (sz u) None); [done|]. intros i ?. lia. }
  assert (wp (loop (S (Z.to_nat (sz u - addr))) (fetchstr_step addr) addr) (λ r s', s' = u ∧ r = (λ j, j - addr) <$> first_in p addr (sz u)) u) as Hw.
  { apply (wp_loop _ (λ s s', s' = u ∧ addr ≤ s ≤ sz u ∧ ∀ i, addr ≤ i < s → p i = false) (λ s, Z.to_nat (sz u - s))); [|lia|].
    { split_and!; [done|lia|lia|]. intros; lia. }
    intros s u' (-> & Hs & Hno). unfold fetchstr_step, wp. erewrite bind_ok by reflexivity.
    destruct (Z.ltb_spec s (sz u)) as [Hs1|Hs1]; cbn [negb].
    - rewrite (bind_ok _ _ _ _ _ (load_uint_ok 1 s u ltac:(apply in_range_iff; cbn; lia))). cbn [the_mem uproc_mem].
      fold (p s). destruct (p s) eqn:Hp.
      + cbn. split; [done|]. rewrite <- (first_in_eq p addr (sz u) (Some s)); [done|]. split_and!; [lia|lia|done|done].
      + cbn. split; [|lia]. split_and!; [done|lia|lia|]. intros i Hi. destruct (decide (i = s)) as [->|]; [done|]. apply Hno. lia.
    - cbn. split; [done|]. rewrite <- (first_in_eq p addr (sz u) None); [done|]. intros i Hi. apply Hno. lia. }
  apply wp_ok in Hw as (r & s' & E & -> & ->). exact E.
Qed.

Lemma sint_u32 a : u32 (sint_at (umem u) a 4) = uint_at (umem u) a 4.
Proof.
  unfold sint_at. change (8 * Z.of_nat 4) with 32. unfold u32. rewrite wrapu_wraps by lia. apply wrapu_small.
  apply (uint_at_range (umem u) a 4).
Qed.

End Fetch.

(** [argptr] answers with the pointer exactly when the argument, and the [size]
    bytes it points to, lie within the memory of the process; the kernel reads
    nothing outside of it. *)
Theorem argptr_in_bounds u n size : user_ok u → - 2 ^ 31 ≤ size < 2 ^ 31 →
  let p := uint_at (umem u) (arg_addr u n) 4 in
  argptr n size u = Ok (if decide (arg_addr u n + 4 ≤ sz u ∧ 0 ≤ size ∧ p < sz u ∧ p + size ≤ sz u) then Some p else None) u.
Proof.
  intros Hu Hsize p. pose proof Hu as []. unfold KERNBASE in *. unfold argptr. rewrite (bind_ok _ _ _ _ _ (argint_ok u Hu n)). unfold int_at.
  assert (0 ≤ arg_addr u n) by (apply (wrapu_range 32); lia).
  destruct (decide (0 ≤ arg_addr u n ∧ arg_addr u n + 4 ≤ sz u)) as [Ha|Ha]; [|by rewrite decide_False by lia].
  erewrite bind_ok by reflexivity. rewrite sint_u32. fold p. pose proof (uint_at_range (umem u) (arg_addr u n) 4) as Hp. fold p in Hp. change (8 * Z.of_nat 4) with 32 in Hp.
  destruct (Z.ltb_spec size 0); cbn [orb]; [by rewrite decide_False by lia|].
  destruct (Z.leb_spec (sz u) p); cbn [orb]; [by rewrite decide_False by lia|].
  rewrite u32_small by lia. destruct (Z.ltb_spec (sz u) (p + size)); [by rewrite decide_False by lia|].
  by rewrite decide_True by lia.
Qed.

(** [argstr] answers with a string that ends within the memory of the process,
    or refuses. *)
Theorem argstr_in_bounds u n : user_ok u →
  let p := uint_at (umem u) (arg_addr u n) 4 in
  ∃ r, argstr n u = Ok r u ∧ match r with
    | Some (q, len) => arg_addr u n + 4 ≤ sz u ∧ q = p ∧ 0 ≤ len ∧ p + len < sz u ∧
        uint_at (umem u) (p + len) 1 = 0 ∧ ∀ i, 0 ≤ i < len → uint_at (umem u) (p + i) 1 ≠ 0
    | None => sz u < arg_addr u n + 4 ∨ ∀ a, p ≤ a < sz u → uint_at (umem u) a 1 ≠ 0
    end.
Proof.
  intros Hu p. unfold argstr. rewrite (bind_ok _ _ _ _ _ (argint_ok u Hu n)). unfold int_at.
  assert (0 ≤ arg_addr u n) by (apply (wrapu_range 32); lia).
  destruct (decide (0 ≤ arg_addr u n ∧ arg_addr u n + 4 ≤ sz u)) as [Ha|Ha]; [|exists None; split; [done|left; lia]].
  rewrite sint_u32. fold p. pose proof (uint_at_range (umem u) (arg_addr u n) 4) as Hp. fold p in Hp.
  rewrite (bind_ok _ _ _ _ _ (fetchstr_ok u Hu p ltac:(lia))). eexists. split; [done|]. unfold string_len.
  pose proof (first_in_spec (λ a, uint_at (umem u) a 1 =? 0) p (sz u)) as Hf.
  clearbody p. destruct (first_in _ _ _) as [j|]; cbn [fmap option_fmap option_map].
  - destruct Hf as (Hj & H0 & Hno). apply Z.eqb_eq in H0. replace (p + (j - p)) with j by lia.
    split; [lia|]. split; [done|]. split; [lia|]. split; [lia|]. split; [done|]. intros i Hi. apply Z.eqb_neq. apply Hno. lia.
  - right. intros a Ha'. apply Z.eqb_neq. by apply Hf.
Qed.

(** ** A process with one argument *)

Definition bytes0 : list byte := replicate 16 x00 ++ [x08; x00; x00; x00].
Definition user0 : uproc := U (mwrite (Mem 64 (λ _, x00)) 0 bytes0) 64 12 0 [] false.

Lemma user0_ok : user_ok user0.
Proof. split; vm_compute; split_and?; congruence. Qed.

Lemma argptr_in_bounds_witness : argptr 0 56 user0 = Ok (Some 8) user0 ∧ argptr 0 57 user0 = Ok None user0.
Proof.
  pose proof (argptr_in_bounds user0 0 56 user0_ok ltac:(lia)) as H1. pose proof (argptr_in_bounds user0 0 57 user0_ok ltac:(lia)) as H2.
  cbv zeta in H1, H2. assert (uint_at (umem user0) (arg_addr user0 0) 4 = 8) as E by by vm_compute.
  assert (arg_addr user0 0 = 16) as Ea by by vm_compute. rewrite E, Ea in H1, H2. change (sz user0) with 64 in *.
  rewrite decide_True in H1 by lia. rewrite decide_False in H2 by lia. by split.
Defined.

Lemma argstr_in_bounds_witness : ∃ r, argstr 0 user0 = Ok r user0 ∧ r = Some (8, 0).
Proof.
  destruct (argstr_in_bounds user0 0 user0_ok) as (r & E & H). exists r. split; [exact E|].
  assert (argstr 0 user0 = Ok (Some (8, 0)) user0) as E' by by vm_compute. rewrite E in E'. by injection E' as ->.
Defined.

End Syscall.
