(* ===== verification/File.v ===== *)
(** File: the table of open files (p4/xv6-public/file.c) and the pipes in it
    ([pipealloc] and [pipeclose] of pipe.c), on the inode layer and the log. *)
From S2P Require Import Prelude Memory Bio Log Fsys Pipe.
From stdpp Require Import gmap.
Local Open Scope Z_scope.

Module File.
Import Log Fsys.

Definition NFILE : Z := 100.

(** [struct file]; pipes are named by the address of their page, inodes by their
    index in the inode cache. *)
Inductive ftype := FD_NONE | FD_PIPE | FD_INODE.
Record file := Fl {
  f_type : ftype; f_ref : Z; f_readable : bool; f_writable : bool; f_pipe : Z; f_ip : nat; f_off : Z
}.

(** The kernel: the file system, the file table, the free pages (with what is in
    them) and the pipes. *)
Record kernel := K {
  kfs : fsys; ftable : list file; free_pages : list (Z * list byte); pipes : gmap Z Pipe.pipe
}.

Definition on_fs {A} (f : ST fsys A) : ST kernel A := λ k,
  match f (kfs k) with Ok a s => Ok a (K s (ftable k) (free_pages k) (pipes k)) | Fault => Fault end.
Definition get_file (f : nat) : ST kernel file := λ k, of_opt (ftable k !! f) k.
Definition put_file (f : nat) (x : file) : ST kernel unit :=
  modify (λ k, K (kfs k) (<[f := x]> (ftable k)) (free_pages k) (pipes k)).
Definition get_pipe (p : Z) : ST kernel Pipe.pipe := λ k, of_opt (pipes k !! p) k.
Definition put_pipe (p : Z) (x : Pipe.pipe) : ST kernel unit :=
  modify (λ k, K (kfs k) (ftable k) (free_pages k) (<[p := x]> (pipes k))).

Definition set_f_ref (n : Z) (x : file) : file :=
  Fl (f_type x) n (f_readable x) (f_writable x) (f_pipe x) (f_ip x) (f_off x).
Definition set_f_off (o : Z) (x : file) : file :=
  Fl (f_type x) (f_ref x) (f_readable x) (f_writable x) (f_pipe x) (f_ip x) o.

Section File.
Context (me : Z) `{Devices}.

(** A process that would have to wait in [begin_op] faults: no other one runs. *)
Definition begin_op : ST kernel unit :=
  let! ok := on_fs (on_base begin_op_turn) in if ok then ret tt else fault.
Definition end_op : ST kernel unit := on_fs (on_base (end_op me)).

(** ** Pages *)
Definition kalloc : ST kernel (option (Z * list byte)) := λ k,
  match free_pages k with
  | [] => Ok None k
  | p :: l => Ok (Some p) (K (kfs k) (ftable k) l (pipes k))
  end.
Definition kfree (p : Z) (junk : list byte) : ST kernel unit :=
  modify (λ k, K (kfs k) (ftable k) ((p, junk) :: free_pages k) (delete p (pipes k))).

(** [pipeclose]; nobody sleeps, so there is nobody to wake. *)
Definition pipeclose (p : Z) (writable : bool) : ST kernel unit :=
  let! x := get_pipe p in
  let '(x, _, free) := Pipe.pipeclose x writable in
  if (free : bool) then kfree p (Pipe.data x) else put_pipe p x.

(** ** The file table *)

Definition filealloc : ST kernel (option nat) :=
  let! ft := gets ftable in
  match list_find (λ x, f_ref x = 0) ft with
  | Some (f, x) => do! put_file f (set_f_ref 1 x) in ret (Some f)
  | None => ret None
  end.

Definition filedup (f : nat) : ST kernel nat :=
  let! x := get_file f in
  if f_ref x <? 1 then fault else
  do! put_file f (set_f_ref (f_ref x + 1) x) in ret f.

Definition fileclose (f : nat) : ST kernel unit :=
  let! ff := get_file f in
  if f_ref ff <? 1 then fault else
  if 0 <? f_ref ff - 1 then put_file f (set_f_ref (f_ref ff - 1) ff) else
  do! put_file f (Fl FD_NONE 0 (f_readable ff) (f_writable ff) (f_pipe ff) (f_ip ff) (f_off ff)) in
  match f_type ff with
  | FD_PIPE => pipeclose (f_pipe ff) (f_writable ff)
  | FD_INODE =>
      do! begin_op in
      do! on_fs (iput me (f_ip ff)) in
      end_op
  | FD_NONE => ret tt
  end.

Definition filestat (f : nat) : ST kernel (option stat) :=
  let! x := get_file f in
  match f_type x with
  | FD_INODE =>
      do! on_fs (ilock me (f_ip x)) in
      let! st := on_fs (stati (f_ip x)) in
      do! on_fs (iunlock me (f_ip x)) in
      ret (Some st)
  | _ => ret None
  end.

(** [int fileread(struct file *f, char *addr, int n)]: the result and the bytes
    stored at [addr].  A process that would sleep in a pipe faults. *)
Definition piperead (killed : bool) (p n : Z) : ST kernel (Z * list byte) :=
  let! x := get_pipe p in
  let '(x, bs, o, _) := Pipe.piperead killed n x in
  match o with
  | Pipe.Return r => do! put_pipe p x in ret (r, bs)
  | Pipe.Sleep _ => fault
  end.
Definition fileread (killed : bool) (f : nat) (n : Z) : ST kernel (Z * list byte) :=
  let! x := get_file f in
  if negb (f_readable x) then ret (-1, []) else
  match f_type x with
  | FD_PIPE => piperead killed (f_pipe x) n
  | FD_INODE =>
      do! on_fs (ilock me (f_ip x)) in
      let! (r, bs) := on_fs (readi me (f_ip x) (f_off x) (u32 n)) in
      do! (if 0 <? r then put_file f (set_f_off (u32 (f_off x + r)) x) else ret tt) in
      do! on_fs (iunlock me (f_ip x)) in
      ret (r, bs)
  | FD_NONE => fault
  end.

Definition pipewrite (killed : bool) (p : Z) (src : list byte) : ST kernel Z :=
  let! x := get_pipe p in
  let '(x, _, o, _) := Pipe.pipewrite killed (Z.of_nat (length src)) x src in
  match o with
  | Pipe.Return r => do! put_pipe p x in ret r
  | Pipe.Sleep _ => fault
  end.

(** The number of bytes that one transaction of [filewrite] writes at most. *)
Definition max_write : Z := (MAXOPBLOCKS - 1 - 1 - 2) / 2 * 512.

(** One turn of the loop of [filewrite], with [i] bytes written. *)
Definition filewrite_step (f : nat) (src : list byte) (i : Z) : ST kernel (Z + Z) :=
  let n := Z.of_nat (length src) in
  if negb (i <? n) then ret (inr i) else
  let n1 := if max_write <? n - i then max_write else n - i in
  do! begin_op in
  let! x := get_file f in
  do! on_fs (ilock me (f_ip x)) in
  let! r := on_fs (writei me (f_ip x) (take (Z.to_nat n1) (drop (Z.to_nat i) src)) (f_off x)) in
  do! (if 0 <? r then put_file f (set_f_off (u32 (f_off x + r)) x) else ret tt) in
  do! on_fs (iunlock me (f_ip x)) in
  do! end_op in
  if r <? 0 then ret (inr i) else
  if negb (r =? n1) then fault else ret (inl (i + r)).
(** [int filewrite(struct file *f, char *addr, int n)]; [src] has [n] bytes. *)
Definition filewrite (killed : bool) (f : nat) (src : list byte) : ST kernel Z :=
  let n := Z.of_nat (length src) in
  let! x := get_file f in
  if negb (f_writable x) then ret (-1) else
  match f_type x with
  | FD_PIPE => pipewrite killed (f_pipe x) src
  | FD_INODE =>
      let! i := loop (S (length src)) (filewrite_step f src) 0 in
      ret (if i =? n then n else -1)
  | FD_NONE => fault
  end.

(** [int pipealloc(struct file **f0, struct file **f1)]: the two files. *)
Definition set_pipe_file (f : nat) (p : Z) (readable : bool) : ST kernel unit :=
  let! x := get_file f in
  put_file f (Fl FD_PIPE (f_ref x) readable (negb readable) p (f_ip x) (f_off x)).
Definition pipealloc : ST kernel (option (nat * nat)) :=
  let! f0 := filealloc in
  match f0 with
  | None => ret None
  | Some f0 =>
      let! f1 := filealloc in
      match f1 with
      | None => do! fileclose f0 in ret None
      | Some f1 =>
          let! p := kalloc in
          match p with
          | None => do! fileclose f0 in do! fileclose f1 in ret None
          | Some (p, page) =>
              do! put_pipe p (Pipe.pipealloc page) in
              do! set_pipe_file f0 p true in
              do! set_pipe_file f1 p false in
              ret (Some (f0, f1))
          end
      end
  end.

End File.
End File.
