(* ===== verification/Sysfile.v ===== *)
(** Sysfile: the system calls on files (p4/xv6-public/sysfile.c): descriptors,
    directory entries, opening and creating. *)
From Stdlib Require Import Strings.Byte.
From S2P Require Import Prelude Memory Bio Log Fsys Pipe Syscall File.
From stdpp Require Import gmap.
Local Open Scope Z_scope.

Module Sysfile.
Import Log Fsys Syscall File.

Definition NOFILE : Z := 16.
Definition MAXARG : Z := 32.
Definition T_FILE : Z := 2.
Definition O_RDONLY : Z := 0x000.
Definition O_WRONLY : Z := 0x001.
Definition O_RDWR : Z := 0x002.
Definition O_CREATE : Z := 0x200.

(** The kernel and the calling process. *)
Record state := St { kern : kernel; user : uproc }.
Definition on_kern {A} (f : ST kernel A) : ST state A := λ s,
  match f (kern s) with Ok a k => Ok a (St k (user s)) | Fault => Fault end.
Definition on_user {A} (f : ST uproc A) : ST state A := λ s,
  match f (user s) with Ok a u => Ok a (St (kern s) u) | Fault => Fault end.
Definition fs {A} (f : ST fsys A) : ST state A := on_kern (on_fs f).

Definition set_ofile (fd : nat) (f : option nat) : ST state unit :=
  modify (λ s, let u := user s in St (kern s) (U (umem u) (sz u) (esp u) (cwd u) (<[fd := f]> (ofile u)) (killed u))).
Definition set_cwd (ip : nat) : ST state unit :=
  modify (λ s, let u := user s in St (kern s) (U (umem u) (sz u) (esp u) ip (ofile u) (killed u))).

(** A string argument: its characters. *)
Definition arg_string (n : Z) : ST state (option (list byte)) :=
  let! r := on_user (argstr n) in
  match r with
  | None => ret None
  | Some (p, len) => let! bs := on_user (load_bytes p (Z.to_nat len)) in ret (Some bs)
  end.

Definition set_i_nlink (n : Z) (x : inode) : inode :=
  Inode (i_dev x) (i_inum x) (i_ref x) (i_locked x) (i_pid x) (i_valid x) (i_type x) (i_major x) (i_minor x) n (i_size x) (i_addrs x).
Definition set_i_devnums (major minor : Z) (x : inode) : inode :=
  Inode (i_dev x) (i_inum x) (i_ref x) (i_locked x) (i_pid x) (i_valid x) (i_type x) (wraps 16 major) (wraps 16 minor) 1 (i_size x) (i_addrs x).
Definition change_inode (ip : nat) (f : inode → inode) : ST fsys unit :=
  let! x := get_inode ip in put_inode ip (f x).
(** [ip->nlink += d] and [iupdate(ip)] *)
Definition change_nlink (me : Z) (ip : nat) (d : Z) : ST fsys unit :=
  do! change_inode ip (λ x, set_i_nlink (wraps 16 (i_nlink x + d)) x) in iupdate me ip.

Definition DOT : list byte := [x2e].
Definition DOTDOT : list byte := [x2e; x2e].

Section Sysfile.
Context (me : Z) `{Devices}.

(** ** Descriptors *)

(** [argfd]: the descriptor and the file. *)
Definition argfd (n : Z) : ST state (option (Z * nat)) :=
  let! fd := on_user (argint n) in
  match fd with
  | None => ret None
  | Some fd =>
      if (fd <? 0) || (NOFILE <=? fd) then ret None else
      let! fds := gets (λ s, ofile (user s)) in
      let! f := of_opt (fds !! Z.to_nat fd) in
      match f with None => ret None | Some f => ret (Some (fd, f)) end
  end.

Definition fdalloc (f : nat) : ST state (option nat) :=
  let! fds := gets (λ s, ofile (user s)) in
  match list_find (λ x, x = None) fds with
  | Some (fd, _) => do! set_ofile fd (Some f) in ret (Some fd)
  | None => ret None
  end.

Definition sys_dup : ST state Z :=
  let! r := argfd 0 in
  match r with
  | None => ret (-1)
  | Some (_, f) =>
      let! fd := fdalloc f in
      match fd with
      | None => ret (-1)
      | Some fd => do! on_kern (filedup f) in ret (Z.of_nat fd)
      end
  end.

(** The arguments of [read] and [write]: file, buffer and length. *)
Definition rw_args : ST state (option (nat * Z * Z)) :=
  let! r := argfd 0 in
  match r with
  | None => ret None
  | Some (_, f) =>
      let! n := on_user (argint 2) in
      match n with
      | None => ret None
      | Some n =>
          let! p := on_user (argptr 1 n) in
          match p with None => ret None | Some p => ret (Some (f, p, n)) end
      end
  end.
Definition sys_read : ST state Z :=
  let! a := rw_args in
  match a with
  | None => ret (-1)
  | Some (f, p, n) =>
      let! u := gets user in
      let! (r, bs) := on_kern (fileread me (killed u) f n) in
      do! on_user (store_bytes p bs) in ret r
  end.
Definition sys_write : ST state Z :=
  let! a := rw_args in
  match a with
  | None => ret (-1)
  | Some (f, p, n) =>
      let! u := gets user in
      let! bs := on_user (load_bytes p (Z.to_nat n)) in
      on_kern (filewrite me (killed u) f bs)
  end.

Definition sys_close : ST state Z :=
  let! r := argfd 0 in
  match r with
  | None => ret (-1)
  | Some (fd, f) =>
      do! set_ofile (Z.to_nat fd) None in
      do! on_kern (fileclose me f) in ret 0
  end.

Definition sizeof_stat : Z := 20.
Definition store_stat (p : Z) (st : stat) : ST uproc unit :=
  do! store_int 2 p (st_type st) in
  do! store_int 4 (p + 4) (st_dev st) in
  do! store_int 4 (p + 8) (st_ino st) in
  do! store_int 2 (p + 12) (st_nlink st) in
  store_int 4 (p + 16) (st_size st).
Definition sys_fstat : ST state Z :=
  let! r := argfd 0 in
  match r with
  | None => ret (-1)
  | Some (_, f) =>
      let! p := on_user (argptr 1 sizeof_stat) in
      match p with
      | None => ret (-1)
      | Some p =>
          let! st := on_kern (filestat me f) in
          match st with
          | None => ret (-1)
          | Some st => do! on_user (store_stat p st) in ret 0
          end
      end
  end.

(** ** Links *)

(** The end of a call that fails. *)
Definition fail : ST state Z := do! on_kern (end_op me) in ret (-1).

Definition namei_user (path : list byte) : ST state (option nat) :=
  let! u := gets user in fs (namei me (cwd u) path).
Definition nameiparent_user (path : list byte) : ST state (option (nat * list byte)) :=
  let! u := gets user in fs (nameiparent me (cwd u) path).

(** The label [bad] of [sys_link]. *)
Definition link_bad (ip : nat) : ST state Z :=
  do! fs (ilock me ip) in
  do! fs (change_nlink me ip (-1)) in
  do! fs (iunlockput me ip) in
  fail.
Definition sys_link : ST state Z :=
  let! old := arg_string 0 in
  match old with None => ret (-1) | Some old =>
  let! new := arg_string 1 in
  match new with None => ret (-1) | Some new =>
  do! on_kern begin_op in
  let! ip := namei_user old in
  match ip with None => fail | Some ip =>
  do! fs (ilock me ip) in
  let! x := fs (get_inode ip) in
  if i_type x =? T_DIR then do! fs (iunlockput me ip) in fail else
  do! fs (change_nlink me ip 1) in
  do! fs (iunlock me ip) in
  let! d := nameiparent_user new in
  match d with None => link_bad ip | Some (dp, name) =>
  do! fs (ilock me dp) in
  let! d := fs (get_inode dp) in
  let! x := fs (get_inode ip) in
  let! bad := (if negb (i_dev d =? i_dev x) then ret true
               else let! r := fs (dirlink me dp name (i_inum x)) in ret (r <? 0)) in
  if (bad : bool) then do! fs (iunlockput me dp) in link_bad ip else
  do! fs (iunlockput me dp) in
  do! fs (iput me ip) in
  do! on_kern (end_op me) in
  ret 0
  end end end end.

(** [static int isdirempty(struct inode *dp)] *)
Definition isdirempty_step (dp : nat) (off : Z) : ST fsys (Z + bool) :=
  let! x := get_inode dp in
  if negb (off <? i_size x) then ret (inr true) else
  let! (r, de) := readi me dp off sizeof_dirent in
  if negb (r =? sizeof_dirent) then fault else
  if negb (le_decode (take 2 de) =? 0) then ret (inr false) else ret (inl (off + sizeof_dirent)).
Definition isdirempty (dp : nat) : ST fsys bool :=
  let! x := get_inode dp in
  loop (S (Z.to_nat (i_size x / sizeof_dirent))) (isdirempty_step dp) (2 * sizeof_dirent).

(** The label [bad] of [sys_unlink]. *)
Definition unlink_bad (dp : nat) : ST state Z := do! fs (iunlockput me dp) in fail.
Definition sys_unlink : ST state Z :=
  let! path := arg_string 0 in
  match path with None => ret (-1) | Some path =>
  do! on_kern begin_op in
  let! d := nameiparent_user path in
  match d with None => fail | Some (dp, name) =>
  do! fs (ilock me dp) in
  if (namecmp name DOT =? 0) || (namecmp name DOTDOT =? 0) then unlink_bad dp else
  let! r := fs (dirlookup me dp name) in
  match r with None => unlink_bad dp | Some (ip, off) =>
  do! fs (ilock me ip) in
  let! x := fs (get_inode ip) in
  if i_nlink x <? 1 then fault else
  let! busy := (if i_type x =? T_DIR then let! e := fs (isdirempty ip) in ret (negb e) else ret false) in
  if (busy : bool) then do! fs (iunlockput me ip) in unlink_bad dp else
  let! r := fs (writei me dp (replicate (Z.to_nat sizeof_dirent) x00) off) in
  if negb (r =? sizeof_dirent) then fault else
  do! (if i_type x =? T_DIR then fs (change_nlink me dp (-1)) else ret tt) in
  do! fs (iunlockput me dp) in
  do! fs (change_nlink me ip (-1)) in
  do! fs (iunlockput me ip) in
  do! on_kern (end_op me) in
  ret 0
  end end end.

(** ** Creating and opening *)

Definition create (path : list byte) (type major minor : Z) : ST state (option nat) :=
  let! d := nameiparent_user path in
  match d with None => ret None | Some (dp, name) =>
  fs (
  do! ilock me dp in
  let! r := dirlookup me dp name in
  match r with
  | Some (ip, _) =>
      do! iunlockput me dp in
      do! ilock me ip in
      let! x := get_inode ip in
      if (type =? T_FILE) && (i_type x =? T_FILE) then ret (Some ip) else
      do! iunlockput me ip in ret None
  | None =>
      let! d := get_inode dp in
      let! ip := ialloc me (i_dev d) type in
      do! ilock me ip in
      do! change_inode ip (set_i_devnums major minor) in
      do! iupdate me ip in
      let! x := get_inode ip in
      do! (if type =? T_DIR then
             do! change_nlink me dp 1 in
             let! r := dirlink me ip DOT (i_inum x) in
             if r <? 0 then fault else
             let! d := get_inode dp in
             let! r := dirlink me ip DOTDOT (i_inum d) in
             if r <? 0 then fault else ret tt
           else ret tt) in
      let! r := dirlink me dp name (i_inum x) in
      if r <? 0 then fault else
      do! iunlockput me dp in
      ret (Some ip)
  end)
  end.

(** The inode that [sys_open] opens, locked; else the call has ended the
    transaction and answers -1. *)
Definition open_inode (path : list byte) (omode : Z) : ST state (option nat) :=
  if negb (Z.land omode O_CREATE =? 0) then
    let! ip := create path T_FILE 0 0 in
    match ip with
    | None => do! on_kern (end_op me) in ret None
    | Some ip => ret (Some ip)
    end
  else
    let! ip := namei_user path in
    match ip with
    | None => do! on_kern (end_op me) in ret None
    | Some ip =>
        do! fs (ilock me ip) in
        let! x := fs (get_inode ip) in
        if (i_type x =? T_DIR) && negb (omode =? O_RDONLY) then
          do! fs (iunlockput me ip) in do! on_kern (end_op me) in ret None
        else ret (Some ip)
    end.
Definition open_fail (ip : nat) : ST state Z := do! fs (iunlockput me ip) in fail.
Definition sys_open : ST state Z :=
  let! path := arg_string 0 in
  match path with None => ret (-1) | Some path =>
  let! omode := on_user (argint 1) in
  match omode with None => ret (-1) | Some omode =>
  do! on_kern begin_op in
  let! ip := open_inode path omode in
  match ip with None => ret (-1) | Some ip =>
  let! f := on_kern filealloc in
  match f with None => open_fail ip | Some f =>
  let! fd := fdalloc f in
  match fd with
  | None => do! on_kern (fileclose me f) in open_fail ip
  | Some fd =>
      do! fs (iunlock me ip) in
      do! on_kern (end_op me) in
      do! on_kern (
        let! x := get_file f in
        put_file f (Fl FD_INODE (f_ref x) (Z.land omode O_WRONLY =? 0)
                       (negb (Z.land omode O_WRONLY =? 0) || negb (Z.land omode O_RDWR =? 0)) (f_pipe x) ip 0)) in
      ret (Z.of_nat fd)
  end end end end end.

Definition sys_mkdir : ST state Z :=
  do! on_kern begin_op in
  let! path := arg_string 0 in
  match path with None => fail | Some path =>
  let! ip := create path T_DIR 0 0 in
  match ip with None => fail | Some ip =>
  do! fs (iunlockput me ip) in
  do! on_kern (end_op me) in
  ret 0
  end end.

Definition sys_mknod : ST state Z :=
  do! on_kern begin_op in
  let! path := arg_string 0 in
  match path with None => fail | Some path =>
  let! major := on_user (argint 1) in
  match major with None => fail | Some major =>
  let! minor := on_user (argint 2) in
  match minor with None => fail | Some minor =>
  let! ip := create path T_DEV (wraps 16 major) (wraps 16 minor) in
  match ip with None => fail | Some ip =>
  do! fs (iunlockput me ip) in
  do! on_kern (end_op me) in
  ret 0
  end end end end.

Definition sys_chdir : ST state Z :=
  do! on_kern begin_op in
  let! path := arg_string 0 in
  match path with None => fail | Some path =>
  let! ip := namei_user path in
  match ip with None => fail | Some ip =>
  do! fs (ilock me ip) in
  let! x := fs (get_inode ip) in
  if negb (i_type x =? T_DIR) then do! fs (iunlockput me ip) in fail else
  do! fs (iunlock me ip) in
  let! u := gets user in
  do! fs (iput me (cwd u)) in
  do! on_kern (end_op me) in
  do! set_cwd ip in
  ret 0
  end end.

(** [sys_exec] up to the call of [exec]: the path and the arguments, as strings
    of the caller. *)
Definition exec_args_step (uargv : Z) (l : Z * list (list byte)) :
    ST state ((Z * list (list byte)) + option (list (list byte))) :=
  let (i, argv) := l in
  if MAXARG <=? i then ret (inr None) else
  let! uarg := on_user (fetchint (u32 (uargv + 4 * i))) in
  match uarg with
  | None => ret (inr None)
  | Some uarg =>
      if uarg =? 0 then ret (inr (Some argv)) else
      let! len := on_user (fetchstr (u32 uarg)) in
      match len with
      | None => ret (inr None)
      | Some len =>
          let! bs := on_user (load_bytes (u32 uarg) (Z.to_nat len)) in
          ret (inl (i + 1, argv ++ [bs]))
      end
  end.
Definition sys_exec_args : ST state (option (list byte * list (list byte))) :=
  let! path := arg_string 0 in
  match path with None => ret None | Some path =>
  let! uargv := on_user (argint 1) in
  match uargv with None => ret None | Some uargv =>
  let! argv := loop (S (Z.to_nat MAXARG)) (exec_args_step (u32 uargv)) (0, []) in
  ret ((λ a, (path, a)) <$> argv)
  end end.

Definition sys_pipe : ST state Z :=
  let! fd := on_user (argptr 0 8) in
  match fd with None => ret (-1) | Some fd =>
  let! r := on_kern (pipealloc me) in
  match r with None => ret (-1) | Some (rf, wf) =>
  let! fd0 := fdalloc rf in
  match fd0 with
  | None => do! on_kern (fileclose me rf) in do! on_kern (fileclose me wf) in ret (-1)
  | Some fd0 =>
      let! fd1 := fdalloc wf in
      match fd1 with
      | None =>
          do! set_ofile fd0 None in
          do! on_kern (fileclose me rf) in do! on_kern (fileclose me wf) in ret (-1)
      | Some fd1 =>
          do! on_user (store_int 4 fd (Z.of_nat fd0)) in
          do! on_user (store_int 4 (fd + 4) (Z.of_nat fd1)) in
          ret 0
      end
  end end end.

End Sysfile.
End Sysfile.
