(* ===== verification/SysfileInv.v ===== *)
(** SysfileInv: the file table and the descriptors: every system call on files
    keeps the reference count of each open file equal to the number of
    descriptors for it. *)
From S2P Require Import Prelude Memory Bio Log Fsys Pipe Syscall File Sysfile.
From stdpp Require Import gmap.
Local Open Scope Z_scope.

Module SysfileInv.
Import Log Fsys Syscall File Sysfile.

(** The reference counts of the file table. *)
Definition frefs (k : kernel) : list Z := f_ref <$> ftable k.
Definition fdview (s : state) : list Z * list (option nat) := (frefs (kern s), ofile (user s)).

Definition is_fd (f : nat) (o : option nat) : bool := bool_decide (o = Some f).

(** The count of each file is the number of descriptors of this process for it
    plus [E]: the descriptors of other processes, and the references that a call
    in progress holds. *)
Definition counted (E : nat → Z) (s : state) : Prop :=
  ∀ f n, frefs (kern s) !! f = Some n → n = E f + count (is_fd f) (ofile (user s)).
Definition plus (E : nat → Z) (f : nat) (d : Z) : nat → Z := λ g, if decide (g = f) then E g + d else E g.

Lemma counted_view E s s' : fdview s' = fdview s → counted E s → counted E s'.
Proof. intros [= E1 E2] H f n. rewrite E1, E2. apply H. Qed.

Lemma counted_ext E E' s : (∀ f, E f = E' f) → counted E s → counted E' s.
Proof. intros HE H f n Hn. rewrite <- HE. by apply H. Qed.

Lemma counted_plus_minus E f d s : counted (plus (plus E f d) f (- d)) s → counted E s.
Proof. apply counted_ext. intros g. unfold plus. case_decide; lia. Qed.

(** * What leaves the counts alone *)

Lemma on_fs_ftable {A} (f : ST fsys A) : preserves ftable (on_fs f).
Proof. intros k a k'. unfold on_fs. destruct (f (kfs k)); [|done]. by intros [= <- <-]. Qed.
Lemma on_fs_frefs {A} (f : ST fsys A) : preserves frefs (on_fs f).
Proof. intros k a k' E%on_fs_ftable. unfold frefs. by rewrite E. Qed.

Lemma on_kern_view {A} (m : ST kernel A) : preserves frefs m → preserves fdview (on_kern m).
Proof.
  intros Hm s a s'. unfold on_kern. destruct (m (kern s)) as [b k|] eqn:E; [|done]. intros [= <- <-]. unfold fdview. cbn.
  by rewrite (Hm _ _ _ E).
Qed.
Lemma on_user_view {A} (m : ST uproc A) : preserves ofile m → preserves fdview (on_user m).
Proof.
  intros Hm s a s'. unfold on_user. destruct (m (user s)) as [b u|] eqn:E; [|done]. intros [= <- <-]. unfold fdview. cbn.
  by rewrite (Hm _ _ _ E).
Qed.
Lemma fs_view {A} (m : ST fsys A) : preserves fdview (fs m).
Proof. apply on_kern_view, on_fs_frefs. Qed.

Section Calls.
Context (me : Z) `{Devices}.

Lemma begin_op_ftable : preserves ftable begin_op.
Proof. apply preserves_bind; [apply on_fs_ftable|]. intros []; eauto with preserves. Qed.
Lemma begin_op_frefs : preserves frefs begin_op.
Proof. intros k a k' E%begin_op_ftable. unfold frefs. by rewrite E. Qed.
Lemma end_op_frefs : preserves frefs (end_op me).
Proof. apply on_fs_frefs. Qed.

Lemma get_file_inv f k x k' : get_file f k = Ok x k' → k' = k ∧ ftable k !! f = Some x.
Proof. unfold get_file. destruct (ftable k !! f); [|done]. by intros [= <- <-]. Qed.

(** Storing a file with the same count. *)
Lemma put_file_same k k1 f x y : ftable k !! f = Some x → ftable k1 = ftable k → f_ref y = f_ref x →
  ∀ k', put_file f y k1 = Ok tt k' → frefs k' = frefs k.
Proof.
  intros Hx E1 Hy k' [= <-]. unfold frefs. cbn. rewrite E1, list_fmap_insert. apply list_insert_id.
  by rewrite list_lookup_fmap, Hx, Hy.
Qed.

Lemma put_pipe_frefs p x : preserves frefs (put_pipe p x).
Proof. by apply preserves_modify. Qed.
Lemma get_pipe_frefs p : preserves frefs (get_pipe p).
Proof. intros k a k'. unfold get_pipe. destruct (pipes k !! p); [|done]. by intros [= <- <-]. Qed.
Lemma get_file_frefs f : preserves frefs (get_file f).
Proof. by intros k a k' [-> _]%get_file_inv. Qed.
#[local] Hint Resolve begin_op_frefs end_op_frefs on_fs_frefs put_pipe_frefs get_pipe_frefs get_file_frefs : preserves.

Lemma pipeclose_frefs p w : preserves frefs (pipeclose p w).
Proof.
  unfold pipeclose. apply preserves_bind; [eauto with preserves|]. intros x. destruct (Pipe.pipeclose x w) as [[x' cs] []]; [|eauto with preserves].
  by apply preserves_modify.
Qed.
Lemma piperead_frefs kl p n : preserves frefs (piperead kl p n).
Proof.
  unfold piperead. apply preserves_bind; [eauto with preserves|]. intros x.
  destruct (Pipe.piperead kl n x) as [[[x' bs] [r|c]] cs]; [|eauto with preserves]. apply preserves_bind; eauto with preserves.
Qed.
Lemma pipewrite_frefs kl p src : preserves frefs (pipewrite kl p src).
Proof.
  unfold pipewrite. apply preserves_bind; [eauto with preserves|]. intros x.
  destruct (Pipe.pipewrite kl _ x src) as [[[x' bs] [r|c]] cs]; [|eauto with preserves]. apply preserves_bind; eauto with preserves.
Qed.

Lemma filestat_frefs f : preserves frefs (filestat me f).
Proof. unfold filestat. preserves. Qed.

(** Moving the offset of a file after operations on its inode. *)
Lemma advance_frefs k k1 k2 f x (r : Z) : ftable k !! f = Some x → ftable k1 = ftable k →
  (if 0 <? r then put_file f (set_f_off (u32 (f_off x + r)) x) else ret tt) k1 = Ok tt k2 → frefs k2 = frefs k.
Proof.
  intros Hx E1. destruct (0 <? r); [by eapply put_file_same|]. intros [= <-]. unfold frefs. by rewrite E1.
Qed.

Lemma fileread_frefs kl f n : preserves frefs (fileread me kl f n).
Proof.
  intros k a k'. unfold fileread. intros (x & k1 & [-> Hx]%get_file_inv & E)%bind_inv.
  destruct (negb _); [by injection E as _ <-|]. destruct (f_type x); [done|by eapply piperead_frefs|].
  apply bind_inv in E as ([] & k1 & E1%on_fs_ftable & E). apply bind_inv in E as ([r bs] & k2 & E2%on_fs_ftable & E).
  apply bind_inv in E as ([] & k3 & E3 & E). apply bind_inv in E as ([] & k4 & E4%on_fs_frefs & E). injection E as _ <-.
  rewrite E4. eapply (advance_frefs k k2); [done|congruence|exact E3].
Qed.

Lemma filewrite_step_frefs f src i : preserves frefs (filewrite_step me f src i).
Proof.
  intros k a k'. unfold filewrite_step. destruct (negb _); [by intros [= _ <-]|].
  intros ([] & k1 & E1%begin_op_frefs & (x & k2 & [-> Hx]%get_file_inv & E)%bind_inv)%bind_inv.
  apply bind_inv in E as ([] & k2 & E2%on_fs_ftable & E). apply bind_inv in E as (r & k3 & E3%on_fs_ftable & E).
  apply bind_inv in E as ([] & k4 & E4 & E). apply bind_inv in E as ([] & k5 & E5%on_fs_frefs & E).
  apply bind_inv in E as ([] & k6 & E6%end_op_frefs & E).
  assert (frefs k4 = frefs k1) as E7 by (eapply (advance_frefs k1 k3); [done|congruence|exact E4]).
  destruct (r <? 0); [|destruct (negb _); [done|]]; injection E as _ <-; congruence.
Qed.

Lemma filewrite_frefs kl f src : preserves frefs (filewrite me kl f src).
Proof.
  unfold filewrite. apply preserves_bind; [eauto with preserves|]. intros x. destruct (negb _); [eauto with preserves|].
  destruct (f_type x); [eauto with preserves|apply pipewrite_frefs|]. apply preserves_bind; [|eauto with preserves].
  apply preserves_loop. apply filewrite_step_frefs.
Qed.

Lemma set_pipe_file_frefs f p r : preserves frefs (set_pipe_file f p r).
Proof.
  intros k [] k'. unfold set_pipe_file. intros (x & k1 & [-> Hx]%get_file_inv & E)%bind_inv.
  eapply (put_file_same k k f x _ Hx eq_refl); [|exact E]. done.
Qed.

(** ** The calling process *)

Lemma load_bytes_ofile p n : preserves ofile (load_bytes p n).
Proof. intros u a u'. unfold load_bytes. destruct (in_range _ _ _); [|done]. by intros [= _ <-]. Qed.
Lemma store_bytes_ofile p bs : preserves ofile (store_bytes p bs).
Proof. intros u a u'. unfold store_bytes. destruct (in_range _ _ _); [|done]. by intros [= _ <-]. Qed.
#[local] Hint Resolve load_bytes_ofile store_bytes_ofile : preserves.
Lemma fetchint_ofile a : preserves ofile (fetchint a).
Proof. unfold fetchint, load_sint, load_uint. preserves. Qed.
#[local] Hint Resolve fetchint_ofile : preserves.
Lemma fetchstr_ofile a : preserves ofile (fetchstr a).
Proof. unfold fetchstr, fetchstr_step, load_uint. preserves. Qed.
Lemma argint_ofile n : preserves ofile (argint n).
Proof. unfold argint. preserves. Qed.
#[local] Hint Resolve fetchstr_ofile argint_ofile : preserves.
Lemma argptr_ofile n size : preserves ofile (argptr n size).
Proof. unfold argptr. preserves. Qed.
Lemma argstr_ofile n : preserves ofile (argstr n).
Proof. unfold argstr. preserves. Qed.
Lemma store_int_ofile n p z : preserves ofile (store_int n p z).
Proof. apply store_bytes_ofile. Qed.
Lemma store_stat_ofile p st : preserves ofile (store_stat p st).
Proof. unfold store_stat, store_int. preserves. Qed.
#[local] Hint Resolve argptr_ofile argstr_ofile store_int_ofile store_stat_ofile : preserves.
#[local] Hint Resolve on_user_view on_kern_view fs_view filestat_frefs fileread_frefs filewrite_frefs : preserves.

Lemma arg_string_view n : preserves fdview (arg_string n).
Proof. unfold arg_string. preserves. Qed.
Lemma argfd_view n : preserves fdview (argfd n).
Proof. unfold argfd. preserves. Qed.
#[local] Hint Resolve arg_string_view argfd_view : preserves.
Lemma rw_args_view : preserves fdview rw_args.
Proof. unfold rw_args. preserves. Qed.
Lemma fail_view : preserves fdview (fail me).
Proof. unfold fail. preserves. Qed.
Lemma namei_user_view p : preserves fdview (namei_user me p).
Proof. unfold namei_user. preserves. Qed.
Lemma nameiparent_user_view p : preserves fdview (nameiparent_user me p).
Proof. unfold nameiparent_user. preserves. Qed.
Lemma set_cwd_view ip : preserves fdview (set_cwd ip).
Proof. by apply preserves_modify. Qed.
#[local] Hint Resolve rw_args_view fail_view namei_user_view nameiparent_user_view set_cwd_view : preserves.
Lemma create_view p t mj mn : preserves fdview (create me p t mj mn).
Proof. unfold create. apply preserves_bind; [eauto with preserves|]. intros [[dp name]|]; [apply fs_view|eauto with preserves]. Qed.
#[local] Hint Resolve create_view : preserves.
Lemma open_inode_view p m : preserves fdview (open_inode me p m).
Proof. unfold open_inode. preserves. Qed.
Lemma open_fail_view ip : preserves fdview (open_fail me ip).
Proof. unfold open_fail. preserves. Qed.
Lemma link_bad_view ip : preserves fdview (link_bad me ip).
Proof. unfold link_bad. preserves. Qed.
Lemma unlink_bad_view ip : preserves fdview (unlink_bad me ip).
Proof. unfold unlink_bad. preserves. Qed.
#[local] Hint Resolve open_inode_view open_fail_view link_bad_view unlink_bad_view : preserves.

Lemma sys_read_view : preserves fdview (sys_read me).
Proof. unfold sys_read. preserves. Qed.
Lemma sys_write_view : preserves fdview (sys_write me).
Proof. unfold sys_write. preserves. Qed.
Lemma sys_fstat_view : preserves fdview (sys_fstat me).
Proof. unfold sys_fstat. preserves. Qed.
Lemma sys_link_view : preserves fdview (sys_link me).
Proof. unfold sys_link. preserves. Qed.
Lemma sys_unlink_view : preserves fdview (sys_unlink me).
Proof. unfold sys_unlink. preserves. Qed.
Lemma sys_mkdir_view : preserves fdview (sys_mkdir me).
Proof. unfold sys_mkdir. preserves. Qed.
Lemma sys_mknod_view : preserves fdview (sys_mknod me).
Proof. unfold sys_mknod. preserves. Qed.
Lemma sys_chdir_view : preserves fdview (sys_chdir me).
Proof. unfold sys_chdir. preserves. Qed.

(** * What changes the counts *)

Lemma counted_preserves {A} (m : ST state A) E s : preserves fdview m → counted E s → post m (λ _ s', counted E s') s.
Proof. intros Hm Hc a s' Es. eapply counted_view; [by eapply Hm|done]. Qed.

Lemma on_kern_inv {A} (m : ST kernel A) s a s' : on_kern m s = Ok a s' → m (kern s) = Ok a (kern s') ∧ user s' = user s.
Proof. unfold on_kern. destruct (m (kern s)); [|done]. by intros [= <- <-]. Qed.

(** Storing a file with another count. *)
Lemma counted_put E s k' f x y :
  counted E s → ftable (kern s) !! f = Some x → frefs k' = <[f := f_ref y]> (frefs (kern s)) →
  counted (plus E f (f_ref y - f_ref x)) (St k' (user s)).
Proof.
  intros Hc Hx Hk g n. cbn. rewrite Hk. intros Hn. unfold plus. apply list_lookup_insert_Some in Hn as [(-> & <- & _)|[Hne Hn]].
  - rewrite decide_True by done. pose proof (Hc g (f_ref x)) as Hg. unfold frefs in Hg. rewrite list_lookup_fmap, Hx in Hg.
    specialize (Hg eq_refl). lia.
  - rewrite decide_False by done. by apply Hc.
Qed.

Lemma put_frefs k f y a b c : frefs (K a (<[f := y]> (ftable k)) b c) = <[f := f_ref y]> (frefs k).
Proof. apply list_fmap_insert. Qed.

Lemma filealloc_counted E s : counted E s →
  post (on_kern filealloc) (λ r s', match r with Some f => counted (plus E f 1) s' | None => counted E s' end ∧ ofile (user s') = ofile (user s)) s.
Proof.
  intros Hc r s' [Ek Eu]%on_kern_inv. rewrite Eu. split; [|done]. unfold filealloc in Ek. apply bind_inv in Ek as (ft & k1 & [= <- <-] & Ek).
  destruct (list_find _ _) as [[f x]|] eqn:Ef.
  - apply list_find_Some in Ef as (Hx & H0 & _). apply bind_inv in Ek as ([] & k2 & [= <-] & [= <- Ek]).
    destruct s' as [k' u']. cbn in *. subst u' k'. pose proof (counted_put E s _ f x (set_f_ref 1 x) Hc Hx (put_frefs _ f _ (kfs (kern s)) (free_pages (kern s)) (pipes (kern s)))) as H'.
    rewrite H0 in H'. exact H'.
  - injection Ek as <- Ek. eapply counted_view; [|done]. unfold fdview. by rewrite Ek, Eu.
Qed.

Lemma filedup_counted E s f : counted E s → post (on_kern (filedup f)) (λ _ s', counted (plus E f 1) s') s.
Proof.
  intros Hc r s' [Ek Eu]%on_kern_inv. unfold filedup in Ek. apply bind_inv in Ek as (x & k1 & [-> Hx]%get_file_inv & Ek).
  destruct (_ <? _); [done|]. apply bind_inv in Ek as ([] & k2 & [= <-] & [= <- Ek]). destruct s' as [k' u']. cbn in *. subst u' k'.
  pose proof (counted_put E s _ f x (set_f_ref (f_ref x + 1) x) Hc Hx (put_frefs _ f _ (kfs (kern s)) (free_pages (kern s)) (pipes (kern s)))) as H'. cbn in H'.
  by replace (f_ref x + 1 - f_ref x) with 1 in H' by lia.
Qed.

Lemma fileclose_frefs f k k' x : ftable k !! f = Some x → fileclose me f k = Ok tt k' → frefs k' = <[f := f_ref x - 1]> (frefs k).
Proof.
  intros Hx. unfold fileclose. intros (y & k1 & [-> Hy]%get_file_inv & E)%bind_inv. rewrite Hx in Hy. injection Hy as <-.
  destruct (Z.ltb_spec (f_ref x) 1); [done|]. destruct (Z.ltb_spec 0 (f_ref x - 1)).
  { injection E as <-. unfold frefs. cbn. by rewrite list_fmap_insert. }
  apply bind_inv in E as ([] & k1 & [= <-] & E).
  assert (∀ (m : ST kernel unit), preserves frefs m → m (K (kfs k) (<[f:=Fl FD_NONE 0 (f_readable x) (f_writable x) (f_pipe x) (f_ip x) (f_off x)]> (ftable k)) (free_pages k) (pipes k)) = Ok tt k' →
    frefs k' = <[f := f_ref x - 1]> (frefs k)) as Hm.
  { intros m Hm Em. rewrite (Hm _ _ _ Em). unfold frefs. cbn. rewrite list_fmap_insert. f_equal. cbn. lia. }
  destruct (f_type x); [by eapply (Hm (ret tt)); [apply preserves_ret|]|by eapply Hm; [apply pipeclose_frefs|]|].
  eapply Hm; [|exact E]. preserves; eauto using begin_op_frefs, on_fs_frefs, end_op_frefs.
Qed.

Lemma fileclose_counted E s f : counted E s → post (on_kern (fileclose me f)) (λ _ s', counted (plus E f (-1)) s' ∧ ofile (user s') = ofile (user s)) s.
Proof.
  intros Hc [] s' [Ek Eu]%on_kern_inv. rewrite Eu. split; [|done]. pose proof Ek as Ek'. unfold fileclose in Ek'. apply bind_inv in Ek' as (x & k1 & [-> Hx]%get_file_inv & _).
  pose proof (fileclose_frefs f _ _ x Hx Ek) as Hk. destruct s' as [k' u']. cbn in *. subst u'.
  pose proof (counted_put E s k' f x (set_f_ref (f_ref x - 1) x) Hc Hx Hk) as H'. cbn in H'.
  by replace (f_ref x - 1 - f_ref x) with (-1) in H' by lia.
Qed.

(** Changing one descriptor. *)
Lemma set_ofile_counted E s fd o o' f d : counted E s → ofile (user s) !! fd = Some o →
  (∀ g, Z.b2z (is_fd g o) - Z.b2z (is_fd g o') = if decide (g = f) then d else 0) →
  post (set_ofile fd o') (λ _ s', counted (plus E f d) s' ∧ ofile (user s') = <[fd := o']> (ofile (user s)) ∧ kern s' = kern s) s.
Proof.
  intros Hc Ho Hd [] s' [= <-]. split; [|done]. intros g n Hn. cbn [user ofile kern] in *. rewrite (count_insert _ _ _ _ _ Ho).
  rewrite (Hc g n Hn). unfold plus. specialize (Hd g). case_decide; lia.
Qed.

Lemma fdalloc_counted E s f : counted E s →
  post (fdalloc f) (λ r s', match r with
    | Some fd => counted (plus E f (-1)) s' ∧ ofile (user s') = <[fd := Some f]> (ofile (user s)) ∧ (fd < length (ofile (user s)))%nat
    | None => s' = s
    end) s.
Proof.
  intros Hc r s'. unfold fdalloc. intros (fds & s1 & [= <- <-] & E1)%bind_inv.
  destruct (list_find _ _) as [[fd o]|] eqn:Ef; [|by injection E1 as <- <-].
  apply list_find_Some in Ef as (Ho & -> & _). apply bind_inv in E1 as ([] & s1 & E1 & [= <- <-]).
  destruct (set_ofile_counted E s fd None (Some f) f (-1) Hc Ho) with (a := tt) (s' := s1) as (? & ? & _); [|done|].
  - intros g. unfold is_fd. rewrite bool_decide_false by done. destruct (decide (g = f)) as [->|]; [by rewrite bool_decide_true|].
    rewrite bool_decide_false; [done|]. congruence.
  - split_and!; [done|done|by eapply lookup_lt_Some].
Qed.

Lemma close_fd_counted E s fd f : counted E s → ofile (user s) !! fd = Some (Some f) →
  post (set_ofile fd None) (λ _ s', counted (plus E f 1) s') s.
Proof.
  intros Hc Ho a s' Es. eapply (set_ofile_counted E s fd (Some f) None f 1 Hc Ho) in Es as (? & _); [done|].
  intros g. unfold is_fd. rewrite (bool_decide_false (None = Some g)) by done. destruct (decide (g = f)) as [->|]; [by rewrite bool_decide_true|].
  rewrite bool_decide_false; [done|]. congruence.
Qed.

Lemma argfd_inv n s r s' : argfd n s = Ok r s' →
  fdview s' = fdview s ∧ match r with Some (fd, f) => ofile (user s) !! Z.to_nat fd = Some (Some f) | None => True end.
Proof.
  intros E. split; [by eapply argfd_view|]. unfold argfd in E. apply bind_inv in E as (fd & s1 & E1 & E).
  assert (ofile (user s1) = ofile (user s)) as Hof.
  { assert (fdview s1 = fdview s) as [= _ ?] by (eapply on_user_view; [apply argint_ofile|exact E1]). done. }
  destruct fd as [fd|]; [|by injection E as <- <-]. destruct (_ || _); [by injection E as <- <-|].
  apply bind_inv in E as (fds & s2 & [= <- <-] & E). apply bind_inv in E as (f & s3 & E3 & E).
  destruct (ofile (user s1) !! Z.to_nat fd) as [o|] eqn:Ho; [|done]. injection E3 as <- <-.
  destruct o as [f'|]; injection E as <- <-; [by rewrite <- Hof|done].
Qed.

(** * The system calls *)

Definition counts {A} (m : ST state A) : Prop := ∀ E s, counted E s → post m (λ _ s', counted E s') s.

Lemma counts_view {A} (m : ST state A) : preserves fdview m → counts m.
Proof. intros Hm E s. by apply counted_preserves. Qed.

Lemma sys_dup_counts : counts sys_dup.
Proof.
  intros E s Hc. unfold sys_dup. apply post_bind. intros r s1 [Hv Hr]%argfd_inv. apply (counted_view E s s1 Hv) in Hc.
  destruct r as [[n f]|]; [|by apply post_ret]. apply post_bind. eapply post_mono; [by apply fdalloc_counted|].
  intros [fd|] s2; cbn; [|intros ->; by apply post_ret]. intros (Hc2 & _). apply post_bind. eapply post_mono; [by apply filedup_counted|].
  intros ? s3 Hc3. apply post_ret. eapply counted_plus_minus. exact Hc3.
Qed.

Lemma sys_close_counts : counts (sys_close me).
Proof.
  intros E s Hc. unfold sys_close. apply post_bind. intros r s1 [Hv Hr]%argfd_inv. apply (counted_view E s s1 Hv) in Hc.
  destruct r as [[n f]|]; [|by apply post_ret]. injection Hv as _ Hof. rewrite <- Hof in Hr.
  apply post_bind. eapply post_mono; [exact (close_fd_counted E s1 _ f Hc Hr)|]. intros ? s2 Hc2. cbn beta in Hc2.
  apply post_bind. eapply post_mono; [by apply fileclose_counted|]. intros ? s3 [Hc3 _]. apply post_ret.
  eapply counted_plus_minus. exact Hc3.
Qed.

Lemma set_open_file f rd wr ip : preserves fdview (on_kern (let! x := get_file f in put_file f (Fl FD_INODE (f_ref x) rd wr (f_pipe x) ip 0))).
Proof.
  apply on_kern_view. intros k [] k'. intros (x & k1 & [-> Hx]%get_file_inv & Ek)%bind_inv.
  eapply (put_file_same k k f x _ Hx eq_refl); [|exact Ek]. done.
Qed.

#[local] Hint Resolve argint_ofile argptr_ofile argstr_ofile store_int_ofile : preserves.
#[local] Hint Resolve on_user_view on_kern_view fs_view begin_op_frefs end_op_frefs set_open_file arg_string_view open_inode_view open_fail_view : preserves.

(** A step that leaves the counts alone. *)
Lemma post_bind_view {A B} (m : ST state A) (k : A → ST state B) E (Q : B → state → Prop) s :
  preserves fdview m → counted E s → (∀ a s', counted E s' → post (k a) Q s') → post (bind m k) Q s.
Proof. intros Hm Hc Hk. apply post_bind. eapply post_mono; [by apply (counted_preserves m E s)|]. intros a s' Hs'. by apply Hk. Qed.
Ltac view_step := eapply post_bind_view; [eauto with preserves|eassumption|cbn beta].

Lemma sys_open_counts : counts (sys_open me).
Proof.
  intros E s Hc. unfold sys_open. view_step. intros [path|] s1 Hc1; [|by apply post_ret].
  view_step. intros [m|] s2 Hc2; [|by apply post_ret]. view_step. intros ? s3 Hc3. view_step. intros [ip|] s4 Hc4; [|by apply post_ret].
  apply post_bind. eapply post_mono; [by apply (filealloc_counted E)|]. intros [f|] s5 [Hc5 _]; [|by eapply counted_preserves; [apply open_fail_view|]].
  apply post_bind. eapply post_mono; [by apply (fdalloc_counted (plus E f 1) _ f)|]. intros [fd|] s6; cbn.
  - intros (Hc6 & _). apply (counted_plus_minus E f 1) in Hc6. view_step. intros ? s7 Hc7. view_step. intros ? s8 Hc8. view_step. intros ? s9 Hc9. by apply post_ret.
  - intros ->. apply post_bind. eapply post_mono; [by apply fileclose_counted|]. intros ? s7 [Hc7 _].
    apply (counted_plus_minus E f 1) in Hc7. by apply (counted_preserves _ _ _ (open_fail_view ip)).
Qed.

(** Closing the two files of a pipe that could not be set up. *)
Lemma close_counted E f s : counted (plus E f 1) s → post (on_kern (fileclose me f)) (λ _ s', counted E s' ∧ ofile (user s') = ofile (user s)) s.
Proof.
  intros Hc. eapply post_mono; [by apply fileclose_counted|]. intros _ s' [Hc' ?]. split; [|done]. by apply (counted_plus_minus E f 1).
Qed.

Lemma kalloc_frefs : preserves frefs kalloc.
Proof. intros k a k'. unfold kalloc. destruct (free_pages k); by intros [= <- <-]. Qed.

Lemma on_kern_bind {A B} (m : ST kernel A) (k : A → ST kernel B) s : on_kern (bind m k) s = (let! a := on_kern m in on_kern (k a)) s.
Proof. unfold on_kern, bind. destruct (m (kern s)); [|done]. by destruct s. Qed.

Lemma post_on_kern_bind {A B} (m : ST kernel A) (k : A → ST kernel B) Q s :
  post (let! a := on_kern m in on_kern (k a)) Q s → post (on_kern (bind m k)) Q s.
Proof. intros H' a s'. rewrite on_kern_bind. apply H'. Qed.

Lemma on_kern_ret {A} (a : A) (s : state) : on_kern (ret a) s = Ok a s.
Proof. by destruct s. Qed.

Lemma pipealloc_counted E s : counted E s →
  post (on_kern (pipealloc me)) (λ r s', match r with Some (f0, f1) => counted (plus (plus E f0 1) f1 1) s' | None => counted E s' end) s.
Proof.
  intros Hc. unfold pipealloc. apply post_on_kern_bind, post_bind. eapply post_mono; [by apply filealloc_counted|].
  intros [f0|] s1 [Hc1 _]; [|intros r s'; rewrite on_kern_ret; by intros [= <- <-]].
  apply post_on_kern_bind, post_bind. eapply post_mono; [by apply filealloc_counted|].
  intros [f1|] s2 [Hc2 _].
  - apply post_on_kern_bind, post_bind. eapply post_mono; [by apply (counted_preserves (on_kern kalloc)); [apply on_kern_view, kalloc_frefs|]|].
    intros [[p page]|] s3 Hc3.
    + apply post_on_kern_bind. eapply post_bind_view; [apply on_kern_view, put_pipe_frefs|done|]. intros [] s4 Hc4.
      apply post_on_kern_bind. eapply post_bind_view; [apply on_kern_view, set_pipe_file_frefs|done|]. intros [] s5 Hc5.
      apply post_on_kern_bind. eapply post_bind_view; [apply on_kern_view, set_pipe_file_frefs|done|]. intros [] s6 Hc6.
      intros r s'. rewrite on_kern_ret. by intros [= <- <-].
    + assert (counted (plus (plus E f1 1) f0 1) s3) as Hc3' by (eapply counted_ext; [|exact Hc3]; intros g; unfold plus; repeat case_decide; lia).
      apply post_on_kern_bind, post_bind. eapply post_mono; [by apply (close_counted (plus E f1 1))|]. intros [] s4 [Hc4 _].
      apply post_on_kern_bind, post_bind. eapply post_mono; [by apply close_counted|]. intros [] s5 [Hc5 _].
      intros r s'. rewrite on_kern_ret. by intros [= <- <-].
  - apply post_on_kern_bind, post_bind. eapply post_mono; [by apply close_counted|]. intros [] s3 [Hc3 _].
    intros r s'. rewrite on_kern_ret. by intros [= <- <-].
Qed.

Lemma sys_pipe_counts : counts (sys_pipe me).
Proof.
  intros E s Hc. unfold sys_pipe. view_step. intros [fd|] s1 Hc1; [|by apply post_ret].
  apply post_bind. eapply post_mono; [by apply pipealloc_counted|]. intros [[rf wf]|] s2 Hc2; [|by apply post_ret].
  apply (counted_ext _ (plus (plus E wf 1) rf 1)) in Hc2; [|intros g; unfold plus; repeat case_decide; lia].
  assert (∀ s0, counted (plus (plus E wf 1) rf 1) s0 →
    post (do! on_kern (fileclose me rf) in do! on_kern (fileclose me wf) in ret (-1)) (λ (_ : Z) s', counted E s') s0) as Hclose.
  { intros s0 H0. apply post_bind. eapply post_mono; [by apply close_counted|]. intros ? s3 [Hc3 _].
    apply post_bind. eapply post_mono; [by apply close_counted|]. intros ? s4 [Hc4 _]. by apply post_ret. }
  apply post_bind. eapply post_mono; [by apply (fdalloc_counted (plus (plus E wf 1) rf 1) _ rf)|]. intros [fd0|] s3; cbn; [|intros ->; by apply Hclose].
  intros (Hc3%counted_plus_minus & Hof & Hlt). apply post_bind. eapply post_mono; [by apply (fdalloc_counted (plus E wf 1) _ wf)|]. intros [fd1|] s4; cbn.
  - intros (Hc4%counted_plus_minus & _). view_step. intros ? s5 Hc5. view_step. intros ? s6 Hc6. by apply post_ret.
  - intros ->. apply post_bind. eapply post_mono; [apply (close_fd_counted _ s3 fd0 rf Hc3)|].
    + rewrite Hof. by apply list_lookup_insert_eq.
    + intros ? s5 Hc5. by apply Hclose.
Qed.

(** The system calls on files. *)
Definition file_calls : list (ST state Z) :=
  [sys_dup; sys_read me; sys_write me; sys_close me; sys_fstat me; sys_link me; sys_unlink me; sys_open me;
   sys_mkdir me; sys_mknod me; sys_chdir me; sys_pipe me].

(** C28: Every system call on files, whether it succeeds or not, leaves the reference
    count of each open file equal to the number of descriptors for it, those of
    this process and those of the others; so no file that a descriptor names is
    ever free. *)
Theorem descriptors_counted E s call r s' :
  (∀ f, 0 ≤ E f) → counted E s → call ∈ file_calls → call s = Ok r s' →
  counted E s' ∧ ∀ fd f x, ofile (user s') !! fd = Some (Some f) → ftable (kern s') !! f = Some x → 1 ≤ f_ref x.
Proof.
  intros HE Hc Hin Hcall.
  assert (counted E s') as Hc'.
  { assert (counts call) as Hok; [|by eapply (Hok E s)]. revert Hin. unfold file_calls. rewrite !elem_of_cons, elem_of_nil.
    intros [->|[->|[->|[->|[->|[->|[->|[->|[->|[->|[->|[->|[]]]]]]]]]]]]];
      first [apply sys_dup_counts|apply sys_close_counts|apply sys_open_counts|apply sys_pipe_counts|apply counts_view];
      eauto using sys_read_view, sys_write_view, sys_fstat_view, sys_link_view, sys_unlink_view, sys_mkdir_view, sys_mknod_view, sys_chdir_view. }
  split; [done|]. intros fd f x Hfd Hx. pose proof (Hc' f (f_ref x)) as Hf. unfold frefs in Hf. rewrite list_lookup_fmap, Hx in Hf.
  rewrite (Hf eq_refl). pose proof (count_pos (is_fd f) (ofile (user s')) fd (Some f) Hfd ltac:(unfold is_fd; by apply bool_decide_eq_true)).
  specialize (HE f). lia.
Qed.

End Calls.
End SysfileInv.
