(* ===== verification/FileAtomic.v ===== *)
(** FileAtomic: a chunk of [filewrite] (p4/xv6-public/file.c) is atomic with
    respect to crashes: the file contents, the buffer cache, the log and recovery
    together. *)
From Stdlib Require Import Strings.Byte.
From S2P Require Import Prelude Memory Bio BioInv Log LogInv LogCrash Fsys FsysInv FsysTx FsysAlloc FsysFile FsysWrite FsysTree FsysGrow FsysExtend FsysWritei Pipe File FsysExamples Syscall Sysfile SysfileInv.
From stdpp Require Import gmap.
Local Open Scope Z_scope.

Module FileAtomic.
Import BioInv Log LogInv LogCrash Fsys FsysInv FsysTx FsysAlloc FsysWrote FsysFile FsysWrite FsysTree FsysGrow FsysExtend FsysWritei File.

(** Between operations: no buffer is dirty or in use, the log is empty in memory
    and on the disk.  The log has at least the [LOGSIZE] blocks that [mkfs] gives it
    (p4/xv6-public/mkfs.c, [nlog]), its header included, and is on the disk. *)
Record quiescent (A : acache) (L : log) : Prop := {
  qu_clean : dt A = ∅ ∧ hd A = ∅;
  qu_log : outstanding L = 0 ∧ committing L = 0 ∧ lh_n L = 0;
  qu_int : int_blocks (lh_block L);
  qu_size : LOGSIZE ≤ lsize L;
  qu_area : 0 ≤ start L ∧ start L + lsize L ≤ Z.of_nat (length (dk A));
  qu_header : ∃ h0, dk A !! Z.to_nat (start L) = Some h0 ∧ header_is h0 []
}.

(** An inode that is in use, has been read from the disk and is not locked. *)
Record at_rest (x : inode) : Prop := { ar_ref : 1 ≤ i_ref x; ar_valid : i_valid x ≠ 0; ar_lock : i_locked x = 0 }.

Section Atomic.
Context (me : Z) (S : superblock) `{Devices}.

Lemma kfs_on_fs_ok {R} (f : ST fsys R) k r s : f (kfs k) = Ok r s → on_fs f k = Ok r (K s (ftable k) (free_pages k) (pipes k)).
Proof. unfold on_fs. by intros ->. Qed.

Lemma begin_op_ok C A L s : fabs me S C A L s → quiescent A L →
  ∃ s', on_base begin_op_turn s = Ok true s' ∧ fabs me S C A (set_outstanding 1 L) s'.
Proof.
  intros HF [_ (Ho & Hc & Hn) _ _ _ _]. pose proof HF as (HA & HS & HC). pose proof HA as (HA0 & HL & Hlim & Hdev).
  exists (Fsys (Fs (io (base s)) (set_outstanding 1 L)) S C). split; [|by split].
  apply (on_base_ok me S C A L s begin_op_turn true (Fs (io (base s)) (set_outstanding 1 L)) HF). unfold begin_op_turn. rewrite (bind_ok _ _ _ _ _ (lg_ok me _ A L HA)).
  rewrite Hc, Hn, Ho. cbn [negb Z.eqb]. change (LOGSIZE <? 0 + (0 + 1) * MAXOPBLOCKS) with false. cbn iota. erewrite bind_ok by reflexivity. unfold set_log, modify. by rewrite HL.
Qed.

Lemma quiescent_tx A L : quiescent A L → in_tx A (set_outstanding 1 L).
Proof.
  intros [[Hd Hh] (Ho & Hc & Hn) Hint Hz Harea _]. assert (listed (set_outstanding 1 L) = []) as El by (unfold listed; cbn; by rewrite Hn).
  split; rewrite ?El; [done|cbn; rewrite Hn; unfold LOGSIZE, MAXOPBLOCKS in *; lia|done|apply NoDup_nil_2|intros b; rewrite Hd; set_solver|by intros b ?%elem_of_nil|done].
Qed.

Lemma ilock_rest C A L s ip x : fabs me S C A L s → C !! ip = Some x → at_rest x →
  ∃ s', ilock me ip s = Ok tt s' ∧ fabs me S (<[ip := set_i_lock 1 me x]> C) A L s'.
Proof.
  intros HF Hx []. unfold ilock. rewrite (bind_ok _ _ _ _ _ (get_inode_ok me S C A L s ip x HF Hx)), (proj2 (Z.ltb_ge _ _)) by lia.
  destruct (put_inode_ok me S C A L s ip (set_i_lock 1 me x) HF) as (s1 & E1 & HF1).
  assert (acquire_inode me ip s = Ok tt s1) as Ea.
  { unfold acquire_inode. rewrite (bind_ok _ _ _ _ _ (get_inode_ok me S C A L s ip x HF Hx)), ar_lock0. exact E1. }
  rewrite (bind_ok _ _ _ _ _ Ea). exists s1. split; [|done].
  assert (<[ip:=set_i_lock 1 me x]> C !! ip = Some (set_i_lock 1 me x)) as Hx1 by (apply list_lookup_insert_eq; by eapply lookup_lt_Some).
  rewrite (bind_ok _ _ _ _ _ (get_inode_ok me S _ A L s1 ip _ HF1 Hx1)). cbn [i_valid set_i_lock]. by rewrite (proj2 (Z.eqb_neq _ _)).
Qed.

Lemma iunlock_held C A L s ip x : fabs me S C A L s → C !! ip = Some (set_i_lock 1 me x) → 1 ≤ i_ref x →
  ∃ s', iunlock me ip s = Ok tt s' ∧ fabs me S (<[ip := set_i_lock 0 0 x]> C) A L s'.
Proof.
  intros HF Hx Hr. unfold iunlock. rewrite (bind_ok _ _ _ _ _ (get_inode_ok me S C A L s ip _ HF Hx)). cbn [i_locked i_pid i_ref set_i_lock].
  rewrite Z.eqb_refl, (proj2 (Z.ltb_ge _ _)) by lia. cbn [negb andb orb Z.eqb]. unfold release_inode.
  rewrite (bind_ok _ _ _ _ _ (get_inode_ok me S C A L s ip _ HF Hx)). apply (put_inode_ok me S C A L s ip (set_i_lock 0 0 x) HF).
Qed.

Lemma ready_lock A x : file_ready A x → file_ready A (set_i_lock 1 me x).
Proof. intros []. by split. Qed.
Lemma distinct_lock v x : file_distinct v x → file_distinct v (set_i_lock 1 me x).
Proof. intros []. by split. Qed.

(** The body of the transaction: [ilock], [writei], [iunlock]. *)
Lemma write_locked_ok C A L s ip x src off n :
  fabs me S C A L s → C !! ip = Some x → at_rest x → file_ready A x → file_distinct (vw A) x →
  0 ≤ off → off + n ≤ i_size x → Z.of_nat (length src) = n → can_log L (blocks_touched off n) →
  Z.of_nat (size (hd A)) + Z.of_nat (size (dt A)) + blocks_touched off n < Bio.NBUF →
  ∃ A' L' s1 s2 s3 C', ilock me ip s = Ok tt s1 ∧ writei me ip src off s1 = Ok n s2 ∧ iunlock me ip s2 = Ok tt s3 ∧
    fabs me S C' A' L' s3 ∧ written (set_i_lock 1 me x) A L src off n n A' L'.
Proof.
  intros HF Hx Hrest Hfr Hfd Hoff Hn Hsrc HL Hroom. destruct (ilock_rest C A L s ip x HF Hx Hrest) as (s1 & E1 & HF1).
  set (C1 := <[ip := set_i_lock 1 me x]> C) in *.
  assert (C1 !! ip = Some (set_i_lock 1 me x)) as Hx1 by (apply list_lookup_insert_eq; by eapply lookup_lt_Some).
  destruct (writei_ok me S C1 (set_i_lock 1 me x) A L src off n s1 ip HF1 Hx1 (ready_lock A x Hfr) (distinct_lock _ x Hfd) Hoff Hn Hsrc HL Hroom)
    as (A' & L' & s2 & E2 & HF2 & Hwr).
  destruct (iunlock_held C1 A' L' s2 ip x HF2 Hx1 (ar_ref _ Hrest)) as (s3 & E3 & HF3).
  exists A', L', s1, s2, s3, (<[ip := set_i_lock 0 0 x]> C1). done.
Qed.

Definition chunk (src : list byte) (i c : Z) : list byte := take (Z.to_nat c) (drop (Z.to_nat i) src).

Lemma blocks_touched_chunk off c : 0 ≤ off → c ≤ max_write → blocks_touched off c ≤ 4.
Proof.
  change max_write with 1536. unfold blocks_touched, Bio.BSIZE. intros. destruct (Z.leb_spec c 0); [lia|].
  assert ((off + c - 1) / 512 ≤ (off + 1535) / 512) by (apply Z.div_le_mono; lia).
  replace (off + 1535) with (off - 1 + 3 * 512) in * by lia. rewrite Z.div_add in * by lia.
  assert ((off - 1) / 512 ≤ off / 512) by (apply Z.div_le_mono; lia). lia.
Qed.

(** After any number of the writes [W] the disk recovers to the old blocks or to the
    new ones. *)
Definition crash_safe (A A' : acache) (L : log) (W : list (Z * Bio.block)) : Prop :=
  ∀ m, ∃ s'', recover_from_log me (boot L (apply_writes (take m W) (dk A))) = Ok tt s'' ∧
    ((∀ b, outside_log L (Z.of_nat (length (dk A))) b → Bio.memdisk (io s'') !! Z.to_nat b = vw A b) ∨
     (∀ b, outside_log L (Z.of_nat (length (dk A))) b → Bio.memdisk (io s'') !! Z.to_nat b = vw A' b)).

(** [end_op] of the only operation commits it. *)
Lemma chunk_commit C A L s C' A' L' s3 :
  fabs me S C A L s → quiescent A L → fabs me S C' A' L' s3 → in_tx A' L' →
  dk A' = dk A → hd A' = hd A → ws A' = ws A → start L' = start L → lsize L' = lsize L →
  ∃ s4 W, Log.end_op me (base s3) = Ok tt s4 ∧ Bio.writes (io s4) = ws A ++ W ∧
    (∀ b, outside_log L (Z.of_nat (length (dk A))) b → Bio.memdisk (io s4) !! Z.to_nat b = vw A' b) ∧ crash_safe A A' L W.
Proof.
  intros HF [[Hdt Hhd] (Ho & Hc & Hn0) _ Hls Harea (h0 & Hh0 & E0)] HF3 Htx Hdk Hhd' Hws Hst Hlsz.
  destruct (end_op_ok me (base s3) A' L' h0 (proj1 HF3)) as (s4 & W & E4 & HW & Hdone & Hrec); [by rewrite Hhd'|done|by rewrite Hdk, Hst|done|].
  assert (∀ b, outside_log L (Z.of_nat (length (dk A))) b ↔ outside_log L' (Z.of_nat (length (dk A'))) b) as Hiff
    by (intros b; unfold outside_log; by rewrite Hst, Hlsz, Hdk).
  exists s4, W. split_and!; [done|by rewrite HW, Hws|intros b Hb; by apply Hdone, Hiff|].
  intros m. destruct (Hrec m) as (s'' & E'' & Hs''). rewrite Hdk in E''. exists s''. split.
  - rewrite <- E''. unfold boot, boot_log. by rewrite Hst, Hlsz.
  - destruct Hs'' as [Hs''|Hs'']; [left|right]; intros b Hb'; rewrite Hs'' by (by apply Hiff); [|done]. rewrite Hdk. symmetry.
    destruct Hb' as [Hb0 _]. eapply (clean_view me (base s) A L); [apply HF|done|lia|by rewrite Hdt].
Qed.

Section Run.
Context (k : kernel) (f : nat) (fl : file) (src : list byte) (i : Z) (s0 s1 s2 s3 : fsys) (s4 : fsst).
Let c := Z.min max_write (Z.of_nat (length src) - i).
Context (Hfl : ftable k !! f = Some fl) (Hi : 0 ≤ i < Z.of_nat (length src)) (Hoff : 0 ≤ f_off fl) (Hsz : f_off fl + c < 2 ^ 32).
Context (E0 : on_base begin_op_turn (kfs k) = Ok true s0) (E1 : ilock me (f_ip fl) s0 = Ok tt s1).
Context (E2 : writei me (f_ip fl) (chunk src i c) (f_off fl) s1 = Ok c s2) (E3 : iunlock me (f_ip fl) s2 = Ok tt s3).
Context (E4 : Log.end_op me (base s3) = Ok tt s4).

Lemma chunk_size : 0 < c ∧ c ≤ max_write ∧ c ≤ Z.of_nat (length src) - i ∧ Z.of_nat (length (chunk src i c)) = c.
Proof.
  assert (0 < c ∧ c ≤ max_write ∧ c ≤ Z.of_nat (length src) - i) as (Hc0 & Hc1 & Hc2) by (subst c; change max_write with 1536; lia).
  split_and!; [done..|]. clearbody c. unfold chunk. rewrite length_take, length_drop. lia.
Qed.

(** The calls of one turn, one after the other. *)
Lemma filewrite_step_run : filewrite_step me f src i k =
  Ok (inl (i + c)) (K (Fsys s4 (sb s3) (icache s3)) (<[f := set_f_off (f_off fl + c) fl]> (ftable k)) (free_pages k) (pipes k)).
Proof.
  destruct chunk_size as (Hc0 & Hc1 & Hc2 & _). unfold filewrite_step. rewrite (proj2 (Z.ltb_lt _ _)) by lia. cbn [negb].
  assert ((if max_write <? Z.of_nat (length src) - i then max_write else Z.of_nat (length src) - i) = c) as Ec
    by (subst c; destruct (Z.ltb_spec max_write (Z.of_nat (length src) - i)); lia).
  cbv zeta. rewrite Ec. fold (chunk src i c).
  assert (begin_op k = Ok tt (K s0 (ftable k) (free_pages k) (pipes k))) as Ebk
    by (unfold begin_op; by rewrite (bind_ok _ _ _ _ _ (kfs_on_fs_ok _ k _ _ E0))).
  rewrite (bind_ok _ _ _ _ _ Ebk).
  assert (get_file f (K s0 (ftable k) (free_pages k) (pipes k)) = Ok fl (K s0 (ftable k) (free_pages k) (pipes k))) as Eg
    by (unfold get_file; cbn; by rewrite Hfl).
  rewrite (bind_ok _ _ _ _ _ Eg). rewrite (bind_ok _ _ _ _ _ (kfs_on_fs_ok _ (K s0 _ _ _) _ _ E1)).
  rewrite (bind_ok _ _ _ _ _ (kfs_on_fs_ok _ (K s1 _ _ _) _ _ E2)). rewrite (proj2 (Z.ltb_lt 0 c)) by lia.
  rewrite (u32_small (f_off fl + c)) by lia.
  erewrite bind_ok by reflexivity. rewrite (bind_ok _ _ _ _ _ (kfs_on_fs_ok _ (K s2 _ _ _) _ _ E3)).
  assert (on_base (Log.end_op me) s3 = Ok tt (Fsys s4 (sb s3) (icache s3))) as Ee by (unfold on_base; by rewrite E4).
  unfold end_op. rewrite (bind_ok _ _ _ _ _ (kfs_on_fs_ok _ (K s3 _ _ _) _ _ Ee)).
  by rewrite (proj2 (Z.ltb_ge c 0)), Z.eqb_refl by lia.
Qed.
End Run.

Lemma lookup_chunk src i c k : 0 ≤ i → 0 ≤ k < c → chunk src i c !! Z.to_nat k = src !! Z.to_nat (i + k).
Proof. intros Hi Hk. unfold chunk. rewrite lookup_take_lt by lia. rewrite lookup_drop. f_equal. lia. Qed.

(** One turn of [filewrite] on a regular file, within its size, started between
    operations: it stores the next chunk of at most [max_write] bytes and advances
    the offset.  If the machine stops after any number [m] of its disk writes,
    recovery leaves all blocks as they were before the call, or all as the call
    leaves them; never a part of the chunk. *)
Theorem filewrite_overwrites_atomic C A L k f fl ip x src i :
  fabs me S C A L (kfs k) → quiescent A L →
  ftable k !! f = Some fl → f_ip fl = ip → C !! ip = Some x → at_rest x → file_ready A x → file_distinct (vw A) x →
  (∀ b, data_block (vw A) x b → outside_log L (Z.of_nat (length (dk A))) b) →
  let c := Z.min max_write (Z.of_nat (length src) - i) in
  0 ≤ i < Z.of_nat (length src) → 0 ≤ f_off fl → f_off fl + c ≤ i_size x →
  ∃ A' W k', filewrite_step me f src i k = Ok (inl (i + c)) k' ∧
    ftable k' !! f = Some (set_f_off (f_off fl + c) fl) ∧
    (∀ o, 0 ≤ o < i_size x → file_byte (vw A') x o =
       if decide (f_off fl ≤ o < f_off fl + c) then src !! Z.to_nat (i + (o - f_off fl)) else file_byte (vw A) x o) ∧
    (∀ b, ¬ data_block (vw A) x b → vw A' b = vw A b) ∧
    Bio.writes (io (base (kfs k'))) = ws A ++ W ∧
    (∀ b, outside_log L (Z.of_nat (length (dk A))) b → Bio.memdisk (io (base (kfs k'))) !! Z.to_nat b = vw A' b) ∧
    ∀ m, ∃ s'', recover_from_log me (boot L (apply_writes (take m W) (dk A))) = Ok tt s'' ∧
      ((∀ b, outside_log L (Z.of_nat (length (dk A))) b → Bio.memdisk (io s'') !! Z.to_nat b = vw A b) ∨
       (∀ b, outside_log L (Z.of_nat (length (dk A))) b → Bio.memdisk (io s'') !! Z.to_nat b = vw A' b)).
Proof.
  intros HF Hq Hfl Hip Hx Hrest Hfr Hfd Hout c Hi Hoff Hsz. pose proof (fr_size _ _ Hfr) as Hsize. pose proof Hq as [[Hdt Hhd] (Ho & Hc & Hn0) _ Hls _ _].
  destruct (chunk_size src i Hi) as (Hc0 & Hc1 & Hc2 & Hlen). fold c in Hc0, Hc1, Hc2, Hlen.
  pose proof (blocks_touched_chunk (f_off fl) c Hoff Hc1) as Hbt.
  destruct (begin_op_ok C A L (kfs k) HF Hq) as (s0 & Eb & HF0).
  destruct (write_locked_ok C A (set_outstanding 1 L) s0 ip x (chunk src i c) (f_off fl) c HF0 Hx Hrest Hfr Hfd Hoff Hsz Hlen)
    as (A' & L' & s1 & s2 & s3 & C' & E1 & E2 & E3 & HF3 & Hwr).
  { unfold can_log, LOGSIZE, MAXOPBLOCKS in *. cbn. lia. }
  { rewrite Hdt, Hhd, size_empty, map_size_empty. unfold Bio.NBUF. lia. }
  destruct Hwr as [_ _ _ Hb _ Hother _ _ (Hdk & Hhd' & Hws) [Hst Hlsz] Htx]. cbn [start lsize set_outstanding] in Hst, Hlsz.
  pose proof HF3 as ((_ & _ & Hlim & _) & _ & _). rewrite Hdk in Hlim.
  destruct (Htx (quiescent_tx A L Hq) Hout ltac:(unfold LOGSIZE, MAXOPBLOCKS; cbn; lia) ltac:(unfold LOGSIZE, MAXOPBLOCKS in *; cbn; lia) Hlim) as [Htx' _].
  destruct (chunk_commit C A L (kfs k) C' A' L' s3 HF Hq HF3 Htx') as (s4 & W & E4 & HW & Hdone & Hrec); try done. subst ip.
  unfold MAXFILE, NDIRECT, NINDIRECT, Bio.BSIZE in Hsize.
  pose proof (filewrite_step_run k f fl src i s0 s1 s2 s3 s4 Hfl Hi Hoff ltac:(fold c; lia) Eb E1 E2 E3 E4) as Erun.
  eexists A', W, _. split; [exact Erun|]. split_and!; [by apply list_lookup_insert_eq; eapply lookup_lt_Some| |exact Hother|done|done|exact Hrec].
  intros o Hoo. etransitivity; [exact (Hb o Hoo)|]. case_decide as Hin; [|done]. by rewrite lookup_chunk by lia.
Qed.

(** ** The same for a file that grows *)

(** The blocks that a write to the file may change. *)
Definition write_space (v : Z → option Bio.block) (x : inode) (b : Z) : Prop := file_space S v x b ∨ b = home S x.

(** [ilock], [writei], [iunlock] on a file with room to grow. *)
Lemma write_locked_grow C A L s ip x src off :
  let n := Z.of_nat (length src) in
  fabs me S C A L s → C !! ip = Some x → at_rest x → file_ok S A x → 0 ≤ off ≤ i_size x → off + n ≤ MAXFILE * Bio.BSIZE →
  enough (nodes_of off n) S A L x (6 * blocks_touched off n + 2) →
  ∃ A' L' s1 s2 s3 C' x' m, ilock me ip s = Ok tt s1 ∧ writei me ip src off s1 = Ok n s2 ∧ iunlock me ip s2 = Ok tt s3 ∧
    fabs me S C' A' L' s3 ∧ C' = <[ip := set_i_lock 0 0 x']> C ∧ after_write S (set_i_lock 1 me x) A L src off m A' L' x'.
Proof.
  intros n HF Hx Hrest Hfo Hoff Hend Hen. destruct (ilock_rest C A L s ip x HF Hx Hrest) as (s1 & E1 & HF1).
  set (C1 := <[ip := set_i_lock 1 me x]> C) in *. assert (ip < length C)%nat as Hip by (by eapply lookup_lt_Some).
  assert (C1 !! ip = Some (set_i_lock 1 me x)) as Hx1 by (by apply list_lookup_insert_eq).
  destruct (writei_after me S C1 (set_i_lock 1 me x) A L ip src off Hx1 (file_ok_lock S A x 1 me Hfo) Hoff Hend s1 HF1)
    as (A' & L' & x' & s2 & m & E2 & HF2 & Haw); [destruct Hen; by split|].
  unfold C1 in HF2. rewrite list_insert_insert_eq in HF2.
  assert (x' = set_i_lock 1 me x') as Elock by (by rewrite (aw_inode _ _ _ _ _ _ _ _ _ _ Haw)).
  assert ((<[ip := x']> C) !! ip = Some (set_i_lock 1 me x')) as Hx2 by (rewrite <- Elock; by apply list_lookup_insert_eq).
  destruct (iunlock_held _ A' L' s2 ip x' HF2 Hx2) as (s3 & E3 & HF3).
  { rewrite (aw_inode _ _ _ _ _ _ _ _ _ _ Haw). apply Hrest. }
  rewrite list_insert_insert_eq in HF3. by exists A', L', s1, s2, s3, (<[ip := set_i_lock 0 0 x']> C), x', m.
Qed.

(** What is needed in an empty transaction for a chunk. *)
Lemma chunk_enough A L x off c :
  quiescent A L → 0 ≤ off → c ≤ max_write → missing (nodes_of off c) (vw A) x ≤ free_blocks (vw A) S →
  enough (nodes_of off c) S A (set_outstanding 1 L) x (6 * blocks_touched off c + 2).
Proof.
  intros [[Hdt Hhd] (Ho & Hc & Hn0) _ Hls _ _] Hoff Hc1 Hfree. pose proof (blocks_touched_chunk off c Hoff Hc1).
  split; [done|done| |rewrite Hdt, size_empty; unfold Bio.NBUF; lia]. unfold can_log, LOGSIZE, MAXOPBLOCKS in *. cbn. lia.
Qed.

(** C1: One turn of [filewrite] on a regular file, between operations ([quiescent], which
    the log that mkfs makes allows) and with enough free blocks for the chunk: it stores the next chunk of at most [max_write] bytes
    at the offset, over the old contents or past their end, and advances the offset;
    the file is consistent again.  If the machine stops after any number [m] of its
    disk writes, recovery leaves all blocks as they were before the call, or all as
    the call leaves them: the data, the addresses, the bitmap and the size together. *)
Theorem filewrite_atomic C A L k f fl ip x src i :
  fabs me S C A L (kfs k) → quiescent A L →
  ftable k !! f = Some fl → f_ip fl = ip → C !! ip = Some x → at_rest x → file_ok S A x →
  (∀ b, write_space (vw A) x b → outside_log L (Z.of_nat (length (dk A))) b) →
  let c := Z.min max_write (Z.of_nat (length src) - i) in
  0 ≤ i < Z.of_nat (length src) → 0 ≤ f_off fl ≤ i_size x → f_off fl + c ≤ MAXFILE * Bio.BSIZE →
  missing (nodes_of (f_off fl) c) (vw A) x ≤ free_blocks (vw A) S →
  ∃ A' W k' x', filewrite_step me f src i k = Ok (inl (i + c)) k' ∧
    ftable k' !! f = Some (set_f_off (f_off fl + c) fl) ∧ icache (kfs k') !! ip = Some x' ∧ file_ok S A' x' ∧
    x' = set_i_lock 0 0 (with_addrs (i_addrs x') (set_i_size (Z.max (i_size x) (f_off fl + c)) x)) ∧
    (∀ o, 0 ≤ o < i_size x' → file_byte (vw A') x' o =
       if decide (f_off fl ≤ o < f_off fl + c) then src !! Z.to_nat (i + (o - f_off fl)) else file_byte (vw A) x o) ∧
    (∀ b, ¬ write_space (vw A) x b → vw A' b = vw A b) ∧
    Bio.writes (io (base (kfs k'))) = ws A ++ W ∧
    (∀ b, outside_log L (Z.of_nat (length (dk A))) b → Bio.memdisk (io (base (kfs k'))) !! Z.to_nat b = vw A' b) ∧
    crash_safe A A' L W.
Proof.
  intros HF Hq Hfl Hip Hx Hrest Hfo Hout c Hi Hoff Hend Hfree. destruct (chunk_size src i Hi) as (Hc0 & Hc1 & Hc2 & Hlen). fold c in Hc0, Hc1, Hc2, Hlen.
  pose proof (blocks_touched_chunk (f_off fl) c (proj1 Hoff) Hc1) as Hbt.
  destruct (begin_op_ok C A L (kfs k) HF Hq) as (s0 & Eb & HF0).
  destruct (write_locked_grow C A (set_outstanding 1 L) s0 ip x (chunk src i c) (f_off fl) HF0 Hx Hrest Hfo Hoff)
    as (A' & L' & s1 & s2 & s3 & C' & x' & m & E1 & E2 & E3 & HF3 & EC & Haw); rewrite ?Hlen; [done|by apply chunk_enough; [|apply Hoff|..]|].
  rewrite Hlen in E2. pose proof Haw as [Hok Hino Hb _ [Hw Hm] _]. rewrite Hlen in Hino, Hb, Hm.
  destruct (wrote_frame _ _ _ _ _ _ Hw) as (Hdk & Hhd' & Hws & Hst & Hlsz & _). cbn [start lsize set_outstanding] in Hst, Hlsz.
  pose proof HF3 as ((_ & _ & Hlim & _) & _ & HC3). rewrite Hdk in Hlim. pose proof Hq as [_ (_ & _ & Hn0) _ Hlz0 _ _].
  assert (in_tx A' L') as Htx.
  { eapply wrote_tx; [exact Hw|by apply quiescent_tx|exact Hout|done|..]; unfold LOGSIZE, MAXOPBLOCKS in *; cbn; lia. }
  destruct (chunk_commit C A L (kfs k) C' A' L' s3 HF Hq HF3 Htx) as (s4 & W & E4 & HW & Hdone & Hrec); try done. subst ip.
  pose proof (filewrite_step_run k f fl src i s0 s1 s2 s3 s4 Hfl Hi (proj1 Hoff)
    ltac:(fold c; unfold MAXFILE, NINDIRECT, NDIRECT, Bio.BSIZE in Hend; lia) Eb E1 E2 E3 E4) as Erun.
  eexists A', W, _, (set_i_lock 0 0 x'). split; [exact Erun|]. split_and!; try done.
  - apply list_lookup_insert_eq. by eapply lookup_lt_Some.
  - cbn. rewrite HC3, EC. apply list_lookup_insert_eq. by eapply lookup_lt_Some.
  - by apply file_ok_lock.
  - rewrite Hino at 1. done.
  - intros o Hoo. etransitivity; [exact (Hb o Hoo)|]. case_decide as Hin; [|done]. by rewrite lookup_chunk by lia.
  - intros b Hnb. eapply wrote_other; [exact Hw|exact Hnb].
Qed.

(** ** The reservation of [begin_op] *)

(** The nodes of a chunk: at most four blocks and the indirect block. *)
Lemma nodes_of_list off c : 0 ≤ off → c ≤ max_write → ∃ l, nodes_of off c = list_to_set l ∧ (length l ≤ 5)%nat.
Proof.
  intros Hoff Hc. pose proof (blocks_touched_chunk off c Hoff Hc). eexists. split; [reflexivity|].
  destruct (_ <? _); cbn [length]; rewrite length_seqZ; lia.
Qed.

(** C19: A chunk of [filewrite], in a transaction of its own on a log of at least the
    [LOGSIZE] blocks that mkfs makes, never lists more than [MAXOPBLOCKS] blocks in the log header, which is what [begin_op] has reserved:
    the choice of [max_write] is right for a bitmap of up to four blocks. *)
Theorem filewrite_chunk_fits_log C A L s ip x src off :
  let n := Z.of_nat (length src) in
  fabs me S C A (set_outstanding 1 L) s → quiescent A L → C !! ip = Some x → file_ok S A x →
  (∀ b, write_space (vw A) x b → outside_log L (Z.of_nat (length (dk A))) b) → sb_size S ≤ 4 * BPB →
  0 ≤ off ≤ i_size x → off + n ≤ MAXFILE * Bio.BSIZE → n ≤ max_write →
  missing (nodes_of off n) (vw A) x ≤ free_blocks (vw A) S →
  ∃ s', writei me ip src off s = Ok n s' ∧ lh_n (lg (base s')) ≤ MAXOPBLOCKS.
Proof.
  intros n HF Hq Hx Hfo Hout Hbm Hoff Hend Hn Hfree. pose proof (blocks_touched_chunk off n (proj1 Hoff) Hn) as Hbt.
  destruct (writei_after me S C x A (set_outstanding 1 L) ip src off Hx Hfo Hoff Hend s HF) as (A' & L' & x' & s' & m & E & HF' & Haw);
    [by apply chunk_enough; [|apply Hoff|..]|]. fold n in E, Haw. exists s'. split; [done|].
  pose proof Haw as [Hok _ _ _ [Hw Hm] Hd]. fold n in Hm, Hd. pose proof HF' as ((_ & HL & Hlim & _) & _ & _). rewrite HL.
  destruct (wrote_frame _ _ _ _ _ _ Hw) as (Hdk & _). rewrite Hdk in Hlim. pose proof Hq as [[Hdt _] (_ & _ & Hn0) _ Hlz0 _ _].
  assert (in_tx A' L') as Htx.
  { eapply wrote_tx; [exact Hw|by apply quiescent_tx|exact Hout|done|..]; unfold LOGSIZE, MAXOPBLOCKS in *; cbn; lia. }
  rewrite <- (tx_size A' L' Htx). destruct (nodes_of_list off n (proj1 Hoff) Hn) as (l & El & Hl).
  pose proof (size_list_le (seqZ (bmapstart S) 4 ++ (node_addr (vw A') x' <$> l) ++ [home S x])) as Hsize.
  rewrite !length_app, length_seqZ, length_fmap in Hsize. cbn [length] in Hsize.
  assert (size (dt A') ≤ size (list_to_set (seqZ (bmapstart S) 4 ++ (node_addr (vw A') x' <$> l) ++ [home S x]) : gset Z))%nat as Hsub.
  { apply subseteq_size. intros b Hb. rewrite elem_of_list_to_set, !elem_of_app, list_elem_of_singleton.
    destruct (Hd b Hb) as [Hb'|[[Hb'|(_ & k & Hk & <-)]|Hb']]; [rewrite Hdt in Hb'; set_solver| | |by right; right].
    - left. eapply bitmap_list; [|done|done]. apply (fs_space _ _ _ (fo_state _ _ _ Hok)).
    - right. left. apply list_elem_of_fmap_2. by rewrite El, elem_of_list_to_set in Hk. }
  unfold MAXOPBLOCKS. lia.
Qed.

End Atomic.
End FileAtomic.

(** FileExamples: system calls on files on the small disk of FsysExamples: a file
    is created, written, read back and unlinked. *)
Module FileExamples.
Import Log Fsys FsysExamples FsysGrowExamples Syscall File Sysfile SysfileInv FileAtomic.

(** The root inode is on the disk as well. *)
Definition disk1 : list Bio.block := <[32%nat := put_bytes zeros 64 (dinode_bytes root)]> disk0.
Definition closed : file := Fl FD_NONE 0 false false 0 0 0.
Definition kernel1 : kernel :=
  K (Fsys (Fs (Bio.binit disk1) (Lg 2 30 0 0 1 0 (replicate 30 0))) S0 icache0) (replicate 100 closed) [] ∅.

(** A process calls with the arguments [args]; "/f" is at address 100 and "hello"
    at address 104 of its memory. *)
Definition memory0 : mem := mwrite (mwrite (Mem 256 (λ _, x00)) 100 [x2f; x66]) 104 [x68; x65; x6c; x6c; x6f].
Definition with_args (args : list Z) (s : state) : state :=
  let u := user s in
  St (kern s) (U (mwrite (umem u) 4 (concat (le_encode 4 <$> args))) (sz u) 0 (cwd u) (ofile u) (killed u)).
Definition start1 : state := St kernel1 (U memory0 256 0 0 (replicate 16 None) false).
Definition run (call : ST state Z) (args : list Z) : ST state Z := λ s, call (with_args args s).

Definition open := @sys_open pid0 no_devices.
Definition write := @sys_write pid0 no_devices.
Definition read := @sys_read pid0 no_devices.
Definition close := sys_close pid0.
Definition unlink := @sys_unlink pid0 no_devices.
Definition fstat := sys_fstat pid0.

(** open("/f", O_CREATE|O_RDWR), write 5 bytes, open again, read at most 10 bytes to
    address 120, fstat to address 140, close both, unlink, and open in vain. *)
Definition session : ST state (list Z) :=
  let! fd := run open [100; 0x202] in
  let! n := run write [fd; 104; 5] in
  let! fd2 := run open [100; 0] in
  let! m := run read [fd2; 120; 10] in
  let! st := run fstat [fd2; 140] in
  let! c1 := run close [fd] in
  let! c2 := run close [fd2] in
  let! u := run unlink [100] in
  let! fd3 := run open [100; 0] in
  ret [fd; n; fd2; m; st; c1; c2; u; fd3].

(** The results, what was read, and the size of the file. *)
Example session_results :
  match session start1 with
  | Ok r s => r = [0; 5; 1; 5; 0; 0; 0; 0; -1] ∧ mread (umem (user s)) 120 6 = [x68; x65; x6c; x6c; x6f; x00] ∧
              uint_at (umem (user s)) 156 4 = 5
  | Fault => False
  end.
Proof. vm_compute. done. Qed.

(** A process with file 0 open as descriptor 0 duplicates it. *)
Definition dup_state : state :=
  St (K (kfs kernel1) (<[0%nat := Fl FD_INODE 1 true true 0 0 0]> (replicate 100 closed)) [] ∅)
     (U memory0 256 0 0 (<[0%nat := Some 0%nat]> (replicate 16 None)) false).

Lemma dup_counted : counted (λ _, 0) dup_state.
Proof.
  intros [|f] n Hn; [by injection Hn as <-|]. unfold frefs in Hn. cbn [kern dup_state ftable] in Hn.
  rewrite list_lookup_fmap in Hn. change ((<[0%nat:=Fl FD_INODE 1 true true 0 0 0]> (replicate 100 closed)) !! S f) with (replicate 99 closed !! f) in Hn.
  destruct (replicate 99 closed !! f) as [x|] eqn:Hx; [|done]. apply lookup_replicate_1 in Hx as [-> _]. injection Hn as <-. by destruct f.
Qed.

Lemma descriptors_counted_witness : ∃ s', sys_dup dup_state = Ok 1 s' ∧ counted (λ _, 0) s' ∧
  ∀ fd f x, ofile (user s') !! fd = Some (Some f) → ftable (kern s') !! f = Some x → 1 ≤ f_ref x.
Proof.
  assert (match sys_dup dup_state with Ok r _ => r = 1 | Fault => False end) as H by by vm_compute.
  destruct (sys_dup dup_state) as [r s'|] eqn:E; [|done]. subst r. exists s'. split; [done|].
  apply (@descriptors_counted pid0 no_devices (λ _, 0) dup_state sys_dup 1 s'); [done|apply dup_counted|left|done].
Defined.

(** ** An atomic write: four bytes at offset 16 of a file of 48 bytes *)

Definition file_inode : inode := Inode 1 2 1 0 0 1 T_FILE 0 0 1 48 (35 :: replicate 12 0).
Definition icache2 : list inode := file_inode :: replicate 49 unused_inode.
Definition log2 : log := Lg 2 30 0 0 1 0 (replicate 30 0).
Definition open_file : file := Fl FD_INODE 1 true true 0 0 16.
Definition kernel2 : kernel := K (Fsys (Fs (Bio.binit disk0) log2) S0 icache2) [open_file] [] ∅.
Definition src2 : list byte := [x61; x62; x63; x64].

Lemma fabs2 : FsysInv.fabs pid0 S0 icache2 A0 log2 (kfs kernel2).
Proof. split; [|done]. split; [apply LogCrash.binit_abs, fs_blocks0|]. split; [done|]. split; [by vm_compute|done]. Qed.

Lemma quiescent2 : quiescent A0 log2.
Proof.
  split; [done|done|split; [done|by apply Forall_replicate; lia]|done|by vm_compute|].
  exists zeros. split; [by vm_compute|]. split; [done|]. split; [by vm_compute|]. by intros i b.
Qed.

Lemma file_inode_ready : FsysFile.file_ready A0 file_inode.
Proof. destruct root_ready. by split. Qed.
Lemma file_inode_distinct : FsysWrite.file_distinct (BioInv.vw A0) file_inode.
Proof. destruct root_distinct. by split. Qed.

Lemma filewrite_overwrites_atomic_witness : ∃ A' W k', @filewrite_step pid0 no_devices 0 src2 0 kernel2 = Ok (inl 4) k' ∧
  ftable k' !! 0%nat = Some (set_f_off 20 open_file) ∧
  (∀ o, 0 ≤ o < 48 → FsysFile.file_byte (BioInv.vw A') file_inode o =
     if decide (16 ≤ o < 20) then src2 !! Z.to_nat (0 + (o - 16)) else FsysFile.file_byte (BioInv.vw A0) file_inode o) ∧
  (∀ b, ¬ FsysWrite.data_block (BioInv.vw A0) file_inode b → BioInv.vw A' b = BioInv.vw A0 b) ∧
  Bio.writes (io (base (kfs k'))) = W ∧
  (∀ b, FsysTx.outside_log log2 (Z.of_nat (length disk0)) b → Bio.memdisk (io (base (kfs k'))) !! Z.to_nat b = BioInv.vw A' b) ∧
  ∀ m, ∃ s'', recover_from_log pid0 (LogCrash.boot log2 (LogInv.apply_writes (take m W) disk0)) = Ok tt s'' ∧
    ((∀ b, FsysTx.outside_log log2 (Z.of_nat (length disk0)) b → Bio.memdisk (io s'') !! Z.to_nat b = BioInv.vw A0 b) ∨
     (∀ b, FsysTx.outside_log log2 (Z.of_nat (length disk0)) b → Bio.memdisk (io s'') !! Z.to_nat b = BioInv.vw A' b)).
Proof.
  apply (@filewrite_overwrites_atomic pid0 S0 no_devices icache2 A0 log2 kernel2 0 open_file 0 file_inode src2 0 fabs2 quiescent2);
    [done|done|done|by split|apply file_inode_ready|apply file_inode_distinct| |by split|done|by vm_compute].
  intros b (bn & H0 & H1 & H2). unfold Bio.BSIZE in H1. cbn in H1. assert (bn = 0) as -> by lia. injection H2 as <-.
  split; [by split; vm_compute|]. right. by vm_compute.
Defined.

(** ** An atomic write that allocates: four bytes at the end of a file of 6142 bytes,
    into the first block of the indirect range *)

Definition open_file3 : file := Fl FD_INODE 1 true true 0 0 6142.
Definition kernel3 : kernel := K (state3 log2) [open_file3] [] ∅.

Lemma quiescent3 : quiescent A3 log2.
Proof.
  split; [done|done|split; [done|by apply Forall_replicate; lia]|done|by vm_compute|].
  exists zeros. split; [by vm_compute|]. split; [done|]. split; [by vm_compute|]. by intros i b.
Qed.

Lemma filewrite_atomic_witness : ∃ A' W k' x', @filewrite_step pid0 no_devices 0 src3 0 kernel3 = Ok (inl 4) k' ∧
  ftable k' !! 0%nat = Some (set_f_off 6146 open_file3) ∧ icache (kfs k') !! 0%nat = Some x' ∧ FsysWritei.FsysWritei.file_ok S0 A' x' ∧
  x' = set_i_lock 0 0 (FsysGrow.FsysGrow.with_addrs (i_addrs x') (set_i_size 6146 file3)) ∧
  (∀ o, 0 ≤ o < i_size x' → FsysFile.file_byte (BioInv.vw A') x' o =
     if decide (6142 ≤ o < 6146) then src3 !! Z.to_nat (0 + (o - 6142)) else FsysFile.file_byte (BioInv.vw A3) file3 o) ∧
  (∀ b, ¬ write_space S0 (BioInv.vw A3) file3 b → BioInv.vw A' b = BioInv.vw A3 b) ∧
  Bio.writes (io (base (kfs k'))) = W ∧
  (∀ b, FsysTx.outside_log log2 (Z.of_nat (length disk3)) b → Bio.memdisk (io (base (kfs k'))) !! Z.to_nat b = BioInv.vw A' b) ∧
  crash_safe pid0 A3 A' log2 W.
Proof.
  apply (@filewrite_atomic pid0 S0 no_devices icache3 A3 log2 kernel3 0 open_file3 0 file3 src3 0 (fabs3 log2 eq_refl) quiescent3);
    [done|done|done|by split|apply file_ok3| |by split|by split|by vm_compute|exact free_enough3].
  intros b. by apply space3.
Defined.

Lemma filewrite_chunk_fits_log_witness :
  ∃ s', @writei pid0 no_devices 0 src3 6142 (state3 (set_outstanding 1 log2)) = Ok 4 s' ∧ lh_n (lg (base s')) ≤ MAXOPBLOCKS.
Proof.
  apply (@filewrite_chunk_fits_log pid0 S0 no_devices icache3 A3 log2 (state3 (set_outstanding 1 log2)) 0 file3 src3 6142);
    [by apply fabs3|exact quiescent3|done|apply file_ok3|intros b; by apply space3|by vm_compute|by split|done|by vm_compute|exact free_enough3].
Defined.

End FileExamples.
