(* ===== verification/ExecFs.v ===== *)
(** ExecFs: [exec] on the file system of p4: the functions of fs.c, log.c and bio.c
    satisfy the laws that [exec] relies on, on every consistent disk. *)
From Stdlib Require Import Strings.Byte.
From S2P Require Import Prelude Memory Bio BioInv Log LogInv LogCrash Fsys FsysInv FsysFile FsysInode FsysDir FsysPath FsysTrunc FsysNamei FsysExamples Pipe File FileAtomic Kalloc Vm VmMap VmSpace VmUser VmBytes Exec ExecSpec ExecCorrect.
From stdpp Require Import gmap.
Local Open Scope Z_scope.

Module ExecFs.
Import Bio BioInv Log LogInv Fsys FsysInv FsysFile FsysInode FsysDir FsysPath FsysTrunc.FsysIput FsysNamei File FileAtomic Exec ExecSpec.

(** * What a file holds *)

Definition file_data (A : acache) (z : inode) : list byte :=
  omap (λ i, file_byte (vw A) z (Z.of_nat i)) (seq 0 (Z.to_nat (i_size z))).

Section Fs.
Context (me : Z) (S : superblock) `{Devices} (A : acache) (L : log) (cwd : nat) (wd : Z).
Context (Htree : tree_ok S A) (Hwd : used S A wd) (Hq : quiescent A L).

(** The calls of [exec], in the kernel of File. *)
#[export] Instance fs_inodes : Inodes kernel := {
  begin_op := File.begin_op;
  end_op := File.end_op me;
  namei path := File.on_fs (Fsys.namei me cwd path);
  ilock ip := File.on_fs (Fsys.ilock me ip);
  iunlockput ip := File.on_fs (Fsys.iunlockput me ip);
  readi ip off n := File.on_fs (Fsys.readi me ip off n)
}.

Lemma file_data_ok C L' s ip x :
  fabs me S C A L' s → C !! ip = Some x → file_ready A x →
  Z.of_nat (length (file_data A x)) = i_size x ∧ ∀ i, 0 ≤ i < i_size x → file_data A x !! Z.to_nat i = file_byte (vw A) x i.
Proof.
  intros HF Hx Hfr. pose proof (fr_size _ _ Hfr) as Hs. change (MAXFILE * BSIZE) with 71680 in Hs.
  destruct (readi_ok me S C A L' s ip x 0 (i_size x) HF Hx Hfr) as (bytes & s' & _ & _ & Hl & Hb); [lia..|].
  replace (Z.min (i_size x) (i_size x - 0)) with (i_size x) in * by lia.
  assert (file_data A x = bytes) as ->.
  { unfold file_data. apply omap_seq_lookup; [lia|]. intros i Hi. specialize (Hb (Z.of_nat i) ltac:(lia)). rewrite Nat2Z.id in Hb. by rewrite Hb. }
  split; [done|]. intros i Hi. rewrite Hb by done. f_equal; lia.
Qed.

(** A read of the file is a read of its data. *)
Lemma readi_data C L' s ip x off n :
  fabs me S C A L' s → C !! ip = Some x → file_ready A x → 0 ≤ off < 2 ^ 32 → 0 ≤ n < 2 ^ 32 →
  ∃ s', Fsys.readi me ip off n s = Ok (read_result (file_data A x) off n) s' ∧ fabs me S C A L' s'.
Proof.
  intros HF Hx Hfr Ho Hn. destruct (file_data_ok C L' s ip x HF Hx Hfr) as [Hl Hd].
  pose proof (readi_total_ok me S C A L' s ip x off n HF Hx Hfr Ho Hn) as Hr. unfold read_result. rewrite Hl.
  destruct (Z.ltb_spec (i_size x) off); [rewrite decide_True by lia; by exists s|]. destruct (Z.leb_spec (2 ^ 32) (off + n)); [rewrite decide_True by lia; by exists s|].
  rewrite decide_False by lia. cbn [orb] in Hr. destruct Hr as (bytes & s' & E & HF' & Hlen & Hb). exists s'. split; [|done]. rewrite E.
  assert (take (Z.to_nat n) (drop (Z.to_nat off) (file_data A x)) = bytes) as ->; [|by rewrite Hlen].
  apply list_eq_same_length with (length bytes); [done|rewrite length_take, length_drop; lia|]. intros i a b Hi Ha Hb'.
  specialize (Hb (Z.of_nat i) ltac:(lia)). rewrite Nat2Z.id, Hb' in Hb. rewrite lookup_take_lt, lookup_drop in Ha by lia.
  specialize (Hd (off + Z.of_nat i) ltac:(lia)). rewrite <- Hb in Hd. replace (Z.to_nat (off + Z.of_nat i)) with (Z.to_nat off + i)%nat in Hd by lia. congruence.
Qed.

Lemma file_data_core x : file_data A (core x) = file_data A x.
Proof. unfold file_data, file_byte, file_addr. reflexivity. Qed.

Lemma file_data_short z : file_ready A z → Z.of_nat (length (file_data A z)) < 2 ^ 31.
Proof.
  intros Hfr. pose proof (fr_size _ _ Hfr) as Hs. change (MAXFILE * BSIZE) with 71680 in Hs.
  assert (∀ l : list nat, length (omap (λ i, file_byte (vw A) z (Z.of_nat i)) l) ≤ length l)%nat as Hom.
  { intros l. induction l as [|i l IH]; [done|]. cbn. destruct (file_byte _ _ _); cbn; lia. }
  specialize (Hom (seq 0 (Z.to_nat (i_size z)))). rewrite length_seq in Hom. unfold file_data. lia.
Qed.

(** * The states between the calls *)

(** What a path names, and the data in the file. *)
Definition start (path : list byte) : Z := if bool_decide (head path = Some Fsys.SLASH) then ROOTINO else wd.
Definition target (path : list byte) : option Z := resolve S A (start path) (components path).
Definition fs_contents (path : list byte) : option (list byte) :=
  j ← target path; z ← disk_inode S A j; Some (file_data A z).
Definition is_file (j : Z) (d : list byte) : Prop := ∃ z, disk_inode S A j = Some z ∧ i_type z ≠ 0 ∧ i_type z ≠ T_DEV ∧ d = file_data A z.

Lemma resolve_used names inum j : used S A inum → resolve S A inum names = Some j → used S A j.
Proof.
  revert inum. induction names as [|e names IH]; intros inum Hu; cbn [resolve]; [by intros [= <-]|].
  intros (z & Hz & Hr)%bind_Some. destruct (decide (i_type z = T_DIR)) as [Ht|]; [|done]. apply bind_Some in Hr as (k & Hk & Hr).
  eapply IH; [|exact Hr]. destruct (tk_dir _ _ Htree inum z Hz Ht) as [_ Hent]. pose proof (first_in_spec (entry_is (vw A) z e) 0 (i_size z / sizeof_dirent)) as Hf.
  rewrite Hk in Hf. destruct Hf as (Hrg & Hp & _). apply Hent; [done|]. unfold entry_is in Hp. apply andb_true_iff in Hp as [Hp _].
  intros E. by rewrite E in Hp.
Qed.

(** The inode cache at rest: nothing is locked, two entries are free, and the working
    directory has an entry. *)
Record at_ease (C : list inode) : Prop := {
  ae_cache : cache_ok S A C None;
  ae_cwd : ∃ x, C !! cwd = Some x ∧ 0 < i_ref x ∧ i_inum x = wd;
  ae_free : (2 ≤ length (free_entries C))%nat
}.

Lemma like_free_entries C0 C : like C0 C [] → length (free_entries C) = length (free_entries C0).
Proof.
  intros [Hl Hk]. unfold free_entries. revert C0 Hl Hk. induction C as [|x C IH]; intros [|x0 C0] Hl Hk; try done.
  destruct (Hk 0%nat x0 x eq_refl eq_refl) as [Hr _]. unfold extra in Hr. cbn in Hr. rewrite !filter_cons.
  assert (length (filter (λ y, i_ref y = 0%Z) C) = length (filter (λ y, i_ref y = 0%Z) C0)) as IH'
    by (apply IH; [by injection Hl|]; intros i y0 y Hy0 Hy; exact (Hk (Datatypes.S i) y0 y Hy0 Hy)).
  replace (i_ref x) with (i_ref x0) by lia. case_decide; cbn [length]; lia.
Qed.

Lemma like_at_ease C0 C : at_ease C0 → like C0 C [] → cache_ok S A C None → at_ease C.
Proof.
  intros [_ (x0 & Hx0 & Hr0 & Hi0) Hf] Hlk Hco. split; [done| |by rewrite (like_free_entries C0 C Hlk)].
  destruct Hlk as [Hl Hk]. destruct (lookup_lt_is_Some_2 C cwd) as [x Hx]; [rewrite Hl; by eapply lookup_lt_Some|].
  destruct (Hk cwd x0 x Hx0 Hx) as [Hr Hi]. unfold extra in Hr. cbn in Hr. exists x. split; [done|]. split; [lia|]. destruct (Hi Hr0) as [_ ->]. done.
Qed.

Let L1 := set_outstanding 1 L.
Definition fs_idle (k : kernel) : Prop := ∃ C, fabs me S C A L (kfs k) ∧ at_ease C.
Definition fs_busy (k : kernel) : Prop := ∃ C, fabs me S C A L1 (kfs k) ∧ at_ease C.
Definition fs_named (ip : nat) (d : list byte) (k : kernel) : Prop :=
  ∃ C j, at_ease C ∧ new_ref me S A L1 C j ip (kfs k) ∧ is_file j d.
Definition fs_locked (ip : nat) (d : list byte) (k : kernel) : Prop :=
  ∃ C0 C j x, at_ease C0 ∧ fabs me S C A L1 (kfs k) ∧ cache_ok S A C (Some ip) ∧ held_inode me S A C ip j x ∧ like C0 C [ip] ∧ is_file j d.
Definition fs_known (path : list byte) : Prop := ∀ j z, target path = Some j → disk_inode S A j = Some z → i_type z ≠ T_DEV.

(** * The laws *)

Lemma wp_fs {R} (f : ST fsys R) (Q : R → kernel → Prop) k r s :
  f (kfs k) = Ok r s → (∀ k', kfs k' = s → Q r k') → wp (File.on_fs f) Q k.
Proof. intros E HQ. unfold wp, File.on_fs. rewrite E. by apply HQ. Qed.

Lemma begin_fs k : fs_idle k → wp File.begin_op (λ _ k', fs_busy k') k.
Proof.
  intros (C & HF & Hc). destruct (begin_op_ok me S C A L (kfs k) HF Hq) as (s' & E & HF').
  apply wp_bind. eapply wp_fs; [exact E|]. intros k' Hk'. apply wp_ret. exists C. by rewrite Hk'.
Qed.

(** The commit of an operation that has written nothing. *)
Lemma end_fs k : fs_busy k → wp (File.end_op me) (λ _ k', fs_idle k') k.
Proof.
  intros (C & HF & Hc). pose proof Hq as [_ (Ho & Hcm & Hn) _ _ _ _]. pose proof HF as (HA & HS & HC). pose proof HA as (HA0 & HL & Hlim & Hdev).
  assert (Log.end_op me (base (kfs k)) = Ok tt (Fs (io (base (kfs k))) L)) as E.
  { unfold Log.end_op, set_log, commit, gets, modify, bind. cbn [lg io]. rewrite HL. unfold L1. cbn [committing outstanding set_outstanding set_committing lg lh_n io].
    rewrite Hcm. change (1 - 1 =? 0) with true. cbn [negb Z.eqb]. cbn [lh_n lg set_outstanding set_committing io]. rewrite Hn. cbn [Z.ltb Z.compare ret lg io].
    do 2 f_equal. destruct L as [st sz o c dv n bl]. cbn in *. unfold set_committing, set_outstanding. cbn. by subst. }
  eapply wp_fs; [exact (on_base_ok me S C A L1 (kfs k) _ tt _ HF E)|]. intros k' Hk'. exists C. rewrite Hk'. split; [|done]. by split.
Qed.

Lemma namei_fs path k : fs_known path → fs_busy k → wp (File.on_fs (Fsys.namei me cwd path)) (λ r k',
  match fs_contents path with
  | Some d => ∃ ip, r = Some ip ∧ fs_named ip d k'
  | None => r = None ∧ fs_busy k'
  end) k.
Proof.
  intros Hkn (C & HF & Hc). pose proof Hc as [Hco (xc & Hxc & Hr & Hi) Hf].
  pose proof (namei_ok me S A L1 C (kfs k) cwd xc path Htree HF Hco Hxc Hr Hf) as Hn. rewrite Hi in Hn. fold (start path) in Hn. fold (target path) in Hn.
  unfold fs_contents, fs_known in *. destruct (target path) as [j|]; cbn [mbind option_bind].
  - destruct Hn as (ip & s' & E & Hnew). pose proof Hnew as (_ & _ & _ & _ & _ & _ & _ & (z & Hz & Ht)). rewrite Hz. cbn [mbind option_bind].
    eapply wp_fs; [exact E|]. intros k' Hk'. exists ip. split; [done|]. exists C, j. rewrite Hk'. split; [done|]. split; [done|].
    exists z. split_and!; try done. by apply (Hkn j z).
  - destruct Hn as (s' & E & C' & HF' & Hco' & Hlk). eapply wp_fs; [exact E|]. intros k' Hk'. split; [done|]. exists C'. rewrite Hk'. split; [done|].
    by apply (like_at_ease C C').
Qed.

Lemma ilock_fs ip d k : fs_named ip d k → wp (File.on_fs (Fsys.ilock me ip)) (λ _ k', fs_locked ip d k') k.
Proof.
  intros (C0 & j & Hc & (C & x & HF & Hco & Hlk & Hx & Hl & Hu) & Hfile).
  destruct (ilock_ok me S A L1 Htree C (kfs k) ip j x HF Hco Hx Hl) as (s' & y & E & HF' & Hco' & Hh & Hr).
  eapply wp_fs; [exact E|]. intros k' Hk'. exists C0, (<[ip := y]> C), j, y. rewrite Hk'. split; [done|]. split; [done|]. split; [done|]. split; [done|].
  split; [|done]. pose proof Hh as (_ & (_ & ? & ?) & _). destruct Hl as (_ & ? & ?). apply (like_same C0 C [ip] ip x y Hlk Hx); congruence.
Qed.

Lemma iunlockput_fs ip d k : fs_locked ip d k → wp (File.on_fs (Fsys.iunlockput me ip)) (λ _ k', fs_busy k') k.
Proof.
  intros (C0 & C & j & x & Hc & HF & Hco & Hh & Hlk & _).
  destruct (put_back_ok me S A L1 Htree C0 C (kfs k) ip j x HF Hco Hh Hlk) as (s' & E & C' & HF' & Hco' & Hlk').
  eapply wp_fs; [exact E|]. intros k' Hk'. exists C'. rewrite Hk'. split; [done|]. by apply (like_at_ease C0 C').
Qed.

Lemma readi_fs ip d off n k : fs_locked ip d k → 0 ≤ off < 2 ^ 32 → 0 ≤ n < 2 ^ 31 →
  wp (File.on_fs (Fsys.readi me ip off n)) (λ r k', r = read_result d off n ∧ fs_locked ip d k') k.
Proof.
  intros (C0 & C & j & x & Hc & HF & Hco & Hh & Hlk & Hfile) Ho Hn. pose proof Hh as (Hx & _ & _ & _ & _ & Hd & _).
  pose proof Hfile as (z & Hz & Ht & Hdev & Hdz). assert (z = core x) as -> by congruence. rewrite file_data_core in Hdz.
  assert (file_ready A x) as Hfr by (apply ready_core; by eapply tk_file).
  destruct (readi_data C L1 (kfs k) ip x off n HF Hx Hfr Ho ltac:(lia)) as (s' & E & HF'). rewrite Hdz.
  eapply wp_fs; [exact E|]. intros k' Hk'. split; [done|]. exists C0, C, j, x. rewrite Hk'. rewrite <- Hdz. by split_and!.
Qed.

(** The file system of p4 is one that [exec] can work with. *)
#[export] Program Instance fs_files : Files kernel fs_contents := {
  known := fs_known; idle := fs_idle; busy := fs_busy; named := fs_named; locked := fs_locked;
  begin_op_law := begin_fs; end_op_law := end_fs; namei_law := namei_fs; ilock_law := ilock_fs;
  iunlockput_law := iunlockput_fs; readi_law := readi_fs
}.
Next Obligation.
  intros path d Hk (j & Hj & (z & Hz & [= <-])%bind_Some)%bind_Some. apply file_data_short.
  eapply tk_file; [exact Htree|exact Hz| |by eapply Hk]. intros Ht.
  assert (used S A j) as (z' & Hz' & Ht') by (eapply resolve_used; [|exact Hj]; unfold start; case_bool_decide; [apply Htree|done]). congruence.
Qed.

End Fs.
End ExecFs.

(** ExecExamples: [exec] of the program "/ls" on a small disk, with 1100 free pages. *)
Module ExecExamples.
Import BioInv Log LogInv Fsys FsysInv FsysFile FsysInode FsysDir FsysPath FsysNamei FsysExamples File FileAtomic Kalloc Vm VmMap VmSpace VmUser VmKernel VmBytes Exec ExecSpec ExecCorrect ExecFs.

(** * A program file: its header, one segment of 4 bytes at address 0 in 8 bytes of
    memory *)
Definition elf_file : list byte :=
  (le_encode 4 ELF_MAGIC ++ replicate 20 x00) ++ le_encode 4 0 ++ le_encode 4 52 ++ replicate 12 x00 ++ le_encode 2 1 ++ replicate 6 x00 ++
  concat (le_encode 4 <$> [1; 84; 0; 0; 4; 8; 0; 4096]) ++ [x90; x90; xeb; xfe].
Definition ls_path : list byte := [x2f; x6c; x73].
(** * Memory *)

Definition kend0 : Z := 0x80200000.
Definition kdata0 : Z := 0x80108000.
Definition addr (n : nat) : Z := 0x80400000 + Z.of_nat n * 4096.
Definition top (n : nat) : Z := match n with O => 0 | S n => addr n end.
Fixpoint pool (n : nat) : gmap Z (list Z) :=
  match n with O => ∅ | S n => <[addr n := top n :: replicate 1023 0]> (pool n) end.
Fixpoint stock (n : nat) : list Z := match n with O => [] | S n => addr n :: stock n end.

Lemma stock_below n u : u ∈ stock n → ∃ i, (i < n)%nat ∧ u = addr i.
Proof.
  induction n as [|n IH]; cbn [stock]; [by intros ?%not_elem_of_nil|].
  intros [->|(i & ? & ->)%IH]%elem_of_cons; [exists n|exists i]; (split; [lia|done]).
Qed.

Lemma pool_free n : (n ≤ 2000)%nat → free_list kend0 (Phys (top n) (pool n)) (stock n).
Proof.
  assert (∀ m, addr m ∉ stock m) as Hni by (intros m (i & ? & E)%stock_below; unfold addr in E; lia).
  intros Hn. split; cbn [frames freelist].
  - induction n as [|n IH]; [done|]. cbn [stock chain top pool]. split; [done|].
    split; [unfold addr; lia|]. split; [unfold addr, PGSIZE; rewrite Z.mod_add by lia; done|].
    eexists _, _. split; [apply lookup_insert_eq|]. split; [by rewrite length_replicate|]. apply chain_insert; [done|]. apply IH. lia.
  - clear Hn. induction n as [|n IH]; [constructor|]. cbn [stock]. by constructor.
  - intros u (i & Hi & ->)%stock_below. assert (V2P (addr i) = 0x400000 + Z.of_nat i * 4096) as Hv by (unfold V2P, addr, KERNBASE; rewrite u32_small; lia).
    assert (addr i mod PGSIZE = 0) by (unfold addr, PGSIZE; rewrite Z.mod_add by lia; done).
    split; [|unfold kaddr, addr, KERNBASE; split; [lia|done]].
    split; [done|]. rewrite Hv. unfold addr, kend0, PHYSTOP. lia.
Qed.

(** An empty address space, and [n] free pages. *)
Definition empty_space (n : nat) : phys := Phys (top n) (<[addr n := replicate 1024 0]> (pool (S n))).

Lemma empty_space_ok n : (n < 2000)%nat → space kend0 (empty_space n) (addr n) (stock n).
Proof.
  intros Hn. pose proof (pool_free (S n) ltac:(lia)) as Hl.
  destruct (new_dir_ok kend0 _ _ _ Hl) as (m1 & Ek & _ & Hsp & _).
  destruct (kalloc_ok _ _ _ (fl_chain _ _ _ Hl)) as (m2 & Ek2 & _ & Hc). rewrite Ek in Ek2. injection Ek2 as <-.
  assert (freelist m1 = top n) as Hf by (destruct n; exact (proj1 Hc) || exact Hc). by rewrite Hf in Hsp.
Qed.

Definition free : nat := 1100.
Definition boot : phys := empty_space free.
Definition sh : proc := Proc (replicate 16 x00) (addr free) 0 0 0.
Lemma boot_space : space kend0 boot (addr free) (stock free).
Proof. apply empty_space_ok. apply Nat.ltb_lt. reflexivity. Qed.

(** The program starts at address 0 with its two arguments on the third page. *)
#[local] Opaque boot.
Definition arguments : list (list byte) := [ls_path; [x61; x62]].
Lemma plan_facts :
  ∃ t, plan elf_file arguments = Some t ∧
    (s_size t, s_entry t, s_sp t, s_bytes t <$> [0; 1; 2; 3; 4; 0x2ffd]) = (3 * 4096, 0, 0x2fe0, [0x90; 0x90; 0xeb; 0xfe; 0; 0x6c]).
Proof.
  assert ((λ t, (s_size t, s_entry t, s_sp t, s_bytes t <$> [0; 1; 2; 3; 4; 0x2ffd])) <$> plan elf_file arguments =
    Some (3 * 4096, 0, 0x2fe0, [0x90; 0x90; 0xeb; 0xfe; 0; 0x6c])) as H by (vm_compute; reflexivity).
  apply fmap_Some in H as (t & Ht & H). exact (ex_intro _ t (conj Ht (eq_sym H))).
Qed.

(** * The disk: the root directory with the file "ls" *)

Definition ls_inode : inode := Inode 1 2 0 0 0 1 2 0 0 1 88 (36 :: replicate 12 0).
Definition inodes5 : Bio.block := put_bytes (put_bytes zeros 64 (dinode_bytes root)) 128 (dinode_bytes ls_inode).
Definition dir5 : Bio.block := put_bytes zeros 0 (dirent 1 [x2e] ++ dirent 1 [x2e; x2e] ++ dirent 2 [x6c; x73]).
Definition disk5 : list Bio.block :=
  <[32%nat := inodes5]> (<[35%nat := dir5]> (<[36%nat := put_bytes zeros 0 elf_file]> (replicate 64 zeros))).
Definition A5 : acache := AC (λ b, disk5 !! Z.to_nat b) disk5 [] ∅ ∅.
Definition log5 : log := Lg 2 30 0 0 1 0 (replicate 30 0).
Definition kernel5 : kernel := K (Fsys (Fs (Bio.binit disk5) log5) S0 icache0) [] [] ∅.

Lemma fabs5 : FsysInv.fabs pid0 S0 icache0 A5 log5 (kfs kernel5).
Proof.
  split; [|done]. split; [apply LogCrash.binit_abs; repeat apply Forall_insert; [by apply Forall_replicate|by vm_compute..]|].
  split; [done|]. split; [by vm_compute|done].
Qed.

Lemma quiescent5 : quiescent A5 log5.
Proof.
  split; [done|done|split; [done|by apply Forall_replicate; lia]|done|by vm_compute|].
  exists zeros. split; [by vm_compute|]. split; [done|]. split; [by vm_compute|]. by intros i b.
Qed.

Lemma disk5_inode inum z : disk_inode S0 A5 inum = Some z → i_type z ≠ 0 → inum = 1 ∧ z = core root ∨ inum = 2 ∧ z = core ls_inode.
Proof.
  intros Hz Ht. unfold disk_inode in Hz. destruct (decide (0 < inum < ninodes S0)) as [Hr|]; [|done]. cbn in Hr.
  assert (inum = 1 ∨ inum = 2 ∨ inum = 3 ∨ inum = 4 ∨ inum = 5 ∨ inum = 6 ∨ inum = 7) as Hc by lia.
  destruct Hc as [-> |[-> |Hc]]; [left|right|]; [split; [done|]; vm_compute in Hz; injection Hz as <-; by vm_compute..|].
  exfalso. apply Ht. destruct Hc as [-> |[-> |[-> |[-> | ->]]]]; vm_compute in Hz; by injection Hz as <-.
Qed.

Lemma tree5 : tree_ok S0 A5.
Proof.
  split.
  - exists (core root). split; [by vm_compute|done].
  - intros inum (z & Hz & Ht). split; [|by intros i d]. destruct (disk5_inode inum z Hz Ht) as [[-> _]|[-> _]]; by vm_compute.
  - by vm_compute.
  - intros inum z Hz Ht. by destruct (disk5_inode inum z Hz Ht) as [[_ ->]|[_ ->]].
  - intros inum z Hz Ht _. destruct (disk5_inode inum z Hz Ht) as [[_ ->]|[_ ->]];
      (split; [done|done|by vm_compute| |by vm_compute|by vm_compute]); intros bn H0 Hlt; cbn in Hlt; unfold Bio.BSIZE in Hlt;
      assert (bn = 0) as -> by lia; eexists; (split; [reflexivity|split; [by vm_compute|by intros i d]]).
  - intros inum z Hz Ht. destruct (disk5_inode inum z Hz) as [[_ ->]|[_ ->]]; [by rewrite Ht| |done].
    split; [done|]. intros k Hk _. change (i_size (core root) / sizeof_dirent) with 3 in Hk.
    assert (k = 0 ∨ k = 1 ∨ k = 2) as [-> |[-> | ->]] by lia; [exists (core root)..|exists (core ls_inode)]; (split; [by vm_compute|done]).
Qed.

Lemma cache5 : cache_ok S0 A5 icache0 None.
Proof.
  split; [apply icache_ok0| |]; intros i x Hi%list_elem_of_lookup_2 Hx; apply elem_of_cons in Hi as [->|[-> _]%elem_of_replicate]; try done.
  split; [done|]. split; [exists (core root); split; [by vm_compute|done]|]. right. by vm_compute.
Qed.

Lemma ease5 : at_ease S0 A5 0 1 icache0.
Proof. split; [apply cache5|by exists root|apply Nat.leb_le; by vm_compute]. Qed.

Lemma wd5 : used S0 A5 1.
Proof. exists (core root). split; [by vm_compute|done]. Qed.

Lemma namei_correct_witness : ∃ ip s', @Fsys.namei pid0 no_devices 0 ls_path (kfs kernel5) = Ok (Some ip) s' ∧
  new_ref pid0 S0 A5 log5 icache0 2 ip s'.
Proof.
  pose proof (@namei_correct pid0 S0 no_devices A5 log5 icache0 (kfs kernel5) 0 root ls_path tree5 fabs5 cache5 eq_refl eq_refl (ae_free _ _ _ _ _ ease5)) as H.
  assert (resolve S0 A5 (if bool_decide (head ls_path = Some Fsys.SLASH) then ROOTINO else i_inum root) (components ls_path) = Some 2) as E by by vm_compute.
  rewrite E in H. exact H.
Defined.

#[local] Existing Instance no_devices.
#[local] Instance inodes : Inodes kernel := fs_inodes pid0 0.
#[local] Instance laws : Files kernel (fs_contents S0 A5 1) := fs_files pid0 S0 A5 log5 0 1 tree5 wd5 quiescent5.

Lemma contents5 : fs_contents S0 A5 1 ls_path = Some elf_file.
Proof. by vm_compute. Qed.

Lemma known5 : known (contents := fs_contents S0 A5 1) ls_path.
Proof.
  intros j z Hj Hz. assert (target S0 A5 1 ls_path = Some 2) as E by by vm_compute. rewrite E in Hj. injection Hj as <-.
  destruct (decide (i_type z = 0)) as [->|Ht]; [done|]. by destruct (disk5_inode 2 z Hz Ht) as [[? _]|[_ ->]].
Qed.

Lemma exec_correct_witness :
  ∃ t, plan elf_file arguments = Some t ∧
    (s_size t, s_entry t, s_sp t, s_bytes t <$> [0; 1; 2; 3; 4; 0x2ffd]) = (3 * 4096, 0, 0x2fe0, [0x90; 0x90; 0xeb; 0xfe; 0; 0x6c]) ∧
  ∃ s', exec kend0 kdata0 ls_path arguments (St boot kernel5 sh) = Ok 0 s' ∧ replaced (fs_contents S0 A5 1) kend0 boot sh (stock free) ls_path t s'.
Proof.
  destruct plan_facts as (t & Ht & H). exists t. refine (conj Ht (conj H _)). injection H as Hs _ _ _.
  assert (idle (contents := fs_contents S0 A5 1) kernel5) as Hi by (exists icache0; split; [exact fabs5|exact ease5]).
  assert (Forall (λ s, length s < 4096)%nat arguments) as Hshort by (repeat (apply Forall_cons_2; [apply Nat.ltb_lt; reflexivity|]); apply Forall_nil_2; exact I).
  destruct (exec_correct (fs_contents S0 A5 1) kend0 kdata0 eq_refl (conj eq_refl (conj eq_refl eq_refl)) ls_path arguments boot kernel5 sh (stock free) known5 Hi
    boot_space Hshort) as (r & s' & E & Ho).
  rewrite contents5 in Ho. cbn [mbind option_bind] in Ho. rewrite Ht in Ho. cbn [outcome] in Ho.
  destruct Ho as [[-> Hr]|(_ & _ & Hm)]; [exact (ex_intro _ s' (conj E Hr))|].
  exfalso. rewrite Hs in Hm. clear -Hm. vm_compute in Hm. exact (Hm eq_refl).
Defined.

End ExecExamples.
